(* ===== verification/_CoqProject ===== *)
-Q . S2P
Prelude.v
Ranking.v
Redis.v
MapRedis.v
Client.v
State.v
Ledger.v
Windows.v
Reservation.v
Settlement.v
ReservationFacts.v
SettlementFacts.v
ReservationProps.v
Recovery.v
Counters.v
CountersProps.v
Json.v
Cooldown.v
CooldownProps.v
Text.v
Policy.v
Rules.v
Account.v
AccountProps.v
Pool.v
PoolProps.v
Restart.v
Manager.v
ManagerProps.v
ApiKey.v
ApiKeyProps.v
Candidate.v
CandidateProps.v
TextFacts.v
Pattern.v
Retry.v
JsonFacts.v
Terminal.v
RetryProps.v
Loop.v
LoopProps.v
Catalog.v
CatalogProps.v
Fallback.v
FallbackProps.v
Selection.v
Routing.v
Acquire.v
SelectionProps.v
RoutingProps.v
AcquireProps.v
Usage.v
UsageProps.v
Stream.v
StreamProps.v
Messages.v
MessagesProps.v
Convert.v
ConvertProps.v
Masking.v
MaskingProps.v
Context.v
ContextProps.v
Graph.v
GraphProps.v
Refs.v
RefsProps.v
PredicateProps.v
Workflow.v
WorkflowProps.v
Inputs.v
InputsProps.v
Delivery.v
DeliveryProps.v
Launch.v
LaunchProps.v
