(* ===== verification/Prelude.v ===== *)
(** * Ai Lubricant: the core of the gateway, its agent runtime and its task delivery

    Ai Lubricant is a gateway for language-model APIs with an agent runtime on top.  A
    client request is repaired and, where needed, translated; an account of a channel is
    selected among the models of the catalogue and reserved against its limits; the request
    is sent upstream, its stream is rendered for the client, and the reservation is settled
    by the real usage or rolled back.  Failures freeze accounts, are retried, move to
    another candidate or group, or are answered.  Agents keep a bounded history and run
    workflows; user messages are delivered to the runtimes of their tasks.  The state that
    must not go wrong is shared: in Redis, in the memory of each process, in the rows of a
    database.  This development models that core as executable definitions, file by file as
    the source is written, and proves what makes it correct.

    ** Parts

    - The server and its client.  [Redis] states the commands the code sends and their
      documented effect as a class with laws ([Redis], [RedisLaws]); [MapRedis] is a
      concrete instance, on which the witnesses compute.  [Client] is the client of
      src/server/rd.py and the calling convention of src/limits/backend.py: key prefixes, a
      round trip that fails before or after the server executed it, exceptions swallowed or
      passed on.  [State] threads the state of the process over it.
    - The ledger (src/limits/backend.py).  [Ledger] is the abstract value of one accounting
      window and the hash that stores it; [Windows] the window identifiers; [Reservation]
      the reserve and rollback scripts, heartbeats and the orphan reaper; [Settlement] the
      settlement script and the leases.  [ReservationFacts] and [SettlementFacts] relate
      each script to the abstract ledgers; [ReservationProps] and [Recovery] hold the
      theorems.
    - Counters and freeze records (same file): [Counters] and [Cooldown].  [Json] and [Text]
      are the parts of Python's json, int, float and str that all other files use.
    - Freezing accounts.  [Policy] (src/server/limit_policy_store.py, channel.py) turns a
      failed response into an action; [Account] (AccountClient of
      src/server/rate_limiter.py) holds the freeze buckets; [Pool] (ProviderPool) applies
      actions and schedules the writes; [Restart] runs them against Redis and rebuilds the
      buckets from it.
    - Reserving accounts.  [Rules] (src/limits/rules.py) is the data; [Manager]
      (src/limits/manager.py) ties the account to the ledgers; [Candidate]
      (src/server/request_reservations.py) is the handle of the request pipeline; [ApiKey]
      the limiter of API keys.
    - Failures.  [Pattern] and [Retry] (src/server/retry_policy.py) parse and classify an
      error; [Terminal] (src/main.py) is what leaves the gateway; [Loop]
      (_chat_with_retry_for_model of src/main.py) is the loop over candidates and
      repetitions, on the handles of [Candidate].
    - Models and groups.  [Catalog] (src/server/model_catalog.py, config.py) publishes the
      catalogue with its fallback schemes; [Fallback] (src/main.py) is the loop over groups,
      whose hops are runs of [Loop].
    - Selection (ModelClientPool of src/server/rate_limiter.py).  [Selection] collects the
      candidates, [Routing] orders, picks and reserves them, [Acquire] is
      _get_available_client_with_provider over routes, groups and models; [Ranking] is
      Python's sorted, min and counters.
    - Messages.  [Usage] (src/server/usage_utils.py) normalises token usage; [Stream],
      [Messages] and [Convert] (src/server/message_utils.py) render a stream, repair a
      conversation and translate requests and answers between dialects; [Masking]
      (src/security/masking.py) hides credentials.
    - The agent runtime.  [Context] (src/agent/context_manager.py) bounds and rebuilds a
      history; [Graph], [Refs] and [Workflow] (src/agent/workflow.py) are the graph of a
      workflow, its references and predicates, its checks and its runner; [Inputs] its
      declared inputs; [Launch] (src/agent/workflow_service.py) the runs of a launch.
    - Delivery.  [Delivery] (src/user_platform/task_service.py, message_status_machine.py):
      the row of a user message, the claim, the push, and concurrent requests.

    The theorems about a file [X] are in [XProps]; general facts are in [TextFacts] (text
    and numerals), [JsonFacts] (reading back what was written) and below in this file.

    ** How state and operations correspond

    A Redis-side operation is a computation in [M R]: an environment (server state and the
    outcomes of the coming round trips) goes in, a value or an exception and the new
    environment come out.  A Lua script is a pure function on the server state, because the
    server runs it atomically.  A method that also works on the memory of the process is in
    [ST world R]; one that schedules tasks on the event loop collects them in order
    ([Pool.P]).  A function that raises gives [None].  A generator gives what it yielded and
    its final state, [None] after an exception ([Stream]).  Interleavings are explicit: lists
    of scripts and key expiries for the ledger, calls for the handle, turns for the loop, a
    step relation over started and finished nodes for a workflow, requests cut into
    operations for delivery.  Shared objects are shared: candidates refer to accounts by
    channel and position, and reading an account drops its expired freezes.  Times are
    microseconds in [Z]; Python's integers are unbounded, and so are [Z] and the numerals
    stored as text; int() of a JSON number that is no integer rounds to the nearest double
    first ([Text.float_int]).

    ** What the theorems show

    - Ledger: the reserve script accepts exactly what the limits allow ([reserve_decision]);
      an accepted call is an insertion in the abstract ledgers and nothing else
      ([reserve_refines_ledger]); a refusal leaves no trace ([reserve_refused_no_trace]);
      every interleaving keeps totals and bookings in step ([ledger_invariant]); rollback and
      settlement are exact and idempotent ([rollback_exact], [reconcile_settles]).
    - Crash: the reaper never touches the reservation of a process that may be alive
      ([reap_spares_live]) and one pass clears those of all dead ones ([reap_recovers]);
      freezes survive a restart ([freeze_survives_restart]).
    - Requests: a rolled back attempt restores everything ([failed_attempt_restores]); an
      attempt is settled or rolled back once and gives its slot back once
      ([candidate_balanced]); the loop ends, bounds its requests and closes every account
      ([request_terminates], [candidates_closed]); an overflow ends the request at once
      ([overflow_ends_request]).
    - Selection: the candidates are the documented ones ([collected_exact]), the loop gives
      up only when it must ([selection_complete]), an account given is one the request admits
      ([acquisition_sound]); groups follow the configured chain ([fallback_is_chain],
      [scheme_chain]); a freeze rule is one map over the pool ([policy_freeze_exact]).
    - Messages: the converted stream is well formed, carries the upstream's content and
      fails only where stated ([stream_well_formed], [stream_content],
      [stream_fails_exactly]); the repair groups, pairs and splits exactly
      ([repack_groups], [cleanup_pairs], [split_lossless]); a conversation through the other
      dialect comes back as stated ([through_openai]); masking is exact ([masking_exact]).
    - Agents: trimming keeps what must stay ([trim_keeps]); the check for cycles and the
      schedule agree ([acyclic_iff_scheduled]); predicates mean what they say
      ([predicate_means]); runs end ([run_total]), do not depend on the order of their nodes
      ([interleavings_agree]), keep failures local ([failure_localizes]) and skip or succeed
      as documented ([node_outcome]); inputs have their types ([run_inputs_sound]); a launch
      makes one run per account ([fan_out]).
    - Delivery: rows follow the status table ([delivery_follows_table]), a message gets to
      the node once while nothing fails ([single_delivery]), and a request that is alone does
      its work ([send_alone]).
    - The other theorems of the same files are lemmas of the library; some, and the modules
      named Sample, show what the code does where it does not do what it means to.

    ** Assumptions and bounds

    Parameters and inputs stand for what is not in the repository or not deterministic: the
    Redis server ([RedisLaws]) and its failures, the answers of upstream services, provider
    adapters and executors, random draws and floating-point scores ([Routing.dice]), one
    reading of the clock per collection, token estimates, fresh identifiers, the matches of
    compiled patterns, summaries by a language model, the digest of an API key, the UTC
    offset of the host, [py_str] (Python's str of floats and containers), the stored
    accounts, the runtimes and nodes of tasks.  Workflow theorems about order and failure
    ask for executors that read no more than a node may refer to, and for no loops.

    Text is UTF-8 bytes with ASCII character classes.  JSON objects have distinct keys.
    Numbers are compared exactly.  An infinite number raises OverflowError where [Usage]
    reads it; elsewhere its conversion counts as one that fails.  Node identifiers of a
    workflow are taken as written.

    Fuel, and why it is enough: the readers of JSON, references and predicates get the length
    of their text; the batches of the reaper the number of reservations; backup chains and
    the loop over groups the number of groups; the selection loop the number of candidates;
    unique fakes the number of fakes; splitting the length of the text; trimming and planning
    the number of messages; reachability, the check for cycles and the layers the number of
    nodes and edges; nested loops of a workflow the number of its nodes; schemas their depth.
    Each use has a theorem that the bound suffices, or that the result does not depend on it.
    The other loops are structural; the retry loop runs over the list of its turns, and
    enough of them end it.

    ** Not modelled

    Floating-point scores and weighted draws, model refresh, account initialisation and
    health checks, limits read from response headers, the converters of the Responses
    dialect, tokenizers, the executors and the scheduler of workflows, the start of task
    runtimes, detectors and the storage of rules, HTTP handlers, the administration API,
    persistence, MCP servers, the rest of the user and testing platforms, desktop and
    deployment, logging and statistics: they are I/O over the modelled core, third-party
    code, or separate products of the repository. *)
From Stdlib Require Import ZArith Lia DecimalString DecimalZ.
From Stdlib Require Export Ascii.
From stdpp Require Export prelude gmap strings list fin_maps fin_map_dom.
Export ListNotations.
#[global] Open Scope Z_scope.

(** ** Notations of the development *)

Declare Scope lub_scope.
Delimit Scope lub_scope with lub.
Infix "+++" := String.append (at level 60, right associativity) : lub_scope.
#[global] Open Scope lub_scope.

(** ** Strings *)

#[global] Arguments String.append !_ _ / : simpl nomatch.

Lemma append_assoc (a b c : string) : (a +++ b) +++ c = a +++ b +++ c.
Proof. induction a as [|ch a IH]; simpl; [done | by rewrite IH]. Qed.

Lemma append_inj_l (a b c : string) : a +++ b = a +++ c <-> b = c.
Proof. split; [| by intros ->]. induction a as [|ch a IH]; simpl; [done | intros H; injection H; auto]. Qed.

Lemma append_nil_r (a : string) : a +++ "" = a.
Proof. induction a as [|ch a IH]; simpl; [done | by rewrite IH]. Qed.

Lemma length_append (a b : string) :
  String.length (a +++ b) = (String.length a + String.length b)%nat.
Proof. induction a as [|ch a IH]; simpl; [done | by rewrite IH]. Qed.

Lemma append_inj_r (a b c : string) : a +++ c = b +++ c -> a = b.
Proof.
  revert b. induction a as [|x a IH]; intros [|y b]; simpl; intros H; try done.
  - apply (f_equal String.length) in H. simpl in H. rewrite length_append in H. lia.
  - apply (f_equal String.length) in H. simpl in H. rewrite length_append in H. lia.
  - injection H as -> H. by rewrite (IH _ H).
Qed.

(** Every Redis key is a literal prefix followed by variable parts.
    [str_neq] refutes an equation between two such keys: it strips the common
    prefix, literal or variable, and closes on the first different character. *)
Ltac str_neq :=
  match goal with
  | |- _ <> _ => let H := fresh in intro H; str_neq
  | H : @eq string _ _ |- False =>
      repeat (first [ rewrite !append_assoc in H | progress simpl in H ]);
      repeat (first [ apply append_inj_l in H; simpl in H | injection H; clear H; intros H ]);
      first [ discriminate H | congruence ]
  end.

(** [s.startswith(p)] *)
Fixpoint startswith (p s : string) : bool :=
  match p, s with
  | EmptyString, _ => true
  | String a p', String b s' => bool_decide (a = b) && startswith p' s'
  | _, _ => false
  end.

Lemma startswith_append (p s : string) : startswith p (p +++ s) = true.
Proof. induction p as [|a p IH]; simpl; [done|]. by rewrite bool_decide_eq_true_2. Qed.

Lemma startswith_spec (p s : string) : startswith p s = true <-> exists t, s = p +++ t.
Proof.
  split; [| intros [t ->]; apply startswith_append].
  revert s. induction p as [|a p IH]; intros s; simpl; [by exists s|].
  destruct s as [|b s]; [done|]. intros [Ha Hp]%andb_prop.
  apply bool_decide_eq_true in Ha as ->. destruct (IH s Hp) as [t ->]. by exists t.
Qed.

(** [s[n:]] *)
Fixpoint str_drop (n : nat) (s : string) : string :=
  match n, s with
  | O, _ => s
  | S n', String _ s' => str_drop n' s'
  | S _, EmptyString => EmptyString
  end.

Lemma str_drop_append (p s : string) : str_drop (String.length p) (p +++ s) = s.
Proof. by induction p. Qed.

(** [s[:n]] *)
Fixpoint str_take (n : nat) (s : string) : string :=
  match n, s with
  | S n', String c s' => String c (str_take n' s')
  | _, _ => EmptyString
  end.

(** [s.endswith(p)] *)
Definition endswith (p s : string) : bool :=
  (String.length p <=? String.length s)%nat &&
  bool_decide (str_drop (String.length s - String.length p) s = p).

(** Python truthiness of a string, and [a or b] on strings. *)
Definition str_truthy (s : string) : bool := match s with EmptyString => false | _ => true end.
Definition str_or (a b : string) : string := if str_truthy a then a else b.

(** [s.split(c, 1)] when [c] occurs in [s]. *)
Fixpoint cut_at (c : ascii) (s : string) : option (string * string) :=
  match s with
  | EmptyString => None
  | String a s' =>
      if decide (a = c) then Some (EmptyString, s')
      else '(x, y) ← cut_at c s'; Some (String a x, y)
  end.

(** [c in s] *)
Fixpoint str_mem (c : ascii) (s : string) : bool :=
  match s with
  | EmptyString => false
  | String a s' => bool_decide (a = c) || str_mem c s'
  end.

Lemma cut_at_append c a b : str_mem c a = false -> cut_at c (a +++ String c b) = Some (a, b).
Proof.
  induction a as [|x a IH]; simpl; [by rewrite decide_True|].
  intros [Hx Ha]%orb_false_elim. apply bool_decide_eq_false in Hx.
  by rewrite decide_False, IH.
Qed.

Lemma cut_at_spec c s a b : cut_at c s = Some (a, b) -> s = a +++ String c b /\ str_mem c a = false.
Proof.
  revert a b. induction s as [|x s IH]; intros a b; simpl; [done|].
  case_decide as Hx; [intros [= <- <-]; by subst|].
  destruct (cut_at c s) as [[u v]|]; simpl; [|done]. intros [= <- <-].
  destruct (IH u v eq_refl) as [-> Hu]. simpl. by rewrite bool_decide_eq_false_2, Hu.
Qed.

Lemma cut_at_none c s : str_mem c s = false -> cut_at c s = None.
Proof.
  induction s as [|x s IH]; simpl; [done|].
  intros [Hx Hs]%orb_false_elim. apply bool_decide_eq_false in Hx.
  by rewrite decide_False, (IH Hs).
Qed.

Lemma str_mem_append c a b : str_mem c (a +++ b) = str_mem c a || str_mem c b.
Proof. induction a as [|x a IH]; simpl; [done|]. by rewrite IH, orb_assoc. Qed.

(** The last occurrence of [c] splits a string in one way. *)
Lemma append_last c a a' b b' :
  str_mem c b = false -> str_mem c b' = false -> a +++ String c b = a' +++ String c b' -> b = b'.
Proof.
  revert a'. induction a as [|x a IH]; intros [|y a'] Hb Hb'; simpl; intros Heq; injection Heq as Heq; subst.
  - done.
  - by rewrite str_mem_append in Hb; simpl in Hb; rewrite bool_decide_eq_true_2, orb_true_r in Hb.
  - by rewrite str_mem_append in Hb'; simpl in Hb'; rewrite bool_decide_eq_true_2, orb_true_r in Hb'.
  - by eapply IH.
Qed.

(** ** Numbers in text

    [tostring]/[tonumber] of Lua and [str]/[int] of Python on integers: the
    decimal numeral with an optional minus sign. *)
Definition tostring (z : Z) : string := NilZero.string_of_int (Z.to_int z).
Definition tonumber (s : string) : option Z := Z.of_int <$> NilZero.int_of_string s.

Lemma tonumber_tostring z : tonumber (tostring z) = Some z.
Proof.
  unfold tonumber, tostring.
  rewrite NilZero.isi.
  - simpl. by rewrite DecimalZ.of_to.
  - destruct z; simpl; try done; intros H; injection H as H; by apply DecimalPos.Unsigned.to_uint_nonnil in H.
  - destruct z; simpl; try done; intros H; injection H as H; by apply DecimalPos.Unsigned.to_uint_nonnil in H.
Qed.

#[export] Instance tostring_inj : Inj (=) (=) tostring.
Proof. intros x y H. apply (f_equal tonumber) in H. rewrite !tonumber_tostring in H. by injection H. Qed.

(** ** Sums over finite maps *)

Definition msum {V} (f : V -> Z) (m : gmap string V) : Z := map_fold (fun _ v acc => f v + acc) 0 m.

Section msum.
Context {V : Type} (f : V -> Z).
Implicit Types m : gmap string V.

Lemma msum_empty : msum f ∅ = 0.
Proof. apply map_fold_empty. Qed.

Lemma msum_insert_fresh m k v : m !! k = None -> msum f (<[k:=v]> m) = f v + msum f m.
Proof. intros. unfold msum. rewrite map_fold_insert_L; [done| intros; lia | done]. Qed.

Lemma msum_delete m k v : m !! k = Some v -> msum f m = f v + msum f (delete k m).
Proof. intros H. unfold msum. rewrite (map_fold_delete_L _ _ k v m); [done | intros; lia | done]. Qed.

Lemma msum_delete_default m k : msum f (delete k m) = msum f m - default 0 (f <$> m !! k).
Proof.
  destruct (m !! k) as [v|] eqn:E; simpl.
  - rewrite (msum_delete _ _ _ E). lia.
  - rewrite delete_id by done. lia.
Qed.

Lemma msum_insert m k v : msum f (<[k:=v]> m) = msum f m - default 0 (f <$> m !! k) + f v.
Proof.
  rewrite <- insert_delete_eq, msum_insert_fresh by apply lookup_delete_eq.
  rewrite msum_delete_default. lia.
Qed.

Lemma msum_nonneg m : map_Forall (fun _ v => 0 <= f v) m -> 0 <= msum f m.
Proof.
  induction m as [|k v m Hk IH] using map_ind; [by rewrite msum_empty|].
  rewrite map_Forall_insert by done. intros [Hv Hm]. rewrite msum_insert_fresh by done.
  specialize (IH Hm). lia.
Qed.

Lemma msum_ge m k v : map_Forall (fun _ v => 0 <= f v) m -> m !! k = Some v -> f v <= msum f m.
Proof.
  intros Hm Hk. rewrite (msum_delete _ _ _ Hk).
  assert (0 <= msum f (delete k m)); [|lia].
  apply msum_nonneg. by apply map_Forall_delete.
Qed.
End msum.

(** ** Insertion-ordered dicts *)

(** [d.setdefault(k, []).append(v)] on an insertion-ordered dict. *)
Fixpoint dict_append {A} (k : string) (v : A) (d : list (string * list A)) : list (string * list A) :=
  match d with
  | [] => [(k, [v])]
  | (k', l) :: d' => if decide (k = k') then (k', l ++ [v]) :: d' else (k', l) :: dict_append k v d'
  end.

(** [d[k] = v] on an insertion-ordered dict. *)
Fixpoint dict_set {A} (k : string) (v : A) (d : list (string * A)) : list (string * A) :=
  match d with
  | [] => [(k, v)]
  | (k', x) :: d' => if decide (k = k') then (k', v) :: d' else (k', x) :: dict_set k v d'
  end.

Fixpoint dict_get {A} (k : string) (d : list (string * A)) : option A :=
  match d with
  | [] => None
  | (k', x) :: d' => if decide (k = k') then Some x else dict_get k d'
  end.

(** [d.pop(k, None)] *)
Definition dict_del {A} (k : string) (d : list (string * A)) : list (string * A) :=
  filter (fun kx => kx.1 <> k) d.

Lemma dict_get_set {A} k k' (v : A) d : dict_get k' (dict_set k v d) = if decide (k' = k) then Some v else dict_get k' d.
Proof.
  induction d as [|[k0 x] d IH]; simpl; [done|].
  destruct (decide (k = k0)) as [->|Hne]; simpl; repeat case_decide; subst; try done; by rewrite IH, ?decide_True, ?decide_False.
Qed.

Lemma dict_get_del {A} k k' (d : list (string * A)) : dict_get k' (dict_del k d) = if decide (k' = k) then None else dict_get k' d.
Proof.
  induction d as [|[k0 x] d IH]; [by case_decide|]. unfold dict_del in *. rewrite filter_cons. simpl.
  destruct (decide (k0 <> k)) as [Hne|Heq].
  - simpl. rewrite IH. repeat case_decide; congruence.
  - rewrite IH. apply dec_stable in Heq. repeat case_decide; congruence.
Qed.

Lemma dict_get_None {A} k (d : list (string * A)) : dict_get k d = None <-> k ∉ d.*1.
Proof.
  induction d as [|[k' x] d IH]; simpl; [set_solver|]. rewrite not_elem_of_cons.
  case_decide as Hd; [split; [done | intros [? _]; done] | rewrite IH; tauto].
Qed.

Lemma dict_get_Some_elem {A} k x (d : list (string * A)) : dict_get k d = Some x -> (k, x) ∈ d.
Proof.
  induction d as [|[k' y] d IH]; simpl; [done|]. case_decide as Hd; [intros [= ->]; subst; left | intros; right; auto].
Qed.
Lemma filter_all {A} (P : A -> Prop) `{!forall x, Decision (P x)} (xs : list A) : Forall P xs -> filter P xs = xs.
Proof. induction 1 as [|x xs Hx _ IH]; [done|]. by rewrite filter_cons_True, IH. Qed.
Lemma filter_none {A} (P : A -> Prop) `{!forall x, Decision (P x)} (xs : list A) : Forall (fun x => ~ P x) xs -> filter P xs = [].
Proof. induction 1 as [|x xs Hx _ IH]; [done|]. by rewrite filter_cons_False. Qed.
Lemma dict_set_keys {A} k (v : A) d : NoDup d.*1 -> NoDup (dict_set k v d).*1.
Proof.
  induction d as [|[k' x] d IH]; simpl; [intros _; apply NoDup_singleton|].
  intros [Hk Hd]%NoDup_cons. case_decide as Hk'; simpl; [by constructor|].
  constructor; [|by apply IH]. rewrite <- dict_get_None, dict_get_set, decide_False, dict_get_None by congruence. done.
Qed.

Lemma dict_get_filter {A} (P : string * A -> Prop) `{!forall x, Decision (P x)} k d :
  NoDup d.*1 -> dict_get k (filter P d) = match dict_get k d with
                                          | Some x => if decide (P (k, x)) then Some x else None
                                          | None => None
                                          end.
Proof.
  induction d as [|[k' x] d IH]; [done|]. intros [Hk Hd]%NoDup_cons. rewrite filter_cons. simpl.
  destruct (decide (k = k')) as [->|Hne].
  - case_decide as HP; simpl; [by rewrite decide_True|]. rewrite IH by done.
    by rewrite (proj2 (dict_get_None k' d)).
  - case_decide; simpl; [rewrite decide_False by done|]; by rewrite IH.
Qed.

(** ** Automation *)

Create HintDb lub discriminated.

(** Turn the boolean tests of the code into propositions and split on them. *)
Ltac btrue :=
  repeat match goal with
  | H : (_ && _) = true |- _ => apply andb_prop in H as [? ?]
  | H : (_ || _) = false |- _ => apply orb_false_elim in H as [? ?]
  | H : negb _ = true |- _ => apply negb_true_iff in H
  | H : negb _ = false |- _ => apply negb_false_iff in H
  | H : (_ <? _)%Z = true |- _ => apply Z.ltb_lt in H
  | H : (_ <? _)%Z = false |- _ => apply Z.ltb_ge in H
  | H : (_ <=? _)%Z = true |- _ => apply Z.leb_le in H
  | H : (_ <=? _)%Z = false |- _ => apply Z.leb_gt in H
  | H : (_ =? _)%Z = true |- _ => apply Z.eqb_eq in H
  | H : (_ =? _)%Z = false |- _ => apply Z.eqb_neq in H
  end.
