(* ===== verification/Ranking.v ===== *)
(** Python's [sorted] with a tuple key, [min]/[max] with a key, and dicts used as
    counters, with the facts their clients need. *)
From Stdlib Require Import Sorting.Sorted.
From S2P Require Import Prelude.

(** ** Tuples of integers, compared as Python compares them *)

Fixpoint tuple_lt (a b : list Z) : bool :=
  match a, b with
  | [], _ :: _ => true
  | x :: a', y :: b' => (x <? y) || ((x =? y) && tuple_lt a' b')
  | _, [] => false
  end.

Lemma tuple_lt_irrefl a : tuple_lt a a = false.
Proof. induction a as [|x a IH]; simpl; [done|]. by rewrite Z.ltb_irrefl, Z.eqb_refl, IH. Qed.

Lemma tuple_lt_trans a b d : tuple_lt a b = true -> tuple_lt b d = true -> tuple_lt a d = true.
Proof.
  revert b d. induction a as [|x a IH]; intros [|y b] [|z d]; simpl; try done.
  rewrite !orb_true_iff, !andb_true_iff, !Z.ltb_lt, !Z.eqb_eq.
  intros [?|[-> ?]] [?|[-> ?]]; [left; lia | left; lia | left; lia | right; eauto].
Qed.

Lemma tuple_lt_total a b : tuple_lt a b = false -> tuple_lt b a = false -> a = b.
Proof.
  revert b. induction a as [|x a IH]; intros [|y b]; simpl; try done.
  rewrite !orb_false_iff, !andb_false_iff, !Z.ltb_ge, !Z.eqb_neq. intros [? Hx] [? Hy].
  assert (x = y) as -> by lia. f_equal. apply IH; [by destruct Hx | by destruct Hy].
Qed.

(** Not smaller is transitive. *)
Lemma tuple_le_trans a b d : tuple_lt b a = false -> tuple_lt d b = false -> tuple_lt d a = false.
Proof.
  intros H1 H2. destruct (tuple_lt d a) eqn:E; [|done]. exfalso.
  destruct (tuple_lt a b) eqn:Eab.
  - rewrite (tuple_lt_trans d a b) in H2; done.
  - rewrite (tuple_lt_total a b Eab H1) in E. congruence.
Qed.

(** ** sorted(l, key=key): stable *)

Section sorted.
Context {A : Type} (key : A -> list Z).
Implicit Types xs ys : list A.

Fixpoint insert_key (x : A) xs : list A :=
  match xs with
  | [] => [x]
  | y :: ys => if tuple_lt (key x) (key y) then x :: xs else y :: insert_key x ys
  end.
Definition sorted_by xs : list A := foldl (fun acc x => insert_key x acc) [] xs.

(** The first element with the smallest key. *)
Fixpoint min_by xs : option A :=
  match xs with
  | [] => None
  | x :: ys => match min_by ys with
               | Some y => Some (if tuple_lt (key y) (key x) then y else x)
               | None => Some x
               end
  end.

Lemma insert_key_perm x xs : insert_key x xs ≡ₚ x :: xs.
Proof. induction xs as [|y ys IH]; simpl; [done|]. case_match; [done|]. rewrite IH. apply Permutation_swap. Qed.

Lemma foldl_insert_perm xs acc : foldl (fun acc x => insert_key x acc) acc xs ≡ₚ xs ++ acc.
Proof.
  revert acc. induction xs as [|x xs IH]; intros acc; simpl; [done|].
  by rewrite IH, insert_key_perm, Permutation_middle.
Qed.

Lemma sorted_by_perm xs : sorted_by xs ≡ₚ xs.
Proof. unfold sorted_by. by rewrite foldl_insert_perm, app_nil_r. Qed.

Definition key_le (x y : A) : Prop := tuple_lt (key y) (key x) = false.

Lemma insert_key_sorted x xs : StronglySorted key_le xs -> StronglySorted key_le (insert_key x xs).
Proof.
  induction 1 as [|y ys Hs IH Hall]; simpl; [repeat constructor|].
  destruct (tuple_lt (key x) (key y)) eqn:E.
  - assert (key_le x y) as Hxy.
    { unfold key_le. destruct (tuple_lt (key y) (key x)) eqn:E'; [|done].
      pose proof (tuple_lt_trans _ _ _ E E') as Hf. by rewrite tuple_lt_irrefl in Hf. }
    constructor; [by constructor|]. constructor; [done|].
    eapply Forall_impl; [exact Hall|]. intros z Hz. by apply (tuple_le_trans _ (key y)).
  - constructor; [done|]. rewrite insert_key_perm. by constructor.
Qed.

Lemma sorted_by_sorted xs : StronglySorted key_le (sorted_by xs).
Proof.
  unfold sorted_by. assert (forall acc, StronglySorted key_le acc -> StronglySorted key_le (foldl (fun acc x => insert_key x acc) acc xs)) as Hg.
  { induction xs as [|x xs IH]; intros acc Ha; simpl; [done|]. by apply IH, insert_key_sorted. }
  apply Hg. constructor.
Qed.

(** Elements of one key keep their order. *)
Lemma insert_key_stable k x xs : StronglySorted key_le xs ->
  filter (fun y => key y = k) (insert_key x xs) = filter (fun y => key y = k) (xs ++ [x]).
Proof.
  induction 1 as [|y ys Hs IH Hall]; simpl; [done|].
  destruct (tuple_lt (key x) (key y)) eqn:E.
  - rewrite filter_cons. destruct (decide (key x = k)) as [Hx|Hx].
    + rewrite (filter_app _ (y :: ys) [x]), (filter_cons_True _ x []) by done.
      enough (filter (fun y => key y = k) (y :: ys) = []) as -> by done.
      apply filter_none. constructor.
      * intros Hy. rewrite <- Hx in Hy. rewrite Hy, tuple_lt_irrefl in E. done.
      * eapply Forall_impl; [exact Hall|]. intros z Hz Hk. rewrite <- Hx in Hk. unfold key_le in Hz.
        rewrite Hk in Hz. congruence.
    + change (y :: ys ++ [x]) with ((y :: ys) ++ [x]).
      by rewrite filter_app, (filter_cons_False _ x []), app_nil_r.
  - rewrite !filter_cons. by rewrite IH.
Qed.

Lemma sorted_by_stable k xs : filter (fun y => key y = k) (sorted_by xs) = filter (fun y => key y = k) xs.
Proof.
  unfold sorted_by.
  assert (forall acc, StronglySorted key_le acc ->
    filter (fun y => key y = k) (foldl (fun acc x => insert_key x acc) acc xs) = filter (fun y => key y = k) (acc ++ xs)) as Hg.
  { induction xs as [|x xs IH]; intros acc Ha; simpl; [by rewrite app_nil_r|].
    rewrite IH by (by apply insert_key_sorted).
    by rewrite filter_app, insert_key_stable, <- filter_app, <- app_assoc. }
  apply (Hg [] ltac:(constructor)).
Qed.

Lemma min_by_None xs : min_by xs = None <-> xs = [].
Proof. destruct xs as [|x xs]; simpl; [done|]. by destruct (min_by xs). Qed.

Lemma min_by_elem xs x : min_by xs = Some x -> x ∈ xs /\ Forall (key_le x) xs.
Proof.
  revert x. induction xs as [|y ys IH]; intros x; simpl; [done|].
  destruct (min_by ys) as [z|] eqn:E.
  - destruct (IH z eq_refl) as [Hz Hall]. destruct (tuple_lt (key z) (key y)) eqn:Ezy; intros [= <-].
    + split; [by right|]. constructor; [|done]. unfold key_le. destruct (tuple_lt (key y) (key z)) eqn:E'; [|done].
      pose proof (tuple_lt_trans _ _ _ Ezy E') as Hf. by rewrite tuple_lt_irrefl in Hf.
    + split; [left|]. constructor; [apply tuple_lt_irrefl|].
      eapply Forall_impl; [exact Hall|]. intros w Hw. by apply (tuple_le_trans _ (key z)).
  - intros [= <-]. apply min_by_None in E as ->. split; [left|]. repeat constructor. apply tuple_lt_irrefl.
Qed.

(** The head of the sorted list is the first smallest element. *)
Lemma sorted_by_head xs : head (sorted_by xs) = min_by xs.
Proof.
  destruct (sorted_by xs) as [|x ys] eqn:Es; simpl.
  { pose proof (sorted_by_perm xs) as Hp. rewrite Es in Hp. apply Permutation_nil_l in Hp as <-. done. }
  destruct (min_by xs) as [m|] eqn:Em.
  2: { apply min_by_None in Em as ->. pose proof (sorted_by_perm []) as Hp. rewrite Es in Hp.
       by apply Permutation_nil_r in Hp. }
  destruct (min_by_elem _ _ Em) as [Hm Hall].
  assert (x ∈ xs) as Hx by (rewrite <- (sorted_by_perm xs), Es; left).
  assert (key x = key m) as Hk.
  { apply tuple_lt_total.
    - rewrite Forall_forall in Hall. by apply Hall.
    - pose proof (sorted_by_sorted xs) as Hs. rewrite Es in Hs. inversion Hs as [|? ? ? Hall']; subst.
      assert (m ∈ x :: ys) as Hm' by (by rewrite <- Es, sorted_by_perm).
      apply elem_of_cons in Hm' as [->|Hm']; [apply tuple_lt_irrefl|].
      rewrite Forall_forall in Hall'. by apply Hall'. }
  pose proof (sorted_by_stable (key m) xs) as Hst. rewrite Es, filter_cons_True in Hst by done.
  enough (head (filter (fun y => key y = key m) xs) = Some m) as Hh by (rewrite <- Hst in Hh; by injection Hh).
  clear -Em. revert m Em. induction xs as [|y xs IH]; intros m; simpl; [done|].
  destruct (min_by xs) as [z|] eqn:E.
  - destruct (tuple_lt (key z) (key y)) eqn:Ezy; intros [= <-].
    + rewrite filter_cons_False; [by apply IH|]. intros Hk. by rewrite Hk, tuple_lt_irrefl in Ezy.
    + by rewrite filter_cons_True.
  - intros [= <-]. by rewrite filter_cons_True.
Qed.

Lemma sorted_by_length xs : length (sorted_by xs) = length xs.
Proof. by rewrite sorted_by_perm. Qed.
End sorted.

(** ** Counters *)

(** [d[k] = d.get(k, 0) + n] *)
Definition add_count (n : Z) (k : string) (d : list (string * Z)) : list (string * Z) :=
  dict_set k (default 0 (dict_get k d) + n) d.
(** [for k, v in src.items(): d[k] += v] *)
Definition merge_counts (d src : list (string * Z)) : list (string * Z) :=
  foldl (fun d kv => add_count kv.2 kv.1 d) d src.
(** Every event of a list counted once. *)
Definition tally (events : list string) : list (string * Z) := foldl (fun d k => add_count 1 k d) [] events.

Definition count_of (k : string) (d : list (string * Z)) : Z := default 0 (dict_get k d).

Lemma count_of_add n k k' d : count_of k' (add_count n k d) = count_of k' d + (if decide (k' = k) then n else 0).
Proof. unfold count_of, add_count. rewrite dict_get_set. case_decide; subst; simpl; lia. Qed.

Lemma count_of_tally_acc k events d :
  count_of k (foldl (fun d k => add_count 1 k d) d events) = count_of k d + Z.of_nat (length (filter (fun x => x = k) events)).
Proof.
  revert d. induction events as [|x events IH]; intros d; simpl; [lia|].
  rewrite IH, count_of_add, filter_cons. repeat case_decide; subst; simpl; try done; lia.
Qed.

Lemma count_of_tally k events : count_of k (tally events) = Z.of_nat (length (filter (fun x => x = k) events)).
Proof. apply count_of_tally_acc. Qed.

(** [max(d.items(), key=lambda kv: kv[1])[0]]: the first key with the largest count. *)
Definition top_key (d : list (string * Z)) : option string := fst <$> min_by (fun kv => [- kv.2]) d.
