(* ===== verification/Redis.v ===== *)
(** The Redis server, as the code sees it.

    Redis is not part of the repository: it is a parameter of the model.  The
    class [Redis] lists the commands the code sends, on an abstract server
    state [R]; the class [RedisLaws] states their documented effect on the
    keyspace, observed through [view] (what TYPE, GET, HGETALL, SMEMBERS,
    ZRANGE WITHSCORES and TTL report for a key).  A law whose command answers
    WRONGTYPE on a key of another type has the type of the key as a premise.
    Lua scripts run atomically and the server clock does not move inside one,
    so a script is a pure function on [R].

    The second half models [RedisJdbc] of server/rd.py, which adds the key
    prefix in the methods it overrides and in no other, and the ways a call
    can fail (module [Client]). *)
From S2P Require Import Prelude.

(** ** The keyspace *)

(** Scores are times: microseconds since the epoch. *)
Inductive rvalue :=
| RString (s : string)
| RHash (h : gmap string string)
| RSet (x : gset string)
| RZset (z : gmap string Z).

(** A key holds a value and, when it is volatile, its remaining TTL in seconds. *)
Record entry := Entry { e_val : rvalue; e_ttl : option Z }.

(** Contents of a key seen at a type: an absent key reads as the empty value;
    [None] is a WRONGTYPE error. *)
Definition as_hash (o : option entry) : option (gmap string string) :=
  match o with
  | None => Some ∅
  | Some (Entry (RHash h) _) => Some h
  | Some _ => None
  end.

Definition as_set (o : option entry) : option (gset string) :=
  match o with
  | None => Some ∅
  | Some (Entry (RSet x) _) => Some x
  | Some _ => None
  end.

Definition as_zset (o : option entry) : option (gmap string Z) :=
  match o with
  | None => Some ∅
  | Some (Entry (RZset z) _) => Some z
  | Some _ => None
  end.

(** [INCRBY] reads an absent key as 0 and needs a decimal integer otherwise. *)
Definition as_int (o : option entry) : option Z :=
  match o with
  | None => Some 0
  | Some (Entry (RString s) _) => tonumber s
  | Some _ => None
  end.

(** The TTL reply: -2 no such key, -1 no expiry, otherwise the seconds left. *)
Definition ttl_reply (o : option entry) : Z :=
  match o with
  | None => -2
  | Some e => default (-1) (e_ttl e)
  end.

Definition ttl_of (o : option entry) : option Z := o ≫= e_ttl.

(** A collection that becomes empty is removed with its key. *)
Definition put_hash (h : gmap string string) (ttl : option Z) : option entry :=
  if decide (h = ∅) then None else Some (Entry (RHash h) ttl).
Definition put_set (x : gset string) (ttl : option Z) : option entry :=
  if decide (x = ∅) then None else Some (Entry (RSet x) ttl).
Definition put_zset (z : gmap string Z) (ttl : option Z) : option entry :=
  if decide (z = ∅) then None else Some (Entry (RZset z) ttl).

Definition hset_fields (fvs : list (string * string)) (h : gmap string string) :=
  foldl (fun acc fv => <[fv.1 := fv.2]> acc) h fvs.
Definition hdel_fields (fs : list string) (h : gmap string string) :=
  foldl (fun acc f => delete f acc) h fs.

(** Members whose score is outside [lo, hi]. *)
Definition zkeep (lo hi : Z) (z : gmap string Z) : gmap string Z :=
  filter (fun ms => ~ (lo <= ms.2 <= hi)) z.

(** No character of [s] is special in a MATCH pattern. *)
Fixpoint glob_free (s : string) : bool :=
  match s with
  | EmptyString => true
  | String c s' => negb (bool_decide (c ∈ ["*"%char; "?"%char; "["%char; "\"%char])) && glob_free s'
  end.

(** ** Commands *)

Class Redis (R : Type) := {
  view : R -> string -> option entry;
  rd_get : R -> string -> option string;
  rd_ttl : R -> string -> Z;
  rd_exists : R -> string -> bool;
  rd_set : string -> string -> option Z -> R -> R;            (* SET k v [EX n] *)
  rd_del : string -> R -> R;
  rd_expire : string -> Z -> R -> R;
  rd_incrby : string -> Z -> R -> Z * R;
  rd_hget : R -> string -> string -> option string;
  rd_hgetall : R -> string -> gmap string string;
  rd_hset : string -> list (string * string) -> R -> R;
  rd_hdel : string -> list string -> R -> R;
  rd_sadd : string -> list string -> R -> R;
  rd_srem : string -> list string -> R -> R;
  rd_sismember : R -> string -> string -> bool;
  rd_scard : R -> string -> Z;
  rd_smembers : R -> string -> list string;
  rd_zadd : string -> Z -> string -> R -> R;
  rd_zrem : string -> string -> R -> Z * R;
  rd_zcard : R -> string -> Z;
  rd_zscore : R -> string -> string -> option Z;
  rd_zrange00 : R -> string -> option (string * Z);           (* ZRANGE k 0 0 WITHSCORES *)
  rd_zremrangebyscore : string -> Z -> Z -> R -> R;
  rd_scan : R -> string -> list string;                       (* SCAN to the end, MATCH p *)
}.

(** ** Documented effect *)

Class RedisLaws (R : Type) `{Redis R} : Prop := {
  (* reads *)
  get_law s k v ttl : view s k = Some (Entry (RString v) ttl) -> rd_get s k = Some v;
  get_none_law s k : view s k = None -> rd_get s k = None;
  ttl_law s k : rd_ttl s k = ttl_reply (view s k);
  ttl_pos_law s k e n : view s k = Some e -> e_ttl e = Some n -> 0 <= n;
  exists_law s k : rd_exists s k = bool_decide (is_Some (view s k));
  hget_law s k f h : as_hash (view s k) = Some h -> rd_hget s k f = h !! f;
  hgetall_law s k h : as_hash (view s k) = Some h -> rd_hgetall s k = h;
  sismember_law s k m x : as_set (view s k) = Some x -> rd_sismember s k m = bool_decide (m ∈ x);
  scard_law s k x : as_set (view s k) = Some x -> rd_scard s k = Z.of_nat (size x);
  smembers_law s k x : as_set (view s k) = Some x ->
    NoDup (rd_smembers s k) /\ (forall m, m ∈ rd_smembers s k <-> m ∈ x);
  zcard_law s k z : as_zset (view s k) = Some z -> rd_zcard s k = Z.of_nat (size z);
  zscore_law s k m z : as_zset (view s k) = Some z -> rd_zscore s k m = z !! m;
  zrange00_law s k z : as_zset (view s k) = Some z ->
    match rd_zrange00 s k with
    | Some (m, sc) => z !! m = Some sc /\ map_Forall (fun _ sc' => sc <= sc') z
    | None => z = ∅
    end;
  scan_law s p k : glob_free p = true ->
    k ∈ rd_scan s (p +++ "*") <-> startswith p k = true /\ is_Some (view s k);
  (* writes, at their key *)
  set_law s k v n : (forall t, n = Some t -> 0 < t) ->
    view (rd_set k v n s) k = Some (Entry (RString v) n);
  del_law s k : view (rd_del k s) k = None;
  expire_law s k n : 0 < n ->
    view (rd_expire k n s) k = (fun e => Entry (e_val e) (Some n)) <$> view s k;
  incrby_law s k n v : as_int (view s k) = Some v ->
    (rd_incrby k n s).1 = v + n /\
    view (rd_incrby k n s).2 k = Some (Entry (RString (tostring (v + n))) (ttl_of (view s k)));
  hset_law s k fvs h : as_hash (view s k) = Some h ->
    view (rd_hset k fvs s) k = put_hash (hset_fields fvs h) (ttl_of (view s k));
  hdel_law s k fs h : as_hash (view s k) = Some h ->
    view (rd_hdel k fs s) k = put_hash (hdel_fields fs h) (ttl_of (view s k));
  sadd_law s k ms x : as_set (view s k) = Some x ->
    view (rd_sadd k ms s) k = put_set (list_to_set ms ∪ x) (ttl_of (view s k));
  srem_law s k ms x : as_set (view s k) = Some x ->
    view (rd_srem k ms s) k = put_set (x ∖ list_to_set ms) (ttl_of (view s k));
  zadd_law s k sc m z : as_zset (view s k) = Some z ->
    view (rd_zadd k sc m s) k = Some (Entry (RZset (<[m := sc]> z)) (ttl_of (view s k)));
  zrem_law s k m z : as_zset (view s k) = Some z ->
    (rd_zrem k m s).1 = (if decide (is_Some (z !! m)) then 1 else 0) /\
    view (rd_zrem k m s).2 k = put_zset (delete m z) (ttl_of (view s k));
  zremrangebyscore_law s k lo hi z : as_zset (view s k) = Some z ->
    view (rd_zremrangebyscore k lo hi s) k = put_zset (zkeep lo hi z) (ttl_of (view s k));
  (* writes, at every other key *)
  set_ne s k k' v n : k <> k' -> view (rd_set k v n s) k' = view s k';
  del_ne s k k' : k <> k' -> view (rd_del k s) k' = view s k';
  expire_ne s k k' n : k <> k' -> view (rd_expire k n s) k' = view s k';
  incrby_ne s k k' n : k <> k' -> view (rd_incrby k n s).2 k' = view s k';
  hset_ne s k k' fvs : k <> k' -> view (rd_hset k fvs s) k' = view s k';
  hdel_ne s k k' fs : k <> k' -> view (rd_hdel k fs s) k' = view s k';
  sadd_ne s k k' ms : k <> k' -> view (rd_sadd k ms s) k' = view s k';
  srem_ne s k k' ms : k <> k' -> view (rd_srem k ms s) k' = view s k';
  zadd_ne s k k' sc m : k <> k' -> view (rd_zadd k sc m s) k' = view s k';
  zrem_ne s k k' m : k <> k' -> view (rd_zrem k m s).2 k' = view s k';
  zremrangebyscore_ne s k k' lo hi : k <> k' ->
    view (rd_zremrangebyscore k lo hi s) k' = view s k';
}.

#[global] Create Rewrite HintDb redis_ne.
#[export] Hint Rewrite @set_ne @del_ne @expire_ne @incrby_ne @hset_ne @hdel_ne @sadd_ne
  @srem_ne @zadd_ne @zrem_ne @zremrangebyscore_ne using done : redis_ne.

(** ** The effect of time

    Between two commands the server clock moves: a volatile key keeps its
    value with a smaller TTL, or is gone. *)
Definition elapsed {R} `{Redis R} (s s' : R) : Prop :=
  forall k, view s' k = None \/
    exists e e', view s k = Some e /\ view s' k = Some e' /\ e_val e' = e_val e /\
      (e_ttl e = None <-> e_ttl e' = None).

Section views.
Context {R : Type} `{RedisLaws R}.
Implicit Types (s : R) (k : string).

Lemma as_hash_put h ttl : as_hash (put_hash h ttl) = Some h.
Proof. unfold put_hash. case_decide; by subst. Qed.
Lemma as_set_put x ttl : as_set (put_set x ttl) = Some x.
Proof. unfold put_set. case_decide; by subst. Qed.
Lemma as_zset_put z ttl : as_zset (put_zset z ttl) = Some z.
Proof. unfold put_zset. case_decide; by subst. Qed.

Lemma as_hash_hset s k fvs h :
  as_hash (view s k) = Some h -> as_hash (view (rd_hset k fvs s) k) = Some (hset_fields fvs h).
Proof. intros Hh. by rewrite (hset_law _ _ _ _ Hh), as_hash_put. Qed.

Lemma as_hash_hdel s k fs h :
  as_hash (view s k) = Some h -> as_hash (view (rd_hdel k fs s) k) = Some (hdel_fields fs h).
Proof. intros Hh. by rewrite (hdel_law _ _ _ _ Hh), as_hash_put. Qed.

Lemma as_hash_expire s k n :
  0 < n -> as_hash (view (rd_expire k n s) k) = as_hash (view s k).
Proof. intros Hn. rewrite expire_law by done. by destruct (view s k) as [[[] ?]|]. Qed.

Lemma as_zset_zadd s k sc m z :
  as_zset (view s k) = Some z -> as_zset (view (rd_zadd k sc m s) k) = Some (<[m:=sc]> z).
Proof. intros Hz. by rewrite (zadd_law _ _ _ _ _ Hz). Qed.

Lemma as_zset_expire s k n :
  0 < n -> as_zset (view (rd_expire k n s) k) = as_zset (view s k).
Proof. intros Hn. rewrite expire_law by done. by destruct (view s k) as [[[] ?]|]. Qed.

Lemma as_zset_zremrange s k lo hi z :
  as_zset (view s k) = Some z ->
  as_zset (view (rd_zremrangebyscore k lo hi s) k) = Some (zkeep lo hi z).
Proof. intros Hz. by rewrite (zremrangebyscore_law _ _ _ _ _ Hz), as_zset_put. Qed.

Lemma elapsed_refl s : elapsed s s.
Proof. intros k. destruct (view s k) as [e|] eqn:E; [right; by exists e, e | by left]. Qed.
End views.

#[export] Hint Resolve as_hash_hset as_hash_hdel as_zset_zadd as_zset_zremrange : lub.
