(* ===== verification/MapRedis.v ===== *)
(** A reference Redis: the keyspace as a finite map.

    It instantiates the interface of Redis.v, so the hypotheses every theorem
    makes about the server hold for a concrete server, and the witnesses
    compute on it. *)
From S2P Require Import Prelude Redis.

(** The stored TTLs are read clamped at 0, so no reply is negative by accident. *)
Definition norm (o : option entry) : option entry :=
  (fun e => Entry (e_val e) (Z.max 0 <$> e_ttl e)) <$> o.

Abbreviation mapredis := (gmap string entry).

Definition mview (s : mapredis) (k : string) : option entry := norm (s !! k).
Definition mput (k : string) (o : option entry) (s : mapredis) : mapredis :=
  match o with None => delete k s | Some e => <[k := e]> s end.

#[local] Arguments mput : simpl never.
#[local] Arguments mview : simpl never.

(** A write is skipped when the key has another type (WRONGTYPE). *)
Definition mwrite {A} (as_ : option entry -> option A) (f : A -> option Z -> option entry)
    (k : string) (s : mapredis) : mapredis :=
  match as_ (mview s k) with
  | Some a => mput k (f a (ttl_of (mview s k))) s
  | None => s
  end.

Definition zmin (z : gmap string Z) : option (string * Z) :=
  map_fold (fun m sc acc => match acc with
    | Some (m', sc') => if sc <=? sc' then Some (m, sc) else acc
    | None => Some (m, sc) end) None z.

Fixpoint strip_star (p : string) : string :=
  match p with
  | String c EmptyString => if decide (c = "*"%char) then EmptyString else p
  | String c p' => String c (strip_star p')
  | EmptyString => EmptyString
  end.

#[export] Instance map_redis : Redis mapredis := {
  view := mview;
  rd_get s k := match mview s k with Some (Entry (RString v) _) => Some v | _ => None end;
  rd_ttl s k := ttl_reply (mview s k);
  rd_exists s k := bool_decide (is_Some (mview s k));
  rd_set k v n s := mput k (Some (Entry (RString v) n)) s;
  rd_del k s := mput k None s;
  rd_expire k n s := mput k ((fun e => Entry (e_val e) (Some n)) <$> mview s k) s;
  rd_incrby k n s :=
    (default 0 (as_int (mview s k)) + n,
     mwrite as_int (fun v ttl => Some (Entry (RString (tostring (v + n))) ttl)) k s);
  rd_hget s k f := default ∅ (as_hash (mview s k)) !! f;
  rd_hgetall s k := default ∅ (as_hash (mview s k));
  rd_hset k fvs s := mwrite as_hash (fun h ttl => put_hash (hset_fields fvs h) ttl) k s;
  rd_hdel k fs s := mwrite as_hash (fun h ttl => put_hash (hdel_fields fs h) ttl) k s;
  rd_sadd k ms s := mwrite as_set (fun x ttl => put_set (list_to_set ms ∪ x) ttl) k s;
  rd_srem k ms s := mwrite as_set (fun x ttl => put_set (x ∖ list_to_set ms) ttl) k s;
  rd_sismember s k m := bool_decide (m ∈ default ∅ (as_set (mview s k)));
  rd_scard s k := Z.of_nat (size (default ∅ (as_set (mview s k))));
  rd_smembers s k := elements (default ∅ (as_set (mview s k)));
  rd_zadd k sc m s := mwrite as_zset (fun z ttl => Some (Entry (RZset (<[m := sc]> z)) ttl)) k s;
  rd_zrem k m s :=
    ((if decide (is_Some (default ∅ (as_zset (mview s k)) !! m)) then 1 else 0),
     mwrite as_zset (fun z ttl => put_zset (delete m z) ttl) k s);
  rd_zcard s k := Z.of_nat (size (default ∅ (as_zset (mview s k))));
  rd_zscore s k m := default ∅ (as_zset (mview s k)) !! m;
  rd_zrange00 s k := zmin (default ∅ (as_zset (mview s k)));
  rd_zremrangebyscore k lo hi s := mwrite as_zset (fun z ttl => put_zset (zkeep lo hi z) ttl) k s;
  rd_scan s p := filter (fun k => startswith (strip_star p) k) (map_to_list s).*1;
}.

Lemma strip_star_snoc p : strip_star (p +++ "*") = p.
Proof. induction p as [|c [|c' p] IH]; simpl in *; [done | done | by rewrite IH]. Qed.

Lemma norm_idem o : norm (norm o) = norm o.
Proof. destruct o as [[v [t|]]|]; simpl; unfold norm; simpl; [|done|done]. by rewrite Z.max_assoc, Z.max_id. Qed.

Lemma mview_put_eq k o s : mview (mput k o s) k = norm o.
Proof. unfold mview, mput. destruct o; [by rewrite lookup_insert_eq | by rewrite lookup_delete_eq]. Qed.

Lemma mview_put_ne k k' o s : k <> k' -> mview (mput k o s) k' = mview s k'.
Proof. intros. unfold mview, mput. destruct o; [by rewrite lookup_insert_ne | by rewrite lookup_delete_ne]. Qed.

Lemma mview_write_ne {A} as_ (f : A -> _) k k' s : k <> k' -> mview (mwrite as_ f k s) k' = mview s k'.
Proof. intros. unfold mwrite. case_match; [by rewrite mview_put_ne | done]. Qed.

Lemma mview_write_eq {A} as_ (f : A -> _) k s a :
  as_ (mview s k) = Some a ->
  (forall ttl, f a (Z.max 0 <$> ttl) = norm (f a ttl)) ->
  mview (mwrite as_ f k s) k = f a (ttl_of (mview s k)).
Proof.
  intros Ha Hf. unfold mwrite. rewrite Ha, mview_put_eq. rewrite <- Hf. f_equal.
  unfold mview. destruct (s !! k) as [[v [t|]]|]; simpl; [|done|done]. by rewrite Z.max_assoc, Z.max_id.
Qed.

Lemma zmin_spec z :
  match zmin z with
  | Some (m, sc) => z !! m = Some sc /\ map_Forall (fun _ sc' => sc <= sc') z
  | None => z = ∅
  end.
Proof.
  unfold zmin. apply (map_fold_weak_ind (fun acc (z : gmap string Z) =>
    match acc with
    | Some (m, sc) => z !! m = Some sc /\ map_Forall (fun _ sc' => sc <= sc') z
    | None => z = ∅
    end)); [done|].
  intros m sc z' [[m' sc']|] Hm IH; simpl.
  - destruct IH as [Hl Hall]. destruct (Z.leb_spec sc sc') as [Hle|Hlt].
    + split; [by rewrite lookup_insert_eq|]. apply map_Forall_insert; [done|]. split; [lia|].
      intros i x Hi. specialize (Hall i x Hi). simpl in Hall. lia.
    + split; [rewrite lookup_insert_ne; [done | congruence]|].
      apply map_Forall_insert; [done|]. split; [lia | done].
  - subst. split; [by rewrite lookup_insert_eq|]. intros i x.
    rewrite lookup_insert. case_decide; [intros [= <-]; lia | by rewrite lookup_empty].
Qed.

#[local] Ltac mw := first [ by apply mview_write_ne | by apply mview_put_ne ].
#[local] Ltac norm_put :=
  intros ttl; unfold put_hash, put_set, put_zset; try case_decide; by destruct ttl.

#[export] Instance map_redis_laws : RedisLaws mapredis.
Proof.
  split; simpl; intros; try done; try mw.
  - by rewrite H.
  - by rewrite H.
  - unfold mview in H. destruct (s !! k) as [[v [t|]]|]; simplify_eq/=. lia.
  - by rewrite H.
  - by rewrite H.
  - by rewrite H.
  - by rewrite H.
  - rewrite H. simpl. split; [apply NoDup_elements | intros; apply elem_of_elements].
  - by rewrite H.
  - by rewrite H.
  - rewrite H. simpl. apply zmin_spec.
  - rewrite strip_star_snoc, list_elem_of_filter, list_elem_of_fmap. unfold mview, norm.
    rewrite fmap_is_Some. split.
    + intros [Hs ([k' e] & -> & Hk)]. apply elem_of_map_to_list in Hk. simpl in *. split; [by destruct (startswith p k')|eauto].
    + intros [Hs [e He]]. rewrite Hs. split; [done|]. exists (k, e). by rewrite elem_of_map_to_list.
  - rewrite mview_put_eq. destruct n as [t|]; [|done]. unfold norm. simpl. by rewrite Z.max_r by (specialize (H t eq_refl); lia).
  - by rewrite mview_put_eq.
  - rewrite mview_put_eq. destruct (mview s k); [|done]. unfold norm. simpl. by rewrite Z.max_r by lia.
  - rewrite H. split; [done|]. erewrite mview_write_eq; [done | done |]. norm_put.
  - erewrite mview_write_eq; [done | done |]. norm_put.
  - erewrite mview_write_eq; [done | done |]. norm_put.
  - erewrite mview_write_eq; [done | done |]. norm_put.
  - erewrite mview_write_eq; [done | done |]. norm_put.
  - erewrite mview_write_eq; [done | done |]. norm_put.
  - rewrite H. split; [done|]. erewrite mview_write_eq; [done | done |]. norm_put.
  - erewrite mview_write_eq; [done | done |]. norm_put.
Qed.
