(* ===== verification/Client.v ===== *)
(** The Redis client of server/rd.py and the calling convention of
    limits/backend.py.

    [RedisJdbc] subclasses the redis-py client and prefixes the key only in the
    methods it overrides; the others are sent as they are.  A call can fail
    before or after the server executed it ([net]); the code turns a failure
    into an exception and most methods swallow it ([attempt]). *)
From S2P Require Import Prelude Redis.

(** Constructor arguments that matter here, and whether [JdbcClient.redis] is set. *)
Record redis_conf := RedisConf {
  prefix_key : option string;
  decode_responses : bool;
  connected : bool;
}.

(** Outcome of one round trip: executed and answered; not executed; executed
    but the reply was lost (timeout, broken connection). *)
Inductive net := NetOk | NetDown | NetLost.
#[export] Instance net_eq_dec : EqDecision net.
Proof. solve_decision. Defined.

(** The server state and the outcome of the round trips to come; a call past
    the end of the list succeeds. *)
Record renv (R : Type) := REnv { rv_store : R; rv_faults : list net }.
Arguments REnv {R}.
Arguments rv_store {R}.
Arguments rv_faults {R}.

Inductive res (A : Type) := Ret (a : A) | Exc.
Arguments Ret {A}.
Arguments Exc {A}.

Definition M (R A : Type) : Type := renv R -> res A * renv R.

#[export] Instance M_ret R : MRet (M R) := fun A a e => (Ret a, e).
#[export] Instance M_bind R : MBind (M R) := fun A B k m e =>
  match m e with
  | (Ret a, e') => k a e'
  | (Exc, e') => (Exc, e')
  end.

Section client.
Context {R : Type} `{Redis R}.
Variable conf : redis_conf.

(** One round trip. *)
Definition call {A} (f : R -> A * R) : M R A := fun e =>
  match rv_faults e with
  | [] => let '(a, s) := f (rv_store e) in (Ret a, REnv s [])
  | NetOk :: fs => let '(a, s) := f (rv_store e) in (Ret a, REnv s fs)
  | NetDown :: fs => (Exc, REnv (rv_store e) fs)
  | NetLost :: fs => (Exc, REnv (snd (f (rv_store e))) fs)
  end.

Definition query {A} (f : R -> A) : M R A := call (fun s => (f s, s)).
Definition command (f : R -> R) : M R unit := call (fun s => (tt, f s)).

Definition raise {A} : M R A := fun e => (Exc, e).
Definition of_option {A} (o : option A) : M R A :=
  match o with Some a => mret a | None => raise end.

(** [try: m / except Exception: return d] *)
Definition attempt {A} (d : A) (m : M R A) : M R A := fun e =>
  match m e with
  | (Ret a, e') => (Ret a, e')
  | (Exc, e') => (Ret d, e')
  end.

(** [redis = cls.redis(); if redis is None: return d] *)
Definition with_redis {A} (d : A) (m : M R A) : M R A :=
  if connected conf then m else mret d.

(** rd.py: RedisJdbc.get_key *)
Definition get_key (key : string) : string :=
  match prefix_key conf with
  | Some p => p +++ ":" +++ key
  | None => key
  end.

(** Overridden methods: the key is prefixed. *)
Definition jdbc_get (key : string) : M R (option string) := query (fun s => rd_get s (get_key key)).
Definition jdbc_set (key v : string) (ex : option Z) : M R unit := command (rd_set (get_key key) v ex).
Definition jdbc_delete (keys : list string) : M R unit :=
  match keys with
  | [] => mret tt
  | _ => command (fun s => foldl (fun s k => rd_del (get_key k) s) s keys)
  end.
Definition jdbc_hgetall (key : string) : M R (gmap string string) :=
  query (fun s => rd_hgetall s (get_key key)).
Definition jdbc_expire (key : string) (n : Z) : M R unit := command (rd_expire (get_key key) n).
Definition jdbc_zadd (key m : string) (sc : Z) : M R unit := command (rd_zadd (get_key key) sc m).
Definition jdbc_zcard (key : string) : M R Z := query (fun s => rd_zcard s (get_key key)).
Definition jdbc_zremrangebyscore (key : string) (lo hi : Z) : M R unit :=
  command (rd_zremrangebyscore (get_key key) lo hi).

(** Inherited methods, and overridden ones that keep the key as it is
    ([sadd], [srem], [hdel] only flatten their arguments). *)
Definition native_ttl (key : string) : M R Z := query (fun s => rd_ttl s key).
Definition native_exists (key : string) : M R bool := query (fun s => rd_exists s key).
Definition native_sadd (key : string) (ms : list string) : M R unit :=
  match ms with [] => mret tt | _ => command (rd_sadd key ms) end.
Definition native_srem (key : string) (ms : list string) : M R unit :=
  match ms with [] => mret tt | _ => command (rd_srem key ms) end.
Definition native_smembers (key : string) : M R (list string) := query (fun s => rd_smembers s key).
Definition native_scard (key : string) : M R Z := query (fun s => rd_scard s key).
Definition native_zrem (key m : string) : M R Z := call (rd_zrem key m).
Definition native_incrby (key : string) (n : Z) : M R Z := call (rd_incrby key n).
Definition native_scan (pattern : string) : M R (list string) := query (fun s => rd_scan s pattern).

(** [eval]: the script is one atomic server-side function. *)
Definition eval {A} (script : R -> A * R) : M R A := call script.

(** limits/backend.py: RedisLimitBackend._key and _bare_key.  An empty prefix
    is falsy there, while get_key tests [is not None]. *)
Definition _key (key : string) : string :=
  match prefix_key conf with
  | Some p => if str_truthy p then p +++ ":" +++ key else key
  | None => key
  end.

Definition _bare_key (key : string) : string :=
  match prefix_key conf with
  | Some p =>
      if str_truthy p && startswith (p +++ ":") key
      then str_drop (String.length p + 1) key else key
  | None => key
  end.

(** The prefix bootstrap_config.py demands: present and not blank. *)
Definition conf_ok : bool :=
  match prefix_key conf with Some p => str_truthy p | None => false end.

Lemma _key_get_key key : conf_ok = true -> _key key = get_key key.
Proof. unfold conf_ok, _key, get_key. destruct (prefix_key conf); [by intros -> | done]. Qed.

Lemma key_inj a b : _key a = _key b <-> a = b.
Proof.
  unfold _key. destruct (prefix_key conf) as [p|]; [|done]. destruct (str_truthy p); [|done].
  by rewrite append_inj_l, append_inj_l.
Qed.

Lemma _bare_key_key key : conf_ok = true -> _bare_key (_key key) = key.
Proof.
  unfold conf_ok, _key, _bare_key. destruct (prefix_key conf) as [p|]; [|done].
  intros ->. rewrite <- append_assoc. rewrite startswith_append. simpl.
  replace (String.length p + 1)%nat with (String.length (p +++ ":")) by (rewrite length_append; simpl; lia).
  apply str_drop_append.
Qed.
End client.

(** ** A server that answers every call *)
Section healthy.
Context {R : Type} `{Redis R}.
Implicit Types (s : R).

Lemma healthy_call {A} (f : R -> A * R) s : call f (REnv s []) = (Ret (f s).1, REnv (f s).2 []).
Proof. unfold call. simpl. by destruct (f s). Qed.
Lemma healthy_query {A} (f : R -> A) s : query f (REnv s []) = (Ret (f s), REnv s []).
Proof. done. Qed.
Lemma healthy_command f s : command f (REnv s []) = (Ret tt, REnv (f s) []).
Proof. done. Qed.
Lemma bind_ret {A B} (m : M R A) (k : A -> M R B) e a e' :
  m e = (Ret a, e') -> (m ≫= k) e = k a e'.
Proof. intros Hm. unfold mbind, M_bind. by rewrite Hm. Qed.
Lemma attempt_ret {A} (d a : A) (m : M R A) e e' : m e = (Ret a, e') -> attempt d m e = (Ret a, e').
Proof. intros Hm. unfold attempt. by rewrite Hm. Qed.
Lemma with_redis_on {A} conf (d : A) (m : M R A) : connected conf = true -> with_redis conf d m = m.
Proof. unfold with_redis. by intros ->. Qed.
End healthy.

(** Run a method on a server that answers every call. *)
Definition run {R A} (m : M R A) (s : R) : res A * R :=
  let '(r, e) := m (REnv s []) in (r, rv_store e).

Section run.
Context {R : Type} `{Redis R}.

Lemma run_ret {A} (a : A) (s : R) : run (mret a) s = (Ret a, s).
Proof. done. Qed.

Lemma run_eq {A} (m : M R A) s s' a : m (REnv s []) = (Ret a, REnv s' []) -> run m s = (Ret a, s').
Proof. unfold run. by intros ->. Qed.

Lemma run_call {A} (f : R -> A * R) s : run (call f) s = (Ret (f s).1, (f s).2).
Proof. unfold run, call. simpl. by destruct (f s). Qed.
End run.
