(* ===== verification/State.v ===== *)
(** Process state over the Redis client monad: [ST W R A] threads a state of
    type [W] through calls; the state survives an exception of a call only as
    the caller had it, since a raising method returns no new one. *)
From S2P Require Import Prelude Redis Client.

Definition ST (W R A : Type) : Type := W -> M R (A * W).
#[export] Instance ST_ret W R : MRet (ST W R) := fun A a w => mret (a, w).
#[export] Instance ST_bind W R : MBind (ST W R) := fun A B k m w => '(a, w) ← m w; k a w.

Section state.
Context {W R : Type} `{Redis R}.

Definition lift {A} (m : M R A) : ST W R A := fun w => a ← m; mret (a, w).
Definition modify (f : W -> W) : ST W R unit := fun w => mret (tt, f w).
Definition get_world : ST W R W := fun w => mret (w, w).

(** [try: m / except Exception: pass], with [d] for what [m] would return. *)
Definition guarded {A} (d : A) (m : ST W R A) : ST W R A := fun w e =>
  match m w e with
  | (Ret x, e') => (Ret x, e')
  | (Exc, e') => (Ret (d, w), e')
  end.

Lemma guarded_ret {A} (d : A) (m : ST W R A) w (e : renv R) a w' e' :
  m w e = (Ret (a, w'), e') -> guarded d m w e = (Ret (a, w'), e').
Proof. intros Hm. unfold guarded. by rewrite Hm. Qed.

Lemma ST_bind_ret {A B} (m : ST W R A) (k : A -> ST W R B) w (e : renv R) a w' e' :
  m w e = (Ret (a, w'), e') -> (m ≫= k) w e = k a w' e'.
Proof. intros Hm. unfold mbind, ST_bind, M_bind, mbind. by rewrite Hm. Qed.

Lemma lift_ret {A} (m : M R A) w (e : renv R) a e' : m e = (Ret a, e') -> lift m w e = (Ret (a, w), e').
Proof. intros Hm. unfold lift. by erewrite bind_ret by exact Hm. Qed.

(** A computation that returned: its first step returned. *)
Lemma ST_bind_inv {A B} (m : ST W R A) (k : A -> ST W R B) w (e : renv R) b w2 e2 :
  (m ≫= k) w e = (Ret (b, w2), e2) -> exists a w' e', m w e = (Ret (a, w'), e') /\ k a w' e' = (Ret (b, w2), e2).
Proof.
  unfold mbind, ST_bind, M_bind, mbind. destruct (m w e) as [[[a w']|] e']; [|done].
  intros Hk. by exists a, w', e'.
Qed.
End state.
