(* ===== verification/Ledger.v ===== *)
(** The reservation ledger: its abstract value, and the hash that stores it.

    limits/backend.py keeps one Redis hash per (metric, fixed window): the
    field [reservation_id] holds the amount one reservation booked, the field
    [reservation_id:state] its state, and [__total] the sum over the
    reservations.  The scripts update the three fields by hand; here the hash
    is related to a finite map, and the hand-written updates to insert and
    delete on that map. *)
From S2P Require Import Prelude Redis.

Definition TOTAL := "__total".
Definition state_field (rid : string) : string := rid +++ ":state".

(** One booking: the amount and whether usage was settled. *)
Inductive booking_state := Reserved | Committed.
#[export] Instance booking_state_eq_dec : EqDecision booking_state.
Proof. solve_decision. Defined.
Definition state_text (b : booking_state) : string :=
  match b with Reserved => "reserved" | Committed => "committed" end.

Abbreviation booking := (Z * booking_state)%type.
Abbreviation ledger := (gmap string booking).

Definition lg_total (m : ledger) : Z := msum fst m.
Definition lg_amount (m : ledger) (rid : string) : Z := default 0 (fst <$> m !! rid).
Definition lg_nonneg (m : ledger) : Prop := map_Forall (fun _ b => 0 <= b.1) m.

(** A field name that can be a reservation id: not [__total], and not the
    state field of another one. *)
Definition rid_ok (rid : string) : Prop :=
  rid <> TOTAL /\ forall r, rid <> state_field r.

(** ** Script fragments *)

Definition num_or_0 (o : option string) : Z := default 0 (o ≫= tonumber).

(** [tonumber(redis.call('HGET', key, '__total') or '0') or 0] *)
Definition hash_total (h : gmap string string) : Z := num_or_0 (Some (default "0" (h !! TOTAL))).

(** The new total when the booking of [rid] becomes [amount]; the scripts clamp at 0. *)
Definition next_total (h : gmap string string) (rid : string) (amount : Z) : Z :=
  let old_n := num_or_0 (h !! rid) in
  let t := hash_total h - old_n + amount in
  if t <? 0 then 0 else t.

(** [HSET key rid amount rid:state st __total next_total] *)
Definition booking_fields (rid : string) (amount : Z) (st : booking_state) (next : Z) :=
  [(rid, tostring amount); (state_field rid, state_text st); (TOTAL, tostring next)].

(** ** Representation *)

Record ledger_rep (h : gmap string string) (m : ledger) : Prop := {
  rep_dom : forall rid, is_Some (m !! rid) -> rid_ok rid;
  rep_amount : forall rid, rid_ok rid -> h !! rid = tostring ∘ fst <$> m !! rid;
  rep_state : forall rid, rid_ok rid -> h !! state_field rid = state_text ∘ snd <$> m !! rid;
  rep_total : hash_total h = lg_total m;
  rep_nonneg : lg_nonneg m;
}.

(** The key holds the ledger [m] (an absent key holds the empty one). *)
Definition holds (o : option entry) (m : ledger) : Prop :=
  exists h, as_hash o = Some h /\ ledger_rep h m.

Lemma state_field_neq rid : rid <> state_field rid.
Proof.
  unfold state_field. intros H. apply (f_equal String.length) in H.
  rewrite length_append in H. simpl in H. lia.
Qed.

Lemma state_field_total rid : state_field rid <> TOTAL.
Proof.
  unfold state_field, TOTAL. intros H.
  assert (String.length rid = 1%nat) as Hl.
  { apply (f_equal String.length) in H. rewrite length_append in H. simpl in H. lia. }
  destruct rid as [|c [|? ?]]; simpl in Hl; try done; injection H; done.
Qed.

Lemma state_field_inj a b : state_field a = state_field b -> a = b.
Proof. apply append_inj_r. Qed.

(** Every id the manager makes is ["lease:" boot ":" hex]. *)
Lemma rid_ok_lease boot h :
  str_mem ":" h = false -> h <> "state" -> rid_ok ("lease:" +++ boot +++ ":" +++ h).
Proof.
  intros Hh Hs. split; [by unfold TOTAL|]. intros r Heq. apply Hs.
  unfold state_field in Heq. rewrite <- append_assoc in Heq.
  by eapply append_last in Heq.
Qed.

#[export] Hint Resolve state_field_neq state_field_total : lub.

Lemma num_tostring z : num_or_0 (Some (tostring z)) = z.
Proof. unfold num_or_0. simpl. by rewrite tonumber_tostring. Qed.

Lemma rep_empty : ledger_rep ∅ ∅.
Proof.
  split; try (intros; by rewrite lookup_empty); [| done | apply map_Forall_empty].
  intros rid [b Hb]. by rewrite lookup_empty in Hb.
Qed.

Lemma holds_absent : holds None ∅.
Proof. exists ∅. split; [done | apply rep_empty]. Qed.

Lemma rep_num h m rid : ledger_rep h m -> rid_ok rid -> num_or_0 (h !! rid) = lg_amount m rid.
Proof.
  intros Hr Hok. rewrite (rep_amount _ _ Hr _ Hok). unfold lg_amount.
  destruct (m !! rid); simpl; [apply num_tostring | done].
Qed.

Lemma lg_amount_le m rid : lg_nonneg m -> 0 <= lg_amount m rid <= lg_total m.
Proof.
  intros Hm. unfold lg_amount. destruct (m !! rid) as [b|] eqn:E; simpl.
  - pose proof (Hm _ _ E). simpl in *. split; [lia|]. by eapply msum_ge.
  - split; [lia|]. by apply msum_nonneg.
Qed.

(** The clamp of the scripts never bites on a well-formed ledger. *)
Lemma next_total_spec h m rid amount :
  ledger_rep h m -> rid_ok rid -> 0 <= amount ->
  next_total h rid amount = lg_total m - lg_amount m rid + amount.
Proof.
  intros Hr Hok Ha. unfold next_total.
  rewrite (rep_num _ _ _ Hr Hok), (rep_total _ _ Hr).
  pose proof (lg_amount_le m rid (rep_nonneg _ _ Hr)).
  destruct (Z.ltb_spec (lg_total m - lg_amount m rid + amount) 0); lia.
Qed.

Lemma lg_total_insert m rid amount st :
  lg_total (<[rid := (amount, st)]> m) = lg_total m - lg_amount m rid + amount.
Proof. apply msum_insert. Qed.

Lemma lg_total_delete m rid : lg_total (delete rid m) = lg_total m - lg_amount m rid.
Proof. apply msum_delete_default. Qed.

Lemma lg_nonneg_insert m rid amount st :
  0 <= amount -> lg_nonneg m -> lg_nonneg (<[rid := (amount, st)]> m).
Proof. intros Ha Hm. by apply map_Forall_insert_2. Qed.

Lemma lg_nonneg_delete m rid : lg_nonneg m -> lg_nonneg (delete rid m).
Proof. intros. by apply map_Forall_delete. Qed.

#[export] Hint Resolve lg_nonneg_insert lg_nonneg_delete rep_empty holds_absent : lub.

Lemma hash_total_insert h z : hash_total (<[TOTAL := tostring z]> h) = z.
Proof. unfold hash_total. rewrite lookup_insert_eq. simpl default. apply num_tostring. Qed.

(** Writing the three fields is insertion in the ledger. *)
Lemma rep_write h m rid amount st :
  ledger_rep h m -> rid_ok rid -> 0 <= amount ->
  ledger_rep (hset_fields (booking_fields rid amount st (next_total h rid amount)) h)
             (<[rid := (amount, st)]> m).
Proof.
  intros Hr Hok Ha. pose proof Hok as [Hnt Hns]. unfold hset_fields, booking_fields. simpl. split.
  - intros r [b Hb]. destruct (decide (r = rid)) as [->|]; [done|].
    rewrite lookup_insert_ne in Hb by done. apply (rep_dom _ _ Hr). eauto.
  - intros r [Hrt Hrs]. rewrite lookup_insert_ne by done.
    rewrite lookup_insert_ne by (intros E; by apply (Hrs rid)).
    destruct (decide (r = rid)) as [->|].
    + by rewrite !lookup_insert_eq.
    + rewrite !lookup_insert_ne by done. by apply (rep_amount _ _ Hr).
  - intros r Hr'. rewrite lookup_insert_ne by (intros E; by apply (state_field_total r)).
    destruct (decide (r = rid)) as [->|].
    + by rewrite !lookup_insert_eq.
    + rewrite lookup_insert_ne by (intros E; by apply state_field_inj in E).
      rewrite lookup_insert_ne by (intros E; by apply (Hns r)).
      rewrite lookup_insert_ne by done. by apply (rep_state _ _ Hr).
  - rewrite hash_total_insert, lg_total_insert. by apply next_total_spec.
  - apply lg_nonneg_insert; [done | apply (rep_nonneg _ _ Hr)].
Qed.

(** Rollback: set [__total], drop the two fields. *)
Definition rollback_hash (h : gmap string string) (rid : string) (old : string) : gmap string string :=
  let t := hash_total h - num_or_0 (Some old) in
  let t' := if t <? 0 then 0 else t in
  hdel_fields [rid; state_field rid] (hset_fields [(TOTAL, tostring t')] h).

Lemma rep_rollback h m rid old :
  ledger_rep h m -> rid_ok rid -> h !! rid = Some old ->
  ledger_rep (rollback_hash h rid old) (delete rid m).
Proof.
  intros Hr Hok Hold. pose proof Hok as [Hnt Hns].
  pose proof (rep_num _ _ _ Hr Hok) as Hnum. rewrite Hold in Hnum.
  pose proof (lg_amount_le m rid (rep_nonneg _ _ Hr)) as Hle.
  unfold rollback_hash. rewrite Hnum, (rep_total _ _ Hr).
  destruct (Z.ltb_spec (lg_total m - lg_amount m rid) 0); [lia|].
  unfold hset_fields, hdel_fields. simpl. split.
  - intros r [b Hb]. rewrite lookup_delete in Hb. case_decide; [done|]. apply (rep_dom _ _ Hr). eauto.
  - intros r [Hrt Hrs]. rewrite lookup_delete_ne by (intros E; by apply (Hrs rid)).
    rewrite !lookup_delete. case_decide; [done|].
    rewrite lookup_insert_ne by done. by apply (rep_amount _ _ Hr).
  - intros r Hr'. destruct (decide (r = rid)) as [->|].
    + by rewrite !lookup_delete_eq.
    + rewrite lookup_delete_ne by (intros E; by apply state_field_inj in E).
      rewrite lookup_delete_ne by (intros E; by apply (Hns r)).
      rewrite lookup_insert_ne by (intros E; by apply (state_field_total r)).
      rewrite lookup_delete_ne by done. by apply (rep_state _ _ Hr).
  - unfold hash_total. rewrite lookup_delete_ne by apply state_field_total.
    rewrite lookup_delete_ne by done. rewrite lookup_insert_eq. simpl default.
    rewrite num_tostring. by rewrite lg_total_delete.
  - apply lg_nonneg_delete, (rep_nonneg _ _ Hr).
Qed.

(** ** The fragments on the server *)

Section ledger.
Context {R : Type} `{RedisLaws R}.
Implicit Types (s : R) (k rid : string) (m : ledger).

(** Lua [projected(key, amount)] *)
Definition projected (s : R) (k rid : string) (amount : Z) : Z :=
  let old_n := num_or_0 (rd_hget s k rid) in
  let total := num_or_0 (Some (default "0" (rd_hget s k TOTAL))) in
  let next := total - old_n + amount in
  if next <? 0 then 0 else next.

(** Lua [write(key, amount, next_total, ttl)]; the key lives [grace] longer than its window. *)
Definition write (grace : Z) (k rid : string) (amount next ttl : Z) (s : R) : R :=
  let s := rd_hset k (booking_fields rid amount Reserved next) s in
  if rd_ttl s k <? 0 then rd_expire k (ttl + grace) s else s.

Lemma projected_next s k rid amount h :
  as_hash (view s k) = Some h -> projected s k rid amount = next_total h rid amount.
Proof. intros Hh. unfold projected. by rewrite !(hget_law _ _ _ _ Hh). Qed.

Lemma projected_spec s k rid amount m :
  holds (view s k) m -> rid_ok rid -> 0 <= amount ->
  projected s k rid amount = lg_total m - lg_amount m rid + amount.
Proof.
  intros (h & Hh & Hr) Hok Ha. rewrite (projected_next _ _ _ _ _ Hh). by apply next_total_spec.
Qed.

Lemma write_ne grace k k' rid amount next ttl s :
  k <> k' -> view (write grace k rid amount next ttl s) k' = view s k'.
Proof. intros Hne. unfold write. case_match; by autorewrite with redis_ne. Qed.

Lemma write_spec grace k rid amount ttl s m :
  holds (view s k) m -> rid_ok rid -> 0 <= amount -> 0 < ttl + grace ->
  holds (view (write grace k rid amount (projected s k rid amount) ttl s) k)
        (<[rid := (amount, Reserved)]> m).
Proof.
  intros (h & Hh & Hr) Hok Ha Ht. unfold write. rewrite (projected_next _ _ _ _ _ Hh).
  exists (hset_fields (booking_fields rid amount Reserved (next_total h rid amount)) h).
  split; [|by apply rep_write].
  case_match; [rewrite as_hash_expire by done|]; by apply as_hash_hset.
Qed.

(** The key keeps its expiry, or gets one: it never outlives window plus grace. *)
Lemma write_ttl grace k rid amount ttl s m :
  holds (view s k) m -> 0 < ttl + grace ->
  rd_ttl (write grace k rid amount (projected s k rid amount) ttl s) k
    = match ttl_of (view s k) with Some t => t | None => ttl + grace end.
Proof.
  intros (h & Hh & Hr) Ht. unfold write.
  set (fvs := booking_fields _ _ _ _). rewrite !ttl_law.
  assert (exists h', view (rd_hset k fvs s) k = Some (Entry (RHash h') (ttl_of (view s k)))) as [h' Hv].
  { rewrite (hset_law _ _ _ _ Hh). unfold put_hash. case_decide as E; [|eauto].
    exfalso. unfold fvs, booking_fields, hset_fields in E. simpl in E.
    by apply insert_non_empty in E. }
  rewrite Hv. simpl. destruct (ttl_of (view s k)) as [t|] eqn:Et; simpl.
  - assert (0 <= t) by (eapply ttl_pos_law; [exact Hv | done]).
    destruct (Z.ltb_spec t 0); [lia|]. by rewrite Hv.
  - rewrite expire_law by done. by rewrite Hv.
Qed.

Lemma holds_elapsed s s' k m : elapsed s s' -> holds (view s k) m -> holds (view s' k) m \/ view s' k = None.
Proof.
  intros He (h & Hh & Hr). destruct (He k) as [?|([v t] & [v' t'] & Hs & Hs' & Hv & _)]; [by right|left].
  exists h. split; [|done]. rewrite Hs'. rewrite Hs in Hh. simpl in *. subst. done.
Qed.
End ledger.
