(* ===== verification/Windows.v ===== *)
(** Window identifiers of limits/backend.py: fixed minute and hour windows,
    the local calendar day, and the UTC calendar windows of the counters.
    Times are microseconds since the epoch. *)
From S2P Require Import Prelude.

Definition sec (n : Z) : Z := n * 1000000.
Definition day_us : Z := sec 86400.

(** ** Dates (datetime)

    Proleptic Gregorian calendar; day 0 is 1970-01-01. *)
Definition civil_of_days (days : Z) : Z * Z * Z :=
  let z := days + 719468 in
  let era := z / 146097 in
  let doe := z mod 146097 in
  let yoe := (doe - doe / 1460 + doe / 36524 - doe / 146096) / 365 in
  let doy := doe - (365 * yoe + yoe / 4 - yoe / 100) in
  let mp := (5 * doy + 2) / 153 in
  let d := doy - (153 * mp + 2) / 5 + 1 in
  let m := if mp <? 10 then mp + 3 else mp - 9 in
  let y := yoe + era * 400 in
  (if m <=? 2 then y + 1 else y, m, d).

Definition days_of_civil (y m d : Z) : Z :=
  let y := if m <=? 2 then y - 1 else y in
  let era := y / 400 in
  let yoe := y mod 400 in
  let doy := (153 * (if 2 <? m then m - 3 else m + 9) + 2) / 5 + d - 1 in
  let doe := yoe * 365 + yoe / 4 - yoe / 100 + doy in
  era * 146097 + doe - 719468.

Definition pad2 (n : Z) : string := if n <? 10 then "0" +++ tostring n else tostring n.

(** [strftime("%Y-%m-%d")] *)
Definition date_text (days : Z) : string :=
  let '(y, m, d) := civil_of_days days in
  tostring y +++ "-" +++ pad2 m +++ "-" +++ pad2 d.

Example civil_epoch : civil_of_days 0 = (1970, 1, 1). Proof. reflexivity. Qed.
Example civil_leap : civil_of_days 19782 = (2024, 2, 29). Proof. reflexivity. Qed.
Example civil_2026 : date_text 20454 = "2026-01-01". Proof. reflexivity. Qed.

Section local_day.
(** The UTC offset of the process's time zone at an instant, in microseconds. *)
Variable utc_offset : Z -> Z.

(** limits/backend.py: _day_window_id_ttl *)
Definition _day_window_id_ttl (now : Z) : string * Z :=
  let local := now + utc_offset now in
  (date_text (local / day_us), Z.max 1 ((day_us - local mod day_us) / sec 1)).

(** limits/manager.py: _seconds_until_day_end *)
Definition _seconds_until_day_end (now : Z) : Z :=
  let local := now + utc_offset now in
  Z.max 1 ((day_us - local mod day_us) / sec 1).

(** The two agree: RPD and TPD share the natural-day boundary. *)
Lemma day_ttl_agrees now : (_day_window_id_ttl now).2 = _seconds_until_day_end now.
Proof. done. Qed.

Lemma seconds_until_day_end_bounds now : 1 <= _seconds_until_day_end now <= 86400.
Proof.
  unfold _seconds_until_day_end.
  set (r := (now + utc_offset now) mod day_us).
  assert (0 <= r < day_us) as Hr by (apply Z.mod_pos_bound; unfold day_us, sec; lia).
  assert ((day_us - r) / sec 1 <= 86400); [|lia].
  apply Z.div_le_upper_bound; unfold day_us, sec in *; lia.
Qed.

(** Window ids of every metric (a Python dict, in insertion order). *)
Definition _reservation_window_ids (now : Z) : list (string * string) :=
  let day_id := (_day_window_id_ttl now).1 in
  [("rpm", tostring (now / sec 60));
   ("rph", tostring (now / sec 3600));
   ("rpd", day_id);
   ("tpm", tostring (now / sec 60));
   ("tph", tostring (now / sec 3600));
   ("tpd", day_id);
   ("model_tpm", tostring (now / sec 60))].
End local_day.

(** ** UTC calendar windows

    limits/backend.py: calendar_window_id.  The TTL is the rest of the window
    plus one hour. *)
Definition weekday (days : Z) : Z := (days + 3) mod 7.   (* Monday is 0 *)

(** [date.isocalendar()]: the ISO year and week are those of the week's Thursday. *)
Definition iso_week (days : Z) : Z * Z :=
  let thursday := days - weekday days + 3 in
  let '(y, _, _) := civil_of_days thursday in
  (y, (thursday - days_of_civil y 1 1) / 7 + 1).

Definition calendar_end (calendar : string) (now : Z) : Z :=
  let days := now / day_us in
  let '(y, m, d) := civil_of_days days in
  if String.eqb calendar "week" then (days - weekday days + 7) * day_us
  else if String.eqb calendar "month"
  then days_of_civil (if m =? 12 then y + 1 else y) (if m =? 12 then 1 else m + 1) 1 * day_us
  else (days + 1) * day_us.

Definition calendar_window_id (calendar : string) (now : Z) : string * Z :=
  let days := now / day_us in
  let '(y, m, d) := civil_of_days days in
  let ttl := (calendar_end calendar now - now) / sec 1 + 3600 in
  if String.eqb calendar "week" then
    let '(iy, iw) := iso_week days in (tostring iy +++ "-W" +++ pad2 iw, ttl)
  else if String.eqb calendar "month" then (tostring y +++ "-" +++ pad2 m, ttl)
  else (date_text days, ttl).

Example week_2020 : (calendar_window_id "week" (sec 1609459200)).1 = "2020-W53". Proof. reflexivity. Qed.
Example month_end : calendar_window_id "month" (sec 1609459199) = ("2020-12", 3601). Proof. reflexivity. Qed.

(** Days and weeks end after the instant they contain. *)
Lemma calendar_end_later calendar now : calendar <> "month" -> now < calendar_end calendar now.
Proof.
  intros Hcal. set (days := now / day_us).
  assert (forall n, days < n -> now < n * day_us) as Hlt.
  { assert (0 < day_us) as Hday by (unfold day_us, sec; lia). intros n Hn.
    pose proof (Z.mod_pos_bound now day_us Hday). pose proof (Z.div_mod now day_us ltac:(lia)) as Hdm.
    fold days in Hdm. nia. }
  unfold calendar_end. fold days. destruct (civil_of_days days) as [[y m] d].
  assert (0 <= weekday days < 7) by (apply Z.mod_pos_bound; lia).
  destruct (String.eqb calendar "week"); [apply Hlt; lia|].
  destruct (String.eqb_spec calendar "month"); [done | apply Hlt; lia].
Qed.

Lemma calendar_ttl_pos calendar now :
  now < calendar_end calendar now -> 3600 <= (calendar_window_id calendar now).2.
Proof.
  intros Hnow.
  assert (0 <= (calendar_end calendar now - now) / sec 1) by (apply Z.div_pos; unfold sec; lia).
  unfold calendar_window_id. repeat case_match; simpl; lia.
Qed.

(** ** Dict lookup and its JSON text *)

Fixpoint assoc (k : string) (d : list (string * string)) : option string :=
  match d with
  | [] => None
  | (k', v) :: d' => if decide (k = k') then Some v else assoc k d'
  end.

(** Characters json.dumps writes as they are. *)
Definition json_plain (c : ascii) : bool :=
  let n := nat_of_ascii c in
  (32 <=? n)%nat && (n <? 127)%nat && negb (n =? 34)%nat && negb (n =? 92)%nat.
Fixpoint str_all (p : ascii -> bool) (s : string) : bool :=
  match s with EmptyString => true | String c s' => p c && str_all p s' end.

Definition QUOTE : ascii := ascii_of_nat 34.
Definition json_str (s : string) : string := String QUOTE (s +++ String QUOTE EmptyString).

(** [json.dumps(d, separators=(",", ":"))] on plain string values. *)
Fixpoint json_members (d : list (string * string)) : string :=
  match d with
  | [] => "}"
  | [(k, v)] => json_str k +++ ":" +++ json_str v +++ "}"
  | (k, v) :: d' => json_str k +++ ":" +++ json_str v +++ "," +++ json_members d'
  end.
Definition json_dumps (d : list (string * string)) : string := "{" +++ json_members d.

(** [json.loads] on an object of plain strings, written without blanks; anything
    else is outside this parser and reads as a failure. *)
Definition parse_str (s : string) : option (string * string) :=
  match s with
  | String q s' => if decide (q = QUOTE) then '(a, r) ← cut_at QUOTE s'; if str_all json_plain a then Some (a, r) else None else None
  | _ => None
  end.

Fixpoint parse_members (fuel : nat) (s : string) : option (list (string * string)) :=
  match fuel with
  | O => None
  | S fuel' =>
      '(k, r) ← parse_str s;
      match r with
      | String ":" r1 =>
          '(v, r2) ← parse_str r1;
          match r2 with
          | String "}" EmptyString => Some [(k, v)]
          | String "," r3 => rest ← parse_members fuel' r3; Some ((k, v) :: rest)
          | _ => None
          end
      | _ => None
      end
  end.

Definition json_loads (s : string) : option (list (string * string)) :=
  match s with
  | String "{" (String "}" EmptyString) => Some []
  | String "{" s' => parse_members (String.length s') s'
  | _ => None
  end.

Definition plain_dict (d : list (string * string)) : bool :=
  forallb (fun kv => str_all json_plain kv.1 && str_all json_plain kv.2) d.

#[local] Arguments parse_str : simpl never.
#[local] Arguments json_str : simpl never.

Lemma plain_no_quote s : str_all json_plain s = true -> str_mem QUOTE s = false.
Proof.
  induction s as [|c s IH]; simpl; [done|]. intros [Hc Hs]%andb_prop.
  rewrite IH by done. rewrite bool_decide_eq_false_2; [done|]. by intros ->.
Qed.

Lemma parse_json_str s r : str_all json_plain s = true -> parse_str (json_str s +++ r) = Some (s, r).
Proof.
  intros Hs. unfold json_str.
  change (String QUOTE (s +++ String QUOTE EmptyString) +++ r)
    with (String QUOTE ((s +++ String QUOTE EmptyString) +++ r)).
  rewrite append_assoc. unfold parse_str. rewrite decide_True by done.
  change (String QUOTE EmptyString +++ r) with (String QUOTE r).
  rewrite cut_at_append by by apply plain_no_quote. simpl. by rewrite Hs.
Qed.

Lemma parse_members_json fuel d :
  d <> [] -> plain_dict d = true -> (length d <= fuel)%nat -> parse_members fuel (json_members d) = Some d.
Proof.
  revert fuel. induction d as [|[k v] d IH]; intros fuel Hne Hp Hf; [done|].
  simpl in Hp. apply andb_prop in Hp as [[Hk Hv]%andb_prop Hp].
  destruct fuel as [|fuel]; [simpl in Hf; lia|].
  destruct d as [|kv d]; cbn [json_members parse_members];
    rewrite (parse_json_str k) by done; cbn [mbind option_bind];
    change (":" +++ ?x) with (String ":" x); cbn [String.append]; cbv beta iota;
    rewrite (parse_json_str v) by done; cbn [mbind option_bind String.append]; [done|].
  change (parse_members fuel _) with (parse_members fuel (json_members (kv :: d))).
  rewrite (IH fuel); [done | done | done | simpl in *; lia].
Qed.

Lemma json_members_length d : (length d <= String.length (json_members d))%nat.
Proof.
  induction d as [|[k v] [|kv d] IH]; [simpl; lia | |].
  - simpl. rewrite !length_append. simpl. lia.
  - change (json_members ((k, v) :: kv :: d)) with
      (json_str k +++ ":" +++ json_str v +++ "," +++ json_members (kv :: d)).
    rewrite !length_append. simpl (length (_ :: _)) in *. simpl (String.length ":"). lia.
Qed.

(** Round trip of the window ids through the reservation's meta record. *)
Lemma json_roundtrip d : plain_dict d = true -> json_loads (json_dumps d) = Some d.
Proof.
  intros Hp. destruct d as [|kv d]; [done|]. unfold json_dumps.
  assert (exists r, json_members (kv :: d) = String QUOTE r) as [r Hr].
  { destruct kv, d as [|? ?]; unfold json_members, json_str; cbn [String.append]; eauto. }
  change ("{" +++ json_members (kv :: d)) with (String "{" (json_members (kv :: d))).
  unfold json_loads. rewrite Hr. change QUOTE with ("034"%char). cbv iota.
  change (String "034"%char r) with (String QUOTE r). rewrite <- Hr.
  apply parse_members_json; [done | done | apply json_members_length].
Qed.
