(* ===== verification/Reservation.v ===== *)
(** limits/backend.py, the reservation path of [RedisLimitBackend]: keys, the
    atomic reserve script, exact rollback, settlement, lease renewal and
    release, process heartbeats and the orphan reaper.

    Each Lua script is a pure function [R -> reply * R]; its redis.call lines
    are the commands of Redis.v in the same order.  The Python method around
    it builds KEYS and ARGV, sends the script through [eval] and decodes the
    reply. *)
From S2P Require Import Prelude Redis Client Ledger Windows.

(** ** Keys *)

Definition _RESERVATION_PREFIX := "limit:reservation:v1".
Definition _RESERVATION_INDEX := "limit:reservation:v1:active".
Definition _PROCESS_HEARTBEAT_PREFIX := "limit:process-heartbeat".
Definition _RESERVATION_GRACE : Z := 60.

Definition _reservation_meta_key (reservation_id : string) : string :=
  _RESERVATION_PREFIX +++ ":meta:" +++ reservation_id.

Definition _process_heartbeat_key (boot_id : string) : string :=
  _PROCESS_HEARTBEAT_PREFIX +++ ":" +++ boot_id.

Definition _ledger_key (conf : redis_conf) (scope subject_key metric window_id : string) : string :=
  _key conf (_RESERVATION_PREFIX +++ ":" +++ scope +++ ":" +++ subject_key +++ ":" +++ metric +++ ":" +++ window_id).

(** A dict of the six account ledgers; a missing window id is a KeyError. *)
Definition _account_ledger_keys (conf : redis_conf) (account_key : string)
    (window_ids : list (string * string)) (m : string) : option string :=
  w ← assoc m window_ids; Some (_ledger_key conf "account" account_key m w).

Definition _model_ledger_key (conf : redis_conf) (model_id window_id : string) : string :=
  _ledger_key conf "model" ("model:" +++ model_id) "tpm" window_id.

(** The owner of a lease id ["lease:<boot>:<hex>"]: [lease_id.split(":", 2)[1]]. *)
Definition lease_boot_id (lease_id : string) : string :=
  if startswith "lease:" lease_id then
    match cut_at ":" (str_drop 6 lease_id) with Some (boot, _) => boot | None => "" end
  else "".

(** ** The reserve script *)

(** KEYS[1..13] *)
Record reserve_keys := ReserveKeys {
  k_concurrency : string; k_rpm : string; k_rpd : string; k_freeze : string;
  k_model_freeze : string; k_account_model_freeze : string; k_rph : string;
  k_tpm : string; k_tph : string; k_tpd : string; k_model_tpm : string;
  k_index : string; k_meta : string;
}.

(** ARGV[1..32] that the script reads *)
Record reserve_argv := ReserveArgv {
  a_now : Z; a_concurrent_limit : Z; a_concurrency_ttl : Z; a_rid : string;
  a_rpm_limit : Z; a_rpm_ttl : Z; a_rpd_limit : Z; a_rpd_ttl : Z; a_rph_limit : Z; a_rph_ttl : Z;
  a_token_amount : Z; a_tpm_limit : Z; a_tpm_ttl : Z; a_tph_limit : Z; a_tph_ttl : Z;
  a_tpd_limit : Z; a_tpd_ttl : Z; a_model_tpm_limit : Z; a_model_tpm_ttl : Z;
  a_allow_overflow : bool; a_grace : Z; a_account_key : string; a_model_id : string;
  a_window_ids : string; a_boot_id : string; a_meta_ttl : Z; a_skip_freeze : bool;
}.

(** A Lua table reply: numbers arrive truncated to integers. *)
Inductive reply := LInt (z : Z) | LStr (s : string).
#[export] Instance reply_eq_dec : EqDecision reply.
Proof. solve_decision. Defined.

(** Microseconds as the integer seconds of a Redis integer reply. *)
Definition lua_secs (us : Z) : Z := Z.quot us (sec 1).

(** [math.max(1, math.ceil(x))] on a duration in microseconds *)
Definition ceil_secs (us : Z) : Z := Z.max 1 (- ((- us) / sec 1)).

(** The account freeze a metric that reached its limit asks for (the longest
    wins), and the freeze of the shared model. *)
Record freeze_acc := FreezeAcc { f_reason : string; f_for : Z; f_model_for : Z }.

Section script.
Context {R : Type} `{Redis R}.
Variables (K : reserve_keys) (A : reserve_argv).

(** Freeze keys, before any write; a test probe skips them. *)
Definition check_freeze (s : R) : option (list reply) :=
  if a_skip_freeze A then None else
  let freeze_ttl := rd_ttl s (k_freeze K) in
  if 0 <? freeze_ttl then Some [LInt 0; LStr "frozen"; LInt freeze_ttl; LInt 0; LInt 0] else
  let model_freeze_ttl := rd_ttl s (k_model_freeze K) in
  if 0 <? model_freeze_ttl then Some [LInt 0; LStr "model_frozen"; LInt model_freeze_ttl; LInt 0; LInt 0] else
  let account_model_freeze_ttl := rd_ttl s (k_account_model_freeze K) in
  if 0 <? account_model_freeze_ttl
  then Some [LInt 0; LStr "account_model_frozen"; LInt account_model_freeze_ttl; LInt 0; LInt 0]
  else None.

(** Concurrency: drop expired leases, then refuse at the limit. *)
Definition check_concurrency (s : R) : option (list reply) * R :=
  if 0 <? a_concurrent_limit A then
    let s := rd_zremrangebyscore (k_concurrency K) 0 (a_now A) s in
    let concurrent_used := rd_zcard s (k_concurrency K) in
    if a_concurrent_limit A <=? concurrent_used then
      let retry_after :=
        match rd_zrange00 s (k_concurrency K) with
        | Some (_, earliest) => ceil_secs (earliest - a_now A)
        | None => 1
        end in
      (Some [LInt 0; LStr "concurrent"; LInt retry_after; LInt 0; LInt 0; LInt concurrent_used; LInt 0], s)
    else (None, s)
  else (None, s).

Definition token_specs : list (string * Z * Z) :=
  [(k_tpm K, a_tpm_limit A, a_tpm_ttl A); (k_tph K, a_tph_limit A, a_tph_ttl A);
   (k_tpd K, a_tpd_limit A, a_tpd_ttl A); (k_model_tpm K, a_model_tpm_limit A, a_model_tpm_ttl A)].

(** Token refusal, before any write. *)
Fixpoint check_tokens (specs : list (string * Z * Z)) (s : R) : option (list reply) :=
  match specs with
  | [] => None
  | (key, limit, ttl) :: specs' =>
      if (0 <? limit) && (limit <=? projected s key (a_rid A) (a_token_amount A)) then
        let remaining := rd_ttl s key in
        let remaining := if remaining <? 0 then ttl else remaining in
        Some [LInt 0; LStr "token_limit"; LInt remaining; LInt 0; LInt 0; LInt 0; LInt 0; LInt 0]
      else check_tokens specs' s
  end.

(** One request window: rpm, then rpd, then rph.  (The rpm block assigns
    without comparing: [freeze_for] is still 0 there.) *)
Definition request_step (key : string) (limit ttl : Z) (name : string) (acc : freeze_acc) (s : R)
    : Z * freeze_acc * R :=
  if 0 <? limit then
    let used := projected s key (a_rid A) 1 in
    let s := write (a_grace A) key (a_rid A) 1 used ttl s in
    if limit <=? used then
      let t := rd_ttl s key in
      if (f_for acc =? 0) || (f_for acc <? t)
      then (used, FreezeAcc name t (f_model_for acc), s)
      else (used, acc, s)
    else (used, acc, s)
  else (0, acc, s).

(** One token window; the shared model window freezes the model instead. *)
Definition token_step (key : string) (limit ttl : Z) (name : string) (is_model : bool)
    (acc : freeze_acc) (s : R) : Z * freeze_acc * R :=
  if 0 <? limit then
    let next := projected s key (a_rid A) (a_token_amount A) in
    let s := write (a_grace A) key (a_rid A) (a_token_amount A) next ttl s in
    if limit <=? next then
      let remaining := rd_ttl s key in
      if 0 <? remaining then
        if is_model then
          (next, FreezeAcc (f_reason acc) (f_for acc) remaining,
           rd_set (k_model_freeze K) "reservation:model_tpm" (Some remaining) s)
        else if (f_for acc =? 0) || (f_for acc <? remaining)
        then (next, FreezeAcc name remaining (f_model_for acc), s)
        else (next, acc, s)
      else (next, acc, s)
    else (next, acc, s)
  else (0, acc, s).

Definition token_steps (acc : freeze_acc) (s : R) : Z * Z * Z * Z * freeze_acc * R :=
  if 0 <? a_token_amount A then
    let '(u1, acc, s) := token_step (k_tpm K) (a_tpm_limit A) (a_tpm_ttl A) "tpm" false acc s in
    let '(u2, acc, s) := token_step (k_tph K) (a_tph_limit A) (a_tph_ttl A) "tph" false acc s in
    let '(u3, acc, s) := token_step (k_tpd K) (a_tpd_limit A) (a_tpd_ttl A) "tpd" false acc s in
    let '(u4, acc, s) := token_step (k_model_tpm K) (a_model_tpm_limit A) (a_model_tpm_ttl A) "model_tpm" true acc s in
    (u1, u2, u3, u4, acc, s)
  else (0, 0, 0, 0, acc, s).

(** The account freeze key. *)
Definition set_freeze (acc : freeze_acc) (s : R) : R :=
  if 0 <? f_for acc
  then rd_set (k_freeze K) ("reservation:" +++ f_reason acc) (Some (f_for acc)) s else s.

(** Recovery index and meta record; a test probe has nothing to recover. *)
Definition meta_fields : list (string * string) :=
  [("account_key", a_account_key A); ("model_id", a_model_id A);
   ("window_ids", a_window_ids A); ("boot_id", a_boot_id A)].

Definition register (s : R) : R :=
  if a_skip_freeze A then s else
  let s := rd_sadd (k_index K) [a_rid A] s in
  let s := rd_hset (k_meta K) meta_fields s in
  rd_expire (k_meta K) (a_meta_ttl A) s.

(** The concurrency lease. *)
Definition take_lease (s : R) : Z * R :=
  if 0 <? a_concurrent_limit A then
    let lease_expires_at := a_now A + sec (a_concurrency_ttl A) in
    let s := rd_zadd (k_concurrency K) lease_expires_at (a_rid A) s in
    (lease_expires_at, rd_expire (k_concurrency K) (a_concurrency_ttl A + 60) s)
  else (0, s).

Definition reserve_script (s : R) : list reply * R :=
  match check_freeze s with
  | Some r => (r, s)
  | None =>
    match check_concurrency s with
    | (Some r, s) => (r, s)
    | (None, s) =>
      match (if (0 <? a_token_amount A) && negb (a_allow_overflow A)
             then check_tokens token_specs s else None) with
      | Some r => (r, s)
      | None =>
        let '(rpm, acc, s) := request_step (k_rpm K) (a_rpm_limit A) (a_rpm_ttl A) "rpm" (FreezeAcc "" 0 0) s in
        let '(rpd, acc, s) := request_step (k_rpd K) (a_rpd_limit A) (a_rpd_ttl A) "rpd" acc s in
        let '(rph, acc, s) := request_step (k_rph K) (a_rph_limit A) (a_rph_ttl A) "rph" acc s in
        let '(u1, u2, u3, u4, acc, s) := token_steps acc s in
        let s := set_freeze acc s in
        let s := register s in
        let '(lease_expires_at, s) := take_lease s in
        ([LInt 1; LStr (f_reason acc); LInt (f_for acc); LInt rpm; LInt rpd; LInt 0;
          LInt (lua_secs lease_expires_at); LInt rph;
          LInt u1; LInt u2; LInt u3; LInt u4; LInt (f_model_for acc)], s)
      end
    end
  end.
End script.

(** ** reserve_account_limits *)

(** The keyword arguments of the method. *)
Record reserve_args := ReserveArgs {
  r_account_key : string; r_lease_id : string;
  r_freeze_key : string; r_model_freeze_key : string; r_account_model_freeze_key : string;
  r_concurrent_limit : Z; r_concurrency_ttl : Z;
  r_rpm_limit : Z; r_rpm_ttl : Z; r_rpd_limit : Z; r_rpd_ttl : Z; r_rph_limit : Z; r_rph_ttl : Z;
  r_model_id : option string; r_token_amount : Z;
  r_tpm_limit : Z; r_tpm_ttl : Z; r_tph_limit : Z; r_tph_ttl : Z; r_tpd_limit : Z; r_tpd_ttl : Z;
  r_model_tpm_limit : Z; r_model_tpm_ttl : Z;
  r_allow_token_overflow : bool; r_window_ids : option (list (string * string));
  r_skip_freeze_checks : bool;
}.

(** The dict it returns. *)
Record reserve_result := ReserveResult {
  rr_allowed : bool; rr_reason : string; rr_ttl : Z; rr_retry_after : Z;
  rr_rpm : Z; rr_rpd : Z; rr_rph : Z; rr_concurrent_used : Z; rr_lease_expires_at : Z;
  rr_tpm : Z; rr_tph : Z; rr_tpd : Z; rr_model_tpm : Z; rr_model_tpm_freeze_ttl : Z;
  rr_window_ids : list (string * string);
}.

(** Truthiness of an optional string argument ([if model_id]). *)
Definition opt_truthy (o : option string) : bool := match o with Some s => str_truthy s | None => false end.
Definition opt_or_empty (o : option string) : string := default "" o.

(** [int(x)] on a reply element *)
Definition py_int (r : reply) : option Z :=
  match r with LInt z => Some z | LStr s => tonumber s end.

(** [str(x)]: without decode_responses a bulk reply is bytes, whose str is its repr. *)
Definition py_str (conf : redis_conf) (r : reply) : string :=
  match r with
  | LInt z => tostring z
  | LStr s => if decode_responses conf then s else "b'" +++ s +++ "'"
  end.

(** [str(x or "")]: the empty string, empty bytes and 0 are falsy. *)
Definition py_str_or (conf : redis_conf) (r : reply) : string :=
  match r with
  | LInt 0 => ""
  | LStr "" => ""
  | _ => py_str conf r
  end.

(** [int(result[i] or 0) if len(result) > i else 0] *)
Definition int_at (l : list reply) (i : nat) : option Z :=
  match l !! i with
  | None => Some 0
  | Some (LStr "") => Some 0
  | Some r => py_int r
  end.

Definition transient (reason : string) : bool :=
  bool_decide (reason = "concurrent") || bool_decide (reason = "token_limit").

(** Decode the reply list; [None] is an exception (swallowed by the method). *)
Definition decode_reserve (conf : redis_conf) (wids : list (string * string)) (result : list reply)
    : option reserve_result :=
  r1 ← result !! 1%nat;
  let reason := py_str_or conf r1 in
  r2 ← int_at result 2; _ ← result !! 2%nat;
  r0 ← (result !! 0%nat) ≫= py_int;
  rpm ← int_at result 3; _ ← result !! 3%nat;
  rpd ← int_at result 4; _ ← result !! 4%nat;
  rph ← int_at result 7;
  used ← int_at result 5;
  expires ← int_at result 6;
  tpm ← int_at result 8; tph ← int_at result 9; tpd ← int_at result 10; mtpm ← int_at result 11;
  mfreeze ← int_at result 12;
  let raw_ttl := Z.max 0 r2 in
  Some {| rr_allowed := negb (r0 =? 0); rr_reason := reason;
          rr_ttl := if transient reason then 0 else raw_ttl;
          rr_retry_after := if transient reason then raw_ttl else 0;
          rr_rpm := rpm; rr_rpd := rpd; rr_rph := rph; rr_concurrent_used := used;
          rr_lease_expires_at := expires; rr_tpm := tpm; rr_tph := tph; rr_tpd := tpd;
          rr_model_tpm := mtpm; rr_model_tpm_freeze_ttl := Z.max 0 mfreeze;
          rr_window_ids := wids |}.

(** [window_ids or cls._reservation_window_ids(now)]: an empty dict is falsy too. *)
Definition window_ids_or (utc_offset : Z -> Z) (w : option (list (string * string))) (now : Z) :=
  match w with
  | Some (kv :: d) => kv :: d
  | _ => _reservation_window_ids utc_offset now
  end.

Section methods.
Context {R : Type} `{Redis R}.
Variables (conf : redis_conf) (utc_offset : Z -> Z).

Definition reserve_base (account_key : string) : string := "limit:account-reserve:" +++ account_key.
Definition concurrency_key (account_key : string) : string :=
  _key conf (reserve_base account_key +++ ":concurrency").

Definition make_keys (a : reserve_args) (wids : list (string * string)) : option reserve_keys :=
  let acc := _account_ledger_keys conf (r_account_key a) wids in
  rpm ← acc "rpm"; rph ← acc "rph"; rpd ← acc "rpd"; tpm ← acc "tpm"; tph ← acc "tph"; tpd ← acc "tpd";
  mw ← assoc "model_tpm" wids;
  Some {| k_concurrency := concurrency_key (r_account_key a);
          k_rpm := rpm; k_rpd := rpd;
          k_freeze := _key conf (r_freeze_key a);
          k_model_freeze := _key conf (r_model_freeze_key a);
          k_account_model_freeze := _key conf (r_account_model_freeze_key a);
          k_rph := rph; k_tpm := tpm; k_tph := tph; k_tpd := tpd;
          k_model_tpm :=
            if opt_truthy (r_model_id a)
            then _model_ledger_key conf (opt_or_empty (r_model_id a)) mw
            else _ledger_key conf "model" "model:__none__" "tpm" mw;
          k_index := _key conf _RESERVATION_INDEX;
          k_meta := _key conf (_reservation_meta_key (r_lease_id a)) |}.

Definition make_argv (a : reserve_args) (wids : list (string * string)) (now : Z) : reserve_argv :=
  {| a_now := now; a_concurrent_limit := r_concurrent_limit a; a_concurrency_ttl := r_concurrency_ttl a;
     a_rid := r_lease_id a;
     a_rpm_limit := r_rpm_limit a; a_rpm_ttl := r_rpm_ttl a;
     a_rpd_limit := r_rpd_limit a; a_rpd_ttl := r_rpd_ttl a;
     a_rph_limit := r_rph_limit a; a_rph_ttl := r_rph_ttl a;
     a_token_amount := Z.max 0 (r_token_amount a);
     a_tpm_limit := r_tpm_limit a; a_tpm_ttl := r_tpm_ttl a;
     a_tph_limit := r_tph_limit a; a_tph_ttl := r_tph_ttl a;
     a_tpd_limit := r_tpd_limit a; a_tpd_ttl := r_tpd_ttl a;
     a_model_tpm_limit := if opt_truthy (r_model_id a) then r_model_tpm_limit a else 0;
     a_model_tpm_ttl := r_model_tpm_ttl a;
     a_allow_overflow := r_allow_token_overflow a; a_grace := _RESERVATION_GRACE;
     a_account_key := r_account_key a; a_model_id := opt_or_empty (r_model_id a);
     a_window_ids := json_dumps wids; a_boot_id := lease_boot_id (r_lease_id a);
     a_meta_ttl := Z.max (Z.max (r_rpd_ttl a) (r_tpd_ttl a)) 86400 + _RESERVATION_GRACE;
     a_skip_freeze := r_skip_freeze_checks a |}.

(** RedisLimitBackend.reserve_account_limits.  A dict without one of the
    window ids is a KeyError outside the [try]. *)
Definition reserve_account_limits (a : reserve_args) (now : Z) : M R (option reserve_result) :=
  with_redis conf None (
    let wids := window_ids_or utc_offset (r_window_ids a) now in
    K ← of_option (make_keys a wids);
    attempt None (
      result ← eval (reserve_script K (make_argv a wids now));
      r ← of_option (decode_reserve conf wids result);
      mret (Some r))).

(** ** Rollback *)

(** One ledger of the script's loop; the counter of removed bookings. *)
Definition rollback_one (rid : string) (acc : Z * R) (key : string) : Z * R :=
  let '(removed, s) := acc in
  match rd_hget s key rid with
  | Some old =>
      let total := num_or_0 (Some (default "0" (rd_hget s key TOTAL))) in
      let new_total := total - num_or_0 (Some old) in
      let new_total := if new_total <? 0 then 0 else new_total in
      let s := rd_hset key [(TOTAL, tostring new_total)] s in
      (removed + 1, rd_hdel key [rid; state_field rid] s)
  | None => (removed, s)
  end.

Definition rollback_script (ledgers : list string) (index meta rid : string) (s : R) : Z * R :=
  let '(removed, s) := foldl (rollback_one rid) (0, s) ledgers in
  let s := rd_srem index [rid] s in
  (removed, rd_del meta s).

Definition rollback_keys (account_key : string) (model_id : option string)
    (wids : list (string * string)) : option (list string) :=
  let acc := _account_ledger_keys conf account_key wids in
  rpm ← acc "rpm"; rph ← acc "rph"; rpd ← acc "rpd"; tpm ← acc "tpm"; tph ← acc "tph"; tpd ← acc "tpd";
  if opt_truthy model_id then
    mw ← assoc "model_tpm" wids;
    Some [rpm; rph; rpd; tpm; tph; tpd; _model_ledger_key conf (opt_or_empty model_id) mw]
  else Some [rpm; rph; rpd; tpm; tph; tpd].

(** RedisLimitBackend.rollback_account_reservation: the number of bookings removed. *)
Definition rollback_account_reservation (account_key : string) (model_id : option string)
    (reservation_id : string) (window_ids : option (list (string * string))) (now : Z) : M R (option Z) :=
  with_redis conf None (
    if negb (str_truthy account_key) || negb (str_truthy reservation_id) then mret None else
    keys ← of_option (rollback_keys account_key model_id (window_ids_or utc_offset window_ids now));
    attempt None (
      removed ← eval (rollback_script keys (_key conf _RESERVATION_INDEX)
                        (_key conf (_reservation_meta_key reservation_id)) reservation_id);
      mret (Some removed))).

(** RedisLimitBackend.finalize_reservation *)
Definition finalize_reservation (reservation_id : string) : M R unit :=
  with_redis conf tt (
    if negb (str_truthy reservation_id) then mret tt else
    attempt tt (
      native_srem (_key conf _RESERVATION_INDEX) [reservation_id];;
      jdbc_delete conf [_bare_key conf (_key conf (_reservation_meta_key reservation_id))])).

(** ** Heartbeats and the orphan reaper *)

Definition set_process_heartbeat (boot_id : string) (ttl_seconds : Z) : M R bool :=
  with_redis conf false (
    if negb (str_truthy boot_id) || (ttl_seconds <=? 0) then mret false else
    attempt false (
      jdbc_set conf (_process_heartbeat_key boot_id) "1" (Some ttl_seconds);; mret true)).

(** Unknown is alive: a live process's bookings must not be rolled back. *)
Definition process_alive (boot_id : string) : M R bool :=
  with_redis conf true (
    if negb (str_truthy boot_id) then mret true else
    attempt true (native_exists (_key conf (_process_heartbeat_key boot_id)))).

(** _decode_meta_field (decoded replies) *)
Definition _decode_meta_field (meta : gmap string string) (name dflt : string) : string :=
  default dflt (meta !! name).

(** A member of the index the reaper may judge: it names an owner. *)
Definition has_owner (m : string) : bool :=
  str_truthy m && startswith "lease:" m &&
  match cut_at ":" (str_drop 6 m) with Some _ => true | None => false end.

(** One entry of the batch. *)
Definition reap_one (current_boot_id : string) (now : Z) (reservation_id : string)
    (meta : gmap string string) : M R Z :=
  if decide (meta = ∅) then mret 0 else
  let boot_id := _decode_meta_field meta "boot_id" "" in
  if negb (str_truthy boot_id) || bool_decide (boot_id = current_boot_id) then mret 0 else
  alive ← process_alive boot_id;
  if alive : bool then mret 0 else
  let account_key := _decode_meta_field meta "account_key" "" in
  let model_id := _decode_meta_field meta "model_id" "" in
  let window_ids_raw := _decode_meta_field meta "window_ids" "{}" in
  let wids := if str_truthy window_ids_raw then default [] (json_loads window_ids_raw) else [] in
  result ← rollback_account_reservation account_key
             (if str_truthy model_id then Some model_id else None) reservation_id (Some wids) now;
  match result with
  | None => mret 0
  | Some _ => finalize_reservation reservation_id;; mret 1
  end.

(** The metas of a batch: one HGETALL each; on an exception every meta is empty. *)
Fixpoint fetch_metas (rids : list string) : M R (list (gmap string string)) :=
  match rids with
  | [] => mret []
  | rid :: rids' =>
      m ← jdbc_hgetall conf (_bare_key conf (_key conf (_reservation_meta_key rid)));
      ms ← fetch_metas rids';
      mret (m :: ms)
  end.

Fixpoint reap_batch (current_boot_id : string) (now : Z)
    (batch : list (string * gmap string string)) : M R Z :=
  match batch with
  | [] => mret 0
  | (rid, meta) :: batch' =>
      n ← reap_one current_boot_id now rid meta;
      n' ← reap_batch current_boot_id now batch';
      mret (n + n')
  end.

(** [decoded[start:start + batch_size]] for start in steps of batch_size. *)
Fixpoint reap_batches (fuel : nat) (current_boot_id : string) (now : Z) (batch_size : nat)
    (decoded : list string) : M R Z :=
  match fuel, decoded with
  | _, [] => mret 0
  | O, _ => mret 0
  | S fuel', _ =>
      let batch := take batch_size decoded in
      metas ← attempt (replicate (length batch) ∅) (fetch_metas batch);
      n ← reap_batch current_boot_id now (zip batch metas);
      n' ← reap_batches fuel' current_boot_id now batch_size (drop batch_size decoded);
      mret (n + n')
  end.

(** RedisLimitBackend.reap_orphan_reservations *)
Definition reap_orphan_reservations (current_boot_id : string) (batch_size : nat) (now : Z) : M R Z :=
  with_redis conf 0 (
    members ← attempt [] (native_smembers (_key conf _RESERVATION_INDEX));
    let decoded := filter (fun m => has_owner m = true) members in
    reap_batches (length decoded) current_boot_id now batch_size decoded).
End methods.
