(* ===== verification/Settlement.v ===== *)
(** limits/backend.py, settling a reservation: the reconcile script (replace
    the booked tokens by the real usage), lease renewal and release, and the
    per-window usage the admin panel reads. *)
From S2P Require Import Prelude Redis Client Ledger Windows Reservation.

(** ** The reconcile script *)

Record reconcile_keys := ReconcileKeys {
  c_ledgers : list string;          (* tpm, tph, tpd and, with a model, model_tpm *)
  c_account_freeze : string; c_model_freeze : string; c_index : string; c_meta : string;
}.

Record reconcile_argv := ReconcileArgv {
  c_rid : string; c_actual : Z; c_account_freeze_on : bool; c_model_freeze_on : bool; c_limits : list Z;
}.

(** Freeze TTLs gathered by the loop. *)
Record settle_acc := SettleAcc { st_out : list Z; st_account_ttl : Z; st_model_ttl : Z }.

Section script.
Context {R : Type} `{Redis R}.
Variables (K : reconcile_keys) (A : reconcile_argv).

(** The ledger at (1-based) position [i]; the fourth is the model's. *)
Definition settle_one (i : nat) (key : string) (limit : Z) (acc : settle_acc) (s : R) : settle_acc * R :=
  if negb (rd_exists s key) then (SettleAcc (st_out acc ++ [-1]) (st_account_ttl acc) (st_model_ttl acc), s) else
  let new_total := projected s key (c_rid A) (c_actual A) in
  let s := rd_hset key (booking_fields (c_rid A) (c_actual A) Committed new_total) s in
  let out := st_out acc ++ [new_total] in
  if (0 <? limit) && (limit <=? new_total) then
    let remaining := rd_ttl s key in
    if 0 <? remaining then
      if (i =? 4)%nat then
        (SettleAcc out (st_account_ttl acc) remaining,
         if c_model_freeze_on A
         then rd_set (c_model_freeze K) "reservation:model_tpm" (Some remaining) s else s)
      else if st_account_ttl acc <? remaining
      then (SettleAcc out remaining (st_model_ttl acc), s)
      else (SettleAcc out (st_account_ttl acc) (st_model_ttl acc), s)
    else (SettleAcc out (st_account_ttl acc) (st_model_ttl acc), s)
  else (SettleAcc out (st_account_ttl acc) (st_model_ttl acc), s).

Fixpoint settle_loop (i : nat) (ks : list (string * Z)) (acc : settle_acc) (s : R) : settle_acc * R :=
  match ks with
  | [] => (acc, s)
  | (key, limit) :: ks' =>
      let '(acc, s) := settle_one i key limit acc s in
      settle_loop (S i) ks' acc s
  end.

(** The loop's totals, then the account and the model freeze TTL. *)
Definition reconcile_script (s : R) : list Z * R :=
  let '(acc, s) := settle_loop 1 (zip (c_ledgers K) (c_limits A)) (SettleAcc [] 0 0) s in
  let s := if (0 <? st_account_ttl acc) && c_account_freeze_on A
           then rd_set (c_account_freeze K) "reservation:tpm" (Some (st_account_ttl acc)) s else s in
  let s := rd_srem (c_index K) [c_rid A] s in
  (st_out acc ++ [st_account_ttl acc; st_model_ttl acc], rd_del (c_meta K) s).
End script.

(** ** reconcile_account_reservation *)

Record reconcile_args := ReconcileArgs {
  e_account_key : string; e_model_id : option string; e_reservation_id : string; e_actual_tokens : Z;
  e_account_tpm_limit : Z; e_account_tph_limit : Z; e_account_tpd_limit : Z; e_model_tpm_limit : Z;
  e_window_ids : option (list (string * string));
  e_account_freeze_key : option string; e_model_freeze_key : option string;
}.

(** [used] maps a metric to its settled total, None when the window is gone. *)
Record reconcile_result := ReconcileResult {
  rc_used : list (string * option Z); rc_account_freeze_ttl : Z; rc_model_freeze_ttl : Z;
}.

Definition reconcile_order (model_id : option string) : list string :=
  ["account_tpm"; "account_tph"; "account_tpd"] ++ (if opt_truthy model_id then ["model_tpm"] else []).

(** The last two elements are the freeze TTLs; the others the totals, -1 for a lost window. *)
Definition decode_reconcile (model_id : option string) (raw : list Z) : reconcile_result :=
  let n := length raw in
  let '(used_raw, a, m) :=
    if (2 <=? n)%nat
    then (take (n - 2) raw, Z.max 0 (default 0 (raw !! (n - 2)%nat)), Z.max 0 (default 0 (raw !! (n - 1)%nat)))
    else (raw, 0, 0) in
  {| rc_used := imap (fun i name =>
       (name, match used_raw !! i with Some v => if v <? 0 then None else Some v | None => None end))
       (reconcile_order model_id);
     rc_account_freeze_ttl := a; rc_model_freeze_ttl := m |}.

Section methods.
Context {R : Type} `{Redis R}.
Variables (conf : redis_conf) (utc_offset : Z -> Z).

Definition reconcile_ledgers (a : reconcile_args) (wids : list (string * string)) : option (list string) :=
  let acc := _account_ledger_keys conf (e_account_key a) wids in
  _ ← acc "rpm"; _ ← acc "rph"; _ ← acc "rpd";
  tpm ← acc "tpm"; tph ← acc "tph"; tpd ← acc "tpd";
  if opt_truthy (e_model_id a) then
    mw ← assoc "model_tpm" wids;
    Some [tpm; tph; tpd; _model_ledger_key conf (opt_or_empty (e_model_id a)) mw]
  else Some [tpm; tph; tpd].

Definition make_reconcile_keys (a : reconcile_args) (ledgers : list string) : reconcile_keys :=
  {| c_ledgers := ledgers;
     c_account_freeze :=
       if opt_truthy (e_account_freeze_key a) then _key conf (opt_or_empty (e_account_freeze_key a))
       else _key conf "limit:reservation:v1:__no_account_freeze__";
     c_model_freeze :=
       if opt_truthy (e_model_freeze_key a) then _key conf (opt_or_empty (e_model_freeze_key a))
       else _key conf "limit:reservation:v1:__no_model_freeze__";
     c_index := _key conf _RESERVATION_INDEX;
     c_meta := _key conf (_reservation_meta_key (e_reservation_id a)) |}.

Definition make_reconcile_argv (a : reconcile_args) : reconcile_argv :=
  {| c_rid := e_reservation_id a; c_actual := Z.max 0 (e_actual_tokens a);
     c_account_freeze_on := opt_truthy (e_account_freeze_key a);
     c_model_freeze_on := opt_truthy (e_model_freeze_key a);
     c_limits := [e_account_tpm_limit a; e_account_tph_limit a; e_account_tpd_limit a]
                 ++ (if opt_truthy (e_model_id a) then [e_model_tpm_limit a] else []) |}.

(** RedisLimitBackend.reconcile_account_reservation *)
Definition reconcile_account_reservation (a : reconcile_args) (now : Z) : M R (option reconcile_result) :=
  with_redis conf None (
    if negb (str_truthy (e_account_key a)) || negb (str_truthy (e_reservation_id a)) then mret None else
    ledgers ← of_option (reconcile_ledgers a (window_ids_or utc_offset (e_window_ids a) now));
    attempt None (
      raw ← eval (reconcile_script (make_reconcile_keys a ledgers) (make_reconcile_argv a));
      mret (Some (decode_reconcile (e_model_id a) raw)))).

(** ** Usage of the current windows (one HGET per metric, pipelined) *)
Definition batch_get_account_window_usage (account_key : string) (metrics : list string) (now : Z)
    : M R (list (string * Z)) :=
  with_redis conf [] (
    if negb (str_truthy account_key) then mret [] else
    let wids := _reservation_window_ids utc_offset now in
    let wanted := filter (fun m => m ∈ ["rpm"; "rph"; "rpd"; "tpm"; "tph"; "tpd"]) metrics in
    attempt [] (
      query (fun s => (fun m =>
        (m, match _account_ledger_keys conf account_key wids m with
            | Some k => num_or_0 (rd_hget s k TOTAL)
            | None => 0
            end)) <$> wanted))).

(** ** Concurrency lease of an account *)

(** [ZSCORE] false: the lease is gone and stays gone. *)
Definition renew_script (key lease_id : string) (now ttl_seconds : Z) (s : R) : Z * R :=
  match rd_zscore s key lease_id with
  | None => (0, s)
  | Some _ =>
      let expires_at := now + sec ttl_seconds in
      let s := rd_zadd key expires_at lease_id s in
      (lua_secs expires_at, rd_expire key (ttl_seconds + 60) s)
  end.

Definition renew_account_reservation (account_key lease_id : string) (ttl_seconds now : Z) : M R (option Z) :=
  with_redis conf None (
    if negb (str_truthy lease_id) || (ttl_seconds <=? 0) then mret None else
    attempt None (
      expires_at ← eval (renew_script (concurrency_key conf account_key) lease_id now ttl_seconds);
      mret (if 0 <? expires_at then Some expires_at else None))).

Definition release_account_reservation (account_key lease_id : string) : M R (option bool) :=
  with_redis conf None (
    if negb (str_truthy lease_id) then mret None else
    attempt None (
      n ← native_zrem (concurrency_key conf account_key) lease_id;
      mret (Some (negb (n =? 0))))).
End methods.
