(* ===== verification/ReservationFacts.v ===== *)
(** The reserve script on well-formed ledgers: what each phase does to the
    keyspace, and the refinement of the whole script to insertion in the
    abstract ledgers of Ledger.v. *)
From S2P Require Import Prelude Redis Client Ledger Windows Reservation.

(** The ledgers of a reservation, as a function of the key. *)
Abbreviation books := (string -> ledger).

Definition book (k rid : string) (amount : Z) (st : booking_state) (L : books) : books :=
  fun k' => if decide (k' = k) then <[rid := (amount, st)]> (L k) else L k'.

Definition unbook (rid : string) (L : books) : books := fun k => delete rid (L k).

Lemma book_eq k rid amount st L : book k rid amount st L k = <[rid := (amount, st)]> (L k).
Proof. unfold book. by rewrite decide_True. Qed.
Lemma book_ne k k' rid amount st L : k <> k' -> book k rid amount st L k' = L k'.
Proof. intros. unfold book. by rewrite decide_False. Qed.

Definition ledger_keys (K : reserve_keys) : list string :=
  [k_rpm K; k_rpd K; k_rph K; k_tpm K; k_tph K; k_tpd K; k_model_tpm K].
Definition other_keys (K : reserve_keys) : list string :=
  [k_concurrency K; k_freeze K; k_model_freeze K; k_account_model_freeze K; k_index K; k_meta K].

(** The 13 keys of one call are distinct. *)
Definition keys_wf (K : reserve_keys) : Prop := NoDup (ledger_keys K ++ other_keys K).

Record argv_wf (A : reserve_argv) : Prop := {
  wf_rid : rid_ok (a_rid A);
  wf_rpm : 0 < a_rpm_ttl A + a_grace A;
  wf_rpd : 0 < a_rpd_ttl A + a_grace A;
  wf_rph : 0 < a_rph_ttl A + a_grace A;
  wf_tpm : 0 < a_tpm_ttl A + a_grace A;
  wf_tph : 0 < a_tph_ttl A + a_grace A;
  wf_tpd : 0 < a_tpd_ttl A + a_grace A;
  wf_model : 0 < a_model_tpm_ttl A + a_grace A;
  wf_meta : 0 < a_meta_ttl A;
  wf_lease : 0 < a_concurrency_ttl A + 60;
}.

(** What an accepted call books, in the order of the script. *)
Definition on (limit : Z) (k : string) (amount : Z) : list (string * Z) :=
  if 0 <? limit then [(k, amount)] else [].
Definition bookings (K : reserve_keys) (A : reserve_argv) : list (string * Z) :=
  on (a_rpm_limit A) (k_rpm K) 1 ++ on (a_rpd_limit A) (k_rpd K) 1 ++ on (a_rph_limit A) (k_rph K) 1 ++
  (if 0 <? a_token_amount A then
     on (a_tpm_limit A) (k_tpm K) (a_token_amount A) ++ on (a_tph_limit A) (k_tph K) (a_token_amount A) ++
     on (a_tpd_limit A) (k_tpd K) (a_token_amount A) ++
     on (a_model_tpm_limit A) (k_model_tpm K) (a_token_amount A)
   else []).
Definition book_all (rid : string) (bs : list (string * Z)) (L : books) : books :=
  foldl (fun L kn => book kn.1 rid kn.2 Reserved L) L bs.

(** The first element of the reply: 0 when refused, 1 when accepted. *)
Definition accepted (r : list reply) : Prop := r !! 0%nat = Some (LInt 1).
#[export] Instance accepted_dec r : Decision (accepted r).
Proof. unfold accepted. apply _. Defined.

Lemma book_all_app rid b1 b2 L : book_all rid (b1 ++ b2) L = book_all rid b2 (book_all rid b1 L).
Proof. apply foldl_app. Qed.

(** A ledger outside the bookings keeps its value. *)
Lemma book_all_other rid bs L k : k ∉ bs.*1 -> book_all rid bs L k = L k.
Proof.
  revert L. induction bs as [|[k' n] bs IH]; intros L Hk; [done|].
  simpl in Hk. apply not_elem_of_cons in Hk as [? ?]. change (book_all rid bs (book k' rid n Reserved L) k = L k).
  rewrite IH by done. by apply book_ne.
Qed.

Lemma on_sub limit k n x : x ∈ (on limit k n).*1 -> x = k.
Proof. unfold on. case_match; set_solver. Qed.

Lemma on_sublist limit k n : (on limit k n).*1 `sublist_of` [k].
Proof. unfold on. case_match; simpl; [done | apply sublist_nil_l]. Qed.

Lemma bookings_sublist K A : (bookings K A).*1 `sublist_of` ledger_keys K.
Proof.
  unfold bookings. rewrite !fmap_app.
  change (ledger_keys K) with ([k_rpm K] ++ [k_rpd K] ++ [k_rph K] ++
    ([k_tpm K] ++ [k_tph K] ++ [k_tpd K] ++ [k_model_tpm K])).
  repeat (apply sublist_app; [apply on_sublist|]).
  case_match; [|apply sublist_nil_l].
  rewrite !fmap_app. repeat (apply sublist_app; [apply on_sublist|]). apply on_sublist.
Qed.

Lemma bookings_sub_ledgers K A k : k ∈ (bookings K A).*1 -> k ∈ ledger_keys K.
Proof. intros Hk. eapply elem_of_submseteq; [exact Hk | apply sublist_submseteq, bookings_sublist]. Qed.

Section facts.
Context {R : Type} `{RedisLaws R}.
Implicit Types (s : R) (L : books).

Definition Linv (Ks : list string) (s : R) (L : books) : Prop :=
  forall k, k ∈ Ks -> holds (view s k) (L k).

Lemma Linv_frame Ks s s' L : (forall k, k ∈ Ks -> view s' k = view s k) -> Linv Ks s L -> Linv Ks s' L.
Proof. intros Hf HL k Hk. rewrite Hf by done. by apply HL. Qed.

Lemma Linv_write Ks s L k rid amount grace ttl :
  Linv Ks s L -> k ∈ Ks -> rid_ok rid -> 0 <= amount -> 0 < ttl + grace ->
  Linv Ks (write grace k rid amount (projected s k rid amount) ttl s) (book k rid amount Reserved L).
Proof.
  intros HL Hk Hok Ha Ht k' Hk'. destruct (decide (k' = k)) as [->|].
  - rewrite book_eq. by apply write_spec; [apply HL|..].
  - rewrite book_ne, write_ne by done. by apply HL.
Qed.

(** The outcome of one request or token step. *)
Record step_ok (Ks : list string) (touched : list string) (rid : string)
    (bs : list (string * Z)) (L : books) (s s' : R) : Prop := {
  step_books : Linv Ks s' (book_all rid bs L);
  step_frame : forall k, k ∉ touched -> view s' k = view s k;
}.

Lemma step_refl Ks rid L s : Linv Ks s L -> step_ok Ks [] rid [] L s s.
Proof. by split. Qed.

Lemma step_trans Ks t1 t2 rid b1 b2 L s1 s2 s3 :
  step_ok Ks t1 rid b1 L s1 s2 -> step_ok Ks t2 rid b2 (book_all rid b1 L) s2 s3 ->
  step_ok Ks (t1 ++ t2) rid (b1 ++ b2) L s1 s3.
Proof.
  intros [B1 F1] [B2 F2]. split; [by rewrite book_all_app|].
  intros k [? ?]%not_elem_of_app. by rewrite F2, F1.
Qed.

Section script.
Variables (K : reserve_keys) (A : reserve_argv).

Lemma request_step_ok Ks key limit ttl name acc s u acc' s' L :
  request_step A key limit ttl name acc s = (u, acc', s') ->
  Linv Ks s L -> key ∈ Ks -> rid_ok (a_rid A) -> 0 < ttl + a_grace A ->
  step_ok Ks [key] (a_rid A) (on limit key 1) L s s' /\
  u = (if 0 <? limit then lg_total (L key) - lg_amount (L key) (a_rid A) + 1 else 0).
Proof.
  intros Hs HL Hk Hok Ht. unfold request_step in Hs. unfold on.
  destruct (0 <? limit); [|injection Hs as <- <- <-; split; [by split|done]].
  assert (s' = write (a_grace A) key (a_rid A) 1 (projected s key (a_rid A) 1) ttl s /\
          u = projected s key (a_rid A) 1) as [-> ->]
    by (repeat case_match; by injection Hs as <- <- <-).
  split.
  - split; [by apply (Linv_write Ks)|].
    intros k Hne%not_elem_of_cons. apply write_ne. intros ->. naive_solver.
  - apply projected_spec; [by apply HL | done | lia].
Qed.

Lemma token_step_ok Ks key limit ttl name im acc s u acc' s' L :
  token_step K A key limit ttl name im acc s = (u, acc', s') ->
  Linv Ks s L -> key ∈ Ks -> k_model_freeze K ∉ Ks -> rid_ok (a_rid A) ->
  0 <= a_token_amount A -> 0 < ttl + a_grace A ->
  step_ok Ks [key; k_model_freeze K] (a_rid A) (on limit key (a_token_amount A)) L s s'.
Proof.
  intros Hs HL Hk Hmf Hok Ha Ht. unfold token_step in Hs. unfold on.
  destruct (0 <? limit); [|by injection Hs as <- <- <-].
  set (s1 := write _ _ _ _ _ _ _) in Hs.
  assert (Linv Ks s1 (book key (a_rid A) (a_token_amount A) Reserved L)) as HL1
    by by apply Linv_write.
  assert (forall k, k ∉ [key; k_model_freeze K] -> view s1 k = view s k) as Hf1.
  { intros k Hne%not_elem_of_cons. apply write_ne. intros ->. naive_solver. }
  assert (s' = s1 \/ exists n, s' = rd_set (k_model_freeze K) "reservation:model_tpm" (Some n) s1) as [->|[n ->]]
    by (repeat case_match; injection Hs as <- <- <-; eauto).
  - by split.
  - split.
    + eapply Linv_frame; [|exact HL1]. intros k Hin. apply set_ne. congruence.
    + intros k Hne. rewrite set_ne by set_solver. by apply Hf1.
Qed.

Hypothesis HK : keys_wf K.
Hypothesis HA : argv_wf A.

Lemma ledger_not_other k : k ∈ ledger_keys K -> k ∉ other_keys K.
Proof. apply NoDup_app in HK as (_ & Hd & _). apply Hd. Qed.

Lemma token_steps_ok acc s u acc' s' L :
  token_steps K A acc s = (u, acc', s') -> Linv (ledger_keys K) s L ->
  step_ok (ledger_keys K) (ledger_keys K ++ [k_model_freeze K]) (a_rid A)
    (if 0 <? a_token_amount A then
       on (a_tpm_limit A) (k_tpm K) (a_token_amount A) ++ on (a_tph_limit A) (k_tph K) (a_token_amount A) ++
       on (a_tpd_limit A) (k_tpd K) (a_token_amount A) ++
       on (a_model_tpm_limit A) (k_model_tpm K) (a_token_amount A)
     else []) L s s'.
Proof.
  intros Hs HL. unfold token_steps in Hs.
  destruct (0 <? a_token_amount A) eqn:Ha; [|injection Hs as <- <- <-; split; [done | done]].
  assert (k_model_freeze K ∉ ledger_keys K) as Hmf.
  { intros Hin%ledger_not_other. unfold other_keys in Hin. set_solver. }
  destruct HA. btrue.
  destruct (token_step K A (k_tpm K)) as [[u1 acc1] s1] eqn:E1.
  destruct (token_step K A (k_tph K)) as [[u2 acc2] s2] eqn:E2.
  destruct (token_step K A (k_tpd K)) as [[u3 acc3] s3] eqn:E3.
  destruct (token_step K A (k_model_tpm K)) as [[u4 acc4] s4] eqn:E4.
  injection Hs as <- <- <-.
  eapply token_step_ok in E1 as O1; [|done|unfold ledger_keys; set_solver|done|done|lia|done].
  eapply token_step_ok in E2 as O2; [|apply O1|unfold ledger_keys; set_solver|done|done|lia|done].
  eapply token_step_ok in E3 as O3; [|apply O2|unfold ledger_keys; set_solver|done|done|lia|done].
  eapply token_step_ok in E4 as O4; [|apply O3|unfold ledger_keys; set_solver|done|done|lia|done].
  pose proof (step_trans _ _ _ _ _ _ _ _ _ _ O1
    (step_trans _ _ _ _ _ _ _ _ _ _ O2 (step_trans _ _ _ _ _ _ _ _ _ _ O3 O4))) as [B F].
  split; [exact B|]. intros k Hk. apply F. unfold ledger_keys in *. set_solver.
Qed.

(** ** The other phases touch only their own keys *)

Lemma check_concurrency_frame s o s' k :
  check_concurrency K A s = (o, s') -> k <> k_concurrency K -> view s' k = view s k.
Proof.
  unfold check_concurrency. intros Hc Hk.
  repeat case_match; simplify_eq/=; try done; by apply zremrangebyscore_ne.
Qed.

Lemma set_freeze_ne acc s k : k <> k_freeze K -> view (set_freeze K acc s) k = view s k.
Proof. intros. unfold set_freeze. case_match; [by apply set_ne | done]. Qed.

Lemma register_ne s k : k <> k_index K -> k <> k_meta K -> view (register K A s) k = view s k.
Proof. intros. unfold register. case_match; [done | by rewrite expire_ne, hset_ne, sadd_ne]. Qed.

Lemma take_lease_ne s k : k <> k_concurrency K -> view (take_lease K A s).2 k = view s k.
Proof. intros. unfold take_lease. case_match; simpl; [by rewrite expire_ne, zadd_ne | done]. Qed.

Definition finish (acc : freeze_acc) (s : R) : R :=
  (take_lease K A (register K A (set_freeze K acc s))).2.

Lemma finish_frame acc s k :
  k ∉ [k_concurrency K; k_freeze K; k_index K; k_meta K] -> view (finish acc s) k = view s k.
Proof.
  intros Hk. unfold finish. rewrite !not_elem_of_cons in Hk. destruct Hk as (? & ? & ? & ? & _).
  by rewrite take_lease_ne, register_ne, set_freeze_ne.
Qed.

Definition token_refusal (s : R) : option (list reply) :=
  if (0 <? a_token_amount A) && negb (a_allow_overflow A)
  then check_tokens A (token_specs K A) s else None.

Lemma check_freeze_reply s r : check_freeze K A s = Some r -> ~ accepted r.
Proof. unfold check_freeze, accepted. intros. repeat case_match; by simplify_eq/=. Qed.

Lemma check_concurrency_reply s r s' : check_concurrency K A s = (Some r, s') -> ~ accepted r.
Proof. unfold check_concurrency, accepted. intros. repeat case_match; by simplify_eq/=. Qed.

Lemma check_tokens_reply specs s r : check_tokens A specs s = Some r -> ~ accepted r.
Proof.
  induction specs as [|[[key limit] ttl] specs IH]; simpl; [done|]. unfold accepted.
  intros Hs. case_match; [by simplify_eq/= | by apply IH].
Qed.

Lemma check_tokens_none specs s key limit ttl :
  check_tokens A specs s = None -> (key, limit, ttl) ∈ specs -> 0 < limit ->
  projected s key (a_rid A) (a_token_amount A) < limit.
Proof.
  clear HK HA. induction specs as [|[[k' l'] t'] specs IH]; [set_solver|]. simpl.
  case_match eqn:E; [done|]. intros Ht [Heq|Hin]%elem_of_cons Hlim; [|by apply IH].
  injection Heq as -> -> ->. apply andb_false_iff in E as [E|E]; btrue; lia.
Qed.

Lemma token_refusal_reply s r : token_refusal s = Some r -> ~ accepted r.
Proof. unfold token_refusal. case_match; [apply check_tokens_reply | done]. Qed.

(** ** A refused call *)

Lemma reserve_refused s r s' :
  reserve_script K A s = (r, s') -> ~ accepted r ->
  s' = s \/ s' = (check_concurrency K A s).2.
Proof.
  unfold reserve_script, accepted. intros Hs Hr.
  destruct (check_freeze K A s); [injection Hs as <- <-; by left|].
  destruct (check_concurrency K A s) as [[r'|] sc]; [injection Hs as <- <-; by right|].
  fold (token_refusal sc) in Hs.
  destruct (token_refusal sc); [injection Hs as <- <-; by right|].
  repeat case_match; simplify_eq/=.
Qed.

(** ** An accepted call, phase by phase *)

Lemma reserve_phases s r s' L :
  reserve_script K A s = (r, s') -> accepted r -> Linv (ledger_keys K) s L ->
  exists sc s1 acc,
    check_freeze K A s = None /\ check_concurrency K A s = (None, sc) /\ token_refusal sc = None /\
    step_ok (ledger_keys K) (ledger_keys K ++ [k_model_freeze K]) (a_rid A) (bookings K A) L sc s1 /\
    s' = finish acc s1.
Proof.
  unfold reserve_script. intros Hs Hr HL.
  destruct (check_freeze K A s) as [r'|] eqn:Hf.
  { injection Hs as <- <-. by apply check_freeze_reply in Hf. }
  destruct (check_concurrency K A s) as [[r'|] sc] eqn:Hc.
  { injection Hs as <- <-. by apply check_concurrency_reply in Hc. }
  fold (token_refusal sc) in Hs. destruct (token_refusal sc) as [r'|] eqn:Ht.
  { injection Hs as <- <-. by apply token_refusal_reply in Ht. }
  assert (Linv (ledger_keys K) sc L) as HLc.
  { eapply Linv_frame; [|exact HL]. intros k Hk. eapply check_concurrency_frame; [done|].
    intros ->. apply ledger_not_other in Hk. unfold other_keys in Hk. set_solver. }
  destruct HA.
  destruct (request_step A (k_rpm K)) as [[rpm acc1] s1] eqn:E1.
  destruct (request_step A (k_rpd K)) as [[rpd acc2] s2] eqn:E2.
  destruct (request_step A (k_rph K)) as [[rph acc3] s3] eqn:E3.
  destruct (token_steps K A acc3 s3) as [[[[[u1 u2] u3] u4] acc4] s4] eqn:E4.
  destruct (take_lease _ _ _) as [le s5] eqn:E5.
  eapply request_step_ok in E1 as [O1 _]; [|done|unfold ledger_keys; set_solver|done|done].
  eapply request_step_ok in E2 as [O2 _]; [|apply O1|unfold ledger_keys; set_solver|done|done].
  eapply request_step_ok in E3 as [O3 _]; [|apply O2|unfold ledger_keys; set_solver|done|done].
  eapply token_steps_ok in E4 as O4; [|apply O3].
  exists sc, s4, acc4. split_and!; [done..| |].
  - pose proof (step_trans _ _ _ _ _ _ _ _ _ _ O1
      (step_trans _ _ _ _ _ _ _ _ _ _ O2 (step_trans _ _ _ _ _ _ _ _ _ _ O3 O4))) as [B F].
    split; [exact B|]. intros k Hk. apply F. unfold ledger_keys in *. set_solver.
  - injection Hs as _ <-. unfold finish. by rewrite E5.
Qed.

(** An accepted call inserts exactly [bookings] in the ledgers and changes
    no key but its 13. *)
Lemma reserve_accepted_books s r s' L :
  reserve_script K A s = (r, s') -> accepted r -> Linv (ledger_keys K) s L ->
  step_ok (ledger_keys K) (ledger_keys K ++ other_keys K) (a_rid A) (bookings K A) L s s'.
Proof.
  intros Hs Hr HL. destruct (reserve_phases _ _ _ _ Hs Hr HL) as (sc & s1 & acc & _ & Hc & _ & [B F] & ->).
  split.
  - eapply Linv_frame; [|exact B]. intros k Hk%ledger_not_other. apply finish_frame.
    unfold other_keys in Hk. set_solver.
  - intros k Hk. unfold other_keys in Hk. rewrite finish_frame by set_solver.
    rewrite F by set_solver. eapply check_concurrency_frame; [done | set_solver].
Qed.

(** The lease set after an accepted call. *)
Lemma reserve_accepted_lease s r s' L z :
  reserve_script K A s = (r, s') -> accepted r -> Linv (ledger_keys K) s L ->
  as_zset (view s (k_concurrency K)) = Some z -> 0 < a_concurrent_limit A ->
  as_zset (view s' (k_concurrency K)) =
    Some (<[a_rid A := a_now A + sec (a_concurrency_ttl A)]> (zkeep 0 (a_now A) z)) /\
  Z.of_nat (size (zkeep 0 (a_now A) z)) < a_concurrent_limit A.
Proof.
  intros Hs Hr HL Hz Hlim. destruct (reserve_phases _ _ _ _ Hs Hr HL) as (sc & s1 & acc & _ & Hc & _ & [_ F] & ->).
  assert (as_zset (view sc (k_concurrency K)) = Some (zkeep 0 (a_now A) z) /\
          Z.of_nat (size (zkeep 0 (a_now A) z)) < a_concurrent_limit A) as [Hzc Hsz].
  { unfold check_concurrency in Hc. rewrite (proj2 (Z.ltb_lt _ _) Hlim) in Hc.
    pose proof (as_zset_zremrange _ _ 0 (a_now A) _ Hz) as Hz'.
    rewrite (zcard_law _ _ _ Hz') in Hc. case_match; [done|]. simplify_eq/=. btrue. by split. }
  split; [|done].
  assert (forall k, k ∈ [k_concurrency K] -> k ∉ ledger_keys K ++ [k_model_freeze K; k_freeze K; k_index K; k_meta K]) as Hd.
  { unfold keys_wf, other_keys in HK. intros k Hk. apply NoDup_app in HK as (_ & Hx & Hn).
    rewrite !NoDup_cons in Hn. specialize (Hx k). set_solver. }
  specialize (Hd (k_concurrency K) ltac:(set_solver)). rewrite not_elem_of_app, !not_elem_of_cons in Hd.
  destruct Hd as (? & ? & ? & ? & ? & _).
  unfold finish, take_lease. rewrite (proj2 (Z.ltb_lt _ _) Hlim). simpl.
  destruct HA. rewrite as_zset_expire by done. apply as_zset_zadd.
  rewrite register_ne, set_freeze_ne, F by (done || set_solver). done.
Qed.

(** Without overflow no enabled token window reaches its limit. *)
Lemma reserve_accepted_tokens s r s' L key limit ttl :
  reserve_script K A s = (r, s') -> accepted r -> Linv (ledger_keys K) s L ->
  0 < a_token_amount A -> a_allow_overflow A = false ->
  (key, limit, ttl) ∈ token_specs K A -> 0 < limit ->
  lg_total (L key) - lg_amount (L key) (a_rid A) + a_token_amount A < limit.
Proof.
  intros Hs Hr HL Ha Ho Hin Hlim. destruct (reserve_phases _ _ _ _ Hs Hr HL) as (sc & s1 & acc & _ & Hc & Ht & _ & _).
  unfold token_refusal in Ht. rewrite Ho, (proj2 (Z.ltb_lt _ _) Ha) in Ht. cbn [andb negb] in Ht.
  assert (key ∈ ledger_keys K) as Hk.
  { unfold token_specs, ledger_keys in *. set_solver. }
  assert (holds (view sc key) (L key)) as Hh.
  { rewrite (check_concurrency_frame _ _ _ _ Hc); [by apply HL|].
    intros ->. apply ledger_not_other in Hk. unfold other_keys in Hk. set_solver. }
  rewrite <- (projected_spec sc key (a_rid A)) by (done || apply HA || lia).
  by eapply check_tokens_none.
Qed.
End script.
End facts.
