(* ===== verification/SettlementFacts.v ===== *)
(** Rollback and settlement on well-formed ledgers: each script is deletion or
    replacement of one booking in the abstract ledgers, and touches nothing of
    another reservation. *)
From S2P Require Import Prelude Redis Client Ledger Windows Reservation Settlement ReservationFacts.

Definition unbook_in (Ks : list string) (rid : string) (L : books) : books :=
  fun k => if decide (k ∈ Ks) then delete rid (L k) else L k.

(** Settlement of one ledger: nothing when its window is gone. *)
Definition settle (present : bool) (k rid : string) (amount : Z) (L : books) : books :=
  if present then book k rid amount Committed L else L.

Definition drop_at (k rid : string) (L : books) : books :=
  fun k' => if decide (k' = k) then delete rid (L k') else L k'.

Lemma drop_at_eq k rid L : drop_at k rid L k = delete rid (L k).
Proof. unfold drop_at. by rewrite decide_True. Qed.
Lemma drop_at_ne k rid L k' : k' <> k -> drop_at k rid L k' = L k'.
Proof. intros. unfold drop_at. by rewrite decide_False. Qed.

Lemma unbook_in_cons k Ks rid L k' :
  unbook_in (k :: Ks) rid L k' = unbook_in Ks rid (drop_at k rid L) k'.
Proof.
  unfold unbook_in, drop_at. repeat case_decide; subst; try set_solver; by rewrite ?delete_delete_eq.
Qed.

(** The bookings of [rid] disappear when they are dropped from every ledger. *)
Lemma unbook_book_all rid bs L Ks k :
  (forall x, x ∈ bs.*1 -> x ∈ Ks) ->
  unbook_in Ks rid (book_all rid bs L) k = unbook_in Ks rid L k.
Proof.
  revert L. induction bs as [|[k' n'] bs IH]; intros L Hin; [done|].
  change (book_all rid ((k', n') :: bs) L) with (book_all rid bs (book k' rid n' Reserved L)).
  rewrite IH by (intros x Hx; apply Hin, elem_of_cons; by right).
  unfold unbook_in. case_decide as Hd.
  - unfold book. case_decide; [subst; apply delete_insert_eq | done].
  - apply book_ne. intros ->. apply Hd, Hin. set_solver.
Qed.

Section facts.
Context {R : Type} `{RedisLaws R}.
Implicit Types (s : R) (L : books) (k rid : string).

(** ** Rollback *)

Lemma rollback_one_spec rid n s k n' s' m :
  rollback_one rid (n, s) k = (n', s') -> holds (view s k) m -> rid_ok rid ->
  holds (view s' k) (delete rid m) /\
  n' = n + (if decide (is_Some (m !! rid)) then 1 else 0) /\
  (forall k', k' <> k -> view s' k' = view s k').
Proof.
  intros Hs (h & Hh & Hr) Hok. unfold rollback_one in Hs.
  rewrite !(hget_law _ _ _ _ Hh) in Hs. pose proof (rep_amount _ _ Hr _ Hok) as Ham.
  destruct (h !! rid) as [old|] eqn:Hold.
  - injection Hs as <- <-. split_and!.
    + exists (rollback_hash h rid old). split; [|by apply rep_rollback].
      apply as_hash_hdel. by apply as_hash_hset.
    + destruct (m !! rid); [|done]. rewrite decide_True; [done | eauto].
    + intros k' Hk. by rewrite hdel_ne, hset_ne.
  - injection Hs as <- <-. destruct (m !! rid) eqn:Hm; [done|]. split_and!.
    + rewrite delete_id by done. by exists h.
    + rewrite decide_False by (intros [? ?]; congruence). lia.
    + done.
Qed.

(** Bookings of [rid] present in the given ledgers. *)
Fixpoint booked_count (rid : string) (Ks : list string) (L : books) : Z :=
  match Ks with
  | [] => 0
  | k :: Ks' => (if decide (is_Some (L k !! rid)) then 1 else 0) +
      booked_count rid Ks' (drop_at k rid L)
  end.

Lemma booked_count_zero rid Ks L : (forall k, k ∈ Ks -> L k !! rid = None) -> booked_count rid Ks L = 0.
Proof.
  revert L. induction Ks as [|k Ks IH]; intros L HL; simpl; [done|].
  rewrite decide_False by (rewrite HL by set_solver; by intros [? ?]).
  rewrite IH; [done|]. intros k' Hk'. unfold drop_at.
  case_decide; [apply lookup_delete_None; right|]; apply HL, elem_of_cons; by right.
Qed.

Lemma rollback_loop_spec rid ledgers All n s n' s' L :
  foldl (rollback_one rid) (n, s) ledgers = (n', s') -> rid_ok rid ->
  (forall k, k ∈ ledgers -> k ∈ All) -> Linv All s L ->
  Linv All s' (unbook_in ledgers rid L) /\ n' = n + booked_count rid ledgers L /\
  (forall k, k ∉ ledgers -> view s' k = view s k).
Proof.
  intros Hs Hok. revert n s L Hs. induction ledgers as [|k ks IH]; intros n s L Hs Hin HL.
  { simpl in Hs. injection Hs as <- <-. split_and!; [| simpl; lia | done].
    intros k Hk. unfold unbook_in. rewrite decide_False by set_solver. by apply HL. }
  cbn [foldl] in Hs. destruct (rollback_one rid (n, s) k) as [n1 s1] eqn:E1.
  eapply rollback_one_spec in E1 as (Hh & Hn & Hf); [|apply HL; set_solver|done]. subst n1.
  destruct (IH _ _ (drop_at k rid L) Hs) as (HL1 & Hn & Hf1); [intros k' Hk'; apply Hin, elem_of_cons; by right| |].
  { intros k' Hk'. destruct (decide (k' = k)) as [->|Hne]; [by rewrite drop_at_eq|].
    rewrite drop_at_ne, Hf by done. by apply HL. }
  split_and!.
  - intros k' Hk'. rewrite unbook_in_cons. by apply HL1.
  - rewrite Hn. simpl. lia.
  - intros k' Hk'. rewrite Hf1, Hf by set_solver. done.
Qed.

Lemma rollback_script_spec ledgers index meta rid All s n s' L :
  rollback_script ledgers index meta rid s = (n, s') -> rid_ok rid ->
  (forall k, k ∈ ledgers -> k ∈ All) -> index ∉ All -> meta ∉ All -> Linv All s L ->
  Linv All s' (unbook_in ledgers rid L) /\ n = booked_count rid ledgers L /\
  view s' meta = None /\
  (forall k, k ∉ ledgers -> k <> index -> k <> meta -> view s' k = view s k).
Proof.
  intros Hs Hok Hin Hi Hm HL. unfold rollback_script in Hs.
  destruct (foldl _ _ _) as [n1 s1] eqn:E. injection Hs as <- <-.
  destruct (rollback_loop_spec _ _ _ _ _ _ _ _ E Hok Hin HL) as (HL1 & Hn & Hf). split_and!.
  - eapply Linv_frame; [|exact HL1]. intros k Hk. rewrite del_ne, srem_ne; [done | congruence..].
  - lia.
  - apply del_law.
  - intros k Hk ? ?. rewrite del_ne, srem_ne by done. by apply Hf.
Qed.

(** ** Settlement *)

Section settle.
Variables (K : reconcile_keys) (A : reconcile_argv).

Lemma settle_one_spec All i k limit acc s acc' s' L :
  settle_one K A i k limit acc s = (acc', s') -> Linv All s L -> k ∈ All ->
  c_model_freeze K ∉ All -> rid_ok (c_rid A) -> 0 <= c_actual A ->
  Linv All s' (settle (rd_exists s k) k (c_rid A) (c_actual A) L) /\
  st_out acc' = st_out acc ++
    [if rd_exists s k then lg_total (L k) - lg_amount (L k) (c_rid A) + c_actual A else -1] /\
  (forall k', k' <> k \/ rd_exists s k' = false -> k' <> c_model_freeze K -> view s' k' = view s k').
Proof.
  intros Hs HL Hk Hmf Hok Ha. unfold settle_one in Hs. unfold settle.
  destruct (rd_exists s k) eqn:Hex; simpl negb in Hs; cbv iota in Hs;
    [|injection Hs as <- <-; split_and!; done].
  pose proof (HL k Hk) as (h & Hh & Hr).
  rewrite (projected_next _ _ _ _ _ Hh) in Hs.
  set (s1 := rd_hset k _ s) in Hs.
  assert (Linv All s1 (book k (c_rid A) (c_actual A) Committed L)) as HL1.
  { intros k' Hk'. destruct (decide (k' = k)) as [->|].
    - rewrite book_eq. eexists. split; [by apply as_hash_hset | by apply rep_write].
    - rewrite book_ne by done. unfold s1. rewrite hset_ne by done. by apply HL. }
  assert (forall k', k' <> k -> view s1 k' = view s k') as Hf1 by (intros; by apply hset_ne).
  rewrite (next_total_spec _ _ _ _ Hr Hok Ha) in Hs.
  assert (st_out acc' = st_out acc ++ [lg_total (L k) - lg_amount (L k) (c_rid A) + c_actual A] /\
          (s' = s1 \/ exists n, s' = rd_set (c_model_freeze K) "reservation:model_tpm" (Some n) s1)) as [Ho Hs'].
  { repeat case_match; injection Hs as <- <-; simpl; eauto. }
  split_and!; [|done|].
  - destruct Hs' as [->|[n ->]]; [done|]. eapply Linv_frame; [|exact HL1].
    intros k' Hk'. apply set_ne. congruence.
  - intros k' Hor ?. assert (k' <> k) by (intros ->; destruct Hor; congruence).
    destruct Hs' as [->|[n ->]]; [by apply Hf1|]. rewrite set_ne by done. by apply Hf1.
Qed.

(** The ledgers after the loop: every window that still exists is settled. *)
Fixpoint settled (ks : list (string * Z)) (s : R) (L : books) : books :=
  match ks with
  | [] => L
  | (k, _) :: ks' => settled ks' s (settle (rd_exists s k) k (c_rid A) (c_actual A) L)
  end.

Fixpoint settled_out (ks : list (string * Z)) (s : R) (L : books) : list Z :=
  match ks with
  | [] => []
  | (k, _) :: ks' =>
      (if rd_exists s k then lg_total (L k) - lg_amount (L k) (c_rid A) + c_actual A else -1)
      :: settled_out ks' s L
  end.

Lemma settle_at p k rid a L k' :
  settle p k rid a L k' = if decide (k' = k /\ p = true) then <[rid := (a, Committed)]> (L k') else L k'.
Proof. unfold settle, book. destruct p; repeat case_decide; naive_solver. Qed.

Lemma settled_at ks s L k :
  NoDup ks.*1 ->
  settled ks s L k =
    if decide (k ∈ ks.*1 /\ rd_exists s k = true)
    then <[c_rid A := (c_actual A, Committed)]> (L k) else L k.
Proof.
  revert L. induction ks as [|[k' l] ks IH]; intros L Hnd; simpl.
  { done. }
  simpl in Hnd. apply NoDup_cons in Hnd as [Hk' Hnd]. rewrite IH, settle_at by done.
  destruct (decide (k = k')) as [->|Hne].
  - rewrite decide_False by naive_solver. apply decide_ext. set_solver.
  - rewrite (decide_False (P := k = k' /\ _)) by naive_solver. apply decide_ext. set_solver.
Qed.

Lemma settled_out_at ks s L i k l :
  ks !! i = Some (k, l) ->
  settled_out ks s L !! i = Some (if rd_exists s k
    then lg_total (L k) - lg_amount (L k) (c_rid A) + c_actual A else -1).
Proof. revert i. induction ks as [|[k' l'] ks IH]; intros [|i]; simpl; [done|done|naive_solver|apply IH]. Qed.

Lemma length_settled_out ks s L : length (settled_out ks s L) = length ks.
Proof. induction ks as [|[k l] ks IH]; simpl; [done | by rewrite IH]. Qed.

Lemma settle_other p k rid a L k' : k' <> k -> settle p k rid a L k' = L k'.
Proof. intros. unfold settle. destruct p; [by apply book_ne | done]. Qed.

Lemma settled_out_ext ks s s' L L' :
  (forall k, k ∈ ks.*1 -> view s' k = view s k) -> (forall k, k ∈ ks.*1 -> L' k = L k) ->
  settled_out ks s' L' = settled_out ks s L.
Proof.
  intros Hv HL. induction ks as [|[k l] ks IH]; simpl; [done|].
  rewrite !exists_law, Hv, HL by set_solver. f_equal. apply IH; set_solver.
Qed.

Lemma settled_ext ks s s' L :
  (forall k, k ∈ ks.*1 -> view s' k = view s k) -> settled ks s' L = settled ks s L.
Proof.
  revert L. induction ks as [|[k l] ks IH]; intros L Hv; simpl; [done|].
  rewrite !exists_law, Hv by set_solver. apply IH. set_solver.
Qed.

Lemma settle_loop_spec All i ks acc s acc' s' L :
  settle_loop K A i ks acc s = (acc', s') -> Linv All s L -> NoDup ks.*1 ->
  (forall k, k ∈ ks.*1 -> k ∈ All) -> c_model_freeze K ∉ All ->
  rid_ok (c_rid A) -> 0 <= c_actual A ->
  Linv All s' (settled ks s L) /\ st_out acc' = st_out acc ++ settled_out ks s L /\
  (forall k', k' ∉ ks.*1 \/ rd_exists s k' = false -> k' <> c_model_freeze K -> view s' k' = view s k').
Proof.
  intros Hs HL Hnd Hin Hmf Hok Ha. revert i acc s L Hs HL.
  induction ks as [|[k limit] ks IH]; intros i acc s L Hs HL.
  { simpl in Hs. injection Hs as <- <-. simpl. rewrite app_nil_r. by split_and!. }
  cbn [settle_loop] in Hs. destruct (settle_one K A i k limit acc s) as [acc1 s1] eqn:E1.
  simpl in Hnd, Hin. apply NoDup_cons in Hnd as [Hk Hnd].
  eapply settle_one_spec in E1 as (HL1 & Ho1 & Hf1); [|done|set_solver|done..].
  destruct (IH Hnd ltac:(set_solver) _ _ _ _ Hs HL1) as (HL2 & Ho2 & Hf2).
  assert (forall k', k' ∈ ks.*1 -> view s1 k' = view s k') as Hv.
  { intros k' Hk'. apply Hf1; [left; by intros ->|]. intros ->. set_solver. }
  split_and!.
  - simpl. by rewrite <- (settled_ext ks s s1) by done.
  - rewrite Ho2, Ho1, <- app_assoc. simpl. do 2 f_equal.
    apply settled_out_ext; [done|]. intros k' Hk'. apply settle_other. by intros ->.
  - intros k' Hor ?. assert (view s1 k' = view s k') as Hv1.
    { apply Hf1; [|done]. simpl in Hor. set_solver. }
    rewrite Hf2; [done | | done]. rewrite exists_law, Hv1, <- exists_law. simpl in Hor. set_solver.
Qed.

Lemma reconcile_script_spec All s out s' L :
  reconcile_script K A s = (out, s') -> Linv All s L ->
  length (c_limits A) = length (c_ledgers K) -> NoDup (c_ledgers K) ->
  (forall k, k ∈ c_ledgers K -> k ∈ All) ->
  (forall k, k ∈ [c_account_freeze K; c_model_freeze K; c_index K; c_meta K] -> k ∉ All) ->
  rid_ok (c_rid A) -> 0 <= c_actual A ->
  let ks := zip (c_ledgers K) (c_limits A) in
  Linv All s' (settled ks s L) /\ (exists a m, out = settled_out ks s L ++ [a; m]) /\
  (forall k', k' ∉ c_ledgers K \/ rd_exists s k' = false -> k' ∉ [c_account_freeze K; c_model_freeze K; c_index K; c_meta K] ->
     view s' k' = view s k').
Proof.
  intros Hs HL Hlen Hnd Hin Hoth Hok Ha ks. unfold reconcile_script in Hs. fold ks in Hs.
  assert (ks.*1 = c_ledgers K) as Hks by (apply fst_zip; lia).
  destruct (settle_loop K A 1 ks _ s) as [acc s1] eqn:E. injection Hs as <- <-.
  eapply settle_loop_spec in E as (HL1 & Ho & Hf); rewrite ?Hks; [|done..|set_solver|done|done].
  simpl in Ho. rewrite Ho.
  assert (forall k', k' ∉ [c_account_freeze K; c_model_freeze K; c_index K; c_meta K] ->
    view (rd_del (c_meta K) (rd_srem (c_index K) [c_rid A]
      (if (0 <? st_account_ttl acc) && c_account_freeze_on A
       then rd_set (c_account_freeze K) "reservation:tpm" (Some (st_account_ttl acc)) s1 else s1))) k'
    = view s1 k') as Ht.
  { intros k' Hk'. rewrite !not_elem_of_cons in Hk'. destruct Hk' as (? & ? & ? & ? & _).
    rewrite del_ne, srem_ne by done. case_match; [by apply set_ne | done]. }
  split_and!; [|by eauto|].
  - eapply Linv_frame; [|exact HL1]. intros k Hk. apply Ht. intros Hk'. by apply (Hoth k).
  - intros k' ? Hk'. rewrite Ht by done. rewrite Hks in Hf. apply Hf; [done | set_solver].
Qed.
End settle.
End facts.
