(* ===== verification/ReservationProps.v ===== *)
(** What the reservation path guarantees: the reserve script refines insertion
    in the abstract ledgers, refusals leave no trace, limits hold after every
    accepted call, rollback and settlement are exact, and every interleaving
    of them keeps the ledgers well formed. *)
From S2P Require Import Prelude Redis MapRedis Client Ledger Windows Reservation Settlement.
From S2P Require Import ReservationFacts SettlementFacts.

(** ** Shared lemmas *)

Lemma book_all_at rid bs L k n :
  NoDup bs.*1 -> (k, n) ∈ bs -> book_all rid bs L k = <[rid := (n, Reserved)]> (L k).
Proof.
  revert L. induction bs as [|[k' n'] bs IH]; intros L Hnd Hin; [set_solver|].
  simpl in Hnd. apply NoDup_cons in Hnd as [Hk' Hnd].
  change (book_all rid bs (book k' rid n' Reserved L) k = <[rid := (n, Reserved)]> (L k)).
  apply elem_of_cons in Hin as [[= -> ->]|Hin].
  - rewrite book_all_other by done. apply book_eq.
  - rewrite IH by done. rewrite book_ne; [done|]. intros ->.
    apply Hk'. apply list_elem_of_fmap. by exists (k, n).
Qed.

Lemma bookings_NoDup K A : keys_wf K -> NoDup (bookings K A).*1.
Proof.
  intros HK%NoDup_app. destruct HK as (HK & _ & _).
  eapply sublist_NoDup; [exact HK | apply bookings_sublist].
Qed.

Lemma token_spec_booking K A key limit ttl :
  (key, limit, ttl) ∈ token_specs K A -> 0 < limit -> 0 < a_token_amount A ->
  (key, a_token_amount A) ∈ bookings K A.
Proof.
  intros Hin Hlim Ha. unfold bookings. rewrite (proj2 (Z.ltb_lt _ _) Ha), !elem_of_app. do 3 right.
  assert ((key, a_token_amount A) ∈ on limit key (a_token_amount A)) as Hon.
  { unfold on. rewrite (proj2 (Z.ltb_lt _ _) Hlim). set_solver. }
  unfold token_specs in Hin. rewrite !elem_of_cons in Hin.
  destruct Hin as [[= -> -> ->]|[[= -> -> ->]|[[= -> -> ->]|[[= -> -> ->]|[]%not_elem_of_nil]]]]; tauto.
Qed.

(** ** Interleavings

    One reserve, rollback or reconcile script, or the passing of time.  [U]
    tells the ledger keys from the other keys of the server. *)
Section steps.
Context {R : Type} `{RedisLaws R}.
Variable U : string -> Prop.

Inductive step (s : R) : R -> Prop :=
| step_reserve K A r s' :
    keys_wf K -> argv_wf A -> Forall U (ledger_keys K) -> Forall (fun k => ~ U k) (other_keys K) ->
    reserve_script K A s = (r, s') -> step s s'
| step_rollback ledgers index meta rid n s' :
    rid_ok rid -> Forall U ledgers -> ~ U index -> ~ U meta ->
    rollback_script ledgers index meta rid s = (n, s') -> step s s'
| step_reconcile K A out s' :
    rid_ok (c_rid A) -> 0 <= c_actual A -> length (c_limits A) = length (c_ledgers K) ->
    NoDup (c_ledgers K) -> Forall U (c_ledgers K) ->
    Forall (fun k => ~ U k) [c_account_freeze K; c_model_freeze K; c_index K; c_meta K] ->
    reconcile_script K A s = (out, s') -> step s s'
| step_time s' : elapsed s s' -> step s s'.

(** Every ledger key holds a ledger: total = sum of the bookings, none negative. *)
Definition ledgers_wf (s : R) : Prop := forall k, U k -> exists m, holds (view s k) m.

(** A choice of ledgers for finitely many keys. *)
Lemma ledgers_wf_Linv s Ks : ledgers_wf s -> Forall U Ks -> exists L : books, Linv Ks s L.
Proof.
  intros Hwf HU. induction HU as [|k Ks Hk _ [L HL]]; [exists (fun _ => ∅); intros k Hk; set_solver|].
  destruct (Hwf k Hk) as [m Hm]. exists (fun k' => if decide (k' = k) then m else L k').
  intros k' Hk'. case_decide as Hd; [by rewrite Hd|]. apply HL. set_solver.
Qed.

Lemma ledgers_wf_step_ok s s' Ks L :
  ledgers_wf s -> Linv Ks s' L -> (forall k, U k -> k ∉ Ks -> view s' k = view s k) -> ledgers_wf s'.
Proof.
  intros Hwf HL Hf k Hk. destruct (decide (k ∈ Ks)) as [Hin|Hin]; [by eauto|].
  rewrite Hf by done. by apply Hwf.
Qed.

Lemma not_U_other Ks k : Forall (fun k => ~ U k) Ks -> U k -> k ∉ Ks.
Proof. intros HF Hk Hin. rewrite Forall_forall in HF. by apply (HF k). Qed.

Lemma step_ledgers_wf s s' : step s s' -> ledgers_wf s -> ledgers_wf s'.
Proof.
  intros Hs Hwf.
  destruct Hs as [K A r s' HK HA HU Ho Hs | ledgers index meta rid n s' Hok HU Hi Hm Hs
                 | K A out s' Hok Ha Hlen Hnd HU Ho Hs | s' He].
  - destruct (ledgers_wf_Linv _ _ Hwf HU) as [L HL].
    destruct (decide (accepted r)) as [Hr|Hr].
    + destruct (reserve_accepted_books K A HK HA _ _ _ _ Hs Hr HL) as [B F].
      eapply ledgers_wf_step_ok; [done | exact B|]. intros k Hk Hin. apply F.
      apply not_elem_of_app. split; [done | by eapply not_U_other].
    + destruct (reserve_refused _ _ _ _ _ Hs Hr) as [->| ->]; [done|].
      intros k Hk. destruct (check_concurrency K A s) as [o sc] eqn:Hc. simpl.
      rewrite (check_concurrency_frame _ _ _ _ _ _ Hc); [by apply Hwf|].
      intros ->. eapply not_U_other in Ho; [|done]. unfold other_keys in Ho. set_solver.
  - destruct (ledgers_wf_Linv _ _ Hwf HU) as [L HL]. rewrite Forall_forall in HU.
    eapply (rollback_script_spec _ _ _ _ ledgers) in Hs as (HL' & _ & _ & Hf);
      [|done|done|by intros Hx%HU..|exact HL].
    eapply ledgers_wf_step_ok; [done | exact HL'|]. intros k Hk Hin. apply Hf; [done | congruence..].
  - destruct (ledgers_wf_Linv _ _ Hwf HU) as [L HL].
    eapply (reconcile_script_spec _ _ (c_ledgers K)) in Hs as (HL' & _ & Hf); try done.
    + eapply ledgers_wf_step_ok; [done | exact HL'|]. intros k Hk Hin. apply Hf; [by left|].
      by eapply not_U_other.
    + intros k Hk Hin. rewrite Forall_forall in HU, Ho. by apply (Ho k), HU.
  - intros k Hk. destruct (Hwf k Hk) as [m Hm].
    destruct (holds_elapsed _ _ _ _ He Hm) as [?| ->]; [by exists m | exists ∅; apply holds_absent].
Qed.
End steps.

(** ** When the script accepts *)
Section decision.
Context {R : Type} `{RedisLaws R}.
Variables (K : reserve_keys) (A : reserve_argv).
Implicit Types (s : R).

Lemma check_freeze_none s :
  check_freeze K A s = None <->
  a_skip_freeze A = true \/ (rd_ttl s (k_freeze K) <= 0 /\ rd_ttl s (k_model_freeze K) <= 0 /\
                             rd_ttl s (k_account_model_freeze K) <= 0).
Proof.
  unfold check_freeze. destruct (a_skip_freeze A); [naive_solver|].
  destruct (Z.ltb_spec 0 (rd_ttl s (k_freeze K))); [split; [done|intros [?|?]; [done|lia]]|].
  destruct (Z.ltb_spec 0 (rd_ttl s (k_model_freeze K))); [split; [done|intros [?|?]; [done|lia]]|].
  destruct (Z.ltb_spec 0 (rd_ttl s (k_account_model_freeze K))); [split; [done|intros [?|?]; [done|lia]]|].
  split; [|done]. intros _. by right.
Qed.

Lemma check_concurrency_none s z :
  as_zset (view s (k_concurrency K)) = Some z ->
  (check_concurrency K A s).1 = None <->
  a_concurrent_limit A <= 0 \/ Z.of_nat (size (zkeep 0 (a_now A) z)) < a_concurrent_limit A.
Proof.
  intros Hz. unfold check_concurrency. destruct (Z.ltb_spec 0 (a_concurrent_limit A)); [|simpl; split; [lia | done]].
  rewrite (zcard_law _ _ _ (as_zset_zremrange _ _ 0 (a_now A) _ Hz)).
  destruct (Z.leb_spec (a_concurrent_limit A) (Z.of_nat (size (zkeep 0 (a_now A) z)))); simpl.
  - split; [done | intros; exfalso; lia].
  - split; [intros _; by right | done].
Qed.

Lemma check_tokens_none_iff specs s :
  check_tokens A specs s = None <->
  forall key limit ttl, (key, limit, ttl) ∈ specs -> 0 < limit ->
    projected s key (a_rid A) (a_token_amount A) < limit.
Proof.
  split; [intros Hn key limit ttl Hin Hlim; by eapply check_tokens_none|].
  induction specs as [|[[k l] t] specs IH]; simpl; [done|]. intros Hall.
  destruct (_ && _) eqn:E; [|apply IH; intros ??? Hin; apply (Hall _ _ ttl); set_solver].
  btrue. specialize (Hall k l t ltac:(set_solver)). lia.
Qed.

Lemma reserve_accepts_iff s :
  accepted (reserve_script K A s).1 <->
  check_freeze K A s = None /\ (check_concurrency K A s).1 = None /\
  token_refusal K A (check_concurrency K A s).2 = None.
Proof.
  unfold reserve_script.
  destruct (check_freeze K A s) as [r|] eqn:Hf.
  { simpl. split; [intros Ha; by apply check_freeze_reply in Hf | naive_solver]. }
  destruct (check_concurrency K A s) as [[r|] sc] eqn:Hc.
  { simpl. split; [intros Ha; by apply check_concurrency_reply in Hc | naive_solver]. }
  fold (token_refusal K A sc). cbn [fst snd]. destruct (token_refusal K A sc) as [r|] eqn:Ht.
  { simpl. split; [intros Ha; by apply token_refusal_reply in Ht | naive_solver]. }
  split; [done|]. intros _.
  repeat match goal with |- context [request_step ?a ?b ?c ?d ?e ?f ?g] =>
    destruct (request_step a b c d e f g) as [[? ?] ?] end.
  destruct (token_steps _ _ _ _) as [[[[[? ?] ?] ?] ?] ?]. by destruct (take_lease _ _ _).
Qed.
End decision.

Section props.
Context {R : Type} `{RedisLaws R}.
Implicit Types (s : R) (L : books) (K : reserve_keys) (A : reserve_argv).

(** C2: An accepted reservation inserts, under its id, one request in every
    enabled request window and the token estimate in every enabled token
    window; every other booking of these windows keeps its amount, and no
    key but the 13 of the call changes. *)
Theorem reserve_refines_ledger K A s r s' L :
  keys_wf K -> argv_wf A -> Linv (ledger_keys K) s L ->
  reserve_script K A s = (r, s') -> accepted r ->
  Linv (ledger_keys K) s' (book_all (a_rid A) (bookings K A) L) /\
  (forall k, k ∉ ledger_keys K ++ other_keys K -> view s' k = view s k).
Proof. intros HK HA HL Hs Hr. by destruct (reserve_accepted_books K A HK HA _ _ _ _ Hs Hr HL). Qed.

(** C1: The script accepts exactly when no freeze key has time left (a TTL above 0; a
    permanent key, whose TTL is -1, does not refuse, see [permanent_freeze_accepted]) or
    the call is a test probe, fewer live leases than the concurrency limit exist, and,
    unless overflow is allowed, no enabled token window would reach its limit.  (The keys
    of the call are distinct, its arguments well formed, its ledgers hold bookings.) *)
Theorem reserve_decision K A s L z :
  keys_wf K -> argv_wf A -> Linv (ledger_keys K) s L ->
  as_zset (view s (k_concurrency K)) = Some z ->
  accepted (reserve_script K A s).1 <->
  (a_skip_freeze A = true \/ (rd_ttl s (k_freeze K) <= 0 /\ rd_ttl s (k_model_freeze K) <= 0 /\
                              rd_ttl s (k_account_model_freeze K) <= 0)) /\
  (a_concurrent_limit A <= 0 \/ Z.of_nat (size (zkeep 0 (a_now A) z)) < a_concurrent_limit A) /\
  (a_token_amount A <= 0 \/ a_allow_overflow A = true \/
   forall key limit ttl, (key, limit, ttl) ∈ token_specs K A -> 0 < limit ->
     lg_total (L key) - lg_amount (L key) (a_rid A) + a_token_amount A < limit).
Proof.
  intros HK HA HL Hz. rewrite reserve_accepts_iff, check_freeze_none, (check_concurrency_none _ _ _ _ Hz).
  do 2 f_equiv. unfold token_refusal.
  destruct (Z.ltb_spec 0 (a_token_amount A)) as [Ha|Ha]; cbn [andb]; [|naive_solver].
  destruct (a_allow_overflow A); cbn [negb]; [naive_solver|]. rewrite check_tokens_none_iff.
  assert (forall key limit ttl, (key, limit, ttl) ∈ token_specs K A ->
    projected (check_concurrency K A s).2 key (a_rid A) (a_token_amount A)
    = lg_total (L key) - lg_amount (L key) (a_rid A) + a_token_amount A) as Hp.
  { intros key limit ttl Hin. apply projected_spec; [|apply HA|lia].
    assert (key ∈ ledger_keys K) as Hk by (unfold token_specs, ledger_keys in *; set_solver).
    destruct (check_concurrency K A s) as [o sc] eqn:Hc. simpl.
    rewrite (check_concurrency_frame _ _ _ _ _ _ Hc); [by apply HL|].
    intros ->. apply ledger_not_other in Hk; [|done]. unfold other_keys in Hk. set_solver. }
  split.
  - intros Hall. right. right. intros key limit ttl Hin Hlim. rewrite <- (Hp _ _ _ Hin). by eapply Hall.
  - intros [?|[?|Hall]] key limit ttl Hin Hlim; [lia | done|]. rewrite (Hp _ _ _ Hin). by eapply Hall.
Qed.

(** C4: A refused reservation leaves no trace: no ledger, freeze key, index or
    meta record changes, and the lease set only loses expired leases. *)
Theorem reserve_refused_no_trace K A s r s' z :
  reserve_script K A s = (r, s') -> ~ accepted r ->
  as_zset (view s (k_concurrency K)) = Some z ->
  (forall k, k <> k_concurrency K -> view s' k = view s k) /\
  (as_zset (view s' (k_concurrency K)) = Some z \/
   as_zset (view s' (k_concurrency K)) = Some (zkeep 0 (a_now A) z)).
Proof.
  intros Hs Hr Hz. destruct (reserve_refused _ _ _ _ _ Hs Hr) as [->| ->]; [by eauto|].
  destruct (check_concurrency K A s) as [o sc] eqn:Hc. simpl. split.
  - intros k Hk. by eapply check_concurrency_frame.
  - unfold check_concurrency in Hc. destruct (0 <? a_concurrent_limit A); [|injection Hc as <- <-; by left].
    right. repeat case_match; simplify_eq/=; by apply as_zset_zremrange.
Qed.

(** After an accepted call under a concurrency limit the lease set holds
    the new lease with its expiry, otherwise only leases that were there and
    had not expired, and never more leases than the limit. *)
Lemma reserve_concurrency_bound K A s r s' L z :
  keys_wf K -> argv_wf A -> Linv (ledger_keys K) s L ->
  as_zset (view s (k_concurrency K)) = Some z ->
  reserve_script K A s = (r, s') -> accepted r -> 0 < a_concurrent_limit A ->
  exists z', as_zset (view s' (k_concurrency K)) = Some z' /\
    z' !! a_rid A = Some (a_now A + sec (a_concurrency_ttl A)) /\
    (forall m sc, m <> a_rid A -> z' !! m = Some sc <-> z !! m = Some sc /\ ~ (0 <= sc <= a_now A)) /\
    Z.of_nat (size z') <= a_concurrent_limit A.
Proof.
  intros HK HA HL Hz Hs Hr Hlim.
  destruct (reserve_accepted_lease K A HK HA _ _ _ _ _ Hs Hr HL Hz Hlim) as [Hz' Hsz].
  eexists. split_and!; [exact Hz' | by rewrite lookup_insert_eq | |].
  - intros m sc Hm. rewrite lookup_insert_ne by done. unfold zkeep. by rewrite map_lookup_filter_Some.
  - destruct (zkeep 0 (a_now A) z !! a_rid A) eqn:E.
    + rewrite map_size_insert_Some by eauto. lia.
    + rewrite map_size_insert_None by done. lia.
Qed.

(** When overflow is not allowed, every enabled token window is strictly
    below its limit after an accepted reservation. *)
Lemma reserve_tokens_below_limit K A s r s' L key limit ttl :
  keys_wf K -> argv_wf A -> Linv (ledger_keys K) s L ->
  reserve_script K A s = (r, s') -> accepted r ->
  0 < a_token_amount A -> a_allow_overflow A = false ->
  (key, limit, ttl) ∈ token_specs K A -> 0 < limit ->
  exists m, holds (view s' key) m /\ lg_total m < limit /\
    m !! a_rid A = Some (a_token_amount A, Reserved).
Proof.
  intros HK HA HL Hs Hr Ha Ho Hin Hlim.
  assert (key ∈ ledger_keys K) as Hk by (unfold token_specs, ledger_keys in *; set_solver).
  exists (<[a_rid A := (a_token_amount A, Reserved)]> (L key)). split_and!; [| |by rewrite lookup_insert_eq].
  - destruct (reserve_accepted_books K A HK HA _ _ _ _ Hs Hr HL) as [B _].
    rewrite <- (book_all_at _ (bookings K A)); [by apply B | by apply bookings_NoDup|].
    by eapply token_spec_booking.
  - rewrite lg_total_insert.
    by eapply (reserve_accepted_tokens K A HK HA _ _ _ _ key limit ttl).
Qed.

(** Rolling back an accepted reservation removes its booking from every
    ledger and nothing else: a ledger it had no booking in before is back to
    its value, the id leaves the recovery index and its meta record is gone. *)
Lemma reserve_rollback_restores K A s r s1 L n s2 x :
  keys_wf K -> argv_wf A -> Linv (ledger_keys K) s L ->
  reserve_script K A s = (r, s1) -> accepted r ->
  rollback_script (ledger_keys K) (k_index K) (k_meta K) (a_rid A) s1 = (n, s2) ->
  as_set (view s1 (k_index K)) = Some x ->
  (forall k, k ∈ ledger_keys K -> L k !! a_rid A = None) ->
  Linv (ledger_keys K) s2 L /\ view s2 (k_meta K) = None /\
  as_set (view s2 (k_index K)) = Some (x ∖ {[a_rid A]}).
Proof.
  intros HK HA HL Hs Hr Hb Hx Hfresh.
  destruct (reserve_accepted_books K A HK HA _ _ _ _ Hs Hr HL) as [B _].
  assert (forall k, k ∈ other_keys K -> k ∉ ledger_keys K) as Hd.
  { intros k Hk Hin. by apply (ledger_not_other K HK k). }
  pose proof Hb as Hb'.
  eapply (rollback_script_spec _ _ _ _ (ledger_keys K)) in Hb as (HL2 & _ & Hm & Hf);
    [|apply HA|done|apply Hd; unfold other_keys; set_solver|apply Hd; unfold other_keys; set_solver|exact B].
  split_and!; [|done|].
  - intros k Hk. specialize (HL2 k Hk). rewrite unbook_book_all in HL2 by apply bookings_sub_ledgers.
    unfold unbook_in in HL2. rewrite decide_True in HL2 by done. by rewrite delete_id in HL2 by by apply Hfresh.
  - unfold rollback_script in Hb'. destruct (foldl _ _ _) as [n1 s1'] eqn:E. injection Hb' as <- <-.
    eapply (rollback_loop_spec _ _ (ledger_keys K)) in E as (_ & _ & Hf1); [|apply HA|done|exact B].
    assert (k_index K <> k_meta K /\ k_index K ∉ ledger_keys K) as [Hne Hni].
    { split; [|apply Hd; unfold other_keys; set_solver]. unfold keys_wf in HK.
      apply NoDup_app in HK as (_ & _ & HK). unfold other_keys in HK. rewrite !NoDup_cons in HK. set_solver. }
    rewrite del_ne by done. rewrite <- Hf1 in Hx by done.
    rewrite (srem_law _ _ _ _ Hx), as_set_put. f_equal. set_solver.
Qed.

(** C5: Rollback is exact and idempotent: bookings of other reservations keep
    their amounts, and a second rollback of the same id removes nothing. *)
Theorem rollback_exact ledgers index meta rid s n1 s1 n2 s2 L :
  rid_ok rid -> index ∉ ledgers -> meta ∉ ledgers -> Linv ledgers s L ->
  rollback_script ledgers index meta rid s = (n1, s1) ->
  rollback_script ledgers index meta rid s1 = (n2, s2) ->
  Linv ledgers s1 (unbook rid L) /\ n2 = 0 /\ Linv ledgers s2 (unbook rid L).
Proof.
  intros Hok Hi Hm HL H1 H2.
  assert (forall s L, Linv ledgers s (unbook_in ledgers rid L) -> Linv ledgers s (unbook rid L)) as Hu.
  { intros s0 L0 H0' k Hk. specialize (H0' k Hk). unfold unbook_in in H0'. by rewrite decide_True in H0'. }
  eapply (rollback_script_spec _ _ _ _ ledgers) in H1 as (HL1%Hu & _ & _ & _); [|done..|exact HL].
  eapply (rollback_script_spec _ _ _ _ ledgers) in H2 as (HL2%Hu & Hn & _ & _); [|done..|exact HL1].
  split_and!; [done| |].
  - rewrite Hn. apply booked_count_zero. intros k _. apply lookup_delete_eq.
  - intros k Hk. specialize (HL2 k Hk). unfold unbook in *. by rewrite delete_delete_eq in HL2.
Qed.

(** C6: Settlement replaces, in every token window that still exists, the booked
    estimate of the reservation by its real usage, whatever it was: the reply
    lists the new totals (-1 for a window that is gone), bookings of other
    reservations keep their amounts, and settling twice with the same usage
    changes no total. *)
Theorem reconcile_settles (K : reconcile_keys) (A : reconcile_argv) s out s1 out2 s2 L :
  rid_ok (c_rid A) -> 0 <= c_actual A -> length (c_limits A) = length (c_ledgers K) ->
  NoDup (c_ledgers K) ->
  (forall k, k ∈ [c_account_freeze K; c_model_freeze K; c_index K; c_meta K] -> k ∉ c_ledgers K) ->
  Linv (c_ledgers K) s L ->
  reconcile_script K A s = (out, s1) -> reconcile_script K A s1 = (out2, s2) ->
  let L' k := if rd_exists s k then <[c_rid A := (c_actual A, Committed)]> (L k) else L k in
  Linv (c_ledgers K) s1 L' /\ Linv (c_ledgers K) s2 L' /\
  (forall i k, c_ledgers K !! i = Some k ->
     out !! i = Some (if rd_exists s k then lg_total (L' k) else -1)).
Proof.
  intros Hok Ha Hlen Hnd Ho HL H1 H2 L'.
  set (ks := zip (c_ledgers K) (c_limits A)).
  assert (ks.*1 = c_ledgers K) as Hks by (apply fst_zip; lia).
  eapply (reconcile_script_spec K A (c_ledgers K)) in H1 as (HL1 & (a & m & ->) & Hf1); [|done..]. fold ks in HL1.
  assert (forall s0 L0 k, k ∈ c_ledgers K -> settled A ks s0 L0 k =
    if rd_exists s0 k then <[c_rid A := (c_actual A, Committed)]> (L0 k) else L0 k) as Hat.
  { intros s0 L0 k Hk. rewrite settled_at by by rewrite Hks. rewrite Hks.
    destruct (rd_exists s0 k); [by rewrite decide_True | by rewrite decide_False by naive_solver]. }
  assert (Linv (c_ledgers K) s1 L') as HL1'.
  { intros k Hk. specialize (HL1 k Hk). by rewrite Hat in HL1. }
  eapply (reconcile_script_spec K A (c_ledgers K)) in H2 as (HL2 & _ & _); [|done..]. fold ks in HL2.
  split_and!; [done| |].
  - intros k Hk. specialize (HL2 k Hk). rewrite Hat in HL2 by done. unfold L' in HL2 |- *.
    destruct (rd_exists s k) eqn:E.
    + rewrite insert_insert_eq in HL2. by destruct (rd_exists s1 k).
    + assert (rd_exists s1 k = false) as E1; [|by rewrite E1 in HL2].
      rewrite exists_law, Hf1, <- exists_law; [done | by right|].
      intros Hin. by apply (Ho k).
  - intros i k Hi. rewrite lookup_app_l.
    2:{ rewrite length_settled_out. unfold ks. rewrite length_zip_with_l_eq by lia. by apply lookup_lt_Some in Hi. }
    assert (exists l, ks !! i = Some (k, l)) as [l Hl].
    { destruct (lookup_lt_is_Some_2 (c_limits A) i) as [l Hl]; [rewrite Hlen; by apply lookup_lt_Some in Hi|].
      exists l. unfold ks. apply lookup_zip_with_Some. eauto. }
    rewrite (settled_out_at _ _ _ _ _ _ _ Hl). unfold L'.
    destruct (rd_exists s k); [by rewrite lg_total_insert | done].
Qed.

(** C3: Whatever interleaving of reserve, rollback and reconcile scripts and of
    expiring keys the server runs, every ledger key keeps a total equal to the
    sum of its bookings, all of them non-negative. *)
Theorem ledger_invariant (U : string -> Prop) s s' :
  ledgers_wf U s -> rtc (step U) s s' -> ledgers_wf U s'.
Proof. intros Hwf Hr. induction Hr as [|s1 s2 s3 H1 _ IH]; [done|]. apply IH. by eapply step_ledgers_wf. Qed.

(** A request window that reaches its limit on its first booking asks for a
    freeze as long as the key's TTL, which is the window plus the settlement
    grace, not the rest of the window. *)
Lemma freeze_outlives_window A key ttl name s :
  view s key = None -> argv_wf A -> 0 < ttl + a_grace A ->
  (request_step A key 1 ttl name (FreezeAcc "" 0 0) s).1.2 = FreezeAcc name (ttl + a_grace A) 0.
Proof.
  intros Hv HA Ht. unfold request_step. simpl.
  assert (holds (view s key) ∅) as Hh by (rewrite Hv; apply holds_absent).
  assert (projected s key (a_rid A) 1 = 1) as Hp by (rewrite (projected_spec _ _ _ _ _ Hh) by (apply HA || lia); done).
  pose proof (write_ttl (a_grace A) key (a_rid A) 1 ttl s ∅ Hh Ht) as Hw. rewrite Hp, Hv in Hw.
  rewrite Hp. simpl. by rewrite Hw.
Qed.
End props.

(** ** Witnesses: one account with a concurrency limit of 2, three requests per
    minute and a token limit, on the reference server. *)
Module Sample.
Definition conf := RedisConf (Some "ai") true true.
Definition off : Z -> Z := fun _ => 0.
Definition wids := _reservation_window_ids off (sec 1700000000).
Definition args (rid : string) : reserve_args :=
  {| r_account_key := "account:p:u"; r_lease_id := rid;
     r_freeze_key := "limit:cooldown:p:u"; r_model_freeze_key := "limit:model-tpm-freeze:m";
     r_account_model_freeze_key := "limit:cooldown:p:u:model:m";
     r_concurrent_limit := 2; r_concurrency_ttl := 900;
     r_rpm_limit := 3; r_rpm_ttl := 60; r_rpd_limit := 0; r_rpd_ttl := 86400;
     r_rph_limit := 0; r_rph_ttl := 3600; r_model_id := Some "m"; r_token_amount := 40;
     r_tpm_limit := 100; r_tpm_ttl := 60; r_tph_limit := 0; r_tph_ttl := 3600;
     r_tpd_limit := 0; r_tpd_ttl := 86400; r_model_tpm_limit := 1000; r_model_tpm_ttl := 60;
     r_allow_token_overflow := false; r_window_ids := Some wids; r_skip_freeze_checks := false |}.
Definition no_keys := ReserveKeys "" "" "" "" "" "" "" "" "" "" "" "" "".
Definition keys (rid : string) : reserve_keys := default no_keys (make_keys conf (args rid) wids).
Definition argv (rid : string) : reserve_argv := make_argv (args rid) wids (sec 1700000000).
Definition K := keys "lease:boot:1".
Definition A := argv "lease:boot:1".
Definition s0 : mapredis := ∅.
Definition L0 : books := fun _ => ∅.
Definition s1 : mapredis := (reserve_script K A s0).2.

(** The reconcile call of the same lease: 55 tokens were really used. *)
Definition cK : reconcile_keys :=
  {| c_ledgers := [k_tpm K; k_tph K; k_tpd K; k_model_tpm K];
     c_account_freeze := k_freeze K; c_model_freeze := k_model_freeze K;
     c_index := k_index K; c_meta := k_meta K |}.
Definition cA : reconcile_argv :=
  {| c_rid := "lease:boot:1"; c_actual := 55; c_account_freeze_on := true; c_model_freeze_on := true;
     c_limits := [100; 0; 0; 1000] |}.

Lemma HK : keys_wf K.
Proof. unfold keys_wf. apply (bool_decide_unpack _). by vm_compute. Qed.
Lemma rid_ok_1 : rid_ok "lease:boot:1".
Proof. by apply (rid_ok_lease "boot" "1"). Qed.
Lemma HA : argv_wf A.
Proof. split; [apply rid_ok_1 | done..]. Qed.
Lemma HL0 : Linv (ledger_keys K) s0 L0.
Proof. intros k _. apply holds_absent. Qed.
Lemma acc1 : accepted (reserve_script K A s0).1.
Proof. by vm_compute. Qed.

Lemma reserve_refines_ledger_witness :
  accepted (reserve_script K A s0).1 /\
  Linv (ledger_keys K) s1 (book_all "lease:boot:1" (bookings K A) L0) /\
  (forall k, k ∉ ledger_keys K ++ other_keys K -> view s1 k = view s0 k).
Proof.
  split; [exact acc1|].
  exact (reserve_refines_ledger K A s0 _ s1 L0 HK HA HL0 (surjective_pairing _) acc1).
Defined.

Lemma reserve_decision_witness :
  accepted (reserve_script K A s0).1 <->
  (a_skip_freeze A = true \/ (rd_ttl s0 (k_freeze K) <= 0 /\ rd_ttl s0 (k_model_freeze K) <= 0 /\
                              rd_ttl s0 (k_account_model_freeze K) <= 0)) /\
  (a_concurrent_limit A <= 0 \/ Z.of_nat (size (zkeep 0 (a_now A) ∅)) < a_concurrent_limit A) /\
  (a_token_amount A <= 0 \/ a_allow_overflow A = true \/
   forall key limit ttl, (key, limit, ttl) ∈ token_specs K A -> 0 < limit ->
     lg_total (L0 key) - lg_amount (L0 key) (a_rid A) + a_token_amount A < limit).
Proof. exact (reserve_decision K A s0 L0 ∅ HK HA HL0 eq_refl). Defined.

(** The account is frozen for ever, and the reservation is accepted. *)
Definition sP : mapredis := rd_set (k_freeze K) "1" None s0.
Lemma permanent_freeze_accepted :
  view sP (k_freeze K) = Some (Entry (RString "1") None) /\ rd_ttl sP (k_freeze K) = -1 /\ accepted (reserve_script K A sP).1.
Proof. by vm_compute. Qed.

(** A third lease on a server that already holds two. *)
Definition s2 : mapredis := (reserve_script (keys "lease:boot:2") (argv "lease:boot:2") s1).2.
Definition K3 := keys "lease:boot:3".
Definition A3 := argv "lease:boot:3".
Definition z2 : gmap string Z := default ∅ (as_zset (view s2 (k_concurrency K3))).

Lemma reserve_refused_no_trace_witness :
  (reserve_script K3 A3 s2).1 !! 1%nat = Some (LStr "concurrent") /\
  (forall k, k <> k_concurrency K3 -> view (reserve_script K3 A3 s2).2 k = view s2 k) /\
  (as_zset (view (reserve_script K3 A3 s2).2 (k_concurrency K3)) = Some z2 \/
   as_zset (view (reserve_script K3 A3 s2).2 (k_concurrency K3)) = Some (zkeep 0 (a_now A3) z2)).
Proof.
  split; [by vm_compute|].
  apply (reserve_refused_no_trace K3 A3 s2 _ _ z2 (surjective_pairing _)).
  - apply (bool_decide_unpack _). by vm_compute.
  - by vm_compute.
Defined.

Lemma reserve_concurrency_bound_witness :
  exists z', as_zset (view s1 (k_concurrency K)) = Some z' /\
    z' !! a_rid A = Some (a_now A + sec (a_concurrency_ttl A)) /\
    (forall m sc, m <> a_rid A -> z' !! m = Some sc <-> (∅ : gmap string Z) !! m = Some sc /\ ~ (0 <= sc <= a_now A)) /\
    Z.of_nat (size z') <= 2.
Proof.
  apply (reserve_concurrency_bound K A s0 _ s1 L0 ∅ HK HA HL0 eq_refl (surjective_pairing _) acc1).
  by vm_compute.
Defined.

Lemma reserve_tokens_below_limit_witness :
  exists m, holds (view s1 (k_tpm K)) m /\ lg_total m < 100 /\ m !! a_rid A = Some (40, Reserved).
Proof.
  apply (reserve_tokens_below_limit K A s0 _ s1 L0 (k_tpm K) 100 60 HK HA HL0 (surjective_pairing _) acc1);
    [done | done | left | done].
Defined.

Lemma reserve_rollback_restores_witness :
  let r := rollback_script (ledger_keys K) (k_index K) (k_meta K) (a_rid A) s1 in
  r.1 = 3 /\ Linv (ledger_keys K) r.2 L0 /\ view r.2 (k_meta K) = None /\
  as_set (view r.2 (k_index K)) = Some ({[a_rid A]} ∖ {[a_rid A]}).
Proof.
  split; [by vm_compute|].
  apply (reserve_rollback_restores K A s0 _ s1 L0 _ _ _ HK HA HL0 (surjective_pairing _) acc1 (surjective_pairing _)).
  - by vm_compute.
  - intros k _. apply lookup_empty.
Defined.

Lemma HL1 : Linv (ledger_keys K) s1 (book_all (a_rid A) (bookings K A) L0).
Proof. by destruct (reserve_accepted_books K A HK HA s0 _ s1 L0 (surjective_pairing _) acc1 HL0). Qed.

Lemma index_meta_fresh : k_index K ∉ ledger_keys K /\ k_meta K ∉ ledger_keys K.
Proof. split; apply (bool_decide_unpack _); by vm_compute. Qed.

Lemma rollback_exact_witness :
  let r1 := rollback_script (ledger_keys K) (k_index K) (k_meta K) (a_rid A) s1 in
  let r2 := rollback_script (ledger_keys K) (k_index K) (k_meta K) (a_rid A) r1.2 in
  Linv (ledger_keys K) r1.2 (unbook (a_rid A) (book_all (a_rid A) (bookings K A) L0)) /\ r2.1 = 0 /\
  Linv (ledger_keys K) r2.2 (unbook (a_rid A) (book_all (a_rid A) (bookings K A) L0)).
Proof.
  exact (rollback_exact _ _ _ _ s1 _ _ _ _ _ rid_ok_1 (proj1 index_meta_fresh) (proj2 index_meta_fresh) HL1
           (surjective_pairing _) (surjective_pairing _)).
Defined.

Lemma HLc : Linv (c_ledgers cK) s1 (book_all (a_rid A) (bookings K A) L0).
Proof. intros k Hk. apply HL1. unfold ledger_keys. unfold cK in Hk. simpl in Hk. set_solver. Qed.
Lemma cK_disjoint k :
  k ∈ [c_account_freeze cK; c_model_freeze cK; c_index cK; c_meta cK] -> k ∉ c_ledgers cK.
Proof. revert k. apply Forall_forall, (bool_decide_unpack _). by vm_compute. Qed.

Lemma cK_NoDup : NoDup (c_ledgers cK).
Proof. apply (bool_decide_unpack _). by vm_compute. Qed.

Definition booked : books := book_all (a_rid A) (bookings K A) L0.
Definition c1 := reconcile_script cK cA s1.
Definition c2 := reconcile_script cK cA c1.2.

Lemma reconcile_settles_witness :
  let L' k := if rd_exists s1 k then <["lease:boot:1" := (55, Committed)]> (booked k) else booked k in
  Linv (c_ledgers cK) c1.2 L' /\ Linv (c_ledgers cK) c2.2 L' /\
  (forall i k, c_ledgers cK !! i = Some k -> c1.1 !! i = Some (if rd_exists s1 k then lg_total (L' k) else -1)).
Proof.
  exact (reconcile_settles cK cA s1 c1.1 c1.2 c2.1 c2.2 booked rid_ok_1 ltac:(done) eq_refl cK_NoDup
           cK_disjoint HLc (surjective_pairing c1) (surjective_pairing c2)).
Defined.

Definition U (k : string) : Prop := k ∈ ledger_keys K.

Lemma step_1 : step U s0 s1.
Proof.
  eapply (step_reserve U s0 K A); [exact HK | exact HA | | | apply surjective_pairing].
  - by apply Forall_forall.
  - apply (bool_decide_unpack _). by vm_compute.
Qed.

Lemma ledger_invariant_witness : ledgers_wf U s0 /\ ledgers_wf U s1.
Proof.
  split; [intros k _; exists ∅; apply holds_absent|].
  apply (ledger_invariant U s0 s1); [intros k _; exists ∅; apply holds_absent|].
  apply rtc_once, step_1.
Defined.

Lemma freeze_outlives_window_witness :
  (request_step A (k_rpm K) 1 60 "rpm" (FreezeAcc "" 0 0) s0).1.2 = FreezeAcc "rpm" 120 0.
Proof. apply (freeze_outlives_window A (k_rpm K) 60 "rpm" s0); [done | exact HA | done]. Defined.
End Sample.
