(* ===== verification/Recovery.v ===== *)
(** Crash recovery: the orphan reaper of limits/backend.py against the reservations of
    processes that are alive, whatever calls fail, and, on a server that answers, against
    all those of dead ones. *)
From S2P Require Import Prelude Redis MapRedis Client Ledger Windows Reservation.
From S2P Require Import ReservationFacts SettlementFacts ReservationProps.

(** ** Effects of a method whatever calls fail

    [within rel m]: the server state a method leaves is related to the one it
    found, for every list of network outcomes. *)
Definition within {R A} (rel : R -> R -> Prop) (m : M R A) : Prop :=
  forall e, rel (rv_store e) (rv_store (m e).2).

Section within.
Context {R : Type} `{Redis R} (rel : R -> R -> Prop) `{!PreOrder rel}.

Lemma within_ret {A} (a : A) : within rel (mret a).
Proof. intros e. reflexivity. Qed.

Lemma within_call {A} (f : R -> A * R) : (forall s, rel s (f s).2) -> within rel (call f).
Proof.
  intros Hf [s [|[] fs]]; unfold call; simpl.
  - specialize (Hf s). by destruct (f s).
  - specialize (Hf s). by destruct (f s).
  - reflexivity.
  - apply Hf.
Qed.

Lemma within_query {A} (f : R -> A) : within rel (query f).
Proof. apply within_call. intros s. reflexivity. Qed.

Lemma within_command f : (forall s, rel s (f s)) -> within rel (command f).
Proof. intros Hf. by apply within_call. Qed.

Lemma within_bind {A B} (m : M R A) (k : A -> M R B) :
  within rel m -> (forall a, within rel (k a)) -> within rel (m ≫= k).
Proof.
  intros Hm Hk e. unfold mbind, M_bind. specialize (Hm e).
  destruct (m e) as [[a|] e']; simpl in *; [|done]. etransitivity; [exact Hm | apply Hk].
Qed.

Lemma within_attempt {A} (d : A) (m : M R A) : within rel m -> within rel (attempt d m).
Proof. intros Hm e. unfold attempt. specialize (Hm e). by destruct (m e) as [[a|] e']. Qed.

Lemma within_of_option {A} (o : option A) : within rel (of_option o).
Proof. intros e. destruct o; reflexivity. Qed.

Lemma within_with_redis {A} conf (d : A) m : within rel m -> within rel (with_redis conf d m).
Proof. intros Hm. unfold with_redis. case_match; [done | apply within_ret]. Qed.
End within.

(** ** The keys of the reservation path *)

Section keys.
Variable conf : redis_conf.

(** Account and model ledgers. *)
Definition is_ledger (k : string) : Prop :=
  exists scope subject metric w, (scope = "account" \/ scope = "model") /\ k = _ledger_key conf scope subject metric w.

Lemma ledger_not_index k : is_ledger k -> k <> _key conf _RESERVATION_INDEX.
Proof.
  intros (scope & subject & metric & w & [-> | ->] & ->); unfold _ledger_key; intros Heq%key_inj;
    by unfold _RESERVATION_PREFIX, _RESERVATION_INDEX in Heq; simpl in Heq.
Qed.

Lemma ledger_not_meta k rid : is_ledger k -> k <> _key conf (_reservation_meta_key rid).
Proof.
  intros (scope & subject & metric & w & [-> | ->] & ->); unfold _ledger_key; intros Heq%key_inj;
    by unfold _RESERVATION_PREFIX, _reservation_meta_key in Heq; simpl in Heq.
Qed.

Lemma ledger_not_heartbeat k b : is_ledger k -> k <> _key conf (_process_heartbeat_key b).
Proof.
  intros (scope & subject & metric & w & [-> | ->] & ->); unfold _ledger_key; intros Heq%key_inj;
    by unfold _RESERVATION_PREFIX, _process_heartbeat_key in Heq; simpl in Heq.
Qed.

Lemma index_not_meta rid : _key conf _RESERVATION_INDEX <> _key conf (_reservation_meta_key rid).
Proof. by intros Heq%key_inj. Qed.

Lemma heartbeat_not_index b : _key conf (_process_heartbeat_key b) <> _key conf _RESERVATION_INDEX.
Proof. by intros Heq%key_inj. Qed.

Lemma heartbeat_not_meta b rid : _key conf (_process_heartbeat_key b) <> _key conf (_reservation_meta_key rid).
Proof. by intros Heq%key_inj. Qed.

Lemma meta_key_inj r1 r2 :
  _key conf (_reservation_meta_key r1) = _key conf (_reservation_meta_key r2) -> r1 = r2.
Proof. intros Heq%key_inj. unfold _reservation_meta_key in Heq. by rewrite !append_inj_l in Heq. Qed.

Lemma is_ledger_account acct m w : is_ledger (_ledger_key conf "account" acct m w).
Proof. exists "account", acct, m, w. auto. Qed.
Lemma is_ledger_model acct m w : is_ledger (_ledger_key conf "model" acct m w).
Proof. exists "model", acct, m, w. auto. Qed.

Lemma rollback_keys_ledgers acct model wids ks :
  rollback_keys conf acct model wids = Some ks -> Forall is_ledger ks.
Proof.
  unfold rollback_keys, _account_ledger_keys, _model_ledger_key. intros Hks.
  destruct (assoc "rpm" wids), (assoc "rph" wids), (assoc "rpd" wids), (assoc "tpm" wids),
    (assoc "tph" wids), (assoc "tpd" wids); simplify_eq/=.
  destruct (opt_truthy model), (assoc "model_tpm" wids); simplify_eq/=;
    repeat constructor; first [apply is_ledger_account | apply is_ledger_model].
Qed.
End keys.

(** Close a goal about a step that leaves the server alone. *)
Ltac within_pure := first [apply within_ret | apply within_query | apply within_of_option]; apply _.

(** ** Reservations of live processes *)

Section live.
Context {R : Type} `{RedisLaws R}.
Variables (conf : redis_conf) (utc_offset : Z -> Z).
Implicit Types (s : R).
Hypothesis Hconf : conf_ok conf = true.

Abbreviation index := (_key conf _RESERVATION_INDEX).
Abbreviation meta rid := (_key conf (_reservation_meta_key rid)).
Abbreviation heartbeat b := (_key conf (_process_heartbeat_key b)).

(** Nothing of [rid] is lost between two server states: its booking in every
    ledger, its meta record, its index entry; and no heartbeat either. *)
Record spares (rid : string) (s s' : R) : Prop := {
  sp_books : forall k m, is_ledger conf k -> holds (view s k) m ->
    exists m', holds (view s' k) m' /\ m' !! rid = m !! rid;
  sp_meta : view s' (meta rid) = view s (meta rid);
  sp_alive : forall b, view s' (heartbeat b) = view s (heartbeat b);
  sp_index : forall x, as_set (view s index) = Some x ->
    exists x', as_set (view s' index) = Some x' /\ x' ⊆ x /\ (rid ∈ x -> rid ∈ x');
}.

#[export] Instance spares_preorder rid : PreOrder (spares rid).
Proof.
  split.
  - intros s. split; eauto.
  - intros s1 s2 s3 [B1 M1 A1 I1] [B2 M2 A2 I2]. split.
    + intros k m Hk Hm. destruct (B1 k m Hk Hm) as (m1 & Hm1 & E1).
      destruct (B2 k m1 Hk Hm1) as (m2 & Hm2 & E2). exists m2. by rewrite E2.
    + by rewrite M2.
    + intros b. by rewrite A2.
    + intros x Hx. destruct (I1 x Hx) as (x1 & Hx1 & ? & ?). destruct (I2 x1 Hx1) as (x2 & Hx2 & ? & ?).
      exists x2. split_and!; [done | set_solver | auto].
Qed.

Lemma spares_rollback_one rid rid' n k s :
  rid <> rid' -> rid_ok rid' -> is_ledger conf k -> spares rid s (rollback_one rid' (n, s) k).2.
Proof.
  intros Hne Hok Hk. destruct (rollback_one rid' (n, s) k) as [n' s'] eqn:E.
  assert (forall k', k' <> k -> view s' k' = view s k') as Hf.
  { intros k' Hk'. unfold rollback_one in E.
    destruct (rd_hget s k rid'); injection E as <- <-; [by rewrite hdel_ne, hset_ne | done]. }
  split.
  - intros k' m Hk' Hm. destruct (decide (k' = k)) as [->|]; [|exists m; by rewrite Hf].
    destruct (rollback_one_spec _ _ _ _ _ _ _ E Hm Hok) as (Hd & _ & _).
    exists (delete rid' m). split; [done|]. by apply lookup_delete_ne.
  - apply Hf. intros Heq. by apply (ledger_not_meta conf k rid).
  - intros b. apply Hf. intros Heq. by apply (ledger_not_heartbeat conf k b).
  - intros x Hx. exists x. rewrite Hf; [done|]. intros Heq. by apply (ledger_not_index conf k).
Qed.

Lemma spares_srem rid rid' s : rid <> rid' -> spares rid s (rd_srem index [rid'] s).
Proof.
  intros Hne. split.
  - intros k m Hk Hm. exists m. rewrite srem_ne; [done|]. intros <-. by eapply ledger_not_index.
  - apply srem_ne, index_not_meta.
  - intros b. apply srem_ne. apply not_eq_sym, heartbeat_not_index.
  - intros x Hx. exists (x ∖ list_to_set [rid']). rewrite (srem_law _ _ _ _ Hx), as_set_put.
    split_and!; [done | set_solver..].
Qed.

Lemma spares_del_meta rid rid' s : rid <> rid' -> spares rid s (rd_del (meta rid') s).
Proof.
  intros Hne. split.
  - intros k m Hk Hm. exists m. rewrite del_ne; [done|]. intros <-. by eapply ledger_not_meta.
  - apply del_ne. by intros ->%meta_key_inj.
  - intros b. apply del_ne. apply not_eq_sym, heartbeat_not_meta.
  - intros x Hx. exists x. by rewrite del_ne by apply not_eq_sym, index_not_meta.
Qed.

Lemma spares_rollback_script rid rid' ks s :
  rid <> rid' -> rid_ok rid' -> (forall k, k ∈ ks -> is_ledger conf k) ->
  spares rid s (rollback_script ks index (meta rid') rid' s).2.
Proof.
  intros Hne Hok Hks. unfold rollback_script.
  assert (forall n s, spares rid s (foldl (rollback_one rid') (n, s) ks).2) as Hl.
  { induction ks as [|k ks IH]; intros n s0; [reflexivity|]. cbn [foldl].
    pose proof (spares_rollback_one rid rid' n k s0 Hne Hok ltac:(set_solver)) as H1.
    destruct (rollback_one rid' (n, s0) k) as [n1 s1]. etransitivity; [exact H1|]. apply IH. set_solver. }
  specialize (Hl 0 s). destruct (foldl _ _ _) as [n1 s1]. simpl in *.
  etransitivity; [exact Hl|]. etransitivity; [by apply (spares_srem rid rid')|]. by apply spares_del_meta.
Qed.

Lemma within_rollback rid rid' acct model wids now :
  rid <> rid' -> rid_ok rid' ->
  within (spares rid) (rollback_account_reservation conf utc_offset acct model rid' wids now).
Proof.
  intros Hne Hok. apply within_with_redis; [apply _|]. case_match; [within_pure|].
  intros e. destruct (rollback_keys conf acct model (window_ids_or utc_offset wids now)) as [ks|] eqn:Hks; [|reflexivity].
  apply (within_attempt _ None). apply within_bind; [apply _| |within_pure].
  apply within_call; [apply _|]. intros s. apply spares_rollback_script; [done..|].
  apply Forall_forall. by eapply rollback_keys_ledgers.
Qed.

Lemma within_finalize rid rid' : rid <> rid' -> within (spares rid) (finalize_reservation conf rid').
Proof.
  intros Hne. apply within_with_redis; [apply _|]. case_match; [within_pure|].
  apply within_attempt, within_bind; [apply _| |intros _].
  - apply within_command; [apply _|]. intros s. by apply spares_srem.
  - unfold jdbc_delete. apply within_command; [apply _|]. intros s. simpl.
    rewrite _bare_key_key, <- _key_get_key by done. by apply spares_del_meta.
Qed.

Lemma within_reap_other cur now rid rid' mt :
  rid <> rid' -> rid_ok rid' -> within (spares rid) (reap_one conf utc_offset cur now rid' mt).
Proof.
  intros Hne Hok. unfold reap_one. case_decide; [within_pure|]. case_match; [within_pure|].
  apply within_bind; [apply _| |intros alive].
  { apply within_with_redis; [apply _|]. case_match; [|apply within_attempt]; within_pure. }
  destruct alive; [within_pure|]. apply within_bind; [apply _|by apply within_rollback|].
  intros [n|]; [|within_pure]. apply within_bind; [apply _ | by apply within_finalize | within_pure].
Qed.

(** Owner of [rid] by its meta record: this process, or one with a heartbeat. *)
Definition owner_alive (cur rid : string) (s : R) : Prop :=
  exists h b, as_hash (view s (meta rid)) = Some h /\ h !! "boot_id" = Some b /\ str_truthy b = true /\
    (b = cur \/ is_Some (view s (heartbeat b))).

Lemma owner_alive_spares cur rid s s' : spares rid s s' -> owner_alive cur rid s -> owner_alive cur rid s'.
Proof. intros [_ Hm Ha _] (h & b & Hh & Hb). exists h, b. by rewrite Hm, Ha. Qed.

Lemma alive_or_unknown b (e : renv R) :
  str_truthy b = true -> is_Some (view (rv_store e) (heartbeat b)) ->
  (process_alive conf b e).1 = Ret true /\ rv_store (process_alive conf b e).2 = rv_store e.
Proof.
  intros Hb Ha. unfold process_alive, with_redis. destruct (connected conf); [|done]. rewrite Hb. simpl.
  destruct e as [s [|[] fs]]; unfold attempt, native_exists, query, call; simpl; try done;
    rewrite exists_law, bool_decide_eq_true_2 by done; done.
Qed.

(** The reaper leaves an entry of a live owner alone. *)
Lemma reap_own cur now rid mt (e : renv R) :
  owner_alive cur rid (rv_store e) ->
  mt = ∅ \/ as_hash (view (rv_store e) (meta rid)) = Some mt ->
  rv_store (reap_one conf utc_offset cur now rid mt e).2 = rv_store e.
Proof.
  intros (h & b & Hh & Hb & Ht & Hcur) Hmt. unfold reap_one. case_decide as Hd; [done|].
  destruct Hmt as [?|Hmt]; [done|]. rewrite Hh in Hmt. injection Hmt as <-.
  assert (_decode_meta_field h "boot_id" "" = b) as -> by (unfold _decode_meta_field; by rewrite Hb).
  rewrite Ht. simpl. case_bool_decide as Hc; [done|]. destruct Hcur as [?|Ha]; [done|].
  unfold mbind, M_bind. destruct (alive_or_unknown b e Ht Ha) as [H1 H2].
  destruct (process_alive conf b e) as [r e']. simpl in *. by subst r.
Qed.

Lemma fetch_metas_query rids : within eq (fetch_metas conf rids).
Proof.
  induction rids as [|r rids IH]; [apply within_ret; apply _|]. cbn [fetch_metas].
  apply within_bind; [apply _ | apply within_query; apply _|]. intros m.
  apply within_bind; [apply _ | done | intros; apply within_ret; apply _].
Qed.

(** Each meta of a batch is what the server holds, or empty. *)
Lemma fetch_metas_at rids (e : renv R) rid h ms e' :
  as_hash (view (rv_store e) (meta rid)) = Some h -> fetch_metas conf rids e = (Ret ms, e') ->
  forall i mt, rids !! i = Some rid -> ms !! i = Some mt -> mt = h.
Proof.
  revert e ms. induction rids as [|r rids IH]; intros e ms Hh Hf i mt Hi Hm; [done|].
  cbn [fetch_metas] in Hf. unfold mbind at 1, M_bind at 1 in Hf.
  destruct (jdbc_hgetall _ _ e) as [[m0|] e1] eqn:E1; [|done].
  unfold mbind, M_bind in Hf. destruct (fetch_metas conf rids e1) as [[ms1|] e2] eqn:E2; [|done].
  injection Hf as <- <-.
  assert (rv_store e1 = rv_store e /\ m0 = rd_hgetall (rv_store e) (meta r)) as [Hs Hm0].
  { unfold jdbc_hgetall in E1. rewrite _bare_key_key, <- _key_get_key in E1 by done.
    unfold query, call in E1.
    destruct e as [s [|[] fs]]; simpl in E1; by simplify_eq. }
  destruct i as [|i]; simpl in Hi, Hm.
  - injection Hi as ->. injection Hm as <-. rewrite Hm0. by apply hgetall_law.
  - eapply (IH e1); [by rewrite Hs | exact E2 | exact Hi | exact Hm].
Qed.

Lemma within_reap_batch cur now rid batch (e : renv R) h :
  owner_alive cur rid (rv_store e) -> as_hash (view (rv_store e) (meta rid)) = Some h ->
  (forall r mt, (r, mt) ∈ batch -> rid_ok r /\ (r = rid -> mt = ∅ \/ mt = h)) ->
  spares rid (rv_store e) (rv_store (reap_batch conf utc_offset cur now batch e).2).
Proof.
  revert e. induction batch as [|[r mt] batch IH]; intros e Ha Hh Hb; [reflexivity|].
  destruct (Hb r mt ltac:(set_solver)) as [Hok Hmt]. cbn [reap_batch].
  assert (spares rid (rv_store e) (rv_store (reap_one conf utc_offset cur now r mt e).2)) as H1.
  { destruct (decide (r = rid)) as [->|Hne]; [|by apply within_reap_other].
    rewrite reap_own; [reflexivity | done |]. destruct (Hmt eq_refl) as [->| ->]; auto. }
  unfold mbind at 1, M_bind at 1. destruct (reap_one _ _ _ _ _ _ e) as [[n|] e1]; simpl in *; [|done].
  assert (spares rid (rv_store e1) (rv_store (reap_batch conf utc_offset cur now batch e1).2)) as H2.
  { apply IH; [by eapply owner_alive_spares | by rewrite (sp_meta _ _ _ H1) |]. intros r' mt' Hin.
    apply Hb. set_solver. }
  unfold mbind, M_bind. destruct (reap_batch _ _ _ _ batch e1) as [[n'|] e2]; by etransitivity.
Qed.

Lemma within_reap_batches fuel cur now size rid decoded (e : renv R) :
  owner_alive cur rid (rv_store e) -> (forall r, r ∈ decoded -> rid_ok r) ->
  spares rid (rv_store e) (rv_store (reap_batches conf utc_offset fuel cur now size decoded e).2).
Proof.
  revert decoded e. induction fuel as [|fuel IH]; intros decoded e Ha Hok; [by destruct decoded|].
  destruct decoded as [|d ds]; [reflexivity|]. cbn [reap_batches]. set (dec := d :: ds) in *.
  pose proof Ha as (h & b & Hh & _).
  unfold mbind at 1, M_bind at 1. unfold attempt at 1.
  pose proof (fetch_metas_query (take size dec) e) as He.
  destruct (fetch_metas conf (take size dec) e) as [o e1] eqn:Ef. simpl in He.
  set (metas := match o with Ret ms => ms | Exc => replicate (length (take size dec)) ∅ end).
  assert (forall r mt, (r, mt) ∈ zip (take size dec) metas -> rid_ok r /\ (r = rid -> mt = ∅ \/ mt = h)) as Hb.
  { intros r mt Hin. apply list_elem_of_lookup in Hin as [i Hi].
    apply lookup_zip_with_Some in Hi as (r' & mt' & [= -> ->] & Hr & Hm). split.
    - apply Hok. apply list_elem_of_lookup_2 in Hr. eapply elem_of_sublist; [exact Hr | apply sublist_take].
    - intros ->. unfold metas in Hm. destruct o as [ms|].
      + right. by eapply fetch_metas_at.
      + left. by apply lookup_replicate in Hm as [? _]. }
  rewrite He in *.
  pose proof (within_reap_batch cur now rid (zip (take size dec) metas) e1 h Ha Hh Hb) as H1.
  replace (match o with Ret a => (Ret a, e1) | Exc => (Ret (replicate (length (take size dec)) ∅), e1) end)
    with (Ret metas, e1) by (unfold metas; by destruct o).
  unfold mbind at 1, M_bind at 1. destruct (reap_batch _ _ _ _ _ e1) as [[n|] e2]; simpl in *; [|done].
  assert (spares rid (rv_store e2) (rv_store (reap_batches conf utc_offset fuel cur now size (drop size dec) e2).2)) as H2.
  { apply IH; [by eapply owner_alive_spares|]. intros r Hr. apply Hok.
    apply list_elem_of_lookup in Hr as [i Hi]. rewrite lookup_drop in Hi. by eapply list_elem_of_lookup_2. }
  unfold mbind, M_bind. destruct (reap_batches _ _ _ _ _ _ _ e2) as [[n'|] e3]; by etransitivity.
Qed.

(** C7: A reaper run, whatever calls fail or time out in it, loses nothing of a
    reservation whose owner is this process or has a heartbeat: every
    booking, the meta record and the index entry are kept, and it touches
    no heartbeat. *)
Theorem reap_spares_live cur size now rid (e : renv R) x :
  owner_alive cur rid (rv_store e) ->
  as_set (view (rv_store e) index) = Some x -> (forall r, r ∈ x -> rid_ok r) ->
  spares rid (rv_store e) (rv_store (reap_orphan_reservations conf utc_offset cur size now e).2).
Proof.
  intros Ha Hx Hok. unfold reap_orphan_reservations, with_redis. destruct (connected conf); [|reflexivity].
  unfold mbind, M_bind, attempt.
  destruct (native_smembers index e) as [o e1] eqn:Es.
  assert (rv_store e1 = rv_store e /\ (forall l, o = Ret l -> l = rd_smembers (rv_store e) index)) as [He Hl].
  { destruct e as [s [|[] fs]]; unfold native_smembers, query, call in Es; simplify_eq/=; naive_solver. }
  destruct o as [l|]; [|simpl; by rewrite He].
  rewrite <- He. apply within_reap_batches; [by rewrite He|].
  intros r [_ Hr]%list_elem_of_filter. apply Hok. rewrite (Hl l eq_refl) in Hr.
  by apply (proj2 (smembers_law _ _ _ Hx)).
Qed.
End live.

(** ** Reservations of a dead process *)

Section dead.
Context {R : Type} `{RedisLaws R}.
Variables (conf : redis_conf) (utc_offset : Z -> Z).
Implicit Types (s : R) (L : books).

(** An accepted call registers its id for recovery. *)
Lemma reserve_accepted_registered K A s r s' L x h :
  keys_wf K -> argv_wf A -> reserve_script K A s = (r, s') -> accepted r -> Linv (ledger_keys K) s L ->
  a_skip_freeze A = false ->
  as_set (view s (k_index K)) = Some x -> as_hash (view s (k_meta K)) = Some h ->
  as_set (view s' (k_index K)) = Some (list_to_set [a_rid A] ∪ x) /\
  as_hash (view s' (k_meta K)) = Some (hset_fields (meta_fields A) h).
Proof.
  intros HK HA Hs Hr HL Hskip Hx Hh.
  destruct (reserve_phases K A HK HA _ _ _ _ Hs Hr HL) as (sc & s1 & acc & _ & Hc & _ & [_ F] & ->).
  pose proof HK as (_ & Hd & Hn)%NoDup_app. unfold other_keys in Hn. rewrite !NoDup_cons, !not_elem_of_cons in Hn.
  destruct Hn as ((?&?&?&?&?&_) & (?&?&?&?&_) & (?&?&?&_) & (?&?&_) & (?&_) & _).
  assert (forall k, k ∈ [k_index K; k_meta K] -> view s1 k = view s k) as Hf.
  { intros k Hk. rewrite F.
    - eapply check_concurrency_frame; [exact Hc|].
      rewrite !elem_of_cons in Hk. destruct Hk as [->|[->|[]%not_elem_of_nil]]; congruence.
    - rewrite !elem_of_cons in Hk. rewrite not_elem_of_app, not_elem_of_cons. split_and!; [| |apply not_elem_of_nil].
      + intros Hin. apply (Hd k Hin). unfold other_keys. rewrite !elem_of_cons.
        destruct Hk as [->|[->|[]%not_elem_of_nil]]; tauto.
      + destruct Hk as [->|[->|[]%not_elem_of_nil]]; congruence. }
  unfold finish. rewrite !take_lease_ne by congruence. unfold register. rewrite Hskip. split.
  - rewrite expire_ne, hset_ne by congruence.
    rewrite (sadd_law _ _ _ x), as_set_put; [done|]. by rewrite set_freeze_ne, Hf by (congruence || set_solver).
  - rewrite as_hash_expire by apply HA. apply as_hash_hset.
    by rewrite sadd_ne, set_freeze_ne, Hf by (congruence || set_solver).
Qed.

Lemma recovery_keys_not_ledgers K : keys_wf K -> k_index K ∉ ledger_keys K /\ k_meta K ∉ ledger_keys K.
Proof. intros Hwf. split; intros Hin%(ledger_not_other K Hwf); apply Hin; unfold other_keys; set_solver. Qed.

(** What the reaper reads back of the meta record. *)
Lemma meta_fields_read (A : reserve_argv) f v d :
  (f, v) ∈ meta_fields A -> _decode_meta_field (hset_fields (meta_fields A) ∅) f d = v.
Proof.
  unfold meta_fields, _decode_meta_field, hset_fields. rewrite !elem_of_cons, elem_of_nil.
  intros [[= -> ->]|[[= -> ->]|[[= -> ->]|[[= -> ->]|[]]]]]; simpl;
    repeat (rewrite lookup_insert_ne by done); by rewrite lookup_insert_eq.
Qed.

(** Rollback of a reservation made with the same ids reaches all its bookings. *)
Lemma rollback_keys_cover a wids K :
  make_keys conf a wids = Some K ->
  exists ks, rollback_keys conf (r_account_key a)
      (if str_truthy (opt_or_empty (r_model_id a)) then Some (opt_or_empty (r_model_id a)) else None) wids = Some ks /\
    (forall k, k ∈ ks -> k ∈ ledger_keys K) /\
    (forall k now, k ∈ (bookings K (make_argv a wids now)).*1 -> k ∈ ks).
Proof.
  unfold make_keys, rollback_keys, _account_ledger_keys. intros HK.
  destruct (assoc "rpm" wids) as [rpm|], (assoc "rph" wids) as [rph|], (assoc "rpd" wids) as [rpd|],
    (assoc "tpm" wids) as [tpm|], (assoc "tph" wids) as [tph|], (assoc "tpd" wids) as [tpd|]; simplify_eq/=.
  destruct (assoc "model_tpm" wids) as [mw|]; simplify_eq/=.
  destruct (opt_truthy (r_model_id a)) eqn:Hm.
  - assert (str_truthy (opt_or_empty (r_model_id a)) = true) as Ht by (by destruct (r_model_id a)).
    rewrite Ht. simpl. rewrite Ht. eexists. split; [reflexivity|]. split.
    + intros k. unfold ledger_keys. simpl. rewrite !elem_of_cons. tauto.
    + intros k now Hk%bookings_sub_ledgers. unfold ledger_keys in Hk. simpl in Hk.
      rewrite !elem_of_cons in Hk |- *. tauto.
  - assert (str_truthy (opt_or_empty (r_model_id a)) = false) as Ht by (by destruct (r_model_id a)).
    rewrite Ht. simpl. eexists. split; [reflexivity|]. split.
    + intros k. unfold ledger_keys. simpl. rewrite !elem_of_cons. tauto.
    + intros k now Hk. unfold bookings, make_argv in Hk. simpl in Hk. rewrite Hm in Hk. unfold on in Hk. simpl in Hk.
      rewrite !elem_of_cons. repeat case_match; simpl in Hk; rewrite ?elem_of_cons, ?elem_of_nil in Hk; tauto.
Qed.

Lemma make_keys_recovery a wids K :
  make_keys conf a wids = Some K ->
  k_index K = _key conf _RESERVATION_INDEX /\ k_meta K = _key conf (_reservation_meta_key (r_lease_id a)).
Proof.
  unfold make_keys, _account_ledger_keys.
  destruct (assoc "rpm" wids), (assoc "rph" wids), (assoc "rpd" wids), (assoc "tpm" wids),
    (assoc "tph" wids), (assoc "tpd" wids), (assoc "model_tpm" wids); intros; simplify_eq/=. done.
Qed.

Abbreviation index := (_key conf _RESERVATION_INDEX).
Abbreviation meta rid := (_key conf (_reservation_meta_key rid)).

Lemma rollback_healthy acct model rid wids ks now s :
  connected conf = true -> str_truthy acct = true -> str_truthy rid = true -> wids <> [] ->
  rollback_keys conf acct model wids = Some ks ->
  rollback_account_reservation conf utc_offset acct model rid (Some wids) now (REnv s []) =
    (Ret (Some (rollback_script ks index (meta rid) rid s).1),
     REnv (rollback_script ks index (meta rid) rid s).2 []).
Proof.
  intros Hcon Ha Hr Hw Hks. unfold rollback_account_reservation. rewrite with_redis_on, Ha, Hr by done.
  cbn [negb orb]. destruct wids as [|w wids]; [done|].
  change (window_ids_or utc_offset (Some (w :: wids)) now) with (w :: wids).
  rewrite Hks. erewrite bind_ret by done. apply attempt_ret.
  erewrite bind_ret by apply healthy_call. done.
Qed.

Lemma finalize_healthy rid s :
  conf_ok conf = true -> connected conf = true -> str_truthy rid = true ->
  finalize_reservation conf rid (REnv s []) =
    (Ret tt, REnv (rd_del (meta rid) (rd_srem index [rid] s)) []).
Proof.
  intros Hconf Hcon Hr. unfold finalize_reservation. rewrite with_redis_on, Hr by done. simpl negb. cbv iota.
  apply attempt_ret. erewrite bind_ret by apply healthy_command.
  unfold jdbc_delete. rewrite healthy_command. simpl. by rewrite _bare_key_key, <- _key_get_key.
Qed.

Lemma has_owner_lease boot hex :
  str_mem ":" boot = false -> has_owner ("lease:" +++ boot +++ ":" +++ hex) = true.
Proof.
  intros Hb. unfold has_owner.
  change (str_drop 6 ("lease:" +++ boot +++ ":" +++ hex)) with (boot +++ String ":" hex).
  by rewrite cut_at_append by done.
Qed.

Lemma lease_boot_id_lease boot hex :
  str_mem ":" boot = false -> lease_boot_id ("lease:" +++ boot +++ ":" +++ hex) = boot.
Proof.
  intros Hb. unfold lease_boot_id.
  change (str_drop 6 ("lease:" +++ boot +++ ":" +++ hex)) with (boot +++ String ":" hex).
  by rewrite cut_at_append by done.
Qed.

(** ** One pass on a server that answers *)

Section pass.
Hypotheses (Hconf : conf_ok conf = true) (Hcon : connected conf = true).
#[local] Instance spares_trans rid : PreOrder (spares conf rid) := spares_preorder conf Hconf rid.
(** The reaping process and its clock. *)
Variables (cur : string) (now : Z).

Definition meta_of s (rid : string) : gmap string string := default ∅ (as_hash (view s (meta rid))).
Definition field (mt : gmap string string) (name : string) : string := _decode_meta_field mt name "".
(** The window ids of a record, and the ledgers they lead to. *)
Definition windows_of (mt : gmap string string) : list (string * string) :=
  let raw := _decode_meta_field mt "window_ids" "{}" in if str_truthy raw then default [] (json_loads raw) else [].
Definition ledgers_of (mt : gmap string string) : option (list string) :=
  rollback_keys conf (field mt "account_key") (if str_truthy (field mt "model_id") then Some (field mt "model_id") else None)
    (window_ids_or utc_offset (Some (windows_of mt)) now).

(** A registered id is orphaned when it names an owner and its record an account and
    another process that has no heartbeat. *)
Definition orphaned s (rid : string) : Prop :=
  has_owner rid = true /\ str_truthy (field (meta_of s rid) "account_key") = true /\
  str_truthy (field (meta_of s rid) "boot_id") = true /\ field (meta_of s rid) "boot_id" <> cur /\
  view s (_key conf (_process_heartbeat_key (field (meta_of s rid) "boot_id"))) = None.
#[export] Instance orphaned_dec s rid : Decision (orphaned s rid).
Proof. unfold orphaned. apply _. Defined.
(** What the index may hold: ids with a record that is gone or whose windows are complete. *)
Definition entry_ok s (rid : string) : Prop :=
  rid_ok rid /\ is_Some (as_hash (view s (meta rid))) /\ is_Some (ledgers_of (meta_of s rid)).

(** The server after the entry of an orphaned id. *)
Definition reaped s (rid : string) : R :=
  rd_del (meta rid) (rd_srem index [rid]
    (rollback_script (default [] (ledgers_of (meta_of s rid))) index (meta rid) rid s).2).

Lemma process_answers boot s : str_truthy boot = true ->
  process_alive conf boot (REnv s []) = (Ret (bool_decide (is_Some (view s (_key conf (_process_heartbeat_key boot))))), REnv s []).
Proof.
  intros Hb. unfold process_alive. rewrite with_redis_on, Hb by done. apply attempt_ret.
  unfold native_exists. by rewrite healthy_query, exists_law.
Qed.

Lemma reap_one_healthy rid s : has_owner rid = true -> entry_ok s rid ->
  reap_one conf utc_offset cur now rid (meta_of s rid) (REnv s []) =
    if decide (orphaned s rid) then (Ret 1, REnv (reaped s rid) []) else (Ret 0, REnv s []).
Proof.
  intros Ho (Hok & _ & [ks Hks]). assert (str_truthy rid = true) as Hr by (destruct rid; done). unfold reaped. rewrite Hks. simpl default.
  assert (forall b : bool, b = false \/ b = true) as Hdec by (intros []; auto).
  unfold reap_one. destruct (decide (orphaned s rid)) as [(_ & Hk & Hb & Hc & Ha)|Hor]; unfold field in *; set (mt := meta_of s rid) in *.
  - rewrite decide_False by (intros E; by rewrite E in Hb). cbv zeta. rewrite Hb, bool_decide_eq_false_2 by done. cbn [negb orb].
    erewrite bind_ret by by apply process_answers. rewrite Ha, bool_decide_eq_false_2 by by intros [? ?].
    unfold rollback_account_reservation. rewrite with_redis_on, Hr, Hk by done. cbn [negb orb].
    unfold ledgers_of, field, windows_of in Hks. fold mt in Hks. rewrite Hks.
    erewrite bind_ret. 2:{ erewrite bind_ret by reflexivity. apply attempt_ret. erewrite bind_ret by apply healthy_call. reflexivity. }
    cbv iota. erewrite bind_ret by by apply finalize_healthy. done.
  - case_decide as He; [done|]. cbv zeta.
    destruct (Hdec (str_truthy (_decode_meta_field mt "boot_id" ""))) as [Hb|Hb]; rewrite Hb; cbn [negb orb]; [done|].
    case_bool_decide as Hc; [done|]. erewrite bind_ret by by apply process_answers. case_bool_decide as Ha; [done|].
    unfold rollback_account_reservation. rewrite with_redis_on, Hr by done.
    destruct (Hdec (str_truthy (_decode_meta_field mt "account_key" ""))) as [Hk|Hk]; rewrite Hk; cbn [negb orb]; [done|].
    destruct Hor. unfold orphaned, field. fold mt. split_and!; [done..|by apply eq_None_not_Some].
Qed.

(** The bookings of the id are gone after the loop of the script. *)
Lemma rollback_loop_gone rid ks n s k m : rid_ok rid -> holds (view s k) m -> k ∈ ks \/ m !! rid = None ->
  exists m', holds (view (foldl (rollback_one rid) (n, s) ks).2 k) m' /\ m' !! rid = None.
Proof.
  intros Hok. revert n s m. induction ks as [|k0 ks IH]; intros n s m Hm Hd; cbn [foldl].
  - exists m. split; [done|]. destruct Hd as [[]%not_elem_of_nil|?]; done.
  - destruct (rollback_one rid (n, s) k0) as [n1 s1] eqn:E. destruct (decide (k0 = k)) as [->|Hne].
    + destruct (rollback_one_spec _ _ _ _ _ _ _ E Hm Hok) as (Hm1 & _ & _). apply (IH _ _ _ Hm1). right. by rewrite lookup_delete_eq.
    + assert (view s1 k = view s k) as Hf.
      { unfold rollback_one in E. destruct (rd_hget s k0 rid); injection E as <- <-; [by rewrite hdel_ne, hset_ne|done]. }
      apply (IH _ _ m); [by rewrite Hf|]. destruct Hd as [[->|Hd]%elem_of_cons|?]; [done|by left|by right].
Qed.
Lemma rollback_loop_frame rid ks n s k : k ∉ ks -> view (foldl (rollback_one rid) (n, s) ks).2 k = view s k.
Proof.
  revert n s. induction ks as [|k0 ks IH]; intros n s; cbn [foldl]; [done|]. intros [Hne Hk]%not_elem_of_cons.
  destruct (rollback_one rid (n, s) k0) as [n1 s1] eqn:E. rewrite IH by done.
  unfold rollback_one in E. destruct (rd_hget s k0 rid); injection E as <- <-; [by rewrite hdel_ne, hset_ne|done].
Qed.

(** From [s] to [s'] the ids of [D], and they alone, were cleared. *)
Record swept (D : list string) s s' : Prop := {
  sw_index : forall x, as_set (view s index) = Some x -> as_set (view s' index) = Some (x ∖ list_to_set D);
  sw_others : forall r, r ∉ D -> spares conf r s s';
  sw_meta : forall r, r ∈ D -> view s' (meta r) = None;
  sw_books : forall r ks k m, r ∈ D -> ledgers_of (meta_of s r) = Some ks -> k ∈ ks -> holds (view s k) m ->
    exists m', holds (view s' k) m' /\ m' !! r = None;
}.
Lemma swept_nil s : swept [] s s.
Proof. split; [intros x ->; f_equal; set_solver|reflexivity|set_solver|set_solver]. Qed.
Lemma ledgers_are mt ks k : ledgers_of mt = Some ks -> k ∈ ks -> is_ledger conf k.
Proof. intros Hk%rollback_keys_ledgers. rewrite Forall_forall in Hk. apply Hk. Qed.
Lemma spares_meta r s s' : spares conf r s s' -> meta_of s' r = meta_of s r.
Proof. intros Hs. unfold meta_of. by rewrite (sp_meta _ _ _ _ Hs). Qed.
Lemma swept_app D1 D2 s s1 s2 : swept D1 s s1 -> swept D2 s1 s2 -> D1 ## D2 -> swept (D1 ++ D2) s s2.
Proof.
  intros [I1 O1 M1 B1] [I2 O2 M2 B2] HD. split.
  - intros x Hx. rewrite (I2 _ (I1 _ Hx)). f_equal. set_solver.
  - intros r [H1 H2]%not_elem_of_app. etransitivity; eauto.
  - intros r [Hr|Hr]%elem_of_app; [|by apply M2]. assert (r ∉ D2) as Hn by set_solver.
    by rewrite (sp_meta _ _ _ _ (O2 r Hn)), M1.
  - intros r ks k m [Hr|Hr]%elem_of_app Hks Hk Hm.
    + destruct (B1 r ks k m Hr Hks Hk Hm) as (m1 & Hm1 & E1). assert (r ∉ D2) as Hn by set_solver.
      destruct (sp_books _ _ _ _ (O2 r Hn) k m1) as (m2 & Hm2 & E2); [by eapply ledgers_are|done|].
      exists m2. by rewrite E2.
    + assert (r ∉ D1) as Hn by set_solver. destruct (sp_books _ _ _ _ (O1 r Hn) k m) as (m1 & Hm1 & E1); [by eapply ledgers_are|done|].
      apply (B2 r ks k m1); [done| |done|done]. by rewrite (spares_meta r s s1) by by apply O1.
Qed.
Lemma swept_reaped s rid : has_owner rid = true -> entry_ok s rid -> orphaned s rid -> swept [rid] s (reaped s rid).
Proof.
  intros Ho He Hor. pose proof (reap_one_healthy rid s Ho He) as Hrun. rewrite decide_True in Hrun by done.
  destruct He as (Hok & _ & [ks Hks]). pose proof (index_not_meta conf rid) as Hne.
  unfold reaped in *. rewrite Hks in *. simpl default in *. unfold rollback_script in *.
  assert (index ∉ ks) as Hi by (intros Hin; by eapply (ledger_not_index conf index); [eapply ledgers_are|]).
  assert (forall k, k ∈ ks -> k <> meta rid) as Hkm by (intros k Hk; eapply ledger_not_meta; by eapply ledgers_are).
  destruct (foldl (rollback_one rid) (0, s) ks) as [n s1] eqn:E. simpl in *.
  pose proof (rollback_loop_frame rid ks 0 s index Hi) as Hf. rewrite E in Hf. simpl in Hf. split.
  - intros x Hx. rewrite del_ne by done. rewrite <- Hf in Hx.
    erewrite srem_law; [|rewrite del_ne by done; erewrite srem_law by exact Hx; apply as_set_put].
    rewrite as_set_put. f_equal. set_solver.
  - intros r Hr. assert (r <> rid) as Hrr by set_solver.
    pose proof (within_reap_other conf utc_offset Hconf cur now r rid (meta_of s rid) Hrr Hok (REnv s [])) as Hw. by rewrite Hrun in Hw.
  - intros r ->%list_elem_of_singleton. apply del_law.
  - intros r ks' k m ->%list_elem_of_singleton Hks' Hk Hm. rewrite Hks in Hks'. injection Hks' as <-.
    destruct (rollback_loop_gone rid ks 0 s k m Hok Hm (or_introl Hk)) as (m' & Hm' & Hg). rewrite E in Hm'. exists m'.
    assert (k <> index) by by intros ->. specialize (Hkm k Hk). by rewrite !del_ne, !srem_ne, !del_ne, !srem_ne by done.
Qed.

(** Entries that are spared are read, and judged, as before. *)
Lemma spares_orphaned r s s' : spares conf r s s' -> orphaned s' r <-> orphaned s r.
Proof. intros Hs. unfold orphaned. by rewrite (spares_meta r s s' Hs), (sp_alive _ _ _ _ Hs). Qed.
Lemma spares_entry r s s' : spares conf r s s' -> entry_ok s r -> entry_ok s' r.
Proof. intros Hs (Hok & Hm & Hl). unfold entry_ok. by rewrite (spares_meta r s s' Hs), (sp_meta _ _ _ _ Hs). Qed.

Definition orphans s (rids : list string) : list string := filter (orphaned s) rids.
Lemma orphans_after D s s' rids : swept D s s' -> rids ## D -> orphans s' rids = orphans s rids.
Proof.
  intros [_ O _ _]. unfold orphans. induction rids as [|r rids IH]; intros Hd; [done|]. rewrite !filter_cons.
  rewrite IH by set_solver. assert (spares conf r s s') as Hs by (apply O; set_solver).
  do 2 case_decide; try done; by rewrite (spares_orphaned r s s' Hs) in *.
Qed.

Lemma reap_batch_healthy rids s : NoDup rids -> (forall r, r ∈ rids -> has_owner r = true /\ entry_ok s r) ->
  forall s0, (forall r, r ∈ rids -> spares conf r s0 s) -> exists s',
    reap_batch conf utc_offset cur now (zip rids (meta_of s0 <$> rids)) (REnv s []) = (Ret (Z.of_nat (length (orphans s rids))), REnv s' []) /\
    swept (orphans s rids) s s'.
Proof.
  intros Hnd. revert s. induction Hnd as [|r rids Hr Hnd IH]; intros s Hall s0 Hs0.
  { exists s. split; [done|apply swept_nil]. }
  destruct (Hall r ltac:(by left)) as [Ho He]. cbn [fmap list_fmap zip zip_with reap_batch].
  rewrite <- (spares_meta r s0 s) by (apply Hs0; by left).
  pose proof (reap_one_healthy r s Ho He) as H1. unfold orphans. rewrite filter_cons. fold (orphans s rids). case_decide as Hd.
  - pose proof (swept_reaped s r Ho He Hd) as Hw.
    destruct (IH (reaped s r)) with (s0 := s0) as (s' & Hb & Hs').
    { intros r' Hr'. destruct (Hall r' ltac:(by right)) as [? ?]. split; [done|]. apply (spares_entry r' s); [|done].
      apply (sw_others _ _ _ Hw). set_solver. }
    { intros r' Hr'. etransitivity; [apply Hs0; by right|]. apply (sw_others _ _ _ Hw). set_solver. }
    rewrite (orphans_after _ _ _ _ Hw) in Hb, Hs' by set_solver. exists s'. split.
    + erewrite bind_ret by exact H1. erewrite bind_ret by exact Hb. unfold mret, M_ret. do 2 f_equal. simpl length. lia.
    + apply (swept_app [r] (orphans s rids) s _ _ Hw Hs'). intros y. unfold orphans. rewrite list_elem_of_filter. set_solver.
  - destruct (IH s) with (s0 := s0) as (s' & Hb & Hs'); [intros r' Hr'; apply Hall; by right|intros r' Hr'; apply Hs0; by right|].
    exists s'. split; [|done]. erewrite bind_ret by exact H1. erewrite bind_ret by exact Hb. done.
Qed.
Lemma fetch_metas_healthy rids s : (forall r, r ∈ rids -> is_Some (as_hash (view s (meta r)))) ->
  fetch_metas conf rids (REnv s []) = (Ret (meta_of s <$> rids), REnv s []).
Proof.
  induction rids as [|r rids IH]; intros Hall; [done|]. cbn [fetch_metas]. unfold jdbc_hgetall.
  erewrite bind_ret by apply healthy_query. erewrite bind_ret by (apply IH; intros r' Hr'; apply Hall; by right).
  destruct (Hall r ltac:(by left)) as [h Hh]. rewrite _bare_key_key, <- _key_get_key, (hgetall_law _ _ _ Hh) by done.
  unfold meta_of at 2. simpl. by rewrite Hh.
Qed.
Lemma reap_batches_healthy size : (0 < size)%nat -> forall fuel rids s, (length rids <= fuel)%nat ->
  NoDup rids -> (forall r, r ∈ rids -> has_owner r = true /\ entry_ok s r) -> exists s',
    reap_batches conf utc_offset fuel cur now size rids (REnv s []) = (Ret (Z.of_nat (length (orphans s rids))), REnv s' []) /\
    swept (orphans s rids) s s'.
Proof.
  intros Hsize. induction fuel as [|fuel IH]; intros rids s Hl Hnd Hall.
  { destruct rids; simpl in Hl; [|lia]. exists s. split; [done|apply swept_nil]. }
  destruct rids as [|r0 rids0]; [exists s; split; [done|apply swept_nil]|]. cbn [reap_batches]. set (rids := r0 :: rids0) in *.
  assert (rids = take size rids ++ drop size rids) as Hsplit by by rewrite take_drop.
  assert (forall r, r ∈ take size rids -> r ∈ rids) as Ht by (intros r Hr; rewrite Hsplit; set_solver).
  assert (forall r, r ∈ drop size rids -> r ∈ rids) as Hdr by (intros r Hr; rewrite Hsplit; set_solver).
  pose proof Hnd as Hnd'. rewrite Hsplit in Hnd'. apply NoDup_app in Hnd' as (Hn1 & Hdis & Hn2).
  erewrite bind_ret by (apply attempt_ret, fetch_metas_healthy; intros r Hr; by apply Hall, Ht).
  destruct (reap_batch_healthy (take size rids) s Hn1) with (s0 := s) as (s1 & Hb & Hw);
    [intros r Hr; by apply Hall, Ht|intros r _; reflexivity|].
  assert (drop size rids ## orphans s (take size rids)) as Hd2.
  { intros y Hy. unfold orphans. rewrite list_elem_of_filter. intros [_ Hy']. by apply (Hdis y). }
  destruct (IH (drop size rids) s1) as (s2 & Hb2 & Hw2).
  { rewrite length_drop. simpl in *. lia. } { done. }
  { intros r Hr. destruct (Hall r) as [? ?]; [by apply Hdr|]. split; [done|]. apply (spares_entry r s); [|done].
    apply (sw_others _ _ _ Hw). intros Hin. by apply (Hd2 r). }
  rewrite (orphans_after _ _ _ _ Hw Hd2) in Hb2, Hw2. exists s2.
  assert (orphans s rids = orphans s (take size rids) ++ orphans s (drop size rids)) as ->
    by (unfold orphans; by rewrite <- filter_app, <- Hsplit).
  split.
  - erewrite bind_ret by exact Hb. erewrite bind_ret by exact Hb2. unfold mret, M_ret. do 2 f_equal. rewrite length_app. lia.
  - apply (swept_app _ _ _ _ _ Hw Hw2). intros y Hy. unfold orphans at 1. rewrite list_elem_of_filter. intros [_ Hy']. by apply (Hd2 y).
Qed.

(** The record of an accepted reservation that is still there. *)
Record recorded (a : reserve_args) (booked_at : Z) (K : reserve_keys) s : Prop := {
  rs_account : r_account_key a <> "";
  rs_windows : plain_dict (window_ids_or utc_offset (r_window_ids a) booked_at) = true;
  rs_keys : make_keys conf a (window_ids_or utc_offset (r_window_ids a) booked_at) = Some K;
  rs_meta : as_hash (view s (meta (r_lease_id a))) =
    Some (hset_fields (meta_fields (make_argv a (window_ids_or utc_offset (r_window_ids a) booked_at) booked_at)) ∅);
}.
Lemma reserved_fields a t K s : recorded a t K s -> let mt := meta_of s (r_lease_id a) in
  field mt "account_key" = r_account_key a /\ field mt "boot_id" = lease_boot_id (r_lease_id a) /\
  exists ks, ledgers_of mt = Some ks /\ forall k, k ∈ (bookings K (make_argv a (window_ids_or utc_offset (r_window_ids a) t) t)).*1 -> k ∈ ks.
Proof.
  intros [Ha Hp HK Hm]. cbv zeta. unfold meta_of. rewrite Hm.
  set (wids := window_ids_or utc_offset (r_window_ids a) t) in *. set (A := make_argv a wids t) in *. set (mt := hset_fields (meta_fields A) ∅) in *. change (default ∅ (Some mt)) with mt.
  assert (forall f v d, (f, v) ∈ meta_fields A -> _decode_meta_field mt f d = v) as Hread by (intros; by apply meta_fields_read).
  assert (wids <> []) as Hwn by (intros Hw; rewrite Hw in HK; by unfold make_keys in HK).
  assert (field mt "account_key" = r_account_key a) as E1 by (apply Hread; set_solver).
  assert (field mt "model_id" = opt_or_empty (r_model_id a)) as E2 by (apply Hread; set_solver).
  assert (_decode_meta_field mt "window_ids" "{}" = json_dumps wids) as E3 by (apply Hread; set_solver).
  split; [done|split; [apply Hread; set_solver|]]. destruct (rollback_keys_cover a wids K HK) as (ks & Hks & _ & Hcov). exists ks.
  split; [|intros k; apply Hcov]. unfold ledgers_of, windows_of. rewrite E1, E2, E3.
  assert (str_truthy (json_dumps wids) = true) as -> by done. rewrite json_roundtrip by done. simpl default.
  by destruct wids.
Qed.
Lemma reserved_entry a t K s : rid_ok (r_lease_id a) -> recorded a t K s -> entry_ok s (r_lease_id a).
Proof.
  intros Hok Hr. destruct (reserved_fields _ _ _ _ Hr) as (_ & _ & ks & Hks & _). split; [done|]. rewrite Hks.
  split; [|done]. by rewrite (rs_meta _ _ _ _ Hr).
Qed.

(** An accepted reservation is registered that way, and is orphaned when its process is
    another one whose heartbeat is gone. *)
Lemma reserve_registers a t s K rep s1 L x boot hex :
  r_account_key a <> "" -> r_lease_id a = "lease:" +++ boot +++ ":" +++ hex -> boot <> "" -> str_mem ":" boot = false ->
  r_skip_freeze_checks a = false ->
  let wids := window_ids_or utc_offset (r_window_ids a) t in
  let A := make_argv a wids t in
  plain_dict wids = true -> make_keys conf a wids = Some K -> keys_wf K -> argv_wf A -> Linv (ledger_keys K) s L ->
  as_set (view s index) = Some x -> view s (meta (r_lease_id a)) = None ->
  reserve_script K A s = (rep, s1) -> accepted rep ->
  recorded a t K s1 /\ as_set (view s1 index) = Some ({[r_lease_id a]} ∪ x) /\
  (boot <> cur -> view s1 (_key conf (_process_heartbeat_key boot)) = None -> orphaned s1 (r_lease_id a)).
Proof.
  intros Ha Hl Hb Hc Hskip wids A Hp HK Hwf HA HL Hx Hm Hs Hr. destruct (make_keys_recovery a wids K HK) as [Ei Em].
  destruct (reserve_accepted_registered K A s rep s1 L x ∅ Hwf HA Hs Hr HL Hskip) as [Hi1 Hm1];
    [by rewrite Ei|by rewrite Em, Hm|]. rewrite Ei in Hi1. rewrite Em in Hm1.
  assert (recorded a t K s1) as Hres by by split. split; [done|].
  split; [rewrite Hi1; simpl; f_equal; set_solver|]. intros Hcur Hhb.
  destruct (reserved_fields _ _ _ _ Hres) as (E1 & E2 & _). rewrite Hl, lease_boot_id_lease in E2 by done. rewrite <- Hl in E2.
  unfold orphaned. rewrite E1, E2. split_and!; [rewrite Hl; by apply has_owner_lease|by destruct (r_account_key a)|by destruct boot|done|done].
Qed.

(** C8: On a server that answers, one reaper run clears all and only the orphaned
    reservations, however many are registered and whatever the size of its batches:
    the index keeps exactly the other ids, the run reports the number of orphaned ones,
    the record of each is gone and so are the bookings it made when it was reserved;
    nothing of any other id is touched.  (Every registered id is a legal one whose
    record is gone or has complete windows, as the reservation writes it.) *)
Theorem reap_recovers size s x :
  (0 < size)%nat -> as_set (view s index) = Some x -> (forall r, r ∈ x -> entry_ok s r) ->
  exists s', run (reap_orphan_reservations conf utc_offset cur size now) s =
      (Ret (Z.of_nat (base.size (filter (orphaned s) x))), s') /\
    as_set (view s' index) = Some (filter (fun r => ~ orphaned s r) x) /\
    (forall r, r ∉ x \/ ~ orphaned s r -> spares conf r s s') /\
    (forall r, r ∈ x -> orphaned s r -> view s' (meta r) = None) /\
    (forall a t K k m, r_lease_id a ∈ x -> orphaned s (r_lease_id a) -> recorded a t K s ->
       k ∈ (bookings K (make_argv a (window_ids_or utc_offset (r_window_ids a) t) t)).*1 -> holds (view s k) m ->
       exists m', holds (view s' k) m' /\ m' !! r_lease_id a = None).
Proof.
  intros Hsize Hx Hall. destruct (smembers_law _ _ _ Hx) as [Hnd Hin].
  set (decoded := filter (fun m => has_owner m = true) (rd_smembers s index)).
  destruct (reap_batches_healthy size Hsize (length decoded) decoded s) as (s' & Hb & [I O Me B]); [done|by apply NoDup_filter| |].
  { intros r [Ho Hr]%list_elem_of_filter. split; [done|]. by apply Hall, Hin. }
  assert (forall r, r ∈ orphans s decoded <-> r ∈ x /\ orphaned s r) as HD.
  { intros r. unfold orphans, decoded. rewrite !list_elem_of_filter, Hin. unfold orphaned. naive_solver. }
  assert (length (orphans s decoded) = base.size (filter (orphaned s) x)) as Hn.
  { rewrite <- (size_list_to_set (C := gset string)) by (unfold orphans, decoded; by do 2 apply NoDup_filter).
    apply (f_equal base.size). apply set_eq. intros r. rewrite elem_of_list_to_set, HD, elem_of_filter. naive_solver. }
  exists s'. split; [|split; [|split; [|split]]].
  - unfold run, reap_orphan_reservations. rewrite with_redis_on by done. erewrite bind_ret by (apply attempt_ret, healthy_query).
    fold decoded. by rewrite Hb, Hn.
  - rewrite (I x Hx). f_equal. apply set_eq. intros r. rewrite elem_of_difference, elem_of_list_to_set, HD, elem_of_filter.
    destruct (decide (orphaned s r)); naive_solver.
  - intros r Hr. apply O. rewrite HD. naive_solver.
  - intros r Hr Hor. apply Me. by rewrite HD.
  - intros a t K k m Hr Hor Hres Hk Hm. destruct (reserved_fields _ _ _ _ Hres) as (_ & _ & ks & Hks & Hcov).
    apply (B _ ks k m); [by rewrite HD|done|by apply Hcov|done].
Qed.
End pass.
End dead.

Module RecoverySample.
Import Sample.

(** Process [boot] holds a lease and has a heartbeat; the reply to the
    reaper's second call is lost. *)
Definition sH : mapredis := rd_set (_key conf (_process_heartbeat_key "boot")) "1" (Some 30) s1.
Definition eH : renv mapredis := REnv sH [NetOk; NetLost; NetDown].

Lemma index_sH : as_set (view sH (_key conf _RESERVATION_INDEX)) = Some {["lease:boot:1"]}.
Proof. by vm_compute. Qed.

Lemma reap_spares_live_witness :
  spares conf "lease:boot:1" sH
    (rv_store (reap_orphan_reservations conf off "other" 200 (sec 1700000100) eH).2).
Proof.
  apply (reap_spares_live conf off eq_refl "other" 200 (sec 1700000100) "lease:boot:1" eH {["lease:boot:1"]}).
  - exists (hset_fields (meta_fields A) ∅), "boot". split_and!; [by vm_compute.. | right].
    exists (Entry (RString "1") (Some 30)). by vm_compute.
  - exact index_sH.
  - intros r ->%elem_of_singleton. exact rid_ok_1.
Defined.

(** Three reservations and an id without a record are registered; the owner of two of
    them is dead, and the batches have one entry. *)
Definition hex1 := "lease:boot:1".
Definition hex2 := "lease:boot:2".
Definition live7 : reserve_args :=
  {| r_account_key := "account:p:v"; r_lease_id := "lease:live:7";
     r_freeze_key := "limit:cooldown:p:v"; r_model_freeze_key := "limit:model-tpm-freeze:m";
     r_account_model_freeze_key := "limit:cooldown:p:v:model:m"; r_concurrent_limit := 0; r_concurrency_ttl := 900;
     r_rpm_limit := 3; r_rpm_ttl := 60; r_rpd_limit := 0; r_rpd_ttl := 86400; r_rph_limit := 0; r_rph_ttl := 3600;
     r_model_id := None; r_token_amount := 0; r_tpm_limit := 0; r_tpm_ttl := 60; r_tph_limit := 0; r_tph_ttl := 3600;
     r_tpd_limit := 0; r_tpd_ttl := 86400; r_model_tpm_limit := 0; r_model_tpm_ttl := 60;
     r_allow_token_overflow := false; r_window_ids := Some wids; r_skip_freeze_checks := false |}.
Definition s3 : mapredis :=
  rd_sadd (_key conf _RESERVATION_INDEX) ["lease:gone:9"]
    (rd_set (_key conf (_process_heartbeat_key "live")) "1" (Some 30)
       (reserve_script (default no_keys (make_keys conf live7 wids)) (make_argv live7 wids (sec 1700000000))
          (reserve_script (keys hex2) (argv hex2) s1).2).2).
Definition argv2 : reserve_argv :=
  make_argv (args hex2) (window_ids_or off (r_window_ids (args hex2)) (sec 1700000000)) (sec 1700000000).
Definition x3 : gset string := {["lease:gone:9"; "lease:live:7"; hex2; hex1]}.

Lemma registered (rid : string) : rid ∈ [hex1; hex2] -> recorded conf off (args rid) (sec 1700000000) (keys rid) s3.
Proof.
  intros [->|[->|[]%not_elem_of_nil]%elem_of_cons]%elem_of_cons; split; try reflexivity; try (by vm_compute); try (vm_compute; discriminate).
Qed.
Lemma entries3 r : r ∈ x3 -> entry_ok conf off (sec 1700000100) s3 r.
Proof.
  unfold x3. rewrite !elem_of_union, !elem_of_singleton. intros [[[->| ->]| ->]| ->]; (split; [|split; apply (bool_decide_unpack _); by vm_compute]).
  - by apply (rid_ok_lease "gone" "9").
  - by apply (rid_ok_lease "live" "7").
  - by apply (rid_ok_lease "boot" "2").
  - exact rid_ok_1.
Qed.

Lemma reap_recovers_witness :
  exists s', run (reap_orphan_reservations conf off "other" 1 (sec 1700000100)) s3 = (Ret 2, s') /\
    as_set (view s' (_key conf _RESERVATION_INDEX)) = Some {["lease:gone:9"; "lease:live:7"]} /\
    spares conf "lease:live:7" s3 s' /\
    view s' (_key conf (_reservation_meta_key hex1)) = None /\ view s' (_key conf (_reservation_meta_key hex2)) = None /\
    forall k m, k ∈ (bookings (keys hex2) argv2).*1 -> holds (view s3 k) m -> exists m', holds (view s' k) m' /\ m' !! hex2 = None.
Proof.
  destruct (reap_recovers conf off eq_refl eq_refl "other" (sec 1700000100) 1 s3 x3) as (s' & Hrun & Hi & Hsp & Hm & Hb);
    [lia|by vm_compute|exact entries3|].
  assert (orphaned conf "other" s3 hex1) as H1 by (apply (bool_decide_unpack _); by vm_compute).
  assert (orphaned conf "other" s3 hex2) as H2 by (apply (bool_decide_unpack _); by vm_compute).
  assert (~ orphaned conf "other" s3 "lease:live:7") as H7 by (apply (bool_decide_unpack _); by vm_compute).
  exists s'. split; [rewrite Hrun; do 2 f_equal; by vm_compute|]. split; [rewrite Hi; f_equal; by vm_compute|].
  split; [apply Hsp; by right|]. split; [apply Hm; [by vm_compute|done]|]. split; [apply Hm; [by vm_compute|done]|].
  assert (hex2 ∈ x3) as Hx2 by (apply (bool_decide_unpack _); by vm_compute).
  assert (recorded conf off (args hex2) (sec 1700000000) (keys hex2) s3) as Hr2 by (apply registered; right; left).
  intros k m Hk Hbk. exact (Hb (args hex2) (sec 1700000000) (keys hex2) k m Hx2 H2 Hr2 Hk Hbk).
Defined.
End RecoverySample.
