(* ===== verification/Counters.v ===== *)
(** limits/backend.py, the counters of [RedisLimitBackend]: sliding-window
    events, fixed windows, the client IP set, token windows with their freeze,
    plain concurrency leases and the UTC calendar counters. *)
From S2P Require Import Prelude Redis Client Ledger Windows Reservation.

(** [int(raw)] on a GET reply, and [int(raw or 0)]: an empty string is falsy. *)
Definition int_of_get (raw : option string) : option Z :=
  match raw with None => Some 0 | Some v => tonumber v end.
Definition int_or_0 (raw : option string) : option Z :=
  match raw with None | Some "" => Some 0 | Some v => tonumber v end.

(** A TTL reply as remaining seconds. *)
Definition remaining_of (ttl : Z) : Z := if 0 <? ttl then ttl else 0.

Section counters.
Context {R : Type} `{Redis R}.
Variable conf : redis_conf.

(** ** Sliding windows

    [member] is the text [f"{now}:{amount}:{random()}"]. *)
Definition events_key (key : string) : string := "limit:events:" +++ key.

Definition count_events (key : string) (window_seconds now : Z) : M R (option Z) :=
  with_redis conf None (attempt None (
    jdbc_zremrangebyscore conf (events_key key) 0 (now - sec window_seconds);;
    n ← jdbc_zcard conf (events_key key);
    mret (Some n))).

Definition record_event (key : string) (window_seconds : Z) (member : string) (now : Z) : M R unit :=
  with_redis conf tt (attempt tt (
    jdbc_zremrangebyscore conf (events_key key) 0 (now - sec window_seconds);;
    jdbc_zadd conf (events_key key) member now;;
    jdbc_expire conf (events_key key) (window_seconds + 60))).

Definition try_event_script (k : string) (now window_seconds limit : Z) (member : string) (s : R) : Z * R :=
  let s := rd_zremrangebyscore k 0 (now - sec window_seconds) s in
  let count := rd_zcard s k in
  if limit <=? count then (0, s) else
  let s := rd_zadd k now member s in
  (1, rd_expire k (window_seconds + 60) s).

Definition try_record_event (key : string) (window_seconds limit : Z) (member : string) (now : Z)
    : M R (option bool) :=
  if limit <=? 0 then record_event key window_seconds member now;; mret (Some true) else
  with_redis conf None (attempt None (
    result ← eval (try_event_script (events_key key) now window_seconds limit member);
    mret (Some (negb (result =? 0))))).

(** ** Fixed windows *)
Definition window_key (key : string) : string := "limit:window:" +++ key.

Definition incr_script (k : string) (amount ttl_seconds : Z) (s : R) : (Z * Z) * R :=
  let '(v, s) := rd_incrby k amount s in
  let s := if v =? amount then rd_expire k ttl_seconds s else s in
  ((v, rd_ttl s k), s).

Definition incr_window (key : string) (ttl_seconds amount : Z) : M R (option (Z * Z)) :=
  with_redis conf None (attempt None (
    r ← eval (incr_script (_key conf (window_key key)) amount ttl_seconds);
    let '(count, ttl) := r : Z * Z in
    mret (Some (count, if ttl <? 0 then ttl_seconds else ttl)))).

Definition incrby_window (key : string) (amount ttl_seconds : Z) : M R (option (Z * Z)) :=
  if amount <=? 0 then mret None else incr_window key ttl_seconds amount.

Definition get_window (key : string) : M R (Z * Z) :=
  with_redis conf (0, 0) (attempt (0, 0) (
    raw ← jdbc_get conf (window_key key);
    value ← of_option (int_of_get raw);
    ttl ← native_ttl (_key conf (window_key key));
    mret (value, remaining_of ttl))).

Definition record_model_tpm_window (model_id : string) (tokens ttl_seconds : Z) : M R (option (Z * Z)) :=
  incrby_window ("model:" +++ model_id +++ ":tpm") tokens ttl_seconds.

(** The expiry both readers infer from a live window. *)
Definition until_of (now : Z) (w : Z * Z) : option Z :=
  let '(used, ttl) := w in
  if (used <=? 0) || (ttl <=? 0) then None else Some (now + sec ttl).

Definition get_api_key_block_until (subject field : string) (now : Z) : M R (option Z) :=
  w ← get_window ("api-key:" +++ subject +++ ":" +++ field);
  mret (until_of now w).

Definition get_model_tpm_cooldown_until (model_id : string) (now : Z) : M R (option Z) :=
  if negb (str_truthy model_id) then mret None else
  w ← get_window ("model:" +++ model_id +++ ":tpm");
  mret (until_of now w).

(** Startup recovery: every live model window. *)
Definition model_of_window (full_key : string) : option string :=
  let prefix := _key conf "limit:window:model:" in
  if startswith prefix full_key && endswith ":tpm" full_key then
    let n := (String.length full_key - String.length prefix - 4)%nat in
    let model_id := str_take n (str_drop (String.length prefix) full_key) in
    if str_truthy model_id then Some model_id else None
  else None.

Fixpoint read_model_windows (keys : list string) : M R (list (string * Z * Z)) :=
  match keys with
  | [] => mret []
  | k :: keys' =>
      match model_of_window k with
      | None => read_model_windows keys'
      | Some model_id =>
          raw ← jdbc_get conf (_bare_key conf k);
          ttl ← native_ttl k;
          used ← of_option (int_or_0 raw);
          rest ← read_model_windows keys';
          mret (if (0 <? used) && (0 <? ttl) then (model_id, used, ttl) :: rest else rest)
      end
  end.

Definition list_model_tpm_windows : M R (list (string * Z * Z)) :=
  with_redis conf [] (attempt [] (
    keys ← native_scan (_key conf "limit:window:model:" +++ "*:tpm");
    read_model_windows keys)).

(** ** Client IPs *)
Definition ipset_key (key : string) : string := "limit:ipset:" +++ key.

Definition ip_script (k ip : string) (limit ttl_seconds : Z) (s : R) : (Z * Z) * R :=
  if rd_sismember s k ip then ((1, rd_scard s k), s) else
  let count := rd_scard s k in
  if limit <=? count then ((0, count), s) else
  let s := rd_sadd k [ip] s in
  let s := if count =? 0 then rd_expire k ttl_seconds s else s in
  ((1, rd_scard s k), s).

Definition check_and_add_ip (key ip : string) (limit ttl_seconds : Z) : M R (option (bool * Z)) :=
  with_redis conf None (
    if negb (str_truthy ip) || (limit <=? 0) then mret None else
    attempt None (
      r ← eval (ip_script (_key conf (ipset_key key)) ip limit (Z.max 1 ttl_seconds));
      let '(ok, n) := r : Z * Z in
      mret (Some (negb (ok =? 0), n)))).

Definition set_cardinality (key : string) : M R (option Z) :=
  with_redis conf None (attempt None (
    n ← native_scard (_key conf (ipset_key key)); mret (Some n))).

(** ** Token windows with their freeze *)

(** One half of the script: count, start the window, freeze at the limit. *)
Definition tpm_half (window freeze : string) (amount ttl_seconds limit : Z) (s : R) : (Z * Z) * R :=
  if 0 <? limit then
    let '(used, s) := rd_incrby window amount s in
    let s := if used =? amount then rd_expire window ttl_seconds s else s in
    let ttl := rd_ttl s window in
    let s := if (limit <=? used) && (0 <? ttl) then rd_set freeze "tpm" (Some ttl) s else s in
    ((used, ttl), s)
  else ((0, 0), s).

Definition tpm_script (account_window model_window account_freeze model_freeze : string)
    (amount ttl_seconds account_limit model_limit : Z) (s : R) : (Z * Z * Z * Z) * R :=
  let '((account_used, account_ttl), s) := tpm_half account_window account_freeze amount ttl_seconds account_limit s in
  let '((model_used, model_ttl), s) := tpm_half model_window model_freeze amount ttl_seconds model_limit s in
  ((account_used, account_ttl, model_used, model_ttl), s).

(** (account_used, account_ttl, model_used, model_ttl) *)
Definition record_tpm_and_freeze (account_key model_id : string) (tokens ttl_seconds account_limit model_limit : Z)
    (account_freeze_key model_freeze_key : string) : M R (option (Z * Z * Z * Z)) :=
  if tokens <=? 0 then mret None else
  with_redis conf None (attempt None (
    r ← eval (tpm_script (_key conf (window_key (account_key +++ ":tpm")))
               (_key conf (window_key ("model:" +++ model_id +++ ":tpm")))
               (_key conf account_freeze_key) (_key conf model_freeze_key)
               tokens ttl_seconds account_limit model_limit);
    let '(au, atl, mu, mt) := r : Z * Z * Z * Z in
    mret (Some (au, Z.max 0 atl, mu, Z.max 0 mt)))).

(** ** Request-per-day readers of the admin panel *)
Definition rpd_key (account_key : string) : string := "limit:account-reserve:" +++ account_key +++ ":rpd".

Definition get_account_rpd_used (account_key : string) : M R (Z * Z) :=
  with_redis conf (0, 0) (attempt (0, 0) (
    raw ← jdbc_get conf (rpd_key account_key);
    value ← of_option (int_of_get raw);
    ttl ← native_ttl (_key conf (rpd_key account_key));
    mret (value, remaining_of ttl))).

(** One pipelined GET per account; a value that is not a number is skipped. *)
Definition batch_get_account_rpd (account_keys : list string) : M R (list (string * Z)) :=
  with_redis conf [] (
    if decide (account_keys = []) then mret [] else
    attempt [] (query (fun s =>
      omap (fun k => raw ← rd_get s (_key conf (rpd_key k)); v ← tonumber raw; Some (k, v)) account_keys))).

(** ** Concurrency leases of a key

    The script runs on the key as it is. *)
Definition plain_concurrency_key (key : string) : string := "limit:concurrency:" +++ key.

Definition acquire_script (k : string) (now limit expires_at : Z) (lease_id : string) (ttl : Z) (s : R) : Z * R :=
  let s := rd_zremrangebyscore k 0 now s in
  let count := rd_zcard s k in
  if limit <=? count then (0, s) else
  let s := rd_zadd k expires_at lease_id s in
  (1, rd_expire k ttl s).

Definition acquire_concurrency (key : string) (limit : Z) (lease_id : string) (ttl_seconds now : Z)
    : M R (option bool) :=
  if limit <=? 0 then mret (Some true) else
  with_redis conf None (attempt None (
    result ← eval (acquire_script (plain_concurrency_key key) now limit (now + sec ttl_seconds) lease_id (ttl_seconds + 60));
    mret (Some (negb (result =? 0))))).

Definition release_concurrency (key lease_id : string) : M R unit :=
  with_redis conf tt (attempt tt (
    _ ← native_zrem (plain_concurrency_key key) lease_id; mret tt)).

Definition concurrency_used (key : string) (now : Z) : M R (option Z) :=
  with_redis conf None (attempt None (
    jdbc_zremrangebyscore conf (plain_concurrency_key key) 0 now;;
    n ← jdbc_zcard conf (plain_concurrency_key key);
    mret (Some n))).

(** ** Calendar counters *)
Definition counter_key (key calendar : string) (now : Z) : string :=
  "limit:counter:" +++ key +++ ":" +++ calendar +++ ":" +++ (calendar_window_id calendar now).1.

Definition get_calendar_count (key calendar : string) (now : Z) : M R (option Z) :=
  with_redis conf None (attempt None (
    raw ← jdbc_get conf (counter_key key calendar now);
    v ← of_option (int_or_0 raw);
    mret (Some v))).

(** Pipelined GETs; an absent or unreadable counter is 0. *)
Definition batch_get_calendar_counts (keys : list string) (calendar : string) (now : Z) : M R (list (string * Z)) :=
  with_redis conf [] (
    if decide (keys = []) then mret [] else
    attempt [] (query (fun s =>
      (fun k => (k, default 0 (rd_get s (_key conf (counter_key k calendar now)) ≫= tonumber))) <$> keys))).

(** [incrby] is the inherited method, [expire] the overridden one. *)
Definition incr_calendar_count (key calendar : string) (amount now : Z) : M R unit :=
  with_redis conf tt (
    if amount <=? 0 then mret tt else
    attempt tt (
      _ ← native_incrby (counter_key key calendar now) amount;
      jdbc_expire conf (counter_key key calendar now) (calendar_window_id calendar now).2)).

(** One pipeline of INCRBY and EXPIRE pairs on prefixed keys. *)
Definition incr_counter (calendar : string) (now : Z) (s : R) (item : string * Z) : R :=
  let k := _key conf (counter_key item.1 calendar now) in
  rd_expire k (calendar_window_id calendar now).2 (rd_incrby k item.2 s).2.

Definition batch_incr_calendar_counts (increments : list (string * Z)) (calendar : string) (now : Z) : M R unit :=
  with_redis conf tt (
    let items := filter (fun kv => 0 < kv.2) increments in
    if decide (items = []) then mret tt else
    attempt tt (command (fun s => foldl (incr_counter calendar now) s items))).
End counters.
