(* ===== verification/CountersProps.v ===== *)
(** What the counters guarantee, and where a prefixed and an unprefixed key
    meet: the readers that miss what the writers wrote. *)
From S2P Require Import Prelude Redis MapRedis Client Ledger Windows Reservation ReservationFacts.
From S2P Require Import ReservationProps Recovery Counters.

Lemma get_key_ne conf k : conf_ok conf = true -> get_key conf k <> k.
Proof.
  unfold conf_ok, get_key. destruct (prefix_key conf) as [p|]; [|done]. intros _ Heq.
  apply (f_equal String.length) in Heq. rewrite !length_append in Heq. simpl in Heq. lia.
Qed.

(** Adding one lease after dropping the expired ones stays within the limit. *)
Lemma zadd_bound (z : gmap string Z) limit m sc :
  Z.of_nat (size z) < limit -> Z.of_nat (size (<[m := sc]> z)) <= limit.
Proof.
  intros Hz. destruct (z !! m) eqn:E.
  - rewrite map_size_insert_Some by eauto. lia.
  - rewrite map_size_insert_None by done. lia.
Qed.

Section props.
Context {R : Type} `{RedisLaws R}.
Variable conf : redis_conf.
Implicit Types (s : R) (k : string).

(** The state of a fixed window key. *)
Definition window_at (k : string) (v t : Z) (s : R) : Prop :=
  view s k = Some (Entry (RString (tostring v)) (Some t)).

Lemma incr_fresh s k amount ttl :
  view s k = None -> 0 < ttl ->
  (incr_script k amount ttl s).1 = (amount, ttl) /\ window_at k amount ttl (incr_script k amount ttl s).2.
Proof.
  intros Hv Ht. unfold incr_script. assert (as_int (view s k) = Some 0) as Hi by by rewrite Hv.
  destruct (incrby_law _ _ amount _ Hi) as [Hn Hs]. destruct (rd_incrby k amount s) as [n s1].
  simpl in Hn, Hs. rewrite Hn, Z.add_0_l, Z.eqb_refl in *. cbn [fst snd]. rewrite ttl_law. unfold window_at.
  rewrite expire_law, Hs by done. done.
Qed.

Lemma incr_live s k v t amount ttl :
  window_at k v t s -> v <> 0 ->
  (incr_script k amount ttl s).1 = (v + amount, t) /\ window_at k (v + amount) t (incr_script k amount ttl s).2.
Proof.
  intros Hv Hne. unfold incr_script, window_at in *.
  assert (as_int (view s k) = Some v) as Hi by (rewrite Hv; apply tonumber_tostring).
  destruct (incrby_law _ _ amount _ Hi) as [Hn Hs]. destruct (rd_incrby k amount s) as [n s1].
  simpl in Hn, Hs. rewrite Hn in *. rewrite (proj2 (Z.eqb_neq _ _)) by lia. cbn [fst snd].
  rewrite ttl_law, Hs, Hv. done.
Qed.

(** Consecutive increments of one window: the replies, and the final state. *)
Fixpoint incr_all (key : string) (ttl : Z) (amounts : list Z) (s : R) : list (res (option (Z * Z))) * R :=
  match amounts with
  | [] => ([], s)
  | a :: amounts' =>
      let '(r, s) := run (incr_window conf key ttl a) s in
      let '(rs, s) := incr_all key ttl amounts' s in
      (r :: rs, s)
  end.

Fixpoint sums (acc : Z) (amounts : list Z) : list Z :=
  match amounts with [] => [] | a :: l => acc + a :: sums (acc + a) l end.

Lemma run_incr_window key ttl amount s :
  connected conf = true ->
  run (incr_window conf key ttl amount) s =
    (let '((n, t), s') := incr_script (_key conf (window_key key)) amount ttl s in
     (Ret (Some (n, if t <? 0 then ttl else t)), s')).
Proof.
  intros Hcon. unfold run, incr_window. rewrite with_redis_on by done.
  unfold attempt. erewrite bind_ret by apply healthy_call. by destruct (incr_script _ _ _ s) as [[n t] s'].
Qed.

Lemma incr_all_live key ttl v t amounts s :
  connected conf = true -> window_at (_key conf (window_key key)) v t s -> 0 < v ->
  Forall (fun a => 0 < a) amounts ->
  (incr_all key ttl amounts s).1 = (fun n => Ret (Some (n, t))) <$> sums v amounts /\
  window_at (_key conf (window_key key)) (foldl Z.add v amounts) t (incr_all key ttl amounts s).2.
Proof.
  intros Hcon Hw Hv Ha. revert v s Hw Hv. induction Ha as [|a amounts Ha _ IH]; intros v s Hw Hv; [done|].
  cbn [incr_all sums foldl]. rewrite run_incr_window by done.
  destruct (incr_live s _ v t a ttl Hw) as [H1 H2]; [lia|].
  destruct (incr_script _ a ttl s) as [[n t'] s1]. simpl in H1, H2. injection H1 as -> ->.
  assert (0 <= t) by (eapply ttl_pos_law; [exact H2 | done]).
  rewrite (proj2 (Z.ltb_ge t 0)) by lia.
  destruct (IH (v + a) s1 H2 ltac:(lia)) as [IH1 IH2].
  destruct (incr_all key ttl amounts s1) as [rs s2]. simpl in *. by rewrite IH1.
Qed.

(** A fixed window counts every positive increment against the expiry its
    first increment set: the replies are the running sums with that TTL, and
    the reader of the window returns the sum and the TTL. *)
Lemma fixed_window key ttl a amounts s :
  conf_ok conf = true -> connected conf = true -> 0 < ttl -> Forall (fun a => 0 < a) (a :: amounts) ->
  view s (_key conf (window_key key)) = None ->
  let r := incr_all key ttl (a :: amounts) s in
  r.1 = (fun n => Ret (Some (n, ttl))) <$> sums 0 (a :: amounts) /\
  run (get_window conf key) r.2 = (Ret (foldl Z.add 0 (a :: amounts), ttl), r.2).
Proof.
  intros Hconf Hcon Ht [Ha Has]%Forall_cons_1 Hv r.
  destruct (incr_fresh s _ a ttl Hv Ht) as [H1 H2].
  assert (r.1 = (fun n => Ret (Some (n, ttl))) <$> sums 0 (a :: amounts) /\
          window_at (_key conf (window_key key)) (foldl Z.add 0 (a :: amounts)) ttl r.2) as [Hr Hw].
  { unfold r. cbn [incr_all sums foldl]. rewrite run_incr_window by done.
    destruct (incr_script _ a ttl s) as [[n t] s1]. simpl in H1, H2. injection H1 as -> ->.
    rewrite (proj2 (Z.ltb_ge ttl 0)) by lia.
    destruct (incr_all_live key ttl a ttl amounts s1 Hcon H2 Ha Has) as [I1 I2].
    destruct (incr_all key ttl amounts s1) as [rs s2]. simpl in *. by rewrite I1. }
  split; [exact Hr|]. set (total := foldl Z.add 0 (a :: amounts)) in *. clearbody total r.
  unfold window_at in Hw. apply run_eq. unfold get_window. rewrite with_redis_on by done. apply attempt_ret.
  unfold jdbc_get. erewrite bind_ret by apply healthy_query.
  rewrite <- _key_get_key, (get_law _ _ _ _ Hw) by done. simpl int_of_get. rewrite tonumber_tostring.
  erewrite bind_ret by reflexivity. unfold native_ttl. erewrite bind_ret by apply healthy_query.
  rewrite ttl_law, Hw. simpl. unfold remaining_of. by rewrite (proj2 (Z.ltb_lt 0 ttl)).
Qed.

(** The IP set of a key never grows past its limit: an IP is admitted exactly
    when it is known or the set is below the limit, a known or refused IP
    changes nothing, and the first IP starts the window. *)
Lemma ip_limit k ip limit ttl s x :
  as_set (view s k) = Some x -> 0 < ttl -> (x = ∅ -> ttl_of (view s k) = None) ->
  let '((ok, n), s') := ip_script k ip limit ttl s in
  (ok = 1 <-> ip ∈ x \/ Z.of_nat (size x) < limit) /\
  (if decide (ip ∈ x \/ limit <= Z.of_nat (size x)) then s' = s /\ n = Z.of_nat (size x)
   else view s' k = Some (Entry (RSet ({[ip]} ∪ x)) (if decide (x = ∅) then Some ttl else ttl_of (view s k))) /\
        n = Z.of_nat (size x) + 1 /\ n <= limit).
Proof.
  intros Hx Ht He. unfold ip_script. rewrite (sismember_law _ _ _ _ Hx), (scard_law _ _ _ Hx).
  case_bool_decide as Hin; [split; [tauto|]; rewrite decide_True by tauto; done|].
  destruct (Z.leb_spec limit (Z.of_nat (size x))) as [Hl|Hl].
  { split; [split; [done|]; intros [?|?]; [done|lia]|]. rewrite decide_True by tauto. done. }
  set (s1 := rd_sadd k [ip] s).
  assert (view s1 k = Some (Entry (RSet ({[ip]} ∪ x)) (ttl_of (view s k)))) as Hs1.
  { unfold s1. rewrite (sadd_law _ _ _ _ Hx). unfold put_set. rewrite decide_False; [|set_solver].
    do 3 f_equal. set_solver. }
  assert (size ({[ip]} ∪ x) = S (size x)) as Hsz by by rewrite size_union, size_singleton by set_solver.
  assert (bool_decide (x = ∅) = (Z.of_nat (size x) =? 0)) as Hz.
  { case_bool_decide as Hd; symmetry; [subst; by rewrite size_empty|].
    apply Z.eqb_neq. intros Hs. assert (size x = 0%nat) as Hs0%size_empty_inv by lia. apply Hd. set_solver. }
  assert (rd_scard s1 k = Z.of_nat (size x) + 1) as Hc1.
  { rewrite (scard_law _ _ ({[ip]} ∪ x)) by by rewrite Hs1. rewrite Hsz. lia. }
  rewrite <- Hz. case_bool_decide as Hd.
  - split; [split; [right; lia | done]|]. rewrite decide_False by (intros [?|?]; [done|lia]).
    rewrite (scard_law _ _ ({[ip]} ∪ x)) by by rewrite expire_law, Hs1. rewrite Hsz. split_and!; [|lia..].
    by rewrite expire_law, Hs1, decide_True by done.
  - split; [split; [right; lia | done]|]. rewrite decide_False by (intros [?|?]; [done|lia]).
    rewrite Hc1. split_and!; [|lia..]. by rewrite Hs1, decide_False by done.
Qed.

(** However many holders contend for a key, [acquire_concurrency] grants a lease
    only while fewer than [limit] unexpired leases exist, so their number
    never passes the limit; a refusal only drops expired leases. *)
Lemma concurrency_never_exceeds k now limit expires lease ttl s z :
  as_zset (view s k) = Some z -> 0 < ttl ->
  let '(ok, s') := acquire_script k now limit expires lease ttl s in
  let live := zkeep 0 now z in
  (ok = 1 <-> Z.of_nat (size live) < limit) /\
  as_zset (view s' k) = Some (if decide (Z.of_nat (size live) < limit) then <[lease := expires]> live else live) /\
  (Z.of_nat (size live) < limit -> Z.of_nat (size (<[lease := expires]> live)) <= limit).
Proof.
  intros Hz Ht. unfold acquire_script. pose proof (as_zset_zremrange s k 0 now z Hz) as Hz1.
  rewrite (zcard_law _ _ _ Hz1). destruct (Z.leb_spec limit (Z.of_nat (size (zkeep 0 now z)))).
  - rewrite decide_False by lia. split_and!; [split; [done|lia] | done | apply zadd_bound].
  - rewrite decide_True by lia. split_and!; [done | | apply zadd_bound].
    rewrite as_zset_expire by done. by apply as_zset_zadd.
Qed.

(** [concurrency_used] reads the prefixed key, the leases are under the
    unprefixed one: with the key prefix the deployment requires it answers 0
    however many leases are held. *)
Lemma concurrency_used_blind key now s z :
  conf_ok conf = true -> connected conf = true ->
  as_zset (view s (plain_concurrency_key key)) = Some z ->
  view s (get_key conf (plain_concurrency_key key)) = None ->
  exists s', run (concurrency_used conf key now) s = (Ret (Some 0), s') /\
    as_zset (view s' (plain_concurrency_key key)) = Some z.
Proof.
  intros Hconf Hcon Hz Hn.
  set (k := plain_concurrency_key key) in *.
  exists (rd_zremrangebyscore (get_key conf k) 0 now s). split.
  - apply run_eq. unfold concurrency_used. fold k. rewrite with_redis_on by done. apply attempt_ret.
    unfold jdbc_zremrangebyscore. erewrite bind_ret by apply healthy_command.
    unfold jdbc_zcard. erewrite bind_ret by apply healthy_query.
    rewrite (zcard_law _ _ (zkeep 0 now ∅)) by (apply as_zset_zremrange; by rewrite Hn).
    unfold zkeep. by rewrite map_filter_empty.
  - rewrite zremrangebyscore_ne; [done|]. by apply get_key_ne.
Qed.

(** [incr_calendar_count] adds to the unprefixed counter and sets the expiry of
    the prefixed one: under the required prefix the reader never sees the
    increment, and the key it did write never expires. *)
Lemma calendar_incr_lost key calendar amount now s :
  conf_ok conf = true -> connected conf = true -> 0 < amount ->
  let k := counter_key key calendar now in
  view s k = None -> view s (get_key conf k) = None ->
  now < calendar_end calendar now ->
  exists s', run (incr_calendar_count conf key calendar amount now) s = (Ret tt, s') /\
    run (get_calendar_count conf key calendar now) s' = (Ret (Some 0), s') /\
    view s' k = Some (Entry (RString (tostring amount)) None).
Proof.
  intros Hconf Hcon Ha k Hk Hp Hnow. pose proof (calendar_ttl_pos calendar now Hnow) as Ht.
  set (s1 := (rd_incrby k amount s).2). pose proof (get_key_ne conf k Hconf) as Hne.
  exists (rd_expire (get_key conf k) (calendar_window_id calendar now).2 s1).
  assert (as_int (view s k) = Some 0) as Hi by by rewrite Hk.
  destruct (incrby_law _ _ amount _ Hi) as [_ Hs1]. fold s1 in Hs1. rewrite Hk in Hs1.
  assert (view s1 (get_key conf k) = None) as Hp1 by (unfold s1; rewrite incrby_ne by auto; exact Hp).
  split_and!.
  - apply run_eq. unfold incr_calendar_count. rewrite with_redis_on by done. fold k.
    rewrite (proj2 (Z.leb_gt amount 0)) by lia. apply attempt_ret. unfold native_incrby.
    erewrite bind_ret by apply healthy_call. done.
  - apply run_eq. unfold get_calendar_count. rewrite with_redis_on by done. fold k. apply attempt_ret.
    unfold jdbc_get. erewrite bind_ret by apply healthy_query.
    rewrite (get_none_law _ (get_key conf k)) by (by rewrite expire_law, Hp1 by lia). done.
  - rewrite expire_ne by done. by rewrite Hs1.
Qed.

Lemma counter_key_inj k1 k2 calendar now : counter_key k1 calendar now = counter_key k2 calendar now -> k1 = k2.
Proof.
  unfold counter_key. intros Heq. rewrite append_inj_l in Heq. by apply append_inj_r in Heq.
Qed.

Lemma incr_counter_at calendar now s key amount v k :
  0 < (calendar_window_id calendar now).2 ->
  as_int (view s (_key conf (counter_key k calendar now))) = Some v ->
  as_int (view (incr_counter conf calendar now s (key, amount)) (_key conf (counter_key k calendar now)))
    = Some (if decide (k = key) then v + amount else v).
Proof.
  intros Ht Hv. unfold incr_counter. cbn [fst snd]. case_decide as Hd.
  - subst key. rewrite expire_law by done. destruct (incrby_law _ _ amount _ Hv) as [_ ->]. simpl.
    apply tonumber_tostring.
  - assert (_key conf (counter_key key calendar now) <> _key conf (counter_key k calendar now)) as Hne.
    { intros Heq%key_inj%counter_key_inj. by apply Hd. }
    by rewrite expire_ne, incrby_ne.
Qed.

(** Amounts of [key] in a batch. *)
Definition amount_of (items : list (string * Z)) (key : string) : Z :=
  foldr (fun kv acc => if decide (key = kv.1) then kv.2 + acc else acc) 0 items.

Lemma incr_counters_at calendar now items s v k :
  0 < (calendar_window_id calendar now).2 ->
  as_int (view s (_key conf (counter_key k calendar now))) = Some v ->
  as_int (view (foldl (incr_counter conf calendar now) s items) (_key conf (counter_key k calendar now)))
    = Some (v + amount_of items k).
Proof.
  intros Ht. revert s v. induction items as [|[key a] items IH]; intros s v Hv; simpl; [by rewrite Z.add_0_r|].
  rewrite (IH _ _ (incr_counter_at calendar now s key a v k Ht Hv)). f_equal. case_decide; lia.
Qed.

Lemma int_or_0_get s k v : as_int (view s k) = Some v -> int_or_0 (rd_get s k) = Some v.
Proof.
  destruct (view s k) as [[[w| | |] t]|] eqn:E; simpl; try done.
  - intros Hw. rewrite (get_law _ _ _ _ E). unfold int_or_0. by destruct w.
  - intros [= <-]. by rewrite (get_none_law _ _ E).
Qed.

(** The batch writer and the reader agree: after a batch every counter reads
    as its former value plus the positive amounts the batch held for it. *)
Lemma calendar_batch_roundtrip items calendar now key v s :
  conf_ok conf = true -> connected conf = true ->
  now < calendar_end calendar now ->
  as_int (view s (_key conf (counter_key key calendar now))) = Some v ->
  exists s', run (batch_incr_calendar_counts conf items calendar now) s = (Ret tt, s') /\
    run (get_calendar_count conf key calendar now) s' =
      (Ret (Some (v + amount_of (filter (fun kv => 0 < kv.2) items) key)), s').
Proof.
  intros Hconf Hcon Hnow Hv. pose proof (calendar_ttl_pos calendar now Hnow) as Ht.
  set (its := filter (fun kv => 0 < kv.2) items).
  exists (foldl (incr_counter conf calendar now) s its). split.
  - apply run_eq. unfold batch_incr_calendar_counts. rewrite with_redis_on by done. fold its.
    case_decide as Hd; [by rewrite Hd|]. by apply attempt_ret.
  - apply run_eq. unfold get_calendar_count. rewrite with_redis_on by done. apply attempt_ret.
    unfold jdbc_get. erewrite bind_ret by apply healthy_query. rewrite <- _key_get_key by done.
    rewrite (int_or_0_get _ _ _ (incr_counters_at calendar now its s v key ltac:(lia) Hv)). done.
Qed.

Lemma tpm_half_spec window freeze amount ttl limit s v :
  window <> freeze -> as_int (view s window) = Some v -> 0 < ttl -> 0 < limit ->
  let '((used, t), s') := tpm_half window freeze amount ttl limit s in
  used = v + amount /\ t = rd_ttl s' window /\
  view s' freeze = (if (limit <=? used) && (0 <? t) then Some (Entry (RString "tpm") (Some t)) else view s freeze) /\
  (forall k, k <> window -> k <> freeze -> view s' k = view s k).
Proof.
  intros Hne Hv Ht Hl. unfold tpm_half. rewrite (proj2 (Z.ltb_lt 0 limit)) by done.
  destruct (incrby_law _ _ amount _ Hv) as [Hn Hs].
  pose proof (fun k => incrby_ne s window k amount) as Hf.
  destruct (rd_incrby window amount s) as [n s1]. simpl in Hn, Hs, Hf. rewrite Hn.
  set (s2 := if v + amount =? amount then rd_expire window ttl s1 else s1).
  assert (forall k, k <> window -> view s2 k = view s k) as Hf2.
  { intros k Hk. unfold s2. case_match; [rewrite expire_ne by done|]; by apply Hf. }
  destruct ((limit <=? v + amount) && (0 <? rd_ttl s2 window)) eqn:E; split_and!; try done.
  - by rewrite !ttl_law, set_ne.
  - btrue. rewrite set_law; [done|]. by intros ? [= <-].
  - intros k Hk Hk'. rewrite set_ne by done. by apply Hf2.
  - by apply Hf2.
  - intros k Hk Hk'. by apply Hf2.
Qed.

(** Recording tokens adds them to both windows, and freezes the account (the
    model) exactly when its own window reached its limit while live, for the
    time that window has left. *)
Lemma tpm_freeze_matches_window aw mw af mf amount ttl al ml s va vm :
  NoDup [aw; mw; af; mf] -> as_int (view s aw) = Some va -> as_int (view s mw) = Some vm ->
  0 < ttl -> 0 < al -> 0 < ml ->
  let '((au, at_, mu, mt), s') := tpm_script aw mw af mf amount ttl al ml s in
  au = va + amount /\ mu = vm + amount /\ at_ = rd_ttl s' aw /\ mt = rd_ttl s' mw /\
  view s' af = (if (al <=? au) && (0 <? at_) then Some (Entry (RString "tpm") (Some at_)) else view s af) /\
  view s' mf = (if (ml <=? mu) && (0 <? mt) then Some (Entry (RString "tpm") (Some mt)) else view s mf).
Proof.
  rewrite !NoDup_cons, !not_elem_of_cons. intros ((?&?&?&_)&(?&?&_)&(?&_)&_) Ha Hm Ht Hal Hml. unfold tpm_script.
  pose proof (tpm_half_spec aw af amount ttl al s va ltac:(done) Ha Ht Hal) as Hh1.
  destruct (tpm_half aw af amount ttl al s) as [[au at_] s1]. destruct Hh1 as (-> & -> & Hf1 & Hr1).
  assert (as_int (view s1 mw) = Some vm) as Hm1 by by rewrite Hr1.
  pose proof (tpm_half_spec mw mf amount ttl ml s1 vm ltac:(done) Hm1 Ht Hml) as Hh2.
  destruct (tpm_half mw mf amount ttl ml s1) as [[mu mt] s2]. destruct Hh2 as (-> & -> & Hf2 & Hr2).
  rewrite !(ttl_law _ aw), (Hr2 aw), (Hr2 af), Hf2, (Hr1 mf) by done. rewrite Hf1, (ttl_law _ aw). done.
Qed.

Lemma rpd_key_not_ledger subject k :
  is_ledger conf k -> k <> _key conf (rpd_key subject).
Proof.
  intros (scope & sub & metric & w & [-> | ->] & ->); unfold _ledger_key; intros Heq%key_inj;
    by unfold _RESERVATION_PREFIX, rpd_key in Heq; simpl in Heq.
Qed.

Lemma make_keys_ledgers a wids K :
  make_keys conf a wids = Some K ->
  Forall (is_ledger conf) (ledger_keys K) /\ k_concurrency K = concurrency_key conf (r_account_key a) /\
  k_freeze K = _key conf (r_freeze_key a) /\ k_model_freeze K = _key conf (r_model_freeze_key a) /\
  k_account_model_freeze K = _key conf (r_account_model_freeze_key a).
Proof.
  unfold make_keys, _account_ledger_keys, _model_ledger_key.
  destruct (assoc "rpm" wids), (assoc "rph" wids), (assoc "rpd" wids), (assoc "tpm" wids),
    (assoc "tph" wids), (assoc "tpd" wids), (assoc "model_tpm" wids); intros; simplify_eq/=.
  split_and!; try done. unfold ledger_keys. simpl.
  repeat constructor; try apply is_ledger_account. case_match; apply is_ledger_model.
Qed.

(** The panel's requests-per-day reader looks at a key no reservation writes:
    after an accepted call with a daily limit the ledger counts the request
    and the reader still answers (0, 0). *)
Lemma rpd_reader_blind a wids now K s rep s1 L :
  conf_ok conf = true -> connected conf = true ->
  make_keys conf a wids = Some K -> keys_wf K -> argv_wf (make_argv a wids now) -> 0 < r_rpd_limit a ->
  rpd_key (r_account_key a) ∉ [r_freeze_key a; r_model_freeze_key a; r_account_model_freeze_key a] ->
  Linv (ledger_keys K) s L -> view s (_key conf (rpd_key (r_account_key a))) = None ->
  reserve_script K (make_argv a wids now) s = (rep, s1) -> accepted rep ->
  (exists m, holds (view s1 (k_rpd K)) m /\ m !! r_lease_id a = Some (1, Reserved)) /\
  run (get_account_rpd_used conf (r_account_key a)) s1 = (Ret (0, 0), s1).
Proof.
  intros Hconf Hcon HK Hwf HA Hlim Hfr HL Hn Hs Hr.
  destruct (make_keys_ledgers _ _ _ HK) as (Hl & Ec & Ef & Em & Eam).
  destruct (make_keys_recovery conf _ _ _ HK) as (Ei & Emeta).
  destruct (reserve_accepted_books K _ Hwf HA _ _ _ _ Hs Hr HL) as [HB HF].
  set (bk := _key conf (rpd_key (r_account_key a))) in *. split.
  - eexists. split; [apply HB; unfold ledger_keys; set_solver|].
    rewrite (book_all_at _ _ _ _ 1); [by rewrite lookup_insert_eq | by apply bookings_NoDup|].
    unfold bookings, on. simpl a_rpd_limit. rewrite (proj2 (Z.ltb_lt _ _) Hlim), !elem_of_app. right. left. set_solver.
  - apply run_eq. unfold get_account_rpd_used. rewrite with_redis_on by done. apply attempt_ret.
    unfold jdbc_get. erewrite bind_ret by apply healthy_query. rewrite <- _key_get_key by done. fold bk.
    assert (view s1 bk = None) as Hb.
    { rewrite HF; [done|]. rewrite not_elem_of_app, !not_elem_of_cons in *. split.
      - intros Hin. rewrite Forall_forall in Hl. by apply (rpd_key_not_ledger (r_account_key a) bk (Hl _ Hin)).
      - unfold other_keys. rewrite Ec, Ef, Em, Eam, Ei, Emeta. destruct Hfr as (?&?&?&_).
        rewrite !not_elem_of_cons. unfold bk, concurrency_key. split_and!; [intros Heq%key_inj..|apply not_elem_of_nil]; try done.
        unfold rpd_key, reserve_base in Heq.
        rewrite <- !append_assoc in Heq.
        by apply (append_last ":"%char _ _ "rpd" "concurrency") in Heq. }
    rewrite (get_none_law _ _ Hb). erewrite bind_ret by reflexivity. unfold native_ttl.
    erewrite bind_ret by apply healthy_query. rewrite ttl_law. fold bk. by rewrite Hb.
Qed.
End props.

Module CountersSample.
Import Sample.

Lemma fixed_window_witness :
  let r := incr_all conf "api-key:k:rpm" 60 [1; 1; 5] s0 in
  r.1 = (fun n => Ret (Some (n, 60))) <$> [1; 2; 7] /\
  run (get_window conf "api-key:k:rpm") r.2 = (Ret (7, 60), r.2).
Proof.
  apply (fixed_window conf "api-key:k:rpm" 60 1 [1; 5] s0); [done | done | done | | done].
  repeat constructor.
Defined.

Definition ips : gset string := {["10.0.0.1"; "10.0.0.2"]}.
Definition sIP : mapredis := {[ "ips" := Entry (RSet ips) (Some 50) ]}.

(** A third address against a limit of 2. *)
Lemma ip_limit_witness :
  let '((ok, n), s') := ip_script "ips" "10.0.0.3" 2 60 sIP in
  (ok = 1 <-> "10.0.0.3" ∈ ips \/ Z.of_nat (size ips) < 2) /\
  (if decide ("10.0.0.3" ∈ ips \/ 2 <= Z.of_nat (size ips)) then s' = sIP /\ n = Z.of_nat (size ips)
   else view s' "ips" = Some (Entry (RSet ({["10.0.0.3"]} ∪ ips)) (if decide (ips = ∅) then Some 60 else ttl_of (view sIP "ips"))) /\
        n = Z.of_nat (size ips) + 1 /\ n <= 2).
Proof. by apply (ip_limit "ips" "10.0.0.3" 2 60 sIP ips). Defined.

Definition leases : gmap string Z := {[ "a" := sec 90; "b" := sec 110 ]}.
Definition sC : mapredis := {[ plain_concurrency_key "acc" := Entry (RZset leases) (Some 900) ]}.

Lemma concurrency_never_exceeds_witness :
  let '(ok, s') := acquire_script (plain_concurrency_key "acc") (sec 100) 2 (sec 200) "c" 960 sC in
  let live := zkeep 0 (sec 100) leases in
  (ok = 1 <-> Z.of_nat (size live) < 2) /\
  as_zset (view s' (plain_concurrency_key "acc")) =
    Some (if decide (Z.of_nat (size live) < 2) then <["c" := sec 200]> live else live) /\
  (Z.of_nat (size live) < 2 -> Z.of_nat (size (<["c" := sec 200]> live)) <= 2).
Proof. by apply (concurrency_never_exceeds (plain_concurrency_key "acc") (sec 100) 2 (sec 200) "c" 960 sC leases). Defined.

Lemma concurrency_used_blind_witness :
  exists s', run (concurrency_used conf "acc" (sec 50)) sC = (Ret (Some 0), s') /\
    as_zset (view s' (plain_concurrency_key "acc")) = Some leases.
Proof. by apply (concurrency_used_blind conf "acc" (sec 50) sC leases). Defined.

Lemma calendar_incr_lost_witness :
  exists s', run (incr_calendar_count conf "rel:p" "day" 3 (sec 1700000000)) s0 = (Ret tt, s') /\
    run (get_calendar_count conf "rel:p" "day" (sec 1700000000)) s' = (Ret (Some 0), s') /\
    view s' (counter_key "rel:p" "day" (sec 1700000000)) = Some (Entry (RString (tostring 3)) None).
Proof. by apply (calendar_incr_lost conf "rel:p" "day" 3 (sec 1700000000) s0). Defined.

Lemma calendar_batch_roundtrip_witness :
  exists s', run (batch_incr_calendar_counts conf [("ok", 3); ("err", 0); ("ok", 2)] "week" (sec 1700000000)) s0
      = (Ret tt, s') /\
    run (get_calendar_count conf "ok" "week" (sec 1700000000)) s' = (Ret (Some 5), s').
Proof.
  by apply (calendar_batch_roundtrip conf [("ok", 3); ("err", 0); ("ok", 2)] "week" (sec 1700000000) "ok" 0 s0).
Defined.

Lemma tpm_freeze_matches_window_witness :
  let '((au, at_, mu, mt), s') := tpm_script "aw" "mw" "af" "mf" 70 60 50 100 s0 in
  au = 0 + 70 /\ mu = 0 + 70 /\ at_ = rd_ttl s' "aw" /\ mt = rd_ttl s' "mw" /\
  view s' "af" = (if (50 <=? au) && (0 <? at_) then Some (Entry (RString "tpm") (Some at_)) else view s0 "af") /\
  view s' "mf" = (if (100 <=? mu) && (0 <? mt) then Some (Entry (RString "tpm") (Some mt)) else view s0 "mf").
Proof.
  apply (tpm_freeze_matches_window "aw" "mw" "af" "mf" 70 60 50 100 s0 0 0); try done.
  by apply (bool_decide_unpack _).
Defined.

(** The account of [args], with a daily limit of 10. *)
Definition day_args : reserve_args :=
  {| r_account_key := "account:p:u"; r_lease_id := "lease:boot:1";
     r_freeze_key := "limit:cooldown:p:u"; r_model_freeze_key := "limit:model-tpm-freeze:m";
     r_account_model_freeze_key := "limit:cooldown:p:u:model:m";
     r_concurrent_limit := 0; r_concurrency_ttl := 900;
     r_rpm_limit := 0; r_rpm_ttl := 60; r_rpd_limit := 10; r_rpd_ttl := 86400;
     r_rph_limit := 0; r_rph_ttl := 3600; r_model_id := None; r_token_amount := 0;
     r_tpm_limit := 0; r_tpm_ttl := 60; r_tph_limit := 0; r_tph_ttl := 3600;
     r_tpd_limit := 0; r_tpd_ttl := 86400; r_model_tpm_limit := 0; r_model_tpm_ttl := 60;
     r_allow_token_overflow := false; r_window_ids := Some wids; r_skip_freeze_checks := false |}.
Definition dK := default no_keys (make_keys conf day_args wids).
Definition dA := make_argv day_args wids (sec 1700000000).
Definition dr := reserve_script dK dA s0.

Lemma dK_wf : keys_wf dK.
Proof. unfold keys_wf. apply (bool_decide_unpack _). by vm_compute. Qed.
Lemma dA_wf : argv_wf dA.
Proof. split; [apply rid_ok_1 | done..]. Qed.

Lemma rpd_reader_blind_witness :
  (exists m, holds (view dr.2 (k_rpd dK)) m /\ m !! "lease:boot:1" = Some (1, Reserved)) /\
  run (get_account_rpd_used conf "account:p:u") dr.2 = (Ret (0, 0), dr.2).
Proof.
  apply (rpd_reader_blind conf day_args wids (sec 1700000000) dK s0 dr.1 dr.2 L0 eq_refl eq_refl eq_refl dK_wf dA_wf);
    [done | by apply (bool_decide_unpack _) | intros k _; apply holds_absent | done
    | apply surjective_pairing | by vm_compute].
Defined.
End CountersSample.
