(* ===== verification/Json.v ===== *)
(** JSON text: the part of Python's json module the limits code uses
    (dumps of string dicts with ensure_ascii off, loads of objects), and
    Python's [float] as a recogniser.  Strings are UTF-8 bytes. *)
From S2P Require Import Prelude.

Inductive json :=
| JNull | JBool (b : bool) | JNum (text : string) | JStr (s : string)
| JArr (l : list json) | JObj (d : list (string * json)).

Definition DQ : ascii := "034"%char.
Definition BS : ascii := "092"%char.

(** ** Writing strings *)

Definition hex_digit (n : nat) : ascii :=
  ascii_of_nat (if (n <? 10)%nat then 48 + n else 87 + n)%nat.

(** [json.encoder.ESCAPE_DCT], and [\u00XX] for the other control characters. *)
Definition escape (c : ascii) : string :=
  if decide (c = DQ) then String BS (String DQ "")
  else if decide (c = BS) then String BS (String BS "")
  else if decide (c = "008"%char) then String BS "b"
  else if decide (c = "012"%char) then String BS "f"
  else if decide (c = "010"%char) then String BS "n"
  else if decide (c = "013"%char) then String BS "r"
  else if decide (c = "009"%char) then String BS "t"
  else if (nat_of_ascii c <? 32)%nat
  then String BS ("u00" +++ String (hex_digit (nat_of_ascii c / 16)) (String (hex_digit (nat_of_ascii c mod 16)) ""))
  else String c "".

Fixpoint escape_all (s : string) : string :=
  match s with EmptyString => EmptyString | String c s' => escape c +++ escape_all s' end.

Definition quote (s : string) : string := String DQ (escape_all s +++ String DQ "").

(** [json.dumps(d, ensure_ascii=False)] on string values: separators ", " and ": ". *)
Fixpoint dump_members (d : list (string * string)) : string :=
  match d with
  | [] => "}"
  | [(k, v)] => quote k +++ ": " +++ quote v +++ "}"
  | (k, v) :: d' => quote k +++ ": " +++ quote v +++ ", " +++ dump_members d'
  end.
Definition dumps (d : list (string * string)) : string := "{" +++ dump_members d.

(** ** Reading *)

Definition json_space (c : ascii) : bool :=
  bool_decide (c = " "%char) || bool_decide (c = "009"%char) || bool_decide (c = "010"%char) || bool_decide (c = "013"%char).
Fixpoint skip_ws (s : string) : string :=
  match s with String c s' => if json_space c then skip_ws s' else s | EmptyString => EmptyString end.

Definition hex_value (c : ascii) : option nat :=
  let n := nat_of_ascii c in
  if (48 <=? n)%nat && (n <=? 57)%nat then Some (n - 48)%nat
  else if (97 <=? n)%nat && (n <=? 102)%nat then Some (n - 87)%nat
  else if (65 <=? n)%nat && (n <=? 70)%nat then Some (n - 55)%nat
  else None.

(** UTF-8 bytes of a code point below 2^16 (escaped surrogates are not recombined). *)
Definition utf8 (n : nat) (rest : string) : string :=
  if (n <? 128)%nat then String (ascii_of_nat n) rest
  else if (n <? 2048)%nat
  then String (ascii_of_nat (192 + n / 64)) (String (ascii_of_nat (128 + n mod 64)) rest)
  else String (ascii_of_nat (224 + n / 4096))
         (String (ascii_of_nat (128 + (n / 64) mod 64)) (String (ascii_of_nat (128 + n mod 64)) rest)).

Definition unescape (e : ascii) : option ascii :=
  if decide (e = DQ) then Some DQ
  else if decide (e = BS) then Some BS
  else if decide (e = "/"%char) then Some "/"%char
  else if decide (e = "b"%char) then Some "008"%char
  else if decide (e = "f"%char) then Some "012"%char
  else if decide (e = "n"%char) then Some "010"%char
  else if decide (e = "r"%char) then Some "013"%char
  else if decide (e = "t"%char) then Some "009"%char
  else None.

(** The rest of a string literal after its opening quote. *)
Fixpoint read_body (s : string) : option (string * string) :=
  match s with
  | EmptyString => None
  | String c s1 =>
      if decide (c = DQ) then Some (EmptyString, s1)
      else if decide (c = BS) then
        match s1 with
        | String e s2 =>
            match unescape e with
            | Some x => '(v, r) ← read_body s2; Some (String x v, r)
            | None =>
                if decide (e = "u"%char) then
                  match s2 with
                  | String h1 (String h2 (String h3 (String h4 s3))) =>
                      a ← hex_value h1; b ← hex_value h2; c' ← hex_value h3; d ← hex_value h4;
                      '(v, r) ← read_body s3;
                      Some (utf8 (a * 4096 + b * 256 + c' * 16 + d) v, r)
                  | _ => None
                  end
                else None
            end
        | EmptyString => None
        end
      else if (nat_of_ascii c <? 32)%nat then None
      else '(v, r) ← read_body s1; Some (String c v, r)
  end.

Definition number_char (c : ascii) : bool :=
  let n := nat_of_ascii c in
  ((48 <=? n)%nat && (n <=? 57)%nat) || bool_decide (c ∈ ["-"; "+"; "."; "e"; "E"]%char).
Fixpoint span_number (s : string) : string * string :=
  match s with
  | String c s' => if number_char c then let '(x, r) := span_number s' in (String c x, r) else (EmptyString, s)
  | EmptyString => (EmptyString, EmptyString)
  end.

Definition json_digit (c : ascii) : bool := let n := nat_of_ascii c in (48 <=? n)%nat && (n <=? 57)%nat.
Fixpoint skip_digits (s : string) : string :=
  match s with String c s' => if json_digit c then skip_digits s' else s | EmptyString => s end.
(** What follows one digit or more. *)
Definition some_digits (s : string) : option string :=
  match s with String c s' => if json_digit c then Some (skip_digits s') else None | EmptyString => None end.
(** The grammar of numbers: sign, integer without a leading zero, fraction, exponent. *)
Definition number_ok (s : string) : bool :=
  let exponent (r : string) : bool :=
    match r with
    | EmptyString => true
    | String c r' =>
        if bool_decide (c ∈ ["e"; "E"]%char)
        then match some_digits match r' with String s r'' => if bool_decide (s ∈ ["+"; "-"]%char) then r'' else r' | _ => r' end with
             | Some EmptyString => true
             | _ => false
             end
        else false
    end in
  let whole := match s with String "-" u => u | _ => s end in
  match (match whole with String "0" u => Some u | _ => some_digits whole end) with
  | Some (String "." r) => match some_digits r with Some r => exponent r | None => false end
  | Some r => exponent r
  | None => false
  end.

(** One value after blanks; [fuel] bounds the nesting and the length. *)
Fixpoint read_value (fuel : nat) (s : string) : option (json * string) :=
  match fuel with
  | O => None
  | S fuel =>
      match skip_ws s with
      | String c r as s0 =>
          if decide (c = DQ) then '(v, r) ← read_body r; Some (JStr v, r)
          else if decide (c = "{"%char) then
            match skip_ws r with
            | String "}" r => Some (JObj [], r)
            | _ => '(d, r) ← read_members fuel r; Some (JObj d, r)
            end
          else if decide (c = "["%char) then
            match skip_ws r with
            | String "]" r => Some (JArr [], r)
            | _ => '(l, r) ← read_items fuel r; Some (JArr l, r)
            end
          else if startswith "null" s0 then Some (JNull, str_drop 4 s0)
          else if startswith "true" s0 then Some (JBool true, str_drop 4 s0)
          else if startswith "false" s0 then Some (JBool false, str_drop 5 s0)
          else if startswith "NaN" s0 then Some (JNum "NaN", str_drop 3 s0)
          else if startswith "Infinity" s0 then Some (JNum "Infinity", str_drop 8 s0)
          else if startswith "-Infinity" s0 then Some (JNum "-Infinity", str_drop 9 s0)
          else let '(x, r) := span_number s0 in if number_ok x then Some (JNum x, r) else None
      | EmptyString => None
      end
  end
with read_members (fuel : nat) (s : string) : option (list (string * json) * string) :=
  match fuel with
  | O => None
  | S fuel =>
      match skip_ws s with
      | String q r =>
          if decide (q = DQ) then
            '(k, r) ← read_body r;
            match skip_ws r with
            | String ":" r =>
                '(v, r) ← read_value fuel r;
                match skip_ws r with
                | String "," r => '(d, r) ← read_members fuel r; Some ((k, v) :: d, r)
                | String "}" r => Some ([(k, v)], r)
                | _ => None
                end
            | _ => None
            end
          else None
      | EmptyString => None
      end
  end
with read_items (fuel : nat) (s : string) : option (list json * string) :=
  match fuel with
  | O => None
  | S fuel =>
      '(v, r) ← read_value fuel s;
      match skip_ws r with
      | String "," r => '(l, r) ← read_items fuel r; Some (v :: l, r)
      | String "]" r => Some ([v], r)
      | _ => None
      end
  end.

(** [json.loads]; the fuel never runs out: every call consumes a character
    (two per nesting level). *)
Definition loads (s : string) : option json :=
  '(v, r) ← read_value (2 * String.length s + 2) s;
  match skip_ws r with EmptyString => Some v | _ => None end.

(** [d.get(k)]: the last binding of a repeated key wins. *)
Fixpoint obj_get (k : string) (d : list (string * json)) : option json :=
  match d with
  | [] => None
  | (k', v) :: d' => match obj_get k d' with Some v' => Some v' | None => if decide (k = k') then Some v else None end
  end.

Example loads_mixed : loads "{ 'a' }" = None. Proof. reflexivity. Qed.
Example loads_numbers :
  loads "-0.5e+3" = Some (JNum "-0.5e+3") /\ loads "-Infinity" = Some (JNum "-Infinity") /\ loads "01" = None /\ loads "1-2" = None /\ loads "1." = None.
Proof. done. Qed.
Example loads_nested :
  loads (String "{" (quote "a" +++ " : [1, null, {}], " +++ quote "b" +++ ":true}"))
  = Some (JObj [("a", JArr [JNum "1"; JNull; JObj []]); ("b", JBool true)]).
Proof. reflexivity. Qed.

(** ** Round trip of string dicts *)

Lemma read_escape c r v r' : read_body r = Some (v, r') -> read_body (escape c +++ r) = Some (String c v, r').
Proof.
  intros Hr. destruct c as [[] [] [] [] [] [] [] []]; simpl; by rewrite Hr.
Qed.

Lemma read_escape_all s r : read_body (escape_all s +++ String DQ r) = Some (s, r).
Proof.
  induction s as [|c s IH]; [done|]. cbn [escape_all]. rewrite append_assoc. by apply read_escape.
Qed.

#[local] Arguments read_body : simpl never.
#[local] Arguments escape_all : simpl never.

Lemma read_value_quote fuel s r : read_value (S fuel) (quote s +++ r) = Some (JStr s, r).
Proof.
  unfold quote. cbn [read_value String.append]. rewrite append_assoc.
  change (skip_ws (String DQ ?x)) with (String DQ x). cbv iota. rewrite decide_True by done.
  change (String DQ "" +++ r) with (String DQ r). by rewrite read_escape_all.
Qed.

(** One step, the nested call kept folded. *)
Lemma read_members_eq fuel s :
  read_members (S fuel) s =
  match skip_ws s with
  | String q r =>
      if decide (q = DQ) then
        '(k, r) ← read_body r;
        match skip_ws r with
        | String ":" r =>
            '(v, r) ← read_value fuel r;
            match skip_ws r with
            | String "," r => '(d, r) ← read_members fuel r; Some ((k, v) :: d, r)
            | String "}" r => Some ([(k, v)], r)
            | _ => None
            end
        | _ => None
        end
      else None
  | EmptyString => None
  end.
Proof. reflexivity. Qed.

Lemma read_members_dump fuel d r :
  d <> [] -> (2 * length d <= fuel)%nat ->
  read_members fuel (dump_members d +++ r) = Some (prod_map id JStr <$> d, r).
Proof.
  revert fuel. induction d as [|[k v] d IH]; intros fuel Hne Hf; [done|].
  simpl in Hf. destruct fuel as [|[|fuel]]; [lia..|].
  assert (forall rest, read_members (S (S fuel)) (quote k +++ ": " +++ quote v +++ rest) =
    match skip_ws rest with
    | String "," r => '(d, r) ← read_members (S fuel) r; Some ((k, JStr v) :: d, r)
    | String "}" r => Some ([(k, JStr v)], r)
    | _ => None
    end) as Hstep.
  { intros rest. rewrite read_members_eq. unfold quote at 1. cbn [String.append]. rewrite append_assoc.
    change (skip_ws (String DQ ?x)) with (String DQ x). cbv iota. rewrite decide_True by done.
    change (String DQ "" +++ ?x) with (String DQ x). rewrite read_escape_all. cbn [mbind option_bind].
    change (skip_ws (String ":" ?x)) with (String ":" x). cbv iota.
    assert (read_value (S fuel) (String " " (quote v +++ rest)) = Some (JStr v, rest)) as ->; [|done].
    exact (read_value_quote fuel v rest). }
  destruct d as [|kv d]; [cbn [dump_members]; by rewrite !append_assoc, Hstep|].
  change (dump_members ((k, v) :: kv :: d)) with
    (quote k +++ ": " +++ quote v +++ ", " +++ dump_members (kv :: d)).
  rewrite !append_assoc, Hstep.
  change (", " +++ ?x) with (String "," (String " " x)).
  change (skip_ws (String "," ?x)) with (String "," x). cbv iota.
  assert (read_members (S fuel) (String " " (dump_members (kv :: d) +++ r))
          = read_members (S fuel) (dump_members (kv :: d) +++ r)) as -> by done.
  rewrite IH; [done | done | simpl in *; lia].
Qed.

Lemma length_escape c : (1 <= String.length (escape c))%nat.
Proof. destruct c as [[] [] [] [] [] [] [] []]; simpl; lia. Qed.

Lemma dump_members_length d : (2 * length d <= String.length (dump_members d))%nat.
Proof.
  induction d as [|[k v] [|kv d] IH]; [simpl; lia | |].
  - simpl. rewrite !length_append. simpl. lia.
  - change (dump_members ((k, v) :: kv :: d)) with
      (quote k +++ ": " +++ quote v +++ ", " +++ dump_members (kv :: d)).
    rewrite !length_append. simpl (length (_ :: _)) in *. simpl (String.length ": "). simpl (String.length ", "). lia.
Qed.

Lemma loads_dumps d : loads (dumps d) = Some (JObj (prod_map id JStr <$> d)).
Proof.
  destruct d as [|kv d]; [done|]. unfold loads, dumps. set (ds := kv :: d).
  change ("{" +++ dump_members ds) with (String "{" (dump_members ds)).
  assert (exists r, dump_members ds = String DQ r) as [r Hr].
  { unfold ds. destruct kv, d as [|? ?]; unfold dump_members, quote; cbn [String.append]; eauto. }
  replace (2 * String.length (String "{" (dump_members ds)) + 2)%nat
    with (S (2 * String.length (dump_members ds) + 3))%nat by (simpl; lia).
  cbn [read_value]. change (skip_ws (String "{" ?x)) with (String "{" x). cbv iota.
  rewrite decide_False, decide_True by done.
  assert (read_members (2 * String.length (dump_members ds) + 3) (dump_members ds)
          = Some (prod_map id JStr <$> ds, "")) as Hm.
  { rewrite <- (append_nil_r (dump_members ds)) at 2. apply read_members_dump; [done|].
    pose proof (dump_members_length ds). lia. }
  rewrite Hr at 1. change (skip_ws (String DQ r)) with (String DQ r). cbv iota.
  change (match DQ with "}"%char => _ | _ => ?x end) with x. by rewrite Hm.
Qed.

(** ** [float(x)] succeeds *)

Definition py_space (c : ascii) : bool :=
  let n := nat_of_ascii c in ((9 <=? n)%nat && (n <=? 13)%nat) || ((28 <=? n)%nat && (n <=? 32)%nat).
Fixpoint lstrip (s : string) : string :=
  match s with String c s' => if py_space c then lstrip s' else s | EmptyString => EmptyString end.

Definition digit (c : ascii) : bool := let n := nat_of_ascii c in (48 <=? n)%nat && (n <=? 57)%nat.

(** The text after the longest digit part: digits with single underscores between them. *)
Fixpoint after_digits (s : string) : string :=
  match s with
  | String c s1 =>
      if digit c then after_digits s1
      else if decide (c = "_"%char) then
        match s1 with String c2 s2 => if digit c2 then after_digits s2 else s | EmptyString => s end
      else s
  | EmptyString => EmptyString
  end.
Definition starts_digit (s : string) : bool := match s with String c _ => digit c | _ => false end.

Definition drop_sign (s : string) : string :=
  match s with String "+" r | String "-" r => r | _ => s end.

Definition lower_char (c : ascii) : ascii :=
  let n := nat_of_ascii c in if (65 <=? n)%nat && (n <=? 90)%nat then ascii_of_nat (n + 32) else c.
Fixpoint lower (s : string) : string :=
  match s with EmptyString => EmptyString | String c s' => String (lower_char c) (lower s') end.

(** What is left after an optional exponent. *)
Definition after_exponent (s : string) : string :=
  match s with
  | String "e" r | String "E" r => let r := drop_sign r in if starts_digit r then after_digits r else s
  | _ => s
  end.

Definition after_number (s : string) : option string :=
  if starts_digit s then
    let r := after_digits s in
    match r with
    | String "." r => Some (after_exponent (if starts_digit r then after_digits r else r))
    | _ => Some (after_exponent r)
    end
  else match s with
       | String "." r => if starts_digit r then Some (after_exponent (after_digits r)) else None
       | _ => None
       end.

Definition blank (s : string) : bool := negb (str_truthy (lstrip s)).

Definition py_float_ok (s : string) : bool :=
  let s := drop_sign (lstrip s) in
  let l := lower s in
  (startswith "infinity" l && blank (str_drop 8 s)) || (startswith "inf" l && blank (str_drop 3 s)) ||
  (startswith "nan" l && blank (str_drop 3 s)) ||
  match after_number s with Some r => blank r | None => false end.

Example float_int_ex : py_float_ok " 429 " = true. Proof. reflexivity. Qed.
Example float_exp : py_float_ok "-1_0.5e+3" = true. Proof. reflexivity. Qed.
Example float_text : py_float_ok "rate limited" = false. Proof. reflexivity. Qed.
Example float_nan : py_float_ok "NaN" = true. Proof. reflexivity. Qed.
Example float_dots : py_float_ok "1.2.3" = false. Proof. reflexivity. Qed.
