(* ===== verification/Cooldown.v ===== *)
(** limits/backend.py, the freeze records of [RedisLimitBackend]: one key per
    frozen account or account and model, whose TTL decides, and index sets
    that say where to look. *)
From S2P Require Import Prelude Redis Client Windows Reservation Json.

(** ** Keys *)

Definition _INDEX_PROVIDERS := "limit:cooldown_index:providers".
Definition MODEL_SEP_CHAR : ascii := "031"%char.
Definition _MODEL_SEP : string := String MODEL_SEP_CHAR "".
Definition _index_accounts_key (provider : string) := "limit:cooldown_index:" +++ provider +++ ":accounts".
Definition _index_models_key (provider : string) := "limit:cooldown_index:" +++ provider +++ ":models".

Definition cooldown_key (provider username : string) : string := "limit:cooldown:" +++ provider +++ ":" +++ username.
Definition model_cooldown_key (provider username model : string) : string :=
  "limit:cooldown:" +++ provider +++ ":" +++ username +++ ":model:" +++ model.
Definition model_member (username model : string) : string := username +++ _MODEL_SEP +++ model.

(** ** Reading a stored value *)

(** What the readers return for one frozen subject; [None] expiry is a
    permanent freeze. *)
Record cooldown_info := CooldownInfo {
  ci_until : option Z; ci_remaining : option Z; ci_reason : string; ci_category : string; ci_permanent : bool;
}.

(** A row of the batch readers: expiry in whole seconds. *)
Record cooldown_row := CooldownRow {
  cr_model : string; cr_remaining : option Z; cr_until : option Z; cr_reason : string; cr_permanent : bool;
}.

(** A number literal without a non-zero digit in its mantissa. *)
Fixpoint num_zero (s : string) : bool :=
  match s with
  | EmptyString => true
  | String c s' =>
      if bool_decide (c ∈ ["e"; "E"]%char) then true
      else (negb (digit c) || bool_decide (c = "0"%char)) && num_zero s'
  end.

Section text.
(** Python's [str] of a decoded JSON value that is not a string. *)
Variable py_str : json -> string.

(** [str(data.get(name) or "")] *)
Definition text_field (d : list (string * json)) (name : string) : string :=
  match obj_get name d with
  | None | Some JNull | Some (JBool false) | Some (JArr []) | Some (JObj []) => ""
  | Some (JStr s) => s
  | Some (JNum n as v) => if num_zero n then "" else py_str v
  | Some v => py_str v
  end.

Definition json_field (value name : string) : string :=
  match loads value with Some (JObj d) => text_field d name | _ => "" end.

(** The reason of an account freeze: JSON, a legacy timestamp, or the text itself. *)
Definition parse_reason (value : string) : string :=
  if startswith "{" (lstrip value) then json_field value "reason"
  else if py_float_ok value then "" else value.

Definition parse_category (value : string) : string :=
  if startswith "{" (lstrip value) then json_field value "category" else "".
End text.

(** [str(raw or "")] *)
Definition raw_text (raw : option string) : string := default "" raw.

Section cooldown.
Context {R : Type} `{Redis R}.
Variables (conf : redis_conf) (py_str : json -> string).

(** [try: m / except Exception: h] *)
Definition catch {A} (m h : M R A) : M R A := fun e =>
  match m e with
  | (Ret a, e') => (Ret a, e')
  | (Exc, e') => h e'
  end.

(** ** Index *)

Definition _index_mark (provider username : string) (model : option string) : M R unit :=
  with_redis conf tt (
    if negb (str_truthy provider) || negb (str_truthy username) then mret tt else
    attempt tt (
      match model with
      | None => native_sadd (_key conf (_index_accounts_key provider)) [username]
      | Some m =>
          if str_truthy m
          then native_sadd (_key conf (_index_models_key provider)) [model_member username m]
          else mret tt
      end;;
      native_sadd (_key conf _INDEX_PROVIDERS) [provider])).

Definition _index_prune_provider (provider : string) : M R unit :=
  with_redis conf tt (
    if negb (str_truthy provider) then mret tt else
    attempt tt (
      acc ← native_scard (_key conf (_index_accounts_key provider));
      mdl ← native_scard (_key conf (_index_models_key provider));
      if (acc =? 0) && (mdl =? 0) then native_srem (_key conf _INDEX_PROVIDERS) [provider] else mret tt)).

Definition _index_unmark_account (provider username : string) : M R unit :=
  with_redis conf tt (
    if negb (str_truthy provider) || negb (str_truthy username) then mret tt else
    attempt tt (
      native_srem (_key conf (_index_accounts_key provider)) [username];;
      members ← native_smembers (_key conf (_index_models_key provider));
      let to_remove := filter (fun m => startswith (username +++ _MODEL_SEP) m = true) members in
      native_srem (_key conf (_index_models_key provider)) to_remove;;
      _index_prune_provider provider)).

Definition _index_unmark_model (provider username model : string) : M R unit :=
  with_redis conf tt (
    if negb (str_truthy provider) || negb (str_truthy username) || negb (str_truthy model) then mret tt else
    attempt tt (
      native_srem (_key conf (_index_models_key provider)) [model_member username model];;
      _index_prune_provider provider)).

Definition _index_clear_provider (provider : string) : M R unit :=
  with_redis conf tt (
    if negb (str_truthy provider) then mret tt else
    attempt tt (
      jdbc_delete conf [_index_accounts_key provider];;
      jdbc_delete conf [_index_models_key provider];;
      native_srem (_key conf _INDEX_PROVIDERS) [provider])).

(** ** Account freezes *)

Definition cooldown_value (reason category : string) : string :=
  if str_truthy category then dumps [("reason", reason); ("category", category)] else reason.

(** [seconds = None] is permanent: no TTL. *)
Definition set_account_cooldown (provider username : string) (seconds : option Z) (reason category : string)
    : M R unit :=
  with_redis conf tt (
    if match seconds with Some n => n <=? 0 | None => false end then mret tt else
    attempt tt (
      jdbc_set conf (cooldown_key provider username) (cooldown_value reason category) seconds;;
      _index_mark provider username None)).

Definition get_account_cooldown_info (provider username : string) (now : Z) : M R (option cooldown_info) :=
  with_redis conf None (attempt None (
    raw ← jdbc_get conf (cooldown_key provider username);
    ttl ← native_ttl (_key conf (cooldown_key provider username));
    let value := raw_text raw in
    if ttl =? -1 then
      mret (Some (CooldownInfo None None (parse_reason py_str value) (parse_category py_str value) true))
    else if ttl <=? 0 then mret None
    else mret (Some (CooldownInfo (Some (now + sec ttl)) (Some ttl)
                       (parse_reason py_str value) (parse_category py_str value) false)))).

Definition get_account_cooldown_until (provider username : string) (now : Z) : M R (option Z) :=
  info ← get_account_cooldown_info provider username now;
  mret (info ≫= ci_until).

Definition get_account_cooldown_remaining (provider username : string) (now : Z) : M R Z :=
  info ← get_account_cooldown_info provider username now;
  match info with
  | None => mret 0
  | Some i => if ci_permanent i then mret (-1) else of_option (ci_remaining i)
  end.

(** Delete a list of keys in one call; on an exception, one by one. *)
Fixpoint delete_each (keys : list string) : M R Z :=
  match keys with
  | [] => mret 0
  | k :: keys' =>
      n ← attempt 0 (jdbc_delete conf [k];; mret 1);
      n' ← delete_each keys';
      mret (n + n')
  end.
Definition delete_keys (keys : list string) : M R Z :=
  match keys with
  | [] => mret 0
  | _ => catch (jdbc_delete conf keys;; mret (Z.of_nat (length keys))) (delete_each keys)
  end.

(** Every key of a pattern, back to the client's names. *)
Definition delete_matching (pattern : string) : M R Z :=
  attempt 0 (
    keys ← native_scan (_key conf pattern);
    delete_keys (_bare_key conf <$> keys)).

Definition clear_account_cooldown (provider username : string) : M R unit :=
  with_redis conf tt (
    attempt tt (jdbc_delete conf [cooldown_key provider username]);;
    _ ← delete_matching (cooldown_key provider username +++ ":model:" +++ "*");
    _index_unmark_account provider username).

Definition clear_all_provider_cooldowns (provider : string) : M R Z :=
  with_redis conf 0 (
    deleted ← delete_matching ("limit:cooldown:" +++ provider +++ ":" +++ "*");
    _index_clear_provider provider;;
    mret deleted).

(** ** Account and model freezes *)

Definition set_account_model_cooldown (provider username model : string) (seconds : option Z) (reason : string)
    : M R unit :=
  with_redis conf tt (
    if match seconds with Some n => n <=? 0 | None => false end then mret tt else
    attempt tt (
      jdbc_set conf (model_cooldown_key provider username model) reason seconds;;
      _index_mark provider username (Some model))).

Definition get_account_model_cooldown_info (provider username model : string) (now : Z) : M R (option cooldown_info) :=
  with_redis conf None (attempt None (
    raw ← jdbc_get conf (model_cooldown_key provider username model);
    ttl ← native_ttl (_key conf (model_cooldown_key provider username model));
    if ttl =? -1 then mret (Some (CooldownInfo None None (raw_text raw) "" true))
    else if ttl <=? 0 then mret None
    else mret (Some (CooldownInfo (Some (now + sec ttl)) (Some ttl) (raw_text raw) "" false)))).

Definition clear_account_model_cooldown (provider username model : string) : M R unit :=
  with_redis conf tt (
    attempt tt (jdbc_delete conf [model_cooldown_key provider username model]);;
    _index_unmark_model provider username model).

(** [int(info["remaining"])]: None is a TypeError. *)
Definition get_account_model_cooldown_remaining (provider username model : string) (now : Z) : M R Z :=
  info ← get_account_model_cooldown_info provider username model now;
  match info with
  | None => mret 0
  | Some i => of_option (ci_remaining i)
  end.

(** ** Batch readers *)

(** One pipeline: TTL and GET of each key. *)
Definition read_keys (keys : list string) : M R (list (Z * option string)) :=
  query (fun s => (fun k => (rd_ttl s k, rd_get s k)) <$> keys).

(** A member of the model index, split at its separator; both parts non-empty. *)
Definition split_member (m : string) : option (string * string) :=
  '(u, mo) ← cut_at MODEL_SEP_CHAR m;
  if str_truthy u && str_truthy mo then Some (u, mo) else None.

(** One reply of the model reader: a row, or a stale member. *)
Definition model_reply (now : Z) (acc : list (string * list cooldown_row) * list string)
    (x : (string * string) * (Z * option string)) : list (string * list cooldown_row) * list string :=
  let '((u, mo), (ttl, raw)) := x in
  let '(result, stale) := acc in
  if ttl =? -1 then (dict_append u (CooldownRow mo None None (raw_text raw) true) result, stale)
  else if ttl <=? 0 then (result, stale ++ [model_member u mo])
  else (dict_append u (CooldownRow mo (Some ttl) (Some ((now + sec ttl) / sec 1)) (raw_text raw) false) result, stale).

Definition batch_get_provider_model_cooldowns (provider : string) (now : Z)
    : M R (list (string * list cooldown_row)) :=
  with_redis conf [] (
    if negb (str_truthy provider) then mret [] else
    attempt [] (
      members ← native_smembers (_key conf (_index_models_key provider));
      let entries := omap split_member members in
      if decide (entries = []) then mret [] else
      replies ← read_keys ((fun e => _key conf (model_cooldown_key provider e.1 e.2)) <$> entries);
      let '(result, stale) := foldl (model_reply now) ([], []) (zip entries replies) in
      (if decide (stale = []) then mret tt else
       attempt tt (
         native_srem (_key conf (_index_models_key provider)) stale;;
         _index_prune_provider provider));;
      mret result)).

Definition account_reply (now : Z) (acc : list (string * cooldown_info)) (x : string * (Z * option string))
    : list (string * cooldown_info) :=
  let '(u, (ttl, raw)) := x in
  let reason := parse_reason py_str (raw_text raw) in
  if ttl =? -1 then dict_set u (CooldownInfo None None reason "" true) acc
  else if ttl <=? 0 then acc
  else dict_set u (CooldownInfo (Some (now + sec ttl)) (Some ttl) reason "" false) acc.

Definition batch_get_account_cooldowns (provider : string) (usernames : list string) (now : Z)
    : M R (list (string * cooldown_info)) :=
  with_redis conf [] (
    if decide (usernames = []) then mret [] else
    attempt [] (
      replies ← read_keys ((fun u => _key conf (cooldown_key provider u)) <$> usernames);
      mret (foldl (account_reply now) [] (zip usernames replies)))).

(** ** The overview

    An index entry: provider, username, and the model of a model freeze. *)
Record entry_ref := EntryRef { en_provider : string; en_username : string; en_model : option string }.

Definition entry_key (e : entry_ref) : string :=
  match en_model e with
  | None => cooldown_key (en_provider e) (en_username e)
  | Some m => model_cooldown_key (en_provider e) (en_username e) m
  end.

Record overview := Overview {
  ov_accounts : list (string * list (string * cooldown_row));
  ov_models : list (string * list (string * list cooldown_row));
  ov_stale_accounts : list (string * list string);
  ov_stale_models : list (string * list string);
}.

Definition provider_entries (provider : string) (acc_members mdl_members : list string) : list entry_ref :=
  ((fun u => EntryRef provider u None) <$> filter (fun u => str_truthy u = true) acc_members) ++
  ((fun um => EntryRef provider um.1 (Some um.2)) <$> omap split_member mdl_members).

(** No case for -1 here: a key without TTL counts as expired. *)
Definition overview_reply (now : Z) (o : overview) (x : entry_ref * (Z * option string)) : overview :=
  let '(en, (ttl, raw)) := x in
  let p := en_provider en in
  if ttl <=? 0 then
    match en_model en with
    | None => Overview (ov_accounts o) (ov_models o)
                (dict_append p (en_username en) (ov_stale_accounts o)) (ov_stale_models o)
    | Some m => Overview (ov_accounts o) (ov_models o) (ov_stale_accounts o)
                  (dict_append p (model_member (en_username en) m) (ov_stale_models o))
    end
  else
    let until := Some ((now + sec ttl) / sec 1) in
    match en_model en with
    | None =>
        let row := CooldownRow "" (Some ttl) until (parse_reason py_str (raw_text raw)) false in
        Overview (dict_set p (dict_set (en_username en) row (default [] (dict_get p (ov_accounts o)))) (ov_accounts o))
          (ov_models o) (ov_stale_accounts o) (ov_stale_models o)
    | Some m =>
        let row := CooldownRow m (Some ttl) until (raw_text raw) false in
        Overview (ov_accounts o)
          (dict_set p (dict_append (en_username en) row (default [] (dict_get p (ov_models o)))) (ov_models o))
          (ov_stale_accounts o) (ov_stale_models o)
    end.

Fixpoint srem_each (index_key : string -> string) (stale : list (string * list string)) : M R unit :=
  match stale with
  | [] => mret tt
  | (p, ms) :: stale' => attempt tt (native_srem (_key conf (index_key p)) ms);; srem_each index_key stale'
  end.
Fixpoint prune_each (providers : list string) : M R unit :=
  match providers with
  | [] => mret tt
  | p :: ps => _index_prune_provider p;; prune_each ps
  end.

Definition scan_all_cooldowns (now : Z)
    : M R (list (string * list (string * cooldown_row)) * list (string * list (string * list cooldown_row))) :=
  with_redis conf ([], []) (attempt ([], []) (
    providers_raw ← native_smembers (_key conf _INDEX_PROVIDERS);
    let providers := filter (fun p => str_truthy p = true) providers_raw in
    if decide (providers = []) then mret ([], []) else
    indexes ← query (fun s => (fun p =>
      (p, (rd_smembers s (_key conf (_index_accounts_key p)), rd_smembers s (_key conf (_index_models_key p))))) <$> providers);
    let entries := indexes ≫= (fun x => provider_entries x.1 x.2.1 x.2.2) in
    if bool_decide (length entries = 0%nat) then mret ([], []) else
    replies ← read_keys ((fun en => _key conf (entry_key en)) <$> entries);
    let o := foldl (overview_reply now) (Overview [] [] [] []) (zip entries replies) in
    srem_each _index_accounts_key (ov_stale_accounts o);;
    srem_each _index_models_key (ov_stale_models o);;
    prune_each (elements (list_to_set ((ov_stale_accounts o).*1 ++ (ov_stale_models o).*1) : gset string));;
    mret (ov_accounts o, ov_models o))).
End cooldown.
