(* ===== verification/CooldownProps.v ===== *)
(** What the freeze records guarantee: round trips, complete clearing, and the
    two readers that mishandle a permanent freeze. *)
From S2P Require Import Prelude Redis MapRedis Client Windows Reservation Json Cooldown.

(** ** Keys never collide *)

Lemma cooldown_not_index p u k :
  k ∈ [_INDEX_PROVIDERS; _index_accounts_key p; _index_models_key p] -> cooldown_key p u <> k.
Proof.
  rewrite !elem_of_cons. unfold cooldown_key, _INDEX_PROVIDERS, _index_accounts_key, _index_models_key.
  intros [->|[->|[->|[]%not_elem_of_nil]]]; by simpl.
Qed.

Lemma model_cooldown_split p u m : model_cooldown_key p u m = cooldown_key p u +++ ":model:" +++ m.
Proof. unfold model_cooldown_key, cooldown_key. by rewrite !append_assoc. Qed.

Lemma index_keys_ne p :
  _index_accounts_key p <> _index_models_key p /\ _index_accounts_key p <> _INDEX_PROVIDERS /\
  _index_models_key p <> _INDEX_PROVIDERS.
Proof.
  unfold _index_accounts_key, _index_models_key, _INDEX_PROVIDERS. split_and!.
  - intros Heq. rewrite !append_inj_l in Heq. by rewrite <- ?append_assoc in Heq; simpl in Heq.
  - intros Heq. change ("limit:cooldown_index:" +++ p +++ ":accounts" = "limit:cooldown_index:" +++ "providers") in Heq.
    rewrite append_inj_l in Heq. apply (f_equal (str_mem ":"%char)) in Heq. rewrite str_mem_append in Heq.
    simpl in Heq. by rewrite orb_true_r in Heq.
  - intros Heq. change ("limit:cooldown_index:" +++ p +++ ":models" = "limit:cooldown_index:" +++ "providers") in Heq.
    rewrite append_inj_l in Heq. apply (f_equal (str_mem ":"%char)) in Heq. rewrite str_mem_append in Heq.
    simpl in Heq. by rewrite orb_true_r in Heq.
Qed.

Lemma _key_append conf a b : _key conf (a +++ b) = _key conf a +++ b.
Proof. unfold _key. destruct (prefix_key conf) as [p|]; [|done]. case_match; by rewrite ?append_assoc. Qed.

Lemma get_bare_prefixed conf k0 k :
  conf_ok conf = true -> startswith (_key conf k0) k = true -> get_key conf (_bare_key conf k) = k.
Proof.
  intros Hconf [t ->]%startswith_spec. rewrite <- _key_append.
  by rewrite _bare_key_key, <- _key_get_key.
Qed.

Section props.
Context {R : Type} `{RedisLaws R}.
Variables (conf : redis_conf) (py_str : json -> string).
Hypotheses (Hconf : conf_ok conf = true) (Hcon : connected conf = true).
Implicit Types (s : R).

Abbreviation idx_providers := (_key conf _INDEX_PROVIDERS).
Abbreviation idx_accounts p := (_key conf (_index_accounts_key p)).
Abbreviation idx_models p := (_key conf (_index_models_key p)).

(** ** Methods on a server that answers *)

Lemma index_mark_healthy p u mo s :
  exists s', _index_mark conf p u mo (REnv s []) = (Ret tt, REnv s' []) /\
    forall k, k ∉ [idx_providers; idx_accounts p; idx_models p] -> view s' k = view s k.
Proof.
  unfold _index_mark. rewrite with_redis_on by done. case_match; [by exists s|].
  assert (exists s1, (match mo with
      | None => native_sadd (idx_accounts p) [u]
      | Some m => if str_truthy m then native_sadd (idx_models p) [model_member u m] else mret tt
      end (REnv s [])) = (Ret tt, REnv s1 []) /\
      forall k, k ∉ [idx_providers; idx_accounts p; idx_models p] -> view s1 k = view s k) as (s1 & E1 & F1).
  { destruct mo as [m|]; [destruct (str_truthy m); [|by exists s]|];
      eexists; (split; [apply healthy_command|]); intros k Hk; rewrite !not_elem_of_cons in Hk;
      apply sadd_ne; naive_solver. }
  exists (rd_sadd idx_providers [p] s1). split.
  - apply attempt_ret. erewrite bind_ret by exact E1. apply healthy_command.
  - intros k Hk. rewrite sadd_ne by (rewrite !not_elem_of_cons in Hk; naive_solver). by apply F1.
Qed.

Lemma prune_healthy p s :
  exists s', _index_prune_provider conf p (REnv s []) = (Ret tt, REnv s' []) /\
    forall k, k <> idx_providers -> view s' k = view s k.
Proof.
  unfold _index_prune_provider. rewrite with_redis_on by done. case_match; [by exists s|].
  destruct ((rd_scard s (idx_accounts p) =? 0) && (rd_scard s (idx_models p) =? 0)) eqn:E.
  - exists (rd_srem idx_providers [p] s). split; [|intros k Hk; by apply srem_ne].
    apply attempt_ret. unfold native_scard. erewrite bind_ret by apply healthy_query.
    erewrite bind_ret by apply healthy_query. rewrite E. apply healthy_command.
  - exists s. split; [|done].
    apply attempt_ret. unfold native_scard. erewrite bind_ret by apply healthy_query.
    erewrite bind_ret by apply healthy_query. by rewrite E.
Qed.

Lemma set_healthy key value secs s :
  jdbc_set conf key value secs (REnv s []) = (Ret tt, REnv (rd_set (_key conf key) value secs s) []).
Proof. unfold jdbc_set. by rewrite healthy_command, <- _key_get_key. Qed.

(** A freeze of positive or unlimited length is stored with that TTL. *)
Lemma set_cooldown_healthy p u secs reason cat s :
  (forall n, secs = Some n -> 0 < n) ->
  exists s', set_account_cooldown conf p u secs reason cat (REnv s []) = (Ret tt, REnv s' []) /\
    view s' (_key conf (cooldown_key p u)) = Some (Entry (RString (cooldown_value reason cat)) secs).
Proof.
  intros Hsecs. unfold set_account_cooldown. rewrite with_redis_on by done.
  set (s1 := rd_set (_key conf (cooldown_key p u)) (cooldown_value reason cat) secs s).
  destruct (index_mark_healthy p u None s1) as (s2 & E2 & F2).
  exists s2. split.
  - assert (match secs with Some n => n <=? 0 | None => false end = false) as ->.
    { destruct secs as [n|]; [|done]. apply Z.leb_gt. by apply Hsecs. }
    apply attempt_ret. erewrite bind_ret by apply set_healthy. exact E2.
  - rewrite F2; [by apply set_law|].
    rewrite !not_elem_of_cons. split_and!; [| | |apply not_elem_of_nil];
      intros Heq%key_inj; (eapply cooldown_not_index; [|exact Heq]); set_solver.
Qed.

Lemma get_cooldown_at p u now s value secs :
  (forall n, secs = Some n -> 0 < n) ->
  view s (_key conf (cooldown_key p u)) = Some (Entry (RString value) secs) ->
  get_account_cooldown_info conf py_str p u now (REnv s []) =
    (Ret (Some (CooldownInfo (Z.add now ∘ sec <$> secs) secs (parse_reason py_str value)
                  (parse_category py_str value) (bool_decide (secs = None)))), REnv s []).
Proof.
  intros Hsecs Hv. unfold get_account_cooldown_info. rewrite with_redis_on by done. apply attempt_ret.
  unfold jdbc_get. erewrite bind_ret by apply healthy_query. rewrite <- _key_get_key by done.
  rewrite (get_law _ _ _ _ Hv). unfold native_ttl. erewrite bind_ret by apply healthy_query.
  rewrite ttl_law, Hv. cbn [ttl_reply e_ttl default]. destruct secs as [n|]; [|done].
  specialize (Hsecs n eq_refl). cbn [default id]. rewrite (proj2 (Z.eqb_neq n (-1))), (proj2 (Z.leb_gt n 0)) by lia. done.
Qed.

Lemma cooldown_value_text reason cat :
  (cat = "" -> startswith "{" (lstrip reason) = false /\ py_float_ok reason = false) ->
  parse_reason py_str (cooldown_value reason cat) = reason /\ parse_category py_str (cooldown_value reason cat) = cat.
Proof.
  intros Hr. unfold cooldown_value. destruct cat as [|c cat].
  - destruct (Hr eq_refl) as [H1 H2]. cbn [str_truthy]. unfold parse_reason, parse_category. by rewrite H1, H2.
  - simpl str_truthy. unfold parse_reason, parse_category, json_field. rewrite loads_dumps. done.
Qed.

(** A freeze is read back as it was written: expiry, permanence, category and
    reason, through the JSON value or the plain text one (a plain reason must
    not look like JSON or like a number). *)
Lemma cooldown_roundtrip p u secs reason cat now s :
  (forall n, secs = Some n -> 0 < n) ->
  (cat = "" -> startswith "{" (lstrip reason) = false /\ py_float_ok reason = false) ->
  exists s', run (set_account_cooldown conf p u secs reason cat) s = (Ret tt, s') /\
    run (get_account_cooldown_info conf py_str p u now) s' =
      (Ret (Some (CooldownInfo (Z.add now ∘ sec <$> secs) secs reason cat (bool_decide (secs = None)))), s').
Proof.
  intros Hsecs Hr. destruct (set_cooldown_healthy p u secs reason cat s Hsecs) as (s' & E & Hv).
  exists s'. split; [by apply run_eq|]. apply run_eq. rewrite (get_cooldown_at p u now s' _ _ Hsecs Hv).
  destruct (cooldown_value_text reason cat Hr) as [-> ->]. done.
Qed.

(** A plain reason that Python's [float] accepts ("429") is read back empty:
    the reader takes it for a legacy timestamp. *)
Lemma numeric_reason_lost p u secs reason now s :
  (forall n, secs = Some n -> 0 < n) ->
  startswith "{" (lstrip reason) = false -> py_float_ok reason = true ->
  exists s' info, run (set_account_cooldown conf p u secs reason "") s = (Ret tt, s') /\
    run (get_account_cooldown_info conf py_str p u now) s' = (Ret (Some info), s') /\ ci_reason info = "".
Proof.
  intros Hsecs Hb Hf. destruct (set_cooldown_healthy p u secs reason "" s Hsecs) as (s' & E & Hv).
  exists s'. eexists. split; [by apply run_eq|]. split; [apply run_eq; by apply (get_cooldown_at p u now s' _ _ Hsecs Hv)|].
  change (cooldown_value reason "") with reason. cbn [ci_reason]. unfold parse_reason. by rewrite Hb, Hf.
Qed.

(** Asking the remaining seconds of a permanent account-and-model freeze
    raises (int of None), where the account version answers -1. *)
Lemma model_remaining_permanent_raises p u mo reason now s :
  view s (_key conf (model_cooldown_key p u mo)) = Some (Entry (RString reason) None) ->
  run (get_account_model_cooldown_remaining conf p u mo now) s = (Exc, s) /\
  (view s (_key conf (cooldown_key p u)) = Some (Entry (RString reason) None) ->
   run (get_account_cooldown_remaining conf py_str p u now) s = (Ret (-1), s)).
Proof.
  intros Hv. split.
  - unfold run, get_account_model_cooldown_remaining, get_account_model_cooldown_info. rewrite with_redis_on by done.
    erewrite bind_ret.
    2:{ apply attempt_ret. unfold jdbc_get. erewrite bind_ret by apply healthy_query.
        unfold native_ttl. erewrite bind_ret by apply healthy_query. rewrite ttl_law, Hv. reflexivity. }
    done.
  - intros Ha. apply run_eq. unfold get_account_cooldown_remaining.
    erewrite bind_ret by (apply (get_cooldown_at p u now s reason None); [done | exact Ha]). done.
Qed.

(** ** Clearing *)

Lemma foldl_del keys s k :
  view (foldl (fun s k => rd_del (get_key conf k) s) s keys) k =
    if decide (k ∈ get_key conf <$> keys) then None else view s k.
Proof.
  revert s. induction keys as [|k' keys IH]; intros s; [by rewrite decide_False by set_solver|].
  cbn [foldl]. rewrite IH. cbn [fmap list_fmap]. destruct (decide (k ∈ get_key conf <$> keys)) as [Hin|Hin].
  - rewrite decide_True; [done|]. apply elem_of_cons. by right.
  - destruct (decide (k = get_key conf k')) as [->|Hne].
    + rewrite del_law, decide_True; [done|]. apply elem_of_cons. by left.
    + rewrite del_ne, decide_False by (rewrite ?elem_of_cons; naive_solver). done.
Qed.

Lemma delete_matching_healthy p0 s :
  glob_free (_key conf p0) = true ->
  exists n s', delete_matching conf (p0 +++ "*") (REnv s []) = (Ret n, REnv s' []) /\
    forall k, view s' k = if startswith (_key conf p0) k then None else view s k.
Proof.
  intros Hg. unfold delete_matching. rewrite _key_append.
  set (ks := rd_scan s (_key conf p0 +++ "*")).
  assert (forall k, k ∈ ks <-> startswith (_key conf p0) k = true /\ is_Some (view s k)) as Hks.
  { intros k. by apply scan_law. }
  assert (get_key conf <$> (_bare_key conf <$> ks) = ks) as Hback.
  { rewrite <- list_fmap_compose. rewrite <- (list_fmap_id ks) at 2. apply list_fmap_ext.
    intros i k Hk. apply list_elem_of_lookup_2, Hks in Hk as [Hk _]. by apply (get_bare_prefixed conf p0). }
  set (bs := _bare_key conf <$> ks) in *.
  exists (Z.of_nat (length bs)), (foldl (fun s k => rd_del (get_key conf k) s) s bs). split.
  - apply attempt_ret. unfold native_scan. erewrite bind_ret by apply healthy_query. fold ks bs.
    unfold delete_keys. destruct bs as [|b bs']; [done|].
    unfold catch. erewrite bind_ret by (unfold jdbc_delete; apply healthy_command). done.
  - intros k. rewrite foldl_del, Hback. specialize (Hks k).
    destruct (startswith (_key conf p0) k); case_decide as Hd; try done.
    + destruct (view s k) eqn:E; [|done]. exfalso. apply Hd, Hks. eauto.
    + by apply Hks in Hd as [? _].
Qed.

Lemma unmark_account_healthy p u s x y :
  str_truthy p = true -> str_truthy u = true ->
  as_set (view s (idx_accounts p)) = Some x -> as_set (view s (idx_models p)) = Some y ->
  exists s', _index_unmark_account conf p u (REnv s []) = (Ret tt, REnv s' []) /\
    (forall k, k ∉ [idx_providers; idx_accounts p; idx_models p] -> view s' k = view s k) /\
    as_set (view s' (idx_accounts p)) = Some (x ∖ {[u]}) /\
    exists y', as_set (view s' (idx_models p)) = Some y' /\
      forall m, m ∈ y' <-> m ∈ y /\ startswith (u +++ _MODEL_SEP) m = false.
Proof.
  intros Hp Hu Hx Hy. destruct (index_keys_ne p) as (N1 & N2 & N3).
  assert (idx_accounts p <> idx_models p /\ idx_accounts p <> idx_providers /\ idx_models p <> idx_providers)
    as (M1 & M2 & M3) by (split_and!; by intros ?%key_inj).
  unfold _index_unmark_account. rewrite with_redis_on, Hp, Hu by done. cbn [negb orb].
  set (s1 := rd_srem (idx_accounts p) [u] s).
  assert (view s1 (idx_models p) = view s (idx_models p)) as Hv1 by (unfold s1; by rewrite srem_ne).
  set (rem := filter (fun m => startswith (u +++ _MODEL_SEP) m = true) (rd_smembers s1 (idx_models p))).
  assert (forall m, m ∈ rem <-> m ∈ y /\ startswith (u +++ _MODEL_SEP) m = true) as Hrem.
  { intros m. unfold rem. rewrite list_elem_of_filter.
    rewrite (proj2 (smembers_law _ _ y ltac:(by rewrite Hv1)) m). tauto. }
  assert (exists s2, native_srem (idx_models p) rem (REnv s1 []) = (Ret tt, REnv s2 []) /\
            (forall k, k <> idx_models p -> view s2 k = view s1 k) /\
            as_set (view s2 (idx_models p)) = Some (y ∖ list_to_set rem)) as (s2 & E2 & F2 & V2).
  { unfold native_srem. destruct rem as [|m rem'] eqn:Er.
    - exists s1. split_and!; [done | done | rewrite Hv1, Hy; f_equal; set_solver].
    - eexists. split_and!; [apply healthy_command | intros k Hk; by apply srem_ne |].
      rewrite (srem_law _ _ _ y) by by rewrite Hv1. by rewrite as_set_put. }
  destruct (prune_healthy p s2) as (s3 & E3 & F3). exists s3. split_and!.
  - apply attempt_ret. erewrite bind_ret by apply healthy_command. fold s1.
    unfold native_smembers. erewrite bind_ret by apply healthy_query. fold rem.
    erewrite bind_ret by exact E2. exact E3.
  - intros k Hk. rewrite !not_elem_of_cons in Hk. destruct Hk as (?&?&?&_).
    rewrite F3, F2 by done. unfold s1. by rewrite srem_ne.
  - rewrite F3, F2 by done. unfold s1. rewrite (srem_law _ _ _ _ Hx), as_set_put. f_equal. set_solver.
  - exists (y ∖ list_to_set rem). split; [by rewrite F3|]. intros m.
    rewrite elem_of_difference, elem_of_list_to_set, Hrem.
    destruct (startswith (u +++ _MODEL_SEP) m); naive_solver.
Qed.

(** Unfreezing an account removes its freeze key and every account-and-model
    freeze key of it, drops it and its models from the index, and touches no
    other key. *)
Lemma clear_account_complete p u s x y :
  str_truthy p = true -> str_truthy u = true ->
  glob_free (_key conf (cooldown_key p u +++ ":model:")) = true ->
  as_set (view s (idx_accounts p)) = Some x -> as_set (view s (idx_models p)) = Some y ->
  exists s', run (clear_account_cooldown conf p u) s = (Ret tt, s') /\
    view s' (_key conf (cooldown_key p u)) = None /\
    (forall m, view s' (_key conf (model_cooldown_key p u m)) = None) /\
    as_set (view s' (idx_accounts p)) = Some (x ∖ {[u]}) /\
    (exists y', as_set (view s' (idx_models p)) = Some y' /\
      forall m, m ∈ y' <-> m ∈ y /\ startswith (u +++ _MODEL_SEP) m = false) /\
    (forall k, k ∉ [idx_providers; idx_accounts p; idx_models p; _key conf (cooldown_key p u)] ->
      startswith (_key conf (cooldown_key p u +++ ":model:")) k = false -> view s' k = view s k).
Proof.
  intros Hp Hu Hg Hx Hy. set (ck := _key conf (cooldown_key p u)). set (s1 := rd_del ck s).
  assert (forall k, k ∈ [_INDEX_PROVIDERS; _index_accounts_key p; _index_models_key p] ->
            startswith (_key conf (cooldown_key p u +++ ":model:")) (_key conf k) = false /\ ck <> _key conf k) as Hidx.
  { intros k Hk. split; [|by intros Heq%key_inj; eapply cooldown_not_index].
    apply not_true_iff_false. intros [t Ht]%startswith_spec. rewrite <- _key_append in Ht. apply key_inj in Ht.
    unfold cooldown_key in Ht. rewrite !elem_of_cons in Hk.
    destruct Hk as [->|[->|[->|[]%not_elem_of_nil]]]; by simpl in Ht. }
  destruct (delete_matching_healthy (cooldown_key p u +++ ":model:") s1 Hg) as (n & s2 & E2 & V2).
  assert (forall k, k ∈ [_INDEX_PROVIDERS; _index_accounts_key p; _index_models_key p] ->
            view s2 (_key conf k) = view s (_key conf k)) as Hkeep.
  { intros k Hk. destruct (Hidx k Hk) as [Hs Hne]. rewrite V2, Hs. unfold s1. by apply del_ne. }
  destruct (unmark_account_healthy p u s2 x y Hp Hu) as (s3 & E3 & F3 & A3 & M3);
    [rewrite Hkeep; [done | set_solver].. |].
  exists s3. split_and!; [ | | | done | done | ].
  - apply run_eq. unfold clear_account_cooldown. rewrite with_redis_on by done.
    erewrite bind_ret.
    2:{ apply attempt_ret. unfold jdbc_delete. rewrite healthy_command. cbn [foldl].
        rewrite <- _key_get_key by done. reflexivity. }
    fold ck s1. rewrite append_assoc in E2. erewrite bind_ret by exact E2. exact E3.
  - rewrite F3, V2; [case_match; [done|unfold s1; apply del_law]|].
    rewrite !not_elem_of_cons. split_and!; [apply Hidx; set_solver..|apply not_elem_of_nil].
  - intros m. rewrite model_cooldown_split. rewrite F3, V2.
    + by rewrite <- append_assoc, (_key_append conf (cooldown_key p u +++ ":model:") m), startswith_append.
    + rewrite !not_elem_of_cons. split_and!; [| | |apply not_elem_of_nil]; intros Heq;
        (edestruct Hidx as [Hs _]; [|rewrite <- Heq, <- append_assoc, (_key_append conf (cooldown_key p u +++ ":model:")), startswith_append in Hs; done]);
        set_solver.
  - intros k Hk Hs. rewrite !not_elem_of_cons in Hk. destruct Hk as (?&?&?&?&_).
    rewrite F3, V2, Hs by (rewrite !not_elem_of_cons; split_and!; [done..|apply not_elem_of_nil]).
    unfold s1. by apply del_ne.
Qed.

(** ** The overview and permanent freezes *)

Lemma smembers_singleton s k m : as_set (view s k) = Some {[m]} -> rd_smembers s k = [m].
Proof.
  intros Hx. destruct (smembers_law _ _ _ Hx) as [Hnd Hin].
  apply Permutation_singleton_r, NoDup_Permutation; [done | apply NoDup_singleton|].
  intros y. rewrite Hin. set_solver.
Qed.

Lemma smembers_none s k : as_set (view s k) = Some ∅ -> rd_smembers s k = [].
Proof.
  intros Hx. destruct (smembers_law _ _ _ Hx) as [_ Hin].
  destruct (rd_smembers s k) as [|m l]; [done|]. exfalso.
  assert (m ∈ (∅ : gset string)) by (apply Hin; set_solver). set_solver.
Qed.

Lemma split_member_model u mo :
  str_mem MODEL_SEP_CHAR u = false -> str_truthy u = true -> str_truthy mo = true ->
  split_member (model_member u mo) = Some (u, mo).
Proof.
  intros Hs Hu Hm. unfold split_member, model_member, _MODEL_SEP.
  change (String MODEL_SEP_CHAR "" +++ mo) with (String MODEL_SEP_CHAR mo).
  rewrite cut_at_append by done. simpl. by rewrite Hu, Hm.
Qed.

(** The overview has no case for a key without expiry: one call of it takes a
    permanent account-and-model freeze out of the index, and the channel
    page, which listed it before, no longer does, while the freeze key is
    still in force. *)
Lemma scan_drops_permanent p u mo reason now s :
  str_truthy p = true -> str_truthy u = true -> str_truthy mo = true -> str_mem MODEL_SEP_CHAR u = false ->
  as_set (view s idx_providers) = Some {[p]} -> as_set (view s (idx_accounts p)) = Some ∅ ->
  as_set (view s (idx_models p)) = Some {[model_member u mo]} ->
  view s (_key conf (model_cooldown_key p u mo)) = Some (Entry (RString reason) None) ->
  run (batch_get_provider_model_cooldowns conf p now) s = (Ret [(u, [CooldownRow mo None None reason true])], s) /\
  exists s', run (scan_all_cooldowns conf py_str now) s = (Ret ([], []), s') /\
    run (batch_get_provider_model_cooldowns conf p now) s' = (Ret [], s') /\
    view s' (_key conf (model_cooldown_key p u mo)) = Some (Entry (RString reason) None).
Proof.
  intros Hp Hu Hm Hsep Hip Hia Him Hv.
  set (mk := _key conf (model_cooldown_key p u mo)) in *.
  assert (forall s0, view s0 mk = Some (Entry (RString reason) None) ->
    read_keys [mk] (REnv s0 []) = (Ret [(-1, Some reason)], REnv s0 [])) as Hread.
  { intros s0 Hs0. unfold read_keys. rewrite healthy_query. cbn [fmap list_fmap].
    by rewrite ttl_law, (get_law _ _ _ _ Hs0), Hs0. }
  split.
  - apply run_eq. unfold batch_get_provider_model_cooldowns. rewrite with_redis_on, Hp by done. cbn [negb].
    apply attempt_ret. unfold native_smembers. erewrite bind_ret by apply healthy_query.
    rewrite (smembers_singleton _ _ _ Him). cbn [omap list_omap]. rewrite split_member_model by done.
    rewrite decide_False by done. cbn [fmap list_fmap fst snd]. fold mk.
    erewrite bind_ret by by apply Hread. cbn [zip zip_with foldl model_reply dict_append raw_text default].
    rewrite Z.eqb_refl, decide_True by done. done.
  - set (s1 := rd_srem (idx_models p) [model_member u mo] s).
    destruct (prune_healthy p s1) as (s2 & E2 & F2). exists s2. destruct (index_keys_ne p) as (N1 & N2 & N3).
    assert (forall k, k ∈ [_INDEX_PROVIDERS; _index_accounts_key p; _index_models_key p] -> mk <> _key conf k) as Hmk.
    { intros k Hk Heq%key_inj. rewrite model_cooldown_split in Heq. unfold cooldown_key in Heq.
      rewrite !elem_of_cons in Hk. destruct Hk as [->|[->|[->|[]%not_elem_of_nil]]]; by simpl in Heq. }
    split_and!.
    + apply run_eq. unfold scan_all_cooldowns. rewrite with_redis_on by done. apply attempt_ret.
      unfold native_smembers. erewrite bind_ret by apply healthy_query. rewrite (smembers_singleton _ _ _ Hip).
      rewrite filter_cons_True, filter_nil, decide_False by done.
      erewrite bind_ret by apply healthy_query. cbn [fmap list_fmap].
      rewrite (smembers_none _ _ Hia), (smembers_singleton _ _ _ Him).
      cbn [mbind list_bind fst snd app]. unfold provider_entries. rewrite filter_nil. cbn [omap list_omap].
      rewrite split_member_model by done. cbn [fmap list_fmap app fst snd length].
      change (bool_decide (1%nat = 0%nat)) with false. cbv iota. unfold entry_key at 1. cbn [en_model en_provider en_username].
      fold mk. erewrite bind_ret by by apply Hread.
      cbn [zip zip_with foldl overview_reply en_provider en_model en_username ov_accounts ov_models ov_stale_accounts ov_stale_models dict_append].
      rewrite (proj2 (Z.leb_le (-1) 0)) by lia. cbn [ov_accounts ov_models ov_stale_accounts ov_stale_models dict_append srem_each].
      erewrite bind_ret by reflexivity.
      erewrite bind_ret.
      2:{ erewrite bind_ret by (apply attempt_ret; unfold native_srem; apply healthy_command). reflexivity. }
      cbn [fmap list_fmap fst snd app]. fold s1.
      replace (elements (list_to_set [p] : gset string)) with [p] by (cbn [list_to_set]; by rewrite union_empty_r_L, elements_singleton).
      erewrite bind_ret; [|cbn [prune_each]; erewrite bind_ret by exact E2; reflexivity]. done.
    + apply run_eq. unfold batch_get_provider_model_cooldowns. rewrite with_redis_on, Hp by done. cbn [negb].
      apply attempt_ret. unfold native_smembers. erewrite bind_ret by apply healthy_query.
      rewrite (smembers_none s2 (idx_models p)); [done|].
      rewrite F2 by (by intros ?%key_inj). unfold s1. rewrite (srem_law _ _ _ _ Him), as_set_put. f_equal. set_solver.
    + rewrite F2 by (apply Hmk; set_solver). unfold s1. rewrite srem_ne; [done|].
      apply not_eq_sym, Hmk. set_solver.
Qed.
End props.

Module CooldownSample.
Definition conf := RedisConf (Some "ai") true true.
Definition py_str : json -> string := fun _ => "?".
Definition s0 : mapredis := ∅.

Lemma cooldown_roundtrip_witness :
  exists s', run (set_account_cooldown conf "p" "u" (Some 60) "429 \n" "quota") s0 = (Ret tt, s') /\
    run (get_account_cooldown_info conf py_str "p" "u" (sec 1000)) s' =
      (Ret (Some (CooldownInfo (Some (sec 1060)) (Some 60) "429 \n" "quota" false)), s').
Proof.
  apply (cooldown_roundtrip conf py_str eq_refl eq_refl "p" "u" (Some 60) "429 \n" "quota" (sec 1000) s0); [|done].
  by intros ? [= <-].
Defined.

Lemma numeric_reason_lost_witness :
  exists s' info, run (set_account_cooldown conf "p" "u" None "429" "") s0 = (Ret tt, s') /\
    run (get_account_cooldown_info conf py_str "p" "u" (sec 1000)) s' = (Ret (Some info), s') /\ ci_reason info = "".
Proof. by apply (numeric_reason_lost conf py_str eq_refl eq_refl "p" "u" None "429" (sec 1000) s0). Defined.

Definition perm : entry := Entry (RString "bad key") None.
Definition sP : mapredis :=
  {[ _key conf (model_cooldown_key "p" "u" "m") := perm;
     _key conf (cooldown_key "p" "u") := perm;
     _key conf _INDEX_PROVIDERS := Entry (RSet {["p"]}) None;
     _key conf (_index_models_key "p") := Entry (RSet {[model_member "u" "m"]}) None ]}.

Lemma model_remaining_permanent_raises_witness :
  run (get_account_model_cooldown_remaining conf "p" "u" "m" (sec 1000)) sP = (Exc, sP) /\
  (view sP (_key conf (cooldown_key "p" "u")) = Some (Entry (RString "bad key") None) ->
   run (get_account_cooldown_remaining conf py_str "p" "u" (sec 1000)) sP = (Ret (-1), sP)).
Proof. by apply (model_remaining_permanent_raises conf py_str eq_refl eq_refl "p" "u" "m" "bad key" (sec 1000) sP). Defined.

Lemma clear_account_complete_witness :
  exists s', run (clear_account_cooldown conf "p" "u") sP = (Ret tt, s') /\
    view s' (_key conf (cooldown_key "p" "u")) = None /\
    (forall m, view s' (_key conf (model_cooldown_key "p" "u" m)) = None) /\
    as_set (view s' (_key conf (_index_accounts_key "p"))) = Some (∅ ∖ {["u"]}) /\
    (exists y', as_set (view s' (_key conf (_index_models_key "p"))) = Some y' /\
      forall m, m ∈ y' <-> m ∈ ({[model_member "u" "m"]} : gset string) /\ startswith ("u" +++ _MODEL_SEP) m = false) /\
    (forall k, k ∉ [_key conf _INDEX_PROVIDERS; _key conf (_index_accounts_key "p"); _key conf (_index_models_key "p");
                    _key conf (cooldown_key "p" "u")] ->
      startswith (_key conf (cooldown_key "p" "u" +++ ":model:")) k = false -> view s' k = view sP k).
Proof. by apply (clear_account_complete conf eq_refl eq_refl "p" "u" sP ∅ {[model_member "u" "m"]}). Defined.

Lemma scan_drops_permanent_witness :
  run (batch_get_provider_model_cooldowns conf "p" (sec 1000)) sP
    = (Ret [("u", [CooldownRow "m" None None "bad key" true])], sP) /\
  exists s', run (scan_all_cooldowns conf py_str (sec 1000)) sP = (Ret ([], []), s') /\
    run (batch_get_provider_model_cooldowns conf "p" (sec 1000)) s' = (Ret [], s') /\
    view s' (_key conf (model_cooldown_key "p" "u" "m")) = Some (Entry (RString "bad key") None).
Proof. by apply (scan_drops_permanent conf py_str eq_refl eq_refl "p" "u" "m" "bad key" (sec 1000) sP). Defined.
End CooldownSample.
