(* ===== verification/Text.v ===== *)
(** Python's text and number conversions used by the policy code: strip,
    split, int, float and truth values of decoded JSON.  Text is ASCII where a
    conversion depends on the character class. *)
From S2P Require Import Prelude Json.

Fixpoint rstrip (s : string) : string :=
  match s with
  | EmptyString => EmptyString
  | String c s' =>
      match rstrip s' with
      | EmptyString => if py_space c then EmptyString else String c EmptyString
      | r => String c r
      end
  end.
Definition strip (s : string) : string := rstrip (lstrip s).

(** [s.split(c)] *)
Fixpoint split_on (c : ascii) (s : string) : list string :=
  match s with
  | EmptyString => [EmptyString]
  | String a s' =>
      if decide (a = c) then EmptyString :: split_on c s'
      else match split_on c s' with
           | w :: ws => String a w :: ws
           | [] => [String a EmptyString]
           end
  end.

(** [",".join(parts)] *)
Fixpoint join (sep : string) (parts : list string) : string :=
  match parts with
  | [] => EmptyString
  | [w] => w
  | w :: ws => w +++ sep +++ join sep ws
  end.

(** [sub in s] *)
Fixpoint str_contains (sub s : string) : bool :=
  startswith sub s || match s with String _ s' => str_contains sub s' | EmptyString => false end.

(** [list(dict.fromkeys(l))]: the first occurrence of each element. *)
Fixpoint dedup_first (seen : list string) (l : list string) : list string :=
  match l with
  | [] => []
  | x :: l' => if decide (x ∈ seen) then dedup_first seen l' else x :: dedup_first (x :: seen) l'
  end.

(** ** Numbers

    A number read from text, exactly: [m * 10^e]. *)
Inductive num := Dec (m e : Z) | NInf (negative : bool) | NNan.

Definition digit_value (c : ascii) : Z := Z.of_nat (nat_of_ascii c) - 48.

Fixpoint digits_value (acc : Z) (s : string) : Z :=
  match s with
  | String c s' => if digit c then digits_value (10 * acc + digit_value c) s'
                   else if decide (c = "_"%char) then digits_value acc s' else acc
  | EmptyString => acc
  end.

Definition negative (s : string) : bool := match s with String "-" _ => true | _ => false end.
Definition signed (s : string) (v : Z) : Z := if negative s then - v else v.

(** Mantissa and exponent of an unsigned literal. *)
Fixpoint dec_scan (m e : Z) (frac : bool) (s : string) : Z * Z :=
  match s with
  | String c s' =>
      if digit c then dec_scan (10 * m + digit_value c) (if frac then e - 1 else e) frac s'
      else if decide (c = "_"%char) then dec_scan m e frac s'
      else if decide (c = "."%char) then dec_scan m e true s'
      else if bool_decide (c ∈ ["e"; "E"]%char) then (m, e + signed s' (digits_value 0 (drop_sign s')))
      else (m, e)
  | EmptyString => (m, e)
  end.

(** [float(s)] *)
Definition py_float (s : string) : option num :=
  if py_float_ok s then
    let s := lstrip s in
    let u := drop_sign s in
    let l := lower u in
    if startswith "inf" l then Some (NInf (negative s))
    else if startswith "nan" l then Some NNan
    else let '(m, e) := dec_scan 0 0 false u in Some (Dec (signed s m) e)
  else None.

(** [int(s)] on text *)
Definition py_int_text (s : string) : option Z :=
  let t := strip s in
  let u := drop_sign t in
  if starts_digit u && negb (str_truthy (after_digits u)) then Some (signed t (digits_value 0 u)) else None.

Definition num_cmp (a b : num) : option comparison :=
  match a, b with
  | NNan, _ | _, NNan => None
  | NInf x, NInf y => Some (if Bool.eqb x y then Eq else if x then Lt else Gt)
  | NInf x, _ => Some (if x then Lt else Gt)
  | _, NInf y => Some (if y then Gt else Lt)
  | Dec m1 e1, Dec m2 e2 =>
      let k := Z.min e1 e2 in Some (Z.compare (m1 * 10 ^ (e1 - k)) (m2 * 10 ^ (e2 - k)))
  end.

(** ** Decoded JSON values *)

(** [bool(v)] *)
Definition json_truthy (v : json) : bool :=
  match v with
  | JNull | JBool false | JStr "" | JArr [] | JObj [] => false
  | JNum t => match py_float t with Some (Dec 0 _) => false | _ => true end
  | _ => true
  end.

(** An integer literal. *)
Definition int_literal (t : string) : bool := match tonumber t with Some _ => true | None => false end.

(** [int(float)] of a decimal [m * 10^e]: the nearest double (53 bits, ties to even),
    truncated; None when there is none, since the double is infinite. *)
Definition float_int (m e : Z) : option Z :=
  let num := Z.abs m * 10 ^ Z.max 0 e in
  let den := 10 ^ Z.max 0 (- e) in
  let k := if num / den =? 0 then -53 else Z.log2 (num / den) - 52 in
  let n := num * 2 ^ Z.max 0 (- k) in
  let d := den * 2 ^ Z.max 0 k in
  let q := n / d in
  let r := 2 * (n mod d) in
  let q := if (d <? r) || ((r =? d) && Z.odd q) then q + 1 else q in
  let a := if 0 <=? k then q * 2 ^ k else q / 2 ^ (- k) in
  if 2 ^ 1024 <=? a then None else Some (Z.sgn m * a).
(** [int(v)]: None is an exception.  The callers that catch it catch the ones of a wrong
    type or text; that of an infinite number is apart where it matters ([Usage]). *)
Definition json_int (v : json) : option Z :=
  match v with
  | JBool b => Some (if b then 1 else 0)
  | JNum t => match py_float t with
              | Some (Dec m e) => if int_literal t then Some (m * 10 ^ e) else float_int m e
              | _ => None
              end
  | JStr s => py_int_text s
  | _ => None
  end.

(** [str(v)], [py_str] standing for floats and containers. *)
Definition json_str_of (py_str : json -> string) (v : json) : string :=
  match v with
  | JStr s => s
  | JNull => "None"
  | JBool b => if b then "True" else "False"
  | JNum t => if int_literal t then t else py_str v
  | _ => py_str v
  end.

(** [str(d.get(k) or "")] *)
Definition get_text (py_str : json -> string) (d : list (string * json)) (k : string) : string :=
  match obj_get k d with
  | Some v => if json_truthy v then json_str_of py_str v else ""
  | None => ""
  end.

Example strip_ex : strip "  a b " = "a b". Proof. reflexivity. Qed.
Example split_ex : split_on ","%char "501,,502" = ["501"; ""; "502"]. Proof. reflexivity. Qed.
Example float_ex : py_float " -12.50e1 " = Some (Dec (-1250) (-1)). Proof. reflexivity. Qed.
Example cmp_ex : num_cmp (Dec (-1250) (-1)) (Dec (-125) 0) = Some Eq. Proof. reflexivity. Qed.
Example int_ex : py_int_text " +1_0 " = Some 10. Proof. reflexivity. Qed.

(** ** Facts *)

Lemma dedup_first_cons x l : exists l', dedup_first [] (x :: l) = x :: l'.
Proof. simpl. eauto. Qed.
