(* ===== verification/Policy.v ===== *)
(** server/limit_policy_store.py, freeze policies: comparison of a response
    with a rule, normalisation and validation of rules, translation of a rule
    into an action, first match; and channel.py's use of them. *)
From S2P Require Import Prelude Windows Json Text.

Definition FREEZE_CONDITION_TYPES := ["status_code"; "headers"; "exception"; "error_type"; "error_kind"; "body"].
Definition FREEZE_OPERATORS := ["in"; "=="; "!="; "<="; ">="; "<"; ">"; "exists"; "contains"].
Definition FREEZE_OBJECTS := ["account"; "account_model"; "channel"; "channel_model"].
Definition FREEZE_PERIODS :=
  ["none"; "disabled"; "permanent"; "seconds"; "minutes"; "hours"; "days"; "today"; "week"; "month"].
Definition FREEZE_PERIODS_WITH_VALUE := ["seconds"; "minutes"; "hours"; "days"].
Definition FREEZE_OBJECTS_SUPPORT_DISABLED := ["account"; "channel"].
Definition FREEZE_OBJECTS_SUPPORT_PERMANENT := ["account"].
Definition NATURAL_BOUNDARY_FREEZE_BUFFER_SECONDS : Z := 30 * 60.

Abbreviation mem x l := (bool_decide (x ∈ l)).

(** A normalised rule. *)
Record freeze_rule := FreezeRule {
  fr_condition : string; fr_key : string; fr_operator : string; fr_value : string;
  fr_object : string; fr_period : string; fr_freeze_value : Z; fr_enabled : bool;
}.

Record freeze_policy := FreezePolicy {
  fp_enabled : bool; fp_refresh_on_failure : bool; fp_rules : list freeze_rule;
}.

Definition default_freeze_policy : freeze_policy :=
  {| fp_enabled := true; fp_refresh_on_failure := true;
     fp_rules := [FreezeRule "status_code" "" "==" "403" "account" "today" 0 true;
                  FreezeRule "exception" "" "" "" "account" "seconds" 60 true;
                  FreezeRule "status_code" "" "==" "429" "account" "seconds" 60 true] |}.

(** The action of a rule. *)
Record freeze_action := FreezeAction {
  fa_scope : string; fa_seconds : Z; fa_permanent : bool; fa_disable : bool; fa_freeze_mode : string;
}.

(** ** Periods *)

Section periods.
Variable utc_offset : Z -> Z.

Definition seconds_until_today_end (now : Z) : Z := _seconds_until_day_end utc_offset now.

(** To 23:59:59 of this week's Sunday. *)
Definition seconds_until_week_end (now : Z) : Z :=
  let local := now + utc_offset now in
  let days := local / day_us in
  let sunday_end := (days + (6 - weekday days)) * day_us + sec 86399 in
  Z.max 1 ((sunday_end - local) / sec 1).

(** To 23:59:59 of the last day of the month. *)
Definition seconds_until_month_end (now : Z) : Z :=
  let local := now + utc_offset now in
  let '(y, m, _) := civil_of_days (local / day_us) in
  let next_month_first := days_of_civil (if m =? 12 then y + 1 else y) (if m =? 12 then 1 else m + 1) 1 in
  Z.max 1 ((next_month_first * day_us - sec 1 - local) / sec 1).

Definition _period_to_seconds (period : string) (value now : Z) : Z :=
  let period := lower (strip period) in
  if String.eqb period "seconds" then Z.max 1 value
  else if String.eqb period "minutes" then Z.max 1 (value * 60)
  else if String.eqb period "hours" then Z.max 1 (value * 3600)
  else if String.eqb period "days" then Z.max 1 (value * 86400)
  else if String.eqb period "today" then seconds_until_today_end now + NATURAL_BOUNDARY_FREEZE_BUFFER_SECONDS
  else if String.eqb period "week" then seconds_until_week_end now + NATURAL_BOUNDARY_FREEZE_BUFFER_SECONDS
  else if String.eqb period "month" then seconds_until_month_end now + NATURAL_BOUNDARY_FREEZE_BUFFER_SECONDS
  else 0.

Definition freeze_rule_to_action (freeze_object freeze_period : string) (freeze_value now : Z) : freeze_action :=
  let obj := lower (strip freeze_object) in
  let period := lower (strip freeze_period) in
  let scope := if mem obj FREEZE_OBJECTS then obj else "account" in
  if String.eqb period "none" then FreezeAction scope 0 false false "no_freeze"
  else if String.eqb period "disabled" then FreezeAction scope 0 false true (obj +++ "_disabled")
  else if String.eqb period "permanent" then FreezeAction "account" 0 true false "account_permanent"
  else FreezeAction scope (_period_to_seconds period freeze_value now) false false (obj +++ "_" +++ period).
End periods.

(** ** Comparison *)

Section values.
Variable py_str : json -> string.

Definition _to_number (v : json) : option num :=
  match v with
  | JBool _ => None
  | JNum t => py_float t
  | _ =>
      let text := strip (json_str_of py_str v) in
      if str_truthy text then py_float text else None
  end.

Definition num_test (op : string) (c : option comparison) : bool :=
  if String.eqb op "==" then bool_decide (c = Some Eq)
  else if String.eqb op "!=" then negb (bool_decide (c = Some Eq))
  else if String.eqb op "<=" then bool_decide (c = Some Lt \/ c = Some Eq)
  else if String.eqb op ">=" then bool_decide (c = Some Gt \/ c = Some Eq)
  else if String.eqb op "<" then bool_decide (c = Some Lt)
  else if String.eqb op ">" then bool_decide (c = Some Gt)
  else false.

(** One part of an "in" list. *)
Definition in_part (actual : json) (part : string) : bool :=
  let part := strip part in
  if negb (str_truthy part) then false else
  match _to_number actual, _to_number (JStr part) with
  | Some a, Some b => bool_decide (num_cmp a b = Some Eq)
  | _, _ => String.eqb (strip (json_str_of py_str actual)) part
  end.

(** [actual] is None when the response has no such value. *)
Definition _compare (actual : option json) (operator expected : string) : bool :=
  let op := strip operator in
  if String.eqb op "exists" then bool_decide (is_Some actual) else
  match actual with
  | None => false
  | Some a =>
      if String.eqb op "contains" then str_contains expected (json_str_of py_str a)
      else if String.eqb op "in" then existsb (in_part a) (split_on ","%char expected)
      else match _to_number a, _to_number (JStr expected) with
           | Some x, Some y => num_test op (num_cmp x y)
           | _, _ =>
               let eq := String.eqb (strip (json_str_of py_str a)) (strip expected) in
               if String.eqb op "==" then eq else if String.eqb op "!=" then negb eq else false
           end
  end.

(** ** Normalisation *)

(** [_int_value(v, 0)] *)
Definition int_value (v : option json) : Z := default 0 (v ≫= json_int).

Definition in_parts (value : string) : list string :=
  filter (fun p => str_truthy p = true) (strip <$> split_on ","%char value).

(** The normalised value text; [None] drops the rule. *)
Definition rule_value (condition operator : string) (v : option json) : option string :=
  if String.eqb condition "exception" || String.eqb operator "exists" then Some "" else
  match v with
  | None | Some JNull => None
  | Some v =>
      let value := strip (json_str_of py_str v) in
      if negb (str_truthy value) then None
      else if String.eqb operator "in" then
        let parts := dedup_first [] (in_parts value) in
        if decide (parts = []) then None else Some (join "," parts)
      else Some value
  end.

Definition rule_text (d : list (string * json)) (name : string) : string := strip (get_text py_str d name).
Definition rule_word (d : list (string * json)) (name : string) : string := lower (rule_text d name).

(** The object, period and value of a rule, when legal together. *)
Definition rule_freeze (d : list (string * json)) : option (string * string * Z) :=
  let obj := rule_word d "freeze_object" in
  let period := rule_word d "freeze_period" in
  let value := int_value (obj_get "freeze_value" d) in
  if negb (mem obj FREEZE_OBJECTS) then None
  else if negb (mem period FREEZE_PERIODS) then None
  else if String.eqb period "disabled" && negb (mem obj FREEZE_OBJECTS_SUPPORT_DISABLED) then None
  else if String.eqb period "permanent" && negb (mem obj FREEZE_OBJECTS_SUPPORT_PERMANENT) then None
  else if mem period FREEZE_PERIODS_WITH_VALUE && (value <=? 0) then None
  else Some (obj, period, if mem period FREEZE_PERIODS_WITH_VALUE then value else 0).

Definition normalize_freeze_rule (rule : json) : option freeze_rule :=
  match rule with
  | JObj d =>
      let condition := rule_word d "condition" in
      if negb (mem condition FREEZE_CONDITION_TYPES) then None else
      let key := rule_text d "key" in
      if mem condition ["headers"; "body"] && negb (str_truthy key) then None else
      let key := if mem condition ["status_code"; "exception"; "error_type"; "error_kind"] then "" else key in
      let operator := rule_text d "operator" in
      let operator := if String.eqb condition "exception" then "" else operator in
      if negb (String.eqb condition "exception") && negb (mem operator FREEZE_OPERATORS) then None else
      value ← rule_value condition operator (obj_get "value" d);
      '(obj, period, freeze_value) ← rule_freeze d;
      Some {| fr_condition := condition; fr_key := key; fr_operator := operator; fr_value := value;
              fr_object := obj; fr_period := period; fr_freeze_value := freeze_value;
              fr_enabled := match obj_get "enabled" d with Some (JBool false) => false | _ => true end |}
  | _ => None
  end.

Definition truthy_or (d : bool) (v : option json) : bool := match v with Some v => json_truthy v | None => d end.

Definition normalize_freeze_policy (policy : json) : freeze_policy :=
  let raw := match policy with JObj d => d | _ => [] end in
  {| fp_enabled := truthy_or false (obj_get "enabled" raw);
     fp_refresh_on_failure := truthy_or true (obj_get "refresh_freeze_on_failure" raw);
     fp_rules := match obj_get "rules" raw with
                 | Some (JArr rules) => omap normalize_freeze_rule rules
                 | _ => []
                 end |}.

(** ** Validation *)

(** The ValueError of the i-th rule. *)
Inductive policy_error :=
| NotObject | RulesNotArray | RuleNotObject (i : nat) | BadCondition (i : nat) | BadOperator (i : nat)
| MissingKey (i : nat) | MissingValue (i : nat) | EmptyIn (i : nat) | BadObject (i : nat) | BadPeriod (i : nat)
| NoDisable (i : nat) | NoPermanent (i : nat) | NeedsValue (i : nat).

Definition validate_match (i : nat) (d : list (string * json)) : option policy_error :=
  let condition := rule_word d "condition" in
  if String.eqb condition "exception" then None else
  let operator := rule_text d "operator" in
  let value_text := match obj_get "value" d with
                    | None | Some JNull => ""
                    | Some v => strip (json_str_of py_str v)
                    end in
  if negb (mem operator FREEZE_OPERATORS) then Some (BadOperator i)
  else if mem condition ["headers"; "body"] && negb (str_truthy (rule_text d "key")) then Some (MissingKey i)
  else if negb (String.eqb operator "exists") && negb (str_truthy value_text) then Some (MissingValue i)
  else if String.eqb operator "in" && bool_decide (in_parts (get_text py_str d "value") = []) then Some (EmptyIn i)
  else None.

Definition validate_freeze (i : nat) (d : list (string * json)) : option policy_error :=
  let obj := rule_word d "freeze_object" in
  let period := rule_word d "freeze_period" in
  let value := int_value (obj_get "freeze_value" d) in
  if negb (mem obj FREEZE_OBJECTS) then Some (BadObject i)
  else if negb (mem period FREEZE_PERIODS) then Some (BadPeriod i)
  else if String.eqb period "disabled" && negb (mem obj FREEZE_OBJECTS_SUPPORT_DISABLED) then Some (NoDisable i)
  else if String.eqb period "permanent" && negb (mem obj FREEZE_OBJECTS_SUPPORT_PERMANENT) then Some (NoPermanent i)
  else if mem period FREEZE_PERIODS_WITH_VALUE && (value <=? 0) then Some (NeedsValue i)
  else None.

Definition validate_rule (i : nat) (rule : json) : option policy_error :=
  match rule with
  | JObj d =>
      if negb (mem (rule_word d "condition") FREEZE_CONDITION_TYPES) then Some (BadCondition i) else
      match validate_match i d with
      | Some e => Some e
      | None => validate_freeze i d
      end
  | _ => Some (RuleNotObject i)
  end.

Fixpoint validate_rules (i : nat) (rules : list json) : option policy_error :=
  match rules with
  | [] => None
  | r :: rules' => match validate_rule i r with Some e => Some e | None => validate_rules (S i) rules' end
  end.

(** [policy.get("rules") or []] iterates; anything else that is not None is refused before. *)
Definition validate_freeze_policy (policy : json) : freeze_policy + policy_error :=
  match policy with
  | JNull => inl default_freeze_policy
  | JObj d =>
      match obj_get "rules" d with
      | None | Some JNull => inl (normalize_freeze_policy policy)
      | Some (JArr rules) =>
          match validate_rules 0 rules with
          | Some e => inr e
          | None => inl (normalize_freeze_policy policy)
          end
      | Some _ => inr RulesNotArray
      end
  | _ => inr NotObject
  end.

(** ** Matching *)

(** A dotted path in a parsed body. *)
Fixpoint resolve_path (parts : list string) (cur : json) : option json :=
  match parts with
  | [] => Some cur
  | p :: ps =>
      let p := strip p in
      if negb (str_truthy p) then None else
      match cur with
      | JObj d => match obj_get p d with Some v => resolve_path ps v | None => resolve_path ps JNull end
      | _ => None
      end
  end.

Definition _resolve_body_field (body : json) (key : string) : option json :=
  let parsed := match body with JStr text => loads text | b => Some b end in
  match parsed with
  | None => None
  | Some b => match resolve_path (split_on "."%char key) b with Some JNull => None | r => r end
  end.

(** What a response offers to the rules. *)
Record response := Response {
  rp_status : option Z; rp_headers : list (string * string); rp_exception : bool;
  rp_error_code : string; rp_error_kind : string; rp_body : option json;
}.

(** The last of the headers that differ only in case wins, as in the lower-cased dict. *)
Definition header_get (headers : list (string * string)) (key : string) : option string :=
  foldl (fun acc kv => if String.eqb (lower (strip kv.1)) key then Some kv.2 else acc) None headers.

(** Whether a rule applies to the response. *)
Definition rule_hits (r : response) (rule : freeze_rule) : bool :=
  let test (actual : option json) := _compare actual (fr_operator rule) (fr_value rule) in
  if negb (fr_enabled rule) then false
  else if String.eqb (fr_condition rule) "status_code" then
    match rp_status r with Some c => test (Some (JNum (tostring c))) | None => false end
  else if String.eqb (fr_condition rule) "headers" then
    test (JStr <$> header_get (rp_headers r) (lower (strip (fr_key rule))))
  else if String.eqb (fr_condition rule) "body" then
    let actual := rp_body r ≫= (fun b => _resolve_body_field b (fr_key rule)) in
    if bool_decide (actual = None) && negb (String.eqb (fr_operator rule) "exists") then false else test actual
  else if String.eqb (fr_condition rule) "error_type" then
    str_truthy (rp_error_code r) && test (Some (JStr (rp_error_code r)))
  else if String.eqb (fr_condition rule) "error_kind" then
    str_truthy (rp_error_kind r) && test (Some (JStr (rp_error_kind r)))
  else rp_exception r.

(** The first rule that applies, with its action. *)
Definition first_match (utc_offset : Z -> Z) (now : Z) (r : response) (rules : list freeze_rule)
    : option (freeze_rule * freeze_action) :=
  rule ← find (rule_hits r) rules;
  Some (rule, freeze_rule_to_action utc_offset (fr_object rule) (fr_period rule) (fr_freeze_value rule) now).

Definition match_freeze_rules (utc_offset : Z -> Z) (now : Z) (policy : json) (r : response)
    : option (freeze_rule * freeze_action) :=
  let normalized := normalize_freeze_policy policy in
  if fp_enabled normalized then first_match utc_offset now r (fp_rules normalized) else None.

(** channel.py: Channel.match_freeze.  [policy] is the stored freeze policy,
    None when reading it raised; no error kind and no body reach the rules. *)
Definition match_freeze (utc_offset : Z -> Z) (now : Z) (policy : option json)
    (status : option Z) (headers : list (string * string)) (exception : bool) (error_code : string)
    : option (freeze_rule * freeze_action) :=
  p ← policy; match_freeze_rules utc_offset now p (Response status headers exception error_code "" None).

(** channel.py: Channel.freeze_refresh_on_failure *)
Definition freeze_refresh_on_failure (policy : option json) : bool :=
  match policy with
  | Some (JObj d) => truthy_or true (obj_get "refresh_freeze_on_failure" d)
  | _ => true
  end.
End values.

(** ** Validated rules survive normalisation *)

Fixpoint str_any (p : ascii -> bool) (s : string) : bool :=
  match s with EmptyString => false | String c s' => p c || str_any p s' end.

Section strip_facts.
Variable p : ascii -> bool.
Hypothesis Hp : forall c, p c = true -> py_space c = false.

Lemma any_lstrip s : str_any p (lstrip s) = str_any p s.
Proof.
  induction s as [|c s IH]; simpl; [done|]. destruct (py_space c) eqn:E; [|done].
  rewrite IH. destruct (p c) eqn:Ec; [|done]. by rewrite Hp in E.
Qed.

Lemma any_rstrip s : str_any p (rstrip s) = str_any p s.
Proof.
  induction s as [|c s IH]; simpl; [done|]. destruct (rstrip s) as [|c' r] eqn:Er.
  - simpl in IH. rewrite <- IH, orb_false_r. destruct (py_space c) eqn:E; simpl; [|by rewrite orb_false_r].
    destruct (p c) eqn:Ec; [|done]. by rewrite Hp in E.
  - simpl in *. by rewrite IH.
Qed.

Lemma any_strip s : str_any p (strip s) = str_any p s.
Proof. unfold strip. by rewrite any_rstrip, any_lstrip. Qed.
End strip_facts.

Definition word_char (c : ascii) : bool := negb (py_space c).

Lemma rstrip_truthy s : str_truthy (rstrip s) = str_any word_char s.
Proof.
  induction s as [|c s IH]; simpl; [done|]. unfold word_char at 1. destruct (rstrip s) as [|c' r]; simpl in IH.
  - rewrite <- IH, orb_false_r. by destruct (py_space c).
  - rewrite <- IH. by rewrite orb_true_r.
Qed.

Lemma strip_truthy s : str_truthy (strip s) = str_any word_char s.
Proof.
  unfold strip. rewrite rstrip_truthy. apply any_lstrip. unfold word_char. intros c Hc. by apply negb_true_iff in Hc.
Qed.

Definition item_char (c : ascii) : bool := word_char c && negb (bool_decide (c = ","%char)).

Lemma in_parts_any value : in_parts value <> [] <-> str_any item_char value = true.
Proof.
  assert (existsb (fun w => str_any word_char w) (split_on ","%char value) = str_any item_char value) as Hs.
  { induction value as [|c s IH]; [done|]. cbn [split_on str_any]. unfold item_char at 1. destruct (decide (c = ","%char)) as [->|Hc].
    - cbn [existsb str_any]. by rewrite IH.
    - rewrite (bool_decide_eq_false_2 _ Hc), andb_true_r. destruct (split_on ","%char s) as [|w ws]; cbn [existsb str_any] in *.
      + by rewrite <- IH, !orb_false_r.
      + by rewrite <- IH, orb_assoc. }
  rewrite <- Hs. unfold in_parts. generalize (split_on ","%char value) as l. intros l. clear Hs.
  induction l as [|w l IH]; cbn [existsb fmap list_fmap]; [done|].
  rewrite filter_cons. rewrite <- strip_truthy. destruct (str_truthy (strip w)) eqn:E.
  - rewrite decide_True by done. by split.
  - rewrite decide_False by done. exact IH.
Qed.

Lemma in_parts_strip value : in_parts value <> [] -> in_parts (strip value) <> [].
Proof.
  rewrite !in_parts_any, any_strip; [done|]. unfold item_char, word_char. intros c [Hc _]%andb_prop.
  by apply negb_true_iff in Hc.
Qed.

(** ** Properties of the policy layer *)

Section props.
Variable py_str : json -> string.

Lemma validate_freeze_sound i d : validate_freeze py_str i d = None -> is_Some (rule_freeze py_str d).
Proof. unfold validate_freeze, rule_freeze. intros Hv. by repeat (case_match; try done). Qed.

Lemma validate_match_sound i d :
  String.eqb (rule_word py_str d "condition") "exception" = false -> validate_match py_str i d = None ->
  mem (rule_text py_str d "operator") FREEZE_OPERATORS = true /\
  (mem (rule_word py_str d "condition") ["headers"; "body"] && negb (str_truthy (rule_text py_str d "key"))) = false /\
  is_Some (rule_value py_str (rule_word py_str d "condition") (rule_text py_str d "operator") (obj_get "value" d)).
Proof.
  intros Hc. unfold validate_match. rewrite Hc. cbv zeta.
  set (value_text := match obj_get "value" d with None | Some JNull => "" | Some v => strip (json_str_of py_str v) end).
  destruct (mem _ FREEZE_OPERATORS) eqn:Ho; [cbn [negb]|done].
  destruct (_ && negb (str_truthy (rule_text _ _ "key"))) eqn:Hk; [done|].
  destruct (negb (String.eqb _ "exists") && _) eqn:Hv; [done|].
  destruct (String.eqb _ "in" && _) eqn:Hi; [done|]. intros _. split; [done|]. split; [done|].
  unfold rule_value. rewrite Hc. cbn [orb].
  destruct (String.eqb (rule_text py_str d "operator") "exists"); [eauto|]. cbn [negb andb] in Hv.
  apply negb_false_iff in Hv. unfold value_text in Hv. unfold get_text in Hi.
  destruct (obj_get "value" d) as [v|]; [|done].
  assert (v <> JNull) as Hn by (by intros ->).
  assert (str_truthy (strip (json_str_of py_str v)) = true) as Hs by by destruct v.
  destruct v as [|b|t|t|l|o]; try done; rewrite Hs; cbn [negb];
    (destruct (String.eqb (rule_text py_str d "operator") "in"); [|eauto]); cbn [andb] in Hi;
    apply bool_decide_eq_false in Hi; rewrite decide_False; eauto;
    (match type of Hi with in_parts (if ?b then _ else _) <> [] => destruct b; [|done] end);
    apply in_parts_strip in Hi; intros Hd;
    (match type of Hi with in_parts ?x <> [] => destruct (in_parts x) as [|y ys]; [done|] end); by simpl in Hd.
Qed.

Lemma validate_rule_sound i r : validate_rule py_str i r = None -> is_Some (normalize_freeze_rule py_str r).
Proof.
  destruct r as [|b|t|t|l|d]; try done. unfold validate_rule, normalize_freeze_rule.
  destruct (mem (rule_word py_str d "condition") FREEZE_CONDITION_TYPES) eqn:Hc; [cbn [negb]|done].
  destruct (validate_match py_str i d) eqn:Hm; [done|]. intros Hf%validate_freeze_sound.
  destruct Hf as [[[obj period] fv] Hf].
  destruct (String.eqb (rule_word py_str d "condition") "exception") eqn:He.
  - apply String.eqb_eq in He. rewrite He. cbn [mbind option_bind]. rewrite Hf. simpl. eauto.
  - destruct (validate_match_sound i d He Hm) as (Ho & Hk & [v Hv]).
    rewrite Hk, Ho, Hv. cbn [negb andb mbind option_bind]. rewrite Hf. simpl. eauto.
Qed.

(** Saving loses nothing the validator accepted: a policy that passes
    validation is normalised to as many rules as it was written with. *)
Lemma validated_rules_survive d rules p :
  obj_get "rules" d = Some (JArr rules) -> validate_freeze_policy py_str (JObj d) = inl p ->
  length (fp_rules p) = length rules.
Proof.
  intros Hr Hv. unfold validate_freeze_policy in Hv. rewrite Hr in Hv.
  destruct (validate_rules py_str 0 rules) eqn:E; [done|]. injection Hv as <-.
  unfold normalize_freeze_policy. cbn [fp_rules]. rewrite Hr. clear Hr. revert E. generalize 0%nat as i.
  induction rules as [|r rules IH]; intros i E; [done|]. simpl in E.
  destruct (validate_rule py_str i r) eqn:Er; [done|]. apply validate_rule_sound in Er as [x Hx].
  cbn [omap list_omap]. rewrite Hx. simpl. f_equal. by eapply IH.
Qed.

(** The channel hands neither a body nor an error kind to the matcher, so no
    "body" rule and no "error_kind" rule of a policy is ever the rule that
    fires on the response paths. *)
Lemma body_rules_dead utc_offset now policy status headers exception error_code rule action :
  match_freeze py_str utc_offset now policy status headers exception error_code = Some (rule, action) ->
  fr_condition rule <> "body" /\ fr_condition rule <> "error_kind".
Proof.
  unfold match_freeze, match_freeze_rules, first_match. destruct policy as [p|]; [|done]. cbn [mbind option_bind].
  destruct (fp_enabled _); [|done]. destruct (find _ _) as [r|] eqn:Hf; [|done]. simpl. intros [= -> _].
  apply find_some in Hf as [_ Hf]. split; intros Hc; unfold rule_hits in Hf; rewrite Hc in Hf; simpl in Hf.
  - destruct (fr_enabled rule); [|done]. simpl in Hf.
    destruct (String.eqb_spec (fr_operator rule) "exists") as [He|]; [|done]. simpl in Hf. by rewrite He in Hf.
  - by destruct (fr_enabled rule).
Qed.
End props.

(** A freeze "until the end of the day, week or month" always ends after
      that boundary, by the buffer less the seconds lost to truncation: it
      cannot thaw just before the boundary and be set again. *)
Lemma natural_freeze_passes_boundary utc_offset now value :
  let local := now + utc_offset now in
  let days := local / day_us in
  let ends_after boundary period := boundary + sec 1798 <= local + sec (_period_to_seconds utc_offset period value now) in
  ends_after ((days + 1) * day_us) "today" /\
  ends_after ((days + 7 - weekday days) * day_us) "week" /\
  (let '(y, m, _) := civil_of_days days in
   ends_after (days_of_civil (if m =? 12 then y + 1 else y) (if m =? 12 then 1 else m + 1) 1 * day_us) "month").
Proof.
  intros local days ends_after. unfold ends_after.
  change (_period_to_seconds utc_offset "today" value now) with (seconds_until_today_end utc_offset now + 1800).
  change (_period_to_seconds utc_offset "week" value now) with (seconds_until_week_end utc_offset now + 1800).
  change (_period_to_seconds utc_offset "month" value now) with (seconds_until_month_end utc_offset now + 1800).
  assert (forall x, sec (x / sec 1) > x - sec 1) as Hdiv.
  { intros x. pose proof (Z.mod_pos_bound x (sec 1) eq_refl). pose proof (Z.div_mod x (sec 1) ltac:(done)).
    unfold sec in *. lia. }
  split_and!.
  - unfold seconds_until_today_end, _seconds_until_day_end. fold local.
    pose proof (Hdiv (day_us - local mod day_us)) as H1. pose proof (Z.div_mod local day_us ltac:(done)) as H2.
    fold days in H2. unfold day_us, sec in *. lia.
  - unfold seconds_until_week_end. fold local days.
    pose proof (Hdiv ((days + (6 - weekday days)) * day_us + sec 86399 - local)) as H1. unfold day_us, sec in *. lia.
  - unfold seconds_until_month_end. fold local days. destruct (civil_of_days days) as [[y m] d].
    set (first := days_of_civil _ _ _).
    pose proof (Hdiv (first * day_us - sec 1 - local)) as H1. unfold day_us, sec in *. lia.
Qed.

Module PolicySample.
Definition py_str : json -> string := fun _ => "?".
Definition utc : Z -> Z := fun _ => 0.

Definition rule (kvs : list (string * string)) : json := JObj (prod_map id JStr <$> kvs).
Definition quota_rule := rule [("condition", "headers"); ("key", "X-Left"); ("operator", "<="); ("value", "0");
                               ("freeze_object", "account"); ("freeze_period", "today")].
Definition codes_rule := rule [("condition", "status_code"); ("operator", "in"); ("value", " 501, 502 ,");
                               ("freeze_object", "channel_model"); ("freeze_period", "minutes"); ("freeze_value", "5")].
Definition policy_fields := [("enabled", JBool true); ("rules", JArr [quota_rule; codes_rule])].
Definition normalized : freeze_policy :=
  match validate_freeze_policy py_str (JObj policy_fields) with inl p => p | inr _ => default_freeze_policy end.

Lemma validated_rules_survive_witness :
  validate_freeze_policy py_str (JObj policy_fields) = inl normalized /\ length (fp_rules normalized) = 2%nat.
Proof.
  split; [by vm_compute|].
  apply (validated_rules_survive py_str policy_fields [quota_rule; codes_rule]); [done | by vm_compute].
Defined.

Definition hit := match_freeze py_str utc 0 (Some (JObj policy_fields)) (Some 502) [] false "".
Definition codes_hit := default (FreezeRule "" "" "" "" "" "" 0 false, FreezeAction "" 0 false false "") hit.

Lemma body_rules_dead_witness :
  hit = Some codes_hit /\ fa_seconds codes_hit.2 = 300 /\
  (fr_condition codes_hit.1 <> "body" /\ fr_condition codes_hit.1 <> "error_kind").
Proof.
  split; [by vm_compute|]. split; [by vm_compute|].
  apply (body_rules_dead py_str utc 0 (Some (JObj policy_fields)) (Some 502) [] false "" codes_hit.1 codes_hit.2).
  by vm_compute.
Defined.
End PolicySample.
