(* ===== verification/Rules.v ===== *)
(** limits/rules.py: the data the limit layer passes around. *)
From S2P Require Import Prelude.

Record limit_subject := LimitSubject {
  ls_provider : string; ls_account : string; ls_model : string; ls_routed_model : string;
}.

Definition subject_account_key (s : limit_subject) : string :=
  "account:" +++ ls_provider s +++ ":" +++ ls_account s.
Definition subject_model_key (s : limit_subject) : string :=
  "model:" +++ str_or (ls_routed_model s) (ls_model s).
Definition provider_model_key (s : limit_subject) : string :=
  "provider-model:" +++ ls_provider s +++ ":" +++ str_or (ls_routed_model s) (ls_model s).

(** A decision; [retry_after] in seconds. *)
Record limit_decision := LimitDecision {
  ld_allowed : bool; ld_reason : string; ld_retry_after : option Z;
}.
Definition allow : limit_decision := LimitDecision true "" None.
Definition deny (reason : string) : limit_decision := LimitDecision false reason None.

(** What a reservation booked, with the limits it was booked under. *)
Record reserved_amounts := ReservedAmounts {
  ra_rpm : Z; ra_rph : Z; ra_rpd : Z; ra_tokens : Z;
  ra_tpm_limit : Z; ra_tph_limit : Z; ra_tpd_limit : Z; ra_model_tpm_limit : Z;
}.
Definition no_amounts : reserved_amounts := ReservedAmounts 0 0 0 0 0 0 0 0.

Record limit_lease := LimitLease {
  ll_subject : limit_subject; ll_lease_id : string; ll_reservation_id : string;
  ll_expires_at : option Z; ll_concurrency_acquired : bool; ll_local_fallback : bool;
  ll_amounts : reserved_amounts; ll_window_ids : list (string * string);
  ll_test_probe : bool; ll_settled : bool; ll_rolled_back : bool;
}.

Record limit_reservation := LimitReservation { lr_lease : option limit_lease; lr_decision : limit_decision }.
Definition lr_allowed (r : limit_reservation) : bool :=
  match lr_lease r with Some _ => ld_allowed (lr_decision r) | None => false end.

(** Account keys name their account: the provider must not contain a colon. *)
Lemma account_key_inj p1 u1 m1 r1 p2 u2 m2 r2 :
  str_mem ":" p1 = false -> str_mem ":" p2 = false ->
  subject_account_key (LimitSubject p1 u1 m1 r1) = subject_account_key (LimitSubject p2 u2 m2 r2) ->
  p1 = p2 /\ u1 = u2.
Proof.
  intros H1 H2 Heq. unfold subject_account_key in Heq. cbn [ls_provider ls_account] in Heq.
  rewrite append_inj_l in Heq. apply (f_equal (cut_at ":")) in Heq.
  change (p1 +++ ":" +++ u1) with (p1 +++ String ":" u1) in Heq.
  change (p2 +++ ":" +++ u2) with (p2 +++ String ":" u2) in Heq.
  rewrite !cut_at_append in Heq by done. by injection Heq.
Qed.
