(* ===== verification/Account.v ===== *)
(** server/rate_limiter.py: [FailureWindow] and [AccountClient].

    The freeze buckets of an account are its in-memory truth: one entry for the
    account, one per model.  Times are microseconds, an expiry of [None] is a
    permanent freeze and [Some 0] no freeze. *)
From S2P Require Import Prelude Windows Rules.

(** ** FailureWindow *)

Record failure_window := FailureWindow {
  fw_picks : list Z; fw_success : list Z; fw_failure : list Z;
  fw_consecutive_failures : Z; fw_consecutive_successes : Z; fw_window : Z;
}.
Definition new_failure_window (window : Z) : failure_window := FailureWindow [] [] [] 0 0 window.

(** [t for t in l if now - t < window] *)
Definition recent (now window : Z) (l : list Z) : list Z := filter (fun t => now - t < window) l.

Definition record_pick (now : Z) (w : failure_window) : failure_window :=
  FailureWindow (fw_picks w ++ [now]) (fw_success w) (fw_failure w)
    (fw_consecutive_failures w) (fw_consecutive_successes w) (fw_window w).

(** In hundredths: 100 up to the cap, then 15 less per pick, never below 30. *)
Definition pick_factor (now soft_cap window : Z) (w : failure_window) : Z * failure_window :=
  let picks := recent now window (fw_picks w) in
  let n := Z.of_nat (length picks) in
  (if n <=? soft_cap then 100 else Z.max 30 (100 - (n - soft_cap) * 15),
   FailureWindow picks (fw_success w) (fw_failure w)
     (fw_consecutive_failures w) (fw_consecutive_successes w) (fw_window w)).

Definition record_success (now : Z) (w : failure_window) : failure_window :=
  FailureWindow (fw_picks w) (fw_success w ++ [now]) (fw_failure w) 0 (fw_consecutive_successes w + 1) (fw_window w).

Definition record_failure (now : Z) (account_level : bool) (w : failure_window) : failure_window :=
  FailureWindow (fw_picks w) (fw_success w) (fw_failure w ++ [now])
    (if account_level then fw_consecutive_failures w + 1 else fw_consecutive_failures w) 0 (fw_window w).

(** Failures and all events of the window: the rate is their quotient, 0 without events. *)
Definition error_rate (now window : Z) (w : failure_window) : Z * Z * failure_window :=
  let s := recent now window (fw_success w) in
  let f := recent now window (fw_failure w) in
  (Z.of_nat (length f), Z.of_nat (length s + length f),
   FailureWindow (fw_picks w) s f (fw_consecutive_failures w) (fw_consecutive_successes w) (fw_window w)).

Definition circuit_failure_count (now : Z) (w : failure_window) : Z * failure_window :=
  let f := recent now (fw_window w) (fw_failure w) in
  (Z.of_nat (length f),
   FailureWindow (fw_picks w) (fw_success w) f (fw_consecutive_failures w) (fw_consecutive_successes w) (fw_window w)).

Definition clear_circuit (w : failure_window) : failure_window :=
  FailureWindow (fw_picks w) (fw_success w) [] (fw_consecutive_failures w) (fw_consecutive_successes w) (fw_window w).
Definition reset_failures (w : failure_window) : failure_window :=
  FailureWindow (fw_picks w) (fw_success w) (fw_failure w) 0 (fw_consecutive_successes w) (fw_window w).
Definition reset_streaks (w : failure_window) : failure_window :=
  FailureWindow (fw_picks w) (fw_success w) (fw_failure w) 0 0 (fw_window w).
Definition clear_all (w : failure_window) : failure_window := new_failure_window (fw_window w).

(** ** AccountClient *)

(** AccountState *)
Inductive account_state :=
| DISABLED | CREDENTIAL_INVALID | QUOTA_EXHAUSTED | FROZEN | COOLING
| MODEL_FROZEN | UNINITIALIZED | AUTH_FAILED | CHECKING | AVAILABLE.
#[export] Instance account_state_eq_dec : EqDecision account_state.
Proof. solve_decision. Defined.

Definition ROUTABLE_STATES : list account_state := [AVAILABLE; CHECKING; AUTH_FAILED; MODEL_FROZEN].

Record freeze_entry := FreezeEntry { fe_until : option Z; fe_reason : string; fe_category : string }.
Definition no_freeze : freeze_entry := FreezeEntry (Some 0) "" "".

Record account_limits := AccountLimits {
  al_rpm : Z; al_rpd : Z; al_rph : Z; al_tpm : Z; al_tph : Z; al_tpd : Z; al_concurrent : Z;
}.

(** What the provider object answers. *)
Inductive init_check := NoInitMethod | InitRaises | InitReturns (b : bool).
Record quota_dimension := QuotaDimension {
  qd_name : string; qd_remaining : option Z; qd_limit : option Z; qd_exhausted : bool;
}.
Record provider_quota := ProviderQuota {
  pq_daily_remaining : option Z; pq_daily_limit : option Z; pq_dimensions : list quota_dimension;
}.

Record account_client := AccountClient {
  ac_provider_name : string; ac_username : string;
  ac_limits : account_limits; ac_disabled : bool; ac_disable_reason : string;
  ac_account : freeze_entry; ac_models : list (string * freeze_entry);
  ac_auth_ok : option bool; ac_init : init_check; ac_quotas : option provider_quota;
  ac_daily_remaining : option Z; ac_daily_limit : option Z; ac_quota_disabled_until : Z;
  ac_stats : failure_window; ac_requests : list Z; ac_token_usages : list (Z * Z);
  ac_in_flight : Z; ac_leases : list (string * limit_lease); ac_is_test : bool;
}.

(** Field updates. *)
Definition set_buckets (acc : freeze_entry) (models : list (string * freeze_entry)) (c : account_client) : account_client :=
  AccountClient (ac_provider_name c) (ac_username c) (ac_limits c) (ac_disabled c) (ac_disable_reason c)
    acc models (ac_auth_ok c) (ac_init c) (ac_quotas c) (ac_daily_remaining c) (ac_daily_limit c)
    (ac_quota_disabled_until c) (ac_stats c) (ac_requests c) (ac_token_usages c) (ac_in_flight c) (ac_leases c) (ac_is_test c).
Definition set_disabled (reason : string) (c : account_client) : account_client :=
  AccountClient (ac_provider_name c) (ac_username c) (ac_limits c) true reason
    (ac_account c) (ac_models c) (ac_auth_ok c) (ac_init c) (ac_quotas c) (ac_daily_remaining c) (ac_daily_limit c)
    (ac_quota_disabled_until c) (ac_stats c) (ac_requests c) (ac_token_usages c) (ac_in_flight c) (ac_leases c) (ac_is_test c).
Definition set_quota (remaining limit : option Z) (until : Z) (c : account_client) : account_client :=
  AccountClient (ac_provider_name c) (ac_username c) (ac_limits c) (ac_disabled c) (ac_disable_reason c)
    (ac_account c) (ac_models c) (ac_auth_ok c) (ac_init c) (ac_quotas c) remaining limit
    until (ac_stats c) (ac_requests c) (ac_token_usages c) (ac_in_flight c) (ac_leases c) (ac_is_test c).
Definition set_signals (requests : list Z) (tokens : list (Z * Z)) (c : account_client) : account_client :=
  AccountClient (ac_provider_name c) (ac_username c) (ac_limits c) (ac_disabled c) (ac_disable_reason c)
    (ac_account c) (ac_models c) (ac_auth_ok c) (ac_init c) (ac_quotas c) (ac_daily_remaining c) (ac_daily_limit c)
    (ac_quota_disabled_until c) (ac_stats c) requests tokens (ac_in_flight c) (ac_leases c) (ac_is_test c).
Definition set_leases (in_flight : Z) (leases : list (string * limit_lease)) (c : account_client) : account_client :=
  AccountClient (ac_provider_name c) (ac_username c) (ac_limits c) (ac_disabled c) (ac_disable_reason c)
    (ac_account c) (ac_models c) (ac_auth_ok c) (ac_init c) (ac_quotas c) (ac_daily_remaining c) (ac_daily_limit c)
    (ac_quota_disabled_until c) (ac_stats c) (ac_requests c) (ac_token_usages c) in_flight leases (ac_is_test c).

(** ** Freeze buckets *)

Inductive freeze_kind := KAccount | KAccountModel.

(** [u is None or u > now] *)
Definition live (now : Z) (until : option Z) : bool := match until with None => true | Some u => now <? u end.

Definition is_frozen (now : Z) (c : account_client) : bool := live now (fe_until (ac_account c)).
Definition is_model_frozen (now : Z) (model_id : string) (c : account_client) : bool :=
  match dict_get model_id (ac_models c) with Some e => live now (fe_until e) | None => false end.

(** The model an entry goes to: [kind == "account_model" and model_id]. *)
Definition model_target (kind : freeze_kind) (model_id : option string) : option string :=
  match kind, model_id with
  | KAccountModel, Some m => if str_truthy m then Some m else None
  | _, _ => None
  end.

(** None: 0 seconds, no freeze.  [Some until] otherwise. *)
Definition freeze_until (now : Z) (seconds : option Z) : option (option Z) :=
  match seconds with
  | None => Some None
  | Some n => if 0 <? n then Some (Some (now + sec n)) else None
  end.

Definition freeze (now : Z) (kind : freeze_kind) (model_id : option string) (seconds : option Z)
    (reason : string) (refresh : bool) (category : string) (c : account_client) : bool * account_client :=
  match freeze_until now seconds with
  | None => (false, c)
  | Some until =>
      let target := model_target kind model_id in
      let already := match target with Some m => is_model_frozen now m c | None => is_frozen now c end in
      if negb refresh && already then (false, c) else
      let entry := FreezeEntry until reason category in
      match target with
      | Some m => (true, set_buckets (ac_account c) (dict_set m entry (ac_models c)) c)
      | None => (true, set_buckets entry (ac_models c) c)
      end
  end.

Definition unfreeze (kind : freeze_kind) (model_id : option string) (c : account_client) : bool * account_client :=
  match model_target kind model_id with
  | Some m =>
      match dict_get m (ac_models c) with
      | Some _ => (true, set_buckets (ac_account c) (dict_del m (ac_models c)) c)
      | None => (false, c)
      end
  | None =>
      (match fe_until (ac_account c) with
       | Some _ => true
       | None => match ac_models c with [] => false | _ => true end
       end, set_buckets no_freeze [] c)
  end.

Definition set_freeze_state_raw (account_until : option Z) (model_untils : list (string * option Z))
    (reason category : string) (c : account_client) : account_client :=
  let acc := match account_until with
             | Some u => if u =? 0 then ac_account c else FreezeEntry (Some u) reason category
             | None => ac_account c
             end in
  let models := foldl (fun d mu => dict_set mu.1 (FreezeEntry mu.2 reason category) d) (ac_models c) model_untils in
  set_buckets acc models c.

(** [int(u - now)] *)
Definition cooldown_remaining (now : Z) (c : account_client) : Z :=
  match fe_until (ac_account c) with
  | None => 0
  | Some u => if u <=? now then 0 else (u - now) / sec 1
  end.

Definition freeze_reason (c : account_client) : string := fe_reason (ac_account c).
Definition freeze_category (now : Z) (c : account_client) : string :=
  if is_frozen now c then fe_category (ac_account c) else "".
Definition last_request_at (c : account_client) : Z := default 0 (last (ac_requests c)).

Definition is_available (now : Z) (model_id : option string) (c : account_client) : bool :=
  if ac_disabled c then false
  else if is_frozen now c then false
  else match model_id with
       | Some m => negb (str_truthy m && is_model_frozen now m c)
       | None => true
       end.

(** Stable sort by expiry, permanent last. *)
Definition sooner (a b : option Z) : bool :=
  match a, b with Some x, Some y => x <? y | Some _, None => true | None, _ => false end.
Fixpoint insert_by (x : option Z * string) (l : list (option Z * string)) : list (option Z * string) :=
  match l with
  | [] => [x]
  | y :: l' => if sooner x.1 y.1 then x :: l else y :: insert_by x l'
  end.
Definition sort_by_expiry (l : list (option Z * string)) : list (option Z * string) :=
  foldl (fun acc x => insert_by x acc) [] l.

(** The frozen models, soonest expiry first; expired entries are dropped. *)
Definition frozen_model_ids (now : Z) (c : account_client) : list string * account_client :=
  let alive := filter (fun me => live now (fe_until me.2) = true) (ac_models c) in
  ((sort_by_expiry ((fun me => (fe_until me.2, me.1)) <$> alive)).*2,
   set_buckets (ac_account c) alive c).

Definition prune_freeze_for_models (valid : list string) (c : account_client) : list string * account_client :=
  ((filter (fun me => me.1 ∉ valid) (ac_models c)).*1,
   set_buckets (ac_account c) (filter (fun me => me.1 ∈ valid) (ac_models c)) c).

Definition initialized (i : init_check) : bool :=
  match i with NoInitMethod => true | InitRaises => false | InitReturns b => b end.

Definition state (now : Z) (c : account_client) : account_state * account_client :=
  if ac_disabled c then (DISABLED, c)
  else if is_frozen now c then
    let category := freeze_category now c in
    (if String.eqb category "credential" then CREDENTIAL_INVALID
     else if String.eqb category "quota" then QUOTA_EXHAUSTED
     else if 0 <? cooldown_remaining now c then COOLING else FROZEN, c)
  else
    let '(frozen, c') := frozen_model_ids now c in
    (match frozen with
     | _ :: _ => MODEL_FROZEN
     | [] =>
         if negb (initialized (ac_init c)) then UNINITIALIZED
         else match ac_auth_ok c with
              | Some false => AUTH_FAILED
              | None => CHECKING
              | Some true => AVAILABLE
              end
     end, c').

(** The legacy accessors. *)
Definition _cooldown_until (c : account_client) : Z := default 0 (fe_until (ac_account c)).
Definition set_cooldown_until (value : Z) (c : account_client) : account_client :=
  set_buckets (FreezeEntry (Some value) (fe_reason (ac_account c)) (fe_category (ac_account c))) (ac_models c) c.
Definition set_cooldown_reason (value : string) (c : account_client) : account_client :=
  set_buckets (FreezeEntry (fe_until (ac_account c)) value (fe_category (ac_account c))) (ac_models c) c.
Definition set_cooldown (now seconds : Z) (reason : string) (c : account_client) : account_client :=
  (freeze now KAccount None (Some seconds) reason true "" c).2.

(** ** Provider-reported quota *)

Definition _has_provider_quota (c : account_client) : bool := bool_decide (is_Some (ac_daily_limit c)).

Definition update_provider_quota (now : Z) (remaining limit : option Z) (c : account_client) : account_client :=
  set_quota (match remaining with Some _ => remaining | None => ac_daily_remaining c end)
    (match limit with Some _ => limit | None => ac_daily_limit c end)
    (match remaining with
     | Some r => if r <=? 0 then now + sec 86400 else 0
     | None => ac_quota_disabled_until c
     end) c.

Definition sync_provider_quota (now : Z) (c : account_client) : account_client :=
  match ac_quotas c with
  | None => c
  | Some q =>
      let c := match pq_daily_remaining q, pq_daily_limit q with
               | None, None => c
               | r, l => update_provider_quota now r l c
               end in
      foldl (fun c d => if String.eqb (qd_name d) "requests_daily"
                        then update_provider_quota now (qd_remaining d) (qd_limit d) c else c)
        c (pq_dimensions q)
  end.

Definition concurrent_used (c : account_client) : Z := ac_in_flight c.
