(* ===== verification/AccountProps.v ===== *)
(** What the freeze buckets and the account state guarantee. *)
From Stdlib Require Import Sorting.Sorted.
From S2P Require Import Prelude Windows Rules Account.

(** ** Sorting *)

Lemma insert_by_perm x l : insert_by x l ≡ₚ x :: l.
Proof.
  induction l as [|y l IH]; simpl; [done|]. case_match; [done|]. rewrite IH. apply Permutation_swap.
Qed.

Lemma sort_by_expiry_perm l : sort_by_expiry l ≡ₚ l.
Proof.
  unfold sort_by_expiry. assert (forall acc, foldl (fun acc x => insert_by x acc) acc l ≡ₚ l ++ acc) as Hg.
  { induction l as [|x l IH]; intros acc; simpl; [done|]. rewrite IH, insert_by_perm. by rewrite Permutation_middle. }
  by rewrite Hg, app_nil_r.
Qed.

(** [a] is not strictly later than [b]. *)
Definition not_later (a b : option Z * string) : Prop := sooner b.1 a.1 = false.

Lemma sooner_trans_false a b c : sooner b a = false -> sooner c b = false -> sooner c a = false.
Proof. destruct a, b, c; simpl; try done. rewrite !Z.ltb_ge. lia. Qed.

Lemma sooner_asym a b : sooner a b = true -> sooner b a = false.
Proof. destruct a, b; simpl; try done. rewrite Z.ltb_lt, Z.ltb_ge. lia. Qed.

Lemma insert_by_sorted x l : StronglySorted not_later l -> StronglySorted not_later (insert_by x l).
Proof.
  induction 1 as [|y l Hs IH Hall]; simpl; [repeat constructor|].
  destruct (sooner x.1 y.1) eqn:E.
  - constructor; [by constructor|]. constructor; [by apply sooner_asym|].
    eapply Forall_impl; [exact Hall|]. intros z Hz. unfold not_later in *.
    eapply sooner_trans_false; [|exact Hz]. by apply sooner_asym.
  - constructor; [done|]. rewrite insert_by_perm. by constructor.
Qed.

Lemma sort_by_expiry_sorted l : StronglySorted not_later (sort_by_expiry l).
Proof.
  unfold sort_by_expiry. assert (forall acc, StronglySorted not_later acc ->
    StronglySorted not_later (foldl (fun acc x => insert_by x acc) acc l)) as Hg.
  { induction l as [|x l IH]; intros acc Ha; simpl; [done|]. apply IH. by apply insert_by_sorted. }
  apply Hg. constructor.
Qed.

(** ** Dicts of entries *)

Definition bucket_wf (c : account_client) : Prop := NoDup (ac_models c).*1.

Lemma filter_keys_NoDup {A} (P : string * A -> Prop) `{!forall x, Decision (P x)} d : NoDup d.*1 -> NoDup (filter P d).*1.
Proof.
  induction d as [|[k' x] d IH]; [done|]. intros [Hk Hd]%NoDup_cons. rewrite filter_cons.
  case_decide; simpl; [|by apply IH]. constructor; [|by apply IH].
  intros Hin. apply Hk. apply list_elem_of_fmap in Hin as ([k2 y] & -> & [_ Hy]%list_elem_of_filter).
  apply list_elem_of_fmap. by exists (k2, y).
Qed.

Section props.
Implicit Types (c : account_client) (now : Z).

(** A freeze of positive or unlimited length writes exactly its target: the account
    entry, or the entry of one model; every other bucket keeps its value.  With
    refreshing off, a target already frozen keeps its expiry, and a length of
    zero or less changes nothing; the result says whether it wrote. *)
Lemma freeze_effect now kind model seconds reason refresh category c :
  let '(changed, c') := freeze now kind model seconds reason refresh category c in
  let target := model_target kind model in
  let frozen := match target with Some m => is_model_frozen now m c | None => is_frozen now c end in
  (changed = true <-> freeze_until now seconds <> None /\ (refresh = true \/ frozen = false)) /\
  (changed = false -> c' = c) /\
  (forall until, changed = true -> freeze_until now seconds = Some until ->
    let entry := FreezeEntry until reason category in
    (ac_account c' = match target with None => entry | Some _ => ac_account c end) /\
    (forall m, dict_get m (ac_models c') = if decide (target = Some m) then Some entry else dict_get m (ac_models c)) /\
    live now until = true) /\
  ac_disabled c' = ac_disabled c /\ ac_auth_ok c' = ac_auth_ok c.
Proof.
  unfold freeze. destruct (freeze_until now seconds) as [until|] eqn:Hu.
  2:{ split_and!; try done. split; [done|]. by intros [? _]. }
  assert (live now until = true) as Hl.
  { unfold freeze_until in Hu. destruct seconds as [n|]; [|by injection Hu as <-].
    destruct (0 <? n) eqn:E; [|done]. injection Hu as <-. simpl. btrue. apply Z.ltb_lt. unfold sec. lia. }
  set (target := model_target kind model).
  set (frozen := match target with Some m => is_model_frozen now m c | None => is_frozen now c end).
  destruct (negb refresh && frozen) eqn:E.
  - apply andb_prop in E as [Hr Hf]. apply negb_true_iff in Hr. subst refresh. rewrite Hf.
    split_and!; try done. split; [done|]. by intros [_ [?|?]].
  - assert (refresh = true \/ frozen = false) as Hor by (destruct refresh, frozen; simpl in E; auto).
    destruct target as [m|] eqn:Ht; (split_and!; try done); intros u _ [= <-]; (split_and!; [done| |done]); intros m'; simpl.
    all: rewrite ?dict_get_set; repeat case_decide; try congruence; try tauto.
Qed.

(** The account state is routable exactly when the account may be routed to: it is
    enabled, not frozen at account level, and either has frozen models or a
    complete credential; a routable account passes the availability test of
    the selector. *)
Lemma state_routable now c :
  let s := (state now c).1 in
  (s ∈ ROUTABLE_STATES <->
    ac_disabled c = false /\ is_frozen now c = false /\
    ((exists me, me ∈ ac_models c /\ live now (fe_until me.2) = true) \/ initialized (ac_init c) = true)) /\
  (s ∈ ROUTABLE_STATES -> is_available now None c = true).
Proof.
  assert (forall s : account_state, s ∈ ROUTABLE_STATES <-> s = AVAILABLE \/ s = CHECKING \/ s = AUTH_FAILED \/ s = MODEL_FROZEN) as Hr.
  { intros s. unfold ROUTABLE_STATES. rewrite !elem_of_cons, elem_of_nil. tauto. }
  intros s. assert (s ∈ ROUTABLE_STATES <-> ac_disabled c = false /\ is_frozen now c = false /\
    ((exists me, me ∈ ac_models c /\ live now (fe_until me.2) = true) \/ initialized (ac_init c) = true)) as Hs.
  { rewrite Hr. unfold s, state. destruct (ac_disabled c); [simpl; naive_solver|].
    destruct (is_frozen now c) eqn:Hf.
    { cbn [fst]. repeat case_match; naive_solver. }
    unfold frozen_model_ids. set (alive := filter (fun me => live now (fe_until me.2) = true) (ac_models c)).
    assert ((sort_by_expiry ((fun me => (fe_until me.2, me.1)) <$> alive)).*2 ≡ₚ alive.*1) as Hp.
    { rewrite sort_by_expiry_perm. rewrite <- list_fmap_compose. done. }
    destruct alive as [|me alive'] eqn:Ha.
    - apply Permutation_nil_r in Hp. rewrite Hp. cbn [fst].
      assert (~ exists me, me ∈ ac_models c /\ live now (fe_until me.2) = true) as Hn.
      { intros (me & Hin & Hl). assert (me ∈ alive) as Hx by by apply list_elem_of_filter.
        rewrite Ha in Hx. set_solver. }
      destruct (initialized (ac_init c)); simpl; [destruct (ac_auth_ok c) as [[]|]|]; naive_solver.
    - destruct (sort_by_expiry _).*2 as [|x l]; [by apply Permutation_nil_l in Hp|]. cbn [fst].
      assert (exists me, me ∈ ac_models c /\ live now (fe_until me.2) = true) as Hex.
      { exists me. assert (me ∈ filter (fun me => live now (fe_until me.2) = true) (ac_models c)) as Hx.
        { fold alive. rewrite Ha. set_solver. }
        apply list_elem_of_filter in Hx. tauto. }
      naive_solver. }
  split; [exact Hs|]. intros (Hd & Hf & _)%Hs. unfold is_available. by rewrite Hd, Hf.
Qed.

(** The list of frozen models holds exactly the models that are frozen now, each
    once, soonest expiry first; dropping the expired entries changes no
    answer of [is_model_frozen]. *)
Lemma frozen_models_exact now c :
  bucket_wf c ->
  let '(ids, c') := frozen_model_ids now c in
  (forall m, m ∈ ids <-> is_model_frozen now m c = true) /\ NoDup ids /\
  (exists l, ids = l.*2 /\ StronglySorted not_later l /\
     forall u m, (u, m) ∈ l -> exists e, dict_get m (ac_models c) = Some e /\ fe_until e = u) /\
  (forall m, is_model_frozen now m c' = is_model_frozen now m c) /\ bucket_wf c'.
Proof.
  intros Hwf. unfold frozen_model_ids. set (P := fun me : string * freeze_entry => live now (fe_until me.2) = true).
  change (filter (fun me => live now (fe_until me.2) = true) (ac_models c)) with (filter P (ac_models c)).
  set (pairs := (fun me : string * freeze_entry => (fe_until me.2, me.1)) <$> filter P (ac_models c)).
  assert (forall u m, (u, m) ∈ pairs <-> exists e, dict_get m (ac_models c) = Some e /\ fe_until e = u /\ live now u = true) as Hin.
  { intros u m. unfold pairs. rewrite list_elem_of_fmap. split.
    - intros ([m' e] & [= -> ->] & [Hl Hme]%list_elem_of_filter). simpl in *. exists e. split_and!; [|done..].
      clear -Hwf Hme. unfold bucket_wf in Hwf. induction (ac_models c) as [|[k x] d IH]; [set_solver|].
      simpl in *. apply NoDup_cons in Hwf as [Hk Hd]. apply elem_of_cons in Hme as [[= -> ->]|Hme]; [by rewrite decide_True|].
      rewrite decide_False; [by apply IH|]. intros ->. apply Hk, list_elem_of_fmap. by exists (k, e).
    - intros (e & Hg & <- & Hl). exists (m, e). split; [done|]. apply list_elem_of_filter. split; [done|].
      by apply dict_get_Some_elem. }
  pose proof (sort_by_expiry_perm pairs) as Hp. split_and!.
  - intros m. rewrite Hp. rewrite list_elem_of_fmap. unfold is_model_frozen. split.
    + intros ([u m'] & -> & (e & Hg & <- & Hl)%Hin). simpl. by rewrite Hg.
    + destruct (dict_get m (ac_models c)) as [e|] eqn:Hg; [|done]. intros Hl. exists (fe_until e, m). split; [done|].
      apply Hin. eauto.
  - rewrite Hp. unfold pairs. rewrite <- list_fmap_compose. apply (filter_keys_NoDup P). exact Hwf.
  - exists (sort_by_expiry pairs). split_and!; [done | apply sort_by_expiry_sorted|].
    intros u m Hm. rewrite Hp in Hm. apply Hin in Hm as (e & Hg & Hu & _). eauto.
  - intros m. unfold is_model_frozen. simpl. rewrite dict_get_filter by done.
    destruct (dict_get m (ac_models c)) as [e|]; [|done]. case_decide as HP; [done|].
    unfold P in HP. simpl in HP. by destruct (live now (fe_until e)).
  - unfold bucket_wf. simpl. apply (filter_keys_NoDup P). exact Hwf.
Qed.

(** [unfreeze] clears every bucket of the account, but what it returns is the
    reverse of its contract at both ends: true for an account that was never
    frozen, false for one whose permanent freeze it has just cleared. *)
Lemma unfreeze_reports_wrong now c :
  let '(changed, c') := unfreeze KAccount None c in
  is_frozen now c' = (now <? 0) /\ ac_models c' = [] /\
  (ac_account c = no_freeze -> ac_models c = [] -> changed = true) /\
  (fe_until (ac_account c) = None -> ac_models c = [] -> is_frozen now c = true /\ changed = false).
Proof.
  unfold unfreeze. simpl. unfold is_frozen. simpl. split_and!; try done.
  - intros -> _. done.
  - intros -> ->. done.
Qed.

(** The raw restore documents [None] as a permanent freeze and ignores it:
    the account entry is left as it was, whatever reason and category come
    with it. *)
Lemma raw_restore_skips_permanent models reason category c :
  ac_account (set_freeze_state_raw None models reason category c) = ac_account c /\
  ac_account (set_freeze_state_raw None models reason category c)
    = ac_account (set_freeze_state_raw (Some 0) models reason category c).
Proof. done. Qed.

(** In the last second of a temporary freeze the remaining seconds truncate
    to 0 and the state is FROZEN, the permanent one, instead of COOLING. *)
Lemma last_second_reads_permanent now u c :
  ac_disabled c = false -> fe_until (ac_account c) = Some u -> now < u < now + sec 1 ->
  fe_category (ac_account c) <> "credential" -> fe_category (ac_account c) <> "quota" ->
  (state now c).1 = FROZEN.
Proof.
  intros Hd Hu Hnow Hc Hq. unfold state. rewrite Hd.
  assert (is_frozen now c = true) as Hf.
  { unfold is_frozen. rewrite Hu. simpl. apply Z.ltb_lt. lia. }
  unfold freeze_category. rewrite Hf. cbn [fst].
  destruct (String.eqb_spec (fe_category (ac_account c)) "credential"); [done|].
  destruct (String.eqb_spec (fe_category (ac_account c)) "quota"); [done|].
  unfold cooldown_remaining. rewrite Hu, (proj2 (Z.leb_gt u now)) by lia.
  rewrite Z.div_small by (unfold sec in *; lia). done.
Qed.
End props.

Module AccountSample.
Definition c0 : account_client :=
  {| ac_provider_name := "p"; ac_username := "u"; ac_limits := AccountLimits 60 0 0 1000 0 0 2;
     ac_disabled := false; ac_disable_reason := "";
     ac_account := FreezeEntry (Some (sec 100 + 400000)) "429" "";
     ac_models := [("m1", FreezeEntry None "" ""); ("m2", FreezeEntry (Some (sec 50)) "" ""); ("m3", FreezeEntry (Some (sec 200)) "" "")];
     ac_auth_ok := Some true; ac_init := InitReturns true; ac_quotas := None;
     ac_daily_remaining := None; ac_daily_limit := None; ac_quota_disabled_until := 0;
     ac_stats := new_failure_window (sec 300); ac_requests := []; ac_token_usages := [];
     ac_in_flight := 0; ac_leases := []; ac_is_test := false |}.

Lemma frozen_models_exact_witness :
  (frozen_model_ids (sec 100) c0).1 = ["m3"; "m1"] /\
  (forall m, m ∈ (frozen_model_ids (sec 100) c0).1 <-> is_model_frozen (sec 100) m c0 = true).
Proof.
  split; [by vm_compute|].
  assert (bucket_wf c0) as Hwf by by apply (bool_decide_unpack _).
  exact (proj1 (frozen_models_exact (sec 100) c0 Hwf)).
Defined.

Lemma last_second_reads_permanent_witness :
  (state (sec 99) c0).1 = COOLING /\ (state (sec 100) c0).1 = FROZEN.
Proof.
  split; [by vm_compute|].
  apply (last_second_reads_permanent (sec 100) (sec 100 + 400000) c0); try done.
Defined.
End AccountSample.
