(* ===== verification/Pool.v ===== *)
(** server/rate_limiter.py: [ProviderPool], the freeze side: from a failed
    request, a semantic error of the channel or a success to the freeze buckets
    of the accounts.

    The methods are synchronous: they change the buckets at once and schedule
    tasks (Redis writes, broadcasts, persistence) on the running event loop.
    [P] threads the pool and collects the scheduled tasks in order; [run_task]
    is what a task does to Redis. *)
From S2P Require Import Prelude Redis Client Windows Json Text Policy Rules Cooldown Account.

(** ** summarize_freeze_reason *)

Definition _FREEZE_REASON_MAX_LENGTH : nat := 200.
Definition _REASON_MESSAGE_KEYS := ["message"; "msg"; "detail"; "error"].

(** [json.dumps(v, ensure_ascii=False)]; numbers keep their text. *)
Fixpoint dump_json (v : json) : string :=
  match v with
  | JNull => "null"
  | JBool b => if b then "true" else "false"
  | JNum t => t
  | JStr s => quote s
  | JArr l => "[" +++ join ", " (dump_json <$> l) +++ "]"
  | JObj d => "{" +++ join ", " ((fun kv => quote kv.1 +++ ": " +++ dump_json kv.2) <$> d) +++ "}"
  end.

(** The first non-empty answer. *)
Fixpoint first_text (l : list string) : string :=
  match l with [] => "" | x :: l' => if str_truthy x then x else first_text l' end.

(** The text of the first message key, looking into nested values. *)
Fixpoint _pick_reason_message (v : json) : string :=
  match v with
  | JObj d =>
      let at_key (key : string) :=
        (fix look (d : list (string * json)) (found : string) : string :=
           match d with
           | [] => found
           | (k, x) :: d' =>
               look d' (if decide (k = key) then
                          match x with
                          | JStr t => strip t
                          | JObj _ | JArr _ => _pick_reason_message x
                          | _ => ""
                          end
                        else found)
           end) d "" in
      let display (key : string) :=
        match obj_get key d with
        | Some (JObj texts) =>
            first_text ((fun lang => match obj_get lang texts with Some (JStr t) => strip t | _ => "" end)
                          <$> ["en"; "zh"; "zh-hant"])
        | _ => ""
        end in
      first_text ((at_key <$> _REASON_MESSAGE_KEYS) ++ (display <$> ["displayMsg"; "display_message"]))
  | JArr l => first_text (_pick_reason_message <$> l)
  | _ => ""
  end.

(** Characters of UTF-8 text: every byte that is not a continuation byte. *)
Definition continuation (c : ascii) : bool := let n := nat_of_ascii c in (128 <=? n)%nat && (n <? 192)%nat.
Fixpoint utf8_length (s : string) : nat :=
  match s with
  | EmptyString => 0
  | String c s' => if continuation c then utf8_length s' else S (utf8_length s')
  end.
Fixpoint utf8_take (n : nat) (s : string) : string :=
  match s with
  | EmptyString => EmptyString
  | String c s' =>
      if continuation c then String c (utf8_take n s')
      else match n with O => EmptyString | S n' => String c (utf8_take n' s') end
  end.
Definition ELLIPSIS : string := String "226" (String "128" (String "166" "")).

(** [" ".join(text.split())] *)
Fixpoint blanks_to_space (s : string) : string :=
  match s with
  | EmptyString => EmptyString
  | String c s' => String (if py_space c then " "%char else c) (blanks_to_space s')
  end.
Definition squeeze (s : string) : string :=
  join " " (filter (fun w => str_truthy w = true) (split_on " "%char (blanks_to_space s))).

Definition opens_json (s : string) : bool :=
  match s with String c _ => bool_decide (c ∈ ["{"; "["]%char) | EmptyString => false end.

Section pool.
Variables (py_str : json -> string) (utc_offset : Z -> Z).

Definition summarize_freeze_reason (reason : option json) : string :=
  match reason with
  | None | Some JNull => ""
  | Some v =>
      let text := strip (match v with JObj _ | JArr _ => dump_json v | _ => json_str_of py_str v end) in
      if negb (str_truthy text) then "" else
      let extracted :=
        if opens_json text then match loads text with Some p => _pick_reason_message p | None => "" end else "" in
      let text := squeeze (if str_truthy extracted then extracted else text) in
      if (_FREEZE_REASON_MAX_LENGTH <? utf8_length text)%nat
      then rstrip (utf8_take _FREEZE_REASON_MAX_LENGTH text) +++ ELLIPSIS
      else text
  end.

(** The reason argument of the pool's methods: a text, "" by default. *)
Definition summary (reason : string) : string := summarize_freeze_reason (Some (JStr reason)).

(** ** The pool and its scheduled tasks *)

(** [pl_policy] is the channel's effective freeze policy, None when reading it
    raises; [pl_enabled] the channel switch. *)
Record pool := Pool {
  pl_provider_name : string; pl_clients : list account_client; pl_current_index : Z;
  pl_enabled : bool; pl_policy : option json;
}.
Definition set_clients (cs : list account_client) (p : pool) : pool :=
  Pool (pl_provider_name p) cs (pl_current_index p) (pl_enabled p) (pl_policy p).
Definition set_enabled (b : bool) (p : pool) : pool :=
  Pool (pl_provider_name p) (pl_clients p) (pl_current_index p) b (pl_policy p).

(** What _notify_freeze hands to the notification centre (its texts aside). *)
Record notification := Notification {
  nt_event : string; nt_severity : string; nt_account : option string; nt_model : option string;
  nt_scope : string; nt_reason : string; nt_seconds : Z; nt_permanent : bool; nt_disabled : bool;
  nt_dedupe_key : string; nt_dedupe_window : Z;
}.

Inductive task :=
| SetAccount (username : string) (seconds : option Z) (reason category : string)
| SetModel (username model : string) (seconds : option Z) (reason category : string)
| ClearAccount (username : string)
| ClearModel (username model : string)
| ClearProvider
| Broadcast (username : string) (model : option string) (seconds : option Z) (reason category : string)
| BroadcastCleared (username : string) (model : option string)
| Notify (n : notification)
| PersistChannelDisabled
| PersistAccountDisabled (username : string).

Definition P (A : Type) : Type := pool -> A * pool * list task.
#[global] Instance P_ret : MRet P := fun A a p => (a, p, []).
#[global] Instance P_bind : MBind P := fun A B k m p =>
  let '(a, p1, t1) := m p in let '(b, p2, t2) := k a p1 in (b, p2, t1 ++ t2).

Definition get_pool : P pool := fun p => (p, p, []).
Definition schedule (t : task) : P unit := fun p => (tt, p, [t]).

(** Run [f] on the account object at a position of the list. *)
Definition at_client {A} (d : A) (i : nat) (f : account_client -> A * account_client) : P A := fun p =>
  match pl_clients p !! i with
  | Some c => let '(a, c') := f c in (a, set_clients (<[i := c']> (pl_clients p)) p, [])
  | None => (d, p, [])
  end.

Definition client_at (i : nat) : P (option account_client) := fun p => (pl_clients p !! i, p, []).

(** [next((c for c in self.clients if c.username == username), None)] *)
Fixpoint index_of (username : string) (cs : list account_client) : option nat :=
  match cs with
  | [] => None
  | c :: cs' => if decide (ac_username c = username) then Some O else S <$> index_of username cs'
  end.
Definition find_client (username : string) : P (option nat) := fun p => (index_of username (pl_clients p), p, []).

Definition username_at (i : nat) (d : string) : P string := o ← client_at i; mret (from_option ac_username d o).

(** ProviderPool.freeze_refresh_on_failure *)
Definition pool_refresh (p : pool) : bool := freeze_refresh_on_failure (pl_policy p).
Definition refresh_or (refresh : option bool) : P bool :=
  p ← get_pool; mret (match refresh with Some b => b | None => pool_refresh p end).

Definition _notify_freeze (scope username : string) (model_id : option string) (seconds : Z) (reason : string)
    (permanent disabled : bool) : P unit :=
  p ← get_pool;
  let channel := startswith "channel" scope in
  let model := match model_id with Some m => if str_truthy m then Some m else None | None => None end in
  let subject := if channel then "" else username in
  schedule (Notify {|
    nt_event := if channel then "channel.frozen" else "account.frozen";
    nt_severity := if channel then (if disabled then "critical" else "error") else "warn";
    nt_account := if channel then None else Some username; nt_model := model;
    nt_scope := scope; nt_reason := reason; nt_seconds := seconds;
    nt_permanent := permanent; nt_disabled := disabled;
    nt_dedupe_key := "freeze:" +++ pl_provider_name p +++ ":" +++ scope +++ ":" +++ subject +++ ":" +++ default "" model;
    nt_dedupe_window := if permanent || disabled then 3600 else 300 |}).

Section at_time.
Variable now : Z.

(** ** Freezing one account, or one model of an account *)

Definition _freeze_account (i : nat) (seconds : option Z) (reason : string) (refresh : option bool)
    (category : string) : P bool :=
  should_refresh ← refresh_or refresh;
  changed ← at_client false i (freeze now KAccount None seconds reason should_refresh category);
  if negb changed then mret false else
  username ← username_at i "";
  schedule (SetAccount username seconds reason category);;
  schedule (Broadcast username None seconds reason category);;
  mret true.

(** [_freeze_account_model_async] is the scheduled task; a user without an
    account object is only written to Redis. *)
Definition _freeze_account_model (username model_id : string) (seconds : option Z) (reason : string)
    (refresh : option bool) (category : string) : P bool :=
  client ← find_client username;
  should_refresh ← refresh_or refresh;
  changed ← match client with
            | Some i => at_client false i (freeze now KAccountModel (Some model_id) seconds reason should_refresh category)
            | None => mret true
            end;
  if negb changed then mret false else
  schedule (SetModel username model_id seconds reason category);; mret true.

Definition _apply_permanent_freeze (scope username reason : string) : P unit :=
  if negb (String.eqb scope "account") then mret tt else
  client ← find_client username;
  match client with
  | None => mret tt
  | Some i => _freeze_account i None reason (Some true) "";; mret tt
  end.

Definition _apply_disable (scope username reason : string) : P unit :=
  if String.eqb scope "channel" then
    (fun p => (tt, set_enabled false p, []));; schedule PersistChannelDisabled
  else if negb (String.eqb scope "account") then mret tt else
  client ← find_client username;
  match client with
  | None => mret tt
  | Some i => at_client tt i (fun c => (tt, set_disabled "switch_off" c));; schedule (PersistAccountDisabled username)
  end.

(** ** The rules of the channel *)

(** A loop over the account objects. *)
Fixpoint each_client (clients : list nat) (f : nat -> P unit) : P unit :=
  match clients with [] => mret tt | i :: clients' => f i;; each_client clients' f end.
Definition all_clients : P (list nat) := p ← get_pool; mret (seq 0 (length (pl_clients p))).

Definition has_model (model_id : option string) : bool := match model_id with Some m => str_truthy m | None => false end.

(** A model scope without a model widens. *)
Definition widen (scope : string) (model_id : option string) : string :=
  if has_model model_id then scope
  else if String.eqb scope "channel_model" then "channel"
  else if String.eqb scope "account_model" then "account"
  else scope.

(** The temporary freeze of a scope. *)
Definition freeze_scope (scope username : string) (model_id : option string) (seconds : Z) (reason : string) : P unit :=
  let model := default "" model_id in
  if String.eqb scope "channel_model" then
    clients ← all_clients;
    each_client clients (fun i => u ← username_at i "";
                             _freeze_account_model u model (Some seconds) reason None "";; mret tt)
  else if String.eqb scope "channel" then
    clients ← all_clients;
    each_client clients (fun i => _freeze_account i (Some seconds) reason None "";; mret tt)
  else if String.eqb scope "account_model" then
    _freeze_account_model username model (Some seconds) reason None "";; mret tt
  else
    client ← find_client username;
    match client with
    | None => mret tt
    | Some i => _freeze_account i (Some seconds) reason None "";; mret tt
    end.

(** The action a matched rule asks for. *)
Definition apply_action (username : string) (model_id : option string) (reason : string) (a : freeze_action) : P string :=
  if String.eqb (fa_freeze_mode a) "no_freeze" then mret "no_freeze" else
  let text := summary reason in
  let freeze_reason := if str_truthy text then text else "freeze_policy:" +++ fa_freeze_mode a in
  let scope := widen (fa_scope a) model_id in
  if fa_disable a then
    if negb (mem scope ["account"; "channel"]) then mret "" else
    _apply_disable scope username freeze_reason;;
    _notify_freeze scope username model_id (fa_seconds a) freeze_reason false true;; mret "freeze"
  else if fa_permanent a then
    if negb (String.eqb scope "account") then mret "" else
    _apply_permanent_freeze scope username freeze_reason;;
    _notify_freeze scope username model_id (fa_seconds a) freeze_reason true false;; mret "freeze"
  else
    freeze_scope scope username model_id (fa_seconds a) freeze_reason;;
    _notify_freeze scope username model_id (fa_seconds a) freeze_reason false false;; mret "freeze".

Definition apply_freeze_policy (username : string) (status_code : option Z) (headers : list (string * string))
    (model_id : option string) (reason : string) (exception : bool) (error_code : string) : P string :=
  if negb (str_truthy username) then mret "" else
  p ← get_pool;
  match match_freeze py_str utc_offset now (pl_policy p) status_code headers exception error_code with
  | None => mret ""
  | Some (_, a) => apply_action username model_id reason a
  end.

(** ** Errors with a meaning of their own *)

(** [error.freeze]: absent, False, or a dict with [seconds] and [model_id]. *)
Inductive freeze_hint := HintNone | HintFalse | HintDict (seconds : option Z) (model_id : option string).

(** providers/base.py: ChannelError *)
Record channel_error := ChannelError { ce_kind : string; ce_detail : json; ce_freeze : freeze_hint }.
Definition CredentialInvalid (detail : json) := ChannelError "credential_invalid" detail (HintDict None None).
Definition QuotaExhausted (detail : json) := ChannelError "quota_exhausted" detail (HintDict None None).
Definition TemporaryFreeze (detail : json) (seconds : option Z) :=
  ChannelError "temporary_freeze" detail (match seconds with Some _ => HintDict seconds None | None => HintNone end).
Definition UpstreamTransient (detail : json) := ChannelError "upstream_transient" detail HintFalse.
Definition RateLimited (detail : json) := ChannelError "rate_limited" detail HintFalse.
Definition InvalidRequest (detail : json) := ChannelError "invalid_request" detail HintFalse.

Definition _category_for_kind (kind : string) : string :=
  if String.eqb kind "credential_invalid" then "credential"
  else if String.eqb kind "quota_exhausted" then "quota"
  else if String.eqb kind "temporary_freeze" then "temporary"
  else "".

(** The dict match_freeze_rules returns. *)
Definition matched_dict (m : freeze_rule * freeze_action) : list (string * json) :=
  let '(r, a) := m in
  [("rule", JObj [("condition", JStr (fr_condition r)); ("key", JStr (fr_key r)); ("operator", JStr (fr_operator r));
                  ("value", JStr (fr_value r)); ("freeze_object", JStr (fr_object r));
                  ("freeze_period", JStr (fr_period r)); ("freeze_value", JNum (tostring (fr_freeze_value r)));
                  ("enabled", JBool (fr_enabled r))]);
   ("scope", JStr (fa_scope a)); ("seconds", JNum (tostring (fa_seconds a)));
   ("permanent", JBool (fa_permanent a)); ("disable", JBool (fa_disable a)); ("freeze_mode", JStr (fa_freeze_mode a))].

(** _match_error_kind, through _match_error_kind_from_policy *)
Definition _match_error_kind (kind : string) (p : pool) : option (list (string * json)) :=
  policy ← pl_policy p;
  matched_dict <$> match_freeze_rules py_str utc_offset now policy (Response None [] false "" kind None).

(** [matched.get(key, default)] *)
Definition get_or (key : string) (d : json) (m : list (string * json)) : json := default d (obj_get key m).

Definition _apply_account_state (username : string) (seconds : option Z) (reason category : string)
    (respect_refresh : bool) : P string :=
  client ← find_client username;
  match client with
  | None => mret ""
  | Some i => _freeze_account i seconds reason (if respect_refresh then None else Some true) category;; mret "freeze"
  end.

Definition _apply_model_state (username model_id : string) (seconds : option Z) (reason category : string)
    (respect_refresh : bool) : P string :=
  changed ← _freeze_account_model username model_id seconds reason (if respect_refresh then None else Some true) category;
  mret (if changed : bool then "freeze" else "no_freeze").

(** The rule of the channel for this kind of error. *)
Definition apply_error_rule (username : string) (model_id : option string) (reason category : string)
    (matched : list (string * json)) : P string :=
  let action := freeze_rule_to_action utc_offset
                  (json_str_of py_str (get_or "freeze_object" (JStr "account") matched))
                  (json_str_of py_str (get_or "freeze_period" (JStr "seconds") matched))
                  (default 0 (json_int (get_or "freeze_value" (JNum "60") matched))) now in
  if fa_disable action then
    let scope := str_or (fa_scope action) "account" in
    if negb (mem scope ["account"; "channel"]) then mret "" else
    _apply_disable scope username reason;;
    _notify_freeze scope username None 0 reason false true;; mret "freeze"
  else
    let seconds := if fa_permanent action then None else Some (fa_seconds action) in
    if String.eqb (fa_scope action) "account_model" && has_model model_id
    then _apply_model_state username (default "" model_id) seconds reason category true
    else _apply_account_state username seconds reason category true.

(** The default of a class of errors. *)
Definition class_default (category : string) : option Z :=
  if mem category ["credential"; "quota"] then None else Some 60.

(** [error] is None for an exception that is not a ChannelError. *)
Definition apply_channel_error (username : string) (error : option channel_error) (model_id : option string) : P string :=
  match error with
  | None => mret ""
  | Some e =>
      if negb (str_truthy username) then mret "" else
      let text := summary (if json_truthy (ce_detail e) then json_str_of py_str (ce_detail e) else "") in
      let reason := if str_truthy text then text else "channel_error:" +++ ce_kind e in
      let category := _category_for_kind (ce_kind e) in
      match ce_freeze e with
      | HintFalse => mret "no_freeze"
      | HintNone =>
          p ← get_pool;
          match _match_error_kind (ce_kind e) p with
          | Some matched => apply_error_rule username model_id reason category matched
          | None => _apply_account_state username (class_default category) reason category true
          end
      | HintDict seconds hint_model =>
          if has_model hint_model
          then _apply_model_state username (default "" hint_model) seconds reason category false
          else _apply_account_state username seconds reason category false
      end
  end.

(** ** Failures without a rule *)

(** The first client of that name; an account that keeps its freeze
    ([return], nothing scheduled) ends the loop as well. *)
Definition mark_account_cooldown (username : string) (seconds : Z) (reason : string) : P unit :=
  if Z.max 0 seconds <=? 0 then mret tt else
  let reason := summary reason in
  refresh ← refresh_or None;
  client ← find_client username;
  match client with
  | None => mret tt
  | Some i =>
      changed ← at_client false i (freeze now KAccount None (Some (Z.max 0 seconds)) reason refresh "");
      if changed : bool then schedule (SetAccount username (Some (Z.max 0 seconds)) reason "") else mret tt
  end.

Definition _apply_fallback_cooldown (username : string) (seconds : Z) (reason : string) (model_id : option string) : P unit :=
  if Z.max 0 seconds <=? 0 then mret tt
  else if has_model model_id
  then _freeze_account_model username (default "" model_id) (Some (Z.max 0 seconds)) (summary reason) None "";; mret tt
  else mark_account_cooldown username (Z.max 0 seconds) reason.

Definition mark_account_429 (username reason : string) : P string :=
  apply_freeze_policy username (Some 429) [] None (str_or reason "rate_limit") false "".

(** [configured] is [rate_limit.exception_cooldown_seconds]: None when it is
    absent, [Some None] when it is not a number. *)
Definition mark_account_exception (configured : option (option Z)) (username : string) (cooldown_seconds : option Z)
    (reason error_code : string) (model_id : option string) : P string :=
  result ← apply_freeze_policy username None [] model_id (str_or reason "exception") true error_code;
  if str_truthy result then mret result else
  let seconds := match configured with
                 | None => 300
                 | Some (Some n) => n
                 | Some None => match cooldown_seconds with Some n => if 0 <? n then n else 60 | None => 60 end
                 end in
  if 0 <? seconds then _apply_fallback_cooldown username seconds (str_or reason "exception") model_id;; mret "freeze"
  else mret result.

(** [configured] is [rate_limit.cooldown_seconds], as above; a status that is
    not a number is [None]. *)
Definition handle_response_error (configured : option (option Z)) (username : string) (status_code : option Z)
    (reason : string) (model_id : option string) : P string :=
  if negb (str_truthy username) then mret "" else
  match status_code with
  | None => mret ""
  | Some code =>
      result ← apply_freeze_policy username (Some code) [] model_id reason false "";
      if str_truthy result then mret result else
      let seconds := match configured with None => 60 | Some (Some n) => n | Some None => 60 end in
      if 0 <? seconds then
        _apply_fallback_cooldown username seconds (str_or reason ("http_" +++ tostring code)) model_id;; mret "freeze"
      else mret result
  end.

(** ** Thawing *)

Definition pool_clear_account_cooldown (username : string) : P unit :=
  client ← find_client username;
  match client with
  | None => mret tt
  | Some i => at_client tt i (fun c => (tt, (unfreeze KAccount None c).2))
  end;;
  schedule (ClearAccount username).

Definition clear_all_cooldowns : P Z :=
  clients ← all_clients;
  each_client clients (fun i => at_client tt i (fun c => (tt, (unfreeze KAccount None c).2)));;
  schedule ClearProvider;;
  mret (Z.of_nat (length clients)).

(** A request succeeded: the account, or the one model, is thawed. *)
Definition clear_runtime_freeze_on_success (username : string) (model_id : option string) : P bool :=
  if negb (str_truthy username) then mret false else
  client ← find_client username;
  match client with
  | None => mret false
  | Some i =>
      c ← client_at i;
      let account_frozen := from_option (is_frozen now) false c in
      let model_cooling := has_model model_id && from_option (is_model_frozen now (default "" model_id)) false c in
      if negb (account_frozen || model_cooling) then mret false else
      if account_frozen then
        at_client tt i (fun c => (tt, (unfreeze KAccount None c).2));;
        schedule (ClearAccount username);; schedule (BroadcastCleared username None);; mret true
      else
        at_client tt i (fun c => (tt, (unfreeze KAccountModel model_id c).2));;
        schedule (ClearModel username (default "" model_id));;
        schedule (BroadcastCleared username model_id);; mret true
  end.
End at_time.
End pool.
