(* ===== verification/PoolProps.v ===== *)
(** What the freeze side of the pool guarantees: the exact effect of a rule on
    every account of the channel, of a semantic error, and of a success. *)
From S2P Require Import Prelude Redis Client Windows Json Text Policy Rules Cooldown Account AccountProps Pool.

Section facts.
Variables (py_str : json -> string) (utc_offset : Z -> Z) (now : Z).
Implicit Types (p : pool) (c : account_client).

Abbreviation usernames p := (ac_username <$> pl_clients p).

(** ** The monad *)

Lemma bind_eq {A B} (m : P A) (k : A -> P B) p a p1 t1 b p2 t2 :
  m p = (a, p1, t1) -> k a p1 = (b, p2, t2) -> (m ≫= k) p = (b, p2, t1 ++ t2).
Proof. intros Hm Hk. unfold mbind, P_bind. by rewrite Hm, Hk. Qed.

Lemma get_bind {B} (k : pool -> P B) p : (get_pool ≫= k) p = k p p.
Proof. unfold mbind, P_bind, get_pool. by destruct (k p p) as [[b p'] t]. Qed.

Lemma find_bind {B} u (k : option nat -> P B) p : (find_client u ≫= k) p = k (index_of u (pl_clients p)) p.
Proof. unfold mbind, P_bind, find_client. by destruct (k _ p) as [[b p'] t]. Qed.

Lemma refresh_bind {B} r (k : bool -> P B) p :
  (refresh_or r ≫= k) p = k (match r with Some b => b | None => pool_refresh p end) p.
Proof. unfold refresh_or, mbind, P_bind, get_pool, mret, P_ret. simpl. by destruct (k _ p) as [[b p'] t]. Qed.

Lemma client_bind {B} i (k : option account_client -> P B) p : (client_at i ≫= k) p = k (pl_clients p !! i) p.
Proof. unfold mbind, P_bind, client_at. by destruct (k _ p) as [[b p'] t]. Qed.

Lemma username_bind {B} i d (k : string -> P B) p :
  (username_at i d ≫= k) p = k (from_option ac_username d (pl_clients p !! i)) p.
Proof. unfold username_at, mbind, P_bind, client_at, mret, P_ret. simpl. by destruct (k _ p) as [[b p'] t]. Qed.

Lemma set_clients_id p : set_clients (pl_clients p) p = p.
Proof. by destruct p. Qed.

Lemma set_clients_twice a b p : set_clients a (set_clients b p) = set_clients a p.
Proof. by destruct p. Qed.

Lemma index_of_lookup u cs i : index_of u cs = Some i -> exists c, cs !! i = Some c /\ ac_username c = u.
Proof.
  revert i. induction cs as [|c cs IH]; intros i; simpl; [done|]. case_decide as Hc.
  - intros [= <-]. by exists c.
  - destruct (index_of u cs) as [j|] eqn:E; [|done]. intros [= <-]. by apply IH.
Qed.

Lemma index_of_unique u cs i c :
  NoDup (ac_username <$> cs) -> cs !! i = Some c -> ac_username c = u -> index_of u cs = Some i.
Proof.
  revert i. induction cs as [|c' cs IH]; intros i; [done|]. rewrite fmap_cons. intros [Hn Hd]%NoDup_cons Hi Hu.
  simpl. destruct i as [|i]; simpl in Hi; [injection Hi as ->; by rewrite decide_True|].
  rewrite decide_False; [by rewrite (IH i)|]. intros He. apply Hn. rewrite He, <- Hu.
  apply list_elem_of_fmap. exists c. split; [done|]. by eapply list_elem_of_lookup_2.
Qed.

(** ** Freezing one client *)

Lemma freeze_username kind m secs reason refresh cat c :
  ac_username (freeze now kind m secs reason refresh cat c).2 = ac_username c.
Proof. unfold freeze. repeat case_match; done. Qed.

(** What one freeze schedules. *)
Definition account_tasks secs reason cat (changed : bool) c : list task :=
  if changed then [SetAccount (ac_username c) secs reason cat; Broadcast (ac_username c) None secs reason cat] else [].
Definition model_tasks m secs reason cat (changed : bool) c : list task :=
  if changed then [SetModel (ac_username c) m secs reason cat] else [].

Lemma freeze_account_eq i c secs reason refresh cat p :
  pl_clients p !! i = Some c ->
  let should := match refresh with Some b => b | None => pool_refresh p end in
  let '(changed, c') := freeze now KAccount None secs reason should cat c in
  _freeze_account now i secs reason refresh cat p =
    (changed, set_clients (<[i := c']> (pl_clients p)) p, account_tasks secs reason cat changed c).
Proof.
  intros Hi should. unfold _freeze_account. rewrite refresh_bind. fold should.
  pose proof (freeze_username KAccount None secs reason should cat c) as Hu.
  destruct (freeze now KAccount None secs reason should cat c) as [changed c'] eqn:E. simpl in Hu.
  unfold mbind, P_bind, at_client. rewrite Hi, E. destruct changed; simpl; [|done].
  unfold username_at, client_at, mbind, P_bind, mret, P_ret. simpl.
  rewrite list_lookup_insert_eq by by eapply lookup_lt_Some. simpl. by rewrite Hu.
Qed.

Lemma freeze_model_eq u i c m secs reason refresh cat p :
  index_of u (pl_clients p) = Some i -> pl_clients p !! i = Some c ->
  let should := match refresh with Some b => b | None => pool_refresh p end in
  let '(changed, c') := freeze now KAccountModel (Some m) secs reason should cat c in
  _freeze_account_model now u m secs reason refresh cat p =
    (changed, set_clients (<[i := c']> (pl_clients p)) p, model_tasks m secs reason cat changed c).
Proof.
  intros Hu Hi should. unfold _freeze_account_model. rewrite find_bind, refresh_bind, Hu. fold should.
  destruct (index_of_lookup _ _ _ Hu) as (c1 & Hc1 & Hn). rewrite Hi in Hc1. injection Hc1 as <-.
  destruct (freeze now KAccountModel (Some m) secs reason should cat c) as [changed c'] eqn:E.
  unfold mbind, P_bind, at_client. rewrite Hi, E. unfold model_tasks. rewrite Hn. by destruct changed.
Qed.

(** ** A loop over the accounts is a map *)

Lemma each_client_map (Inv : pool -> Prop) (f : nat -> P unit) (g : account_client -> account_client)
    (t : account_client -> list task) p :
  (forall i p' c, Inv p' -> pl_clients p' !! i = Some c ->
     f i p' = (tt, set_clients (<[i := g c]> (pl_clients p')) p', t c) /\ Inv (set_clients (<[i := g c]> (pl_clients p')) p')) ->
  Inv p ->
  (clients ← all_clients; each_client clients f) p = (tt, set_clients (g <$> pl_clients p) p, flat_map t (pl_clients p)).
Proof.
  intros Hf Hp.
  assert (forall rest pre p', Inv p' -> pl_clients p' = pre ++ rest ->
    each_client (seq (length pre) (length rest)) f p' = (tt, set_clients (pre ++ (g <$> rest)) p', flat_map t rest)) as Hg.
  { induction rest as [|c rest IH]; intros pre p' Hi Hc.
    - simpl. rewrite app_nil_r in *. by rewrite <- Hc, set_clients_id.
    - assert (pl_clients p' !! length pre = Some c) as Hl by (rewrite Hc; by apply list_lookup_middle).
      destruct (Hf _ _ _ Hi Hl) as [E Hi']. cbn [length seq each_client].
      assert (<[length pre := g c]> (pl_clients p') = (pre ++ [g c]) ++ rest) as Hins.
      { rewrite Hc. rewrite <- app_assoc. rewrite <- (Nat.add_0_r (length pre)) at 1. by rewrite insert_app_r. }
      erewrite bind_eq; [|exact E|].
      + reflexivity.
      + specialize (IH (pre ++ [g c]) _ Hi' Hins). rewrite length_app, Nat.add_comm in IH. simpl in IH.
        rewrite IH. rewrite set_clients_twice. by rewrite <- app_assoc. }
  unfold all_clients. erewrite (bind_eq (p ← get_pool; _)); [|by rewrite get_bind|]; [reflexivity|].
  apply (Hg (pl_clients p) [] p Hp eq_refl).
Qed.

(** ** A temporary freeze of a scope *)

Definition model_scope (scope : string) : bool := mem scope ["channel_model"; "account_model"].
Definition channel_scope (scope : string) : bool := mem scope ["channel_model"; "channel"].

(** The accounts a scope reaches, and what it does to one of them. *)
Definition reaches (scope username : string) c : bool := channel_scope scope || bool_decide (ac_username c = username).
Definition freeze_in (scope : string) (model_id : option string) (seconds : Z) (reason : string) (refresh : bool) c
    : bool * account_client :=
  if model_scope scope then freeze now KAccountModel (Some (default "" model_id)) (Some seconds) reason refresh "" c
  else freeze now KAccount None (Some seconds) reason refresh "" c.
Definition freeze_tasks (scope : string) (model_id : option string) (seconds : Z) (reason : string) (refresh : bool) c : list task :=
  let changed := (freeze_in scope model_id seconds reason refresh c).1 in
  if model_scope scope then model_tasks (default "" model_id) (Some seconds) reason "" changed c
  else account_tasks (Some seconds) reason "" changed c.

Lemma map_reaches_one g u cs i c :
  NoDup (ac_username <$> cs) -> cs !! i = Some c -> ac_username c = u ->
  (fun c => if bool_decide (ac_username c = u) then g c else c) <$> cs = <[i := g c]> cs.
Proof.
  revert i. induction cs as [|c' cs IH]; intros i; [done|]. intros Hd. rewrite fmap_cons in Hd. apply NoDup_cons in Hd as [Hn Hd].
  intros Hi Hu. destruct i as [|i]; simpl in Hi.
  - injection Hi as ->. rewrite fmap_cons. rewrite (bool_decide_eq_true_2 _ Hu). cbn [insert list_insert].
    f_equal. rewrite <- (list_fmap_id cs) at 2. apply list_fmap_ext. intros k x Hk. cbn.
    rewrite bool_decide_eq_false_2; [done|]. intros Hx. apply Hn. apply list_elem_of_fmap. exists x.
    split; [congruence|]. by eapply list_elem_of_lookup_2.
  - rewrite fmap_cons. cbn [insert list_insert]. fold (insert (M := list account_client)). rewrite bool_decide_eq_false_2.
    + f_equal. by apply IH.
    + intros Hx. apply Hn. apply list_elem_of_fmap. exists c. split; [congruence|]. by eapply list_elem_of_lookup_2.
Qed.

Lemma flat_map_reaches_one (t : account_client -> list task) u cs i c :
  NoDup (ac_username <$> cs) -> cs !! i = Some c -> ac_username c = u ->
  flat_map (fun c => if bool_decide (ac_username c = u) then t c else []) cs = t c.
Proof.
  revert i. induction cs as [|c' cs IH]; intros i; [done|]. rewrite fmap_cons. intros [Hn Hd]%NoDup_cons Hi Hu.
  cbn [flat_map]. destruct i as [|i]; simpl in Hi.
  - injection Hi as ->. rewrite (bool_decide_eq_true_2 _ Hu). rewrite <- (app_nil_r (t c)) at 2. f_equal.
    assert (forall x, x ∈ cs -> ac_username x <> u) as Hx.
    { intros x Hx He. apply Hn. apply list_elem_of_fmap. exists x. split; [congruence|done]. }
    clear -Hx. induction cs as [|x cs IH]; [done|]. cbn [flat_map].
    rewrite bool_decide_eq_false_2 by (apply Hx; by left). apply IH. intros y Hy. apply Hx. by right.
  - rewrite bool_decide_eq_false_2; [by apply (IH i)|].
    intros Hx. apply Hn. apply list_elem_of_fmap. exists c. split; [congruence|]. by eapply list_elem_of_lookup_2.
Qed.

(** An invariant of the loops: who is in the pool, and the refresh switch. *)
Definition same_pool (us : list string) (r : bool) p : Prop := usernames p = us /\ pool_refresh p = r.

Lemma same_pool_step us r p i c c' :
  same_pool us r p -> pl_clients p !! i = Some c -> ac_username c' = ac_username c ->
  same_pool us r (set_clients (<[i := c']> (pl_clients p)) p).
Proof.
  intros [Hu Hr] Hi Hc. split; [|done]. simpl. rewrite list_fmap_insert, Hc, Hu. apply list_insert_id.
  by rewrite <- Hu, list_lookup_fmap, Hi.
Qed.

Lemma freeze_in_username scope m n reason r c : ac_username (freeze_in scope m n reason r c).2 = ac_username c.
Proof. unfold freeze_in. case_match; apply freeze_username. Qed.

Lemma freeze_scope_exact scope username model_id n reason p :
  NoDup (usernames p) -> username ∈ usernames p ->
  let r := pool_refresh p in
  freeze_scope now scope username model_id n reason p =
    (tt, set_clients ((fun c => if reaches scope username c then (freeze_in scope model_id n reason r c).2 else c) <$> pl_clients p) p,
     flat_map (fun c => if reaches scope username c then freeze_tasks scope model_id n reason r c else []) (pl_clients p)).
Proof.
  intros Hd Hin r. apply list_elem_of_fmap in Hin as (c & Hu & [i Hi]%list_elem_of_lookup_1). symmetry in Hu.
  pose proof (index_of_unique _ _ _ _ Hd Hi Hu) as Hix.
  assert (forall us, NoDup us -> forall i p' c, same_pool us r p' -> pl_clients p' !! i = Some c ->
    index_of (ac_username c) (pl_clients p') = Some i) as Hpos.
  { intros us Hus i' p' c' [<- _] Hc. by eapply index_of_unique. }
  unfold freeze_scope, reaches, freeze_tasks, freeze_in.
  destruct (String.eqb_spec scope "channel_model") as [->|H1]; [|destruct (String.eqb_spec scope "channel") as [->|H2]].
  - change (channel_scope "channel_model") with true. change (model_scope "channel_model") with true. cbn [orb].
    apply (each_client_map (same_pool (usernames p) r)); [|done].
    intros i' p' c' Hinv Hc. pose proof (Hpos _ Hd _ _ _ Hinv Hc) as Hix'.
    pose proof (freeze_model_eq _ _ _ (default "" model_id) (Some n) reason None "" p' Hix' Hc) as E. cbn zeta in E.
    destruct Hinv as [Hus Hr]. rewrite Hr in E. destruct (freeze _ _ _ _ _ _ _ c') as [ch c2] eqn:Ef. cbn [fst snd].
    split; [|eapply same_pool_step; [done | done |]; by rewrite <- (freeze_username KAccountModel (Some (default "" model_id)) (Some n) reason r "" c'), Ef].
    rewrite username_bind, Hc. cbn [from_option].
    unfold mbind, P_bind. rewrite E. cbn. by rewrite app_nil_r.
  - change (channel_scope "channel") with true. change (model_scope "channel") with false. cbn [orb].
    apply (each_client_map (same_pool (usernames p) r)); [|done].
    intros i' p' c' Hinv Hc.
    pose proof (freeze_account_eq _ _ (Some n) reason None "" p' Hc) as E. cbn zeta in E.
    pose proof Hinv as [Hus Hr]. rewrite Hr in E. destruct (freeze _ _ _ _ _ _ _ c') as [ch c2] eqn:Ef. cbn [fst snd].
    split; [|eapply same_pool_step; [done | done |]; by rewrite <- (freeze_username KAccount None (Some n) reason r "" c'), Ef].
    unfold mbind, P_bind. rewrite E. cbn. by rewrite app_nil_r.
  - assert (channel_scope scope = false) as -> by (apply bool_decide_eq_false_2; set_solver). cbn [orb].
    rewrite (map_reaches_one _ _ _ _ _ Hd Hi Hu), (flat_map_reaches_one _ _ _ _ _ Hd Hi Hu).
    destruct (String.eqb_spec scope "account_model") as [->|H3].
    + change (model_scope "account_model") with true. cbn match.
      pose proof (freeze_model_eq _ _ _ (default "" model_id) (Some n) reason None "" p Hix Hi) as E. cbn zeta in E. fold r in E.
      destruct (freeze _ _ _ _ _ _ _ c) as [ch c2]. cbn [fst snd]. unfold mbind, P_bind. rewrite E. cbn. by rewrite app_nil_r.
    + assert (model_scope scope = false) as -> by (apply bool_decide_eq_false_2; set_solver). cbn match.
      rewrite find_bind, Hix. pose proof (freeze_account_eq _ _ (Some n) reason None "" p Hi) as E. cbn zeta in E. fold r in E.
      destruct (freeze _ _ _ _ _ _ _ c) as [ch c2]. cbn [fst snd]. unfold mbind, P_bind. rewrite E. cbn. by rewrite app_nil_r.
Qed.
End facts.

Section props.
Variables (py_str : json -> string) (utc_offset : Z -> Z) (now : Z).
Implicit Types (p : pool) (c : account_client).

Abbreviation usernames p := (ac_username <$> pl_clients p).

(** C39: A matched rule that asks for a temporary freeze freezes exactly the accounts
    its scope reaches, each the way [freeze] does alone, and leaves the
    others as they are: the loops over the pool are one map.  The Redis
    writes and broadcasts are those of the accounts it changed, in pool
    order, followed by one notification; an already frozen account of a
    channel that does not refresh causes none. *)
Theorem policy_freeze_exact p username status headers model_id reason exception code rule a :
  NoDup (usernames p) -> username ∈ usernames p -> str_truthy username = true ->
  match_freeze py_str utc_offset now (pl_policy p) status headers exception code = Some (rule, a) ->
  fa_freeze_mode a <> "no_freeze" -> fa_disable a = false -> fa_permanent a = false ->
  let scope := widen (fa_scope a) model_id in
  let text := summary py_str reason in
  let why := if str_truthy text then text else "freeze_policy:" +++ fa_freeze_mode a in
  let r := pool_refresh p in
  exists n,
  apply_freeze_policy py_str utc_offset now username status headers model_id reason exception code p =
    ("freeze",
     set_clients ((fun c => if reaches scope username c then (freeze_in now scope model_id (fa_seconds a) why r c).2 else c)
                    <$> pl_clients p) p,
     flat_map (fun c => if reaches scope username c then freeze_tasks now scope model_id (fa_seconds a) why r c else [])
       (pl_clients p) ++ [Notify n]).
Proof.
  intros Hd Hin Hu Hm Hno Hdis Hperm scope text why r.
  unfold apply_freeze_policy. rewrite Hu. cbn [negb]. rewrite get_bind, Hm. unfold apply_action.
  destruct (String.eqb_spec (fa_freeze_mode a) "no_freeze") as [|_]; [done|]. rewrite Hdis, Hperm.
  fold text why scope. eexists. unfold mbind, P_bind. rewrite freeze_scope_exact by done. cbn. reflexivity.
Qed.

(** Without a match, or with a "no freeze" rule, nothing changes and nothing
    is scheduled. *)
Lemma policy_no_freeze_inert p username status headers model_id reason exception code result p' tasks :
  apply_freeze_policy py_str utc_offset now username status headers model_id reason exception code p = (result, p', tasks) ->
  result <> "freeze" -> p' = p /\ tasks = [].
Proof.
  unfold apply_freeze_policy. destruct (str_truthy username); [cbn [negb]|intros [= <- <- <-]; done].
  rewrite get_bind. destruct (match_freeze _ _ _ _ _ _ _ _) as [[rule a]|]; [|intros [= <- <- <-]; done].
  unfold apply_action. destruct (String.eqb _ "no_freeze"); [intros [= <- <- <-]; done|].
  assert (forall (m : P unit) (k : P unit) (r : string * pool * list task), (m;; k;; mret "freeze") p = r -> r.1.1 = "freeze") as Hf.
  { intros m k r <-. unfold mbind, P_bind, mret, P_ret. destruct (m p) as [[? p1] ?]. by destruct (k p1) as [[? ?] ?]. }
  intros E Hr. destruct (fa_disable a); [|destruct (fa_permanent a)].
  - destruct (negb _); [by injection E as <- <- <-|]. by apply Hf in E.
  - destruct (negb _); [by injection E as <- <- <-|]. by apply Hf in E.
  - by apply Hf in E.
Qed.

(** The effect of a semantic freeze of the first account of that name. *)
Definition semantic_effect username until secs category i c reason p : string * pool * list task :=
  ("freeze", set_clients (<[i := set_buckets (FreezeEntry until reason category) (ac_models c) c]> (pl_clients p)) p,
   [SetAccount username secs reason category; Broadcast username None secs reason category]).

Lemma account_state_eq username i c until secs reason category respect p :
  index_of username (pl_clients p) = Some i -> pl_clients p !! i = Some c ->
  freeze_until now secs = Some until -> (respect = false \/ pool_refresh p = true \/ is_frozen now c = false) ->
  _apply_account_state now username secs reason category respect p = semantic_effect username until secs category i c reason p.
Proof.
  intros Hix Hi Hu Hr. unfold _apply_account_state. rewrite find_bind, Hix.
  destruct (index_of_lookup _ _ _ Hix) as (c1 & Hc1 & Hn). rewrite Hi in Hc1. injection Hc1 as <-.
  pose proof (freeze_account_eq now _ _ secs reason (if respect then None else Some true) category p Hi) as E. cbn zeta in E.
  set (b := match (if respect then None else Some true) with Some b => b | None => pool_refresh p end) in E.
  assert (freeze now KAccount None secs reason b category c
          = (true, set_buckets (FreezeEntry until reason category) (ac_models c) c)) as Hf.
  { unfold freeze. rewrite Hu. cbn [model_target].
    assert (negb b && is_frozen now c = false) as ->; [|done].
    unfold b. destruct Hr as [->|[Hr|Hr]]; [done | |by rewrite Hr, andb_false_r].
    destruct respect; [by rewrite Hr | done]. }
  rewrite Hf in E. unfold mbind, P_bind. rewrite E. unfold semantic_effect, account_tasks. by rewrite Hn.
Qed.

(** A semantic error decides the account's state by its class, whatever rules
    the channel has and whatever its refresh switch says: a rejected
    credential and an exhausted quota freeze the account without end under
    their category, so that the state reads so and the account is not
    routable; a temporary freeze with a length lasts that long; a transient
    upstream fault, a rate limit and an invalid request change nothing. *)
Lemma semantic_error_effect p username i c detail n model_id :
  str_truthy username = true -> index_of username (pl_clients p) = Some i -> pl_clients p !! i = Some c ->
  ac_disabled c = false -> 0 < n ->
  let handle e := apply_channel_error py_str utc_offset now username (Some e) model_id p in
  (exists reason,
    handle (CredentialInvalid detail) = semantic_effect username None None "credential" i c reason p /\
    (state now (set_buckets (FreezeEntry None reason "credential") (ac_models c) c)).1 = CREDENTIAL_INVALID) /\
  (exists reason,
    handle (QuotaExhausted detail) = semantic_effect username None None "quota" i c reason p /\
    (state now (set_buckets (FreezeEntry None reason "quota") (ac_models c) c)).1 = QUOTA_EXHAUSTED) /\
  (exists reason,
    handle (TemporaryFreeze detail (Some n)) = semantic_effect username (Some (now + sec n)) (Some n) "temporary" i c reason p /\
    (state now (set_buckets (FreezeEntry (Some (now + sec n)) reason "temporary") (ac_models c) c)).1 = COOLING) /\
  (forall e, e ∈ [UpstreamTransient detail; RateLimited detail; InvalidRequest detail] -> handle e = ("no_freeze", p, [])).
Proof.
  intros Hu Hix Hi Hd Hn handle. unfold handle, apply_channel_error. rewrite Hu. cbn [negb].
  split_and!.
  - eexists. split.
    + cbn [CredentialInvalid ce_freeze has_model]. apply account_state_eq; by auto.
    + unfold state. cbn. by rewrite Hd.
  - eexists. split.
    + cbn [QuotaExhausted ce_freeze has_model]. apply account_state_eq; by auto.
    + unfold state. cbn. by rewrite Hd.
  - eexists. split.
    + cbn [TemporaryFreeze ce_freeze has_model]. apply account_state_eq; [done | done | | by left].
      unfold freeze_until. by rewrite (proj2 (Z.ltb_lt 0 n) Hn).
    + assert (now < now + sec n) as Hlt by (unfold sec; lia).
      unfold state. cbn [set_buckets ac_disabled]. rewrite Hd.
      unfold is_frozen, freeze_category, is_frozen, cooldown_remaining. cbn [set_buckets ac_account fe_until fe_category live].
      rewrite (proj2 (Z.ltb_lt _ _) Hlt), (proj2 (Z.leb_gt _ _) Hlt). cbn [String.eqb Ascii.eqb Bool.eqb].
      replace (now + sec n - now) with (n * sec 1) by (unfold sec; lia). rewrite Z.div_mul by done.
      by rewrite (proj2 (Z.ltb_lt 0 n) Hn).
  - intros e He. rewrite !elem_of_cons, elem_of_nil in He. destruct He as [->|[->|[->|[]]]]; done.
Qed.

(** An "error_kind" rule of the channel is matched but not obeyed: the lookup
    reads fields the match does not carry, so every rule (permanent, disabled,
    none, hours, a channel scope) becomes a freeze of the account for 60
    seconds. *)
Lemma error_kind_rules_ignored p username i c kind detail model_id matched :
  str_truthy username = true -> index_of username (pl_clients p) = Some i -> pl_clients p !! i = Some c ->
  pool_refresh p = true -> _match_error_kind py_str utc_offset now kind p = Some matched ->
  exists reason,
    apply_channel_error py_str utc_offset now username (Some (ChannelError kind detail HintNone)) model_id p =
    semantic_effect username (Some (now + sec 60)) (Some 60) (_category_for_kind kind) i c reason p.
Proof.
  intros Hu Hix Hi Hr Hm. unfold apply_channel_error. rewrite Hu. cbn [negb ce_freeze ce_kind ce_detail].
  eexists. rewrite get_bind, Hm. unfold _match_error_kind in Hm. destruct (pl_policy p) as [pol|]; [|done].
  cbn [mbind option_bind] in Hm. destruct (match_freeze_rules _ _ _ _ _) as [[rule a]|]; [|done].
  injection Hm as <-. unfold apply_error_rule.
  assert (freeze_rule_to_action utc_offset "account" "seconds" 60 now = FreezeAction "account" 60 false false "account_seconds") as Ha by done.
  match goal with |- context[freeze_rule_to_action ?u ?x ?y ?z ?w] =>
    change (freeze_rule_to_action u x y z w) with (freeze_rule_to_action u "account" "seconds" 60 w) end.
  rewrite Ha. cbn [fa_disable fa_permanent fa_scope fa_seconds String.eqb Ascii.eqb Bool.eqb andb].
  apply account_state_eq; auto.
Qed.

(** A success thaws what it proves healthy and nothing else: an account-level
    freeze is lifted with all its model freezes, otherwise only the model that
    succeeded; the enabled account is then available for that model, no other
    account changes, and the result tells whether there was anything to lift. *)
Lemma success_thaws p username i c model :
  str_truthy username = true -> str_truthy model = true -> 0 <= now ->
  index_of username (pl_clients p) = Some i -> pl_clients p !! i = Some c ->
  let '(lifted, p', tasks) := clear_runtime_freeze_on_success now username (Some model) p in
  lifted = (is_frozen now c || is_model_frozen now model c) /\
  (lifted = false -> p' = p /\ tasks = []) /\
  (forall j, j <> i -> pl_clients p' !! j = pl_clients p !! j) /\
  exists c', pl_clients p' !! i = Some c' /\ ac_disabled c' = ac_disabled c /\
    (ac_disabled c = false -> is_available now (Some model) c' = true) /\
    (is_frozen now c = false -> ac_account c' = ac_account c /\
       forall m, m <> model -> dict_get m (ac_models c') = dict_get m (ac_models c)) /\
    (is_frozen now c = true -> ac_models c' = [] /\ tasks = [ClearAccount username; BroadcastCleared username None]).
Proof.
  intros Hu Hm Hnow Hix Hi. unfold clear_runtime_freeze_on_success. rewrite Hu. cbn [negb].
  rewrite find_bind, Hix, client_bind, Hi. cbn [from_option has_model default]. rewrite Hm. cbn [andb].
  pose proof (lookup_lt_Some _ _ _ Hi) as Hlt.
  destruct (is_frozen now c) eqn:Hf; [|destruct (is_model_frozen now model c) eqn:Hmf]; cbn [orb negb].
  - unfold mbind, P_bind, at_client, schedule, mret, P_ret. rewrite Hi. cbn. split_and!; try done.
    + intros j Hj. by rewrite list_lookup_insert_ne.
    + exists (set_buckets no_freeze [] c). rewrite list_lookup_insert_eq by done. split_and!; try done.
      intros Hd. unfold is_available, is_frozen, is_model_frozen. cbn. rewrite Hd, Hm.
      by rewrite (proj2 (Z.ltb_ge now 0)).
  - assert (exists e, dict_get model (ac_models c) = Some e) as [e He].
    { unfold is_model_frozen in Hmf. destruct (dict_get model (ac_models c)); [eauto | done]. }
    change (id model) with model. rewrite Hmf. cbn [negb].
    unfold mbind, P_bind, at_client, schedule, mret, P_ret. rewrite Hi.
    assert (unfreeze KAccountModel (Some model) c = (true, set_buckets (ac_account c) (dict_del model (ac_models c)) c)) as ->.
    { unfold unfreeze, model_target. by rewrite Hm, He. }
    cbn. split_and!; try done.
    + intros j Hj. by rewrite list_lookup_insert_ne.
    + eexists. rewrite list_lookup_insert_eq by done. split; [done|]. split; [done|]. split_and!.
      * intros Hd. unfold is_available, is_model_frozen. cbn. rewrite Hd, Hm.
        unfold is_frozen in *. cbn. rewrite Hf. rewrite dict_get_del. by rewrite decide_True.
      * intros _. split; [done|]. intros m Hne. cbn. rewrite dict_get_del. by rewrite decide_False by congruence.
      * intros Hx. congruence.
  - change (id model) with model. rewrite Hmf. cbn. split_and!; try done. exists c. split_and!; try done.
    intros Hd. unfold is_available. by rewrite Hd, Hf, Hm, Hmf.
Qed.
End props.

Module PoolSample.
Definition py_str : json -> string := fun _ => "?".
Definition utc : Z -> Z := fun _ => 0.
Definition now : Z := sec 1000.

Definition rule (kvs : list (string * string)) : json := JObj (prod_map id JStr <$> kvs).
Definition limit_rule := rule [("condition", "status_code"); ("operator", "=="); ("value", "429");
                               ("freeze_object", "channel_model"); ("freeze_period", "minutes"); ("freeze_value", "5")].
Definition kind_rule := rule [("condition", "error_kind"); ("operator", "=="); ("value", "temporary_freeze");
                              ("freeze_object", "account"); ("freeze_period", "permanent")].
Definition policy := JObj [("enabled", JBool true); ("rules", JArr [limit_rule; kind_rule])].

Definition client (name : string) (acc : freeze_entry) (models : list (string * freeze_entry)) : account_client :=
  {| ac_provider_name := "p"; ac_username := name; ac_limits := AccountLimits 60 0 0 1000 0 0 2;
     ac_disabled := false; ac_disable_reason := ""; ac_account := acc; ac_models := models;
     ac_auth_ok := Some true; ac_init := InitReturns true; ac_quotas := None;
     ac_daily_remaining := None; ac_daily_limit := None; ac_quota_disabled_until := 0;
     ac_stats := new_failure_window (sec 300); ac_requests := []; ac_token_usages := [];
     ac_in_flight := 0; ac_leases := []; ac_is_test := false |}.
Definition a := client "a" no_freeze [("m", FreezeEntry None "" "")].
Definition b := client "b" no_freeze [].
Definition p0 : pool := Pool "p" [a; b] 0 true (Some policy).

Definition hit := default (FreezeRule "" "" "" "" "" "" 0 false, FreezeAction "" 0 false false "")
  (match_freeze py_str utc now (Some policy) (Some 429) [] false "").
Definition outcome := apply_freeze_policy py_str utc now "a" (Some 429) [] (Some "m") "slow down" false "" p0.

Lemma policy_freeze_exact_witness :
  match_freeze py_str utc now (pl_policy p0) (Some 429) [] false "" = Some (hit.1, hit.2) /\ fa_seconds hit.2 = 300 /\
  exists n, outcome =
    ("freeze",
     set_clients ((fun c => if reaches "channel_model" "a" c
                            then (freeze_in now "channel_model" (Some "m") 300 "slow down" true c).2 else c) <$> [a; b]) p0,
     [SetModel "a" "m" (Some 300) "slow down" ""; SetModel "b" "m" (Some 300) "slow down" ""; Notify n]).
Proof.
  assert (match_freeze py_str utc now (pl_policy p0) (Some 429) [] false "" = Some (hit.1, hit.2)) as Hm by by vm_compute.
  split; [exact Hm|]. split; [by vm_compute|].
  assert (NoDup (ac_username <$> pl_clients p0)) as Hd by by apply (bool_decide_unpack _).
  assert ("a" ∈ ac_username <$> pl_clients p0) as Hin by by apply (bool_decide_unpack _).
  exact (policy_freeze_exact py_str utc now p0 "a" (Some 429) [] (Some "m") "slow down" false "" hit.1 hit.2
           Hd Hin eq_refl Hm ltac:(by vm_compute) eq_refl eq_refl).
Defined.

Definition missed := apply_freeze_policy py_str utc now "a" (Some 500) [] (Some "m") "oops" false "" p0.
Lemma policy_no_freeze_inert_witness : missed = ("", p0, []) /\ p0 = p0 /\ @nil task = [].
Proof.
  assert (missed = ("", p0, [])) as E by by vm_compute. split; [exact E|].
  exact (policy_no_freeze_inert py_str utc now p0 "a" (Some 500) [] (Some "m") "oops" false "" "" p0 [] E ltac:(done)).
Defined.

Lemma semantic_error_effect_witness :
  (state now a).1 = MODEL_FROZEN /\
  exists reason,
    apply_channel_error py_str utc now "a" (Some (CredentialInvalid (JStr "revoked"))) None p0
      = semantic_effect "a" None None "credential" 0 a reason p0 /\
    (state now (set_buckets (FreezeEntry None reason "credential") (ac_models a) a)).1 = CREDENTIAL_INVALID.
Proof.
  split; [by vm_compute|].
  exact (proj1 (semantic_error_effect py_str utc now p0 "a" 0 a (JStr "revoked") 30 None eq_refl eq_refl eq_refl eq_refl eq_refl)).
Defined.

Definition matched := default [] (_match_error_kind py_str utc now "temporary_freeze" p0).
Lemma error_kind_rules_ignored_witness :
  obj_get "permanent" matched = Some (JBool true) /\
  exists reason,
    apply_channel_error py_str utc now "a" (Some (TemporaryFreeze (JStr "waf") None)) None p0
      = semantic_effect "a" (Some (now + sec 60)) (Some 60) "temporary" 0 a reason p0.
Proof.
  split; [by vm_compute|].
  exact (error_kind_rules_ignored py_str utc now p0 "a" 0 a "temporary_freeze" (JStr "waf") None matched
           eq_refl eq_refl eq_refl eq_refl ltac:(by vm_compute)).
Defined.

Lemma success_thaws_witness :
  is_model_frozen now "m" a = true /\
  (clear_runtime_freeze_on_success now "a" (Some "m") p0).1.1 = (is_frozen now a || is_model_frozen now "m" a).
Proof.
  split; [by vm_compute|].
  pose proof (success_thaws now p0 "a" 0 a "m" eq_refl eq_refl ltac:(by vm_compute) eq_refl eq_refl) as Ht.
  destruct (clear_runtime_freeze_on_success now "a" (Some "m") p0) as [[lifted p'] tasks]. exact (proj1 Ht).
Defined.
End PoolSample.
