(* ===== verification/Restart.v ===== *)
(** From memory to Redis and back: what the pool's scheduled tasks do to Redis,
    and how a restarted process and the other instances rebuild the freeze
    buckets from it (ProviderPool.restore_cooldowns and
    ModelClientPool.apply_cooldown_event of server/rate_limiter.py). *)
From S2P Require Import Prelude Redis MapRedis Client Windows Reservation Json Cooldown CooldownProps Account Pool PoolProps.

Section restart.
Context {R : Type} `{Redis R}.
Variables (conf : redis_conf) (py_str : json -> string).

(** A scheduled task, run by the event loop; the broadcasts, notifications and
    configuration writes leave Redis's freeze records alone. *)
Definition run_task (provider : string) (t : task) : M R unit :=
  match t with
  | SetAccount u seconds reason category => set_account_cooldown conf provider u seconds reason category
  | SetModel u model seconds reason _ => attempt tt (set_account_model_cooldown conf provider u model seconds reason)
  | ClearAccount u => clear_account_cooldown conf provider u
  | ClearModel u model => clear_account_model_cooldown conf provider u model
  | ClearProvider => _ ← clear_all_provider_cooldowns conf provider; mret tt
  | Broadcast _ _ _ _ _ | BroadcastCleared _ _ | Notify _ | PersistChannelDisabled | PersistAccountDisabled _ => mret tt
  end.
Fixpoint run_tasks (provider : string) (ts : list task) : M R unit :=
  match ts with [] => mret tt | t :: ts' => run_task provider t;; run_tasks provider ts' end.

(** The account part, for one client. *)
Definition restore_account (provider : string) (now : Z) (c : account_client) : M R account_client :=
  attempt c (
    info ← get_account_cooldown_info conf py_str provider (ac_username c) now;
    mret (match info with
          | None => c
          | Some i =>
              if ci_permanent i
              then (freeze now KAccount None None (ci_reason i) true (ci_category i) c).2
              else let until := default 0 (ci_until i) in
                   if now <? until then set_freeze_state_raw (Some until) [] (ci_reason i) (ci_category i) c else c
          end)).

Fixpoint restore_accounts (provider : string) (now : Z) (cs : list account_client) : M R (list account_client) :=
  match cs with
  | [] => mret []
  | c :: cs' =>
      c' ← restore_account provider now c;
      rest ← restore_accounts provider now cs';
      mret (c' :: rest)
  end.

(** One row of the model index; the rows carry no category and whole seconds. *)
Definition restore_row (now : Z) (c : account_client) (e : cooldown_row) : account_client :=
  if negb (str_truthy (cr_model e)) then c
  else if cr_permanent e
  then (freeze now KAccountModel (Some (cr_model e)) None (cr_reason e) true "" c).2
  else let until := sec (default 0 (cr_until e)) in
       if now <? until then set_freeze_state_raw None [(cr_model e, Some until)] (cr_reason e) "" c else c.

Definition restore_user (now : Z) (cs : list account_client) (ue : string * list cooldown_row) : list account_client :=
  match index_of ue.1 cs with
  | None => cs
  | Some i => alter (fun c => foldl (restore_row now) c ue.2) i cs
  end.

Definition restore_cooldowns (now : Z) (p : pool) : M R pool :=
  cs ← restore_accounts (pl_provider_name p) now (pl_clients p);
  model_map ← attempt [] (batch_get_provider_model_cooldowns conf (pl_provider_name p) now);
  mret (set_clients (foldl (restore_user now) cs model_map) p).
End restart.

(** ModelClientPool.apply_cooldown_event: [until = None] is permanent. *)
Definition apply_cooldown_event (now : Z) (username : string) (model_id : option string) (until : option Z)
    (reason category : string) (p : pool) : pool :=
  match index_of username (pl_clients p) with
  | None => p
  | Some i =>
      let model := has_model model_id in
      let apply (c : account_client) :=
        match until with
        | None => (freeze now (if model then KAccountModel else KAccount) model_id None reason true category c).2
        | Some u =>
            if u <=? now then c
            else if model then set_freeze_state_raw None [(default "" model_id, Some u)] reason category c
            else set_freeze_state_raw (Some u) [] reason category c
        end in
      set_clients (alter apply i (pl_clients p)) p
  end.

(** ModelClientPool.clear_cooldown_event *)
Definition clear_cooldown_event (username : string) (model_id : option string) (p : pool) : pool :=
  match index_of username (pl_clients p) with
  | None => p
  | Some i =>
      let apply (c : account_client) :=
        match model_id with
        | Some _ => (unfreeze KAccountModel model_id c).2
        | None => (unfreeze KAccount None c).2
        end in
      set_clients (alter apply i (pl_clients p)) p
  end.

Section props.
Context {R : Type} `{RedisLaws R}.
Variables (conf : redis_conf) (py_str : json -> string).
Hypotheses (Hconf : conf_ok conf = true) (Hcon : connected conf = true).
Implicit Types (s : R) (c : account_client).

Lemma restore_account_at p now c s value secs :
  0 <= now -> (forall n, secs = Some n -> 0 < n) ->
  view s (_key conf (cooldown_key p (ac_username c))) = Some (Entry (RString value) secs) ->
  run (restore_account conf py_str p now c) s =
    (Ret (set_buckets (FreezeEntry (Z.add now ∘ sec <$> secs) (parse_reason py_str value) (parse_category py_str value))
            (ac_models c) c), s).
Proof.
  intros Hnow Hsecs Hv. apply run_eq. unfold restore_account. apply attempt_ret.
  erewrite bind_ret by by apply (get_cooldown_at conf py_str Hconf Hcon).
  destruct secs as [n|]; [|done]. specialize (Hsecs n eq_refl).
  cbn [ci_permanent ci_until ci_reason ci_category fmap option_fmap option_map compose].
  rewrite bool_decide_eq_false_2 by done. change (default 0 (Some (Z.add now (sec n)))) with (now + sec n).
  assert (now < now + sec n) as Hlt by (unfold sec; lia). rewrite (proj2 (Z.ltb_lt _ _) Hlt).
  unfold set_freeze_state_raw. cbn [foldl]. by rewrite (proj2 (Z.eqb_neq (now + sec n) 0)) by lia.
Qed.

(** C40: A freeze of a whole account (not of one of its models) survives the loss of the
    process: run the tasks it scheduled, let time pass, and restore a fresh account object
    from Redis.  While the record lives the account is frozen again, under the same reason
    and category (so its state reads the same), without end exactly when the freeze had
    none, and otherwise for what Redis says is left.  A freeze without a category needs a
    reason that is no number and does not begin with a brace: such a reason is read back
    as something else ([numeric_reason_lost] in CooldownProps). *)
Theorem freeze_survives_restart now i secs reason refresh cat p p' ts c s :
  pl_clients p !! i = Some c ->
  _freeze_account now i secs reason refresh cat p = (true, p', ts) ->
  (cat = "" -> startswith "{" (lstrip reason) = false /\ py_float_ok reason = false) ->
  exists s1, run (run_tasks conf (pl_provider_name p) ts) s = (Ret tt, s1) /\
    forall s2 now2 c2 e2, 0 <= now2 -> elapsed s1 s2 -> ac_username c2 = ac_username c ->
      view s2 (_key conf (cooldown_key (pl_provider_name p) (ac_username c))) = Some e2 -> e_ttl e2 <> Some 0 ->
      exists c3, run (restore_account conf py_str (pl_provider_name p) now2 c2) s2 = (Ret c3, s2) /\
        ac_account c3 = FreezeEntry (Z.add now2 ∘ sec <$> e_ttl e2) reason cat /\
        is_frozen now2 c3 = true /\ (e_ttl e2 = None <-> secs = None).
Proof.
  intros Hi Hf Hr. pose proof (freeze_account_eq now i c secs reason refresh cat p Hi) as E. cbn zeta in E.
  rewrite Hf in E. destruct (freeze now KAccount None secs reason _ cat c) as [ch c'] eqn:Efr. injection E as <- _ ->.
  assert (forall n, secs = Some n -> 0 < n) as Hsecs.
  { intros n ->. unfold freeze in Efr. cbn [freeze_until] in Efr. destruct (0 <? n) eqn:En; [by apply Z.ltb_lt | done]. }
  destruct (set_cooldown_healthy conf Hconf Hcon (pl_provider_name p) (ac_username c) secs reason cat s Hsecs) as (s1 & E1 & Hv1).
  exists s1. split.
  { apply run_eq. cbn [account_tasks run_tasks run_task]. erewrite bind_ret by exact E1. done. }
  intros s2 now2 c2 e2 Hnow2 Hel Hname Hv2 Hz. specialize (Hel (_key conf (cooldown_key (pl_provider_name p) (ac_username c)))).
  rewrite Hv2 in Hel. destruct Hel as [[=]|(e & e' & Ha & [= <-] & Hval & Httl)]. rewrite Hv1 in Ha. injection Ha as <-.
  destruct e2 as [val ttl]. cbn in *. subst val.
  assert (forall n, ttl = Some n -> 0 < n) as Hpos.
  { intros n ->. pose proof (ttl_pos_law _ _ _ n Hv2 eq_refl). destruct (decide (n = 0)) as [->|]; [done | lia]. }
  rewrite <- Hname in Hv2. eexists. split; [by apply restore_account_at|]. split_and!.
  - destruct (cooldown_value_text py_str reason cat Hr) as [-> ->]. done.
  - unfold is_frozen. cbn. destruct ttl as [n|]; [|done]. specialize (Hpos n eq_refl). cbn. apply Z.ltb_lt. unfold sec. lia.
  - symmetry. exact Httl.
Qed.
End props.

Module RestartSample.
Import PoolSample.
Definition conf := CooldownSample.conf.
Definition s0 : mapredis := ∅.
Definition frozen := _freeze_account now 0 (Some 120) "slow down" None "" p0.

(** Two accounts share the provider; the frozen one is restored into a fresh object. *)
Lemma freeze_survives_restart_witness :
  frozen.1.1 = true /\
  exists s1, run (run_tasks conf "p" frozen.2) s0 = (Ret tt, s1) /\
    forall s2 now2 c2 e2, 0 <= now2 -> elapsed s1 s2 -> ac_username c2 = "a" ->
      view s2 (_key conf (cooldown_key "p" "a")) = Some e2 -> e_ttl e2 <> Some 0 ->
      exists c3, run (restore_account conf py_str "p" now2 c2) s2 = (Ret c3, s2) /\
        ac_account c3 = FreezeEntry (Z.add now2 ∘ sec <$> e_ttl e2) "slow down" "" /\
        is_frozen now2 c3 = true /\ (e_ttl e2 = None <-> Some 120 = None).
Proof.
  split; [by vm_compute|].
  exact (freeze_survives_restart conf py_str eq_refl eq_refl now 0 (Some 120) "slow down" None "" p0 frozen.1.2 frozen.2 a s0
           eq_refl ltac:(by vm_compute) ltac:(done)).
Defined.
End RestartSample.
