(* ===== verification/Manager.v ===== *)
(** limits/manager.py: [LimitManager], which ties the account state to the
    ledgers in Redis: the availability test, the reservation of an account, its
    settlement or rollback, lease renewal and release, the cleanup of a
    reservation whose outcome is unknown, and the token recorders.

    [ST world] threads the process state (active leases, the model cooldown mirror,
    the routing scope of the request, the background jobs started) over the
    Redis calls.  A hard deadline that passes is a round trip that was lost or
    not executed ([NetLost], [NetDown]). *)
From S2P Require Import Prelude Redis Client State Windows Reservation Settlement Counters Cooldown Rules Account.

Definition ACCOUNT_CONCURRENCY_LEASE_SECONDS : Z := 900.
Definition REQUEST_WINDOW_SECONDS : Z := 60.
Definition TOKEN_WINDOW_SECONDS : Z := 60.
Definition REQUEST_HOUR_SECONDS : Z := 3600.
Definition TOKEN_HOUR_SECONDS : Z := 3600.
Definition TOKEN_DAY_SECONDS : Z := 86400.
Definition HEARTBEAT_TTL_SECONDS : Z := 60.
(** len(UNCERTAIN_RESERVATION_CLEANUP_DELAYS) *)
Definition CLEANUP_ATTEMPTS : nat := 3.

(** ** Process state *)

(** The scope of one request's routing: whether Redis was degraded, whether a
    reservation had an unknown outcome, and the refusals counted when the
    request carries a timing record.  (Its diagnostics are not modelled.) *)
Record routing := Routing { rt_degraded : bool; rt_uncertain : bool; rt_denials : option (list (string * Z)) }.

(** Background tasks. *)
Inductive job :=
| RenewLease (lease_id : string)
| CleanupFailed (account_key lease_id model_id : string) (window_ids : list (string * string))
| RetryRollback (account_key model_id reservation_id : string) (window_ids : option (list (string * string)))
| SetCooldown (provider username : string) (seconds : Z) (reason : string)
| PublishAccount (provider username : string) (until : Z) (reason : string)
| PublishModel (model_id : string) (until used : Z).

Record world := World {
  wd_active : list (string * limit_lease);      (* _active_leases *)
  wd_model_tpm : list (string * Z);             (* ModelClientPool._model_tpm_cooldowns *)
  wd_routing : option routing;                  (* routing_redis_state() *)
  wd_jobs : list job;
}.
Definition set_active (a : list (string * limit_lease)) (w : world) : world :=
  World a (wd_model_tpm w) (wd_routing w) (wd_jobs w).
Definition set_model_tpm (m : list (string * Z)) (w : world) : world :=
  World (wd_active w) m (wd_routing w) (wd_jobs w).
Definition set_routing (r : option routing) (w : world) : world :=
  World (wd_active w) (wd_model_tpm w) r (wd_jobs w).
Definition start (j : job) (w : world) : world :=
  World (wd_active w) (wd_model_tpm w) (wd_routing w) (wd_jobs w ++ [j]).

(** begin_routing_redis_scope *)
Definition begin_routing_redis_scope (timing : bool) : option routing :=
  Some (Routing false false (if timing then Some [] else None)).

(** _mark_routing_redis_degraded *)
Definition _mark_routing_redis_degraded (w : world) : world :=
  match wd_routing w with
  | None => w
  | Some r => set_routing (Some (Routing true (rt_uncertain r) (rt_denials r))) w
  end.

Definition _record_reservation_denial (reason : string) (w : world) : world :=
  match wd_routing w with
  | None => w
  | Some r => set_routing (Some (Routing (rt_degraded r) (rt_uncertain r)
                ((fun d => dict_set reason (default 0 (dict_get reason d) + 1) d) <$> rt_denials r))) w
  end.

Definition mark_uncertain (w : world) : world :=
  match wd_routing w with
  | None => w
  | Some r => set_routing (Some (Routing (rt_degraded r) true (rt_denials r))) w
  end.
Definition uncertain (w : world) : bool := match wd_routing w with Some r => rt_uncertain r | None => false end.

(** ModelClientPool.apply_model_tpm_cooldown_event *)
Definition apply_model_tpm_cooldown_event (now : Z) (model_id : string) (until : Z) (w : world) : world :=
  if negb (str_truthy model_id) then w
  else if now <? until then set_model_tpm (dict_set model_id until (wd_model_tpm w)) w
  else set_model_tpm (dict_del model_id (wd_model_tpm w)) w.

(** ModelClientPool.clear_model_tpm_cooldown_event *)
Definition clear_model_tpm_cooldown_event (model_id : string) (w : world) : world :=
  if negb (str_truthy model_id) then w else set_model_tpm (dict_del model_id (wd_model_tpm w)) w.

(** ModelClientPool._is_model_tpm_cooling: an expired entry is dropped. *)
Definition _is_model_tpm_cooling (now : Z) (model_id : string) (w : world) : bool * world :=
  match dict_get model_id (wd_model_tpm w) with
  | None => (false, w)
  | Some until =>
      if until =? 0 then (false, w)
      else if until <=? now then (false, set_model_tpm (dict_del model_id (wd_model_tpm w)) w)
      else (true, w)
  end.

(** LimitManager._apply_model_tpm_freeze *)
Definition _apply_model_tpm_freeze (now : Z) (model_id : string) (ttl_seconds used : Z) (w : world) : world :=
  if negb (str_truthy model_id) || (ttl_seconds <=? 0) then w else
  let until := now + sec ttl_seconds in
  start (PublishModel model_id until used) (apply_model_tpm_cooldown_event now model_id until w).

(** _freeze_account_local_and_broadcast *)
Definition _freeze_account_local_and_broadcast (now seconds : Z) (reason : string) (c : account_client) (w : world)
    : account_client * world :=
  if seconds <=? 0 then (c, w) else
  ((freeze now KAccount None (Some seconds) reason true "" c).2,
   start (PublishAccount (ac_provider_name c) (ac_username c) (now + sec seconds) reason) w).

(** _apply_account_freeze *)
Definition _apply_account_freeze (now seconds : Z) (reason : string) (c : account_client) (w : world)
    : account_client * world :=
  if seconds <=? 0 then (c, w) else
  ((freeze now KAccount None (Some seconds) reason true "" c).2,
   start (PublishAccount (ac_provider_name c) (ac_username c) (now + sec seconds) reason)
     (start (SetCooldown (ac_provider_name c) (ac_username c) seconds reason) w)).

(** ** Availability *)

(** LimitManager.account_subject *)
Definition account_subject (c : account_client) (model_id : string) : limit_subject :=
  LimitSubject (ac_provider_name c) (ac_username c) model_id model_id.

(** The local windows are signals for the scores only. *)
Definition trim_signals (now : Z) (c : account_client) : account_client :=
  set_signals (recent now (sec REQUEST_WINDOW_SECONDS) (ac_requests c))
    (filter (fun tn => now - tn.1 < sec TOKEN_WINDOW_SECONDS) (ac_token_usages c)) c.

Definition exhausted_dimension (c : account_client) : bool :=
  match ac_quotas c with Some q => existsb qd_exhausted (pq_dimensions q) | None => false end.

(** The switches and freezes a probe ignores. *)
Definition hard_state (now : Z) (channel_enabled : bool) (c : account_client) : option limit_decision :=
  if ac_disabled c then Some (deny "account_disabled")
  else if is_frozen now c then
    let remaining := cooldown_remaining now c in
    Some (if 0 <? remaining then LimitDecision false "account_cooldown" (Some remaining) else deny "account_frozen")
  else if negb channel_enabled then Some (deny "channel_disabled")
  else None.

(** The model freeze and the quota the provider reported. *)
Definition soft_state (now : Z) (model_id : option string) (c : account_client) : option limit_decision * account_client :=
  if match model_id with Some m => str_truthy m && is_model_frozen now m c | None => false end
  then (Some (deny "account_model_cooldown"), c) else
  let c := sync_provider_quota now c in
  (if now <? ac_quota_disabled_until c then Some (deny "provider_quota_cooldown")
   else match ac_daily_remaining c with
        | Some n => if n <=? 0 then Some (deny "provider_daily_quota_exhausted") else None
        | None => None
        end, c).

(** LimitManager.account_available_locked.  [check] is what the provider answers
    for the message; a raising [is_init] is [None]. *)
Definition account_available_locked (now : Z) (channel_enabled : bool) (check : bool * string)
    (model_id : option string) (is_test : bool) (c : account_client) : option limit_decision * account_client :=
  match (if is_test then None else hard_state now channel_enabled c) with
  | Some d => (Some d, c)
  | None =>
      match ac_init c with
      | NoInitMethod | InitRaises => (None, c)
      | InitReturns false => (Some (deny "provider_not_initialized"), c)
      | InitReturns true =>
          let '(refused, c) := if is_test then (None, c) else soft_state now model_id c in
          match refused with
          | Some d => (Some d, c)
          | None =>
              let c := trim_signals now c in
              (Some (if exhausted_dimension c then deny "provider_quota_exhausted"
                     else if opt_truthy model_id && negb check.1
                     then deny (str_or check.2 "provider_message_quota_exceeded")
                     else allow), c)
          end
      end
  end.

Section manager.
Context {R : Type} `{Redis R}.
Variables (conf : redis_conf) (utc_offset : Z -> Z) (boot_id : string).

(** routing_redis_call with skip_when_degraded off: an exception is the default
    and marks the scope. *)
Definition routing_redis_call {A} (d : A) (m : M R A) : ST world R A := fun w e =>
  match m e with
  | (Ret a, e') => (Ret (a, w), e')
  | (Exc, e') => (Ret (d, _mark_routing_redis_degraded w), e')
  end.

(** With skip_when_degraded, the default of the auxiliary reads. *)
Definition routing_aux_call {A} (d : A) (m : M R A) : ST world R A := fun w =>
  match wd_routing w with
  | Some r => if rt_degraded r then mret (d, w) else routing_redis_call d m w
  | None => routing_redis_call d m w
  end.

(** ** Reserving an account *)

(** Limits of the call: a probe books concurrency only. *)
Definition call_limits (is_test : bool) (c : account_client) : account_limits :=
  if is_test then AccountLimits 0 0 0 0 0 0 (al_concurrent (ac_limits c)) else ac_limits c.

Definition has_token_limits (l : account_limits) (model_tpm : Z) : bool :=
  (0 <? al_tpm l) || (0 <? al_tph l) || (0 <? al_tpd l) || (0 <? model_tpm).
Definition has_remote_limits (l : account_limits) (model_tpm token_amount : Z) : bool :=
  (0 <? al_concurrent l) || (0 <? al_rpm l) || (0 <? al_rpd l) || (0 <? al_rph l) ||
  ((0 <? token_amount) && has_token_limits l model_tpm).

Definition lease_name (hex : string) : string := "lease:" +++ boot_id +++ ":" +++ hex.

Definition manager_args (now : Z) (c : account_client) (model_id lease_id : string) (l : account_limits)
    (model_tpm token_amount : Z) (overflow is_test : bool) : reserve_args :=
  {| r_account_key := subject_account_key (account_subject c model_id); r_lease_id := lease_id;
     r_freeze_key := cooldown_key (ac_provider_name c) (ac_username c);
     r_model_freeze_key := "limit:model-tpm-freeze:" +++ model_id;
     r_account_model_freeze_key := model_cooldown_key (ac_provider_name c) (ac_username c) model_id;
     r_concurrent_limit := al_concurrent l; r_concurrency_ttl := ACCOUNT_CONCURRENCY_LEASE_SECONDS;
     r_rpm_limit := al_rpm l; r_rpm_ttl := REQUEST_WINDOW_SECONDS;
     r_rpd_limit := al_rpd l; r_rpd_ttl := _seconds_until_day_end utc_offset now;
     r_rph_limit := al_rph l; r_rph_ttl := REQUEST_HOUR_SECONDS;
     r_model_id := Some model_id; r_token_amount := token_amount;
     r_tpm_limit := al_tpm l; r_tpm_ttl := TOKEN_WINDOW_SECONDS;
     r_tph_limit := al_tph l; r_tph_ttl := TOKEN_HOUR_SECONDS;
     r_tpd_limit := al_tpd l; r_tpd_ttl := _seconds_until_day_end utc_offset now;
     r_model_tpm_limit := model_tpm; r_model_tpm_ttl := TOKEN_WINDOW_SECONDS;
     r_allow_token_overflow := overflow; r_window_ids := Some (_reservation_window_ids utc_offset now);
     r_skip_freeze_checks := is_test |}.

Definition fresh_lease (now : Z) (c : account_client) (model_id lease_id : string) (is_test : bool) : limit_lease :=
  LimitLease (account_subject c model_id) lease_id lease_id (Some (now + sec ACCOUNT_CONCURRENCY_LEASE_SECONDS))
    false false no_amounts [] is_test false false.

(** The reason a script's refusal is reported under. *)
Definition denial_reason (backend_reason : string) : string :=
  if String.eqb backend_reason "frozen" then "account_frozen"
  else if String.eqb backend_reason "concurrent" then "concurrent_limit"
  else backend_reason.

(** A refusal of the script: mirror the freeze it saw, count it. *)
Definition refused (now : Z) (model_id : string) (rr : reserve_result) (c : account_client) (w : world)
    : limit_reservation * account_client * world :=
  let backend_reason := str_or (rr_reason rr) "limited" in
  let reason := denial_reason backend_reason in
  let ttl := rr_ttl rr in
  let c' :=
    if String.eqb backend_reason "frozen" && (0 <? ttl)
    then (freeze now KAccount None (Some ttl) "account limit cooling down" true "" c).2
    else if String.eqb backend_reason "account_model_frozen" && (0 <? ttl)
    then (freeze now KAccountModel (Some model_id) (Some ttl) "account limit cooling down" true "" c).2
    else c in
  let w' := if String.eqb backend_reason "model_frozen" && (0 <? ttl)
            then apply_model_tpm_cooldown_event now model_id (now + sec ttl) w else w in
  (LimitReservation None (LimitDecision false reason
     (if negb (ttl =? 0) then Some ttl
      else if negb (rr_retry_after rr =? 0) then Some (rr_retry_after rr) else None)),
   c', _record_reservation_denial reason w').

Definition booked_amounts (l : account_limits) (model_tpm token_amount : Z) : reserved_amounts :=
  {| ra_rpm := if 0 <? al_rpm l then 1 else 0; ra_rph := if 0 <? al_rph l then 1 else 0;
     ra_rpd := if 0 <? al_rpd l then 1 else 0;
     ra_tokens := if has_token_limits l model_tpm then token_amount else 0;
     ra_tpm_limit := al_tpm l; ra_tph_limit := al_tph l; ra_tpd_limit := al_tpd l; ra_model_tpm_limit := model_tpm |}.

(** An accepted reservation: the lease as booked, and the freezes it caused. *)
Definition accept (now : Z) (model_id : string) (l : account_limits) (model_tpm token_amount : Z)
    (wids : list (string * string)) (rr : reserve_result) (lease : limit_lease) (c : account_client) (w : world)
    : limit_lease * account_client * world :=
  let acquired := 0 <? al_concurrent l in
  let lease := LimitLease (ll_subject lease) (ll_lease_id lease) (ll_reservation_id lease)
                 (if 0 <? rr_lease_expires_at rr then Some (sec (rr_lease_expires_at rr)) else ll_expires_at lease)
                 acquired (ll_local_fallback lease) (booked_amounts l model_tpm token_amount)
                 (match rr_window_ids rr with [] => wids | d => d end)
                 (ll_test_probe lease) (ll_settled lease) (ll_rolled_back lease) in
  let w := if acquired then start (RenewLease (ll_lease_id lease)) (set_active (dict_set (ll_lease_id lease) lease (wd_active w)) w)
           else w in
  let '(c, w) := if str_truthy (rr_reason rr) && (0 <? rr_ttl rr)
                 then _freeze_account_local_and_broadcast now (rr_ttl rr) (rr_reason rr +++ " 触线") c w else (c, w) in
  let w := if 0 <? rr_model_tpm_freeze_ttl rr
           then _apply_model_tpm_freeze now model_id (rr_model_tpm_freeze_ttl rr) (rr_model_tpm rr) w else w in
  (lease, c, w).

Definition redis_uncertain : limit_reservation :=
  LimitReservation None (LimitDecision false "redis_uncertain" (Some 1)).

(** Settle the answer of the reserve call; [None] is an unknown outcome. *)
Definition reserved (now : Z) (model_id : string) (l : account_limits) (model_tpm token_amount : Z)
    (wids : list (string * string)) (result : option reserve_result) (lease : limit_lease) (c : account_client) (w : world)
    : limit_reservation * account_client * world :=
  match result with
  | Some rr =>
      if negb (rr_allowed rr) then refused now model_id rr c w else
      let '(lease, c, w) := accept now model_id l model_tpm token_amount wids rr lease c w in
      (LimitReservation (Some lease) allow, c, w)
  | None =>
      if 0 <? al_concurrent l then
        (redis_uncertain, c,
         _record_reservation_denial "redis_uncertain"
           (start (CleanupFailed (subject_account_key (ll_subject lease)) (ll_lease_id lease) model_id wids)
              (mark_uncertain w)))
      else
        (LimitReservation (Some (LimitLease (ll_subject lease) (ll_lease_id lease) (ll_reservation_id lease)
           (ll_expires_at lease) false true no_amounts [] (ll_test_probe lease) false false)) allow, c, w)
  end.

(** What the request and the configuration say; [rq_hex] is uuid4().hex. *)
Record request := Request {
  rq_model_id : string; rq_check : bool * string; rq_is_test : bool; rq_token_estimate : Z;
  rq_channel_enabled : bool; rq_model_tpm : Z; rq_allow_overflow : bool; rq_hex : string;
}.

Definition try_reserve (now : Z) (rq : request) (is_test : bool) (c : account_client) : ST world R (limit_reservation * account_client) :=
  let model_id := rq_model_id rq in
  let lease := fresh_lease now c model_id (lease_name (rq_hex rq)) is_test in
  let l := call_limits is_test c in
  let model_tpm := if is_test then 0 else rq_model_tpm rq in
  let token_amount := if is_test then 0 else Z.max 0 (rq_token_estimate rq) in
  w ← get_world;
  if (0 <? al_concurrent l) && uncertain w then
    modify (_record_reservation_denial "redis_uncertain");; mret (redis_uncertain, c)
  else if negb (has_remote_limits l model_tpm token_amount) then
    mret (LimitReservation (Some lease) allow, c)
  else
    result ← routing_redis_call None
      (reserve_account_limits conf utc_offset
         (manager_args now c model_id (ll_lease_id lease) l model_tpm token_amount (rq_allow_overflow rq) is_test) now);
    w ← get_world;
    let '(r, c, w) := reserved now model_id l model_tpm token_amount (_reservation_window_ids utc_offset now) result lease c w in
    modify (fun _ => w);; mret (r, c).

(** LimitManager.acquire_account *)
Definition acquire_account (now : Z) (rq : request) (c : account_client) : ST world R (limit_reservation * account_client) :=
  let is_test := rq_is_test rq || ac_is_test c in
  if is_test then try_reserve now rq true c else
  let '(decision, c) := account_available_locked now (rq_channel_enabled rq) (rq_check rq) (Some (rq_model_id rq)) false c in
  match decision with
  | None => lift raise
  | Some d => if ld_allowed d then try_reserve now rq false c else mret (LimitReservation None d, c)
  end.

(** ** Settling a lease *)

Definition mark_settled (l : limit_lease) : limit_lease :=
  LimitLease (ll_subject l) (ll_lease_id l) (ll_reservation_id l) (ll_expires_at l) (ll_concurrency_acquired l)
    (ll_local_fallback l) (ll_amounts l) (ll_window_ids l) (ll_test_probe l) true (ll_rolled_back l).
Definition mark_rolled_back (l : limit_lease) : limit_lease :=
  LimitLease (ll_subject l) (ll_lease_id l) (ll_reservation_id l) (ll_expires_at l) (ll_concurrency_acquired l)
    (ll_local_fallback l) (ll_amounts l) (ll_window_ids l) (ll_test_probe l) (ll_settled l) true.

(** [reservation_id or lease_id], [routed_model or model], [window_ids or None] *)
Definition lease_rid (l : limit_lease) : string := str_or (ll_reservation_id l) (ll_lease_id l).
Definition lease_model (l : limit_lease) : string := str_or (ls_routed_model (ll_subject l)) (ls_model (ll_subject l)).
Definition lease_wids (l : limit_lease) : option (list (string * string)) :=
  match ll_window_ids l with [] => None | d => Some d end.

Definition settle_args (l : limit_lease) (actual_tokens : Z) : reconcile_args :=
  let s := ll_subject l in
  {| e_account_key := subject_account_key s; e_model_id := Some (lease_model l); e_reservation_id := lease_rid l;
     e_actual_tokens := Z.max 0 actual_tokens;
     e_account_tpm_limit := ra_tpm_limit (ll_amounts l); e_account_tph_limit := ra_tph_limit (ll_amounts l);
     e_account_tpd_limit := ra_tpd_limit (ll_amounts l); e_model_tpm_limit := ra_model_tpm_limit (ll_amounts l);
     e_window_ids := lease_wids l;
     e_account_freeze_key := Some (cooldown_key (ls_provider s) (ls_account s));
     e_model_freeze_key := if str_truthy (lease_model l) then Some ("limit:model-tpm-freeze:" +++ lease_model l) else None |}.

(** The model freeze a settlement caused is mirrored. *)
Definition mirror_settlement (now : Z) (model_id : string) (result : option reconcile_result) (w : world) : world :=
  match result with
  | Some r =>
      if (0 <? rc_model_freeze_ttl r) && str_truthy model_id
      then _apply_model_tpm_freeze now model_id (rc_model_freeze_ttl r)
             (default 0 (default None (dict_get "model_tpm" (rc_used r)))) w
      else w
  | None => w
  end.

(** LimitManager.reconcile_account_reservation *)
Definition manager_reconcile (now : Z) (lease : option limit_lease) (actual_tokens : Z)
    : ST world R (option reconcile_result * option limit_lease) :=
  match lease with
  | None => mret (None, None)
  | Some l =>
      if ll_settled l || ll_rolled_back l then mret (None, Some l)
      else if ll_test_probe l then mret (None, Some (mark_settled l))
      else if negb (str_truthy (lease_rid l)) || ll_local_fallback l then mret (None, Some (mark_settled l))
      else if (ra_tokens (ll_amounts l) =? 0) && (actual_tokens <=? 0) then
        lift (finalize_reservation conf (lease_rid l));; mret (None, Some (mark_settled l))
      else
        result ← routing_redis_call None (reconcile_account_reservation conf utc_offset (settle_args l actual_tokens) now);
        match result with Some _ => lift (finalize_reservation conf (lease_rid l)) | None => mret tt end;;
        modify (mirror_settlement now (lease_model l) result);;
        mret (result, Some (mark_settled l))
  end.

(** LimitManager.rollback_account_reservation *)
Definition manager_rollback (now : Z) (lease : option limit_lease) : ST world R (option Z * option limit_lease) :=
  match lease with
  | None => mret (None, None)
  | Some l =>
      if ll_rolled_back l || ll_settled l then mret (None, Some l)
      else if ll_test_probe l then mret (None, Some (mark_rolled_back l))
      else if negb (str_truthy (lease_rid l)) || ll_local_fallback l then mret (None, Some (mark_rolled_back l))
      else
        let account_key := subject_account_key (ll_subject l) in
        result ← routing_redis_call None
          (rollback_account_reservation conf utc_offset account_key (Some (lease_model l)) (lease_rid l) (lease_wids l) now);
        match result with
        | Some _ => mret tt
        | None => modify (start (RetryRollback account_key (lease_model l) (lease_rid l) (lease_wids l)))
        end;;
        mret (result, Some (mark_rolled_back l))
  end.

(** LimitManager._retry_ledger_rollback: until an answer, at most [n] times. *)
Fixpoint _retry_ledger_rollback (n : nat) (now : Z) (account_key model_id rid : string)
    (wids : option (list (string * string))) : ST world R unit :=
  match n with
  | O => mret tt
  | S n' =>
      result ← routing_redis_call None (rollback_account_reservation conf utc_offset account_key (Some model_id) rid wids now);
      match result with
      | Some _ => mret tt
      | None => _retry_ledger_rollback n' now account_key model_id rid wids
      end
  end.

(** The release attempts of _cleanup_failed_reservation. *)
Fixpoint release_until (n : nat) (account_key lease_id : string) : ST world R unit :=
  match n with
  | O => mret tt
  | S n' =>
      removed ← routing_redis_call None (release_account_reservation conf account_key lease_id);
      match removed with
      | Some true => mret tt
      | _ => release_until n' account_key lease_id
      end
  end.

(** LimitManager._cleanup_failed_reservation *)
Definition _cleanup_failed_reservation (now : Z) (account_key lease_id model_id : string)
    (wids : list (string * string)) : ST world R unit :=
  routing_redis_call None
    (rollback_account_reservation conf utc_offset account_key (Some model_id) lease_id (Some wids) now);;
  release_until CLEANUP_ATTEMPTS account_key lease_id.

(** ** Concurrency leases *)

(** LimitManager.detach_account_lease_locked *)
Definition detach_account_lease_locked (lease_id : option string) (c : account_client) : option limit_lease * account_client :=
  match lease_id with
  | Some id =>
      if negb (str_truthy id) then (None, c) else
      match dict_get id (ac_leases c) with
      | Some l => (Some l, set_leases (if 0 <? ac_in_flight c then ac_in_flight c - 1 else ac_in_flight c)
                             (dict_del id (ac_leases c)) c)
      | None => (None, c)
      end
  | None => (None, c)
  end.

(** LimitManager.release_account_lease *)
Definition release_account_lease (lease : option limit_lease) : ST world R unit :=
  match lease with
  | None => mret tt
  | Some l =>
      if negb (ll_concurrency_acquired l) then mret tt else
      modify (fun w => set_active (dict_del (ll_lease_id l) (wd_active w)) w);;
      _ ← routing_redis_call None (release_account_reservation conf (subject_account_key (ll_subject l)) (ll_lease_id l));
      mret tt
  end.

(** One turn of LimitManager._renew_account_lease; false ends the loop. *)
Definition _renew_account_lease (now : Z) (lease : limit_lease) : ST world R (bool * limit_lease) :=
  w ← get_world;
  match dict_get (ll_lease_id lease) (wd_active w) with
  | None => mret (false, lease)
  | Some _ =>
      expires_at ← routing_redis_call None
        (renew_account_reservation conf (subject_account_key (ll_subject lease)) (ll_lease_id lease)
           ACCOUNT_CONCURRENCY_LEASE_SECONDS now);
      mret (true, match expires_at with
                  | Some t => LimitLease (ll_subject lease) (ll_lease_id lease) (ll_reservation_id lease) (Some (sec t))
                                (ll_concurrency_acquired lease) (ll_local_fallback lease) (ll_amounts lease)
                                (ll_window_ids lease) (ll_test_probe lease) (ll_settled lease) (ll_rolled_back lease)
                  | None => lease
                  end)
  end.

(** LimitManager.shutdown: every active lease is released. *)
Fixpoint release_all (leases : list limit_lease) : ST world R unit :=
  match leases with [] => mret tt | l :: leases' => release_account_lease (Some l);; release_all leases' end.
Definition shutdown : ST world R unit :=
  w ← get_world; release_all (wd_active w).*2;;
  modify (fun w => World (wd_active w) (wd_model_tpm w) (wd_routing w) []).

(** LimitManager.start_heartbeat, its first beat, and reap_orphan_reservations *)
Definition start_heartbeat : M R bool := set_process_heartbeat conf boot_id HEARTBEAT_TTL_SECONDS.
Definition manager_reap (now : Z) : M R Z := reap_orphan_reservations conf utc_offset boot_id 200 now.

(** ** AccountClient.reserve_with_decision and release

    [ctx] is the lease stack of the calling task; [record_ok] tells whether the
    provider's record_message returned. *)
Definition push_lease (now : Z) (l : limit_lease) (c : account_client) : account_client :=
  set_leases (ac_in_flight c + 1) (dict_set (ll_lease_id l) l (ac_leases c))
    (if ac_is_test c then c else set_signals (ac_requests c ++ [now]) (ac_token_usages c) c).

Definition reserve_with_decision (now : Z) (rq : request) (record_ok : bool) (ctx : list string) (c : account_client)
    : ST world R (option limit_reservation * account_client * list string) :=
  '(r, c) ← acquire_account now rq c;
  match lr_lease r with
  | None => mret (Some r, c, ctx)
  | Some l =>
      if ll_local_fallback l && (0 <? al_concurrent (ac_limits c)) && (al_concurrent (ac_limits c) <=? ac_in_flight c)
      then mret (Some (LimitReservation None (deny "concurrent_limit")), c, ctx) else
      let c := push_lease now l c in
      if ac_is_test c || record_ok then mret (Some r, c, ctx ++ [ll_lease_id l]) else
      let '(detached, c) := detach_account_lease_locked (Some (ll_lease_id l)) c in
      release_account_lease detached;;
      mret (None, c, filter (fun x => x <> ll_lease_id l) ctx)
  end.

(** AccountClient.current_limit_lease *)
Definition current_limit_lease (ctx : list string) (c : account_client) : option limit_lease :=
  match last ctx with Some id => dict_get id (ac_leases c) | None => None end.

Definition release (ctx : list string) (c : account_client) : ST world R (account_client * list string) :=
  let lease_id := last ctx in
  let ctx' := match lease_id with
              | Some id => if str_truthy id then removelast ctx else ctx
              | None => ctx
              end in
  let '(l, c) := detach_account_lease_locked lease_id c in
  release_account_lease l;; mret (c, ctx').

(** ** Recording tokens *)

(** One window of _record_hour_day_tokens_and_freeze. *)
Definition record_window (now : Z) (account_key field : string) (limit tokens window : Z) (c : account_client) : ST world R account_client :=
  if limit <=? 0 then mret c else
  result ← lift (incrby_window conf (account_key +++ ":" +++ field) tokens window);
  match result with
  | None => mret c
  | Some (used, ttl) =>
      if limit <=? used then
        w ← get_world;
        let '(c, w) := _apply_account_freeze now ttl (field +++ " 触线 " +++ tostring used +++ "/" +++ tostring limit) c w in
        modify (fun _ => w);; mret c
      else mret c
  end.

Definition _record_hour_day_tokens_and_freeze (now : Z) (account_key : string) (tokens : Z) (c : account_client) : ST world R account_client :=
  c ← record_window now account_key "tph" (al_tph (ac_limits c)) tokens TOKEN_HOUR_SECONDS c;
  record_window now account_key "tpd" (al_tpd (ac_limits c)) tokens TOKEN_DAY_SECONDS c.

Definition note_tokens (now tokens : Z) (c : account_client) : account_client :=
  set_signals (ac_requests c)
    (filter (fun tn => now - tn.1 < sec TOKEN_WINDOW_SECONDS) (ac_token_usages c) ++ [(now, tokens)]) c.

(** LimitManager.record_account_tokens: the minute window is counted even without a limit. *)
Definition record_account_tokens (now tokens : Z) (c : account_client) : ST world R account_client :=
  if tokens <=? 0 then mret c else
  let account_key := subject_account_key (account_subject c "") in
  result ← lift (incrby_window conf (account_key +++ ":tpm") tokens TOKEN_WINDOW_SECONDS);
  w ← get_world;
  let '(c, w) := match result with
                 | Some (used, ttl) =>
                     if (0 <? al_tpm (ac_limits c)) && (al_tpm (ac_limits c) <=? used)
                     then _apply_account_freeze now ttl ("tpm 触线 " +++ tostring used +++ "/" +++ tostring (al_tpm (ac_limits c))) c w
                     else (c, w)
                 | None => (c, w)
                 end in
  modify (fun _ => w);;
  c ← _record_hour_day_tokens_and_freeze now account_key tokens c;
  mret (note_tokens now tokens c).

(** LimitManager.record_tpm_and_maybe_freeze *)
Definition record_tpm_and_maybe_freeze (now : Z) (model_id : string) (tokens model_limit : Z) (c : account_client)
    : ST world R (option (Z * Z * Z * Z) * account_client) :=
  if tokens <=? 0 then mret (None, c) else
  let account_key := subject_account_key (account_subject c model_id) in
  c ← _record_hour_day_tokens_and_freeze now account_key tokens c;
  let account_limit := al_tpm (ac_limits c) in
  if (account_limit <=? 0) && (model_limit <=? 0) then mret (None, c) else
  result ← routing_redis_call None
    (record_tpm_and_freeze conf account_key model_id tokens TOKEN_WINDOW_SECONDS account_limit model_limit
       (cooldown_key (ac_provider_name c) (ac_username c)) ("limit:model-tpm-freeze:" +++ model_id));
  mret (result, c).

(** LimitManager.record_model_tokens *)
Definition record_model_tokens (model_id : string) (tokens : Z) : ST world R (option (Z * Z)) :=
  if tokens <=? 0 then mret None else
  routing_redis_call None (record_model_tpm_window conf model_id tokens TOKEN_WINDOW_SECONDS).

(** ModelClientPool.record_token_usage, for an account of the pool or none. *)
Definition record_token_usage (now : Z) (model_id : string) (tokens model_limit : Z) (c : option account_client)
    : ST world R (option account_client) :=
  if tokens <=? 0 then mret c else
  '(result, c) ← match c with
    | Some c => '(r, c) ← record_tpm_and_maybe_freeze now model_id tokens model_limit c; mret (r, Some c)
    | None => r ← record_model_tokens model_id tokens;
              mret ((fun w => (0, 0, w.1, w.2)) <$> r, None)
    end;
  w ← get_world;
  let '(c, w) := match result with
    | None => (c, w)
    | Some (account_used, account_ttl, model_used, model_ttl) =>
        let '(c, w) := match c with
          | Some c =>
              let limit := al_tpm (ac_limits c) in
              if (0 <? limit) && (limit <=? account_used) && (0 <? account_ttl)
              then let '(c, w) := _freeze_account_local_and_broadcast now account_ttl
                                    ("tpm 触线 " +++ tostring account_used +++ "/" +++ tostring limit) c w in (Some c, w)
              else (Some c, w)
          | None => (None, w)
          end in
        (c, if (0 <? model_limit) && (model_limit <=? model_used) && (0 <? model_ttl)
            then start (PublishModel model_id (now + sec model_ttl) model_used)
                   (set_model_tpm (dict_set model_id (now + sec model_ttl) (wd_model_tpm w)) w)
            else w)
    end in
  modify (fun _ => w);;
  mret (note_tokens now tokens <$> c).
End manager.
