(* ===== verification/ManagerProps.v ===== *)
(** What LimitManager guarantees: who gets a lease, that a lease is settled
    once, that a reservation of unknown outcome is cleaned up, and what a lost
    reply leaves behind when the account has no concurrency limit. *)
From S2P Require Import Prelude Redis MapRedis Client State Ledger Windows Reservation Settlement.
From S2P Require Import ReservationFacts SettlementFacts ReservationProps Recovery Counters Cooldown Rules Account Manager.

(** ** Guarded calls *)
Section monad.
Context {R : Type} `{Redis R}.

Lemma routing_call_ret {A} (d a : A) (m : M R A) w (e : renv R) e' :
  m e = (Ret a, e') -> routing_redis_call d m w e = (Ret (a, w), e').
Proof. intros Hm. unfold routing_redis_call. by rewrite Hm. Qed.

(** A guarded call always returns. *)
Lemma routing_call_total {A} (d : A) (m : M R A) w (e : renv R) :
  exists a w' e', routing_redis_call d m w e = (Ret (a, w'), e').
Proof. unfold routing_redis_call. destruct (m e) as [[a|] e']; eauto. Qed.

Lemma finalize_total conf rid (e : renv R) : exists e', finalize_reservation conf rid e = (Ret tt, e').
Proof.
  unfold finalize_reservation, with_redis. repeat case_match; try by eexists.
  unfold attempt. destruct (mbind (M := M R) _ _ e) as [[[]|] e']; eauto.
Qed.
End monad.

Section manager.
Context {R : Type} `{RedisLaws R}.
Variables (conf : redis_conf) (utc_offset : Z -> Z) (boot_id : string).
Implicit Types (s : R) (c : account_client) (w : world) (l : limit_lease).

(** Run the guarded call at the head of the goal. *)
Ltac routing_step w e a w1 e1 :=
  match goal with
  | |- context [routing_redis_call ?d ?m] =>
      destruct (routing_call_total d m w e) as (a & w1 & e1 & ?);
      erewrite ST_bind_ret by eassumption
  end.

(** ** Availability *)

(** An account a normal request may be sent to. *)
Record usable (now : Z) (rq : request) c : Prop := {
  us_enabled : ac_disabled c = false;
  us_thawed : is_frozen now c = false;
  us_channel : rq_channel_enabled rq = true;
  us_init : ac_init c = InitReturns true;
  us_model : str_truthy (rq_model_id rq) = true -> is_model_frozen now (rq_model_id rq) c = false;
  us_quota : (now <? ac_quota_disabled_until (sync_provider_quota now c)) = false;
  us_daily : forall n, ac_daily_remaining (sync_provider_quota now c) = Some n -> 0 < n;
  us_dimensions : exhausted_dimension c = false;
  us_message : str_truthy (rq_model_id rq) = true -> (rq_check rq).1 = true;
}.

Lemma sync_keeps_quotas now c : ac_quotas (sync_provider_quota now c) = ac_quotas c.
Proof.
  assert (forall r (m : option Z) c, ac_quotas (update_provider_quota now r m c) = ac_quotas c) as Hu.
  { intros r l0 c0. unfold update_provider_quota. by repeat case_match. }
  assert (forall ds c, ac_quotas (foldl (fun c d => if String.eqb (qd_name d) "requests_daily"
            then update_provider_quota now (qd_remaining d) (qd_limit d) c else c) c ds) = ac_quotas c) as Hf.
  { induction ds as [|d ds IH]; intros c0; [done|]. simpl. rewrite IH. by case_match. }
  unfold sync_provider_quota. destruct (ac_quotas c) eqn:E; [|done]. rewrite Hf. repeat case_match; by rewrite ?Hu.
Qed.

Lemma soft_state_none now m c c' :
  soft_state now (Some m) c = (None, c') ->
  c' = sync_provider_quota now c /\ (str_truthy m = true -> is_model_frozen now m c = false) /\
  (now <? ac_quota_disabled_until c') = false /\ (forall n, ac_daily_remaining c' = Some n -> 0 < n).
Proof.
  unfold soft_state. destruct (str_truthy m && is_model_frozen now m c) eqn:Em; [done|].
  destruct (now <? _) eqn:Eq; [done|]. destruct (ac_daily_remaining _) as [n|] eqn:Ed.
  - destruct (n <=? 0) eqn:En; [done|]. intros [= <-]. split_and!; [done| |done|intros n' Hn; rewrite Ed in Hn; simplify_eq; lia].
    intros Ht. by rewrite Ht in Em.
  - intros [= <-]. split_and!; [done| |done|intros n' Hn; congruence].
    intros Ht. by rewrite Ht in Em.
Qed.

Lemma available_usable now rq c d c' :
  account_available_locked now (rq_channel_enabled rq) (rq_check rq) (Some (rq_model_id rq)) false c = (Some d, c') ->
  ld_allowed d = true -> usable now rq c.
Proof.
  unfold account_available_locked, hard_state. simpl negb. cbv iota.
  destruct (ac_disabled c) eqn:Edis; [by intros [= <- <-]|].
  destruct (is_frozen now c) eqn:Efr; [by case_match; intros [= <- <-]|].
  destruct (rq_channel_enabled rq) eqn:Ech; [|by intros [= <- <-]]. cbn [negb].
  destruct (ac_init c) as [| |[]] eqn:Ein; [done|done| |by intros [= <- <-]].
  destruct (soft_state now (Some (rq_model_id rq)) c) as [[d0|] c1] eqn:Es.
  { intros [= <- <-] Hd. exfalso. revert Es Hd. unfold soft_state.
    repeat case_match; intros; simplify_eq/=; done. }
  apply soft_state_none in Es as (-> & Hm & Hq & Hn).
  intros Heq Hd. simplify_eq/=.
  assert (exhausted_dimension c = false) as Hx.
  { revert Hd. unfold exhausted_dimension, trim_signals, set_signals. simpl. rewrite sync_keeps_quotas.
    by destruct (ac_quotas c) as [q|]; [destruct (existsb _ _)|]. }
  constructor; try done. intros Ht. revert Hd.
  rewrite Ht. destruct (rq_check rq) as [[] why]; [done|]. by case_match.
Qed.

Lemma refused_env now rq c w (e : renv R) r c' w' e' :
  acquire_account conf utc_offset boot_id now rq c w e = (Ret ((r, c'), w'), e') ->
  rq_is_test rq = false -> ac_is_test c = false -> ~ usable now rq c -> lr_lease r = None /\ w' = w /\ e' = e.
Proof.
  unfold acquire_account. intros Ha Ht Hc Hu. rewrite Ht, Hc in Ha. cbn [orb] in Ha. cbv zeta iota in Ha.
  destruct (account_available_locked _ _ _ _ _ c) as [[d|] c1] eqn:Eav; [|done].
  destruct (ld_allowed d) eqn:Hd; [by apply available_usable in Eav|].
  by injection Ha as <- <- <- <-.
Qed.

Lemma acquired_usable now rq c w (e : renv R) r c' w' e' :
  acquire_account conf utc_offset boot_id now rq c w e = (Ret ((r, c'), w'), e') ->
  rq_is_test rq = false -> ac_is_test c = false -> is_Some (lr_lease r) -> usable now rq c.
Proof.
  intros Ha Ht Hc [l Hl].
  unfold acquire_account in Ha. rewrite Ht, Hc in Ha. cbn [orb] in Ha. cbv zeta iota in Ha.
  destruct (account_available_locked _ _ _ _ _ c) as [[d|] c1] eqn:Eav; [|done].
  destruct (ld_allowed d) eqn:Hd; [by eapply available_usable|]. by injection Ha as <- _ _ _.
Qed.

(** A normal request gets a lease only on an account that is enabled, not
    frozen, on an enabled channel, initialised, with the model not frozen, no
    quota reported as used up, and the message accepted by the provider; on any
    other account the answer is a refusal without a Redis call, and no
    background job is started. *)
Lemma acquire_needs_usable now rq c w (e : renv R) r c' w' e' :
  acquire_account conf utc_offset boot_id now rq c w e = (Ret ((r, c'), w'), e') ->
  rq_is_test rq = false -> ac_is_test c = false ->
  (is_Some (lr_lease r) -> usable now rq c) /\
  (~ usable now rq c -> lr_lease r = None /\ w' = w /\ e' = e).
Proof. intros Ha Ht Hc. split; [by eapply acquired_usable | by eapply refused_env]. Qed.

(** ** Settling once *)

Definition closed l : Prop := ll_settled l = true \/ ll_rolled_back l = true.

Lemma closed_reconcile now l n w (e : renv R) :
  closed l -> manager_reconcile conf utc_offset now (Some l) n w e = (Ret ((None, Some l), w), e).
Proof. intros [Hl|Hl]; unfold manager_reconcile; rewrite Hl; by rewrite ?orb_true_r. Qed.

Lemma closed_rollback now l w (e : renv R) :
  closed l -> manager_rollback conf utc_offset now (Some l) w e = (Ret ((None, Some l), w), e).
Proof. intros [Hl|Hl]; unfold manager_rollback; rewrite Hl; by rewrite ?orb_true_r. Qed.

Lemma reconcile_closes now l n w (e : renv R) :
  exists r l' w' e', manager_reconcile conf utc_offset now (Some l) n w e = (Ret ((r, Some l'), w'), e') /\ closed l'.
Proof.
  unfold manager_reconcile. destruct (ll_settled l || ll_rolled_back l) eqn:E.
  { apply orb_prop in E. by eauto 10. }
  destruct (ll_test_probe l); [do 5 eexists; [done | by left]|].
  destruct (negb _ || _); [do 5 eexists; [done | by left]|].
  destruct ((ra_tokens _ =? 0) && _).
  { destruct (finalize_total conf (lease_rid l) e) as [e1 He]. do 5 eexists.
    - by erewrite ST_bind_ret by by apply lift_ret.
    - by left. }
  destruct (routing_call_total None (reconcile_account_reservation conf utc_offset (settle_args l n) now) w e)
    as (result & w1 & e1 & E1).
  erewrite ST_bind_ret by exact E1. destruct result as [r|].
  - destruct (finalize_total conf (lease_rid l) e1) as [e2 He]. do 5 eexists.
    + erewrite ST_bind_ret by by apply lift_ret. by erewrite ST_bind_ret.
    + by left.
  - do 5 eexists; [by erewrite ST_bind_ret by reflexivity; erewrite ST_bind_ret by reflexivity | by left].
Qed.

Lemma rollback_closes now l w (e : renv R) :
  exists r l' w' e', manager_rollback conf utc_offset now (Some l) w e = (Ret ((r, Some l'), w'), e') /\ closed l'.
Proof.
  unfold manager_rollback. destruct (ll_rolled_back l || ll_settled l) eqn:E.
  { apply orb_prop in E. do 5 eexists; [done|]. unfold closed. tauto. }
  destruct (ll_test_probe l); [do 5 eexists; [done | by right]|].
  destruct (negb _ || _); [do 5 eexists; [done | by right]|].
  edestruct (routing_call_total None (rollback_account_reservation conf utc_offset (subject_account_key (ll_subject l))
    (Some (lease_model l)) (lease_rid l) (lease_wids l) now) w e) as (result & w1 & e1 & E1).
  cbv zeta. erewrite ST_bind_ret by exact E1. destruct result as [r|].
  - do 5 eexists; [by erewrite ST_bind_ret by reflexivity | by right].
  - do 5 eexists; [by erewrite ST_bind_ret by reflexivity | by right].
Qed.

(** Whatever Redis answers, settling a lease returns and closes it, and so
    does rolling it back; from then on neither touches Redis, the process
    state or the lease again. *)
Lemma settle_once now l n w (e : renv R) :
  let once (out : res ((option limit_lease) * world) * renv R) :=
    exists l' w' e', out = (Ret (Some l', w'), e') /\ forall now2 n2 w2 (e2 : renv R),
      manager_reconcile conf utc_offset now2 (Some l') n2 w2 e2 = (Ret ((None, Some l'), w2), e2) /\
      manager_rollback conf utc_offset now2 (Some l') w2 e2 = (Ret ((None, Some l'), w2), e2) in
  once (mbind (M := ST world R) (fun x => mret x.2) (manager_reconcile conf utc_offset now (Some l) n) w e) /\
  once (mbind (M := ST world R) (fun x => mret x.2) (manager_rollback conf utc_offset now (Some l)) w e).
Proof.
  cbv zeta. split.
  - destruct (reconcile_closes now l n w e) as (r & l' & w' & e' & E & Hl).
    exists l', w', e'. split; [by erewrite ST_bind_ret by exact E|].
    intros. by split; [apply closed_reconcile | apply closed_rollback].
  - destruct (rollback_closes now l w e) as (r & l' & w' & e' & E & Hl).
    exists l', w', e'. split; [by erewrite ST_bind_ret by exact E|].
    intros. by split; [apply closed_reconcile | apply closed_rollback].
Qed.

(** ** The keys and arguments the manager sends *)

Abbreviation margs now c m id lim mt ta ov t := (manager_args utc_offset now c m id lim mt ta ov t).

Lemma manager_make_keys now c m id lim mt ta ov t :
  exists K, make_keys conf (margs now c m id lim mt ta ov t) (_reservation_window_ids utc_offset now) = Some K.
Proof. by eexists. Qed.

Lemma cooldown_key_neq p u m : cooldown_key p u <> model_cooldown_key p u m.
Proof.
  unfold cooldown_key, model_cooldown_key. intros Heq. rewrite !append_inj_l in Heq.
  apply (f_equal String.length) in Heq. rewrite length_append in Heq. simpl in Heq. lia.
Qed.

Lemma same_ledger_neq scope subject (m1 w1 m2 w2 : string) :
  m1 +++ ":" +++ w1 <> m2 +++ ":" +++ w2 -> _ledger_key conf scope subject m1 w1 <> _ledger_key conf scope subject m2 w2.
Proof. intros Hne Heq. unfold _ledger_key in Heq. apply key_inj in Heq. rewrite !append_inj_l in Heq. done. Qed.

(** Two of the keys: stripped of the Redis prefix they differ in a literal. *)
Ltac key_neq :=
  first [ apply same_ledger_neq; discriminate
        | let Heq := fresh in intros Heq; unfold _ledger_key in Heq; apply key_inj in Heq;
          first [ by apply cooldown_key_neq in Heq | by symmetry in Heq; apply cooldown_key_neq in Heq | discriminate Heq ] ].

(** The 13 keys are distinct, whatever the names of provider, account and model. *)
Lemma manager_keys_wf now c m id lim mt ta ov t wids K :
  make_keys conf (margs now c m id lim mt ta ov t) wids = Some K -> keys_wf K.
Proof.
  unfold make_keys, _account_ledger_keys.
  destruct (assoc "rpm" wids) as [rpm|], (assoc "rph" wids) as [rph|], (assoc "rpd" wids) as [rpd|],
    (assoc "tpm" wids) as [tpm|], (assoc "tph" wids) as [tph|], (assoc "tpd" wids) as [tpd|]; try done.
  destruct (assoc "model_tpm" wids) as [mw|]; intros Heq; [|done]. injection Heq as <-.
  unfold keys_wf, ledger_keys, other_keys, _model_ledger_key, concurrency_key, reserve_base,
    _RESERVATION_PREFIX, _RESERVATION_INDEX, _reservation_meta_key. cbn -[String.append].
  destruct (str_truthy m).
  all: repeat (apply NoDup_cons_2; [repeat (apply not_elem_of_cons; split); [..|apply not_elem_of_nil]|]); try apply NoDup_nil_2.
  all: key_neq.
Qed.

Lemma manager_argv_wf now c m hex lim mt ta ov t :
  str_mem ":" hex = false -> hex <> "state" ->
  argv_wf (make_argv (margs now c m (lease_name boot_id hex) lim mt ta ov t) (_reservation_window_ids utc_offset now) now).
Proof.
  intros Hh Hs. pose proof (seconds_until_day_end_bounds utc_offset now).
  split; simpl; unfold _RESERVATION_GRACE, REQUEST_WINDOW_SECONDS, REQUEST_HOUR_SECONDS, TOKEN_WINDOW_SECONDS,
    TOKEN_HOUR_SECONDS, ACCOUNT_CONCURRENCY_LEASE_SECONDS; try lia.
  by apply rid_ok_lease.
Qed.

(** ** A reservation of unknown outcome *)

Section outcome.
Variables (K : reserve_keys) (A : reserve_argv) (s : R) (L : books) (z : gmap string Z).
Hypotheses (HK : keys_wf K) (HA : argv_wf A) (HL : Linv (ledger_keys K) s L)
  (Hfresh : forall k, k ∈ ledger_keys K -> L k !! a_rid A = None)
  (Hz : as_zset (view s (k_concurrency K)) = Some z) (Hzf : z !! a_rid A = None) (Hlim : 0 < a_concurrent_limit A).

(** Leases a reservation leaves in place. *)
Definition kept : gmap string Z -> Prop := fun zx => zx = z \/ zx = zkeep 0 (a_now A) z.

(** What the server holds after the script, executed or refused: the former
    ledgers and leases, or these and the bookings and lease of this id. *)
Lemma reserve_outcome : exists Lx zx,
  Linv (ledger_keys K) (reserve_script K A s).2 Lx /\ (Lx = L \/ Lx = book_all (a_rid A) (bookings K A) L) /\
  as_zset (view (reserve_script K A s).2 (k_concurrency K)) = Some zx /\ kept (delete (a_rid A) zx).
Proof.
  destruct (reserve_script K A s) as [r s'] eqn:Hs. simpl.
  assert (zkeep 0 (a_now A) z !! a_rid A = None) as Hzk.
  { unfold zkeep. by apply map_lookup_filter_None_2; left. }
  destruct (decide (accepted r)) as [Hr|Hr].
  - destruct (reserve_accepted_books K A HK HA _ _ _ _ Hs Hr HL) as [HB _].
    destruct (reserve_accepted_lease K A HK HA _ _ _ _ _ Hs Hr HL Hz Hlim) as [Hz' _].
    do 2 eexists. split_and!; [exact HB | by right | exact Hz'|].
    right. by rewrite delete_insert_id.
  - destruct (reserve_refused K A _ _ _ Hs Hr) as [->| ->].
    + exists L, z. split_and!; [done | by left | done | left; by apply delete_id].
    + exists L, (zkeep 0 (a_now A) z). split_and!; [|by left| |right; by apply delete_id].
      * eapply Linv_frame; [|exact HL]. intros k Hk. eapply check_concurrency_frame; [apply surjective_pairing|].
        intros ->. apply (ledger_not_other K HK) in Hk. unfold other_keys in Hk. set_solver.
      * unfold check_concurrency. rewrite (proj2 (Z.ltb_lt _ _) Hlim). case_match; by apply as_zset_zremrange.
Qed.
End outcome.

Lemma release_healthy acct rid s :
  connected conf = true -> str_truthy rid = true ->
  release_account_reservation conf acct rid (REnv s []) =
    (Ret (Some (negb ((rd_zrem (concurrency_key conf acct) rid s).1 =? 0))),
     REnv (rd_zrem (concurrency_key conf acct) rid s).2 []).
Proof.
  intros Hcon Hr. unfold release_account_reservation. rewrite with_redis_on, Hr by done. cbn [negb].
  apply attempt_ret. erewrite bind_ret by apply healthy_call. done.
Qed.

(** The release attempts: one is enough when Redis answers. *)
Lemma release_until_healthy n acct rid s z w :
  connected conf = true -> str_truthy rid = true -> as_zset (view s (concurrency_key conf acct)) = Some z -> (0 < n)%nat ->
  exists s', release_until conf n acct rid w (REnv s []) = (Ret (tt, w), REnv s' []) /\
    as_zset (view s' (concurrency_key conf acct)) = Some (delete rid z) /\
    forall k, k <> concurrency_key conf acct -> view s' k = view s k.
Proof.
  intros Hcon Hr. revert s z. induction n as [|n IH]; intros s z Hz Hn; [lia|].
  destruct (zrem_law s _ rid _ Hz) as [Hrep Hv]. set (s1 := (rd_zrem (concurrency_key conf acct) rid s).2) in *.
  assert (as_zset (view s1 (concurrency_key conf acct)) = Some (delete rid z)) as Hz1 by (by rewrite Hv, as_zset_put).
  assert (forall k, k <> concurrency_key conf acct -> view s1 k = view s k) as Hf by (intros; by apply zrem_ne).
  cbn [release_until]. erewrite ST_bind_ret by by apply routing_call_ret, release_healthy. rewrite Hrep.
  case_decide as Hd; simpl negb; cbv iota; [by exists s1|]. fold s1.
  destruct n as [|n']; [by exists s1|].
  destruct (IH s1 _ Hz1 ltac:(lia)) as (s2 & E & Hz2 & Hf2). exists s2. split_and!; [exact E| |].
  - by rewrite Hz2, delete_delete_eq.
  - intros k Hk. by rewrite Hf2, Hf.
Qed.

(** The concurrency, index and meta keys are apart from the ledgers and each other. *)
Lemma other_key_facts K : keys_wf K ->
  k_index K ∉ ledger_keys K /\ k_meta K ∉ ledger_keys K /\ k_concurrency K ∉ ledger_keys K /\
  k_concurrency K <> k_index K /\ k_concurrency K <> k_meta K.
Proof.
  intros Hwf. destruct (recovery_keys_not_ledgers K Hwf) as [Hdi Hdm].
  pose proof Hwf as Hnd. unfold keys_wf in Hnd. apply NoDup_app in Hnd as (_ & Hd & Ho).
  unfold other_keys in Ho. rewrite !NoDup_cons, !not_elem_of_cons in Ho. split_and!; [done|done| |tauto|].
  - intros Hin. apply (Hd _ Hin). unfold other_keys. by left.
  - intros Heq. tauto.
Qed.

Lemma make_keys_concurrency a wids K :
  make_keys conf a wids = Some K -> k_concurrency K = concurrency_key conf (r_account_key a).
Proof.
  unfold make_keys, _account_ledger_keys.
  destruct (assoc "rpm" wids), (assoc "rph" wids), (assoc "rpd" wids), (assoc "tpm" wids),
    (assoc "tph" wids), (assoc "tpd" wids), (assoc "model_tpm" wids); intros; by simplify_eq/=.
Qed.

(** A rollback call on a server that answers. *)
Lemma rollback_call_healthy a wids K now now' s Lx rid :
  connected conf = true -> r_account_key a <> "" -> r_lease_id a = rid -> rid <> "" -> rid_ok rid -> wids <> [] ->
  make_keys conf a wids = Some K -> keys_wf K -> Linv (ledger_keys K) s Lx ->
  exists n s' ks,
    rollback_account_reservation conf utc_offset (r_account_key a) (Some (opt_or_empty (r_model_id a))) rid (Some wids) now' (REnv s [])
      = (Ret (Some n), REnv s' []) /\
    Linv (ledger_keys K) s' (unbook_in ks rid Lx) /\
    (forall k, k ∈ (bookings K (make_argv a wids now)).*1 -> k ∈ ks) /\ view s' (k_meta K) = None /\
    view s' (k_concurrency K) = view s (k_concurrency K).
Proof.
  intros Hcon Hacct Hrid Hne Hok Hw HK Hwf HL.
  destruct (rollback_keys_cover conf utc_offset a wids K HK) as (ks & Hks & Hsub & Hcov).
  assert (rollback_keys conf (r_account_key a) (Some (opt_or_empty (r_model_id a))) wids = Some ks) as Hks'.
  { revert Hks. unfold rollback_keys. simpl. destruct (str_truthy (opt_or_empty (r_model_id a))) eqn:E; simpl; by rewrite ?E. }
  destruct (make_keys_recovery _ _ _ _ HK) as [Ei Em]. rewrite Hrid in Em.
  destruct (rollback_script ks (k_index K) (k_meta K) rid s) as [n s1] eqn:Hrb.
  destruct (other_key_facts K Hwf) as (Hdi & Hdm & Hdc & Hci & Hcm).
  pose proof Hrb as Hspec.
  eapply (rollback_script_spec _ _ _ _ (ledger_keys K)) in Hspec as (HL1 & _ & Hm1 & Hf1); [|done|exact Hsub|done|done|exact HL].
  exists n, s1, ks. split_and!; [|done|intros k Hk; by eapply Hcov|done|apply Hf1; [by intros Hin%Hsub|done|done]].
  rewrite Ei, Em in Hrb. erewrite rollback_healthy; [by rewrite Hrb|done| | |done|done].
  - by destruct (r_account_key a).
  - by destruct rid.
Qed.

(** The cleanup job on a server that answers removes the bookings and the lease. *)
Lemma cleanup_healthy a wids K now now' s Lx zx w rid :
  connected conf = true -> r_account_key a <> "" -> r_lease_id a = rid -> rid <> "" -> rid_ok rid -> wids <> [] ->
  make_keys conf a wids = Some K -> keys_wf K ->
  Linv (ledger_keys K) s Lx -> as_zset (view s (k_concurrency K)) = Some zx ->
  exists s' ks, _cleanup_failed_reservation conf utc_offset now' (r_account_key a) rid (opt_or_empty (r_model_id a)) wids w (REnv s [])
      = (Ret (tt, w), REnv s' []) /\
    Linv (ledger_keys K) s' (unbook_in ks rid Lx) /\
    (forall k, k ∈ (bookings K (make_argv a wids now)).*1 -> k ∈ ks) /\
    as_zset (view s' (k_concurrency K)) = Some (delete rid zx) /\ view s' (k_meta K) = None.
Proof.
  intros Hcon Hacct Hrid Hne Hok Hw HK Hwf HL Hz.
  destruct (rollback_call_healthy a wids K now now' s Lx rid) as (n & s1 & ks & E1 & HL1 & Hcov & Hm1 & Hc1); [done..|].
  destruct (other_key_facts K Hwf) as (Hdi & Hdm & Hdc & Hci & Hcm).
  pose proof (make_keys_concurrency _ _ _ HK) as Ec.
  destruct (release_until_healthy CLEANUP_ATTEMPTS (r_account_key a) rid s1 zx w) as (s2 & E & Hz2 & Hf2);
    [done|by destruct rid|by rewrite <- Ec, Hc1|unfold CLEANUP_ATTEMPTS; lia|].
  exists s2, ks. rewrite Ec. split_and!.
  - unfold _cleanup_failed_reservation. by erewrite ST_bind_ret by by eapply routing_call_ret.
  - eapply Linv_frame; [|exact HL1]. intros k Hk. apply Hf2. rewrite <- Ec. by intros ->.
  - exact Hcov.
  - exact Hz2.
  - rewrite Hf2; [done | by rewrite <- Ec].
Qed.

(** The reserve call of a request, and its reservation id. *)
Definition reserve_call now rq (t : bool) c : reserve_args :=
  margs now c (rq_model_id rq) (lease_name boot_id (rq_hex rq)) (call_limits t c) (if t then 0 else rq_model_tpm rq)
    (if t then 0 else Z.max 0 (rq_token_estimate rq)) (rq_allow_overflow rq) t.

Lemma call_limits_concurrent t c : al_concurrent (call_limits t c) = al_concurrent (ac_limits c).
Proof. by destruct t. Qed.

(** The call is sent and its reply is lost, before or after the server ran it. *)
Lemma reserve_call_lost now rq t c K s f :
  connected conf = true -> f <> NetOk -> make_keys conf (reserve_call now rq t c) (_reservation_window_ids utc_offset now) = Some K ->
  exists s1, reserve_account_limits conf utc_offset (reserve_call now rq t c) now (REnv s [f]) = (Ret None, REnv s1 []) /\
    (s1 = s \/ s1 = (reserve_script K (make_argv (reserve_call now rq t c) (_reservation_window_ids utc_offset now) now) s).2).
Proof.
  intros Hcon Hf HK. unfold reserve_account_limits. rewrite with_redis_on by done.
  change (window_ids_or utc_offset (r_window_ids (reserve_call now rq t c)) now) with (_reservation_window_ids utc_offset now).
  rewrite HK. destruct f; [done | |].
  - exists s. split; [|by left]. by erewrite bind_ret by reflexivity.
  - exists (reserve_script K (make_argv (reserve_call now rq t c) (_reservation_window_ids utc_offset now) now) s).2.
    split; [|by right]. by erewrite bind_ret by reflexivity.
Qed.

(** When the reply of the reserve call is lost, whether or not the server
    ran the script, an account with a concurrency limit is refused as
    uncertain, no other limited account is tried in the same request, and a
    cleanup job is started; on a server that answers, that job leaves the
    ledgers as they were before the call, no meta record, and no lease but the
    unexpired ones of before. *)
Lemma uncertain_cleaned now now' rq t c w s f L z K :
  let rid := lease_name boot_id (rq_hex rq) in
  let wids := _reservation_window_ids utc_offset now in
  let acct := subject_account_key (account_subject c (rq_model_id rq)) in
  connected conf = true -> f <> NetOk -> str_mem ":" (rq_hex rq) = false -> rq_hex rq <> "state" ->
  0 < al_concurrent (ac_limits c) -> is_Some (wd_routing w) -> uncertain w = false ->
  make_keys conf (reserve_call now rq t c) wids = Some K ->
  Linv (ledger_keys K) s L -> (forall k, k ∈ ledger_keys K -> L k !! rid = None) ->
  as_zset (view s (k_concurrency K)) = Some z -> z !! rid = None ->
  exists w' s1 s2 z2,
    try_reserve conf utc_offset boot_id now rq t c w (REnv s [f]) = (Ret ((redis_uncertain, c), w'), REnv s1 []) /\
    CleanupFailed acct rid (rq_model_id rq) wids ∈ wd_jobs w' /\ uncertain w' = true /\
    _cleanup_failed_reservation conf utc_offset now' acct rid (rq_model_id rq) wids w' (REnv s1 []) = (Ret (tt, w'), REnv s2 []) /\
    Linv (ledger_keys K) s2 L /\ view s2 (k_meta K) = None /\
    as_zset (view s2 (k_concurrency K)) = Some z2 /\ (z2 = z \/ z2 = zkeep 0 now z).
Proof.
  intros rid wids acct Hcon Hf Hhex Hhex2 Hlim [rt Hrt] Hun HK HL Hfresh Hz Hzf.
  pose proof (manager_keys_wf _ _ _ _ _ _ _ _ _ _ _ HK) as Hwf.
  set (A := make_argv (reserve_call now rq t c) wids now).
  assert (argv_wf A) as HA by by apply manager_argv_wf.
  assert (0 < a_concurrent_limit A) as HlimA.
  { unfold A, reserve_call. cbn [make_argv a_concurrent_limit manager_args r_concurrent_limit]. by rewrite call_limits_concurrent. }
  destruct (reserve_call_lost now rq t c K s f Hcon Hf HK) as (s1 & Ecall & Hs1).
  assert (exists Lx zx, Linv (ledger_keys K) s1 Lx /\ (Lx = L \/ Lx = book_all rid (bookings K A) L) /\
            as_zset (view s1 (k_concurrency K)) = Some zx /\ (delete rid zx = z \/ delete rid zx = zkeep 0 now z))
    as (Lx & zx & HLx & HLx' & Hzx & Hk).
  { destruct Hs1 as [->| ->].
    - exists L, z. split_and!; [done | by left | done | left; by apply delete_id].
    - by apply (reserve_outcome K A s L z Hwf HA HL Hfresh Hz Hzf HlimA). }
  set (w' := _record_reservation_denial "redis_uncertain"
         (start (CleanupFailed acct rid (rq_model_id rq) wids) (mark_uncertain w))).
  destruct (cleanup_healthy (reserve_call now rq t c) wids K now now' s1 Lx zx w' rid) as (s2 & ks & Ecl & HL2 & Hcov & Hz2 & Hm2);
    [done..|apply HA|done|done|done|done|done|].
  exists w', s1, s2, (delete rid zx). split_and!; [|..|exact Ecl| |exact Hm2|exact Hz2|exact Hk].
  - unfold try_reserve, get_world. erewrite ST_bind_ret by done. cbv zeta. rewrite call_limits_concurrent, Hun, andb_false_r.
    unfold has_remote_limits. rewrite call_limits_concurrent, (proj2 (Z.ltb_lt _ _) Hlim). cbn [negb orb].
    erewrite ST_bind_ret by (apply routing_call_ret; exact Ecall). erewrite ST_bind_ret by done.
    unfold reserved. rewrite call_limits_concurrent, (proj2 (Z.ltb_lt _ _) Hlim). by erewrite ST_bind_ret by done.
  - unfold w', _record_reservation_denial. case_match; simpl; apply elem_of_app; right; by left.
  - unfold w', uncertain, _record_reservation_denial, mark_uncertain. by rewrite Hrt.
  - intros k Hk'. specialize (HL2 k Hk'). 
    assert (unbook_in ks rid Lx k = L k) as Hun'; [|by rewrite Hun' in HL2].
    transitivity (unbook_in ks rid L k).
    + destruct HLx' as [->| ->]; [done|]. apply unbook_book_all. intros x. apply Hcov.
    + unfold unbook_in. case_decide; [|done]. apply delete_id. by apply Hfresh.
Qed.

(** On an account without a concurrency limit a lost reply leaks the
    booking: the request goes on with a local lease, the server keeps the
    booking of the executed script, and neither settling nor rolling back
    that lease ever reaches the server. *)
Lemma local_fallback_leaks now rq t c w s r s1 L K :
  let rid := lease_name boot_id (rq_hex rq) in
  let A := make_argv (reserve_call now rq t c) (_reservation_window_ids utc_offset now) now in
  connected conf = true -> str_mem ":" (rq_hex rq) = false -> rq_hex rq <> "state" ->
  al_concurrent (ac_limits c) = 0 ->
  has_remote_limits (call_limits t c) (if t then 0 else rq_model_tpm rq) (if t then 0 else Z.max 0 (rq_token_estimate rq)) = true ->
  make_keys conf (reserve_call now rq t c) (_reservation_window_ids utc_offset now) = Some K ->
  Linv (ledger_keys K) s L -> reserve_script K A s = (r, s1) -> accepted r ->
  exists l w', try_reserve conf utc_offset boot_id now rq t c w (REnv s [NetLost]) =
      (Ret ((LimitReservation (Some l) allow, c), w'), REnv s1 []) /\ ll_lease_id l = rid /\
    Linv (ledger_keys K) s1 (book_all rid (bookings K A) L) /\
    forall now2 n w2 (e2 : renv R),
      manager_reconcile conf utc_offset now2 (Some l) n w2 e2 = (Ret ((None, Some (mark_settled l)), w2), e2) /\
      manager_rollback conf utc_offset now2 (Some l) w2 e2 = (Ret ((None, Some (mark_rolled_back l)), w2), e2).
Proof.
  intros rid A Hcon Hhex Hhex2 Hlim Hrem HK HL Hs Hr.
  pose proof (manager_keys_wf _ _ _ _ _ _ _ _ _ _ _ HK) as Hwf.
  assert (argv_wf A) as HA by by apply manager_argv_wf.
  destruct (reserve_accepted_books K A Hwf HA _ _ _ _ Hs Hr HL) as [HB _].
  assert (reserve_account_limits conf utc_offset (reserve_call now rq t c) now (REnv s [NetLost]) = (Ret None, REnv s1 [])) as Ecall.
  { unfold reserve_account_limits. rewrite with_redis_on by done.
    change (window_ids_or utc_offset (r_window_ids (reserve_call now rq t c)) now) with (_reservation_window_ids utc_offset now).
    rewrite HK. change s1 with (r, s1).2. rewrite <- Hs. by erewrite bind_ret by reflexivity. }
  eexists (LimitLease _ _ _ _ false true no_amounts [] t false false), w. split_and!; [|..|exact HB|].
  - unfold try_reserve, get_world. erewrite ST_bind_ret by done. cbv zeta. rewrite call_limits_concurrent, Hlim, Hrem. cbn [Z.ltb Z.compare andb negb].
    erewrite ST_bind_ret by (apply routing_call_ret; exact Ecall). erewrite ST_bind_ret by done.
    unfold reserved. rewrite call_limits_concurrent, Hlim. cbn [Z.ltb Z.compare]. by erewrite ST_bind_ret by done.
  - done.
  - intros. split.
    + unfold manager_reconcile. cbn [ll_settled ll_rolled_back ll_test_probe ll_local_fallback orb]. by destruct t; rewrite ?orb_true_r.
    + unfold manager_rollback. cbn [ll_settled ll_rolled_back ll_test_probe ll_local_fallback orb]. by destruct t; rewrite ?orb_true_r.
Qed.

(** ** The slots of an account *)

(** The slots, and what the keys of a reservation are made of. *)
Record same_slots c c' : Prop := {
  sl_in_flight : ac_in_flight c' = ac_in_flight c;
  sl_leases : ac_leases c' = ac_leases c;
  sl_limits : ac_limits c' = ac_limits c;
  sl_provider : ac_provider_name c' = ac_provider_name c;
  sl_username : ac_username c' = ac_username c;
}.
#[export] Instance same_slots_preorder : PreOrder same_slots.
Proof. split; [by intros c|]. intros c1 c2 c3 [] []. split; congruence. Qed.

Lemma freeze_slots now kind m n reason refresh cat c : same_slots c (freeze now kind m n reason refresh cat c).2.
Proof. unfold freeze. by repeat case_match. Qed.

Lemma sync_slots now c : same_slots c (sync_provider_quota now c).
Proof.
  assert (forall ds c, same_slots c (foldl (fun c d => if String.eqb (qd_name d) "requests_daily"
            then update_provider_quota now (qd_remaining d) (qd_limit d) c else c) c ds)) as Hf.
  { induction ds as [|d ds IH]; intros c0; [done|]. simpl. etransitivity; [|apply IH]. by case_match. }
  unfold sync_provider_quota. destruct (ac_quotas c); [|done]. etransitivity; [|apply Hf]. by repeat case_match.
Qed.

Lemma available_slots now ch check m t c d c' :
  account_available_locked now ch check m t c = (d, c') -> same_slots c c'.
Proof.
  unfold account_available_locked. destruct (if t then None else _); [by intros [= _ <-]|].
  destruct (ac_init c) as [| |[]]; try by intros [= _ <-].
  assert (same_slots c (if t then (None, c) else soft_state now m c).2) as Hs.
  { destruct t; [done|]. unfold soft_state. case_match; [done | apply sync_slots]. }
  destruct (if t then _ else _) as [[d0|] c1]; intros [= _ <-]; [done|]. by etransitivity; [exact Hs|].
Qed.

Lemma reserved_slots now m lim mt ta wids rr lease c w r c' w' :
  reserved now m lim mt ta wids rr lease c w = (r, c', w') ->
  same_slots c c' /\ forall l, lr_lease r = Some l -> ll_lease_id l = ll_lease_id lease.
Proof.
  unfold reserved. destruct rr as [rr|].
  - destruct (negb (rr_allowed rr)).
    + intros [= <- <- <-]. split; [|done]. repeat case_match; try apply freeze_slots; done.
    + unfold accept. destruct (str_truthy (rr_reason rr) && _);
        [unfold _freeze_account_local_and_broadcast; destruct (rr_ttl rr <=? 0)|]; intros Heq; injection Heq as <- <- _;
        (split; [first [apply freeze_slots | done] | intros l Hl; by injection Hl as <-]).
  - destruct (0 <? al_concurrent lim); intros Heq; injection Heq as <- <- _; (split; [done | intros l Hl; try done; by injection Hl as <-]).
Qed.

Lemma try_reserve_slots now rq t c w (e : renv R) r c' w' e' :
  try_reserve conf utc_offset boot_id now rq t c w e = (Ret ((r, c'), w'), e') ->
  same_slots c c' /\ forall l, lr_lease r = Some l -> ll_lease_id l = lease_name boot_id (rq_hex rq).
Proof.
  unfold try_reserve, get_world. erewrite ST_bind_ret by done. cbv zeta.
  destruct ((0 <? _) && uncertain w).
  { erewrite ST_bind_ret by done. by intros [= <- <- _ _]. }
  destruct (negb _); [intros [= <- <- _ _]; split; [done | by intros l [= <-]]|].
  routing_step w e rr w1 e1. erewrite ST_bind_ret by done.
  destruct (reserved _ _ _ _ _ _ _ _ _ _) as [[r1 c1] w2] eqn:Er. erewrite ST_bind_ret by done.
  intros [= <- <- _ _]. by apply reserved_slots in Er.
Qed.

Lemma acquire_slots now rq c w (e : renv R) r c' w' e' :
  acquire_account conf utc_offset boot_id now rq c w e = (Ret ((r, c'), w'), e') ->
  same_slots c c' /\ forall l, lr_lease r = Some l -> ll_lease_id l = lease_name boot_id (rq_hex rq).
Proof.
  unfold acquire_account. destruct (rq_is_test rq || ac_is_test c); [apply try_reserve_slots|].
  destruct (account_available_locked _ _ _ _ _ c) as [[d|] c1] eqn:Ea; [|done]. apply available_slots in Ea.
  destruct (ld_allowed d); [|by intros [= <- <- _ _]].
  intros [Hs Hl]%try_reserve_slots. split; [by etransitivity | done].
Qed.

(** A reservation with a lease is allowed. *)
Lemma acquire_allowed now rq c w (e : renv R) r c' w' e' :
  acquire_account conf utc_offset boot_id now rq c w e = (Ret ((r, c'), w'), e') -> lr_allowed r = bool_decide (is_Some (lr_lease r)).
Proof.
  assert (forall t c0 r c' w' e', try_reserve conf utc_offset boot_id now rq t c0 w e = (Ret ((r, c'), w'), e') ->
    lr_allowed r = bool_decide (is_Some (lr_lease r))) as Htry.
  { clear. intros t c0 r c' w' e'. unfold try_reserve, get_world. erewrite ST_bind_ret by done. cbv zeta.
    destruct ((0 <? _) && uncertain w); [erewrite ST_bind_ret by done; by intros [= <- _ _ _]|].
    destruct (negb _); [by intros [= <- _ _ _]|].
    routing_step w e rr w1 e1. erewrite ST_bind_ret by done.
    destruct (reserved _ _ _ _ _ _ _ _ _ _) as [[r1 c1] w2] eqn:Er. erewrite ST_bind_ret by done. intros [= <- _ _ _].
    revert Er. unfold reserved. destruct rr as [rr|]; [destruct (negb _); [by intros [= <- _ _]|]|].
    - destruct (accept _ _ _ _ _ _ _ _ _ _) as [[? ?] ?]. by intros [= <- _ _].
    - destruct (0 <? _); by intros [= <- _ _]. }
  unfold acquire_account. destruct (rq_is_test rq || ac_is_test c); [apply Htry|].
  destruct (account_available_locked _ _ _ _ _ c) as [[d|] c1]; [|done].
  destruct (ld_allowed d) eqn:Ed; [apply Htry | by intros [= <- _ _ _]].
Qed.

Lemma dict_del_set_fresh {A} k (x : A) d : dict_get k d = None -> dict_del k (dict_set k x d) = d.
Proof.
  induction d as [|[k' y] d IH]; simpl; intros Hk.
  - unfold dict_del. by rewrite filter_cons_False by (simpl; tauto).
  - case_decide; [done|]. unfold dict_del in *. rewrite filter_cons_True by (simpl; congruence). f_equal. auto.
Qed.

(** Detaching the lease just pushed restores the slots. *)
Lemma detach_push now l c :
  str_truthy (ll_lease_id l) = true -> dict_get (ll_lease_id l) (ac_leases c) = None -> 0 <= ac_in_flight c ->
  exists c', detach_account_lease_locked (Some (ll_lease_id l)) (push_lease now l c) = (Some l, c') /\ same_slots c c'.
Proof.
  intros Ht Hf Hn. unfold detach_account_lease_locked. rewrite Ht. cbn [negb].
  assert (ac_leases (push_lease now l c) = dict_set (ll_lease_id l) l (ac_leases c)) as -> by (unfold push_lease; by case_match).
  assert (ac_in_flight (push_lease now l c) = ac_in_flight c + 1) as -> by (unfold push_lease; by case_match).
  rewrite dict_get_set, decide_True by done. eexists. split; [done|]. rewrite dict_del_set_fresh by done.
  destruct (Z.ltb_spec 0 (ac_in_flight c + 1)); [|lia].
  unfold push_lease. case_match; split; simpl; try done; lia.
Qed.

Lemma release_lease_total (lease : option limit_lease) w (e : renv R) : exists w' e', release_account_lease conf lease w e = (Ret (tt, w'), e').
Proof.
  unfold release_account_lease. destruct lease as [l|]; [|by eauto]. destruct (negb _); [by eauto|].
  erewrite ST_bind_ret by done. routing_step (set_active (dict_del (ll_lease_id l) (wd_active w)) w) e rr w1 e1. by eauto.
Qed.

(** Reserving and releasing are balanced: a reservation that returns a lease
    takes one slot of the account and is the task's current lease, and the
    task's release then gives the slot back, with the account's leases and the
    task's lease stack as they were; a reservation that returns none, or whose
    record_message raised, leaves the slots and the stack as they were. *)
Lemma slots_balanced now rq record_ok ctx c w (e : renv R) r c' ctx' w' e' :
  let id := lease_name boot_id (rq_hex rq) in
  reserve_with_decision conf utc_offset boot_id now rq record_ok ctx c w e = (Ret ((r, c', ctx'), w'), e') ->
  dict_get id (ac_leases c) = None -> id ∉ ctx -> 0 <= ac_in_flight c ->
  match r ≫= lr_lease with
  | Some l =>
      ac_in_flight c' = ac_in_flight c + 1 /\ ctx' = ctx ++ [id] /\ current_limit_lease ctx' c' = Some l /\
      forall w2 (e2 : renv R), exists c2 w3 e3, release conf ctx' c' w2 e2 = (Ret ((c2, ctx), w3), e3) /\ same_slots c c2
  | None => same_slots c c' /\ ctx' = ctx
  end.
Proof.
  intros id. unfold reserve_with_decision. intros Hrun Hfresh Hctx Hn.
  apply ST_bind_inv in Hrun as ([r1 c1] & w1 & e1 & Ea & Hrun).
  apply acquire_slots in Ea as [Hsl Hl]. pose proof (sl_in_flight _ _ Hsl) as Hs1. pose proof (sl_leases _ _ Hsl) as Hs2. destruct (lr_lease r1) as [l|] eqn:El.
  2:{ injection Hrun as <- <- <- <- <-. simpl. by rewrite El. }
  destruct (ll_local_fallback l && _ && _).
  { by injection Hrun as <- <- <- <- <-. }
  assert (ll_lease_id l = id) as Hid by by apply Hl. rewrite Hid in Hrun.
  destruct (detach_push now l c1) as (c2 & Ed & Hs); [by rewrite Hid | by rewrite Hs2, Hid | lia |].
  rewrite Hid in Ed. destruct (ac_is_test (push_lease now l c1) || record_ok).
  - injection Hrun as <- <- <- <- <-. simpl. rewrite El. split_and!; [|done| |].
    + simpl. lia.
    + unfold current_limit_lease. rewrite last_snoc.
      assert (ac_leases (push_lease now l c1) = dict_set id l (ac_leases c1)) as -> by (unfold push_lease; rewrite Hid; by case_match).
      by rewrite dict_get_set, decide_True.
    + intros w2 e2. unfold release. rewrite last_snoc, Ed, removelast_last. cbn [str_truthy id lease_name String.append].
      destruct (release_lease_total (Some l) w2 e2) as (w3 & e3 & E3). exists c2, w3, e3.
      split; [by erewrite ST_bind_ret by exact E3|]. by etransitivity.
  - rewrite Ed in Hrun. destruct (release_lease_total (Some l) w1 e1) as (w3 & e3 & E3).
    erewrite ST_bind_ret in Hrun by exact E3. injection Hrun as <- <- <- <- <-. simpl. split; [by etransitivity|].
    apply filter_all, Forall_forall. intros x Hx ->. done.
Qed.

(** A reservation that returned a lease, taken apart. *)
Lemma reserve_with_decision_inv now rq ctx c w (e : renv R) r c' ctx' w' e' l :
  reserve_with_decision conf utc_offset boot_id now rq true ctx c w e = (Ret ((Some r, c', ctx'), w'), e') ->
  lr_lease r = Some l ->
  exists ca, acquire_account conf utc_offset boot_id now rq c w e = (Ret ((r, ca), w'), e') /\
    c' = push_lease now l ca /\ ctx' = ctx ++ [ll_lease_id l].
Proof.
  unfold reserve_with_decision. intros Hrun Hl. apply ST_bind_inv in Hrun as ([r1 c1] & w1 & e1 & Ea & Hrun).
  destruct (lr_lease r1) as [l1|] eqn:E1; [|injection Hrun as <- <- <- <- <-; congruence].
  destruct (ll_local_fallback l1 && _ && _); [by injection Hrun as <- <- <- <- <-|].
  rewrite orb_true_r in Hrun. injection Hrun as <- <- <- <- <-. assert (l1 = l) as -> by congruence. by exists c1.
Qed.
End manager.

Module ManagerSample.
Import Sample.

Definition now : Z := sec 1700000000.
Definition limits (concurrent : Z) : account_limits := AccountLimits 3 0 0 100 0 0 concurrent.
Definition account (concurrent : Z) : account_client :=
  AccountClient "p" "u" (limits concurrent) false "" no_freeze [] (Some true) (InitReturns true) None None None 0
    (new_failure_window 60) [] [] 0 [] false.
Definition rq : request := Request "m" (true, "") false 40 true 1000 false "f00d".
Definition w0 : world := World [] [] (begin_routing_redis_scope true) [].
Definition e0 : renv mapredis := REnv ∅ [].

Definition mk : reserve_keys := default no_keys (make_keys conf (reserve_call off "boot" now rq false (account 2)) wids).
Definition mk0 : reserve_keys := default no_keys (make_keys conf (reserve_call off "boot" now rq false (account 0)) wids).
Definition A0 : reserve_argv := make_argv (reserve_call off "boot" now rq false (account 0)) wids now.

Definition outcome {A} (d : A) (m : M mapredis A) (e : renv mapredis) : A :=
  match (m e).1 with Ret a => a | Exc => d end.

Definition returns {A} (m : M mapredis A) (e : renv mapredis) : bool := match (m e).1 with Ret _ => true | Exc => false end.
Lemma outcome_eq {A} (d : A) (m : M mapredis A) e : returns m e = true -> m e = (Ret (outcome d m e), (m e).2).
Proof. unfold outcome, returns. by destruct (m e) as [[a|] e']. Qed.

Definition acquired := outcome (LimitReservation None allow, account 2, w0) (acquire_account conf off "boot" now rq (account 2) w0) e0.

Lemma acquire_needs_usable_witness : is_Some (lr_lease acquired.1.1) /\ usable now rq (account 2).
Proof.
  assert (is_Some (lr_lease acquired.1.1)) as Hl by (eexists; by vm_compute).
  split; [exact Hl|].
  apply (acquire_needs_usable conf off "boot" now rq (account 2) w0 e0 acquired.1.1 acquired.1.2 acquired.2
    (acquire_account conf off "boot" now rq (account 2) w0 e0).2); [|done|done|exact Hl].
  unfold acquired. rewrite (outcome_eq (LimitReservation None allow, account 2, w0)) at 1 by (by vm_compute).
  by rewrite <- !surjective_pairing.
Defined.

Lemma uncertain_cleaned_witness :
  exists w' s1 s2 z2,
    try_reserve conf off "boot" now rq false (account 2) w0 (REnv ∅ [NetLost]) = (Ret ((redis_uncertain, account 2), w'), REnv s1 []) /\
    CleanupFailed "account:p:u" "lease:boot:f00d" "m" wids ∈ wd_jobs w' /\ uncertain w' = true /\
    _cleanup_failed_reservation conf off (now + sec 1) "account:p:u" "lease:boot:f00d" "m" wids w' (REnv s1 []) = (Ret (tt, w'), REnv s2 []) /\
    Linv (ledger_keys mk) s2 L0 /\ view s2 (k_meta mk) = None /\
    as_zset (view s2 (k_concurrency mk)) = Some z2 /\ (z2 = ∅ \/ z2 = zkeep 0 now ∅).
Proof.
  apply (uncertain_cleaned conf off "boot" now (now + sec 1) rq false (account 2) w0 ∅ NetLost L0 ∅ mk);
    try done; try (by vm_compute). intros k _; apply holds_absent.
Defined.

Lemma local_fallback_leaks_witness :
  exists l w', try_reserve conf off "boot" now rq false (account 0) w0 (REnv ∅ [NetLost]) =
      (Ret ((LimitReservation (Some l) allow, account 0), w'), REnv (reserve_script mk0 A0 (∅ : mapredis)).2 []) /\
    ll_lease_id l = "lease:boot:f00d" /\
    Linv (ledger_keys mk0) (reserve_script mk0 A0 (∅ : mapredis)).2 (book_all "lease:boot:f00d" (bookings mk0 A0) L0) /\
    forall now2 n w2 (e2 : renv mapredis),
      manager_reconcile conf off now2 (Some l) n w2 e2 = (Ret ((None, Some (mark_settled l)), w2), e2) /\
      manager_rollback conf off now2 (Some l) w2 e2 = (Ret ((None, Some (mark_rolled_back l)), w2), e2).
Proof.
  apply (local_fallback_leaks conf off "boot" now rq false (account 0) w0 ∅ (reserve_script mk0 A0 (∅ : mapredis)).1);
    try done; try (by vm_compute). intros k _; apply holds_absent.
Defined.

End ManagerSample.
