(* ===== verification/ApiKey.v ===== *)
(** server/rate_limiter.py: [RateLimiter], the limiter of API keys, and
    server/request_reservations.py: [ApiKeyReservation], which holds one slot of
    it for a client request.

    A request is refused on the in-memory block of its key; counting happens in
    the fixed windows of Redis, and a window that reaches its limit sets the
    block for the rest of the window.  A rejection (HTTP 429) is a value; an
    exception of the model is a configured limit [int] cannot read. *)
From S2P Require Import Prelude Redis Client State Windows Json Text Counters.

(** field, prefix of the usage report, sliding length in seconds *)
Definition REQUEST_WINDOWS : list (string * string * Z) :=
  [("requests_per_minute", "rpm", 60); ("requests_per_5h", "rp5h", 18000);
   ("requests_per_day", "rpd", 86400); ("requests_per_week", "rpw", 604800)].
Definition TOKEN_WINDOWS : list (string * string * Z) :=
  [("tokens_per_minute", "tpm", 60); ("tokens_per_day", "tpd", 86400); ("tokens_per_week", "tpw", 604800)].

(** ** Limits of a key *)

(** [int(cfg.get(name, cfg.get(alias, 0)) or 0)]; no alias reads 0. *)
Definition limit_value (cfg : list (string * json)) (name : string) (alias : option string) : option Z :=
  let v := match dict_get name cfg, alias with
           | Some v, _ => Some v
           | None, Some a => dict_get a cfg
           | None, None => None
           end in
  match v with
  | Some v => if json_truthy v then json_int v else Some 0
  | None => Some 0
  end.

Definition LIMIT_FIELDS : list (string * option string) :=
  [("requests_per_minute", Some "rpm"); ("requests_per_5h", Some "requests_per_5_hours");
   ("requests_per_day", Some "rpd"); ("requests_per_week", Some "rpw");
   ("tokens_per_minute", Some "tpm"); ("tokens_per_day", Some "tpd"); ("tokens_per_week", Some "tpw");
   ("concurrent_requests", Some "concurrent"); ("max_ips", None); ("ip_window_seconds", None)].

Fixpoint read_limits (cfg : list (string * json)) (fields : list (string * option string)) : option (list (string * Z)) :=
  match fields with
  | [] => Some []
  | (name, alias) :: fields' => v ← limit_value cfg name alias; rest ← read_limits cfg fields'; Some ((name, v) :: rest)
  end.
Definition _limits (cfg : list (string * json)) : option (list (string * Z)) := read_limits cfg LIMIT_FIELDS.

Definition limit_of (field : string) (limits : list (string * Z)) : Z := default 0 (dict_get field limits).

(** ** Blocks *)

(** [_blocked_until] (subject, field, expiry) and the block events published. *)
Record limiter := Limiter {
  lm_blocked : list (string * list (string * Z));
  lm_published : list (string * string * Z);
}.
Definition set_blocks (b : list (string * list (string * Z))) (w : limiter) : limiter := Limiter b (lm_published w).

(** Expired fields are dropped on the way. *)
Definition _is_blocked (subject : string) (now : Z) (w : limiter) : bool * limiter :=
  match dict_get subject (lm_blocked w) with
  | None | Some [] => (false, w)
  | Some blocks =>
      let blocks := filter (fun ft => now < ft.2) blocks in
      (match blocks with [] => false | _ => true end, set_blocks (dict_set subject blocks (lm_blocked w)) w)
  end.

Definition put_block (subject field : string) (until : Z) (w : limiter) : limiter :=
  set_blocks (dict_set subject (dict_set field until (default [] (dict_get subject (lm_blocked w)))) (lm_blocked w)) w.

Definition _set_blocked (subject field : string) (ttl now : Z) (w : limiter) : limiter :=
  let w := put_block subject field (now + sec ttl) w in
  Limiter (lm_blocked w) (lm_published w ++ [(subject, field, now + sec ttl)]).

Definition apply_block_event (subject field : string) (until : Z) (w : limiter) : limiter := put_block subject field until w.

Definition clear_block_event (subject field : string) (w : limiter) : limiter :=
  match dict_get subject (lm_blocked w) with
  | None => w
  | Some blocks =>
      let blocks := dict_del field blocks in
      set_blocks (match blocks with
                  | [] => dict_del subject (lm_blocked w)
                  | _ => dict_set subject blocks (lm_blocked w)
                  end) w
  end.

Record key_lease := KeyLease { kl_subject : string; kl_lease_id : string; kl_concurrency_acquired : bool }.

(** What acquire returns or raises. *)
Inductive verdict :=
| Granted (lease : key_lease)
| Rejected (code : string) (retry_after : option Z).

Section limiter.
Context {R : Type} `{Redis R}.
(** [digest] is hashlib.sha256(...).hexdigest() *)
Variables (conf : redis_conf) (utc_offset : Z -> Z) (digest : string -> string).

Definition _subject (api_key : string) : string := str_take 32 (digest api_key).

(** Days and weeks end at local midnight (of Monday), other windows last their length. *)
Definition _window_ttl (window_seconds now : Z) : Z :=
  let local := now + utc_offset now in
  if 7 * 86400 <=? window_seconds
  then Z.max 1 (((7 - weekday (local / day_us)) * day_us - local mod day_us) / sec 1)
  else if 86400 <=? window_seconds then Z.max 1 ((day_us - local mod day_us) / sec 1)
  else window_seconds.

Definition too_many : verdict := Rejected "api_key_rate_limit_exceeded" (Some 1).
Definition too_many_ips : verdict := Rejected "api_key_ip_limit_exceeded" None.
Definition too_many_at_once : verdict := Rejected "api_key_concurrent_limit_exceeded" (Some 1).

(** Count [amount] in every limited window; one that reaches its limit blocks. *)
Fixpoint count_windows (windows : list (string * string * Z)) (limits : list (string * Z)) (subject : string)
    (amount now : Z) : ST limiter R unit :=
  match windows with
  | [] => mret tt
  | (field, _, window) :: windows' =>
      let limit := limit_of field limits in
      if limit <=? 0 then count_windows windows' limits subject amount now else
      result ← lift (incr_window conf ("api-key:" +++ subject +++ ":" +++ field) (_window_ttl window now) amount);
      match result with
      | Some (count, real_ttl) =>
          modify (fun w => if limit <=? count then _set_blocked subject field real_ttl now w else w)
      | None => mret tt
      end;;
      count_windows windows' limits subject amount now
  end.

(** [None]: not over the limit, or Redis did not answer. *)
Definition check_ips (limits : list (string * Z)) (subject : string) (client_ip : option string) : M R (option verdict) :=
  match client_ip with
  | Some ip =>
      if (0 <? limit_of "max_ips" limits) && str_truthy ip then
        let configured := limit_of "ip_window_seconds" limits in
        verdict ← check_and_add_ip conf ("api-key:" +++ subject) ip (limit_of "max_ips" limits)
                    (if configured =? 0 then 3600 else configured);
        mret (match verdict with Some (false, _) => Some too_many_ips | _ => None end)
      else mret None
  | None => mret None
  end.

(** RateLimiter.acquire; [hex] is uuid4().hex. *)
Definition acquire (now : Z) (api_key hex : string) (client_ip : option string) (cfg : list (string * json)) : ST limiter R verdict :=
  let subject := _subject api_key in
  w ← get_world;
  let '(blocked, w) := _is_blocked subject now w in
  modify (fun _ => w);;
  if blocked then mret too_many else
  limits ← lift (of_option (_limits cfg));
  refused ← lift (check_ips limits subject client_ip);
  match refused with
  | Some r => mret r
  | None =>
      let lease_id := "api-key-lease:" +++ hex in
      let concurrent_limit := limit_of "concurrent_requests" limits in
      acquired ← lift (if 0 <? concurrent_limit
                       then acquire_concurrency conf ("api-key:" +++ subject) concurrent_limit lease_id 3600 now
                       else mret None);
      if bool_decide (acquired = Some false) then mret too_many_at_once else
      count_windows REQUEST_WINDOWS limits subject 1 now;;
      mret (Granted (KeyLease subject lease_id (bool_decide (acquired = Some true))))
  end.

(** RateLimiter.release *)
Definition release_key (lease : option key_lease) : M R unit :=
  match lease with
  | Some l => if kl_concurrency_acquired l then release_concurrency conf ("api-key:" +++ kl_subject l) (kl_lease_id l) else mret tt
  | None => mret tt
  end.

(** RateLimiter.record_usage *)
Definition record_usage (now : Z) (api_key : string) (tokens : Z) (cfg : list (string * json)) : ST limiter R unit :=
  if negb (str_truthy api_key) || (tokens <=? 0) then mret tt else
  limits ← lift (of_option (_limits cfg));
  count_windows TOKEN_WINDOWS limits (_subject api_key) tokens now.

(** RateLimiter.get_usage: the rows of the report. *)
Fixpoint window_rows (windows : list (string * string * Z)) (limits : list (string * Z)) (subject : string) : M R (list (string * Z)) :=
  match windows with
  | [] => mret []
  | (field, prefix, _) :: windows' =>
      used ← get_window conf ("api-key:" +++ subject +++ ":" +++ field);
      rows ← window_rows windows' limits subject;
      mret ((prefix +++ "_limit", limit_of field limits) :: (prefix +++ "_used", used.1) :: rows)
  end.

Definition get_usage (now : Z) (api_key : string) (cfg : list (string * json)) : M R (list (string * Z)) :=
  limits ← of_option (_limits cfg);
  let subject := _subject api_key in
  requests ← window_rows REQUEST_WINDOWS limits subject;
  tokens ← window_rows TOKEN_WINDOWS limits subject;
  used ← concurrency_used conf ("api-key:" +++ subject) now;
  ips ← (if 0 <? limit_of "max_ips" limits
         then n ← set_cardinality conf ("api-key:" +++ subject); mret (default 0 n) else mret 0);
  mret (requests ++ tokens ++
        [("concurrent_limit", limit_of "concurrent_requests" limits); ("concurrent_used", default 0 used);
         ("ip_limit", limit_of "max_ips" limits); ("ip_used", ips)]).

(** server/runtime_handlers.py: _on_apikey_event, for a block event.  The expiry
    is read back from Redis. *)
Definition _on_apikey_event (subject field : string) (now : Z) : ST limiter R unit :=
  if negb (str_truthy subject) || negb (str_truthy field) then mret tt else
  until ← lift (get_api_key_block_until conf subject field now);
  modify (match until with
          | None => clear_block_event subject field
          | Some until => apply_block_event subject field until
          end).

(** ** One slot per client request: ApiKeyReservation *)

Record key_reservation := KeyReservation {
  ks_api_key : option string; ks_lease : option key_lease; ks_released : bool; ks_committed : bool;
}.

(** [inl]: the 429 that propagates. *)
Definition reserve_key (now : Z) (api_key : option string) (enabled : bool) (hex : string) (client_ip : option string)
    (cfg : list (string * json)) : ST limiter R (verdict + key_reservation) :=
  match api_key with
  | Some k =>
      if negb (str_truthy k) || negb enabled then mret (inr (KeyReservation None None false false)) else
      v ← acquire now k hex client_ip cfg;
      mret (match v with
            | Granted l => inr (KeyReservation (Some k) (Some l) false false)
            | Rejected _ _ => inl v
            end)
  | None => mret (inr (KeyReservation None None false false))
  end.

Definition commit_key (r : key_reservation) : key_reservation :=
  KeyReservation (ks_api_key r) (ks_lease r) (ks_released r) true.

Definition release_reservation (r : key_reservation) : M R key_reservation :=
  if ks_released r then mret r else
  release_key (ks_lease r);;
  mret (KeyReservation (ks_api_key r) None true (ks_committed r)).
End limiter.
