(* ===== verification/ApiKeyProps.v ===== *)
(** What the API-key limiter guarantees: how many requests a window lets
    through, and how long its windows are. *)
From S2P Require Import Prelude Redis MapRedis Client State Windows Json Text Counters CountersProps ApiKey.

Definition granted (r : res verdict) : bool := match r with Ret (Granted _) => true | _ => false end.

Section props.
Context {R : Type} `{RedisLaws R}.
Variables (conf : redis_conf) (utc_offset : Z -> Z) (digest : string -> string).
Implicit Types (s : R) (w : limiter).

(** ** Window lengths *)

Lemma weekday_bounds d : 0 <= weekday d < 7.
Proof. apply Z.mod_pos_bound. lia. Qed.

(** The seconds to a later instant that is at most [n] seconds away. *)
Lemma secs_to_bounds d n : 0 < n -> 0 <= d <= n * sec 1 -> 1 <= Z.max 1 (d / sec 1) <= n.
Proof.
  intros Hn Hd. split; [lia|]. apply Z.max_lub; [lia|]. apply Z.div_le_upper_bound; unfold sec in *; lia.
Qed.

(** The window of a counter is at least one second and at most its nominal
    length, and a day or week window ends at a local midnight, rounded down to
    the second unless less than a second is left. *)
Lemma key_window_ttl field prefix window now :
  (field, prefix, window) ∈ REQUEST_WINDOWS ++ TOKEN_WINDOWS ->
  let ttl := _window_ttl utc_offset window now in
  1 <= ttl <= window /\
  (86400 <= window -> exists midnight, midnight mod day_us = 0 /\ now + utc_offset now < midnight /\
     midnight - sec 1 < now + utc_offset now + sec ttl /\
     (sec 1 <= midnight - (now + utc_offset now) -> now + utc_offset now + sec ttl <= midnight)).
Proof.
  intros Hin. cbv zeta. set (local := now + utc_offset now).
  assert (0 < day_us) as Hday by (unfold day_us, sec; lia).
  pose proof (Z.mod_pos_bound local day_us Hday) as Hmod.
  pose proof (Z.div_mod local day_us ltac:(lia)) as Hdm.
  pose proof (weekday_bounds (local / day_us)) as Hwd.
  assert (day_us = 86400 * sec 1) as Eday by done.
  assert (forall m, local < m -> let t := Z.max 1 ((m - local) / sec 1) in
            m - sec 1 < local + sec t /\ (sec 1 <= m - local -> local + sec t <= m)) as Hround.
  { intros m Hm. cbv zeta. pose proof (Z.mod_pos_bound (m - local) (sec 1) ltac:(done)).
    pose proof (Z.div_mod (m - local) (sec 1) ltac:(done)). unfold sec in *. split; [lia|].
    intros. assert (1 <= (m - local) / (1 * 1000000)) by (apply Z.div_le_lower_bound; lia). lia. }
  assert (window = 604800 \/ window = 86400 \/ (1 <= window < 86400)) as [->|[->|Hw]].
  { apply list_elem_of_In in Hin. simpl in Hin. destruct_or! Hin; simplify_eq; lia. }
  - unfold _window_ttl. fold local. simpl Z.leb. cbv iota.
    set (m := (local / day_us + 7 - weekday (local / day_us)) * day_us).
    replace ((7 - weekday (local / day_us)) * day_us - local mod day_us) with (m - local) by (unfold m; nia).
    assert (local < m) as Hm by (unfold m; nia). split.
    + apply secs_to_bounds; [lia|]. unfold m. nia.
    + intros _. exists m. split_and!; [unfold m; by rewrite Z.mod_mul by lia | done | by apply Hround..].
  - unfold _window_ttl. fold local. simpl Z.leb. cbv iota.
    set (m := (local / day_us + 1) * day_us).
    replace (day_us - local mod day_us) with (m - local) by (unfold m; nia).
    assert (local < m) as Hm by (unfold m; nia). split.
    + apply secs_to_bounds; [lia|]. unfold m. nia.
    + intros _. exists m. split_and!; [unfold m; by rewrite Z.mod_mul by lia | done | by apply Hround..].
  - unfold _window_ttl. rewrite (proj2 (Z.leb_gt (7 * 86400) window)), (proj2 (Z.leb_gt 86400 window)) by lia.
    split; lia.
Qed.

(** ** Requests per window *)

Lemma incr_window_healthy key ttl amount s n t s' :
  connected conf = true -> incr_script (_key conf (window_key key)) amount ttl s = ((n, t), s') -> 0 <= t ->
  incr_window conf key ttl amount (REnv s []) = (Ret (Some (n, t)), REnv s' []).
Proof.
  intros Hcon Hi Ht. unfold incr_window. rewrite with_redis_on by done. apply attempt_ret.
  erewrite bind_ret by apply healthy_call. rewrite Hi. simpl. by rewrite (proj2 (Z.ltb_ge t 0)) by lia.
Qed.

(** Windows without a limit are not counted. *)
Lemma count_none windows limits subject amount now w (e : renv R) :
  Forall (fun x => limit_of x.1.1 limits <= 0) windows ->
  count_windows conf utc_offset windows limits subject amount now w e = (Ret (tt, w), e).
Proof.
  induction 1 as [|[[g p] n] windows Hg _ IH]; [done|]. simpl in *.
  by rewrite (proj2 (Z.leb_le _ 0)).
Qed.

Lemma field_in (x : string * string * Z) windows : x ∈ windows -> x.1.1 ∈ windows.*1.*1.
Proof. intros Hx. rewrite <- list_fmap_compose. apply list_elem_of_fmap. by exists x. Qed.

Lemma count_one windows limits subject amount now w s f p n count t s' :
  connected conf = true -> (f, p, n) ∈ windows -> NoDup windows.*1.*1 -> 0 < limit_of f limits ->
  (forall x, x ∈ windows -> x.1.1 <> f -> limit_of x.1.1 limits <= 0) ->
  incr_script (_key conf (window_key ("api-key:" +++ subject +++ ":" +++ f))) amount (_window_ttl utc_offset n now) s = ((count, t), s') ->
  0 <= t ->
  count_windows conf utc_offset windows limits subject amount now w (REnv s []) =
    (Ret (tt, if limit_of f limits <=? count then _set_blocked subject f t now w else w), REnv s' []).
Proof.
  intros Hcon Hin Hnd Hl Hother Hi Ht. induction windows as [|[[g q] m] windows IH]; [by apply not_elem_of_nil in Hin|].
  rewrite !fmap_cons, NoDup_cons in Hnd. destruct Hnd as [Hg Hnd].
  destruct (decide (g = f)) as [->|Hne].
  - apply elem_of_cons in Hin as [[= <- <-]|Hin].
    2:{ by apply field_in in Hin. }
    simpl. rewrite (proj2 (Z.leb_gt _ 0)) by done.
    erewrite ST_bind_ret by by eapply lift_ret, incr_window_healthy. cbv iota.
    erewrite ST_bind_ret by done. apply count_none, Forall_forall. intros x Hx. apply Hother; [by right|].
    intros Heq. apply Hg. simpl. rewrite <- Heq. by apply field_in.
  - apply elem_of_cons in Hin as [[= -> -> ->]|Hin]; [done|]. simpl.
    rewrite (proj2 (Z.leb_le (limit_of g limits) 0)) by (apply (Hother (g, q, m)); [by left | done]).
    apply IH; [done|done|]. intros x Hx. apply Hother. by right.
Qed.

Section quota.
(** A key with one request limit, and neither a concurrency nor an IP limit. *)
Context (cfg : list (string * json)) (limits : list (string * Z)) (f p : string) (n : Z).
Hypotheses (Hcon : connected conf = true) (Hcfg : _limits cfg = Some limits) (Hf : (f, p, n) ∈ REQUEST_WINDOWS)
  (Hlim : 0 < limit_of f limits) (Hips : limit_of "max_ips" limits <= 0) (Hconc : limit_of "concurrent_requests" limits <= 0)
  (Hother : forall x, x ∈ REQUEST_WINDOWS -> x.1.1 <> f -> limit_of x.1.1 limits <= 0).
Context (api_key hex : string) (client_ip : option string).

Abbreviation subject := (_subject digest api_key).
Abbreviation wkey := (_key conf (window_key ("api-key:" +++ subject +++ ":" +++ f))).
Abbreviation acquire_at now := (acquire conf utc_offset digest now api_key hex client_ip cfg).

Lemma check_ips_off : check_ips conf limits subject client_ip = mret None.
Proof. unfold check_ips. destruct client_ip; [|done]. by rewrite (proj2 (Z.ltb_ge 0 _)). Qed.

Lemma acquire_open now w s count t s' :
  dict_get subject (lm_blocked w) = None ->
  incr_script wkey 1 (_window_ttl utc_offset n now) s = ((count, t), s') -> 0 <= t ->
  acquire_at now w (REnv s []) =
    (Ret (Granted (KeyLease subject ("api-key-lease:" +++ hex) false),
          if limit_of f limits <=? count then _set_blocked subject f t now w else w), REnv s' []).
Proof.
  intros Hb Hi Ht. unfold acquire, get_world. erewrite ST_bind_ret by done. cbv zeta.
  unfold _is_blocked. rewrite Hb. erewrite ST_bind_ret by done. cbv iota.
  erewrite ST_bind_ret by (apply lift_ret; by rewrite Hcfg).
  erewrite ST_bind_ret by (apply lift_ret; by rewrite check_ips_off). cbv iota.
  erewrite ST_bind_ret by (apply lift_ret; by rewrite (proj2 (Z.ltb_ge 0 _))).
  rewrite bool_decide_eq_false_2 by done.
  erewrite ST_bind_ret by (eapply count_one; [done|exact Hf|apply (bool_decide_unpack _); by vm_compute|done|done|exact Hi|done]).
  by rewrite bool_decide_eq_false_2.
Qed.

Lemma acquire_closed now w (e : renv R) until :
  dict_get subject (lm_blocked w) = Some [(f, until)] -> now < until ->
  acquire_at now w e = (Ret (too_many, set_blocks (dict_set subject [(f, until)] (lm_blocked w)) w), e).
Proof.
  intros Hb Hu. unfold acquire, get_world. erewrite ST_bind_ret by done. unfold _is_blocked. rewrite Hb.
  rewrite filter_cons_True, filter_nil by done. by erewrite ST_bind_ret.
Qed.

(** Requests one after the other. *)
Fixpoint acquire_all (times : list Z) w s : list (res verdict) * limiter * R :=
  match times with
  | [] => ([], w, s)
  | t :: times' =>
      match acquire_at t w (REnv s []) with
      | (Ret (v, w'), e) => let '(rs, w'', s'') := acquire_all times' w' (rv_store e) in (Ret v :: rs, w'', s'')
      | (Exc, e) => let '(rs, w'', s'') := acquire_all times' w (rv_store e) in (Exc :: rs, w'', s'')
      end
  end.

Lemma acquire_all_closed times w s until :
  dict_get subject (lm_blocked w) = Some [(f, until)] -> Forall (fun t => t < until) times ->
  granted <$> (acquire_all times w s).1.1 = replicate (length times) false.
Proof.
  intros Hb Ht. revert w Hb. induction Ht as [|t times Ht _ IH]; intros w Hb; [done|]. cbn [acquire_all].
  rewrite (acquire_closed _ _ _ _ Hb Ht). simpl.
  destruct (acquire_all times _ s) as [[rs w2] s2] eqn:E. simpl. f_equal.
  change rs with (rs, w2, s2).1.1. rewrite <- E. apply IH. simpl. by rewrite dict_get_set, decide_True.
Qed.

(** From a window that holds [v] requests and expires at [T] seconds. *)
Lemma acquire_all_open times w s v T t0 :
  dict_get subject (lm_blocked w) = None -> window_at wkey v T s -> 0 < v < limit_of f limits -> 0 <= T ->
  Forall (fun t => t0 <= t < t0 + sec T) times ->
  granted <$> (acquire_all times w s).1.1 =
    replicate (Nat.min (length times) (Z.to_nat (limit_of f limits - v))) true ++
    replicate (length times - Z.to_nat (limit_of f limits - v)) false.
Proof.
  intros Hb Hw Hv HT Ht. revert w s v Hb Hw Hv. induction times as [|t times IH]; intros w s v Hb Hw Hv; [done|].
  apply Forall_cons in Ht as [Ht Hts]. cbn [acquire_all].
  destruct (incr_live s _ v T 1 (_window_ttl utc_offset n t) Hw) as [H1 H2]; [lia|].
  destruct (incr_script wkey 1 (_window_ttl utc_offset n t) s) as [[cnt T'] s1] eqn:Ei. simpl in H1, H2. injection H1 as -> ->.
  rewrite (acquire_open _ _ _ _ _ _ Hb Ei HT). simpl rv_store.
  replace (Z.to_nat (limit_of f limits - v)) with (S (Z.to_nat (limit_of f limits - (v + 1)))) by lia.
  destruct (acquire_all times _ s1) as [[rs w2] s2] eqn:E. cbn [fst snd fmap list_fmap granted length].
  change rs with (rs, w2, s2).1.1. rewrite <- E. clear E rs w2 s2. rewrite Nat.sub_succ, <- Nat.succ_min_distr.
  cbn [replicate app]. f_equal. destruct (Z.leb_spec (limit_of f limits) (v + 1)) as [Hle|Hgt].
  - replace (Z.to_nat (limit_of f limits - (v + 1))) with 0%nat by lia. rewrite Nat.min_0_r, Nat.sub_0_r. simpl.
    eapply acquire_all_closed.
    + unfold _set_blocked, put_block, set_blocks. simpl. rewrite dict_get_set, decide_True, Hb by done. reflexivity.
    + eapply Forall_impl; [exact Hts|]. intros x Hx. simpl in Hx. lia.
  - apply IH; [done..|lia].
Qed.

(** In a window, a key with a limit of L requests gets exactly its first L
    requests through: from a fresh window, of requests that come one after the
    other before the window ends, the first L are granted and all later ones
    rejected. *)
Lemma key_window_exact times t0 w s :
  dict_get subject (lm_blocked w) = None -> view s wkey = None ->
  let T := _window_ttl utc_offset n t0 in
  Forall (fun t => t0 <= t < t0 + sec T) times ->
  let L := Z.to_nat (limit_of f limits) in
  granted <$> (acquire_all (t0 :: times) w s).1.1 =
    replicate (Nat.min (S (length times)) L) true ++ replicate (S (length times) - L) false.
Proof.
  intros Hb Hv T Ht L. cbn [acquire_all].
  assert (1 <= T) as HT.
  { apply (key_window_ttl f p n t0). apply elem_of_app. by left. }
  destruct (incr_fresh s _ 1 T Hv ltac:(lia)) as [H1 H2].
  destruct (incr_script wkey 1 T s) as [[cnt T'] s1] eqn:Ei. simpl in H1, H2. injection H1 as -> ->.
  rewrite (acquire_open _ _ _ _ _ _ Hb Ei) by lia. simpl rv_store.
  destruct (acquire_all times _ s1) as [[rs w2] s2] eqn:E. cbn [fst snd fmap list_fmap granted].
  change rs with (rs, w2, s2).1.1. rewrite <- E. clear E rs w2 s2.
  replace L with (S (Z.to_nat (limit_of f limits - 1))) by lia. rewrite Nat.sub_succ, <- Nat.succ_min_distr.
  cbn [replicate app]. f_equal. destruct (Z.leb_spec (limit_of f limits) 1) as [Hle|Hgt].
  - replace (Z.to_nat (limit_of f limits - 1)) with 0%nat by lia. rewrite Nat.min_0_r, Nat.sub_0_r. simpl.
    eapply acquire_all_closed.
    + unfold _set_blocked, put_block, set_blocks. simpl. rewrite dict_get_set, decide_True, Hb by done. reflexivity.
    + eapply Forall_impl; [exact Ht|]. intros x Hx. simpl in Hx. fold T in Hx. lia.
  - apply (acquire_all_open times w s1 1 T t0); [done..|lia|lia|done].
Qed.
End quota.
End props.

Module ApiKeySample.
Definition conf := RedisConf (Some "ai") true true.
Definition off : Z -> Z := fun _ => sec 28800.
Definition t0 : Z := sec 1700000000.
Definition cfg : list (string * json) := [("requests_per_minute", JNum "2")].
Definition limits : list (string * Z) := default [] (_limits cfg).

Lemma key_window_ttl_witness :
  1 <= _window_ttl off 604800 t0 <= 604800 /\ exists midnight, midnight mod day_us = 0 /\ t0 + off t0 < midnight.
Proof.
  destruct (key_window_ttl off "requests_per_week" "rpw" 604800 t0) as [Hb Hm]; [right; right; right; left|].
  split; [exact Hb|]. destruct (Hm ltac:(done)) as (m & H1 & H2 & _). by exists m.
Defined.

(** Three requests in one minute, two of them granted. *)
Lemma key_window_exact_witness :
  Z.to_nat (limit_of "requests_per_minute" limits) = 2%nat /\
  granted <$> (acquire_all conf off (fun k => k) cfg "key" "f00d" None (t0 :: [t0 + sec 1; t0 + sec 2]) (Limiter [] []) (∅ : mapredis)).1.1
  = replicate (Nat.min 3 (Z.to_nat (limit_of "requests_per_minute" limits))) true ++
    replicate (3 - Z.to_nat (limit_of "requests_per_minute" limits)) false.
Proof.
  split; [by vm_compute|].
  apply (key_window_exact conf off (fun k => k) cfg limits "requests_per_minute" "rpm" 60).
  - done.
  - by vm_compute.
  - by left.
  - by vm_compute.
  - by vm_compute.
  - by vm_compute.
  - intros x Hx Hne. apply list_elem_of_In in Hx. simpl in Hx. destruct_or! Hx; subst; [done|by vm_compute..].
  - done.
  - by vm_compute.
  - repeat constructor; vm_compute; congruence.
Defined.
End ApiKeySample.
