(* ===== verification/Candidate.v ===== *)
(** server/request_reservations.py: [CandidateReservation], the handle of one
    attempt on a reserved account.  It settles the lease of the account on
    success, rolls it back on failure, and gives the concurrency slot back, each
    at most once in whatever order the request pipeline calls it. *)
From S2P Require Import Prelude Redis Client State Rules Json Text Settlement Account Manager.

(** [cd_attached]: account_client is not None. *)
Record candidate := Candidate {
  cd_attached : bool; cd_committed : bool; cd_rolled_back : bool; cd_released : bool; cd_settled : bool;
  cd_lease : option limit_lease;
}.
Definition new_candidate : candidate := Candidate true false false false false None.

(** The handle with what it works on: the account and the task's lease stack. *)
Record session := Session { se_cand : candidate; se_client : account_client; se_ctx : list string }.
Definition with_cand (f : candidate -> candidate) (s : session) : session := Session (f (se_cand s)) (se_client s) (se_ctx s).

Definition set_committed (c : candidate) : candidate :=
  Candidate (cd_attached c) true (cd_rolled_back c) (cd_released c) (cd_settled c) (cd_lease c).
Definition set_settled (c : candidate) : candidate :=
  Candidate (cd_attached c) (cd_committed c) (cd_rolled_back c) (cd_released c) true (cd_lease c).
Definition set_rolled_back (c : candidate) : candidate :=
  Candidate (cd_attached c) (cd_committed c) true (cd_released c) (cd_settled c) (cd_lease c).
Definition set_lease (l : option limit_lease) (c : candidate) : candidate :=
  Candidate (cd_attached c) (cd_committed c) (cd_rolled_back c) (cd_released c) (cd_settled c) l.
Definition set_released (c : candidate) : candidate :=
  Candidate false (cd_committed c) (cd_rolled_back c) true (cd_settled c) (cd_lease c).

(** _usage_total_tokens: the first truthy key that reads as an integer. *)
Definition token_field (key : string) (d : list (string * json)) : option Z :=
  match obj_get key d with
  | Some v => if json_truthy v then Z.max 0 <$> json_int v else None
  | None => None
  end.
Definition _usage_total_tokens (usage : option json) : Z :=
  match usage with
  | Some (JObj d) =>
      match token_field "total_tokens" d, token_field "tokens" d, token_field "total" d with
      | Some n, _, _ => n
      | None, Some n, _ => n
      | None, None, Some n => n
      | None, None, None => 0
      end
  | _ => 0
  end.

(** _capture_lease: once captured it is kept. *)
Definition _capture_lease (s : session) : option limit_lease * session :=
  match cd_lease (se_cand s) with
  | Some l => (Some l, s)
  | None =>
      let l := if cd_attached (se_cand s) then current_limit_lease (se_ctx s) (se_client s) else None in
      (l, with_cand (set_lease l) s)
  end.

Section candidate.
Context {R : Type} `{Redis R}.
Variables (conf : redis_conf) (utc_offset : Z -> Z).

(** _release_concurrency *)
Definition _release_concurrency (s : session) : ST world R session :=
  if cd_released (se_cand s) then mret s else
  let attached := cd_attached (se_cand s) in
  let s := with_cand set_released s in
  if negb attached then mret s else
  '(c, ctx) ← release conf (se_ctx s) (se_client s);
  mret (Session (se_cand s) c ctx).

(** _settle *)
Definition _settle (now : Z) (usage : option json) (s : session) : ST world R session :=
  if cd_settled (se_cand s) || cd_rolled_back (se_cand s) then mret s else
  let '(lease, s) := _capture_lease s in
  match lease with
  | Some l =>
      '(_, l) ← guarded (None, Some l) (manager_reconcile conf utc_offset now (Some l) (_usage_total_tokens usage));
      mret (with_cand (fun c => set_settled (set_lease l c)) s)
  | None => mret (with_cand set_settled s)
  end.

Definition commit (now : Z) (usage : option json) (s : session) : ST world R session :=
  _settle now usage (with_cand set_committed s).

Definition keep_served_usage (now : Z) (usage : option json) (s : session) : ST world R session :=
  _settle now usage (with_cand set_committed s).

Definition rollback (now : Z) (s : session) : ST world R session :=
  if cd_rolled_back (se_cand s) || cd_settled (se_cand s) then _release_concurrency s else
  let '(lease, s) := _capture_lease (with_cand set_rolled_back s) in
  match lease with
  | Some l =>
      '(_, l) ← guarded (None, Some l) (manager_rollback conf utc_offset now (Some l));
      _release_concurrency (with_cand (set_lease l) s)
  | None => _release_concurrency s
  end.

Definition release_candidate (s : session) : ST world R session := _release_concurrency s.

(** The calls a pipeline can make, in any order. *)
Inductive candidate_call := Commit (usage : option json) | KeepServed (usage : option json) | Rollback | Release.

Definition run_call (now : Z) (k : candidate_call) (s : session) : ST world R session :=
  match k with
  | Commit usage => commit now usage s
  | KeepServed usage => keep_served_usage now usage s
  | Rollback => rollback now s
  | Release => release_candidate s
  end.

Fixpoint run_calls (now : Z) (ks : list candidate_call) (s : session) : ST world R session :=
  match ks with
  | [] => mret s
  | k :: ks' => s ← run_call now k s; run_calls now ks' s
  end.
End candidate.
