(* ===== verification/CandidateProps.v ===== *)
(** The attempt handle: whatever the pipeline calls, the account is settled or
    rolled back at most once and its slot is given back exactly once; a failed
    attempt leaves the ledgers as they were. *)
From S2P Require Import Prelude Redis MapRedis Client State Ledger Windows Reservation Settlement.
From S2P Require Import ReservationFacts SettlementFacts ReservationProps Recovery Rules Json Account Manager ManagerProps Candidate.

Section props.
Context {R : Type} `{RedisLaws R}.
Variables (conf : redis_conf) (utc_offset : Z -> Z) (boot_id : string).
Implicit Types (c : account_client) (w : world) (l : limit_lease) (ss : session).

(** What a release leaves of the account and the task's stack. *)
Definition freed (ctx : list string) c : account_client * list string :=
  ((detach_account_lease_locked (last ctx) c).2,
   match last ctx with Some id => if str_truthy id then removelast ctx else ctx | None => ctx end).

Lemma release_freed ctx c w (e : renv R) :
  exists w' e', release conf ctx c w e = (Ret (((freed ctx c).1, (freed ctx c).2), w'), e').
Proof.
  unfold release, freed. destruct (detach_account_lease_locked (last ctx) c) as [l c'].
  destruct (release_lease_total conf l w e) as (w' & e' & E). exists w', e'. by erewrite ST_bind_ret by exact E.
Qed.

(** ** Reachable sessions *)

Definition gives_back (k : candidate_call) : bool := match k with Rollback | Release => true | _ => false end.

Record reachable c1 ctx1 (released : bool) ss : Prop := {
  rc_released : cd_released (se_cand ss) = released;
  rc_attached : cd_attached (se_cand ss) = negb released;
  rc_slot : (se_client ss, se_ctx ss) = if released then freed ctx1 c1 else (c1, ctx1);
  rc_exclusive : cd_settled (se_cand ss) && cd_rolled_back (se_cand ss) = false;
}.

Lemma release_reachable c1 ctx1 b ss w (e : renv R) :
  reachable c1 ctx1 b ss ->
  exists ss' w' e', _release_concurrency conf ss w e = (Ret (ss', w'), e') /\ reachable c1 ctx1 true ss'.
Proof.
  intros [Hr Ha Hs Hx]. unfold _release_concurrency. rewrite Hr, Ha. destruct b; [by repeat econstructor|].
  injection Hs as Hc Hctx. cbn [negb]. destruct (release_freed (se_ctx (with_cand set_released ss)) (se_client (with_cand set_released ss)) w e) as (w' & e' & E).
  do 3 eexists. split; [by erewrite ST_bind_ret by exact E|]. split; simpl; [done..| |done].
  by rewrite Hc, Hctx.
Qed.

Lemma capture_spec ss (o : option limit_lease) ss' : _capture_lease ss = (o, ss') -> exists f, ss' = with_cand (set_lease f) ss.
Proof.
  unfold _capture_lease. destruct ss as [[a1 a2 a3 a4 a5 [l1|]] c ctx]; simpl; intros [= <- <-].
  - by exists (Some l1).
  - by eexists.
Qed.

Lemma settle_reachable now usage c1 ctx1 b ss w (e : renv R) :
  reachable c1 ctx1 b ss ->
  exists ss' w' e', _settle conf utc_offset now usage ss w e = (Ret (ss', w'), e') /\ reachable c1 ctx1 b ss'.
Proof.
  intros Hr. unfold _settle. destruct (cd_settled _ || cd_rolled_back _) eqn:E.
  { do 3 eexists. by split. }
  destruct (_capture_lease ss) as [[l|] ss1] eqn:Ec; apply capture_spec in Ec as [f ->].
  - destruct (reconcile_closes conf utc_offset now l (_usage_total_tokens usage) w e) as (r & l' & w' & e' & Er & _).
    do 3 eexists. split; [by erewrite ST_bind_ret by by apply guarded_ret|].
    apply orb_false_iff in E as [_ E]. destruct Hr. split; simpl in *; [done..|by rewrite E].
  - do 3 eexists. split; [done|]. apply orb_false_iff in E as [_ E]. destruct Hr. split; simpl in *; [done..|by rewrite E].
Qed.

Lemma call_reachable now k c1 ctx1 b ss w (e : renv R) :
  reachable c1 ctx1 b ss ->
  exists ss' w' e', run_call conf utc_offset now k ss w e = (Ret (ss', w'), e') /\ reachable c1 ctx1 (b || gives_back k) ss'.
Proof.
  intros Hr. destruct k as [usage|usage| |]; simpl gives_back; rewrite ?orb_false_r, ?orb_true_r.
  - apply settle_reachable. by destruct Hr.
  - apply settle_reachable. by destruct Hr.
  - simpl. unfold rollback. destruct (cd_rolled_back _ || cd_settled _) eqn:E; [by eapply release_reachable|].
    apply orb_false_iff in E as [_ E].
    destruct (_capture_lease _) as [[l|] ss1] eqn:Ec; apply capture_spec in Ec as [f ->].
    + destruct (rollback_closes conf utc_offset now l w e) as (r & l' & w' & e' & Er & _).
      erewrite ST_bind_ret by by apply guarded_ret. eapply release_reachable.
      destruct Hr. split; simpl in *; [done..|by rewrite E].
    + eapply release_reachable. destruct Hr. split; simpl in *; [done..|by rewrite E].
  - by eapply release_reachable.
Qed.

Lemma calls_reachable now ks c1 ctx1 b ss w (e : renv R) :
  reachable c1 ctx1 b ss ->
  exists ss' w' e', run_calls conf utc_offset now ks ss w e = (Ret (ss', w'), e') /\
    reachable c1 ctx1 (b || existsb gives_back ks) ss'.
Proof.
  revert b ss w e. induction ks as [|k ks IH]; intros b ss w e Hr.
  { do 3 eexists. split; [done|]. by rewrite orb_false_r. }
  destruct (call_reachable now k c1 ctx1 b ss w e Hr) as (ss1 & w1 & e1 & E1 & Hr1).
  destruct (IH _ ss1 w1 e1 Hr1) as (ss2 & w2 & e2 & E2 & Hr2). exists ss2, w2, e2. split.
  - cbn [run_calls]. by erewrite ST_bind_ret by exact E1.
  - simpl. by rewrite orb_assoc.
Qed.

(** C10: However an attempt ends: after a reservation that returned a lease, any
    sequence of commit, keep, rollback and release returns, whatever Redis
    answers; the lease is never both settled and rolled back; and once one call
    of the sequence gives the slot back, the account's slots and the task's
    stack are as before the reservation, however often it is repeated. *)
Theorem candidate_balanced now rq ctx c w (e : renv R) r l c1 ctx1 w1 e1 ks w2 (e2 : renv R) :
  reserve_with_decision conf utc_offset boot_id now rq true ctx c w e = (Ret ((Some r, c1, ctx1), w1), e1) ->
  lr_lease r = Some l -> dict_get (lease_name boot_id (rq_hex rq)) (ac_leases c) = None ->
  lease_name boot_id (rq_hex rq) ∉ ctx -> 0 <= ac_in_flight c ->
  exists ss w' e', run_calls conf utc_offset now ks (Session new_candidate c1 ctx1) w2 e2 = (Ret (ss, w'), e') /\
    cd_settled (se_cand ss) && cd_rolled_back (se_cand ss) = false /\
    if existsb gives_back ks then same_slots c (se_client ss) /\ se_ctx ss = ctx
    else se_client ss = c1 /\ se_ctx ss = ctx1.
Proof.
  intros Hrun Hl Hfresh Hctx Hn.
  pose proof (slots_balanced conf utc_offset boot_id _ _ _ _ _ _ _ _ _ _ _ _ Hrun Hfresh Hctx Hn) as Hs. simpl in Hs. rewrite Hl in Hs.
  destruct Hs as (_ & _ & _ & Hrel).
  destruct (calls_reachable now ks c1 ctx1 false (Session new_candidate c1 ctx1) w2 e2) as (ss & w' & e' & E & Hr); [done|].
  exists ss, w', e'. split; [exact E|]. destruct Hr as [_ _ Hslot Hx]. split; [exact Hx|]. simpl in Hslot.
  destruct (existsb gives_back ks); [|by injection Hslot].
  destruct (Hrel w2 e2) as (c2 & w3 & e3 & E3 & Hs2). destruct (release_freed ctx1 c1 w2 e2) as (w4 & e4 & E4).
  rewrite E4 in E3. rewrite <- surjective_pairing in E3.
  assert (freed ctx1 c1 = (c2, ctx)) as Hf by congruence. rewrite Hf in Hslot. by injection Hslot as -> ->.
Qed.

(** An attempt that is settled or rolled back, and released, is final: any
    later call leaves Redis, the process and the account as they are. *)
Lemma candidate_final now k ss w (e : renv R) :
  cd_settled (se_cand ss) || cd_rolled_back (se_cand ss) = true -> cd_released (se_cand ss) = true ->
  exists ss', run_call conf utc_offset now k ss w e = (Ret (ss', w), e) /\
    se_client ss' = se_client ss /\ se_ctx ss' = se_ctx ss /\
    cd_settled (se_cand ss') = cd_settled (se_cand ss) /\ cd_rolled_back (se_cand ss') = cd_rolled_back (se_cand ss) /\
    cd_released (se_cand ss') = true.
Proof.
  intros Hc Hr. destruct k; simpl; unfold commit, keep_served_usage, _settle, rollback, release_candidate, _release_concurrency; simpl.
  - rewrite Hc. by eexists.
  - rewrite Hc. by eexists.
  - rewrite orb_comm, Hc, Hr. by eexists.
  - rewrite Hr. by eexists.
Qed.

(** ** A failed attempt, end to end *)

(** The reply of an accepted script, and what the method makes of it. *)
Lemma reserve_reply_shape K A s r s' :
  reserve_script K A s = (r, s') -> accepted r ->
  exists why t a b e g u1 u2 u3 u4 m,
    r = [LInt 1; LStr why; LInt t; LInt a; LInt b; LInt 0; LInt e; LInt g; LInt u1; LInt u2; LInt u3; LInt u4; LInt m].
Proof.
  intros Hs Hr. unfold reserve_script in Hs.
  destruct (check_freeze K A s) eqn:Ef; [injection Hs as <- <-; by apply check_freeze_reply in Ef|].
  destruct (check_concurrency K A s) as [[r'|] sc] eqn:Ec; [injection Hs as <- <-; by apply check_concurrency_reply in Ec|].
  fold (token_refusal K A sc) in Hs.
  destruct (token_refusal K A sc) eqn:Et; [injection Hs as <- <-; by apply token_refusal_reply in Et|].
  repeat case_match. injection Hs as <- <-. by repeat eexists.
Qed.

Lemma decode_accepted wids why t a b e g u1 u2 u3 u4 m :
  exists rr, decode_reserve conf wids
      [LInt 1; LStr why; LInt t; LInt a; LInt b; LInt 0; LInt e; LInt g; LInt u1; LInt u2; LInt u3; LInt u4; LInt m] = Some rr /\
    rr_allowed rr = true /\ rr_window_ids rr = wids.
Proof. by eexists. Qed.

Lemma reserve_call_accepted now rq t c K s r s1 :
  let wids := _reservation_window_ids utc_offset now in
  connected conf = true -> make_keys conf (reserve_call utc_offset boot_id now rq t c) wids = Some K ->
  reserve_script K (make_argv (reserve_call utc_offset boot_id now rq t c) wids now) s = (r, s1) -> accepted r ->
  exists rr, reserve_account_limits conf utc_offset (reserve_call utc_offset boot_id now rq t c) now (REnv s []) =
    (Ret (Some rr), REnv s1 []) /\ rr_allowed rr = true /\ rr_window_ids rr = wids.
Proof.
  intros wids Hcon HK Hs Hr. destruct (reserve_reply_shape _ _ _ _ _ Hs Hr) as (why & t1 & a & b & e & g & u1 & u2 & u3 & u4 & m & ->).
  destruct (decode_accepted wids why t1 a b e g u1 u2 u3 u4 m) as (rr & Hd & Ha & Hw). exists rr. split; [|done].
  unfold reserve_account_limits. rewrite with_redis_on by done.
  change (window_ids_or utc_offset (r_window_ids (reserve_call utc_offset boot_id now rq t c)) now) with wids.
  rewrite HK. erewrite bind_ret by done. apply attempt_ret. erewrite bind_ret by apply healthy_call.
  rewrite Hs. cbn [fst snd]. rewrite Hd. by erewrite bind_ret.
Qed.

(** The lease of a booked request, as far as settling needs it. *)
Record booked now rq (t : bool) c l : Prop := {
  bk_subject : ll_subject l = account_subject c (rq_model_id rq);
  bk_lease : ll_lease_id l = lease_name boot_id (rq_hex rq);
  bk_rid : ll_reservation_id l = lease_name boot_id (rq_hex rq);
  bk_wids : ll_window_ids l = _reservation_window_ids utc_offset now;
  bk_acquired : ll_concurrency_acquired l = (0 <? al_concurrent (ac_limits c));
  bk_probe : ll_test_probe l = t;
  bk_local : ll_local_fallback l = false;
  bk_open : ll_settled l = false /\ ll_rolled_back l = false;
}.

Lemma try_reserve_booked now rq t c w s K r s1 rr c1 w1 (e1 : renv R) l :
  let wids := _reservation_window_ids utc_offset now in
  connected conf = true -> make_keys conf (reserve_call utc_offset boot_id now rq t c) wids = Some K ->
  has_remote_limits (call_limits t c) (if t then 0 else rq_model_tpm rq) (if t then 0 else Z.max 0 (rq_token_estimate rq)) = true ->
  reserve_script K (make_argv (reserve_call utc_offset boot_id now rq t c) wids now) s = (r, s1) -> accepted r ->
  try_reserve conf utc_offset boot_id now rq t c w (REnv s []) = (Ret ((rr, c1), w1), e1) -> lr_lease rr = Some l ->
  e1 = REnv s1 [] /\ booked now rq t c l.
Proof.
  intros wids Hcon HK Hrem Hs Hr Hrun Hl.
  destruct (reserve_call_accepted now rq t c K s r s1 Hcon HK Hs Hr) as (res & Ecall & Hal & Hw).
  unfold try_reserve, get_world in Hrun. erewrite ST_bind_ret in Hrun by done. cbv zeta in Hrun.
  destruct ((0 <? _) && uncertain w).
  { erewrite ST_bind_ret in Hrun by done. injection Hrun as <- <- <- <-. done. }
  rewrite Hrem in Hrun. cbn [negb] in Hrun.
  erewrite ST_bind_ret in Hrun by (apply routing_call_ret; exact Ecall). erewrite ST_bind_ret in Hrun by done.
  unfold reserved in Hrun. rewrite Hal in Hrun. cbn [negb] in Hrun.
  destruct (accept _ _ _ _ _ _ _ _ _ _) as [[l1 c2] w2] eqn:Ea. erewrite ST_bind_ret in Hrun by done.
  injection Hrun as <- <- <- <-. injection Hl as ->. split; [done|].
  unfold accept in Ea. rewrite Hw in Ea. destruct (str_truthy (rr_reason res) && _);
    [unfold _freeze_account_local_and_broadcast in Ea; destruct (rr_ttl res <=? 0)|]; injection Ea as <- _ _;
    by split; simpl; rewrite ?call_limits_concurrent.
Qed.

Lemma reserve_call_same now rq t c c' :
  same_slots c c' -> reserve_call utc_offset boot_id now rq t c' = reserve_call utc_offset boot_id now rq t c.
Proof.
  intros [_ _ Hl Hp Hu]. unfold reserve_call, manager_args, account_subject, call_limits. by rewrite Hl, Hp, Hu.
Qed.

(** Rolling the booked lease back on a server that answers. *)
Lemma manager_rollback_healthy now now' rq c l K s Lx w :
  let wids := _reservation_window_ids utc_offset now in
  connected conf = true -> booked now rq false c l -> rid_ok (lease_name boot_id (rq_hex rq)) -> str_truthy (rq_model_id rq) = true ->
  make_keys conf (reserve_call utc_offset boot_id now rq false c) wids = Some K -> Linv (ledger_keys K) s Lx ->
  exists n l' s' ks, manager_rollback conf utc_offset now' (Some l) w (REnv s []) = (Ret ((Some n, Some l'), w), REnv s' []) /\
    Linv (ledger_keys K) s' (unbook_in ks (lease_name boot_id (rq_hex rq)) Lx) /\
    (forall k, k ∈ (bookings K (make_argv (reserve_call utc_offset boot_id now rq false c) wids now)).*1 -> k ∈ ks) /\
    view s' (k_meta K) = None /\ view s' (k_concurrency K) = view s (k_concurrency K).
Proof.
  intros wids Hcon [Hsub Hlid Hrid Hwids _ Hprobe Hloc [Hset Hroll]] Hok Hm HK HL.
  pose proof (manager_keys_wf conf utc_offset _ _ _ _ _ _ _ _ _ _ _ HK) as Hwf.
  destruct (rollback_call_healthy conf utc_offset (reserve_call utc_offset boot_id now rq false c) wids K now now' s Lx
    (lease_name boot_id (rq_hex rq))) as (n & s1 & ks & E1 & HL1 & Hcov & Hm1 & Hc1); [done..|].
  exists n, (mark_rolled_back l), s1, ks. split; [|done].
  unfold manager_rollback. rewrite Hset, Hroll, Hprobe, Hloc. cbn [orb].
  assert (lease_rid l = lease_name boot_id (rq_hex rq)) as -> by (unfold lease_rid; by rewrite Hrid).
  assert (lease_model l = rq_model_id rq) as ->.
  { unfold lease_model. rewrite Hsub. unfold account_subject, str_or. cbn [ls_routed_model ls_model]. by rewrite Hm. }
  assert (lease_wids l = Some wids) as -> by (unfold lease_wids; by rewrite Hwids).
  rewrite Hsub. cbn [str_truthy lease_name String.append negb orb].
  erewrite ST_bind_ret by (apply routing_call_ret; exact E1). by erewrite ST_bind_ret.
Qed.

(** Releasing the booked lease on a server that answers. *)
Lemma release_booked_healthy now rq c l K s z w :
  let wids := _reservation_window_ids utc_offset now in
  connected conf = true -> booked now rq false c l ->
  make_keys conf (reserve_call utc_offset boot_id now rq false c) wids = Some K ->
  (0 < al_concurrent (ac_limits c) -> as_zset (view s (k_concurrency K)) = Some z) ->
  exists s' w', release_account_lease conf (Some l) w (REnv s []) = (Ret (tt, w'), REnv s' []) /\
    (0 < al_concurrent (ac_limits c) -> as_zset (view s' (k_concurrency K)) = Some (delete (lease_name boot_id (rq_hex rq)) z)) /\
    (forall k, k <> k_concurrency K -> view s' k = view s k).
Proof.
  intros wids Hcon [Hsub Hlid _ _ Hacq _ _ _] HK Hz. 
  assert (k_concurrency K = concurrency_key conf (subject_account_key (account_subject c (rq_model_id rq)))) as Ec
    by exact (make_keys_concurrency conf _ _ _ HK).
  unfold release_account_lease. rewrite Hacq. destruct (Z.ltb_spec 0 (al_concurrent (ac_limits c))) as [Hlim|Hlim]; cbn [negb].
  - destruct (zrem_law s _ (lease_name boot_id (rq_hex rq)) _ (Hz Hlim)) as [_ Hv].
    do 2 eexists. split; [|split].
    + erewrite ST_bind_ret by done. erewrite ST_bind_ret; [done|]. apply routing_call_ret.
      rewrite Hlid, Hsub. apply release_healthy; [done|]. done.
    + intros _. rewrite Ec in Hv |- *. by rewrite Hv, as_zset_put.
    + intros k Hk. rewrite Ec in Hk. apply zrem_ne. apply not_eq_sym, Hk.
  - do 2 eexists. split; [done|]. split; [lia | done].
Qed.

Lemma acquire_inv now rq c w (e : renv R) r c' w' e' l :
  acquire_account conf utc_offset boot_id now rq c w e = (Ret ((r, c'), w'), e') ->
  rq_is_test rq = false -> ac_is_test c = false -> lr_lease r = Some l ->
  exists cb, same_slots c cb /\ try_reserve conf utc_offset boot_id now rq false cb w e = (Ret ((r, c'), w'), e').
Proof.
  unfold acquire_account. intros Ha Ht Hc Hl. rewrite Ht, Hc in Ha. cbn [orb] in Ha. cbv zeta iota in Ha.
  destruct (account_available_locked _ _ _ _ _ c) as [[d|] cb] eqn:Ea; [|done]. apply available_slots in Ea.
  destruct (ld_allowed d); [by exists cb|]. injection Ha as <- _ _ _. done.
Qed.

(** C9: A failed attempt leaves nothing behind: a request reserves an account and
    is rolled back, on a server that answers; then every ledger is what it was
    before the request, the meta record is gone, no concurrency lease but the
    unexpired ones of before is left, and the account's slots and the task's
    stack are restored. *)
Theorem failed_attempt_restores now now' rq ctx c w s r rr l c1 ctx1 w1 (e1 : renv R) K L z :
  let wids := _reservation_window_ids utc_offset now in
  let rid := lease_name boot_id (rq_hex rq) in
  let A := make_argv (reserve_call utc_offset boot_id now rq false c) wids now in
  connected conf = true -> str_mem ":" (rq_hex rq) = false -> rq_hex rq <> "state" -> str_truthy (rq_model_id rq) = true ->
  rq_is_test rq = false -> ac_is_test c = false ->
  has_remote_limits (ac_limits c) (rq_model_tpm rq) (Z.max 0 (rq_token_estimate rq)) = true ->
  dict_get rid (ac_leases c) = None -> rid ∉ ctx -> 0 <= ac_in_flight c ->
  make_keys conf (reserve_call utc_offset boot_id now rq false c) wids = Some K ->
  Linv (ledger_keys K) s L -> (forall k, k ∈ ledger_keys K -> L k !! rid = None) ->
  as_zset (view s (k_concurrency K)) = Some z -> z !! rid = None ->
  (reserve_script K A s).1 = r -> accepted r ->
  reserve_with_decision conf utc_offset boot_id now rq true ctx c w (REnv s []) = (Ret ((Some rr, c1, ctx1), w1), e1) ->
  lr_lease rr = Some l ->
  exists ss w' s', run_call conf utc_offset now' Rollback (Session new_candidate c1 ctx1) w1 e1 = (Ret (ss, w'), REnv s' []) /\
    Linv (ledger_keys K) s' L /\ view s' (k_meta K) = None /\
    (0 < al_concurrent (ac_limits c) -> as_zset (view s' (k_concurrency K)) = Some (zkeep 0 now z)) /\
    same_slots c (se_client ss) /\ se_ctx ss = ctx.
Proof.
  intros wids rid A Hcon Hhex Hhex2 Hm Ht Hct Hrem Hfresh Hctx Hn HK HL HLf Hz Hzf Hs Hr Hrun Hl.
  destruct (reserve_script K A s) as [r' s1] eqn:Es. simpl in Hs. subst r'.
  pose proof (slots_balanced conf utc_offset boot_id _ _ _ _ _ _ _ _ _ _ _ _ Hrun Hfresh Hctx Hn) as Hs.
  simpl in Hs. rewrite Hl in Hs. destruct Hs as (_ & _ & Hcur & Hrel).
  destruct (reserve_with_decision_inv conf utc_offset boot_id _ _ _ _ _ _ _ _ _ _ _ _ Hrun Hl) as (ca & Hacq & -> & ->).
  pose proof (acquire_slots conf utc_offset boot_id _ _ _ _ _ _ _ _ _ Hacq) as [Hsa _].
  destruct (acquire_inv _ _ _ _ _ _ _ _ _ _ Hacq Ht Hct Hl) as (cb & Hsb & Htry).
  assert (reserve_call utc_offset boot_id now rq false cb = reserve_call utc_offset boot_id now rq false c) as Ecall
    by by apply reserve_call_same.
  assert (e1 = REnv s1 [] /\ booked now rq false cb l) as [-> Hbk].
  { eapply try_reserve_booked; [done|by rewrite Ecall| |by rewrite Ecall|exact Hr|exact Htry|exact Hl].
    simpl. by rewrite (sl_limits _ _ Hsb). }
  assert (argv_wf A) as HA by by apply manager_argv_wf.
  pose proof (manager_keys_wf conf utc_offset _ _ _ _ _ _ _ _ _ _ _ HK) as Hwf.
  destruct (reserve_accepted_books K A Hwf HA _ _ _ _ Es Hr HL) as [HB _].
  rewrite <- Ecall in HK.
  destruct (manager_rollback_healthy now now' rq cb l K s1 _ w1 Hcon Hbk ltac:(apply HA) Hm HK HB)
    as (n & l' & s2 & ks & Erb & HL2 & Hcov & Hm2 & Hc2).
  unfold A in *. rewrite Ecall in Hcov.
  assert (0 < al_concurrent (ac_limits cb) ->
    as_zset (view s2 (k_concurrency K)) = Some (<[rid := now + sec ACCOUNT_CONCURRENCY_LEASE_SECONDS]> (zkeep 0 now z))) as Hz2.
  { rewrite Hc2, (sl_limits _ _ Hsb). intros Hlim.
    by destruct (reserve_accepted_lease K _ Hwf HA _ _ _ _ _ Es Hr HL Hz Hlim) as [Hz1 _]. }
  destruct (release_booked_healthy now rq cb l K s2 _ w1 Hcon Hbk HK Hz2) as (s3 & w3 & Erel & Hz3 & Hf3).
  destruct (other_key_facts K Hwf) as (_ & _ & Hdc & _ & Hcm).
  destruct (detach_push now l ca) as (c2 & Ed & Hs2).
  { by rewrite (bk_lease _ _ _ _ _ Hbk). }
  { by rewrite (bk_lease _ _ _ _ _ Hbk), (sl_leases _ _ Hsa). }
  { by rewrite (sl_in_flight _ _ Hsa). }
  assert (current_limit_lease (ctx ++ [ll_lease_id l]) (push_lease now l ca) = Some l) as Hcur' by exact Hcur.
  exists (Session (set_released (set_lease (Some l') (set_lease (Some l) (set_rolled_back new_candidate)))) c2 ctx), w3, s3. split_and!.
  - unfold run_call, rollback, _capture_lease. cbn [se_cand with_cand new_candidate set_rolled_back cd_rolled_back cd_settled cd_lease cd_attached orb se_ctx se_client].
    rewrite Hcur'. erewrite ST_bind_ret by (apply guarded_ret; exact Erb). unfold _release_concurrency. cbn -[release].
    unfold release. rewrite last_snoc, Ed, removelast_last.
    assert (str_truthy (ll_lease_id l) = true) as -> by by rewrite (bk_lease _ _ _ _ _ Hbk).
    by erewrite ST_bind_ret by (erewrite ST_bind_ret by exact Erel; reflexivity).
  - intros k Hk. rewrite Hf3 by (by intros ->). specialize (HL2 k Hk). rewrite unbook_book_all in HL2 by exact Hcov.
    unfold unbook_in in HL2. case_decide; [|done]. by rewrite delete_id in HL2 by by apply HLf.
  - by rewrite Hf3.
  - intros Hlim. rewrite <- (sl_limits _ _ Hsb) in Hlim. rewrite (Hz3 Hlim), delete_insert_id; [done|].
    unfold zkeep. by apply map_lookup_filter_None_2; left.
  - simpl. by transitivity ca.
  - done.
Qed.
End props.

Module CandidateSample.
Import Sample ManagerSample.

Definition c0 := account 2.
Definition wd := reserve_with_decision conf off "boot" now rq true [] c0 w0.
Definition pushed := outcome (None, c0, [], w0) wd e0.
Definition rr : limit_reservation := default (LimitReservation None allow) pushed.1.1.1.
Definition ls : limit_lease := default (fresh_lease now c0 "m" "" false) (lr_lease rr).

Lemma reserved_pushed : wd e0 = (Ret ((Some rr, pushed.1.1.2, pushed.1.2), pushed.2), (wd e0).2).
Proof.
  assert (pushed.1.1.1 = Some rr) as <- by by vm_compute.
  unfold pushed. rewrite (outcome_eq (None, c0, [], w0)) at 1 by (by vm_compute). by rewrite <- !surjective_pairing.
Qed.

Lemma lease_pushed : lr_lease rr = Some ls.
Proof. by vm_compute. Qed.

(** A failed attempt whose pipeline releases and rolls back twice, the server
    being down. *)
Lemma candidate_balanced_witness :
  exists ss w' e', run_calls conf off now [Rollback; Release; Rollback; Commit None] (Session new_candidate pushed.1.1.2 pushed.1.2)
      pushed.2 (REnv (rv_store (wd e0).2) [NetDown; NetLost]) = (Ret (ss, w'), e') /\
    cd_settled (se_cand ss) && cd_rolled_back (se_cand ss) = false /\ same_slots c0 (se_client ss) /\ se_ctx ss = [].
Proof.
  destruct (candidate_balanced conf off "boot" now rq [] c0 w0 e0 rr ls pushed.1.1.2 pushed.1.2 pushed.2 (wd e0).2
    [Rollback; Release; Rollback; Commit None] pushed.2 (REnv (rv_store (wd e0).2) [NetDown; NetLost])
    reserved_pushed lease_pushed eq_refl ltac:(by apply not_elem_of_nil) ltac:(done)) as (ss & w' & e' & E & Hx & Hs).
  exists ss, w', e'. split; [exact E|]. split; [exact Hx|]. exact Hs.
Defined.

Lemma candidate_final_witness :
  exists ss', run_call conf off now (Commit None) (Session (Candidate false false true true false None) c0 []) w0 e0
    = (Ret (ss', w0), e0) /\ cd_released (se_cand ss') = true.
Proof.
  destruct (candidate_final conf off now (Commit None) (Session (Candidate false false true true false None) c0 []) w0 e0 eq_refl eq_refl)
    as (ss' & E & _ & _ & _ & _ & Hr).
  exists ss'. split; [exact E | exact Hr].
Defined.

Lemma failed_attempt_restores_witness :
  exists ss w' s', run_call conf off (now + sec 5) Rollback (Session new_candidate pushed.1.1.2 pushed.1.2) pushed.2 (wd e0).2
      = (Ret (ss, w'), REnv s' []) /\
    Linv (ledger_keys mk) s' L0 /\ view s' (k_meta mk) = None /\
    (0 < 2 -> as_zset (view s' (k_concurrency mk)) = Some (zkeep 0 now ∅)) /\ same_slots c0 (se_client ss) /\ se_ctx ss = [].
Proof.
  apply (failed_attempt_restores conf off "boot" now (now + sec 5) rq [] c0 w0 ∅ (reserve_script mk (make_argv (reserve_call off "boot" now rq false c0) wids now) (∅ : mapredis)).1 rr ls pushed.1.1.2 pushed.1.2 pushed.2 (wd e0).2 mk L0 ∅ eq_refl eq_refl).
  - done.
  - done.
  - done.
  - done.
  - done.
  - done.
  - by apply not_elem_of_nil.
  - done.
  - by vm_compute.
  - intros k _. apply holds_absent.
  - done.
  - by vm_compute.
  - done.
  - reflexivity.
  - by vm_compute.
  - exact reserved_pushed.
  - exact lease_pushed.
Defined.
End CandidateSample.
