(* ===== verification/TextFacts.v ===== *)
(** Lemmas on text: substrings, case and blanks, and integers written in
    decimal and read back by int and float. *)
From Stdlib Require Import DecimalString DecimalPos.
From S2P Require Import Prelude Json Text Windows.

(** ** Substrings *)

Lemma contains_spec (m s : string) : str_contains m s = true <-> exists x y, s = x +++ m +++ y.
Proof.
  induction s as [|c s IH].
  - simpl. rewrite orb_false_r, startswith_spec. split.
    + intros [t ->]. by exists "", t.
    + intros (x & y & Hs). destruct x; [by exists y|done].
  - change (str_contains m (String c s)) with (startswith m (String c s) || str_contains m s).
    rewrite orb_true_iff, startswith_spec, IH. split.
    + intros [[t ->]|(x & y & ->)]; [by exists "", t | by exists (String c x), y].
    + intros ([|a x] & y & Hs); [left; by exists y | right; injection Hs as -> ->; by exists x, y].
Qed.

Lemma contains_left (m a b : string) : str_contains m a = true -> str_contains m (a +++ b) = true.
Proof. rewrite !contains_spec. intros (x & y & ->). exists x, (y +++ b). by rewrite !append_assoc. Qed.
Lemma contains_right (m a b : string) : str_contains m b = true -> str_contains m (a +++ b) = true.
Proof. rewrite !contains_spec. intros (x & y & ->). exists (a +++ x), y. by rewrite !append_assoc. Qed.
Lemma contains_self (m a b : string) : str_contains m (a +++ m +++ b) = true.
Proof. rewrite contains_spec. by exists a, b. Qed.

(** A pattern that starts with no digit skips a numeral. *)
Lemma contains_digits (D t m : string) c :
  str_all digit D = true -> digit c = false ->
  str_contains (String c m) (D +++ t) = str_contains (String c m) t.
Proof.
  intros HD Hc. induction D as [|d D IH]; [done|]. simpl in HD. apply andb_prop in HD as [Hd HD].
  cbn [String.append str_contains startswith]. rewrite bool_decide_eq_false_2 by (intros ->; congruence).
  by rewrite <- (IH HD).
Qed.

(** A character outside the pattern separates its occurrences. *)
Lemma startswith_cut (m a b : string) c : str_mem c m = false -> startswith m (a +++ String c b) = startswith m a.
Proof.
  revert a. induction m as [|d m IH]; intros a Hm; [done|]. simpl in Hm. apply orb_false_elim in Hm as [Hd Hm].
  destruct a as [|x a]; simpl; [|by rewrite IH]. rewrite Hd. done.
Qed.
Lemma contains_cut (m a b : string) c :
  str_mem c m = false -> str_contains m (a +++ String c b) = str_contains m a || str_contains m b.
Proof.
  intros Hm. induction a as [|x a IH].
  - change ("" +++ String c b) with (String c b). cbn [str_contains].
    pose proof (startswith_cut m "" b c Hm) as Hs. simpl in Hs. by rewrite Hs, orb_false_r.
  - change (String x a +++ String c b) with (String x (a +++ String c b)). cbn [str_contains].
    rewrite IH, orb_assoc. f_equal. f_equal. exact (startswith_cut m (String x a) b c Hm).
Qed.

Lemma lower_append (a b : string) : lower (a +++ b) = lower a +++ lower b.
Proof. induction a as [|c a IH]; simpl; [done|by rewrite IH]. Qed.

Lemma rstrip_last (s : string) c : py_space c = false -> rstrip (s +++ String c "") = s +++ String c "".
Proof.
  intros Hc. induction s as [|d s IH]; simpl; [by rewrite Hc|]. rewrite IH.
  by destruct s.
Qed.

(** ** Integers *)

Lemma digit_cases c : digit c = true -> c ∈ ["0"; "1"; "2"; "3"; "4"; "5"; "6"; "7"; "8"; "9"]%char.
Proof. destruct c as [[] [] [] [] [] [] [] []]; vm_compute; try discriminate; intros _; repeat (first [left | right]). Qed.

(** Goals that evaluate on each digit. *)
Ltac each_digit H :=
  apply digit_cases in H; repeat (apply elem_of_cons in H as [->|H]; [by vm_compute|]); by apply not_elem_of_nil in H.

Lemma uint_digits d : str_all digit (NilEmpty.string_of_uint d) = true.
Proof. by induction d. Qed.

Lemma uint_value_acc d p : digits_value (Z.pos p) (NilEmpty.string_of_uint d) = Z.pos (Pos.of_uint_acc d p).
Proof.
  revert p. induction d; intros p; cbn [NilEmpty.string_of_uint digits_value Pos.of_uint_acc]; [done |..];
    match goal with |- context [digit_value ?c] => change (digit c) with true; cbv iota; let v := eval vm_compute in (digit_value c) in change (digit_value c) with v end;
    rewrite <- IHd; f_equal; lia.
Qed.

Lemma uint_value d : digits_value 0 (NilEmpty.string_of_uint d) = Z.of_N (Pos.of_uint d).
Proof.
  induction d; [done | exact IHd |..]; apply (uint_value_acc d).
Qed.

(** A non-negative numeral is a non-empty run of digits. *)
Lemma tostring_digits z : 0 <= z ->
  str_all digit (tostring z) = true /\ digits_value 0 (tostring z) = z /\ starts_digit (tostring z) = true.
Proof.
  intros Hz. destruct z as [|p|]; [done| |lia].
  unfold tostring, NilZero.string_of_int, Z.to_int, NilZero.string_of_uint.
  pose proof (DecimalPos.Unsigned.of_to p) as Hp.
  destruct (Pos.to_uint p) eqn:E; [by apply DecimalPos.Unsigned.to_uint_nonnil in E|..];
    rewrite uint_digits, uint_value, Hp; done.
Qed.

Lemma digits_no_space s : str_all digit s = true -> lstrip s = s /\ rstrip s = s.
Proof.
  induction s as [|c s IH]; [done|]. simpl. intros [Hc Hs]%andb_prop. destruct (IH Hs) as [_ ->].
  assert (py_space c = false) as -> by each_digit Hc.
  split; [done | by destruct s].
Qed.

Lemma lower_digits s : str_all digit s = true -> lower s = s.
Proof.
  induction s as [|c s IH]; [done|]. simpl. intros [Hc Hs]%andb_prop. rewrite (IH Hs). f_equal. each_digit Hc.
Qed.

Lemma digits_rest s : str_all digit s = true -> after_digits s = "".
Proof. induction s as [|c s IH]; [done|]. simpl. intros [-> Hs]%andb_prop. auto. Qed.

Lemma digits_scan s m : str_all digit s = true -> dec_scan m 0 false s = (digits_value m s, 0).
Proof. revert m. induction s as [|c s IH]; intros m; [done|]. simpl. intros [-> Hs]%andb_prop. auto. Qed.

(** [float(str(n))] is exactly [n]. *)
Lemma py_float_tostring z : 0 <= z -> py_float (tostring z) = Some (Dec z 0).
Proof.
  intros Hz. destruct (tostring_digits z Hz) as (Hd & Hv & Hs).
  destruct (digits_no_space _ Hd) as [Hl _]. pose proof (digits_rest _ Hd) as Hr. pose proof (digits_scan _ 0 Hd) as Hc.
  unfold py_float, py_float_ok. rewrite !Hl.
  destruct (tostring z) as [|c s] eqn:E; [done|]. simpl in Hs.
  assert (drop_sign (String c s) = String c s /\ negative (String c s) = false) as [Hu Hn].
  { each_digit Hs. }
  rewrite !Hu. unfold after_number. cbn [starts_digit]. rewrite Hs, Hr. rewrite orb_true_r.
  assert (startswith "inf" (lower (String c s)) = false /\ startswith "nan" (lower (String c s)) = false) as [-> ->].
  { each_digit Hs. }
  rewrite Hc, Hv. unfold signed. by rewrite Hn.
Qed.

Lemma json_int_tostring z : 0 <= z -> json_int (JNum (tostring z)) = Some z.
Proof. intros Hz. unfold json_int, int_literal. rewrite py_float_tostring, tonumber_tostring by done. f_equal. lia. Qed.

(** Doubles are rounded before they are truncated, and may be infinite. *)
Example int_of_doubles : json_int (JNum "1.9") = Some 1 /\ json_int (JNum "0.99999999999999999") = Some 1 /\
  json_int (JNum "-9007199254740993.0") = Some (-9007199254740992) /\ json_int (JNum "1e400") = None /\ json_int (JNum "1e-400") = Some 0.
Proof. by vm_compute. Qed.

Lemma json_truthy_tostring z : 0 < z -> json_truthy (JNum (tostring z)) = true.
Proof. intros Hz. unfold json_truthy. rewrite py_float_tostring by lia. by destruct z. Qed.

(** ** Stripping *)

Definition begins_blank (s : string) : bool := match s with String c _ => py_space c | EmptyString => false end.

Lemma lstrip_begins s : begins_blank (lstrip s) = false.
Proof. induction s as [|c s IH]; simpl; [done|]. destruct (py_space c) eqn:E; [done|]. by simpl. Qed.

Lemma lstrip_same s : begins_blank s = false -> lstrip s = s.
Proof. destruct s as [|c s]; simpl; [done|]. by intros ->. Qed.

Lemma rstrip_begins s : begins_blank s = false -> begins_blank (rstrip s) = false.
Proof. destruct s as [|c s]; simpl; [done|]. intros Hc. destruct (rstrip s); simpl; by rewrite ?Hc. Qed.

Lemma strip_begins s : begins_blank (strip s) = false.
Proof. apply rstrip_begins, lstrip_begins. Qed.

Lemma rstrip_idemp s : rstrip (rstrip s) = rstrip s.
Proof.
  induction s as [|c s IH]; simpl; [done|]. destruct (rstrip s) as [|c' r] eqn:E.
  - destruct (py_space c) eqn:Ec; simpl; by rewrite ?Ec.
  - change (rstrip (String c (String c' r))) with
      (match rstrip (String c' r) with EmptyString => if py_space c then EmptyString else String c EmptyString | r => String c r end).
    by rewrite IH.
Qed.
Lemma strip_idemp s : strip (strip s) = strip s.
Proof. unfold strip at 1. rewrite lstrip_same by apply strip_begins. apply rstrip_idemp. Qed.
