(* ===== verification/Pattern.v ===== *)
(** The regular expressions of server/retry_policy.py.

    A backtracking matcher in the order of Python's [re] (greedy tries more
    first, lazy fewer first, alternatives from the left), on code points.  [\d],
    [\s] and letter case are those of ASCII. *)
From S2P Require Import Prelude Json Text.

(** ** Code points of UTF-8 text *)

Definition byte (c : ascii) : Z := Z.of_nat (nat_of_ascii c).

Fixpoint code_points (s : string) : list Z :=
  match s with
  | EmptyString => []
  | String a s1 =>
      let x := byte a in
      if x <? 192 then x :: code_points s1
      else match s1 with
           | String b s2 =>
               if x <? 224 then (x - 192) * 64 + (byte b - 128) :: code_points s2
               else match s2 with
                    | String c s3 =>
                        if x <? 240 then (x - 224) * 4096 + (byte b - 128) * 64 + (byte c - 128) :: code_points s3
                        else match s3 with
                             | String d s4 =>
                                 (x - 240) * 262144 + (byte b - 128) * 4096 + (byte c - 128) * 64 + (byte d - 128) :: code_points s4
                             | EmptyString => [x]
                             end
                    | EmptyString => [x]
                    end
           | EmptyString => [x]
           end
  end.

(** ** Patterns *)

Inductive pattern :=
| Empty
| Then (p : Z -> bool) (next : pattern)                                      (* one character *)
| Many (greedy : bool) (p : Z -> bool) (lo : nat) (hi : option nat) (next : pattern)   (* p{lo,hi} *)
| Either (alternatives : list pattern) (next : pattern)                      (* (?:a|b) *)
| Number (next : pattern).                                                   (* (\d{4,}) *)

Definition is_digit (c : Z) : bool := (48 <=? c) && (c <=? 57).
Definition is_space (c : Z) : bool := ((9 <=? c) && (c <=? 13)) || (c =? 32) || ((28 <=? c) && (c <=? 31)).
Definition fold_case (c : Z) : Z := if (65 <=? c) && (c <=? 90) then c + 32 else c.

(** [p{lo,hi}]: what follows is tried after each admissible number of characters. *)
Fixpoint repeat_match {A} (greedy : bool) (p : Z -> bool) (lo hi : nat) (taken : list Z)
    (s : list Z) (k : list Z -> list Z -> option A) : option A :=
  let stop := if (lo =? 0)%nat then k (rev taken) s else None in
  let more := match s, hi with
              | c :: s', S hi => if p c then repeat_match greedy p (pred lo) hi (c :: taken) s' k else None
              | _, _ => None
              end in
  if greedy then match more with Some r => Some r | None => stop end
  else match stop with Some r => Some r | None => more end.

(** The first match from the start of [s]: its group, if the pattern has one. *)
Fixpoint match_here (r : pattern) (group : option (list Z)) (s : list Z)
    (k : option (list Z) -> list Z -> option (option (list Z))) : option (option (list Z)) :=
  match r with
  | Empty => k group s
  | Then p next => match s with c :: s' => if p c then match_here next group s' k else None | [] => None end
  | Many greedy p lo hi next =>
      repeat_match greedy p lo (default (length s) hi) [] s (fun _ s' => match_here next group s' k)
  | Either alternatives next =>
      (fix first (l : list pattern) : option (option (list Z)) :=
         match l with
         | [] => None
         | a :: l' =>
             match match_here a group s (fun g s' => match_here next g s' k) with
             | Some x => Some x
             | None => first l'
             end
         end) alternatives
  | Number next =>
      repeat_match true is_digit 4 (length s) [] s (fun taken s' => match_here next (Some taken) s' k)
  end.

(** [pattern.search(text).group(1)]: leftmost match. *)
Fixpoint search (r : pattern) (s : list Z) : option (list Z) :=
  match match_here r None s (fun g _ => Some g) with
  | Some g => g
  | None => match s with _ :: s' => search r s' | [] => None end
  end.

(** [int(digits)] *)
Definition number_of (l : list Z) : Z := fold_left (fun acc c => 10 * acc + (c - 48)) l 0.

(** ** Notation of the patterns *)

Definition one (c : Z) (x : Z) : bool := fold_case x =? c.
Definition lit (text : string) (next : pattern) : pattern :=
  fold_right (fun c r => Then (one c) r) next (code_points text).
Definition opt (text : string) (next : pattern) : pattern := Either [lit text Empty; Empty] next.
Definition lazy (p : Z -> bool) (hi : nat) (next : pattern) : pattern := Many false p 0 (Some hi) next.
Definition no_digit (c : Z) : bool := negb (is_digit c).
Definition spaces (next : pattern) : pattern := Many true is_space 0 None next.

(** [s?] at the end of "tokens?" *)
Definition tokens (next : pattern) : pattern := lit "token" (opt "s" next).

(** ** _CONTEXT_WINDOW_PATTERNS *)

(** [(?:maximum |max\.? )?context length[^0-9]{0,40}?(\d{4,})\s*tokens?] *)
Definition pattern_context_length : pattern :=
  Either [lit "maximum " Empty; lit "max" (opt "." (lit " " Empty)); Empty]
    (lit "context length" (lazy no_digit 40 (Number (spaces (tokens Empty))))).
(** [max(?:imum)?[^0-9]{0,12}?(\d{4,})[^0-9]{0,4}?tokens?] *)
Definition pattern_max : pattern :=
  lit "max" (opt "imum" (lazy no_digit 12 (Number (lazy no_digit 4 (tokens Empty))))).
(** [(\d{4,})\s*tokens?[^0-9]{0,4}?limit] *)
Definition pattern_tokens_limit : pattern := Number (spaces (tokens (lazy no_digit 4 (lit "limit" Empty)))).
(** [context[_\s-]*window[^0-9;,(]{0,40}?(\d{4,})] *)
Definition pattern_context_window : pattern :=
  lit "context" (Many true (fun c => (c =? 95) || is_space c || (c =? 45)) 0 None
    (lit "window" (lazy (fun c => no_digit c && negb (bool_decide (c ∈ [59; 44; 40]))) 40 (Number Empty)))).
(** [(?:supports?|supports up to)\s+(\d{4,})\s+tokens?] *)
Definition pattern_supports : pattern :=
  Either [lit "support" (opt "s" Empty); lit "supports up to" Empty]
    (Many true is_space 1 None (Number (Many true is_space 1 None (tokens Empty)))).
(** [(?:令牌|上下文|最大)[^\d]{0,18}?(\d{4,})] *)
Definition pattern_chinese : pattern :=
  Either [lit "令牌" Empty; lit "上下文" Empty; lit "最大" Empty] (lazy no_digit 18 (Number Empty)).

Definition _CONTEXT_WINDOW_PATTERNS : list pattern :=
  [pattern_context_length; pattern_max; pattern_tokens_limit; pattern_context_window; pattern_supports; pattern_chinese].

Example search_openai :
  number_of <$> search pattern_context_length (code_points "This model's Maximum context length is 202752 tokens, however")
  = Some 202752.
Proof. vm_compute. reflexivity. Qed.
Example search_chinese : number_of <$> search pattern_chinese (code_points "超出最大上下文长度: 131072") = Some 131072.
Proof. vm_compute. reflexivity. Qed.
Example search_small : search pattern_max (code_points "max 500 tokens") = None.
Proof. vm_compute. reflexivity. Qed.
Example search_backtracks : number_of <$> search pattern_max (code_points "maximum 123456 tok, max: 20480 tokens") = Some 20480.
Proof. vm_compute. reflexivity. Qed.
