(* ===== verification/Retry.v ===== *)
(** server/retry_policy.py: what a failed attempt leads to.

    Error details of upstream services are parsed, recognised overflow errors
    are made uniform, and a failure is classified for the outer loop (next
    candidate) and the inner loop (same account again).  Configuration is passed
    in, as in the code.  [None] is an exception. *)
From S2P Require Import Prelude Json Text Pattern.

(** ** Error details *)

(** type, code, param, message, in lower case *)
Record error_fields := ErrorFields { ef_type : string; ef_code : string; ef_param : string; ef_message : string }.

Definition _PARAMETER_MARKERS : list string :=
  ["invalid_request_error"; "invalid_request"; "invalid parameter"; "invalid_param";
   "unsupported parameter"; "unsupported_param"; "unsupported value"; "invalid value";
   "invalid messages"; "invalid message"; "invalid tools"; "invalid tool"; "invalid schema";
   "json schema"; "context_too_large"; "context_length_exceeded"; "context window";
   "context length"; "maximum context"; "too many tokens"; "max tokens"; "token limit";
   "request too large"; "payload too large"].

(** ** Recognised errors *)

Record canonical_rule := CanonicalRule {
  cr_category : string; cr_trigger_status_codes : list Z; cr_codes : list string; cr_markers : list string;
  cr_type : string; cr_code : string; cr_status_code : Z; cr_message : string;
}.
Record canonical_error := CanonicalError {
  ce_category : string; ce_type : string; ce_code : string; ce_status_code : Z; ce_message : string; ce_window : option Z;
}.

Definition rule_thinking_budget_invalid : canonical_rule :=
  CanonicalRule "thinking_budget_invalid" []
    []
    ["budget_tokens must be less than max_tokens"; "budget_tokens must be smaller than max_tokens"]
    "invalid_request_error" "invalid_request_error" 400
    "thinking.budget_tokens must be less than max_tokens".

Definition rule_max_tokens_exceeded : canonical_rule :=
  CanonicalRule "max_tokens_exceeded" []
    ["max_tokens_exceeded"]
    ["max_tokens exceeds"; "max_tokens too large"; "requested max_tokens exceeds";
     "max_tokens exceeds remaining context"]
    "invalid_request_error" "max_tokens_exceeded" 400
    "max_tokens exceeds remaining context window. Please lower max_tokens or compact the conversation.".

Definition rule_prompt_too_long : canonical_rule :=
  CanonicalRule "prompt_too_long" []
    ["prompt_too_long"]
    ["prompt is too long"; "prompt too long"]
    "invalid_request_error" "prompt_too_long" 400
    "Prompt is too long".

Definition rule_input_too_long : canonical_rule :=
  CanonicalRule "input_too_long" []
    ["input_token_limit_exceeded"; "input_too_long"]
    ["input is too long"; "input tokens exceed"; "输入太长"]
    "invalid_request_error" "input_too_long" 400
    "Input is too long for requested model: it exceeds the model's context window".

Definition rule_model_context_limit : canonical_rule :=
  CanonicalRule "model_context_limit" []
    ["model_context_limit"]
    ["model context window"; "model's context window"; "model context limit"]
    "invalid_request_error" "model_context_limit" 400
    "Model context window exceeded".

Definition rule_context_length_exceeded : canonical_rule :=
  CanonicalRule "context_length_exceeded" [413]
    ["context_too_large"; "context_length_exceeded"; "request_too_large"; "payload_too_large"]
    ["context_too_large"; "context_length_exceeded"; "context window"; "context length";
     "maximum context length"; "too many tokens"; "token limit"; "reduce the length";
     "request too large"; "payload too large"; "conversation exceeds"; "history is too long";
     "conversation is too long"; "messages is too long"; "messages too long"; "conversation too long";
     "input length exceeds"; "exceeds the maximum token"; "exceeds the token limit";
     "token count exceeds"; "exceed the context"; "超出上下文"; "上下文超"; "上下文过长"; "上下文超限"; "上下文长度超过";
     "超长对话"; "对话过长"; "对话太长"; "历史过长"; "历史太长"; "输入过长"; "内容过长"; "内容太长"]
    "invalid_request_error" "context_length_exceeded" 400
    "Your input exceeds this model's maximum context window. Please reduce the length of the conversation.".

Definition _ERROR_CANONICAL_RULES : list canonical_rule :=
  [rule_thinking_budget_invalid; rule_max_tokens_exceeded; rule_prompt_too_long; rule_input_too_long; rule_model_context_limit; rule_context_length_exceeded].

Definition OVERFLOW_CATEGORIES : list string :=
  ["prompt_too_long"; "input_too_long"; "model_context_limit"; "context_length_exceeded"; "max_tokens_exceeded"].
Definition _OVERFLOW_CODES : list string :=
  ["prompt_too_long"; "input_too_long"; "model_context_limit"; "context_length_exceeded"; "max_tokens_exceeded"; "context_too_large"].
Definition _CONTEXT_WINDOW_MIN_TOKENS : Z := 1024.

Definition rule_result (window : option Z) (r : canonical_rule) : canonical_error :=
  CanonicalError (cr_category r) (cr_type r) (cr_code r) (cr_status_code r) (cr_message r) window.
Definition is_overflow (e : canonical_error) : bool := bool_decide (ce_category e ∈ OVERFLOW_CATEGORIES).

(** with_context_window: the size is appended after the fixed text. *)
Definition with_context_window (message : string) (window : option Z) : string :=
  let value := default 0 window in
  if value <=? 0 then message else
  let suffix := " (context window: " +++ tostring value +++ " tokens)" in
  if str_contains suffix message then message else message +++ suffix.
Definition display_message (e : canonical_error) : string := with_context_window (ce_message e) (ce_window e).

(** overflow_code_of *)
Definition overflow_code_of (error_code : option string) : option string :=
  let normalized := lower (strip (default "" error_code)) in
  if bool_decide (normalized ∈ _OVERFLOW_CODES) then Some normalized else None.

(** [json.dumps(v, ensure_ascii=False)] *)
Fixpoint dump_value (v : json) : string :=
  match v with
  | JNull => "null"
  | JBool b => if b then "true" else "false"
  | JNum t => t
  | JStr s => quote s
  | JArr l => "[" +++ join ", " (map dump_value l) +++ "]"
  | JObj d => "{" +++ join ", " (map (fun kv => quote kv.1 +++ ": " +++ dump_value kv.2) d) +++ "}"
  end.

(** ** Configured rules *)

Definition as_lower_str_list (py_str : json -> string) (value : option json) : list string :=
  let items := match value with
               | Some (JStr s) => [JStr s]
               | Some (JBool b) => [JBool b]
               | Some (JNum t) => if int_literal t then [JNum t] else []
               | Some (JArr l) => l
               | _ => []
               end in
  omap (fun item => let s := strip (json_str_of py_str item) in if str_truthy s then Some (lower s) else None) items.

Definition as_int_set (value : option json) : list Z :=
  let items := match value with
               | Some (JStr s) => [JStr s]
               | Some (JBool b) => [JBool b]
               | Some (JNum t) => if int_literal t then [JNum t] else []
               | Some (JArr l) => l
               | _ => []
               end in
  omap json_int items.

(** ** Failures *)

Inductive failure_action := RETRY | RETURN_CLIENT_ERROR | STREAM_ERROR_AND_STOP | CANCEL_AND_STOP | NO_RESOURCE_429.
#[export] Instance failure_action_eq_dec : EqDecision failure_action.
Proof. solve_decision. Defined.

Record failure_decision := FailureDecision {
  fd_action : failure_action; fd_exclusion_scope : option string; fd_rollback_reservation : bool;
  fd_client_status : option Z; fd_client_detail : option json; fd_reason : string;
}.

Record failure_input := FailureInput {
  fi_is_http_exception : bool; fi_status_code : option Z; fi_detail : json;
  fi_downstream_started : bool; fi_stream : bool; fi_cancelled : bool; fi_candidates_remaining : bool;
  fi_upstream_started : bool; fi_non_retryable_override : option bool; fi_non_retryable_rules : list (string * json);
  fi_transient_exception : bool; fi_retryable_incomplete_response : bool; fi_extra_retry_status_codes : list Z;
  fi_overflow_canonical_active : bool;
}.

Definition CLIENT_ERROR_STATUS_CODES : list Z := [400; 401; 403; 404; 409; 413; 422; 429].

Section retry.
(** [py_str] stands for str of floats and containers. *)
Variable py_str : json -> string.

(** [str(d.get(k) or "").lower()] *)
Definition lower_text (d : list (string * json)) (k : string) : string := lower (get_text py_str d k).

(** The fields of a decoded object. *)
Definition object_fields (d : list (string * json)) : error_fields :=
  match obj_get "error" d with
  | Some (JObj e) =>
      let message := get_text py_str e "message" in
      ErrorFields (lower_text e "type") (lower_text e "code") (lower_text e "param")
        (lower (if str_truthy message then message else py_str (JObj d)))
  | _ => ErrorFields (lower_text d "type") (lower_text d "code") (lower_text d "param") (lower (py_str (JObj d)))
  end.

(** parse_error_detail: text that decodes to something that is not an object has no [get]. *)
Definition parse_error_detail (detail : json) : option error_fields :=
  match detail with
  | JObj d => Some (object_fields d)
  | JStr s =>
      match loads s with
      | None => Some (ErrorFields "" "" "" (lower s))
      | Some (JObj d) => Some (object_fields d)
      | Some _ => None
      end
  | v => Some (ErrorFields "" "" "" (lower (json_str_of py_str v)))
  end.

Definition haystack_of (f : error_fields) : string :=
  ef_type f +++ " " +++ ef_code f +++ " " +++ ef_param f +++ " " +++ ef_message f.
Definition contains_any (markers : list string) (text : string) : bool := existsb (fun m => str_contains m text) markers.

Definition is_protocol_parameter_error (f : error_fields) : bool :=
  str_truthy (ef_param f) || contains_any _PARAMETER_MARKERS (haystack_of f).

Definition is_non_retryable_upstream_error (status_code : Z) (detail : json) (rules : list (string * json)) : option bool :=
  f ← parse_error_detail detail;
  Some (is_protocol_parameter_error f &&
    (bool_decide (status_code ∈ as_int_set (obj_get "status_codes" rules)) ||
     (str_truthy (ef_type f) && bool_decide (ef_type f ∈ as_lower_str_list py_str (obj_get "types" rules))) ||
     (str_truthy (ef_code f) && bool_decide (ef_code f ∈ as_lower_str_list py_str (obj_get "codes" rules))) ||
     (str_truthy (ef_param f) && bool_decide (ef_param f ∈ as_lower_str_list py_str (obj_get "params" rules))) ||
     contains_any (as_lower_str_list py_str (obj_get "markers" rules)) (haystack_of f))).

(** ** The context window *)

Definition _stringify_detail (detail : json) : string :=
  match detail with
  | JStr s => s
  | JObj _ | JArr _ => dump_value detail
  | v => if json_truthy v then json_str_of py_str v else ""
  end.

(** The first pattern with a large enough number. *)
Definition pattern_window (text : string) : option Z :=
  head (omap (fun p => n ← number_of <$> search p (code_points text);
                       if _CONTEXT_WINDOW_MIN_TOKENS <=? n then Some n else None) _CONTEXT_WINDOW_PATTERNS).

(** [int(raw or 0)], kept when it is large enough. *)
Definition window_field (raw : option json) : option Z :=
  value ← (match raw with Some v => if json_truthy v then json_int v else Some 0 | None => Some 0 end);
  if _CONTEXT_WINDOW_MIN_TOKENS <=? value then Some value else None.

Definition _explicit_context_window (detail : json) : option Z :=
  match detail with
  | JObj d =>
      let inner := match obj_get "error" d with Some (JObj e) => window_field (obj_get "context_window" e) | _ => None end in
      match inner with
      | Some v => Some v
      | None => window_field (obj_get "context_window" d)
      end
  | _ => None
  end.

Definition extract_context_window (detail : json) : option Z :=
  match _explicit_context_window detail with
  | Some v => Some v
  | None =>
      let text := _stringify_detail detail in
      if str_truthy text then pattern_window text else None
  end.

(** ** Canonical errors *)

Definition _is_structured_error_detail (detail : json) : bool :=
  match detail with
  | JObj _ => true
  | JStr s =>
      match lstrip s with
      | String "{" _ => match loads s with Some (JObj _) => true | _ => false end
      | _ => false
      end
  | _ => false
  end.

(** Three passes over the rules: code, markers, status code. *)
Definition canonicalize_upstream_error (status_code : option Z) (detail : json) : option (option canonical_error) :=
  f ← parse_error_detail detail;
  let window := extract_context_window detail in
  let by_code := if str_truthy (ef_code f)
                 then List.find (fun r => bool_decide (ef_code f ∈ cr_codes r)) _ERROR_CANONICAL_RULES else None in
  let by_marker := List.find (fun r => contains_any (cr_markers r) (haystack_of f)) _ERROR_CANONICAL_RULES in
  let by_status := match status_code with
                   | Some n => if _is_structured_error_detail detail
                               then List.find (fun r => bool_decide (n ∈ cr_trigger_status_codes r)) _ERROR_CANONICAL_RULES
                               else None
                   | None => None
                   end in
  Some (rule_result window <$> match by_code, by_marker with
                               | Some r, _ => Some r
                               | None, Some r => Some r
                               | None, None => by_status
                               end).

Definition canonical_overflow_error (status_code : option Z) (detail : json) : option (option canonical_error) :=
  c ← canonicalize_upstream_error status_code detail;
  Some (match c with Some e => if is_overflow e then Some e else None | None => None end).

(** ** Classification *)

Definition decision (action : failure_action) (rollback : bool) (reason : string) : failure_decision :=
  FailureDecision action None rollback None None reason.

(** Is the request itself at fault?  Only asked of HTTP errors with a status. *)
Definition request_at_fault (inp : failure_input) : option (option Z * bool) :=
  match fi_is_http_exception inp, fi_status_code inp with
  | true, Some status =>
      non_retryable ← (match fi_non_retryable_override inp with
                       | Some b => Some b
                       | None => is_non_retryable_upstream_error status (fi_detail inp) (fi_non_retryable_rules inp)
                       end);
      Some (Some status, non_retryable)
  | _, _ => Some (None, false)
  end.

Definition classify_failure (inp : failure_input) : option failure_decision :=
  if fi_cancelled inp then Some (decision CANCEL_AND_STOP true "client_cancelled")
  else if fi_downstream_started inp then Some (decision STREAM_ERROR_AND_STOP false "downstream_already_started")
  else
    '(status, at_fault) ← request_at_fault inp;
    let passes := match status with
                  | Some n => at_fault && (bool_decide (n ∈ CLIENT_ERROR_STATUS_CODES) || fi_overflow_canonical_active inp)
                  | None => false
                  end in
    if passes
    then Some (FailureDecision RETURN_CLIENT_ERROR None true status (Some (fi_detail inp)) "non_retryable_client_error")
    else
      let retryable := fi_is_http_exception inp || fi_transient_exception inp || fi_retryable_incomplete_response inp in
      if retryable && fi_candidates_remaining inp
      then Some (FailureDecision RETRY (Some "candidate") true None None "retryable_failure")
      else Some (decision NO_RESOURCE_429 true "candidates_exhausted").

Definition classify_inner_retry (inp : failure_input) : option bool :=
  if fi_cancelled inp || fi_downstream_started inp then Some false
  else
    fault ← request_at_fault inp;
    if (fault : option Z * bool).2 then Some false
    else if fi_retryable_incomplete_response inp then Some false
    else if fi_transient_exception inp then Some true
    else match fi_is_http_exception inp, fi_status_code inp with
         | true, Some n => Some ((n =? 429) || (500 <=? n) || bool_decide (n ∈ fi_extra_retry_status_codes inp))
         | _, _ => Some false
         end.
End retry.
