(* ===== verification/JsonFacts.v ===== *)
(** Reading back what [json.dumps] wrote: every value whose numbers are JSON
    numbers is its own reading. *)
From S2P Require Import Prelude Json Text Windows Retry.

Lemma json_nested_ind (P : json -> Prop) : (forall v, match v with JArr _ | JObj _ => False | _ => True end -> P v) ->
  (forall l, Forall P l -> P (JArr l)) -> (forall d, Forall (fun kv => P kv.2) d -> P (JObj d)) -> forall v, P v.
Proof.
  intros Hv Hl Hd. fix IH 1. intros v. destruct v as [|b|t|s|l|d]; [by apply Hv..| |].
  - apply Hl. induction l; constructor; [apply IH|done].
  - apply Hd. induction d; constructor; [apply IH|done].
Qed.

(** Numbers are written with digits, signs, points and exponents. *)
Fixpoint plain_numbers (v : json) : bool :=
  match v with
  | JNum t => number_ok t && str_all number_char t
  | JArr l => forallb plain_numbers l
  | JObj d => forallb (fun kv => plain_numbers kv.2) d
  | _ => true
  end.
Lemma number_char_cases c : number_char c = true -> json_space c = false /\ c <> DQ /\ c <> "{"%char /\ c <> "["%char /\ c <> "n"%char /\ c <> "t"%char /\ c <> "f"%char /\ c <> "N"%char /\ c <> "I"%char.
Proof. destruct c as [[] [] [] [] [] [] [] []]; intros H; try (by vm_compute in H); by split_and!. Qed.
Lemma number_head t : number_ok t = true -> str_all number_char t = true -> exists c t', t = String c t' /\ number_char c = true /\
  forall rest, startswith "-Infinity" (t +++ rest) = false.
Proof.
  destruct t as [|c t]; [done|]. intros Hok Hall. exists c, t. pose proof Hall as Hall'. simpl in Hall'. apply andb_true_iff in Hall' as [Hc Ht].
  do 2 (split; [done|]). intros rest. cbn [String.append startswith]. destruct (bool_decide_reflect ("-"%char = c)) as [<-|]; [|done].
  destruct t as [|c' t]; [done|]. cbn [String.append]. rewrite andb_true_l. simpl in Ht. apply andb_true_iff in Ht as [Hc' _].
  by rewrite (bool_decide_eq_false_2 ("I"%char = c')) by (intros <-; by vm_compute in Hc').
Qed.
(** A text a number does not run into. *)
Definition number_ends (s : string) : Prop := match s with String c _ => number_char c = false | EmptyString => True end.
Lemma span_number_app t rest : str_all number_char t = true -> number_ends rest -> span_number (t +++ rest) = (t, rest).
Proof.
  intros Ht Hr. induction t as [|c t IH]; simpl in *.
  - destruct rest as [|c r]; [done|]. simpl. by rewrite Hr.
  - apply andb_true_iff in Ht as [Hc Ht]. by rewrite Hc, IH.
Qed.
(** What a value starts with. *)
Lemma dump_head v : plain_numbers v = true -> exists c s, dump_value v = String c s /\ json_space c = false /\ c <> "]"%char /\ c <> "}"%char.
Proof.
  destruct v as [|b|t|s|l|d]; cbn [dump_value plain_numbers]; intros H; try (by do 2 eexists).
  - destruct b; by do 2 eexists.
  - apply andb_true_iff in H as [Ht Hn]. destruct (number_head t Ht Hn) as (c & t' & -> & Hc & _). destruct (number_char_cases c Hc) as (Hs & _).
    exists c, t'. split_and!; try done; intros ->; by vm_compute in Hc.
Qed.
Lemma skip_dump v rest : plain_numbers v = true -> skip_ws (dump_value v +++ rest) = dump_value v +++ rest.
Proof. intros Hv. destruct (dump_head v Hv) as (c & s & -> & Hc & _). simpl. by rewrite Hc. Qed.
Lemma read_value_space fuel s : read_value fuel (String " " s) = read_value fuel s.
Proof. destruct fuel; done. Qed.
Lemma read_members_space fuel s : read_members fuel (String " " s) = read_members fuel s.
Proof. destruct fuel; done. Qed.
Lemma read_items_space fuel s : read_items fuel (String " " s) = read_items fuel s.
Proof. destruct fuel as [|fuel]; [done|]. cbn [read_items]. by rewrite read_value_space. Qed.

(** Enough fuel for a value. *)
Fixpoint need (v : json) : nat :=
  match v with
  | JArr l => S (foldr (fun x n => S (Nat.max (need x) n)) 0 l)
  | JObj d => S (foldr (fun kv n => S (Nat.max (need kv.2) n)) 0 d)
  | _ => 1
  end%nat.
Definition reads (v : json) : Prop := plain_numbers v = true -> forall fuel rest, (need v <= fuel)%nat -> number_ends rest ->
  read_value fuel (dump_value v +++ rest) = Some (v, rest).
Lemma reads_number t : reads (JNum t).
Proof.
  intros H fuel rest Hf Hr. cbn [plain_numbers dump_value need] in *. apply andb_true_iff in H as [Ht Hn]. destruct fuel as [|fuel]; [lia|].
  destruct (number_head t Ht Hn) as (c & t' & -> & Hc & Hinf). specialize (Hinf rest).
  destruct (number_char_cases c Hc) as (Hs & H1 & H2 & H3 & H4 & H5 & H6 & H7 & H8).
  pose proof (span_number_app (String c t') rest Hn Hr) as Hspan. cbn [String.append] in *.
  cbn [read_value]. change (skip_ws (String c (t' +++ rest))) with (if json_space c then skip_ws (t' +++ rest) else String c (t' +++ rest)). rewrite Hs. cbv iota.
  rewrite !decide_False, Hinf by done. cbn [startswith]. rewrite !bool_decide_eq_false_2 by congruence. cbn [andb].
  by rewrite Hspan, Ht.
Qed.
Definition dump_member (kv : string * json) : string := quote kv.1 +++ ": " +++ dump_value kv.2.
Lemma ends_after (c : ascii) rest : number_char c = false -> number_ends (String c rest).
Proof. done. Qed.
Lemma read_items_dump l x rest fuel : Forall reads (x :: l) -> forallb plain_numbers (x :: l) = true ->
  (foldr (fun x n => S (Nat.max (need x) n)) 0 (x :: l) <= fuel)%nat ->
  read_items fuel (join ", " (map dump_value (x :: l)) +++ String "]" rest) = Some (x :: l, rest).
Proof.
  revert x fuel. induction l as [|y l IH]; intros x fuel [Hx Hl]%Forall_cons [Hp Hps]%andb_true_iff Hf; (destruct fuel as [|fuel]; [simpl in Hf; lia|]).
  - cbn [map join read_items]. simpl in Hf. rewrite (Hx Hp fuel (String "]" rest)) by (done || lia). done.
  - change (join ", " (map dump_value (x :: y :: l))) with (dump_value x +++ ", " +++ join ", " (map dump_value (y :: l))). rewrite !append_assoc.
    cbn [foldr] in Hf. cbn [read_items]. rewrite (Hx Hp fuel) by (done || lia). cbn [mbind option_bind].
    change (", " +++ ?z) with (String "," (String " " z)). change (skip_ws (String "," ?z)) with (String "," z). cbv iota.
    rewrite read_items_space, (IH y fuel Hl Hps) by (cbn [foldr]; lia). done.
Qed.
Lemma read_members_step fuel k v rest : reads v -> plain_numbers v = true -> (need v <= fuel)%nat -> number_ends rest ->
  read_members (S fuel) (dump_member (k, v) +++ rest) =
  match skip_ws rest with
  | String "," r => '(d, r) ← read_members fuel r; Some ((k, v) :: d, r)
  | String "}" r => Some ([(k, v)], r)
  | _ => None
  end.
Proof.
  intros Hv Hp Hf Hr. rewrite read_members_eq. unfold dump_member, quote. cbn [fst snd]. rewrite !append_assoc.
  change (String DQ ?x +++ ?y) with (String DQ (x +++ y)). change (skip_ws (String DQ ?x)) with (String DQ x). cbv iota. rewrite decide_True by done.
  rewrite append_assoc. change (String DQ "" +++ ?x) with (String DQ x). rewrite read_escape_all. cbn [mbind option_bind].
  change (": " +++ ?x) with (String ":" (String " " x)). change (skip_ws (String ":" ?x)) with (String ":" x). cbv iota.
  by rewrite read_value_space, Hv.
Qed.
Lemma read_members_value l kv rest fuel : Forall (fun kv => reads kv.2) (kv :: l) -> forallb (fun kv => plain_numbers kv.2) (kv :: l) = true ->
  (foldr (fun kv n => S (Nat.max (need kv.2) n)) 0 (kv :: l) <= fuel)%nat ->
  read_members fuel (join ", " (map dump_member (kv :: l)) +++ String "}" rest) = Some (kv :: l, rest).
Proof.
  revert kv fuel. induction l as [|kv' l IH]; intros [k v] fuel [Hx Hl]%Forall_cons [Hp Hps]%andb_true_iff Hf; (destruct fuel as [|fuel]; [simpl in Hf; lia|]).
  - cbn [map join]. simpl in Hf. rewrite read_members_step by (done || (simpl; lia)). done.
  - change (join ", " (map dump_member ((k, v) :: kv' :: l))) with (dump_member (k, v) +++ ", " +++ join ", " (map dump_member (kv' :: l))). rewrite !append_assoc.
    cbn [foldr] in Hf. rewrite read_members_step by (done || (simpl in *; lia)).
    change (", " +++ ?z) with (String "," (String " " z)). change (skip_ws (String "," ?z)) with (String "," z). cbv iota.
    rewrite read_members_space, (IH kv' fuel Hl Hps) by (cbn [foldr]; lia). done.
Qed.
Lemma members_head l kv rest : exists s, join ", " (map dump_member (kv :: l)) +++ rest = String DQ s.
Proof. destruct l; simpl; unfold dump_member, quote; cbn [String.append]; by eexists. Qed.
Lemma items_head x l rest : plain_numbers x = true -> exists c s, join ", " (map dump_value (x :: l)) +++ rest = String c s /\ json_space c = false /\ c <> "]"%char.
Proof.
  intros Hx. destruct (dump_head x Hx) as (c & s & Hc & Hs & H1 & _). destruct l; simpl; rewrite Hc; cbn [String.append]; do 2 eexists; (split; [done|done]).
Qed.
Lemma read_dump v : reads v.
Proof.
  induction v as [v Hv|l IH|d IH] using json_nested_ind.
  - destruct v as [|[]|t|s|l|d]; try done; try (intros _ [|fuel] rest Hf Hr; [simpl in Hf; lia|done]); [apply reads_number|].
    intros _ [|fuel] rest Hf Hr; [simpl in Hf; lia|]. apply read_value_quote.
  - intros Hp [|fuel] rest Hf Hr; [simpl in Hf; lia|]. destruct l as [|x l]; [done|]. cbn [plain_numbers need] in Hp, Hf.
    change (dump_value (JArr (x :: l)) +++ rest) with (String "[" ((join ", " (map dump_value (x :: l)) +++ "]") +++ rest)). rewrite append_assoc.
    pose proof Hp as [Hx _]%andb_true_iff. destruct (items_head x l ("]" +++ rest) Hx) as (c & s & Hc & Hs & Hne).
    cbn [read_value]. change (skip_ws (String "[" ?z)) with (String "[" z). cbv iota. rewrite !decide_False, decide_True by done.
    assert (Hskip : skip_ws (join ", " (map dump_value (x :: l)) +++ "]" +++ rest) = String c s) by (rewrite Hc; simpl; by rewrite Hs).
    rewrite Hskip. change ("]" +++ rest) with (String "]" rest). rewrite (read_items_dump l x rest fuel IH Hp) by (simpl in *; lia).
    cbn [mbind option_bind]. destruct c as [[] [] [] [] [] [] [] []]; done.
  - intros Hp [|fuel] rest Hf Hr; [simpl in Hf; lia|]. destruct d as [|kv d]; [done|]. cbn [plain_numbers need] in Hp, Hf.
    change (dump_value (JObj (kv :: d)) +++ rest) with (String "{" ((join ", " (map dump_member (kv :: d)) +++ "}") +++ rest)). rewrite append_assoc.
    destruct (members_head d kv ("}" +++ rest)) as (s & Hc).
    cbn [read_value]. change (skip_ws (String "{" ?z)) with (String "{" z). cbv iota. rewrite !decide_False, decide_True by done.
    assert (Hskip : skip_ws (join ", " (map dump_member (kv :: d)) +++ "}" +++ rest) = String DQ s) by (by rewrite Hc).
    rewrite Hskip. change (match DQ with "}"%char => ?a | _ => ?x end) with x.
    change ("}" +++ rest) with (String "}" rest). by rewrite (read_members_value d kv rest fuel IH Hp) by (simpl in *; lia).
Qed.
Lemma need_items l : Forall (fun v => need v <= String.length (dump_value v))%nat l ->
  (foldr (fun x n => S (Nat.max (need x) n)) 0 l <= S (String.length (join ", " (map dump_value l))))%nat.
Proof.
  induction l as [|x l IH]; [simpl; lia|]. intros [Hx Hl]%Forall_cons. specialize (IH Hl). destruct l as [|y l]; [simpl in *; lia|].
  change (join ", " (map dump_value (x :: y :: l))) with (dump_value x +++ ", " +++ join ", " (map dump_value (y :: l))).
  rewrite !length_append. cbn [foldr] in *. change (String.length ", ") with 2%nat. lia.
Qed.
Lemma need_members d : Forall (fun kv => need kv.2 <= String.length (dump_value kv.2))%nat d ->
  (foldr (fun kv n => S (Nat.max (need kv.2) n)) 0 d <= S (String.length (join ", " (map dump_member d))))%nat.
Proof.
  induction d as [|[k v] d IH]; [simpl; lia|]. intros [Hx Hl]%Forall_cons. specialize (IH Hl). simpl in Hx.
  assert (Hm : (need v <= String.length (dump_member (k, v)))%nat) by (unfold dump_member; rewrite !length_append; simpl; lia).
  destruct d as [|y d]; [simpl in *; lia|].
  change (join ", " (map dump_member ((k, v) :: y :: d))) with (dump_member (k, v) +++ ", " +++ join ", " (map dump_member (y :: d))).
  rewrite !length_append. cbn [foldr snd] in *. change (String.length ", ") with 2%nat. lia.
Qed.
Lemma need_length v : plain_numbers v = true -> (need v <= String.length (dump_value v))%nat.
Proof.
  induction v as [v Hv|l IH|d IH] using json_nested_ind; intros Hp.
  - destruct v as [|[]|t|s|l|d]; try done; simpl; try lia. cbn [plain_numbers] in Hp. apply andb_true_iff in Hp as [Ht _]. destruct t; [done|simpl; lia].
  - cbn [need dump_value plain_numbers] in *. rewrite !length_append. change (String.length "[") with 1%nat. change (String.length "]") with 1%nat.
    pose proof (need_items l) as H. rewrite forallb_forall in Hp. assert (Hall : Forall (fun v => need v <= String.length (dump_value v))%nat l).
    { rewrite Forall_forall in IH |- *. intros x Hx. apply IH; [done|]. apply Hp. by apply list_elem_of_In. }
    specialize (H Hall). lia.
  - cbn [need dump_value plain_numbers] in *. rewrite !length_append. change (String.length "{") with 1%nat. change (String.length "}") with 1%nat.
    pose proof (need_members d) as H. rewrite forallb_forall in Hp. assert (Hall : Forall (fun kv => need kv.2 <= String.length (dump_value kv.2))%nat d).
    { rewrite Forall_forall in IH |- *. intros x Hx. apply IH; [done|]. apply Hp. by apply list_elem_of_In. }
    specialize (H Hall). unfold dump_member in H. lia.
Qed.
(** [json.loads(json.dumps(v)) == v] *)
Lemma loads_dump_value v : plain_numbers v = true -> loads (dump_value v) = Some v.
Proof.
  intros Hp. unfold loads. rewrite <- (append_nil_r (dump_value v)) at 2. pose proof (need_length v Hp).
  by rewrite (read_dump v Hp _ "") by (done || lia).
Qed.
