(* ===== verification/Terminal.v ===== *)
(** main.py and providers/base.py: how the request pipeline uses the failure
    classification.  An attempt error becomes the input of [classify_failure]; a
    recognised overflow leaves as one fixed HTTP 400; exhausted retries leave as
    one terminal error, 400 for overflow and 429 for the rest. *)
From S2P Require Import Prelude Json Text Retry.

(** providers/base.py *)
Definition UPSTREAM_DEGRADED_FUNCTION_MESSAGE : string := "上游函数临时不可用，已按上游异常处理".
Definition is_degraded_function_error (message : string) : bool :=
  str_contains "degraded function cannot be invoked" (lower message).
Definition normalize_upstream_error_message (message : string) : string :=
  let text := strip message in
  if is_degraded_function_error text then UPSTREAM_DEGRADED_FUNCTION_MESSAGE else text.

(** The exceptions of an attempt; the text is [str(e)]. *)
Inductive attempt_error :=
| HttpError (status : Z) (detail : json)
| NoAvailableAccount (status : Z) (detail : json) (code : string)
| IncompleteStream (text : string) (upstream : option (Z * json + string))
| EmptyResponse (text : string)
| NetworkError (text : string)     (* ClientError, TimeoutError, ConnectionError *)
| OtherError (text : string).

Definition http_parts (e : attempt_error) : option (Z * json) :=
  match e with HttpError s d | NoAvailableAccount s d _ => Some (s, d) | _ => None end.
Definition error_str (e : attempt_error) : string :=
  match e with
  | HttpError _ _ | NoAvailableAccount _ _ _ => ""
  | IncompleteStream t _ | EmptyResponse t | NetworkError t | OtherError t => t
  end.

(** _openai_error *)
Definition _openai_error (message error_type code : string) : list (string * json) :=
  [("message", JStr (normalize_upstream_error_message message)); ("type", JStr error_type); ("code", JStr code)].

Definition TERMINAL_ERROR_MESSAGES : list (string * string) :=
  [("rate_limit_exceeded", "Rate limit exceeded; please retry later.");
   ("concurrent_limit_exceeded", "Concurrency limit exceeded; please retry later.");
   ("quota_exhausted", "Upstream quota exhausted.");
   ("no_available_account", "No available account for the requested model.");
   ("context_too_large", "Your input exceeds the context window of the model. Please compact the conversation or adjust your input.");
   ("context_length_exceeded", "Your input exceeds the context window of the model. Please compact the conversation or adjust your input.");
   ("prompt_too_long", "prompt is too long: Please compact the conversation or adjust your input.");
   ("input_too_long", "Your input exceeds the context window of the model. Please compact the conversation or adjust your input.");
   ("model_context_limit", "Your input exceeds the context window of the model. Please compact the conversation or adjust your input.");
   ("max_tokens_exceeded", "max_tokens exceeds the remaining context window. Please compact the conversation or lower max_tokens.");
   ("service_busy", "Service temporarily busy; please retry.");
   ("retry_exhausted", "Request failed after retries.");
   ("api_key_expired", "API key has expired.");
   ("api_key_disabled", "API key has been disabled.");
   ("api_key_invalid", "Invalid API key.");
   ("api_key_rate_limit_exceeded", "API key rate limit exceeded; please retry later.");
   ("api_key_concurrent_limit_exceeded", "API key concurrency limit exceeded; please retry.");
   ("api_key_ip_limit_exceeded", "API key IP limit exceeded.");
   ("api_key_quota_exhausted", "API key quota exhausted.")].
Definition RETRYABLE_CLIENT_MESSAGE : string := "服务端异常，请重试".
Definition _RETRYABLE_CODES : list string :=
  ["rate_limit_exceeded"; "concurrent_limit_exceeded"; "service_busy"; "retry_exhausted";
   "api_key_rate_limit_exceeded"; "api_key_concurrent_limit_exceeded"].

Definition _retry_after_for_code (code : string) : option Z := if bool_decide (code ∈ _RETRYABLE_CODES) then Some 1 else None.

(** ** The terminal error *)

(** d.update(other) on an insertion-ordered dict *)
Definition dict_update {A} (d other : list (string * A)) : list (string * A) :=
  fold_left (fun acc kv => dict_set kv.1 kv.2 acc) other d.
Definition json_num (z : Z) : json := JNum (tostring z).
Definition opt_num (z : option Z) : json := match z with Some n => json_num n | None => JNull end.

(** _retryable_client_error_detail *)
Definition _retryable_client_error_detail (code : string) (retries : Z) (upstream_status retry_after : option Z) : json :=
  JObj [("upstream_status", opt_num upstream_status);
        ("message", JStr (default RETRYABLE_CLIENT_MESSAGE (dict_get code TERMINAL_ERROR_MESSAGES)));
        ("retries", json_num retries); ("kind", JStr code); ("code", JStr code); ("retry_after", opt_num retry_after)].

(** _terminal_client_error: status and detail of the HTTPException. *)
Definition _terminal_client_error (code : string) (retries : Z) (upstream_status context_window : option Z) : Z * json :=
  match overflow_code_of (Some code) with
  | Some _ =>
      let message := str_or (default "" (dict_get code TERMINAL_ERROR_MESSAGES))
                            (default "" (dict_get "context_too_large" TERMINAL_ERROR_MESSAGES)) in
      let error := dict_update (_openai_error message "invalid_request_error" code)
                     [("compact", JBool true); ("suggested_action", JStr "compact"); ("retryable", JBool false);
                      ("upstream_status", opt_num upstream_status); ("retries", json_num retries)] in
      let error := match context_window with
                   | Some w => if w =? 0 then error
                               else dict_update error
                                      [("message", JStr (with_context_window (normalize_upstream_error_message message) (Some w)));
                                       ("context_window", json_num w)]
                   | None => error
                   end in
      (400, JObj [("error", JObj error)])
  | None => (429, _retryable_client_error_detail code retries upstream_status (_retry_after_for_code code))
  end.

Section pipeline.
Variable py_str : json -> string.
(** context_overflow_not_retryable_enabled(), get_non_retryable_parameter_errors() *)
Variables (overflow_enabled : bool) (rules : list (string * json)).

Abbreviation canonicalize := (canonicalize_upstream_error py_str).

(** _canonical_context_overflow_exception: status and detail of the new exception. *)
Definition canonical_detail (e : canonical_error) : json :=
  JObj [("error", JObj (_openai_error (display_message e) (ce_type e) (ce_code e) ++
          match ce_window e with
          | Some w => if w =? 0 then [] else [("context_window", JNum (tostring w))]
          | None => []
          end))].
Definition _canonical_context_overflow_exception (status : Z) (detail : json) : option (option (Z * json)) :=
  c ← canonicalize (Some status) detail;
  Some (match c with
        | Some e => if overflow_enabled then Some (ce_status_code e, canonical_detail e) else None
        | None => None
        end).

(** main._is_non_retryable_upstream_error *)
Definition non_retryable_with_switch (status : Z) (detail : json) : option bool :=
  c ← canonicalize (Some status) detail;
  if bool_decide (is_Some c) && overflow_enabled then Some true else
  f ← parse_error_detail py_str detail;
  if negb (is_protocol_parameter_error f) then Some false
  else is_non_retryable_upstream_error py_str status detail rules.

(** The failure input of an attempt error. *)
Definition attempt_input (e : attempt_error) (stream downstream_started upstream_started : bool)
    (retry_count total_attempts : Z) (extra : list Z) : option failure_input :=
  '(override, active) ← (match http_parts e with
                         | Some (status, detail) =>
                             o ← non_retryable_with_switch status detail;
                             c ← canonicalize (Some status) detail;
                             Some (Some o, bool_decide (is_Some c) && overflow_enabled)
                         | None => Some (None, false)
                         end);
  Some {| fi_is_http_exception := bool_decide (is_Some (http_parts e));
          fi_status_code := fst <$> http_parts e;
          fi_detail := match http_parts e with Some (_, d) => d | None => JStr (error_str e) end;
          fi_downstream_started := stream && downstream_started; fi_stream := stream; fi_cancelled := false;
          fi_candidates_remaining := retry_count <? total_attempts - 1; fi_upstream_started := upstream_started;
          fi_non_retryable_override := override; fi_non_retryable_rules := [];
          fi_transient_exception := match e with NetworkError _ => true | _ => false end;
          fi_retryable_incomplete_response := match e with IncompleteStream _ _ | EmptyResponse _ => true | _ => false end;
          fi_extra_retry_status_codes := extra; fi_overflow_canonical_active := active |}.

(** _terminal_429_from_last_error: business code and upstream status. *)
Definition own_code (e : attempt_error) : option string :=
  match http_parts e with
  | Some (_, JObj d) => match obj_get "code" d with
                        | Some v => if json_truthy v then Some (json_str_of py_str v) else None
                        | None => None
                        end
  | _ => None
  end.

Definition overflow_hint (e : attempt_error) : option Z * json :=
  match e with
  | HttpError s d | NoAvailableAccount s d _ => (Some s, d)
  | IncompleteStream t (Some (inl (s, d))) => (Some s, d)
  | IncompleteStream t (Some (inr u)) => (None, JStr (t +++ " " +++ u))
  | e => (None, JStr (error_str e))
  end.

Definition exhausted_code (e : attempt_error) : string * option Z :=
  match e with
  | HttpError s _ =>
      if s =? 429 then ("rate_limit_exceeded", Some s)
      else if bool_decide (s ∈ [401; 403; 404]) then ("no_available_account", Some s)
      else ("retry_exhausted", Some s)
  | _ => ("retry_exhausted", None)
  end.

Definition _terminal_429_from_last_error (last : option attempt_error) : option (string * option Z) :=
  match last with
  | None => Some ("no_available_account", None)
  | Some e =>
      match own_code e, e with
      | Some code, _ => Some (code, fst <$> http_parts e)
      | None, NoAvailableAccount _ _ code => Some (str_or code "no_available_account", None)
      | None, _ =>
          let '(status_hint, detail_hint) := overflow_hint e in
          c ← canonical_overflow_error py_str status_hint detail_hint;
          Some (match c with
                | Some ce => if overflow_enabled then (ce_code ce, status_hint) else exhausted_code e
                | None => exhausted_code e
                end)
      end
  end.
(** _overflow_window_from_last_error *)
Definition _overflow_window_from_last_error (last : option attempt_error) : option Z :=
  match last with
  | None => None
  | Some e => extract_context_window py_str (overflow_hint e).2
  end.

(** The end of an exhausted request: status and detail. *)
Definition exhausted (last : option attempt_error) (max_retries : Z) : option (Z * json) :=
  '(code, upstream) ← _terminal_429_from_last_error last;
  Some (_terminal_client_error code max_retries upstream (_overflow_window_from_last_error last)).

(** ** The exception handler *)

(** An HTTPException that leaves a route; [hx_no_account]: the code of a
    NoAvailableAccountError. *)
Record http_exception := HttpException {
  hx_status : Z; hx_detail : json; hx_headers : list (string * string); hx_no_account : option string;
}.
Record outlet_response := Response { rs_status : Z; rs_body : list (string * json); rs_headers : list (string * string) }.

Definition _error_message_from_detail (detail : json) : string :=
  match detail with
  | JObj d =>
      let inner := match obj_get "error" d with
                   | Some (JObj e) => match obj_get "message" e with
                                      | Some m => if json_truthy m then Some m else None
                                      | None => None
                                      end
                   | _ => None
                   end in
      match inner, obj_get "message" d with
      | Some m, _ => normalize_upstream_error_message (json_str_of py_str m)
      | None, Some m => normalize_upstream_error_message (json_str_of py_str (if json_truthy m then m else detail))
      | None, None => normalize_upstream_error_message (py_str detail)
      end
  | JStr s => normalize_upstream_error_message s
  | v => normalize_upstream_error_message (json_str_of py_str v)
  end.

Definition _openai_error_type_for_status (status : Z) : string :=
  if status =? 401 then "authentication_error" else if status =? 403 then "permission_error"
  else if status =? 404 then "not_found_error" else if status =? 429 then "rate_limit_error"
  else if 500 <=? status then "server_error" else "invalid_request_error".
Definition _anthropic_error_type_for_status (status : Z) : string :=
  if status =? 401 then "authentication_error" else if status =? 403 then "permission_error"
  else if status =? 404 then "not_found_error" else if status =? 429 then "rate_limit_error"
  else if 500 <=? status then "api_error" else "invalid_request_error".

(** The fixed answer to a recognised overflow. *)
Definition overflow_body (anthropic : bool) (e : canonical_error) : list (string * json) :=
  let window := match ce_window e with Some w => if w =? 0 then [] else [("context_window", json_num w)] | None => [] end in
  let compact := [("compact", JBool true); ("suggested_action", JStr "compact")] in
  if anthropic
  then [("type", JStr "error");
        ("error", JObj ([("type", JStr (ce_type e)); ("message", JStr (display_message e)); ("code", JStr (ce_code e))] ++ compact ++ window))]
  else [("error", JObj (dict_update (_openai_error (display_message e) (ce_type e) (ce_code e)) (compact ++ window)))].

Definition not_null (v : option json) : option json := match v with Some JNull | None => None | v => v end.

(** What a NoAvailableAccountError adds: message, status, extra fields. *)
Definition no_account_extra (code : string) (status : Z) : string * Z * list (string * json) :=
  let code := str_or code "no_available_account" in
  let too_large := bool_decide (code = "context_too_large") in
  let message := default (default "" (dict_get "no_available_account" TERMINAL_ERROR_MESSAGES)) (dict_get code TERMINAL_ERROR_MESSAGES) in
  let extra := [("kind", JStr code); ("code", JStr code)] ++
               (if too_large then [("retries", json_num 0); ("compact", JBool true); ("suggested_action", JStr "compact")] else []) ++
               match _retry_after_for_code code with Some n => [("retry_after", json_num n)] | None => [] end in
  (message, if too_large then 400 else status, extra).

(** The business fields of a flat detail. *)
Definition detail_extra (detail : json) : list (string * json) :=
  match detail with
  | JObj d =>
      let truthy k := match obj_get k d with Some v => json_truthy v | None => false end in
      if truthy "kind" || truthy "code" then
        match not_null (obj_get "kind" d), not_null (obj_get "code" d) with
        | None, Some c => [("kind", c)]
        | _, _ => []
        end ++ omap (fun field => v ← not_null (obj_get field d); Some (field, v))
                 ["kind"; "code"; "retries"; "upstream_status"; "retry_after"]
      else []
  | _ => []
  end.

(** openai_http_exception_handler *)
Definition recognised (exc : http_exception) : option (option canonical_error) :=
  match hx_no_account exc with
  | Some _ => Some None
  | None => c ← canonicalize (Some (hx_status exc)) (hx_detail exc);
            Some (if overflow_enabled then c else None)
  end.

Definition openai_http_exception_handler (anthropic : bool) (exc : http_exception) : option outlet_response :=
  r ← recognised exc;
  match r, hx_detail exc with
  | Some e, _ => Some (Response (ce_status_code e) (overflow_body anthropic e) (hx_headers exc))
  | None, detail =>
      let envelope := match detail with JObj d => match obj_get "error" d with Some (JObj e) => Some (d, e) | _ => None end | _ => None end in
      match envelope with
      | Some (d, e) =>
          let e := match not_null (obj_get "message" e) with
                   | Some m => dict_set "message" (JStr (normalize_upstream_error_message (json_str_of py_str m))) e
                   | None => e
                   end in
          Some (Response (hx_status exc) (dict_set "error" (JObj e) d) (hx_headers exc))
      | None =>
          let '(message, status, extra) := match hx_no_account exc with
                                           | Some code => no_account_extra code (hx_status exc)
                                           | None => (_error_message_from_detail detail, hx_status exc, [])
                                           end in
          let extra := dict_update extra (detail_extra detail) in
          let headers := match obj_get "retry_after" extra with
                         | Some v => if (hx_status exc =? 429) && json_truthy v
                                     then match json_int v with
                                          | Some n => dict_set "Retry-After" (tostring n) (hx_headers exc)
                                          | None => hx_headers exc
                                          end
                                     else hx_headers exc
                         | None => hx_headers exc
                         end in
          let code := match obj_get "code" extra, obj_get "kind" extra with
                      | Some c, k => if json_truthy c then c else default JNull k
                      | None, k => default JNull k
                      end in
          Some (Response status
                  (if anthropic
                   then [("type", JStr "error");
                         ("error", JObj (dict_update [("type", JStr (_anthropic_error_type_for_status status)); ("message", JStr message)] extra))]
                   else [("error", JObj (dict_update [("message", JStr (normalize_upstream_error_message message));
                                                      ("type", JStr (_openai_error_type_for_status status)); ("code", code)] extra))])
                  headers)
      end
  end.
End pipeline.
