(* ===== verification/RetryProps.v ===== *)
(** Theorems about the error classification (Retry.v) and the error outlet
    (Terminal.v). *)
From S2P Require Import Prelude Json Text TextFacts Pattern Retry Terminal.

(** What a client searches in the message to compact and resend. *)
Definition ANCHORS : list string :=
  ["prompt is too long"; "input is too long for requested model"; "context window"; "maximum context length"].
Definition anchored (message : string) : bool := contains_any ANCHORS (lower message).

Lemma contains_any_left markers (a b : string) : contains_any markers a = true -> contains_any markers (a +++ b) = true.
Proof. unfold contains_any. rewrite !existsb_exists. intros (m & Hm & Hc). exists m. split; [done|by apply contains_left]. Qed.

(** ** The fixed texts *)

Section texts.
Variables (n : Z) (Hn : 1024 <= n).

Lemma window_text (message : string) :
  str_contains " (c" message = false ->
  with_context_window message (Some n) = message +++ " (context window: " +++ tostring n +++ " tokens)".
Proof.
  intros Hm. unfold with_context_window. change (default 0 (Some n)) with n. cbv zeta. rewrite (proj2 (Z.leb_gt n 0)) by lia.
  match goal with |- (if ?b then _ else _) = _ => destruct b eqn:E end; [|done].
  apply contains_spec in E as (x & y & ->).
  enough (str_contains " (c" (x +++ (" (context window: " +++ tostring n +++ " tokens)") +++ y) = true) by congruence.
  apply contains_spec. exists x. eexists. rewrite append_assoc. reflexivity.
Qed.

(** The size does not disturb the normalisation of a message. *)
Lemma normalize_window (message : string) :
  str_contains " (c" message = false -> match message with String a _ => py_space a = false | EmptyString => False end ->
  str_contains "degraded function cannot be invoked" (lower message +++ " (context window") = false ->
  normalize_upstream_error_message (with_context_window message (Some n)) = with_context_window message (Some n).
Proof.
  intros Hm Hl Hd. rewrite window_text by done. set (t := message +++ _).
  assert (strip t = t) as Hs.
  { unfold strip. assert (lstrip t = t) as ->.
    { unfold t. destruct message as [|a m]; [done|]. simpl. by rewrite Hl. }
    replace t with ((message +++ " (context window: " +++ tostring n +++ " tokens") +++ ")") by (unfold t; by rewrite !append_assoc).
    by apply rstrip_last. }
  unfold normalize_upstream_error_message. rewrite Hs.
  enough (is_degraded_function_error t = false) as -> by done.
  unfold is_degraded_function_error, t. rewrite !lower_append, (lower_digits (tostring n)) by (apply tostring_digits; lia).
  change (lower " (context window: ") with (" (context window" +++ ": "). rewrite !append_assoc, <- (append_assoc (lower message)).
  change (": " +++ ?u) with (String ":" (" " +++ u)). rewrite contains_cut, Hd by done.
  change (str_contains "degraded function cannot be invoked" (" " +++ ?u)) with (str_contains "degraded function cannot be invoked" u).
  rewrite contains_digits by (done || apply tostring_digits; lia). done.
Qed.
End texts.

(** ** Canonical errors *)

Section canonical.
Variable py_str : json -> string.
Abbreviation canonicalize := (canonicalize_upstream_error py_str).

Definition window_ok (w : option Z) : Prop := match w with Some n => 1024 <= n | None => True end.

Lemma window_field_ok raw : window_ok (window_field raw).
Proof.
  unfold window_field. destruct (match raw with Some v => _ | None => _ end) as [n|]; simpl; [|done].
  by destruct (_CONTEXT_WINDOW_MIN_TOKENS <=? n) eqn:E; [apply Z.leb_le in E|].
Qed.

Lemma pattern_window_ok text : window_ok (pattern_window text).
Proof.
  unfold pattern_window. destruct (head _) as [n|] eqn:E; [|done].
  apply head_Some_elem_of, list_elem_of_omap in E as (p & _ & Hp).
  destruct (number_of <$> search p _) as [m|]; simpl in Hp; [|done].
  destruct (_CONTEXT_WINDOW_MIN_TOKENS <=? m) eqn:E; [|done]. injection Hp as ->. by apply Z.leb_le in E.
Qed.

Lemma extract_window_ok detail : window_ok (extract_context_window py_str detail).
Proof.
  unfold extract_context_window. destruct (_explicit_context_window detail) as [n|] eqn:E.
  - destruct detail as [| | | | |d]; simpl in E; try done.
    destruct (match obj_get "error" d with Some (JObj e) => _ | _ => _ end) as [m|] eqn:Em.
    + injection E as ->. destruct (obj_get "error" d) as [[]|]; try done.
      pose proof (window_field_ok (obj_get "context_window" d0)) as H. by rewrite Em in H.
    + pose proof (window_field_ok (obj_get "context_window" d)) as H. by rewrite E in H.
  - destruct (str_truthy _); [apply pattern_window_ok | done].
Qed.

(** A recognised error is the fixed outcome of a rule and a plausible window. *)
Lemma canonicalize_inv st d e :
  canonicalize st d = Some (Some e) -> exists r w, r ∈ _ERROR_CANONICAL_RULES /\ e = rule_result w r /\ window_ok w.
Proof.
  unfold canonicalize_upstream_error. destruct (parse_error_detail py_str d) as [f|]; [|done]. cbn [mbind option_bind].
  intros H. apply (inj Some) in H. apply fmap_Some in H as (r & Hr & ->).
  exists r, (extract_context_window py_str d). split; [|split; [done|apply extract_window_ok]].
  assert (forall p, List.find p _ERROR_CANONICAL_RULES = Some r -> r ∈ _ERROR_CANONICAL_RULES) as Hin
    by (intros p Hp; apply find_some in Hp as [Hp _]; by apply list_elem_of_In).
  destruct (if str_truthy (ef_code f) then _ else None) as [r'|] eqn:E1.
  { injection Hr as ->. destruct (str_truthy _); [eauto|done]. }
  clear E1. match type of Hr with match ?o with _ => _ end = _ => destruct o as [r'|] eqn:E2 end; [injection Hr as ->; eauto|].
  destruct st; [|done]. destruct (_is_structured_error_detail d); [eauto|done].
Qed.

(** Case analysis over the rules. *)
Ltac each_rule H := repeat (apply elem_of_cons in H as [->|H]; [|]); [..|by apply not_elem_of_nil in H].

Lemma canonical_status r w : r ∈ _ERROR_CANONICAL_RULES -> ce_status_code (rule_result w r) = 400.
Proof. intros Hr. by each_rule Hr. Qed.

Lemma display_normal r w :
  r ∈ _ERROR_CANONICAL_RULES -> window_ok w ->
  normalize_upstream_error_message (display_message (rule_result w r)) = display_message (rule_result w r).
Proof.
  intros Hr Hw. destruct w as [n|].
  - each_rule Hr; apply (normalize_window n Hw); by vm_compute.
  - each_rule Hr; by vm_compute.
Qed.

Lemma display_starts r w :
  r ∈ _ERROR_CANONICAL_RULES -> window_ok w -> exists s, display_message (rule_result w r) = cr_message r +++ s.
Proof.
  intros Hr Hw. destruct w as [n|]; [|exists ""; by rewrite append_nil_r].
  eexists. each_rule Hr; apply (window_text n Hw); by vm_compute.
Qed.

(** The message of an overflow error makes the client compact. *)
Lemma overflow_anchored r w :
  r ∈ _ERROR_CANONICAL_RULES -> window_ok w -> is_overflow (rule_result w r) = true ->
  anchored (display_message (rule_result w r)) = true.
Proof.
  intros Hr Hw. destruct (display_starts r w Hr Hw) as [s ->]. unfold anchored. rewrite lower_append.
  intros Ho. apply contains_any_left. revert Ho. each_rule Hr; by vm_compute.
Qed.

Definition window_member (w : option Z) : list (string * json) :=
  match w with Some n => if n =? 0 then [] else [("context_window", json_num n)] | None => [] end.

Lemma parse_canonical r w :
  r ∈ _ERROR_CANONICAL_RULES -> window_ok w ->
  parse_error_detail py_str (canonical_detail (rule_result w r)) =
  Some (ErrorFields (cr_type r) (cr_code r) "" (lower (display_message (rule_result w r)))).
Proof.
  intros Hr Hw. unfold canonical_detail, _openai_error. rewrite (display_normal r w Hr Hw).
  destruct (display_starts r w Hr Hw) as [s Hs]. set (T := display_message _) in *.
  assert (exists c m, T = String c m) as (c & m & HT) by (each_rule Hr; rewrite Hs; eauto).
  destruct w as [n|]; cbn [rule_result ce_window ce_type ce_code window_ok] in *;
    [rewrite (proj2 (Z.eqb_neq n 0)) by lia|]; rewrite HT; each_rule Hr; reflexivity.
Qed.

Lemma explicit_window r w :
  r ∈ _ERROR_CANONICAL_RULES -> window_ok w -> extract_context_window py_str (canonical_detail (rule_result w r)) = w.
Proof.
  intros Hr Hw. destruct w as [n|]; [|each_rule Hr; by vm_compute].
  change (1024 <= n) in Hw. assert (window_field (Some (json_num n)) = Some n) as Hf.
  { unfold window_field, json_num. rewrite json_truthy_tostring, json_int_tostring by lia. simpl. by rewrite (proj2 (Z.leb_le _ n)). }
  assert (_explicit_context_window (canonical_detail (rule_result (Some n) r)) = Some n) as He;
    [|unfold extract_context_window; by rewrite He].
  unfold canonical_detail. cbn [rule_result ce_window]. rewrite (proj2 (Z.eqb_neq n 0)) by lia.
  transitivity (match window_field (Some (json_num n)) with Some v => Some v | None => window_field None end); [reflexivity|].
  by rewrite Hf.
Qed.

(** Normalising a normalised error changes nothing. *)
Lemma canonical_fixpoint st r w :
  r ∈ _ERROR_CANONICAL_RULES -> window_ok w ->
  canonicalize st (canonical_detail (rule_result w r)) = Some (Some (rule_result w r)).
Proof.
  intros Hr Hw. unfold canonicalize_upstream_error. rewrite parse_canonical by done. simpl mbind. rewrite explicit_window by done.
  destruct (display_starts r w Hr Hw) as [s ->]. rewrite lower_append. unfold haystack_of. cbn [ef_type ef_code ef_param ef_message].
  each_rule Hr; reflexivity.
Qed.

(** ** Classification *)

Lemma classify_retry inp d :
  classify_failure py_str inp = Some d -> fd_action d = RETRY ->
  fi_cancelled inp = false /\ fi_downstream_started inp = false /\ fi_candidates_remaining inp = true /\
  (fi_is_http_exception inp || fi_transient_exception inp || fi_retryable_incomplete_response inp) = true.
Proof.
  unfold classify_failure. destruct (fi_cancelled inp); [by intros [= <-]|]. destruct (fi_downstream_started inp); [by intros [= <-]|].
  destruct (request_at_fault py_str inp) as [[status fault]|]; [|done]. cbn [mbind option_bind].
  destruct (match status with Some n => _ | None => false end); [by intros [= <-]|].
  destruct (_ || _); destruct (fi_candidates_remaining inp); by intros [= <-].
Qed.

(** Usage is kept instead of rolled back exactly when the client has received output
    and has not cancelled; another candidate is tried only before any output, with
    candidates left and for a failure of the candidate; an error is passed on only for a
    status of the white list or a recognised overflow. *)
Lemma failure_action_sound inp d :
  classify_failure py_str inp = Some d ->
  (fd_rollback_reservation d = false <-> fi_cancelled inp = false /\ fi_downstream_started inp = true) /\
  (fd_action d = RETRY ->
     fi_cancelled inp = false /\ fi_downstream_started inp = false /\ fi_candidates_remaining inp = true /\
     (fi_is_http_exception inp || fi_transient_exception inp || fi_retryable_incomplete_response inp) = true) /\
  (fd_action d = RETURN_CLIENT_ERROR ->
     fi_is_http_exception inp = true /\
     exists n, fi_status_code inp = Some n /\ fd_client_status d = Some n /\
       (n ∈ CLIENT_ERROR_STATUS_CODES \/ fi_overflow_canonical_active inp = true)).
Proof.
  intros Hd. split; [|split; [by apply classify_retry|]]; revert Hd;
    unfold classify_failure; (destruct (fi_cancelled inp); [intros [= <-]; naive_solver|]);
    (destruct (fi_downstream_started inp); [intros [= <-]; naive_solver|]);
    destruct (request_at_fault py_str inp) as [[status fault]|] eqn:Ef; try done; cbn [mbind option_bind].
  { destruct (match status with Some n => _ | None => false end); [intros [= <-]; naive_solver|].
    destruct (_ && fi_candidates_remaining inp); intros [= <-]; naive_solver. }
  assert (forall n, status = Some n -> fi_is_http_exception inp = true /\ fi_status_code inp = Some n) as Hst.
  { intros n ->. unfold request_at_fault in Ef. destruct (fi_is_http_exception inp), (fi_status_code inp); try done.
    destruct (match fi_non_retryable_override inp with Some _ => _ | None => _ end); simpl in Ef; [|done]. by injection Ef as -> ->. }
  destruct (match status with Some n => _ | None => false end) eqn:Ep.
  - intros [= <-]. destruct status as [n|]; [|done]. destruct (Hst n eq_refl) as [? ?].
    apply andb_prop in Ep as [_ Ep]. apply orb_prop in Ep. rewrite bool_decide_eq_true in Ep.
    intros _. split; [done|]. by exists n.
  - destruct (_ && fi_candidates_remaining inp); by intros [= <-].
Qed.

(** repeating on the same account and the outer decision never contradict
    each other: what may be repeated on the account is, for the outer loop, a
    failure of the candidate, never an answer for the client. *)
Lemma inner_retry_agrees inp :
  classify_inner_retry py_str inp = Some true ->
  exists d, classify_failure py_str inp = Some d /\ fd_rollback_reservation d = true /\
    fd_action d = if fi_candidates_remaining inp then RETRY else NO_RESOURCE_429.
Proof.
  unfold classify_inner_retry, classify_failure.
  destruct (fi_cancelled inp); [done|]. destruct (fi_downstream_started inp); [done|]. cbn [orb].
  destruct (request_at_fault py_str inp) as [[status []]|]; [done| |done]. cbn [mbind option_bind snd].
  assert ((match status with Some n => false && (bool_decide (n ∈ CLIENT_ERROR_STATUS_CODES) || fi_overflow_canonical_active inp)
           | None => false end) = false) as -> by by destruct status.
  destruct (fi_retryable_incomplete_response inp); [done|].
  destruct (fi_transient_exception inp), (fi_is_http_exception inp); cbn [orb andb]; try done;
    intros _; destruct (fi_candidates_remaining inp); eexists; repeat split; reflexivity.
Qed.

(** a text detail that is JSON but not an object makes the parser of error
    details raise, and every consumer of it with it. *)
Lemma scalar_detail_raises s v status :
  loads s = Some v -> (forall d, v <> JObj d) ->
  parse_error_detail py_str (JStr s) = None /\ canonicalize status (JStr s) = None /\
  (forall overflow_enabled anthropic st hs,
     openai_http_exception_handler py_str overflow_enabled anthropic (HttpException st (JStr s) hs None) = None).
Proof.
  intros Hs Hv. assert (parse_error_detail py_str (JStr s) = None) as Hp.
  { unfold parse_error_detail. rewrite Hs. destruct v; try done. by edestruct Hv. }
  unfold openai_http_exception_handler, recognised, canonicalize_upstream_error. cbn [hx_no_account hx_detail]. by rewrite Hp.
Qed.

(** ** The outlet *)

Lemma handler_recognised anthropic st d hs e :
  canonicalize (Some st) d = Some (Some e) ->
  openai_http_exception_handler py_str true anthropic (HttpException st d hs None) =
  Some (Response (ce_status_code e) (overflow_body anthropic e) hs).
Proof. intros H. unfold openai_http_exception_handler, recognised. cbn [hx_no_account hx_status hx_detail]. by rewrite H. Qed.

(** an overflow the pipeline has normalised leaves with the response the
    original error would have had: normalising at both places equals doing it
    once, and the response is HTTP 400. *)
Lemma outlet_normalises_once st d hs anthropic st' d' :
  _canonical_context_overflow_exception py_str true st d = Some (Some (st', d')) ->
  exists r, openai_http_exception_handler py_str true anthropic (HttpException st' d' hs None) = Some r /\
    openai_http_exception_handler py_str true anthropic (HttpException st d hs None) = Some r /\
    rs_status r = 400 /\ rs_headers r = hs.
Proof.
  unfold _canonical_context_overflow_exception. destruct (canonicalize (Some st) d) as [[e|]|] eqn:E; [|done..].
  cbn [mbind option_bind]. intros [= <- <-]. destruct (canonicalize_inv _ _ _ E) as (r & w & Hr & -> & Hw).
  eexists. split; [by apply handler_recognised, canonical_fixpoint|]. split; [by apply handler_recognised|].
  split; [|done]. clear E. by each_rule Hr.
Qed.

(** with the switch on, a recognised overflow of any status, before output,
    is answered at once: it is neither repeated nor moved to another candidate,
    and leaves as HTTP 400 with a message that makes the client compact when it
    is an overflow. *)
Lemma overflow_answered_at_once st d e rules stream upstream_started k n extra started inp anthropic hs :
  canonicalize (Some st) d = Some (Some e) -> (stream && started) = false ->
  attempt_input py_str true rules (HttpError st d) stream started upstream_started k n extra = Some inp ->
  classify_inner_retry py_str inp = Some false /\
  (exists f, classify_failure py_str inp = Some f /\ fd_action f = RETURN_CLIENT_ERROR /\ fd_rollback_reservation f = true) /\
  _canonical_context_overflow_exception py_str true st d = Some (Some (400, canonical_detail e)) /\
  (is_overflow e = true -> anchored (display_message e) = true /\ overflow_code_of (Some (ce_code e)) = Some (ce_code e)) /\
  openai_http_exception_handler py_str true anthropic (HttpException 400 (canonical_detail e) hs None) =
    Some (Response 400 (overflow_body anthropic e) hs).
Proof.
  intros He Hs. unfold attempt_input, non_retryable_with_switch, http_parts. rewrite He. cbn [mbind option_bind].
  rewrite bool_decide_eq_true_2 by done. cbn [andb mbind option_bind]. intros [= <-].
  destruct (canonicalize_inv _ _ _ He) as (r & w & Hr & -> & Hw).
  pose proof (canonical_status r w Hr) as H400.
  split; [|split; [|split; [|split]]].
  - unfold classify_inner_retry, request_at_fault. cbn [fi_cancelled fi_downstream_started]. rewrite Hs. reflexivity.
  - unfold classify_failure, request_at_fault. cbn [fi_cancelled fi_downstream_started]. rewrite Hs.
    cbn [orb fi_is_http_exception fi_status_code fi_non_retryable_override fi_overflow_canonical_active fmap option_fmap option_map fst mbind option_bind].
    rewrite orb_true_r. cbn. eauto.
  - unfold _canonical_context_overflow_exception. rewrite He. cbn [mbind option_bind]. by rewrite H400.
  - intros Ho. split; [by apply overflow_anchored|]. revert Ho. clear He. each_rule Hr; by vm_compute.
  - rewrite <- H400. apply handler_recognised. by apply canonical_fixpoint.
Qed.

(** ** Exhausted requests *)

Definition body_error (r : outlet_response) : list (string * json) :=
  match dict_get "error" (rs_body r) with Some (JObj e) => e | _ => [] end.
Definition body_text (k : string) (r : outlet_response) : string :=
  match obj_get k (body_error r) with Some (JStr m) => m | _ => "" end.
Definition outlet_code (overflow_enabled : bool) (code : string) : string :=
  if overflow_enabled && bool_decide (code = "context_too_large") then "context_length_exceeded" else code.

(** The error code alone decides the rule. *)
Lemma canonicalize_code st d e code r :
  obj_get "error" d = Some (JObj e) -> obj_get "code" e = Some (JStr code) -> str_truthy (lower code) = true ->
  List.find (fun r => bool_decide (lower code ∈ cr_codes r)) _ERROR_CANONICAL_RULES = Some r ->
  canonicalize st (JObj d) = Some (Some (rule_result (extract_context_window py_str (JObj d)) r)).
Proof.
  intros Hd He Ht Hr. unfold canonicalize_upstream_error, parse_error_detail, object_fields. rewrite Hd. cbn [mbind option_bind ef_code].
  assert (lower_text py_str e "code" = lower code) as ->.
  { unfold lower_text, get_text. rewrite He. destruct code; [done|]. reflexivity. }
  by rewrite Ht, Hr.
Qed.

(** The message of the terminal error is anchored and survives the outlet. *)
Lemma terminal_message code w :
  code ∈ _OVERFLOW_CODES -> window_ok w ->
  let message := default "" (dict_get code TERMINAL_ERROR_MESSAGES) in
  str_truthy message = true /\ normalize_upstream_error_message message = message /\ anchored message = true /\
  normalize_upstream_error_message (with_context_window message w) = with_context_window message w /\
  anchored (with_context_window message w) = true.
Proof.
  intros Hc Hw message.
  assert (str_truthy message = true /\ normalize_upstream_error_message message = message /\ anchored message = true) as (? & ? & Ha)
    by (subst message; each_rule Hc; by vm_compute).
  repeat split; try done.
  - destruct w as [n|]; [subst message; each_rule Hc; apply (normalize_window n Hw); by vm_compute | done].
  - destruct w as [n|]; [|done]. rewrite (window_text n Hw) by (subst message; each_rule Hc; by vm_compute).
    unfold anchored. rewrite lower_append. by apply contains_any_left.
Qed.

Lemma find_code code : code ∈ _OVERFLOW_CODES ->
  exists r, List.find (fun r => bool_decide (lower code ∈ cr_codes r)) _ERROR_CANONICAL_RULES = Some r /\
    r ∈ _ERROR_CANONICAL_RULES /\ cr_code r = outlet_code true code /\ str_truthy (lower code) = true /\
    forall w, is_overflow (rule_result w r) = true /\ cr_status_code r = 400.
Proof.
  intros Hc. each_rule Hc; eexists; (split; [vm_compute; reflexivity|]);
    (split; [unfold _ERROR_CANONICAL_RULES; set_solver|]); done.
Qed.

(** The error object of the terminal detail. *)
Lemma terminal_detail code retries up w :
  overflow_code_of (Some code) = Some code -> window_ok w ->
  let message := default "" (dict_get code TERMINAL_ERROR_MESSAGES) in
  exists e, _terminal_client_error code retries up w = (400, JObj [("error", JObj e)]) /\
    obj_get "code" e = Some (JStr code) /\ obj_get "compact" e = Some (JBool true) /\
    obj_get "message" e = Some (JStr (with_context_window message w)) /\
    forall m, let e' := dict_set "message" (JStr m) e in
      obj_get "code" e' = Some (JStr code) /\ obj_get "compact" e' = Some (JBool true) /\ obj_get "message" e' = Some (JStr m).
Proof.
  intros Hc Hw message.
  assert (code ∈ _OVERFLOW_CODES) as Hin.
  { unfold overflow_code_of in Hc. case_bool_decide as H; [|done]. by injection Hc as <-. }
  destruct (terminal_message code w Hin Hw) as (Ht & Hn & _). fold message in Ht, Hn.
  unfold _terminal_client_error. rewrite Hc. fold message. unfold str_or. rewrite Ht. unfold _openai_error. rewrite Hn.
  eexists. split; [reflexivity|].
  destruct w as [n|]; [|by repeat split]. change (1024 <= n) in Hw. rewrite (proj2 (Z.eqb_neq n 0)) by lia. by repeat split.
Qed.

Lemma overflow_body_fields anthropic r w hs :
  r ∈ _ERROR_CANONICAL_RULES -> window_ok w ->
  let resp := Response 400 (overflow_body anthropic (rule_result w r)) hs in
  body_text "message" resp = display_message (rule_result w r) /\ body_text "code" resp = cr_code r /\
  obj_get "compact" (body_error resp) = Some (JBool true).
Proof.
  intros Hr Hw. pose proof (display_normal r w Hr Hw) as Hn. clear Hr. unfold body_text, body_error, overflow_body, _openai_error.
  rewrite Hn. destruct w as [n|]; cbn [rule_result ce_window ce_type ce_code]; [|by destruct anthropic].
  change (1024 <= n) in Hw. rewrite (proj2 (Z.eqb_neq n 0)) by lia. by destruct anthropic.
Qed.

(** a request that ends for an overflow leaves with HTTP 400, the headers
    of the error (no Retry-After), a message that makes the client compact and
    the compact flag, whatever the switch; the code is kept, but for
    context_too_large, which the outlet renames when the switch is on. *)
Lemma overflow_terminal_response overflow_enabled anthropic code retries up w st d hs :
  overflow_code_of (Some code) = Some code -> window_ok w ->
  _terminal_client_error code retries up w = (st, d) ->
  exists r, openai_http_exception_handler py_str overflow_enabled anthropic (HttpException st d hs None) = Some r /\
    rs_status r = 400 /\ rs_headers r = hs /\ anchored (body_text "message" r) = true /\
    obj_get "compact" (body_error r) = Some (JBool true) /\ body_text "code" r = outlet_code overflow_enabled code.
Proof.
  intros Hc Hw. destruct (terminal_detail code retries up w Hc Hw) as (e & -> & Hcode & Hcompact & Hmsg & Hset).
  intros [= <- <-].
  assert (code ∈ _OVERFLOW_CODES) as Hin.
  { unfold overflow_code_of in Hc. case_bool_decide as H; [|done]. by injection Hc as <-. }
  destruct (terminal_message code w Hin Hw) as (_ & _ & _ & Hnw & Haw).
  destruct overflow_enabled.
  - destruct (find_code code Hin) as (r & Hf & Hr & Hrc & Ht & Hro).
    destruct (Hro (extract_context_window py_str (JObj [("error", JObj e)]))) as [Ho Hs].
    pose proof (extract_window_ok (JObj [("error", JObj e)])) as Hx.
    eexists. split; [by apply handler_recognised, (canonicalize_code _ _ e code r)|]. cbn [rule_result ce_status_code]. rewrite Hs.
    destruct (overflow_body_fields anthropic r _ hs Hr Hx) as (Hm & Hk & Hz). repeat split; try done.
    + rewrite Hm. by apply overflow_anchored.
    + by rewrite Hk.
  - unfold openai_http_exception_handler, recognised. cbn [hx_no_account hx_status hx_detail].
    destruct (find_code code Hin) as (r & Hf & Hr & Hrc & Ht & Hro).
    rewrite (canonicalize_code _ [("error", JObj e)] e code r) by done. cbn [mbind option_bind].
    change (obj_get "error" [("error", JObj e)]) with (Some (JObj e)). cbv iota. rewrite Hmsg. cbn [not_null json_str_of]. rewrite Hnw.
    destruct (Hset (with_context_window (default "" (dict_get code TERMINAL_ERROR_MESSAGES)) w)) as (Hk & Hz & Hm).
    eexists. split; [reflexivity|]. unfold body_text, body_error. cbn [rs_status rs_headers rs_body hx_headers].
    change (dict_get "error" (dict_set "error" ?x [("error", ?y)])) with (Some x). cbv iota. rewrite Hm, Hz, Hk. done.
Qed.

(** any other exhausted request leaves with HTTP 429 and its code, and asks
    to come back after one second exactly for the codes a retry can help; unless
    its own text is recognised as an overflow, which leaves with HTTP 400. *)
Lemma retryable_terminal_response overflow_enabled anthropic code retries up w st d :
  overflow_code_of (Some code) = None -> str_truthy code = true -> _terminal_client_error code retries up w = (st, d) ->
  exists r, openai_http_exception_handler py_str overflow_enabled anthropic (HttpException st d [] None) = Some r /\
    ((rs_status r = 429 /\ body_text "code" r = code /\
      dict_get "Retry-After" (rs_headers r) = if bool_decide (code ∈ _RETRYABLE_CODES) then Some "1" else None) \/
     (overflow_enabled = true /\ (exists e, canonicalize (Some 429) d = Some (Some e)) /\ rs_status r = 400 /\ rs_headers r = [])).
Proof.
  intros Hc Ht. unfold _terminal_client_error. rewrite Hc. intros [= <- <-].
  set (d := _retryable_client_error_detail _ _ _ _).
  assert (exists c, canonicalize (Some 429) d = Some c) as [c Hd] by (eexists; reflexivity).
  destruct overflow_enabled, c as [e|]; try (eexists; split;
    [unfold openai_http_exception_handler, recognised; cbn [hx_no_account hx_status hx_detail]; rewrite Hd; reflexivity|]).
  { right. destruct (canonicalize_inv _ _ _ Hd) as (r & x & Hr & -> & _). repeat split; [by eexists|]. clear Hd. by each_rule Hr. }
  all: left; unfold d, _retryable_client_error_detail, _retry_after_for_code; clear - Ht; destruct code as [|a s]; [done|];
    destruct (bool_decide (String a s ∈ _RETRYABLE_CODES)), up, anthropic; by repeat split.
Qed.
End canonical.

(** ** A concrete pipeline *)

Module RetrySample.
Definition py_str (v : json) : string := dump_value v.
(** A relay's HTTP 500 that hides an overflow. *)
Definition hidden : json := JStr "upstream: maximum context length is 131072 tokens".
Definition e : canonical_error := rule_result (Some 131072) rule_context_length_exceeded.
Definition error : attempt_error := HttpError 500 hidden.
Definition inp : failure_input :=
  default (FailureInput false None JNull false false true false false None [] false false [] false)
    (attempt_input py_str true [] error true false true 0 3 []).
Definition plain : failure_input :=
  FailureInput true (Some 503) (JStr "overloaded") false true false true true (Some false) [] false false [] false.

Lemma failure_action_sound_witness :
  fd_action <$> classify_failure py_str inp = Some RETURN_CLIENT_ERROR /\
  exists n, fi_status_code inp = Some n /\ (n ∈ CLIENT_ERROR_STATUS_CODES \/ fi_overflow_canonical_active inp = true).
Proof.
  split; [by vm_compute|].
  destruct (failure_action_sound py_str inp _ (ltac:(vm_compute; reflexivity))) as (_ & _ & H).
  destruct (H eq_refl) as (_ & n & ? & _ & ?). by exists n.
Defined.

Lemma inner_retry_agrees_witness :
  classify_inner_retry py_str plain = Some true /\
  exists d, classify_failure py_str plain = Some d /\ fd_rollback_reservation d = true /\ fd_action d = RETRY.
Proof.
  split; [by vm_compute|].
  destruct (inner_retry_agrees py_str plain (ltac:(vm_compute; reflexivity))) as (d & ? & ? & ?). by exists d.
Defined.

Lemma scalar_detail_raises_witness :
  loads "502" = Some (JNum "502") /\ parse_error_detail py_str (JStr "502") = None.
Proof.
  split; [by vm_compute|].
  apply (scalar_detail_raises py_str "502" (JNum "502") None); [by vm_compute | done].
Defined.

Lemma outlet_normalises_once_witness :
  exists r, openai_http_exception_handler py_str true false (HttpException 500 hidden [] None) = Some r /\ rs_status r = 400.
Proof.
  destruct (outlet_normalises_once py_str 500 hidden [] false 400 (canonical_detail e) (ltac:(vm_compute; reflexivity)))
    as (r & _ & ? & ? & _).
  by exists r.
Defined.

Lemma overflow_answered_at_once_witness :
  classify_inner_retry py_str inp = Some false /\ anchored (display_message e) = true.
Proof.
  destruct (overflow_answered_at_once py_str 500 hidden e [] true true 0 3 [] false inp false []) as (? & _ & _ & H & _);
    [by vm_compute | done | by vm_compute |].
  split; [done|]. by apply H.
Defined.

Lemma overflow_terminal_response_witness :
  exists r, openai_http_exception_handler py_str true true
    (HttpException 400 (_terminal_client_error "context_too_large" 2 (Some 502) (Some 131072)).2 [] None) = Some r /\
    rs_status r = 400 /\ body_text "code" r = "context_length_exceeded".
Proof.
  destruct (overflow_terminal_response py_str true true "context_too_large" 2 (Some 502) (Some 131072) 400
    (_terminal_client_error "context_too_large" 2 (Some 502) (Some 131072)).2 []) as (r & ? & ? & _ & _ & _ & ?);
    [by vm_compute | unfold window_ok; lia | reflexivity |].
  by exists r.
Defined.

Lemma retryable_terminal_response_witness :
  exists r, openai_http_exception_handler py_str false true
    (HttpException 429 (_terminal_client_error "retry_exhausted" 2 (Some 502) None).2 [] None) = Some r /\
    rs_status r = 429 /\ dict_get "Retry-After" (rs_headers r) = Some "1".
Proof.
  destruct (retryable_terminal_response py_str false true "retry_exhausted" 2 (Some 502) None 429
    (_terminal_client_error "retry_exhausted" 2 (Some 502) None).2) as (r & ? & [(? & _ & ?)|[? _]]);
    [by vm_compute | done | reflexivity | by exists r | done].
Defined.
End RetrySample.
