(* ===== verification/Loop.v ===== *)
(** main.py, _chat_with_retry_for_model: the two retry loops of one request.

    The outer loop moves to another candidate, the inner one repeats on the same
    account.  One turn of the loop is one upstream request.  What a turn meets
    (the check of the API key, the selection of a candidate, the upstream, the
    consumer) is an input of the turn; the reservation of the candidate is the
    handle of Candidate.v, worked on in the same state.  Logging, statistics and
    the account health are left out, and so is a consumer that leaves while the
    loop reports the route of a failed attempt. *)
From S2P Require Import Prelude Redis Client State Rules Json Text Account Manager Candidate Retry Terminal.

(** ** What a turn meets *)

Inductive acquisition :=
| Acquired (provider account : string) (handle : session)
| NoAccount (status : Z) (detail : json) (code : string)       (* NoAvailableAccountError *)
| AcquireFailed (error : attempt_error).

(** [started]: the client has received output; [served]: the usage of it. *)
Inductive upstream_result :=
| Answered (usage : option json) (left_at_end : option (bool * option json))
| Failed (error : attempt_error) (started : bool) (served : option json)
| Cancelled (started : bool) (served : option json).

Record turn_input := TurnInput {
  tu_key : option (Z * json);          (* _recheck_api_key_state *)
  tu_acquire : acquisition;
  tu_retry_count : option Z;           (* get_provider_retry_count; None: it raises *)
  tu_extra : list Z;                   (* get_provider_extra_retry_status_codes *)
  tu_upstream : upstream_result;
  tu_now : Z;
}.

(** The request: stream, is_test, is_probe, max_retries, the overflow switch, the configured rules. *)
Record chat_request := ChatRequest {
  cq_stream : bool; cq_is_test : bool; cq_is_probe : bool; cq_max_retries : Z;
  cq_overflow : bool; cq_rules : list (string * json);
}.
Definition total_attempts (q : chat_request) : Z := if cq_is_test q || cq_is_probe q then 1 else Z.max 0 (cq_max_retries q) + 1.

(** ** The state of the loop *)

(** The current candidate: provider, account, handle. *)
Record loop_state := LoopState {
  lp_outer : Z; lp_inner : Z; lp_limit : Z; lp_reuse : bool;
  lp_tried : list (string * string); lp_last : option attempt_error;
  lp_cand : option (string * string * session);
  lp_sent : Z;                         (* requests sent, for the statements only *)
  lp_done : list session;              (* handles the loop has let go, for the statements only *)
}.
Definition loop_start : loop_state := LoopState 0 0 1 false [] None None 0 [].

(** How the generator ends. *)
Inductive loop_end :=
| Completed
| KeyRejected (status : Z) (detail : json)
| NoAccountRaised (status : Z) (detail : json) (code : string)
| StreamError (error : attempt_error)
| ClientError (error : attempt_error) (replaced : option (Z * json))
| CancelledRaised
| ClassifierRaised                     (* AttributeError of parse_error_detail *)
| Exhausted.

(** _inner_retry_limit *)
Definition _inner_retry_limit (q : chat_request) (provider : string) (retry_count : option Z) : Z :=
  if cq_is_test q || cq_is_probe q || negb (str_truthy provider) then 1
  else match retry_count with Some n => Z.max 1 (n + 1) | None => 1 end.

(** [tried_accounts.remove(x)] *)
Fixpoint remove_first (x : string * string) (l : list (string * string)) : list (string * string) :=
  match l with
  | [] => []
  | y :: l' => if decide (x = y) then l' else y :: remove_first x l'
  end.

(** The message Python gives a call on the missing client. *)
Definition NO_CLIENT : string := "'NoneType' object has no attribute 'chat'".

Section loop.
Context {R : Type} `{Redis R}.
(** [type_name]: type(e).__name__ *)
Variables (conf : redis_conf) (utc_offset : Z -> Z) (py_str : json -> string) (type_name : attempt_error -> string) (q : chat_request).

Definition set_cand (c : option (string * string * session)) (s : loop_state) : loop_state :=
  LoopState (lp_outer s) (lp_inner s) (lp_limit s) (lp_reuse s) (lp_tried s) (lp_last s) c (lp_sent s) (lp_done s).
Definition set_reuse (b : bool) (s : loop_state) : loop_state :=
  LoopState (lp_outer s) (lp_inner s) (lp_limit s) b (lp_tried s) (lp_last s) (lp_cand s) (lp_sent s) (lp_done s).

(** The finally block, when the candidate is not kept for another turn. *)
Definition let_go (now : Z) (s : loop_state) : ST world R loop_state :=
  match lp_cand s with
  | Some (p, a, se) =>
      se ← (if cd_settled (se_cand se) then release_candidate conf se else rollback conf utc_offset now se);
      mret (LoopState (lp_outer s) (lp_inner s) (lp_limit s) (lp_reuse s) (lp_tried s) (lp_last s) None (lp_sent s) (lp_done s ++ [se]))
  | None => mret s
  end.
Definition end_with (now : Z) (r : loop_end) (s : loop_state) : ST world R (loop_end * loop_state + loop_state) :=
  s ← let_go now s; mret (inl (r, s)).

(** keep_served_usage on the candidate, if there is one *)
Definition keep (now : Z) (usage : option json) (s : loop_state) : ST world R loop_state :=
  match lp_cand s with
  | Some (p, a, se) => se ← keep_served_usage conf utc_offset now usage se; mret (set_cand (Some (p, a, se)) s)
  | None => mret s
  end.

Definition _inner_retry_extra_status_codes (configured : list Z) (s : loop_state) : list Z :=
  match lp_cand s with Some (p, _, _) => if str_truthy p then configured else [] | None => [] end.

(** _should_inner_retry *)
Definition _should_inner_retry (e : attempt_error) (started : bool) (extra : list Z) (s : loop_state) : option bool :=
  if lp_limit s - 1 <=? lp_inner s then Some false else
  override ← match http_parts e with
             | Some (status, detail) => Some <$> non_retryable_with_switch py_str (cq_overflow q) (cq_rules q) status detail
             | None => Some None
             end;
  classify_inner_retry py_str
    {| fi_is_http_exception := bool_decide (is_Some (http_parts e));
       fi_status_code := fst <$> http_parts e;
       fi_detail := match http_parts e with Some (_, d) => d | None => JStr (error_str e) end;
       fi_downstream_started := cq_stream q && started; fi_stream := cq_stream q; fi_cancelled := false;
       fi_candidates_remaining := true; fi_upstream_started := true;
       fi_non_retryable_override := override; fi_non_retryable_rules := [];
       fi_transient_exception := match e with NetworkError _ => true | _ => false end;
       fi_retryable_incomplete_response := match e with IncompleteStream _ _ | EmptyResponse _ => true | _ => false end;
       fi_extra_retry_status_codes := extra; fi_overflow_canonical_active := false |}.

(** _handle_attempt_failure: the accounts tried so far, and the decision. *)
Definition tried_after (pending : bool) (s : loop_state) : list (string * string) :=
  match lp_cand s with
  | Some (p, a, _) => if negb (cq_is_test q) && negb pending then lp_tried s ++ [(p, a)] else lp_tried s
  | None => lp_tried s
  end.
Definition _handle_attempt_failure (e : attempt_error) (started : bool) (extra : list Z) (s : loop_state) : option failure_decision :=
  inp ← attempt_input py_str (cq_overflow q) (cq_rules q) e (cq_stream q) started
          (match lp_cand s with Some _ => true | None => false end) (lp_outer s) (total_attempts q) extra;
  classify_failure py_str inp.

(** The handler [except Exception as e], with the finally block. *)
Definition on_failure (now : Z) (extra : list Z) (e : attempt_error) (started : bool) (served : option json) (s : loop_state)
    : ST world R (loop_end * loop_state + loop_state) :=
  let s := LoopState (lp_outer s) (lp_inner s) (lp_limit s) false (lp_tried s) (Some e) (lp_cand s) (lp_sent s) (lp_done s) in
  let extra := _inner_retry_extra_status_codes extra s in
  match _should_inner_retry e started extra s with
  | None => end_with now ClassifierRaised s
  | Some pending =>
      match _handle_attempt_failure e started extra s with
      | None => end_with now ClassifierRaised s
      | Some decision =>
          let s := LoopState (lp_outer s) (lp_inner s) (lp_limit s) false (tried_after pending s) (lp_last s) (lp_cand s) (lp_sent s) (lp_done s) in
          match fd_action decision with
          | STREAM_ERROR_AND_STOP => s ← keep now served s; end_with now (StreamError e) s
          | RETURN_CLIENT_ERROR =>
              match http_parts e with
              | Some (status, detail) =>
                  match _canonical_context_overflow_exception py_str (cq_overflow q) status detail with
                  | None => end_with now ClassifierRaised s
                  | Some replaced => end_with now (ClientError e replaced) s
                  end
              | None => end_with now (ClientError e None) s
              end
          | action =>
              if pending then
                mret (inr (LoopState (lp_outer s) (lp_inner s + 1) (lp_limit s) true (lp_tried s) (lp_last s) (lp_cand s) (lp_sent s) (lp_done s)))
              else
                match action with
                | RETRY =>
                    let tried := match e, lp_cand s with
                                 | EmptyResponse _, Some (p, a, _) =>
                                     if str_truthy p && str_truthy a then remove_first (p, a) (lp_tried s) else lp_tried s
                                 | _, _ => lp_tried s
                                 end in
                    s ← let_go now (LoopState (lp_outer s + 1) (lp_inner s) (lp_limit s) false tried (lp_last s) (lp_cand s) (lp_sent s) (lp_done s));
                    mret (inr s)
                | _ => end_with now Exhausted s
                end
          end
      end
  end.

(** The upstream request of a turn. *)
Definition send (t : turn_input) (s : loop_state) : ST world R (loop_end * loop_state + loop_state) :=
  match lp_cand s with
  | None => on_failure (tu_now t) (tu_extra t) (OtherError NO_CLIENT) false None s
  | Some (p, a, se) =>
      let s := LoopState (lp_outer s) (lp_inner s) (lp_limit s) (lp_reuse s) (lp_tried s) (lp_last s) (lp_cand s) (lp_sent s + 1) (lp_done s) in
      match tu_upstream t with
      | Failed e started served => on_failure (tu_now t) (tu_extra t) e started served s
      | Cancelled started served =>
          s ← (if started then keep (tu_now t) served s else mret s); end_with (tu_now t) CancelledRaised s
      | Answered usage gone =>
          se ← commit conf utc_offset (tu_now t) usage se;
          let s := set_cand (Some (p, a, se)) s in
          match gone with
          | None => end_with (tu_now t) Completed s
          | Some (started, served) =>
              s ← (if started then keep (tu_now t) served s else mret s); end_with (tu_now t) CancelledRaised s
          end
      end
  end.

(** One turn: the key is checked before the try block. *)
Definition turn (t : turn_input) (s : loop_state) : ST world R (loop_end * loop_state + loop_state) :=
  match tu_key t with
  | Some (status, detail) => mret (inl (KeyRejected status detail, s))
  | None =>
      if lp_reuse s then send t (set_reuse false s)
      else match tu_acquire t with
           | Acquired p a se =>
               send t (LoopState (lp_outer s) 0 (_inner_retry_limit q p (tu_retry_count t)) false (lp_tried s) (lp_last s)
                         (Some (p, a, se)) (lp_sent s) (lp_done s))
           | NoAccount status detail code => end_with (tu_now t) (NoAccountRaised status detail code) s
           | AcquireFailed e => on_failure (tu_now t) (tu_extra t) e false None s
           end
  end.

(** The while loop over the turns given; [None]: it still runs. *)
Fixpoint run_loop (ts : list turn_input) (s : loop_state) : ST world R (option loop_end * loop_state) :=
  if lp_outer s <? total_attempts q then
    match ts with
    | [] => mret (None, s)
    | t :: ts' =>
        r ← turn t s;
        match r with
        | inl (o, s) => mret (Some o, s)
        | inr s => run_loop ts' s
        end
    end
  else mret (Some Exhausted, s).

(** What the caller sees after the last turn of an exhausted request. *)
Definition final_error (s : loop_state) : option (Z * json) :=
  if cq_is_test q || cq_is_probe q
  then match lp_last s with
       | Some e => match http_parts e with
                   | Some (status, detail) => Some (status, detail)
                   | None => Some (502, JStr (str_or (error_str e) (type_name e)))
                   end
       | None => exhausted py_str (cq_overflow q) None (Z.max 0 (cq_max_retries q))
       end
  else exhausted py_str (cq_overflow q) (lp_last s) (Z.max 0 (cq_max_retries q)).
End loop.
