(* ===== verification/LoopProps.v ===== *)
(** The retry loops: they end, they bound the requests, they close every
    candidate they take, a recognised overflow ends them at once; and the two places
    where they do not do what they mean to. *)
From S2P Require Import Prelude Redis MapRedis Client State Settlement Rules Json Text Account Manager ManagerProps Candidate CandidateProps.
From S2P Require Import ReservationProps Retry Terminal RetryProps Loop.

Section props.
Context {R : Type} `{RedisLaws R}.
Variables (conf : redis_conf) (utc_offset : Z -> Z) (py_str : json -> string) (type_name : attempt_error -> string) (q : chat_request).
Implicit Types (w : world) (s : loop_state) (t : turn_input).

(** ** Handles *)

(** The life of a handle: open and unsettled, open and settled, closed. *)
Record handle_is (released settled rolled_back : bool) (se : session) : Prop := {
  hi_attached : cd_attached (se_cand se) = negb released;
  hi_released : cd_released (se_cand se) = released;
  hi_settled : cd_settled (se_cand se) = settled;
  hi_rolled_back : cd_rolled_back (se_cand se) = rolled_back;
}.
Abbreviation fresh := (handle_is false false false).
Definition closed (settled : bool) : session -> Prop := handle_is true settled (negb settled).

Lemma release_handle b1 b2 se w (e : renv R) :
  handle_is false b1 b2 se ->
  exists se' w' e', _release_concurrency conf se w e = (Ret (se', w'), e') /\ handle_is true b1 b2 se'.
Proof.
  intros [Ha Hr Hs Hb]. unfold _release_concurrency. rewrite Hr, Ha. cbn [negb].
  destruct (release_freed conf (se_ctx (with_cand set_released se)) (se_client (with_cand set_released se)) w e) as (w' & e' & E).
  do 3 eexists. split; [by erewrite ST_bind_ret by exact E|]. by split.
Qed.

Lemma settle_handle b now usage se w (e : renv R) :
  handle_is false b false se ->
  exists se' w' e', _settle conf utc_offset now usage se w e = (Ret (se', w'), e') /\ handle_is false true false se'.
Proof.
  intros [Ha Hr Hs Hb]. unfold _settle. rewrite Hs, Hb. destruct b; cbn [orb]; [do 3 eexists; by repeat split|].
  destruct (_capture_lease se) as [[l|] se1] eqn:Ec; apply capture_spec in Ec as [f ->].
  - destruct (reconcile_closes conf utc_offset now l (_usage_total_tokens usage) w e) as (r & l' & w' & e' & Er & _).
    do 3 eexists. split; [by erewrite ST_bind_ret by by apply guarded_ret|]. by split.
  - do 3 eexists. split; [done|]. by split.
Qed.

(** commit and keep_served_usage *)
Lemma commit_handle b now usage se w (e : renv R) :
  handle_is false b false se ->
  exists se' w' e', commit conf utc_offset now usage se w e = (Ret (se', w'), e') /\ handle_is false true false se'.
Proof. intros Hh. apply (settle_handle b). destruct Hh. by split. Qed.

Lemma rollback_handle now se w (e : renv R) :
  fresh se -> exists se' w' e', rollback conf utc_offset now se w e = (Ret (se', w'), e') /\ closed false se'.
Proof.
  intros [Ha Hr Hs Hb]. unfold rollback. rewrite Hs, Hb. cbn [orb].
  destruct (_capture_lease _) as [[l|] se1] eqn:Ec; apply capture_spec in Ec as [f ->].
  - destruct (rollback_closes conf utc_offset now l w e) as (r & l' & w' & e' & Er & _).
    erewrite ST_bind_ret by by apply guarded_ret. by apply release_handle.
  - by apply release_handle.
Qed.

(** The finally block closes the handle and keeps the rest of the state. *)
Definition same_counters s s' : Prop :=
  lp_outer s' = lp_outer s /\ lp_inner s' = lp_inner s /\ lp_limit s' = lp_limit s /\ lp_reuse s' = lp_reuse s /\ lp_sent s' = lp_sent s.

Lemma let_go_handle now b s w (e : renv R) :
  match lp_cand s with Some (_, _, se) => handle_is false b false se | None => True end ->
  exists s' w' e', let_go conf utc_offset now s w e = (Ret (s', w'), e') /\ same_counters s s' /\ lp_cand s' = None /\
    match lp_cand s with
    | Some _ => exists se', closed b se' /\ lp_done s' = lp_done s ++ [se']
    | None => s' = s
    end.
Proof.
  unfold let_go. destruct (lp_cand s) as [[[p a] se]|] eqn:Ec; [|intros _; by exists s, w, e].
  intros Hh. destruct b.
  - destruct (release_handle true false se w e Hh) as (se' & w' & e' & E & Hc). rewrite (hi_settled _ _ _ _ Hh).
    do 3 eexists. split; [by erewrite ST_bind_ret by exact E|]. repeat split. exists se'. by split.
  - destruct (rollback_handle now se w e Hh) as (se' & w' & e' & E & Hc). rewrite (hi_settled _ _ _ _ Hh).
    do 3 eexists. split; [by erewrite ST_bind_ret by exact E|]. repeat split. exists se'. by split.
Qed.

(** ** One turn *)

Definition open_handle s : Prop := match lp_cand s with Some (_, _, se) => fresh se | None => True end.

Definition key_rejected (o : loop_end) : bool := match o with KeyRejected _ _ => true | _ => false end.

(** Which ends settle the candidate: true, false, or either. *)
Definition settles (o : loop_end) (b : bool) : Prop :=
  match o with Completed | StreamError _ => b = true | CancelledRaised => True | KeyRejected _ _ => False | _ => b = false end.

(** The last turn closes the candidate it has. *)
Definition closes (o : loop_end) s s' : Prop :=
  key_rejected o = false /\ lp_cand s' = None /\ lp_sent s' = lp_sent s /\
  match lp_cand s with
  | Some _ => exists b se, closed b se /\ settles o b /\ lp_done s' = lp_done s ++ [se]
  | None => o <> Completed /\ lp_done s' = lp_done s
  end.

Lemma closes_cand o s1 s s' :
  lp_sent s1 = lp_sent s -> lp_done s1 = lp_done s -> (is_Some (lp_cand s1) <-> is_Some (lp_cand s)) -> closes o s1 s' -> closes o s s'.
Proof.
  intros Hs Hd Hc (H0' & H1 & H2 & H3). split; [done|]. split; [done|]. rewrite <- Hs, <- Hd. split; [done|].
  destruct (lp_cand s1), (lp_cand s); try done; exfalso.
  - by destruct (proj1 Hc (ltac:(by eexists))).
  - by destruct (proj2 Hc (ltac:(by eexists))).
Qed.

(** Repeating on the account keeps the handle; the next candidate follows after the handle is closed. *)
Definition repeats s s' : Prop :=
  lp_reuse s' = true /\ lp_cand s' = lp_cand s /\ lp_done s' = lp_done s /\
  lp_outer s' = lp_outer s /\ lp_inner s' = lp_inner s + 1 /\ lp_inner s + 1 < lp_limit s.
Definition moves_on s s' : Prop :=
  lp_reuse s' = false /\ lp_cand s' = None /\ lp_outer s' = lp_outer s + 1 /\ lp_inner s' = lp_inner s /\
  lp_outer s + 1 < total_attempts q /\
  match lp_cand s with
  | Some _ => exists se, closed false se /\ lp_done s' = lp_done s ++ [se]
  | None => lp_done s' = lp_done s
  end.

Lemma end_with_closes now o b s w (e : renv R) :
  match lp_cand s with Some (_, _, se) => handle_is false b false se | None => o <> Completed end -> settles o b ->
  exists s' w' e', end_with conf utc_offset now o s w e = (Ret (inl (o, s'), w'), e') /\ closes o s s'.
Proof.
  intros Hh Hb. destruct (let_go_handle now b s w e (ltac:(by destruct (lp_cand s) as [[[]]|]))) as (s' & w' & e' & E & (_ & _ & _ & _ & Hsent) & Hc & Hd).
  exists s', w', e'. split; [unfold end_with; by erewrite ST_bind_ret by exact E|]. split; [by destruct o|]. split; [done|]. split; [done|].
  destruct (lp_cand s); [|by subst]. destruct Hd as (se' & ? & ?). by exists b, se'.
Qed.

Lemma attempt_input_fields e started up k n extra inp :
  attempt_input py_str (cq_overflow q) (cq_rules q) e (cq_stream q) started up k n extra = Some inp ->
  fi_cancelled inp = false /\ fi_downstream_started inp = (cq_stream q && started) /\ fi_candidates_remaining inp = (k <? n - 1).
Proof.
  intros Hi. apply bind_Some in Hi as ([o a] & _ & Hi). by injection Hi as <-.
Qed.

Lemma inner_retry_not_started e started extra s :
  _should_inner_retry py_str q e started extra s = Some true -> (cq_stream q && started) = false /\ lp_inner s + 1 < lp_limit s.
Proof.
  unfold _should_inner_retry. destruct (lp_limit s - 1 <=? lp_inner s) eqn:El; [done|].
  intros Hi. apply bind_Some in Hi as (o & _ & Hi). revert Hi. unfold classify_inner_retry. cbn [fi_cancelled fi_downstream_started orb].
  destruct (cq_stream q && started); [done|]. intros _. split; [done|]. btrue. lia.
Qed.

Lemma failure_retry e started extra s d :
  _handle_attempt_failure py_str q e started extra s = Some d ->
  (fd_action d = RETRY -> (cq_stream q && started) = false /\ lp_outer s + 1 < total_attempts q) /\
  (fd_action d = STREAM_ERROR_AND_STOP -> (cq_stream q && started) = true) /\
  ((cq_stream q && started) = true -> fd_action d = STREAM_ERROR_AND_STOP).
Proof.
  unfold _handle_attempt_failure. destruct (attempt_input _ _ _ _ _ _ _ _ _ _) as [inp|] eqn:Ei; [|done]. cbn [mbind option_bind].
  apply attempt_input_fields in Ei as (Hc & Hs & Hr). intros Hd.
  split; [|split].
  - intros Ha. destruct (classify_retry py_str inp d Hd Ha) as (_ & Hx & Hy & _). rewrite Hs in Hx. rewrite Hr in Hy. btrue. split; [done|lia].
  - intros Ha. rewrite <- Hs. unfold classify_failure in Hd. rewrite Hc in Hd. destruct (fi_downstream_started inp); [done|].
    destruct (request_at_fault py_str inp) as [[st f]|]; [|done]. cbn [mbind option_bind] in Hd.
    repeat case_match; by simplify_eq.
  - intros Hx. unfold classify_failure in Hd. rewrite Hc, Hs, Hx in Hd. by injection Hd as <-.
Qed.

Lemma open_closes o s : open_handle s -> settles o false ->
  match lp_cand s with Some (_, _, se) => fresh se | None => o <> Completed end.
Proof. unfold open_handle. destruct (lp_cand s) as [[[p a] se]|]; [done|]. intros _ Ho ->. done. Qed.

(** What a failed turn leads to. *)
Definition after_failure started s (r : loop_end * loop_state + loop_state) : Prop :=
  match r with
  | inl (o, s') => closes o s s'
  | inr s' => (cq_stream q && started) = false /\ lp_sent s' = lp_sent s /\ lp_limit s' = lp_limit s /\ (repeats s s' \/ moves_on s s')
  end.

Lemma keep_handle b now usage s w (env : renv R) :
  match lp_cand s with Some (_, _, se) => handle_is false b false se | None => True end ->
  exists c w' env', keep conf utc_offset now usage s w env = (Ret (set_cand c s, w'), env') /\
    match c with Some (_, _, se) => handle_is false true false se | None => True end /\ (is_Some c <-> is_Some (lp_cand s)).
Proof.
  unfold keep. destruct s as [x1 x2 x3 x4 x5 x6 [[[p a] se]|] x8 x9]; cbn [lp_cand]; intros Hf.
  - destruct (commit_handle b now usage se w env Hf) as (se' & w' & e' & E & Hs). exists (Some (p, a, se')), w', e'.
    split; [by erewrite ST_bind_ret by exact E|]. split; [done|]. split; by eexists.
  - exists None, w, env. by repeat split.
Qed.

Lemma on_failure_spec now extra e started served s w (env : renv R) :
  open_handle s ->
  exists r w' env', on_failure conf utc_offset py_str q now extra e started served s w env = (Ret (r, w'), env') /\ after_failure started s r.
Proof.
  intros Hopen. unfold on_failure. set (s0 := LoopState _ _ _ _ _ _ _ _ _). generalize (_inner_retry_extra_status_codes extra s0). intros codes.
  set (with_tried := fun tried => LoopState (lp_outer s) (lp_inner s) (lp_limit s) false tried (Some e) (lp_cand s) (lp_sent s) (lp_done s)).
  assert (forall o tried, settles o false -> exists r w' env',
    end_with conf utc_offset now o (with_tried tried) w env = (Ret (r, w'), env') /\ after_failure started s r) as Hend.
  { intros o tried Ho. destruct (end_with_closes now o false (with_tried tried) w env (open_closes _ (with_tried tried) Hopen Ho) Ho) as (s' & w' & e' & E & Hc).
    by exists (inl (o, s')), w', e'. }
  destruct (_should_inner_retry py_str q e started codes s0) as [pending|] eqn:Ep; [|by apply (Hend ClassifierRaised (lp_tried s))].
  destruct (_handle_attempt_failure py_str q e started codes s0) as [d|] eqn:Ed; [|by apply (Hend ClassifierRaised (lp_tried s))].
  destruct (failure_retry _ _ _ _ _ Ed) as (Hretry & _ & _). clear Ed.
  change (lp_outer s0) with (lp_outer s) in *. cbn zeta.
  change (LoopState (lp_outer s) _ _ false ?t _ _ _ _) with (with_tried t). generalize (tried_after q pending s0). intros tried.
  assert (pending = true -> forall r, r = LoopState (lp_outer s) (lp_inner s + 1) (lp_limit s) true tried (Some e) (lp_cand s) (lp_sent s) (lp_done s) ->
    after_failure started s (inr r)) as Hpend.
  { intros -> r ->. destruct (inner_retry_not_started _ _ _ _ Ep) as [? ?]. repeat split; [done|]. left. by repeat split. }
  destruct (fd_action d).
  - destruct pending; [do 3 eexists; split; [reflexivity | by apply Hpend]|]. destruct (Hretry eq_refl) as [Hs Ho].
    match goal with |- context [let_go _ _ _ ?x] => set (s1 := x) end.
    destruct (let_go_handle now false s1 w env Hopen) as (s' & w' & e' & E & (H1 & H2 & H3 & H4 & H5) & Hc & Hd).
    do 3 eexists. split; [by erewrite ST_bind_ret by exact E|]. repeat split; [done..|]. right.
    repeat split; try done. change (lp_cand s1) with (lp_cand s) in Hd. destruct (lp_cand s); [|by subst]. destruct Hd as (se & ? & ?). by exists se.
  - destruct (http_parts e) as [[st dt]|]; [|by apply Hend].
    destruct (_canonical_context_overflow_exception _ _ _ _); by apply Hend.
  - destruct (keep_handle false now served (with_tried tried) w env Hopen) as (c & w1 & e1 & E1 & Hc & Hsome).
    destruct (end_with_closes now (StreamError e) true (set_cand c (with_tried tried)) w1 e1 (ltac:(by destruct c as [[[]]|])) eq_refl) as (s' & w' & e' & E & Hcl).
    exists (inl (StreamError e, s')), w', e'. split; [erewrite ST_bind_ret by exact E1; exact E|].
    by eapply closes_cand; [..|exact Hcl].
  - destruct pending; [do 3 eexists; split; [reflexivity | by apply Hpend]|]. by apply Hend.
  - destruct pending; [do 3 eexists; split; [reflexivity | by apply Hpend]|]. by apply Hend.
Qed.

(** Counting the request of a turn. *)
Definition bump s : loop_state :=
  LoopState (lp_outer s) (lp_inner s) (lp_limit s) (lp_reuse s) (lp_tried s) (lp_last s) (lp_cand s) (lp_sent s + 1) (lp_done s).
Definition after_send s (r : loop_end * loop_state + loop_state) : Prop :=
  match r with
  | inl (o, s') => closes o s s' \/ closes o (bump s) s'
  | inr s' => lp_sent s <= lp_sent s' <= lp_sent s + 1 /\ lp_limit s' = lp_limit s /\ (repeats s s' \/ moves_on s s')
  end.

Lemma after_failure_send started s r : after_failure started s r -> after_send s r.
Proof. destruct r as [[o s']|s']; [by left|]. intros (_ & H1 & H2 & H3). split; [lia|]. by split. Qed.
Lemma after_failure_bump started s r : after_failure started (bump s) r -> after_send s r.
Proof. destruct r as [[o s']|s']; [by right|]. intros (_ & H1 & H2 & H3). simpl in H1. split; [lia|]. by split. Qed.

Lemma cancelled_spec b (started : bool) now served s w (env : renv R) :
  match lp_cand s with Some (_, _, se) => handle_is false b false se | None => True end ->
  exists s' w' env', ((s ← (if started then keep conf utc_offset now served s else mret s); end_with conf utc_offset now CancelledRaised s) : ST world R _) w env =
    (Ret (inl (CancelledRaised, s'), w'), env') /\ closes CancelledRaised s s'.
Proof.
  intros Hh. destruct started.
  - destruct (keep_handle b now served s w env Hh) as (c & w1 & e1 & E1 & Hc & Hsome).
    destruct (end_with_closes now CancelledRaised true (set_cand c s) w1 e1) as (s' & w' & e' & E & Hcl);
      [destruct c as [[[]]|]; done | done |].
    exists s', w', e'. split; [erewrite ST_bind_ret by exact E1; exact E|]. by eapply closes_cand; [..|exact Hcl].
  - destruct (end_with_closes now CancelledRaised b s w env) as (s' & w' & e' & E & Hcl); [destruct (lp_cand s) as [[[]]|]; done | done |].
    by exists s', w', e'.
Qed.

Lemma send_spec t s w (env : renv R) :
  open_handle s ->
  exists r w' env', send conf utc_offset py_str q t s w env = (Ret (r, w'), env') /\ after_send s r.
Proof.
  intros Hopen. unfold send. destruct (lp_cand s) as [[[p a] se]|] eqn:Ec.
  2:{ destruct (on_failure_spec (tu_now t) (tu_extra t) (OtherError NO_CLIENT) false None s w env Hopen) as (r & w' & e' & E & Hr).
      exists r, w', e'. split; [exact E|]. by eapply after_failure_send. }
  rewrite <- Ec. change (LoopState _ _ _ _ _ _ _ (lp_sent s + 1) _) with (bump s).
  destruct (tu_upstream t) as [usage gone|e started served|started served].
  - assert (fresh se) as Hf by (unfold open_handle in Hopen; by rewrite Ec in Hopen).
    destruct (commit_handle false (tu_now t) usage se w env Hf) as (se' & w1 & e1 & E1 & Hs).
    erewrite ST_bind_ret by exact E1. set (s1 := set_cand (Some (p, a, se')) (bump s)).
    assert (forall o s', closes o s1 s' -> closes o (bump s) s') as Hcl.
    { intros o s'. apply closes_cand; [done..|]. simpl. rewrite Ec. split; by eexists. }
    destruct gone as [[started served]|].
    + destruct (cancelled_spec true started (tu_now t) served s1 w1 e1 Hs) as (s' & w' & e' & E & Hc).
      exists (inl (CancelledRaised, s')), w', e'. split; [exact E|]. right. by apply Hcl.
    + destruct (end_with_closes (tu_now t) Completed true s1 w1 e1 Hs eq_refl) as (s' & w' & e' & E & Hc).
      exists (inl (Completed, s')), w', e'. split; [exact E|]. right. by apply Hcl.
  - destruct (on_failure_spec (tu_now t) (tu_extra t) e started served (bump s) w env Hopen) as (r & w' & e' & E & Hr).
    exists r, w', e'. split; [exact E|]. by eapply after_failure_bump.
  - destruct (cancelled_spec false started (tu_now t) served (bump s) w env Hopen) as (s' & w' & e' & E & Hc).
    exists (inl (CancelledRaised, s')), w', e'. split; [exact E|]. by right.
Qed.

(** ** The whole loop *)

Variable M : Z.
Hypothesis HM : 1 <= M.

(** The turns: a candidate comes with an unused handle, and no channel repeats more than [M - 1] times. *)
Definition turn_ok t : Prop :=
  match tu_acquire t with Acquired _ _ se => fresh se | _ => True end /\
  match tu_retry_count t with Some n => n + 1 <= M | None => True end.

(** Requests that may still follow. *)
Definition left_over s : Z := (total_attempts q - lp_outer s) * M - (if lp_reuse s then lp_inner s else 0).

Record running s : Prop := {
  ru_inner : 0 <= lp_inner s < lp_limit s;
  ru_limit : lp_limit s <= M;
  ru_outer : lp_outer s <= total_attempts q;
  ru_cand : open_handle s /\ (lp_reuse s = false -> lp_cand s = None);
  ru_done : Forall (closed false) (lp_done s);
  ru_sent : 0 <= lp_sent s /\ lp_sent s + left_over s <= total_attempts q * M;
  ru_reuse : lp_reuse s = true -> lp_outer s < total_attempts q;
}.

(** Every candidate is closed; only the last one may be settled. *)
Definition clean_end (o : loop_end) s : Prop :=
  lp_cand s = None /\
  exists failed last, lp_done s = failed ++ last /\ Forall (closed false) failed /\
    (last = [] /\ o <> Completed \/ exists b se, last = [se] /\ closed b se /\ settles o b).

Lemma closes_clean o s s' : Forall (closed false) (lp_done s) -> closes o s s' -> clean_end o s'.
Proof.
  intros Hd (_ & Hc & _ & Hl). split; [done|]. destruct (lp_cand s).
  - destruct Hl as (b & se & Hb & Hs & E). exists (lp_done s), [se]. split; [done|]. split; [done|]. right. by exists b, se.
  - destruct Hl as [Ho E]. exists (lp_done s), []. rewrite app_nil_r. split; [done|]. split; [done|]. by left.
Qed.

Lemma total_positive : 1 <= total_attempts q.
Proof. unfold total_attempts. destruct (_ || _); lia. Qed.

Lemma inner_limit_ok p n : match n with Some n => n + 1 <= M | None => True end -> 1 <= _inner_retry_limit q p n <= M.
Proof. unfold _inner_retry_limit. destruct (_ || _); [lia|]. destruct n; lia. Qed.

(** A turn from a running state: it goes on with less left over, or ends. *)
Definition after_turn s (r : loop_end * loop_state + loop_state) : Prop :=
  match r with
  | inl (o, s') => 0 <= lp_sent s' <= total_attempts q * M /\ if key_rejected o then s' = s else clean_end o s'
  | inr s' => running s' /\ left_over s' < left_over s
  end.

(** The state a request is sent in: reused, or with what was acquired. *)
Lemma send_turn s s0 r :
  running s -> lp_outer s < total_attempts q ->
  lp_outer s0 = lp_outer s -> lp_sent s0 = lp_sent s -> lp_done s0 = lp_done s ->
  0 <= lp_inner s0 < lp_limit s0 -> lp_limit s0 <= M -> open_handle s0 -> (if lp_reuse s then lp_inner s else 0) <= lp_inner s0 ->
  after_send s0 r -> after_turn s r.
Proof.
  intros Hrun Ho Eo Es Ed Hi Hl Hopen Hri. destruct Hrun as [Hin Hlim Hout [Hc Hrc] Hd [Hs0 Hs] Hreuse].
  assert (1 <= left_over s) as Hleft by (unfold left_over; destruct (lp_reuse s); nia).
  destruct r as [[o s']|s']; simpl.
  - intros [Hcl|Hcl]; rewrite (proj1 Hcl).
    + split; [destruct Hcl as (_ & _ & -> & _); lia|]. eapply closes_clean; [|exact Hcl]. by rewrite Ed.
    + split; [destruct Hcl as (_ & _ & -> & _); simpl; lia|]. eapply closes_clean; [|exact Hcl]. simpl. by rewrite Ed.
  - intros (Hsent & Hlimit & [(H1 & H2 & H3 & H4 & H5 & H6)|(H1 & H2 & H3 & H4 & H5 & H6)]).
    + assert (left_over s' < left_over s) by (unfold left_over in *; rewrite H1, H4, H5, Eo; destruct (lp_reuse s); lia).
      split; [|done]. split; [lia|lia|lia| |by rewrite H3, Ed|lia|intros _; lia].
      split; [unfold open_handle; by rewrite H2|]. intros Hf. congruence.
    + assert (left_over s' < left_over s) by (unfold left_over in *; rewrite H1, H3, Eo; destruct (lp_reuse s); nia).
      split; [|done]. split; [lia|lia|lia| | |lia|intros Hf; congruence].
      * unfold open_handle. by rewrite H2.
      * rewrite Ed in H6. destruct (lp_cand s0); [|by rewrite H6]. destruct H6 as (se & Hse & ->).
        apply Forall_app. split; [done|]. by constructor.
Qed.

Lemma turn_spec t s w (env : renv R) :
  turn_ok t -> running s -> lp_outer s < total_attempts q ->
  exists r w' env', turn conf utc_offset py_str q t s w env = (Ret (r, w'), env') /\ after_turn s r.
Proof.
  intros [Ha Hn] Hrun Ho. unfold turn. destruct (tu_key t) as [[st d]|] eqn:Ek.
  { exists (inl (KeyRejected st d, s)), w, env. split; [done|]. destruct Hrun as [? ? ? ? ? [? ?] ?]. split; [|done].
    assert (0 <= left_over s); [|lia]. unfold left_over. destruct (lp_reuse s); nia. }
  pose proof Hrun as [Hin Hlim Hout [Hc Hrc] Hd [Hs0 Hs] Hreuse].
  assert (forall s0 r, lp_outer s0 = lp_outer s -> lp_sent s0 = lp_sent s -> lp_done s0 = lp_done s ->
    0 <= lp_inner s0 < lp_limit s0 -> lp_limit s0 <= M -> open_handle s0 -> (if lp_reuse s then lp_inner s else 0) <= lp_inner s0 ->
    after_send s0 r -> after_turn s r) as Hturn by (intros; by eapply send_turn).
  destruct (lp_reuse s) eqn:Er.
  - destruct (send_spec t (set_reuse false s) w env Hc) as (r & w' & e' & E & Hr). exists r, w', e'. split; [exact E|].
    by apply (Hturn (set_reuse false s) r).
  - assert (open_handle s) as Hopen by (unfold open_handle; by rewrite Hrc).
    destruct (tu_acquire t) as [p a se|st d code|e].
    + pose proof (inner_limit_ok p _ Hn) as Hl. set (s0 := LoopState _ _ _ _ _ _ _ _ _).
      destruct (send_spec t s0 w env Ha) as (r & w' & e' & E & Hr). exists r, w', e'. split; [exact E|].
      by apply (Hturn s0 r); simpl; try lia.
    + destruct (end_with_closes (tu_now t) (NoAccountRaised st d code) false s w env) as (s' & w' & e' & E & Hcl); [by rewrite Hrc|done|].
      exists (inl (NoAccountRaised st d code, s')), w', e'. split; [exact E|]. apply (Hturn s); try done; [lia|]. by left.
    + destruct (on_failure_spec (tu_now t) (tu_extra t) e false None s w env Hopen) as (r & w' & e' & E & Hr).
      exists r, w', e'. split; [exact E|]. apply (Hturn s); try done; [lia|]. by eapply after_failure_send.
Qed.

Lemma loop_spec ts s w (env : renv R) :
  Forall turn_ok ts -> running s ->
  exists o s' w' env', run_loop conf utc_offset py_str q ts s w env = (Ret ((o, s'), w'), env') /\
    0 <= lp_sent s' <= total_attempts q * M /\
    match o with
    | None => Z.of_nat (length ts) < left_over s
    | Some o => key_rejected o = true /\ (exists s0, running s0 /\ s' = s0) \/ key_rejected o = false /\ clean_end o s'
    end.
Proof.
  intros Hts. revert s w env. induction Hts as [|t ts Ht Hts IH]; intros s w env Hrun; cbn [run_loop].
  all: pose proof Hrun as [Hin Hlim Hout [Hc Hrc] Hd [Hs0 Hs] Hreuse].
  all: assert (lp_reuse s = false \/ lp_outer s < total_attempts q) as Hr by (destruct (lp_reuse s); [right; auto|by left]).
  all: assert (0 <= left_over s) by (unfold left_over; destruct (lp_reuse s); [specialize (Hreuse eq_refl)|]; nia).
  all: destruct (lp_outer s <? total_attempts q) eqn:Eo; btrue.
  2, 4: exists (Some Exhausted), s, w, env; (split; [done|]); (split; [lia|]); right; (split; [done|]);
    destruct Hr as [Hr|]; [|lia]; (split; [by apply Hrc|]); exists (lp_done s), []; rewrite app_nil_r; (split; [done|]); (split; [done|]); by left.
  - exists None, s, w, env. split; [done|]. split; [lia|]. simpl. unfold left_over. destruct (lp_reuse s); nia.
  - destruct (turn_spec t s w env Ht Hrun Eo) as (r & w1 & e1 & E1 & Hr1). erewrite ST_bind_ret by exact E1.
    destruct r as [[o s']|s'].
    + destruct Hr1 as [Hb Hr1]. exists (Some o), s', w1, e1. split; [done|]. split; [done|].
      destruct (key_rejected o) eqn:Ek; [left | right]; (split; [done|]); [|done]. by exists s.
    + destruct Hr1 as [Hrun' Hl]. destruct (IH s' w1 e1 Hrun') as (o & s2 & w2 & e2 & E2 & Hb & Ho).
      exists o, s2, w2, e2. split; [exact E2|]. split; [done|]. destruct o; [done|]. simpl. lia.
Qed.

Lemma running_start : running loop_start.
Proof.
  pose proof total_positive. split; simpl; try done; try lia. unfold left_over. simpl. lia.
Qed.

(** C11: A request ends: with as many turns as attempts times requests per
    candidate the loop has come to an end, whatever upstream, Redis and the
    selection do, and it has sent at most that many requests. *)
Theorem request_terminates ts w (env : renv R) :
  Forall turn_ok ts -> total_attempts q * M <= Z.of_nat (length ts) ->
  exists o s w' env', run_loop conf utc_offset py_str q ts loop_start w env = (Ret ((Some o, s), w'), env') /\
    0 <= lp_sent s <= total_attempts q * M.
Proof.
  intros Hts Hn. destruct (loop_spec ts loop_start w env Hts running_start) as (o & s & w' & e' & E & Hb & Ho).
  destruct o as [o|]; [by exists o, s, w', e'|]. unfold left_over in Ho. simpl in Ho. lia.
Qed.

(** C12: Unless the API key is rejected between two requests, a request leaves no
    candidate behind: every account it took is closed and its slot returned; all
    candidates but the last are rolled back; the last one is settled when the
    request was answered or broke off after output, and rolled back at any other
    end but a cancellation, so usage is charged to at most one candidate. *)
Theorem candidates_closed ts w (env : renv R) o s w' env' :
  Forall turn_ok ts -> run_loop conf utc_offset py_str q ts loop_start w env = (Ret ((Some o, s), w'), env') ->
  key_rejected o = false -> clean_end o s.
Proof.
  intros Hts E Hk. destruct (loop_spec ts loop_start w env Hts running_start) as (o' & s' & w1 & e1 & E1 & _ & Ho).
  rewrite E in E1. injection E1 as <- <- _ _. by destruct Ho as [[? _]|[_ ?]]; [congruence|].
Qed.

(** ** A recognised overflow *)

Section overflow.
Variables (st : Z) (d : json) (e : canonical_error).
Hypotheses (Hswitch : cq_overflow q = true) (He : canonicalize_upstream_error py_str (Some st) d = Some (Some e)).

Lemma overflow_at_fault rules : non_retryable_with_switch py_str true rules st d = Some true.
Proof. unfold non_retryable_with_switch. by rewrite He. Qed.
Lemma overflow_not_repeated started extra s : (cq_stream q && started) = false ->
  _should_inner_retry py_str q (HttpError st d) started extra s = Some false.
Proof.
  intros Hs. unfold _should_inner_retry. destruct (lp_limit s - 1 <=? lp_inner s); [done|].
  cbn [http_parts]. rewrite Hswitch, overflow_at_fault. cbn [fmap option_fmap option_map mbind option_bind].
  unfold classify_inner_retry, request_at_fault. cbn [fi_cancelled fi_downstream_started]. by rewrite Hs.
Qed.
Lemma overflow_decision started extra s : (cq_stream q && started) = false ->
  fd_action <$> _handle_attempt_failure py_str q (HttpError st d) started extra s = Some RETURN_CLIENT_ERROR.
Proof.
  intros Hs. unfold _handle_attempt_failure, attempt_input. cbn [http_parts]. rewrite Hswitch, overflow_at_fault, He.
  cbn [mbind option_bind]. rewrite (bool_decide_eq_true_2 (is_Some (Some e))) by done. unfold classify_failure, request_at_fault.
  cbn [fi_cancelled fi_downstream_started fi_is_http_exception fi_status_code fi_non_retryable_override fi_overflow_canonical_active fst fmap option_fmap option_map mbind option_bind andb].
  rewrite Hs. change (bool_decide (is_Some (Some (st, d)))) with true. cbn. by rewrite orb_true_r.
Qed.

Lemma overflow_send started served t s w (env : renv R) :
  open_handle s -> is_Some (lp_cand s) -> tu_upstream t = Failed (HttpError st d) started served -> (cq_stream q && started) = false ->
  exists s' w' env', send conf utc_offset py_str q t s w env =
      (Ret (inl (ClientError (HttpError st d) (Some (400, canonical_detail e)), s'), w'), env') /\
    lp_sent s' = lp_sent s + 1 /\ lp_cand s' = None /\ exists se, closed false se /\ lp_done s' = lp_done s ++ [se].
Proof.
  intros Hopen [[[p a] se] Hc] Hu Hs. unfold send. rewrite Hc, Hu. unfold on_failure. rewrite overflow_not_repeated by done.
  set (codes := _inner_retry_extra_status_codes _ _). set (s0 := LoopState _ _ _ false _ _ _ _ _).
  pose proof (overflow_decision started codes s0 Hs) as Hd. destruct (_handle_attempt_failure _ _ _ _ _ _) as [dec|]; [|done].
  injection Hd as ->. cbn [http_parts]. unfold _canonical_context_overflow_exception. rewrite He, Hswitch. cbn [mbind option_bind].
  destruct (canonicalize_inv _ _ _ _ He) as (r & win & Hr & Heq & _).
  assert (ce_status_code e = 400) as -> by (rewrite Heq; by apply canonical_status).
  match goal with |- context [end_with _ _ _ ?o ?x] => set (s1 := x) end.
  destruct (let_go_handle (tu_now t) false s1 w env) as (s' & w' & e' & E & (_ & _ & _ & _ & Hsent) & Hn & Hdone).
  { unfold open_handle in Hopen. rewrite Hc in Hopen. exact Hopen. }
  exists s', w', e'. split; [unfold end_with; by erewrite ST_bind_ret by exact E|].
  split; [by rewrite Hsent|split; [done|]]. exact Hdone.
Qed.

(** C38: Wherever in a request it comes, before any streamed output, an error of the
    upstream that is recognised as an overflow (with the switch on) is the last thing the
    request does: however many repetitions, candidates and turns are left, no further
    request is sent, the account is rolled back and given up, and the client gets HTTP
    400 with the code of the overflow and a message it compacts its conversation for. *)
Theorem overflow_ends_request t ts s w (env : renv R) started served :
  running s -> lp_outer s < total_attempts q -> turn_ok t ->
  tu_key t = None -> lp_reuse s = true /\ is_Some (lp_cand s) \/ lp_reuse s = false /\ (exists p a se, tu_acquire t = Acquired p a se) ->
  tu_upstream t = Failed (HttpError st d) started served -> (cq_stream q && started) = false ->
  exists s' w' env', run_loop conf utc_offset py_str q (t :: ts) s w env =
      (Ret ((Some (ClientError (HttpError st d) (Some (400, canonical_detail e))), s'), w'), env') /\
    lp_sent s' = lp_sent s + 1 /\ lp_cand s' = None /\ (exists se, closed false se /\ lp_done s' = lp_done s ++ [se]) /\
    forall anthropic hs, exists r,
      openai_http_exception_handler py_str true anthropic (HttpException 400 (canonical_detail e) hs None) = Some r /\
      rs_status r = 400 /\ rs_headers r = hs /\ body_text "code" r = ce_code e /\
      (is_overflow e = true -> anchored (body_text "message" r) = true /\ obj_get "compact" (body_error r) = Some (JBool true)).
Proof.
  intros Hrun Ho [Hf _] Hk Hsend Hu Hs. cbn [run_loop]. rewrite (proj2 (Z.ltb_lt _ _)) by lia.
  assert (exists s' w' env', turn conf utc_offset py_str q t s w env =
      (Ret (inl (ClientError (HttpError st d) (Some (400, canonical_detail e)), s'), w'), env') /\
    lp_sent s' = lp_sent s + 1 /\ lp_cand s' = None /\ exists se, closed false se /\ lp_done s' = lp_done s ++ [se])
    as (s' & w' & e' & E & H1 & H2 & H3).
  { unfold turn. rewrite Hk. destruct Hsend as [[-> Hc]|[-> (p & a & se & Ha)]].
    - destruct (ru_cand _ Hrun) as [Hopen _]. by apply (overflow_send started served t (set_reuse false s)).
    - rewrite Ha in *. match goal with |- context [send _ _ _ _ _ ?s0] => apply (overflow_send started served t s0) end; done. }
  exists s', w', e'. split; [by erewrite ST_bind_ret by exact E|]. split; [done|split; [done|split; [done|]]].
  intros anthropic hs. destruct (canonicalize_inv _ _ _ _ He) as (r & win & Hr & -> & Hw).
  eexists. split; [by apply handler_recognised, canonical_fixpoint|].
  rewrite (canonical_status r win Hr).
  destruct (overflow_body_fields anthropic r win hs Hr Hw) as (Hm & Hc & Hz). rewrite Hm.
  split; [done|split; [done|split; [done|]]]. intros Hov. split; [by apply overflow_anchored|done].
Qed.
End overflow.

(** ** Two ends that are not meant *)

Lemma network_retry text now extra served s w (env : renv R) :
  lp_inner s + 1 < lp_limit s ->
  on_failure conf utc_offset py_str q now extra (NetworkError text) false served s w env =
  (Ret (inr (LoopState (lp_outer s) (lp_inner s + 1) (lp_limit s) true (lp_tried s) (Some (NetworkError text)) (lp_cand s) (lp_sent s) (lp_done s)), w), env).
Proof.
  intros Hi. unfold on_failure, _should_inner_retry, _handle_attempt_failure, attempt_input. cbn [lp_limit lp_inner http_parts mbind option_bind].
  rewrite (proj2 (Z.leb_gt _ _)) by lia. unfold classify_inner_retry, classify_failure, request_at_fault.
  cbn [fi_cancelled fi_downstream_started fi_is_http_exception fi_transient_exception fi_retryable_incomplete_response fi_candidates_remaining mbind option_bind orb].
  rewrite andb_false_r. cbn. unfold tried_after. destruct (lp_cand s) as [[[p a] se]|]; cbn [lp_cand lp_outer andb negb];
    rewrite ?andb_false_r; by destruct (_ <? _).
Qed.

(** The key is checked outside the block that gives the candidate back: if
    the key is blocked after a network failure that is to be repeated on the
    account, the request ends and the account it holds is never released, rolled
    back or settled: neither the process nor Redis is touched. *)
Lemma key_rejection_leaks t1 t2 ts p a se text served n st d w (env : renv R) :
  tu_key t1 = None -> tu_acquire t1 = Acquired p a se -> tu_upstream t1 = Failed (NetworkError text) false served ->
  tu_retry_count t1 = Some n -> 0 < n -> str_truthy p = true -> cq_is_test q || cq_is_probe q = false ->
  tu_key t2 = Some (st, d) ->
  exists s, run_loop conf utc_offset py_str q (t1 :: t2 :: ts) loop_start w env = (Ret ((Some (KeyRejected st d), s), w), env) /\
    lp_cand s = Some (p, a, se) /\ lp_done s = [].
Proof.
  intros Hk Ha Hu Hn Hpos Hp Hq Hk2. pose proof total_positive as Ht. cbn [run_loop]. rewrite (proj2 (Z.ltb_lt _ _)) by (simpl; lia).
  assert (turn conf utc_offset py_str q t1 loop_start w env =
    (Ret (inr (LoopState 0 1 (n + 1) true [] (Some (NetworkError text)) (Some (p, a, se)) 1 []), w), env)) as E1.
  { unfold turn, send. rewrite Hk, Ha. cbn [lp_reuse loop_start lp_cand]. rewrite Hu.
    assert (_inner_retry_limit q p (tu_retry_count t1) = n + 1) as -> by (unfold _inner_retry_limit; rewrite Hq, Hp, Hn; simpl; lia).
    apply network_retry. simpl. lia. }
  erewrite ST_bind_ret by exact E1. cbn [lp_outer]. rewrite (proj2 (Z.ltb_lt _ _)) by lia.
  unfold turn. rewrite Hk2. eexists. split; [reflexivity|]. by split.
Qed.

(** An empty answer moves on to the next candidate, a failure of another kind ends the request. *)
Lemma empty_moves_on text now extra served s w (env : renv R) :
  open_handle s -> lp_outer s + 1 < total_attempts q ->
  exists s' w' env', on_failure conf utc_offset py_str q now extra (EmptyResponse text) false served s w env = (Ret (inr s', w'), env') /\
    lp_reuse s' = false /\ lp_cand s' = None /\ lp_outer s' = lp_outer s + 1 /\ lp_inner s' = lp_inner s /\
    lp_limit s' = lp_limit s /\ lp_sent s' = lp_sent s.
Proof.
  intros Hopen Ho. unfold on_failure, _should_inner_retry, _handle_attempt_failure, attempt_input.
  cbn [lp_limit lp_inner lp_outer http_parts mbind option_bind].
  rewrite (proj2 (Z.ltb_lt _ _)) by lia. unfold classify_inner_retry, classify_failure, request_at_fault.
  cbn [fi_cancelled fi_downstream_started fi_is_http_exception fi_transient_exception fi_retryable_incomplete_response fi_candidates_remaining mbind option_bind orb andb].
  rewrite andb_false_r. destruct (lp_limit s - 1 <=? lp_inner s); cbn;
    (match goal with |- context [let_go _ _ _ ?x] => destruct (let_go_handle now false x w env Hopen) as (s' & w' & e' & E & (H1 & H2 & H3 & H4 & H5) & Hc & _) end);
    exists s', w', e'; (split; [by erewrite ST_bind_ret by exact E|]); by repeat split.
Qed.

Lemma no_client_ends text now extra s w (env : renv R) :
  lp_cand s = None ->
  exists s', on_failure conf utc_offset py_str q now extra (OtherError text) false None s w env = (Ret (inl (Exhausted, s'), w), env) /\
    lp_outer s' = lp_outer s /\ lp_sent s' = lp_sent s /\ lp_last s' = Some (OtherError text).
Proof.
  intros Hc. unfold on_failure, _should_inner_retry, _handle_attempt_failure, attempt_input.
  cbn [lp_limit lp_inner lp_outer lp_cand http_parts mbind option_bind].
  unfold classify_inner_retry, classify_failure, request_at_fault.
  cbn [fi_cancelled fi_downstream_started fi_is_http_exception fi_transient_exception fi_retryable_incomplete_response fi_candidates_remaining mbind option_bind orb andb].
  rewrite andb_false_r. destruct (lp_limit s - 1 <=? lp_inner s); cbn; unfold end_with, let_go; cbn [lp_cand]; rewrite Hc;
    (eexists; split; [reflexivity|]); by repeat split.
Qed.

(** The count of repetitions of one candidate outlives it: when the next
    selection fails for the network, the loop repeats on an account it does not
    have, and the request ends as exhausted after one request, however many
    attempts are left and whatever candidate could be had. *)
Lemma stale_repetition_ends_request t1 t2 t3 ts p a se text1 text2 served n w (env : renv R) :
  tu_key t1 = None -> tu_acquire t1 = Acquired p a se -> fresh se -> tu_upstream t1 = Failed (EmptyResponse text1) false served ->
  tu_retry_count t1 = Some n -> 0 < n -> str_truthy p = true -> cq_is_test q || cq_is_probe q = false -> 1 < total_attempts q ->
  tu_key t2 = None -> tu_acquire t2 = AcquireFailed (NetworkError text2) -> tu_key t3 = None ->
  exists s w' env', run_loop conf utc_offset py_str q (t1 :: t2 :: t3 :: ts) loop_start w env = (Ret ((Some Exhausted, s), w'), env') /\
    lp_sent s = 1 /\ lp_outer s = 1 /\ lp_last s = Some (OtherError NO_CLIENT).
Proof.
  intros Hk Ha Hf Hu Hn Hpos Hp Hq Ht Hk2 Ha2 Hk3.
  assert (_inner_retry_limit q p (tu_retry_count t1) = n + 1) as Hl by (unfold _inner_retry_limit; rewrite Hq, Hp, Hn; simpl; lia).
  set (s1 := LoopState 0 0 (n + 1) false [] None (Some (p, a, se)) 1 []).
  destruct (empty_moves_on text1 (tu_now t1) (tu_extra t1) served s1 w env Hf Ht) as (s2 & w2 & e2 & E2 & Hr & Hc & Ho & Hi & Hlim & Hsent).
  cbn [run_loop]. rewrite (proj2 (Z.ltb_lt _ _)) by (simpl; lia).
  erewrite ST_bind_ret by (unfold turn, send; rewrite Hk, Ha; cbn [lp_reuse loop_start lp_cand]; rewrite Hu, Hl; exact E2).
  cbn [run_loop]. rewrite (proj2 (Z.ltb_lt _ _)) by (rewrite Ho; simpl; lia).
  erewrite ST_bind_ret by (unfold turn; rewrite Hk2, Hr, Ha2; apply network_retry; rewrite Hi, Hlim; simpl; lia).
  set (s3 := LoopState _ _ _ true _ _ _ _ _).
  destruct (no_client_ends NO_CLIENT (tu_now t3) (tu_extra t3) (set_reuse false s3) w2 e2 Hc) as (s4 & E4 & Ho4 & Hs4 & Hl4).
  cbn [run_loop]. rewrite (proj2 (Z.ltb_lt _ _)) by (simpl; rewrite Ho; simpl; lia).
  erewrite ST_bind_ret by (unfold turn, send; rewrite Hk3; cbn [lp_reuse s3 set_reuse lp_cand]; rewrite Hc; exact E4).
  exists s4, w2, e2. split; [done|]. rewrite Ho4, Hs4, Hl4. simpl. rewrite Ho, Hsent. done.
Qed.
End props.

(** ** A concrete request *)

Module LoopSample.
Import Sample ManagerSample.

Definition py_str (v : json) : string := dump_value v.
Definition chat : chat_request := ChatRequest true false false 3 true [].
Definition handle : session := Session new_candidate (account 2) [].
Definition answer : upstream_result := Answered (Some (JObj [("total_tokens", JNum "7")])) None.
Definition take (n : Z) (u : upstream_result) : turn_input := TurnInput None (Acquired "p" "u" handle) (Some n) [] u now.
Definition no_network : turn_input := TurnInput None (AcquireFailed (NetworkError "reset")) None [] answer now.
Definition blocked : turn_input := TurnInput (Some (429, JStr "blocked")) (Acquired "p" "u" handle) (Some 1) [] answer now.
Definition overloaded : upstream_result := Failed (HttpError 503 (JStr "overloaded")) false None.
Definition broken : upstream_result := Failed (NetworkError "reset") false None.
Definition empty : upstream_result := Failed (EmptyResponse "empty") false None.

(** Three times 503 on the first account, then an answer. *)
Definition turns : list turn_input := replicate 3 (take 2 overloaded) ++ replicate 9 (take 2 answer).

Lemma handle_fresh : handle_is false false false handle.
Proof. by split. Qed.
Lemma turns_ok : Forall (turn_ok 3) turns.
Proof. repeat (constructor; [split; [apply handle_fresh | simpl; lia]|]). constructor. Qed.

Definition ended := outcome (None, loop_start, w0) (run_loop conf off py_str chat turns loop_start w0) e0.
Lemma ended_run : run_loop conf off py_str chat turns loop_start w0 e0 =
  (Ret ((ended.1.1, ended.1.2), ended.2), (run_loop conf off py_str chat turns loop_start w0 e0).2).
Proof. unfold ended. rewrite (outcome_eq (None, loop_start, w0)) at 1 by (by vm_compute). by rewrite <- !surjective_pairing. Qed.

Lemma request_terminates_witness :
  exists o s w' e', run_loop conf off py_str chat turns loop_start w0 e0 = (Ret ((Some o, s), w'), e') /\ 0 <= lp_sent s <= 12.
Proof. exact (request_terminates conf off py_str chat 3 ltac:(lia) turns w0 e0 turns_ok ltac:(by vm_compute)). Defined.

Lemma candidates_closed_witness :
  ended.1.1 = Some Completed /\ lp_sent ended.1.2 = 4 /\ length (lp_done ended.1.2) = 2%nat /\ clean_end Completed ended.1.2.
Proof.
  assert (ended.1.1 = Some Completed) as Hc by (by vm_compute). split; [exact Hc|]. split; [by vm_compute|]. split; [by vm_compute|].
  apply (candidates_closed conf off py_str chat 3 ltac:(lia) turns w0 e0 Completed ended.1.2 ended.2
    (run_loop conf off py_str chat turns loop_start w0 e0).2 turns_ok); [|done].
  rewrite <- Hc. exact ended_run.
Defined.

(** After a 503 that is repeated on the account, a relay's HTTP 500 that hides an overflow. *)
Definition hidden : json := JStr "upstream: maximum context length is 131072 tokens".
Definition overflow : upstream_result := Failed (HttpError 500 hidden) false None.
Definition repeating : loop_state := LoopState 0 1 3 true [] (Some (HttpError 503 (JStr "overloaded"))) (Some ("p", "u", handle)) 1 [].
Lemma overflow_ends_request_witness :
  exists s w e', run_loop conf off py_str chat (take 2 overflow :: turns) repeating w0 e0 =
      (Ret ((Some (ClientError (HttpError 500 hidden) (Some (400, canonical_detail (rule_result (Some 131072) rule_context_length_exceeded)))), s), w), e') /\
    lp_sent s = 2 /\ exists r,
    openai_http_exception_handler py_str true false (HttpException 400 (canonical_detail (rule_result (Some 131072) rule_context_length_exceeded)) [] None) = Some r /\
    anchored (body_text "message" r) = true.
Proof.
  assert (running chat 3 repeating) as Hrun by (split; try done; try (by constructor); split; done).
  destruct (overflow_ends_request conf off py_str chat 3 500 hidden (rule_result (Some 131072) rule_context_length_exceeded) eq_refl
    ltac:(vm_compute; reflexivity) (take 2 overflow) turns repeating w0 e0 false None) as (s & w & e' & E & Hs & _ & _ & Hr);
    [exact Hrun|done|split; [exact handle_fresh|done]|done|left; split; [done|by eexists]|done|done|].
  exists s, w, e'. split; [exact E|]. split; [exact Hs|].
  destruct (Hr false []) as (r & ? & _ & _ & _ & Hm). exists r. split; [done|]. by apply Hm.
Defined.

Lemma key_rejection_leaks_witness :
  exists s, run_loop conf off py_str chat [take 2 broken; blocked] loop_start w0 e0 =
      (Ret ((Some (KeyRejected 429 (JStr "blocked")), s), w0), e0) /\
    lp_cand s = Some ("p", "u", handle) /\ lp_done s = [].
Proof.
  apply (key_rejection_leaks conf off py_str chat (take 2 broken) blocked [] "p" "u" handle "reset" None 2 429 (JStr "blocked") w0 e0);
    done.
Defined.

Lemma stale_repetition_ends_request_witness :
  exists s w' e', run_loop conf off py_str chat ([take 2 empty; no_network] ++ replicate 9 (take 2 answer)) loop_start w0 e0 =
      (Ret ((Some Exhausted, s), w'), e') /\
    lp_sent s = 1 /\ lp_outer s = 1 /\ lp_last s = Some (OtherError NO_CLIENT).
Proof.
  apply (stale_repetition_ends_request conf off py_str chat (take 2 empty) no_network (take 2 answer) (replicate 8 (take 2 answer))
    "p" "u" handle "empty" "reset" None 2 w0 e0); done.
Defined.
End LoopSample.
