(* ===== verification/Catalog.v ===== *)
(** server/model_catalog.py: the immutable catalogue of models and groups, and
    the readers of server/config.py and server/model_metadata.py over it.

    A group is a row (a dict as the database gives it).  Publishing a catalogue
    expands the fallback schemes of every group into groups of their own, chained
    by their backup field, and builds the index by name and alias. *)
From S2P Require Import Prelude Json Text Ranking.

Definition row : Type := list (string * json).

(** ** Reading a row *)

(** [[m for m in v if isinstance(m, str) and m]] for a list [v]; rows come from the
    database layer with their list fields holding lists. *)
Definition names_of (v : json) : list string :=
  match v with
  | JArr l => omap (fun x => match x with JStr s => if str_truthy s then Some s else None | _ => None end) l
  | _ => []
  end.
Definition names (k : string) (d : row) : list string := default [] (names_of <$> dict_get k d).
Definition items (v : option json) : list json := match v with Some (JArr l) => l | _ => [] end.
(** [d.get(k, alt)] *)
Definition field_or (k : string) (alt : json) (d : row) : json := default alt (dict_get k d).
(** [bool(d.get(k))] *)
Definition flag (k : string) (d : row) : bool := default false (json_truthy <$> dict_get k d).
(** [d.get("enabled", True)] *)
Definition enabled (d : row) : bool := default true (json_truthy <$> dict_get "enabled" d).

Definition SCHEME_GROUP_SEP : string := "#scheme:".

(** is_internal_model_id *)
Definition is_internal_model_id (model_id : string) : bool := str_contains SCHEME_GROUP_SEP model_id.

Section catalog.
(** Python's str of floats and containers; sha256 of the canonical JSON of the content. *)
Variables (py_str : json -> string) (digest : list (string * row) -> list (string * row) -> row -> string).

(** [str(d.get(k) or alt)] *)
Definition text_or (k alt : string) (d : row) : string :=
  match dict_get k d with
  | Some v => if json_truthy v then json_str_of py_str v else alt
  | None => alt
  end.
Definition kind_of (d : row) : string := text_or "kind" "custom" d.
Definition is_real (d : row) : bool := String.eqb (kind_of d) "real".

(** ** Expanding schemes *)

Definition scheme_id (s : row) : string := strip (text_or "id" "" s).

(** The schemes a group falls back to: marked, not the active one, with models. *)
Definition is_fallback_scheme (active_id : string) (s : json) : option row :=
  match s with
  | JObj d =>
      if str_truthy (scheme_id d) && negb (String.eqb (scheme_id d) active_id) && flag "is_backup" d
         && negb (bool_decide (names "models" d = []))
      then Some d else None
  | _ => None
  end.
Definition fallback_schemes (group : row) : list row :=
  if negb (enabled group) then [] else
  match dict_get "schemes" group with
  | Some (JArr schemes) =>
      if (length schemes <=? 1)%nat then []
      else omap (is_fallback_scheme (strip (text_or "active_scheme" "" group))) schemes
  | _ => []
  end.

Definition derived_name (group_name : string) (i : nat) : string :=
  group_name +++ SCHEME_GROUP_SEP +++ tostring (Z.of_nat i).

Definition derived_row (group scheme : row) (name next_backup : string) : row :=
  [("name", JStr name);
   ("kind", field_or "kind" (JStr "custom") group);
   ("enabled", JBool true);
   ("remark", field_or "remark" (JStr "") group);
   ("models", JArr (items (dict_get "models" scheme)));
   ("aliases", JArr []);
   ("provider_whitelist", JArr (items (dict_get "provider_whitelist" scheme)));
   ("provider_blacklist", JArr (items (dict_get "provider_blacklist" scheme)));
   ("selection_strategy", field_or "selection_strategy" (JStr "intelligent") group);
   ("backup_group", JStr next_backup);
   ("response_model", field_or "response_model" (JStr "") group);
   ("metadata_model", field_or "metadata_model" (JStr "") group);
   ("metadata_mode", field_or "metadata_mode" (JStr "") group);
   ("metadata", match dict_get "metadata" group with Some (JObj d) => JObj d | _ => JObj [] end);
   ("schemes", JArr []);
   ("active_scheme", JStr "");
   ("created_at", field_or "created_at" (JNum "0") group)].

(** The derived rows from position [i] on: each backs up to the next, the last
    one to the backup the group had. *)
Fixpoint derive (group : row) (group_name original_backup : string) (i : nat) (schemes : list row) : list (string * row) :=
  match schemes with
  | [] => []
  | s :: rest =>
      let next := match rest with [] => original_backup | _ => derived_name group_name (S i) end in
      (derived_name group_name i, derived_row group s (derived_name group_name i) next)
        :: derive group group_name original_backup (S i) rest
  end.

Definition original_backup (group : row) : string := strip (text_or "backup_group" "" group).

(** One group: its own row, and the rows derived from it. *)
Definition expand_group (key : string) (group : row) : row * list (string * row) :=
  let group_name := strip (text_or "name" key group) in
  match fallback_schemes group with
  | [] => (group, [])
  | schemes =>
      if negb (str_truthy group_name) then (group, []) else
      (dict_set "backup_group" (JStr (derived_name group_name 1)) group,
       derive group group_name (original_backup group) 1 schemes)
  end.

(** [d.update(src)] *)
Definition update_dict {A} (d src : list (string * A)) : list (string * A) := foldl (fun d kv => dict_set kv.1 kv.2 d) d src.

Definition _expand_scheme_fallback_groups (groups : list (string * row)) : list (string * row) :=
  let expanded := (fun kg => (kg.1, expand_group kg.1 kg.2)) <$> groups in
  update_dict ((fun e => (e.1, e.2.1)) <$> expanded) (update_dict [] (expanded ≫= fun e => e.2.2)).

(** ** The index by name and alias: the first group of a name keeps it *)

Definition add_first {A} (k : string) (v : A) (d : list (string * A)) : list (string * A) :=
  if str_truthy k then match dict_get k d with Some _ => d | None => d ++ [(k, v)] end else d.

(** Aliases are taken as they are, a name without its blanks. *)
Definition aliases_of (group : row) : list string := names_of (field_or "aliases" JNull group).
Definition index_group (index : list (string * row)) (kg : string * row) : list (string * row) :=
  let '(key, group) := kg in
  if is_real group || negb (enabled group) || negb (flag "models" group) then index else
  foldl (fun d a => add_first a group d) (add_first (strip (text_or "name" key group)) group index) (aliases_of group).
Definition _group_index (groups : list (string * row)) : list (string * row) := foldl index_group [] groups.

(** ** Metadata *)

(** [int(v or 0)], 0 when it raises *)
Definition int_or_zero (v : option json) : Z :=
  match v with Some v => if json_truthy v then default 0 (json_int v) else 0 | None => 0 end.

Definition _effective_max_tokens (record default_row : row) : Z :=
  let raw := match dict_get "max_tokens" record with
             | Some v => if json_truthy v then Some v else dict_get "max_tokens" default_row
             | None => dict_get "max_tokens" default_row
             end in
  int_or_zero raw.

Definition GROUP_METADATA_MODES := ["min"; "max"; "avg"; "model"].
Definition _AGGREGATED_TOKEN_FIELDS := ["max_tokens"; "max_context_tokens"].

Definition normalize_group_metadata_mode (mode metadata_model : string) : string :=
  let normalized := lower (strip mode) in
  if bool_decide (normalized ∈ GROUP_METADATA_MODES) then normalized
  else if str_truthy (strip metadata_model) then "model" else "min".

(** [int(round(a / b))]: to the nearest, halves to the even one. *)
Definition round_half_even (a b : Z) : Z :=
  let q := a / b in
  match Z.compare (2 * (a mod b)) b with
  | Lt => q
  | Gt => q + 1
  | Eq => if Z.even q then q else q + 1
  end.

Definition _aggregate_token_value (values : list Z) (mode : string) : Z :=
  if String.eqb mode "max" then foldr Z.max (default 0 (head values)) values
  else if String.eqb mode "avg" then round_half_even (foldr Z.add 0 values) (Z.of_nat (length values))
  else foldr Z.min (default 0 (head values)) values.

Definition without_id (record : row) : row := dict_del "model_id" record.

Definition aggregate_field (candidates : list row) (mode : string) (result : row) (field : string) : row :=
  match filter (fun v => 0 < v) ((fun r => int_or_zero (dict_get field r)) <$> candidates) with
  | [] => result
  | values => dict_set field (JNum (tostring (_aggregate_token_value values mode))) result
  end.

Definition compute_group_metadata (members : list string) (metadata_model metadata_mode : string)
    (metadata : list (string * row)) (default_row : row) : option row :=
  let mode := normalize_group_metadata_mode metadata_mode metadata_model in
  let selected := if str_truthy metadata_model then dict_get (strip metadata_model) metadata else None in
  match selected, String.eqb mode "model" with
  | Some record, true => Some (without_id record)
  | _, is_model =>
      let mode := if is_model then "min" else mode in
      let candidates := omap (fun m => dict_get m metadata) members in
      match min_by (fun record => [_effective_max_tokens record default_row]) candidates with
      | None => None
      | Some base => Some (foldl (aggregate_field candidates mode) (without_id base) _AGGREGATED_TOKEN_FIELDS)
      end
  end.

Definition group_metadata_of (metadata : list (string * row)) (default_row : row) (group : row) : option row :=
  compute_group_metadata (names "models" group) (text_or "metadata_model" "" group) (text_or "metadata_mode" "" group)
    metadata default_row.
Definition _group_metadata (index metadata : list (string * row)) (default_row : row) : list (string * row) :=
  foldl (fun d ig => match group_metadata_of metadata default_row ig.2 with
                     | Some computed => dict_set ig.1 computed d
                     | None => d
                     end) [] index.

(** One entry of the metadata source: a record under its model_id, its id or its key. *)
Definition add_metadata (d : list (string * row)) (entry : option string * json) : list (string * row) :=
  match entry.2 with
  | JObj record =>
      let id := match text_or "model_id" (text_or "id" "" record) record, entry.1 with
                | EmptyString, Some key => key
                | id, _ => id
                end in
      let model_id := strip id in
      if str_truthy model_id then dict_set model_id (dict_set "model_id" (JStr model_id) record) d else d
  | _ => d
  end.
Definition _metadata_by_id (raw : json) : list (string * row) :=
  foldl add_metadata []
    (match raw with
     | JObj d => (fun kv => (Some kv.1, kv.2)) <$> d
     | JArr l => (fun v => (None, v)) <$> l
     | _ => []
     end).

(** ** Snapshots *)

Record snapshot := Snapshot {
  sn_generation : Z; sn_fingerprint : string;
  sn_groups : list (string * row); sn_index : list (string * row);
  sn_metadata : list (string * row); sn_default : row; sn_group_metadata : list (string * row);
}.

Definition rows_of (v : json) : list (string * row) :=
  match v with
  | JObj d => omap (fun kv => match kv.2 with JObj r => Some (kv.1, r) | _ => None end) d
  | _ => []
  end.
Definition named_groups (raw : json) : list (string * row) :=
  update_dict [] ((fun kg => (text_or "name" kg.1 kg.2, kg.2)) <$> rows_of raw).

(** [frozen_groups[str(group.get("name") or display_id)]]: a missing key raises. *)
Fixpoint resolve_index (groups index : list (string * row)) : option (list (string * row)) :=
  match index with
  | [] => Some []
  | (display_id, group) :: rest =>
      g ← dict_get (text_or "name" display_id group) groups;
      r ← resolve_index groups rest;
      Some ((display_id, g) :: r)
  end.

Definition _build_snapshot (source : row) (generation : Z) : option snapshot :=
  let groups := _expand_scheme_fallback_groups (named_groups (field_or "groups" JNull source)) in
  let metadata := _metadata_by_id (field_or "metadata" JNull source) in
  let default_row := match dict_get "default" source with Some (JObj d) => d | _ => [] end in
  let index := _group_index groups in
  frozen ← resolve_index groups index;
  Some {| sn_generation := generation; sn_fingerprint := digest groups metadata default_row;
          sn_groups := groups; sn_index := frozen; sn_metadata := metadata; sn_default := default_row;
          sn_group_metadata := _group_metadata index metadata default_row |}.

(** reload_from_db, under its lock: the published snapshot and whether it changed.
    [source] is what the database answers, None a failure; None is an exception. *)
Definition reload_from_db (source : option json) (published : snapshot) : option bool * snapshot :=
  match source with
  | Some (JObj d) =>
      match _build_snapshot d (sn_generation published + 1) with
      | None => (None, published)
      | Some candidate =>
          if String.eqb (sn_fingerprint candidate) (sn_fingerprint published) then (Some false, published)
          else (Some true, candidate)
      end
  | _ => (None, published)
  end.

(** ** Readers *)

Definition is_list (v : option json) : bool := match v with Some (JArr _) => true | _ => false end.

(** Config.get_model_group_index; without an index it is rebuilt from the enabled groups. *)
Definition enabled_model_groups (sn : snapshot) : list (string * row) :=
  filter (fun kg => enabled kg.2 && is_list (dict_get "models" kg.2) && flag "models" kg.2 = true) (sn_groups sn).
Definition get_model_group_index (sn : snapshot) : list (string * row) :=
  match sn_index sn with
  | [] => foldl (fun d kg =>
                   foldl (fun d a => add_first a kg.2 d)
                     (match dict_get "name" kg.2 with Some (JStr name) => add_first name kg.2 d | _ => d end)
                     (aliases_of kg.2)) [] (enabled_model_groups sn)
  | index => index
  end.

(** Config.resolve_model_group *)
Definition resolve_model_group (sn : snapshot) (model : string) : option row :=
  if negb (str_truthy model) then None else
  match dict_get model (sn_index sn) with
  | Some group => Some group
  | None => dict_get model (get_model_group_index sn)
  end.

Definition is_model_group (sn : snapshot) (model : string) : bool := bool_decide (is_Some (resolve_model_group sn model)).
Definition get_model_group_models (sn : snapshot) (model : string) : list string :=
  default [] (names "models" <$> resolve_model_group sn model).
Definition get_model_group_response_model (sn : snapshot) (model : string) : string :=
  default "" ((fun g => strip (text_or "response_model" "" g)) <$> resolve_model_group sn model).

(** The name a group goes by: [group.get("name")], as text. *)
Definition group_name (g : row) : string := text_or "name" "" g.

(** Config.get_model_group_backup *)
Definition get_model_group_backup (sn : snapshot) (model : string) : string :=
  match resolve_model_group sn model with
  | None => ""
  | Some group =>
      let backup := original_backup group in
      if negb (str_truthy backup) || String.eqb backup (group_name group) then ""
      else match resolve_model_group sn backup with Some _ => backup | None => "" end
  end.

(** Config.list_model_group_backup_chain; the groups seen bound the walk. *)
Fixpoint backup_chain (fuel : nat) (sn : snapshot) (seen : list string) (current : string) : list string :=
  match fuel with
  | O => []
  | S fuel =>
      match resolve_model_group sn current with
      | None => []
      | Some group =>
          let primary := group_name group in
          if bool_decide (primary ∈ seen) then [] else
          let seen := primary :: seen in
          let backup := original_backup group in
          current :: (if negb (str_truthy backup) || String.eqb backup primary || bool_decide (backup ∈ seen) then []
                      else backup_chain fuel sn seen backup)
      end
  end.
Definition chain_fuel (sn : snapshot) : nat := S (length (sn_index sn) + length (sn_groups sn)).
Definition list_model_group_backup_chain (sn : snapshot) (model : string) : list string :=
  backup_chain (chain_fuel sn) sn [] model.

(** Provider tag filters: (whitelist, blacklist). *)
Definition provider_filter (d : row) : list string * list string := (names "provider_whitelist" d, names "provider_blacklist" d).
Definition get_model_group_provider_filter (sn : snapshot) (model : string) : list string * list string :=
  default ([], []) (provider_filter <$> resolve_model_group sn model).
Definition get_real_model_provider_filter (sn : snapshot) (model : string) : list string * list string :=
  if negb (str_truthy model) then ([], []) else
  match dict_get model (sn_groups sn) with
  | Some d => if is_real d then provider_filter d else ([], [])
  | None => ([], [])
  end.

(** Config.get_model_group_compress_models *)
Definition get_model_group_compress_models (sn : snapshot) (model : string) : list string :=
  if negb (str_truthy model) then [] else
  match (match resolve_model_group sn model with Some g => Some g | None => dict_get model (sn_groups sn) end) with
  | None => []
  | Some group =>
      let raw := match dict_get "compress_models" group with
                 | Some (JStr s) => if str_truthy (strip s) then [JStr s] else []
                 | Some (JArr l) => l
                 | _ => []
                 end in
      dedup_first [] (filter (fun s => str_truthy s = true) ((fun v => strip (json_str_of py_str v)) <$> raw))
  end.

(** model_metadata.get_model_metadata and ModelClientPool._metadata_for_model:
    the explicit record, None when there is none. *)
Definition nonempty_row (d : option row) : option row := match d with Some [] => None | d => d end.
Definition get_model_metadata (sn : snapshot) (model_id : string) : option row :=
  without_id <$> (match nonempty_row (dict_get model_id (sn_metadata sn)) with
                  | Some d => Some d
                  | None => nonempty_row (dict_get model_id (sn_group_metadata sn))
                  end).
End catalog.
