(* ===== verification/CatalogProps.v ===== *)
(** What publishing a catalogue guarantees: fallback schemes become a chain of
    groups, the index gives a name to its first claimant, backup chains are
    finite walks without repetition, aggregated windows stay between those of the
    members. *)
From S2P Require Import Prelude Json Text TextFacts Policy Ranking Catalog.

(** ** Names of derived groups *)

Lemma rstrip_keep_end a b : str_truthy b = true -> rstrip b = b -> rstrip (a +++ b) = a +++ b.
Proof.
  intros Hb Hr. induction a as [|c a IH]; simpl; [done|]. rewrite IH.
  destruct (a +++ b) eqn:E; [|done]. destruct a; simpl in E; by subst.
Qed.

Lemma strip_framed a b : begins_blank a = false -> str_truthy a = true -> str_truthy b = true -> rstrip b = b ->
  strip (a +++ b) = a +++ b.
Proof.
  intros Ha Hta Hb Hr. unfold strip. rewrite lstrip_same by (by destruct a). by apply rstrip_keep_end.
Qed.

Lemma numeral_ends i : str_truthy (tostring (Z.of_nat i)) = true /\ rstrip (tostring (Z.of_nat i)) = tostring (Z.of_nat i).
Proof.
  destruct (tostring_digits (Z.of_nat i) ltac:(lia)) as (Hd & _ & Hs). split; [|by apply digits_no_space].
  by destruct (tostring (Z.of_nat i)).
Qed.

Lemma derived_strip n i : begins_blank n = false -> str_truthy n = true -> strip (derived_name n i) = derived_name n i.
Proof.
  intros Hn Ht. unfold derived_name. destruct (numeral_ends i) as [Hti Hri].
  apply strip_framed; [done..| | by apply rstrip_keep_end]. unfold SCHEME_GROUP_SEP. done.
Qed.

Lemma derived_truthy n i : str_truthy (derived_name n i) = true.
Proof. unfold derived_name, SCHEME_GROUP_SEP. by destruct n. Qed.

Lemma derived_internal n i : is_internal_model_id (derived_name n i) = true.
Proof. apply contains_self. Qed.

Lemma numeral_no_colon i : str_mem ":" (tostring (Z.of_nat i)) = false.
Proof.
  destruct (tostring_digits (Z.of_nat i) ltac:(lia)) as (Hd & _ & _). revert Hd. generalize (tostring (Z.of_nat i)).
  intros s. induction s as [|c s IH]; simpl; [done|]. intros [Hc Hs]%andb_prop. rewrite IH by done.
  rewrite bool_decide_eq_false_2; [done|]. intros ->. done.
Qed.

Lemma derived_inj n i m j : derived_name n i = derived_name m j -> n = m /\ i = j.
Proof.
  unfold derived_name, SCHEME_GROUP_SEP. intros Heq.
  assert (forall a d, a +++ "#scheme:" +++ d = (a +++ "#scheme") +++ String ":" d) as Hc by (intros a d; by rewrite append_assoc).
  rewrite !Hc in Heq. pose proof (append_last ":" _ _ _ _ (numeral_no_colon i) (numeral_no_colon j) Heq) as Ht.
  assert (i = j) as -> by (apply (inj tostring) in Ht; lia). split; [|done].
  by apply append_inj_r, append_inj_r in Heq.
Qed.

(** ** dict.update *)

Lemma update_dict_app {A} (d a b : list (string * A)) : update_dict d (a ++ b) = update_dict (update_dict d a) b.
Proof. apply foldl_app. Qed.

Lemma update_dict_out {A} k (d src : list (string * A)) : k ∉ src.*1 -> dict_get k (update_dict d src) = dict_get k d.
Proof.
  revert d. induction src as [|[k' v] src IH]; intros d Hk; simpl; [done|].
  rewrite fmap_cons, not_elem_of_cons in Hk. destruct Hk as [Hne Hk]. simpl in Hne.
  change (foldl _ (dict_set k' v d) src) with (update_dict (dict_set k' v d) src).
  rewrite IH by done. rewrite dict_get_set. by case_decide.
Qed.

Lemma update_dict_in {A} k (v : A) d src : (k, v) ∈ src -> (forall v', (k, v') ∈ src -> v' = v) -> dict_get k (update_dict d src) = Some v.
Proof.
  revert d. induction src as [|[k' v'] src IH]; intros d Hin Hu; [by apply not_elem_of_nil in Hin|].
  simpl. change (foldl _ (dict_set k' v' d) src) with (update_dict (dict_set k' v' d) src).
  destruct (decide (k ∈ src.*1)) as [Hk|Hk].
  - apply list_elem_of_fmap in Hk as ([k0 v0] & -> & Hk). simpl in *.
    assert (v0 = v) as -> by (apply Hu; by right). apply IH; [done|]. intros v'' Hv. apply Hu. by right.
  - rewrite update_dict_out by done. apply elem_of_cons in Hin as [Heq|Hin].
    + injection Heq as -> ->. by rewrite dict_get_set, decide_True.
    + exfalso. apply Hk, list_elem_of_fmap. by exists (k, v).
Qed.

Lemma dict_set_elem {A} kv k (v : A) d : kv ∈ dict_set k v d -> kv ∈ d \/ kv = (k, v).
Proof.
  induction d as [|[k' x] d IH]; simpl.
  - intros ->%list_elem_of_singleton. by right.
  - case_decide as Hd; intros [->|Hin]%elem_of_cons; subst.
    + by right.
    + left. by right.
    + left. left.
    + destruct (IH Hin) as [?| ->]; [left; by right | by right].
Qed.

Lemma update_dict_elem {A} kv (d src : list (string * A)) : kv ∈ update_dict d src -> kv ∈ d \/ kv ∈ src.
Proof.
  revert d. induction src as [|[k v] src IH]; intros d; simpl; [by left|].
  intros Hin. apply IH in Hin as [Hin|Hin]; [|right; by right].
  apply dict_set_elem in Hin as [?| ->]; [by left | right; left].
Qed.

Lemma dict_get_unique {A} k (v : A) d : NoDup d.*1 -> (k, v) ∈ d -> dict_get k d = Some v.
Proof.
  induction d as [|[k' x] d IH]; [by intros _ ?%not_elem_of_nil|]. rewrite fmap_cons, NoDup_cons. intros [Hk Hn] Hin. simpl.
  apply elem_of_cons in Hin as [Heq|Hin]; [injection Heq as -> ->; by rewrite decide_True|].
  rewrite decide_False; [by apply IH|]. intros ->. apply Hk, list_elem_of_fmap. by exists (k', v).
Qed.

Lemma dict_get_app {A} k (a b : list (string * A)) :
  dict_get k (a ++ b) = match dict_get k a with Some v => Some v | None => dict_get k b end.
Proof. induction a as [|[k' x] a IH]; simpl; [done|]. by case_decide. Qed.

(** ** Expansion *)

Section expand.
Variable py_str : json -> string.
Abbreviation name_of := (text_or py_str "name").

(** Groups as the database layer gives them: unique non-blank names, the name
    field set, and no name or alias of the reserved form. *)
Record published (groups : list (string * row)) : Prop := {
  pb_unique : NoDup groups.*1;
  pb_named : forall k g, (k, g) ∈ groups ->
    dict_get "name" g = Some (JStr k) /\ str_truthy k = true /\ strip k = k /\ is_internal_model_id k = false;
  pb_aliases : forall k g a, (k, g) ∈ groups -> a ∈ aliases_of g -> is_internal_model_id a = false;
}.

Lemma text_or_str k (alt : string) (d : row) (v : string) : dict_get k d = Some (JStr v) -> str_truthy v = true -> text_or py_str k alt d = v.
Proof. intros Hk Hv. unfold text_or. rewrite Hk. destruct v; [done|]. done. Qed.

Section groups.
Context (groups : list (string * row)) (Hp : published groups).

Lemma group_named k g alt : (k, g) ∈ groups -> name_of alt g = k /\ strip k = k /\ str_truthy k = true /\ begins_blank k = false.
Proof.
  intros Hin. destruct (pb_named _ Hp _ _ Hin) as (Hn & Ht & Hs & _). split; [by apply text_or_str|]. repeat split; try done.
  rewrite <- Hs. apply strip_begins.
Qed.

Lemma expand_group_eq k g : (k, g) ∈ groups ->
  expand_group py_str k g =
    match fallback_schemes py_str g with
    | [] => (g, [])
    | schemes => (dict_set "backup_group" (JStr (derived_name k 1)) g, derive g k (original_backup py_str g) 1 schemes)
    end.
Proof.
  intros Hin. destruct (group_named k g k Hin) as (Hn & Hs & Ht & _). unfold expand_group. rewrite Hn, Hs.
  destruct (fallback_schemes py_str g); [done|]. by rewrite Ht.
Qed.

Definition next_name (g : row) (k : string) (schemes : list row) (j : nat) : string :=
  if (S j =? length schemes)%nat then original_backup py_str g else derived_name k (S (S j)).

Lemma derive_elem g k ob i schemes e :
  e ∈ derive g k ob i schemes <->
  exists j s, schemes !! j = Some s /\
    e = (derived_name k (i + j), derived_row g s (derived_name k (i + j))
           (if (S j =? length schemes)%nat then ob else derived_name k (S (i + j)))).
Proof.
  revert i. induction schemes as [|s schemes IH]; intros i; simpl.
  - split; [by intros ?%not_elem_of_nil | intros (j & s & Hj & _); by rewrite lookup_nil in Hj].
  - rewrite elem_of_cons, IH. split.
    + intros [-> | (j & s' & Hj & ->)].
      * exists 0%nat, s. split; [done|]. rewrite Nat.add_0_r. by destruct schemes.
      * exists (S j), s'. split; [done|]. by rewrite Nat.add_succ_r.
    + intros ([|j] & s' & Hj & ->); simpl in Hj.
      * injection Hj as ->. left. rewrite Nat.add_0_r. by destruct schemes.
      * right. exists j, s'. split; [done|]. by rewrite Nat.add_succ_r.
Qed.

Definition all_derived : list (string * row) := ((fun kg => (kg.1, expand_group py_str kg.1 kg.2)) <$> groups) ≫= fun e => e.2.2.

Lemma all_derived_elem k' d : (k', d) ∈ all_derived <->
  exists k g j s, (k, g) ∈ groups /\ fallback_schemes py_str g !! j = Some s /\
    k' = derived_name k (S j) /\ d = derived_row g s k' (next_name g k (fallback_schemes py_str g) j).
Proof.
  unfold all_derived. rewrite list_elem_of_bind. split.
  - intros ([k0 [r ds]] & Hin & Hk). apply list_elem_of_fmap in Hk as ([k g] & [= -> Heq] & Hg). simpl in *.
    rewrite expand_group_eq in Heq by done. destruct (fallback_schemes py_str g) as [|s0 ss] eqn:Es.
    { injection Heq as _ ->. by apply not_elem_of_nil in Hin. }
    assert (ds = derive g k (original_backup py_str g) 1 (s0 :: ss)) as -> by congruence.
    apply derive_elem in Hin as (j & s & Hj & [= -> ->]). exists k, g, j, s. by rewrite Es.
  - intros (k & g & j & s & Hg & Hj & -> & ->). exists (k, expand_group py_str k g). split.
    + rewrite expand_group_eq by done. destruct (fallback_schemes py_str g) as [|s0 ss] eqn:Es; [by rewrite lookup_nil in Hj|].
      apply derive_elem. exists j, s. by split.
    + apply list_elem_of_fmap. by exists (k, g).
Qed.

Lemma all_derived_inj k' d d' : (k', d) ∈ all_derived -> (k', d') ∈ all_derived -> d = d'.
Proof.
  rewrite !all_derived_elem. intros (k & g & j & s & Hg & Hs & Hk & ->) (k2 & g2 & j2 & s2 & Hg2 & Hs2 & Hk2 & ->).
  rewrite Hk in Hk2. apply derived_inj in Hk2 as [<- [= <-]].
  assert (g = g2) as <-.
  { pose proof (dict_get_unique _ _ _ (pb_unique _ Hp) Hg) as E1. pose proof (dict_get_unique _ _ _ (pb_unique _ Hp) Hg2) as E2. congruence. }
  congruence.
Qed.

Abbreviation expanded := (_expand_scheme_fallback_groups py_str groups).

Lemma expanded_eq : expanded = update_dict ((fun kg => (kg.1, (expand_group py_str kg.1 kg.2).1)) <$> groups) (update_dict [] all_derived).
Proof. unfold _expand_scheme_fallback_groups. by rewrite <- list_fmap_compose. Qed.

Lemma derived_update k' d : (k', d) ∈ all_derived -> (k', d) ∈ update_dict [] all_derived.
Proof. intros Hd. apply dict_get_Some_elem, update_dict_in; [done|]. intros v' Hv'. by eapply all_derived_inj. Qed.

Lemma expanded_derived k' d : (k', d) ∈ all_derived -> dict_get k' expanded = Some d.
Proof.
  intros Hd. rewrite expanded_eq. apply update_dict_in; [by apply derived_update|].
  intros v' [Hv|Hv]%update_dict_elem; [by apply not_elem_of_nil in Hv | by eapply all_derived_inj].
Qed.

Lemma key_not_derived k g : (k, g) ∈ groups -> k ∉ (update_dict [] all_derived).*1.
Proof.
  intros Hg Hk. apply list_elem_of_fmap in Hk as ([k' d] & -> & Hd). simpl in *.
  apply update_dict_elem in Hd as [Hd|Hd]; [by apply not_elem_of_nil in Hd|].
  apply all_derived_elem in Hd as (k & g0 & j & s & _ & _ & -> & _).
  destruct (pb_named _ Hp _ _ Hg) as (_ & _ & _ & Hi). by rewrite derived_internal in Hi.
Qed.

Lemma expanded_main k g : (k, g) ∈ groups -> dict_get k expanded = Some (expand_group py_str k g).1.
Proof.
  intros Hg. rewrite expanded_eq, update_dict_out by (by eapply key_not_derived).
  apply dict_get_unique.
  - rewrite <- list_fmap_compose. exact (pb_unique _ Hp).
  - apply list_elem_of_fmap. by exists (k, g).
Qed.

Lemma expanded_elem k d : (k, d) ∈ expanded -> (exists g, (k, g) ∈ groups /\ d = (expand_group py_str k g).1) \/ (k, d) ∈ all_derived.
Proof.
  rewrite expanded_eq. intros [Hd|Hd]%update_dict_elem.
  - apply list_elem_of_fmap in Hd as ([k0 g] & [= -> ->] & Hg). left. by exists g.
  - right. by apply update_dict_elem in Hd as [?%not_elem_of_nil|?].
Qed.
End groups.
End expand.

(** ** The index *)

Section index.
Variable py_str : json -> string.

(** The names a group asks for, in order. *)
Definition claims (kg : string * row) : list (string * row) :=
  if is_real py_str kg.2 || negb (enabled kg.2) || negb (flag "models" kg.2) then [] else
  (fun n => (n, kg.2)) <$> filter (fun n => str_truthy n = true) (strip (text_or py_str "name" kg.1 kg.2) :: aliases_of kg.2).

Lemma get_add_first {A} k k' (v : A) d : dict_get k (add_first k' v d) =
  match dict_get k d with Some x => Some x | None => if decide (k = k' /\ str_truthy k' = true) then Some v else None end.
Proof.
  unfold add_first. destruct (str_truthy k') eqn:Et.
  - destruct (dict_get k' d) as [x|] eqn:E.
    + destruct (dict_get k d) eqn:E'; [done|]. rewrite decide_False; [done|]. intros [-> _]. congruence.
    + rewrite dict_get_app. destruct (dict_get k d); [done|]. simpl. repeat case_decide; naive_solver.
  - destruct (dict_get k d); [done|]. rewrite decide_False; [done | naive_solver].
Qed.

Lemma get_first_names k (g : row) ns d :
  dict_get k (foldl (fun d a => add_first a g d) d ns) =
    match dict_get k d with Some x => Some x | None => dict_get k ((fun n => (n, g)) <$> filter (fun n => str_truthy n = true) ns) end.
Proof.
  revert d. induction ns as [|n ns IH]; intros d; simpl; [by destruct (dict_get k d)|].
  rewrite IH, get_add_first. destruct (dict_get k d); [done|]. rewrite filter_cons.
  destruct (decide (str_truthy n = true)) as [Ht|Ht]; simpl.
  - repeat case_decide; naive_solver.
  - rewrite decide_False; [done | naive_solver].
Qed.

Lemma add_names_elem n (d g : row) ns acc :
  (n, d) ∈ foldl (fun d a => add_first a g d) acc ns -> (n, d) ∈ acc \/ d = g.
Proof.
  revert acc. induction ns as [|a ns IH]; intros acc; simpl; [by left|]. intros Hin. apply IH in Hin as [Hin|?]; [|by right].
  unfold add_first in Hin. destruct (str_truthy a); [|by left]. destruct (dict_get a acc); [by left|].
  apply elem_of_app in Hin as [?|Hin]; [by left|]. apply list_elem_of_singleton in Hin. injection Hin as _ ->. by right.
Qed.

(** The index gives every name to its first claimant. *)
Lemma index_exact k groups : dict_get k (_group_index py_str groups) = dict_get k (groups ≫= claims).
Proof.
  unfold _group_index.
  enough (forall d, dict_get k (foldl (index_group py_str) d groups) =
    match dict_get k d with Some x => Some x | None => dict_get k (groups ≫= claims) end) as Hg by apply Hg.
  induction groups as [|[key g] groups IH]; intros d; simpl; [by destruct (dict_get k d)|].
  rewrite IH. clear IH. unfold index_group, claims at 2. simpl. rewrite dict_get_app.
  destruct (is_real py_str g || negb (enabled g) || negb (flag "models" g)); [by destruct (dict_get k d)|].
  set (n0 := strip (text_or py_str "name" key g)).
  pose proof (get_first_names k g (n0 :: aliases_of g) d) as Hf. simpl in Hf. rewrite Hf.
  by destruct (dict_get k d).
Qed.

Lemma claim_unique n (g : row) cs : (n, g) ∈ cs -> (forall g', (n, g') ∈ cs -> g' = g) -> dict_get n cs = Some g.
Proof.
  intros Hin Hu. destruct (dict_get n cs) as [g'|] eqn:E.
  - f_equal. by apply Hu, dict_get_Some_elem.
  - apply dict_get_None in E. exfalso. apply E, list_elem_of_fmap. by exists (n, g).
Qed.

Lemma claims_elem n d k g : (n, d) ∈ claims (k, g) <->
  d = g /\ is_real py_str g = false /\ enabled g = true /\ flag "models" g = true /\
  str_truthy n = true /\ (n = strip (text_or py_str "name" k g) \/ n ∈ aliases_of g).
Proof.
  unfold claims. simpl. destruct (is_real py_str g), (enabled g), (flag "models" g); simpl;
    try (split; [by intros ?%not_elem_of_nil | naive_solver]).
  rewrite list_elem_of_fmap. split.
  - intros (n' & [= -> ->] & Hn). apply list_elem_of_filter in Hn as [Ht Hn]. apply elem_of_cons in Hn. naive_solver.
  - intros (-> & _ & _ & _ & Ht & Hn). exists n. split; [done|]. apply list_elem_of_filter. split; [done|]. by apply elem_of_cons.
Qed.

Section snapshot.
Context (digest : list (string * row) -> list (string * row) -> row -> string).
Context (source : row) (generation : Z) (groups : list (string * row)).
Context (Hs : named_groups py_str (field_or "groups" JNull source) = groups) (Hp : published groups).
Abbreviation expanded := (_expand_scheme_fallback_groups py_str groups).

Lemma expanded_named k d : (k, d) ∈ expanded -> (forall alt, text_or py_str "name" alt d = k) /\ dict_get k expanded = Some d /\ strip k = k /\ str_truthy k = true.
Proof.
  intros Hd. apply expanded_elem in Hd as [(g & Hg & ->)|Hd].
  - split; [| split; [by apply expanded_main|]].
    + intros alt. destruct (pb_named _ Hp _ _ Hg) as (Hn & Ht & _). rewrite expand_group_eq with (groups := groups) by done.
      destruct (fallback_schemes py_str g); simpl; [by apply text_or_str|].
      apply text_or_str; [|done]. by rewrite dict_get_set, decide_False.
    + by destruct (pb_named _ Hp _ _ Hg) as (_ & ? & ? & _).
  - split; [|split; [by apply expanded_derived|]].
    + intros alt. apply all_derived_elem in Hd as (k0 & g & j & s & Hg & _ & -> & ->); [|done].
      apply text_or_str; [done | apply derived_truthy].
    + apply all_derived_elem in Hd as (k0 & g & j & s & Hg & _ & -> & _); [|done].
      destruct (group_named py_str groups Hp k0 g k0 Hg) as (_ & _ & Ht & Hb). by split; [apply derived_strip | apply derived_truthy].
Qed.

Lemma expanded_claim n d : (n, d) ∈ expanded ≫= claims -> exists k, (k, d) ∈ expanded /\ (n = k \/ n ∈ aliases_of d).
Proof.
  rewrite list_elem_of_bind. intros ([k g] & Hc & Hd). apply claims_elem in Hc as (-> & _ & _ & _ & _ & Hn).
  exists k. split; [done|]. destruct (expanded_named k g Hd) as (Hname & _ & Hst & _). rewrite Hname, Hst in Hn. done.
Qed.

Lemma index_elem n d : (n, d) ∈ _group_index py_str expanded -> exists k, (k, d) ∈ expanded.
Proof.
  unfold _group_index.
  enough (forall gs acc, (n, d) ∈ foldl (index_group py_str) acc gs -> (n, d) ∈ acc \/ exists k, (k, d) ∈ gs) as Hg.
  { intros Hin. apply Hg in Hin as [?%not_elem_of_nil|?]; done. }
  induction gs as [|[key g] gs IH]; intros acc; simpl; [by left|]. intros Hin.
  apply IH in Hin as [Hin|[k Hk]]; [|right; exists k; by right]. unfold index_group in Hin.
  destruct (_ || _ || _); [by left|].
  apply (add_names_elem n d g (strip (text_or py_str "name" key g) :: aliases_of g)) in Hin as [?| ->]; [by left|]. right. exists key. left.
Qed.

Lemma resolve_index_total ix : (forall n d, (n, d) ∈ ix -> exists k, (k, d) ∈ expanded) -> resolve_index py_str expanded ix = Some ix.
Proof.
  induction ix as [|[n d] ix IH]; intros Hix; simpl; [done|].
  destruct (Hix n d ltac:(left)) as [k Hk]. destruct (expanded_named k d Hk) as (-> & -> & _). simpl.
  rewrite IH; [done|]. intros n' d' Hin. apply (Hix n' d'). by right.
Qed.

(** Building never raises, and keeps the index as computed. *)
Lemma build_total : exists sn, _build_snapshot py_str digest source generation = Some sn /\
  sn_groups sn = expanded /\ sn_index sn = _group_index py_str expanded /\ sn_generation sn = generation.
Proof.
  unfold _build_snapshot. rewrite Hs, (resolve_index_total (_group_index py_str expanded)) by (intros n d; apply index_elem).
  simpl. eauto.
Qed.

Lemma resolve_claim sn n d : _build_snapshot py_str digest source generation = Some sn ->
  str_truthy n = true -> dict_get n (expanded ≫= claims) = Some d -> resolve_model_group sn n = Some d.
Proof.
  intros Hb Hn Hd. destruct build_total as (sn' & Hb' & _ & Hi & _). rewrite Hb in Hb'. injection Hb' as <-.
  unfold resolve_model_group. by rewrite Hn, Hi, index_exact, Hd.
Qed.
End snapshot.
End index.

(** ** Fallback schemes *)

Section schemes.
Variables (py_str : json -> string) (digest : list (string * row) -> list (string * row) -> row -> string).

Lemma fallback_scheme_inv g j s : fallback_schemes py_str g !! j = Some s -> enabled g = true /\ names "models" s <> [].
Proof.
  unfold fallback_schemes. destruct (enabled g); simpl; [|by rewrite lookup_nil].
  destruct (dict_get "schemes" g) as [[| | | |l|]|]; try by rewrite lookup_nil.
  case_match; [by rewrite lookup_nil|]. intros Hj. apply list_elem_of_lookup_2, list_elem_of_omap in Hj as (v & _ & Hv).
  unfold is_fallback_scheme in Hv. destruct v; try done.
  destruct (_ && _) eqn:E in Hv; [|done]. injection Hv as ->. split; [done|].
  apply andb_prop in E as [_ E]. apply negb_true_iff, bool_decide_eq_false in E. done.
Qed.

Lemma real_kind g d : field_or "kind" (JStr "custom") d = field_or "kind" (JStr "custom") g -> is_real py_str d = is_real py_str g.
Proof.
  unfold is_real, kind_of, text_or, field_or. destruct (dict_get "kind" d) as [v|], (dict_get "kind" g) as [v'|]; simpl; intros H; subst; done.
Qed.

Lemma names_items k (d : row) : names_of (JArr (items (dict_get k d))) = names k d.
Proof. unfold names, items. by destruct (dict_get k d) as [[]|]. Qed.

(** C17: Publishing a catalogue makes the fallback schemes of a group a chain: the
    group backs up to its first marked scheme, each scheme to the next one, the
    last to the backup the group was configured with.  Every one of them resolves
    by name, with the models and the tag filters of its scheme. *)
Theorem scheme_chain source generation groups sn k g :
  named_groups py_str (field_or "groups" JNull source) = groups -> published groups ->
  _build_snapshot py_str digest source generation = Some sn ->
  (k, g) ∈ groups -> is_real py_str g = false -> flag "models" g = true ->
  (forall k' g', (k', g') ∈ groups -> k ∉ aliases_of g') ->
  fallback_schemes py_str g <> [] ->
  (exists main, resolve_model_group sn k = Some main /\ text_or py_str "name" k main = k /\
     original_backup py_str main = derived_name k 1 /\ provider_filter main = provider_filter g) /\
  forall j s, fallback_schemes py_str g !! j = Some s ->
    exists d, resolve_model_group sn (derived_name k (S j)) = Some d /\
      (forall alt, text_or py_str "name" alt d = derived_name k (S j)) /\
      names "models" d = names "models" s /\ provider_filter d = provider_filter s /\
      original_backup py_str d = next_name py_str g k (fallback_schemes py_str g) j.
Proof.
  intros Hs Hp Hb Hg Hr Hm Ha Hne. destruct (group_named py_str groups Hp k g k Hg) as (_ & Hst & Ht & Hbl).
  set (ex := _expand_scheme_fallback_groups py_str groups).
  assert (enabled g = true) as He.
  { destruct (fallback_schemes py_str g) as [|s0 ss] eqn:Es; [done|]. by apply (fallback_scheme_inv g 0 s0); rewrite Es. }
  split.
  - pose proof (expanded_main py_str groups Hp k g Hg) as Hmain. rewrite (expand_group_eq py_str groups Hp k g Hg) in Hmain.
    set (main := dict_set "backup_group" (JStr (derived_name k 1)) g).
    assert (dict_get k ex = Some main) as Hmain' by (destruct (fallback_schemes py_str g); done). clear Hmain.
    apply dict_get_Some_elem in Hmain'. destruct (expanded_named py_str groups Hp k main Hmain') as (Hname & Hget & _).
    assert (forall key, key <> "backup_group" -> dict_get key main = dict_get key g) as Hsame.
    { intros key Hk. unfold main. by rewrite dict_get_set, decide_False. }
    exists main. split.
    { apply (resolve_claim py_str digest source generation groups Hs Hp); [done..|]. apply claim_unique.
      - apply list_elem_of_bind. exists (k, main). split; [|done]. apply claims_elem. rewrite Hname, Hst.
        split; [done|]. split; [rewrite <- Hr; apply real_kind; unfold field_or; by rewrite Hsame|].
        assert (enabled main = enabled g /\ flag "models" main = flag "models" g) as [-> ->].
        { unfold enabled, flag. rewrite !Hsame by done. done. }
        split; [done|]. split; [done|]. split; [done | by left].
      - intros g' Hc. apply (expanded_claim py_str groups Hp) in Hc as (k' & Hk' & [->|Hal]).
        + destruct (expanded_named py_str groups Hp _ _ Hk') as (_ & Hget' & _). congruence.
        + exfalso. apply expanded_elem in Hk' as [(g0 & Hg0 & ->)|Hd].
          * apply (Ha k' g0 Hg0). rewrite (expand_group_eq py_str groups Hp k' g0 Hg0) in Hal.
            destruct (fallback_schemes py_str g0); simpl in Hal; [done|]. unfold aliases_of, field_or in Hal.
            by rewrite dict_get_set, decide_False in Hal.
          * apply all_derived_elem in Hd as (k0 & g0 & j & s & _ & _ & _ & ->); [|done]. by apply not_elem_of_nil in Hal. }
    split; [apply Hname|]. split.
    + unfold original_backup. rewrite (text_or_str py_str _ _ main (derived_name k 1)); [by apply derived_strip | | apply derived_truthy].
      unfold main. by rewrite dict_get_set, decide_True.
    + unfold provider_filter, names. by rewrite !Hsame.
  - intros j s Hj. destruct (fallback_scheme_inv g j s Hj) as [_ Hms].
    set (nm := derived_name k (S j)). set (d := derived_row g s nm (next_name py_str g k (fallback_schemes py_str g) j)).
    assert ((nm, d) ∈ all_derived py_str groups) as Hd by (apply all_derived_elem; [done|]; by exists k, g, j, s).
    pose proof (expanded_derived py_str groups Hp _ _ Hd) as Hget. apply dict_get_Some_elem in Hget.
    destruct (expanded_named py_str groups Hp nm d Hget) as (Hname & Hget' & Hnst & Hnt).
    exists d. split.
    { apply (resolve_claim py_str digest source generation groups Hs Hp); [done..|]. apply claim_unique.
      - apply list_elem_of_bind. exists (nm, d). split; [|done]. apply claims_elem. rewrite Hname, Hnst.
        split; [done|]. split; [rewrite <- Hr; by apply real_kind|]. split; [done|]. split; [|by split; [|left]].
        unfold flag, d. simpl. destruct (items (dict_get "models" s)) eqn:Ei; [|done].
        exfalso. apply Hms. rewrite <- names_items, Ei. done.
      - intros g' Hc. apply (expanded_claim py_str groups Hp) in Hc as (k' & Hk' & [->|Hal]).
        + destruct (expanded_named py_str groups Hp _ _ Hk') as (_ & Hget2 & _). congruence.
        + exfalso. apply expanded_elem in Hk' as [(g0 & Hg0 & ->)|Hd0].
          * enough (is_internal_model_id nm = false) as Hf by (unfold nm in Hf; by rewrite derived_internal in Hf).
            apply (pb_aliases _ Hp k' g0 nm Hg0). rewrite (expand_group_eq py_str groups Hp k' g0 Hg0) in Hal.
            destruct (fallback_schemes py_str g0); simpl in Hal; [done|]. unfold aliases_of, field_or in *.
            by rewrite dict_get_set, decide_False in Hal.
          * apply all_derived_elem in Hd0 as (k0 & g0 & j0 & s0 & _ & _ & _ & ->); [|done]. by apply not_elem_of_nil in Hal. }
    split; [apply Hname|]. split; [exact (names_items "models" s)|].
    split; [unfold provider_filter; f_equal; apply names_items|].
    unfold original_backup, d. unfold next_name. destruct (S j =? length (fallback_schemes py_str g))%nat eqn:E.
    + unfold text_or at 1. simpl. destruct (original_backup py_str g) eqn:Eo; [done|]. rewrite <- Eo. apply strip_idemp.
    + rewrite (text_or_str py_str _ _ _ (derived_name k (S (S j)))); [by apply derived_strip | done | apply derived_truthy].
Qed.
End schemes.

(** ** Backup chains *)

Section chain.
Variables (py_str : json -> string) (sn : snapshot).
Abbreviation resolve := (resolve_model_group sn).

(** The rows a name can resolve to. *)
Definition rows : list row := (sn_index sn).*2 ++ (sn_groups sn).*2.

Lemma rebuilt_elem n (d : row) : (n, d) ∈ get_model_group_index sn -> d ∈ rows.
Proof.
  unfold get_model_group_index, rows. destruct (sn_index sn) as [|e ix] eqn:Ei.
  2: { intros Hin. apply elem_of_app. left. apply list_elem_of_fmap. by exists (n, d). }
  simpl. assert (forall kg, kg ∈ enabled_model_groups sn -> kg.2 ∈ (sn_groups sn).*2) as Hsub.
  { intros kg [_ Hin]%list_elem_of_filter. apply list_elem_of_fmap. by exists kg. }
  revert Hsub. generalize (enabled_model_groups sn). intros gs Hsub.
  enough (forall acc, (n, d) ∈ foldl (fun d kg =>
              foldl (fun d a => add_first a kg.2 d)
                (match dict_get "name" kg.2 with Some (JStr name) => add_first name kg.2 d | _ => d end)
                (aliases_of kg.2)) acc gs -> (n, d) ∈ acc \/ d ∈ gs.*2) as Hg.
  { intros [?%not_elem_of_nil|Hin]%Hg; [done|]. apply list_elem_of_fmap in Hin as (kg & -> & Hin). by apply Hsub. }
  clear Hsub. induction gs as [|kg gs IH]; intros acc; simpl; [by left|]. intros Hin. apply IH in Hin as [Hin|?]; [|right; by right].
  apply add_names_elem in Hin as [Hin| ->]; [|right; left].
  assert (forall name, (n, d) ∈ add_first name kg.2 acc -> (n, d) ∈ acc \/ d = kg.2) as Ha.
  { intros name Hn. by apply (add_names_elem n d kg.2 [name] acc). }
  revert Hin. repeat case_match; try (by left). intros [?| ->]%Ha; [by left | right; left].
Qed.

Lemma resolve_rows n d : resolve n = Some d -> d ∈ rows.
Proof.
  unfold resolve_model_group. destruct (str_truthy n); [|done]. simpl. destruct (dict_get n (sn_index sn)) as [g|] eqn:E.
  - intros [= <-]. unfold rows. apply elem_of_app. left. apply list_elem_of_fmap. exists (n, g). split; [done|]. by apply dict_get_Some_elem.
  - intros Hd. eapply rebuilt_elem, dict_get_Some_elem, Hd.
Qed.

Lemma chain_fuel_rows : chain_fuel sn = S (length rows).
Proof. unfold chain_fuel, rows. by rewrite length_app, !length_fmap. Qed.

Abbreviation primary := (group_name py_str).

(** The groups seen are distinct rows of the catalogue, so the fuel is enough. *)
Lemma chain_fuel_enough f1 f2 seen current :
  NoDup seen -> seen ⊆ primary <$> rows ->
  (length rows < length seen + f1)%nat -> (length rows < length seen + f2)%nat ->
  backup_chain py_str f1 sn seen current = backup_chain py_str f2 sn seen current.
Proof.
  assert (forall seen, NoDup seen -> seen ⊆ primary <$> rows -> (length seen <= length rows)%nat) as Hle.
  { intros xs Hn Hx. rewrite <- (length_fmap primary rows). apply submseteq_length, NoDup_submseteq; [done|]. intros x. apply Hx. }
  revert f2 seen current. induction f1 as [|f1 IH]; intros [|f2] seen current Hn Hs H1 H2; try (specialize (Hle seen Hn Hs); lia).
  simpl. destruct (resolve current) as [g|] eqn:Eg; [|done]. case_bool_decide as Hd; [done|].
  destruct (negb _ || _ || _); [done|]. f_equal. apply IH; simpl; [by constructor| |lia..].
  intros x [->|Hx]%elem_of_cons; [|by apply Hs]. apply list_elem_of_fmap. exists g. split; [done|]. by eapply resolve_rows.
Qed.

(** What a walk from [current] is: it follows the backup fields, never meets a
    group twice, and stops only where the code stops. *)
Inductive walk : list string -> string -> list string -> Prop :=
| walk_unknown seen c : resolve c = None -> walk seen c []
| walk_seen seen c g : resolve c = Some g -> primary g ∈ seen -> walk seen c []
| walk_last seen c g : resolve c = Some g -> primary g ∉ seen ->
    original_backup py_str g = "" \/ original_backup py_str g ∈ primary g :: seen -> walk seen c [c]
| walk_next seen c g rest : resolve c = Some g -> primary g ∉ seen ->
    original_backup py_str g <> "" -> original_backup py_str g ∉ primary g :: seen ->
    walk (primary g :: seen) (original_backup py_str g) rest -> walk seen c (c :: rest).

Lemma backup_chain_walks fuel seen c :
  NoDup seen -> seen ⊆ primary <$> rows -> (length rows < length seen + fuel)%nat ->
  walk seen c (backup_chain py_str fuel sn seen c).
Proof.
  revert seen c. induction fuel as [|fuel IH]; intros seen c Hn Hs Hf.
  - exfalso. assert (length seen <= length rows)%nat; [|lia].
    rewrite <- (length_fmap primary rows). apply submseteq_length, NoDup_submseteq; [done|]. intros x. apply Hs.
  - simpl. destruct (resolve c) as [g|] eqn:Eg; [|by constructor]. case_bool_decide as Hd; [by eapply walk_seen|].
    destruct (negb (str_truthy (original_backup py_str g)) || String.eqb (original_backup py_str g) (primary g)
              || bool_decide (original_backup py_str g ∈ primary g :: seen)) eqn:E.
    + eapply walk_last; [done..|]. apply orb_true_iff in E as [[E|E]%orb_true_iff|E].
      * left. by destruct (original_backup py_str g).
      * right. apply String.eqb_eq in E as ->. left.
      * right. by apply bool_decide_eq_true in E.
    + apply orb_false_iff in E as [[E1 E2]%orb_false_iff E3]. apply bool_decide_eq_false in E3.
      eapply walk_next; [done..|by intros Hb; rewrite Hb in E1|done|]. apply IH; [by constructor| |simpl; lia].
      intros x [->|Hx]%elem_of_cons; [|by apply Hs]. apply list_elem_of_fmap. exists g. split; [done|]. by eapply resolve_rows.
Qed.

(** The backup chain of a model is a finite walk along the backup fields that
    meets no group twice, whatever loops the configuration has; the bound on its
    length is never what ends it. *)
Lemma backup_chain_terminates model :
  walk [] model (list_model_group_backup_chain py_str sn model) /\
  NoDup ((fun m => primary <$> resolve m) <$> list_model_group_backup_chain py_str sn model) /\
  forall fuel, (chain_fuel sn <= fuel)%nat -> backup_chain py_str fuel sn [] model = list_model_group_backup_chain py_str sn model.
Proof.
  assert (walk [] model (list_model_group_backup_chain py_str sn model)) as Hw.
  { apply backup_chain_walks; [constructor | by intros x ?%not_elem_of_nil | simpl; rewrite chain_fuel_rows; lia]. }
  split; [done|]. split.
  - enough (forall seen c l, walk seen c l -> NoDup ((fun m => primary <$> resolve m) <$> l) /\
              forall x, Some x ∈ (fun m => primary <$> resolve m) <$> l -> x ∉ seen) as Hg by (by apply (Hg [] model)).
    clear Hw. intros seen c l Hw. induction Hw as [seen c Hr|seen c g Hr Hs|seen c g Hr Hs Hb|seen c g rest Hr Hs Hb Hb' Hw [IHn IHs]].
    + split; [constructor | by intros x ?%not_elem_of_nil].
    + split; [constructor | by intros x ?%not_elem_of_nil].
    + simpl. rewrite Hr. split; [apply NoDup_singleton|]. intros x [= ->]%list_elem_of_singleton. done.
    + simpl. rewrite Hr. simpl. split.
      * constructor; [|done]. intros Hin. apply (IHs _ Hin). left.
      * intros x [[= ->]|Hx]%elem_of_cons; [done|]. intros Hsx. apply (IHs _ Hx). by right.
  - intros fuel Hf. rewrite chain_fuel_rows in Hf. unfold list_model_group_backup_chain.
    apply chain_fuel_enough; [constructor | by intros x ?%not_elem_of_nil | simpl; lia | simpl; rewrite chain_fuel_rows; lia].
Qed.
End chain.

(** ** Aggregated windows *)

Lemma foldr_min_le (v : Z) vs x : x ∈ vs -> foldr Z.min v vs <= x.
Proof. induction vs as [|y vs IH]; [by intros ?%not_elem_of_nil|]. intros [->|Hx]%elem_of_cons; simpl; [lia|]. specialize (IH Hx). lia. Qed.
Lemma foldr_max_ge (v : Z) vs x : x ∈ vs -> x <= foldr Z.max v vs.
Proof. induction vs as [|y vs IH]; [by intros ?%not_elem_of_nil|]. intros [->|Hx]%elem_of_cons; simpl; [lia|]. specialize (IH Hx). lia. Qed.
Lemma foldr_min_pick (v : Z) vs : foldr Z.min v vs ∈ v :: vs.
Proof.
  induction vs as [|y vs IH]; simpl; [left|]. apply elem_of_cons in IH as [-> | IH].
  - destruct (Z.min_spec y v) as [[_ ->]|[_ ->]]; [right; left | left].
  - destruct (Z.min_spec y (foldr Z.min v vs)) as [[_ ->]|[_ ->]]; [right; left | right; by right].
Qed.
Lemma foldr_max_pick (v : Z) vs : foldr Z.max v vs ∈ v :: vs.
Proof.
  induction vs as [|y vs IH]; simpl; [left|]. apply elem_of_cons in IH as [-> | IH].
  - destruct (Z.max_spec y v) as [[_ ->]|[_ ->]]; [left | right; left].
  - destruct (Z.max_spec y (foldr Z.max v vs)) as [[_ ->]|[_ ->]]; [right; by right | right; left].
Qed.

Lemma sum_bounds lo hi vs : Forall (fun x => lo <= x <= hi) vs ->
  lo * Z.of_nat (length vs) <= foldr Z.add 0 vs <= hi * Z.of_nat (length vs).
Proof. induction 1 as [|x vs Hx _ IH]; simpl length; simpl foldr; lia. Qed.

(** Rounding halves to even stays within integer bounds of the quotient. *)
Lemma round_half_even_bounds lo hi a b : 0 < b -> lo * b <= a <= hi * b -> lo <= round_half_even a b <= hi.
Proof.
  intros Hb Ha. unfold round_half_even. pose proof (Z.div_mod a b ltac:(lia)) as Hd. pose proof (Z.mod_pos_bound a b Hb) as Hm.
  set (qq := a / b) in *. set (r := a mod b) in *.
  assert (lo <= qq) by nia. assert (qq <= hi) by nia. assert (0 < r -> qq + 1 <= hi) as Hup by nia.
  destruct (Z.compare_spec (2 * r) b); [|lia|lia]. destruct (Z.even qq); lia.
Qed.

(** Every mode stays between the smallest and the largest value. *)
Lemma aggregate_between vs mode : vs <> [] ->
  foldr Z.min (default 0 (head vs)) vs <= _aggregate_token_value vs mode <= foldr Z.max (default 0 (head vs)) vs.
Proof.
  intros Hne. destruct vs as [|v vs]; [done|]. simpl default. set (l := v :: vs). fold l.
  assert (forall x, x ∈ l -> foldr Z.min v l <= x <= foldr Z.max v l) as Hb.
  { intros x Hx. split; [by apply foldr_min_le | by apply foldr_max_ge]. }
  assert (foldr Z.min v l <= foldr Z.max v l) by (specialize (Hb v ltac:(left)); lia).
  unfold _aggregate_token_value. subst l. simpl default. case_match; [lia|]. case_match; [|lia].
  apply round_half_even_bounds; [simpl length; lia|]. apply sum_bounds. by apply Forall_forall.
Qed.

Definition declared (field : string) (records : list row) : list Z :=
  filter (fun v => 0 < v) ((fun r => int_or_zero (dict_get field r)) <$> records).

Lemma aggregate_field_get candidates mode (r : row) field f :
  int_or_zero (dict_get f (aggregate_field candidates mode r field)) =
    if decide (f = field /\ declared field candidates <> []) then _aggregate_token_value (declared field candidates) mode
    else int_or_zero (dict_get f r).
Proof.
  unfold aggregate_field. fold (declared field candidates).
  destruct (declared field candidates) as [|v vs] eqn:E; [by rewrite decide_False by naive_solver|].
  rewrite dict_get_set. destruct (decide (f = field)) as [->|Hne]; [|by rewrite decide_False by naive_solver].
  rewrite decide_True by done. unfold int_or_zero.
  assert (0 < _aggregate_token_value (v :: vs) mode) as Hpos.
  { pose proof (aggregate_between (v :: vs) mode ltac:(done)) as [Hlo _].
    assert (foldr Z.min (default 0 (head (v :: vs))) (v :: vs) ∈ v :: vs) as Hin.
    { pose proof (foldr_min_pick v (v :: vs)) as Hp. simpl head. simpl default. apply elem_of_cons in Hp as [-> |Hp]; [left | done]. }
    assert (Forall (fun x => 0 < x) (v :: vs)) as Hall.
    { rewrite <- E. apply Forall_forall. intros x Hx. unfold declared in Hx. by apply list_elem_of_filter in Hx as [? _]. }
    rewrite Forall_forall in Hall. specialize (Hall _ Hin). lia. }
  rewrite json_truthy_tostring by done. rewrite json_int_tostring by lia. done.
Qed.

(** The window a group advertises lies between the windows its members declare,
    whatever the mode; in the default mode it fits every member that declares one.
    Members that declare none do not count. *)
Theorem group_window_bounds members metadata_model metadata_mode metadata default_row r field :
  compute_group_metadata members metadata_model metadata_mode metadata default_row = Some r ->
  field ∈ _AGGREGATED_TOKEN_FIELDS ->
  normalize_group_metadata_mode metadata_mode metadata_model <> "model" ->
  let windows := declared field (omap (fun m => dict_get m metadata) members) in
  let w := int_or_zero (dict_get field r) in
  windows <> [] ->
  0 < w /\ (exists lo hi, lo ∈ windows /\ hi ∈ windows /\ lo <= w <= hi) /\
  (normalize_group_metadata_mode metadata_mode metadata_model = "min" -> Forall (fun x => w <= x) windows).
Proof.
  intros Hr Hf Hm. cbn zeta. set (windows := declared field _). set (mode := normalize_group_metadata_mode _ _) in *. intros Hne.
  assert (int_or_zero (dict_get field r) = _aggregate_token_value windows mode) as ->.
  { unfold compute_group_metadata in Hr. fold mode in Hr. rewrite (proj2 (String.eqb_neq _ _) Hm) in Hr.
    assert (match min_by (fun record => [_effective_max_tokens record default_row]) (omap (fun m => dict_get m metadata) members) with
            | None => None
            | Some base => Some (foldl (aggregate_field (omap (fun m => dict_get m metadata) members) mode) (without_id base) _AGGREGATED_TOKEN_FIELDS)
            end = Some r) as Hr'.
    { by destruct (if str_truthy metadata_model then dict_get (strip metadata_model) metadata else None). }
    clear Hr. destruct (min_by _ _) as [base|]; [|done]. injection Hr' as <-. unfold _AGGREGATED_TOKEN_FIELDS in *. simpl foldl.
    apply elem_of_cons in Hf as [->|Hf%list_elem_of_singleton]; [|subst field].
    - rewrite aggregate_field_get, decide_False by (by intros [? _]). by rewrite aggregate_field_get, decide_True.
    - by rewrite aggregate_field_get, decide_True. }
  pose proof (aggregate_between windows mode Hne) as [Hlo Hhi].
  assert (foldr Z.min (default 0 (head windows)) windows ∈ windows /\ foldr Z.max (default 0 (head windows)) windows ∈ windows) as [Hmin Hmax].
  { destruct windows as [|v vs]; [done|]. simpl head. simpl default.
    split; [pose proof (foldr_min_pick v (v :: vs)) as Hp | pose proof (foldr_max_pick v (v :: vs)) as Hp];
      apply elem_of_cons in Hp as [-> |Hp]; (left || done). }
  split.
  - assert (Forall (fun x => 0 < x) windows) as Hall.
    { apply Forall_forall. intros x Hx. unfold windows, declared in Hx. by apply list_elem_of_filter in Hx as [? _]. }
    rewrite Forall_forall in Hall. specialize (Hall _ Hmin). lia.
  - split; [eauto 10|]. intros ->. apply Forall_forall. intros x Hx. by apply foldr_min_le.
Qed.

(** ** A concrete catalogue *)

Module CatalogSample.
Definition text (v : json) : string := "".
Definition no_digest (g m : list (string * row)) (d : row) : string := "".
Definition scheme (id model : string) (backup : bool) : json :=
  JObj [("id", JStr id); ("models", JArr [JStr model]); ("provider_whitelist", JArr [JStr id]);
        ("provider_blacklist", JArr []); ("is_backup", JBool backup)].
Definition fast : row :=
  [("name", JStr "fast"); ("kind", JStr "custom"); ("enabled", JBool true); ("models", JArr [JStr "m1"]); ("aliases", JArr [JStr "quick"]);
   ("schemes", JArr [scheme "a" "m1" false; scheme "b" "m2" true; scheme "c" "m3" false; scheme "d" "m4" true]);
   ("active_scheme", JStr "a"); ("backup_group", JStr "slow")].
Definition slow : row :=
  [("name", JStr "slow"); ("enabled", JBool true); ("models", JArr [JStr "m5"]); ("backup_group", JStr "fast")].
Definition raw : row := [("groups", JObj [("fast", JObj fast); ("slow", JObj slow)])].
Definition built : snapshot :=
  default (Snapshot 0 "" [] [] [] [] []) (_build_snapshot text no_digest raw 1).

Lemma published_ex : published [("fast", fast); ("slow", slow)].
Proof.
  split.
  - by apply (bool_decide_eq_true_1 (NoDup ["fast"; "slow"])).
  - intros k g [[= -> ->]|[[= -> ->]|?%not_elem_of_nil]%elem_of_cons]%elem_of_cons; done.
  - intros k g a [[= -> ->]|[[= -> ->]|?%not_elem_of_nil]%elem_of_cons]%elem_of_cons; [|by intros ?%not_elem_of_nil | done].
    by intros ->%list_elem_of_singleton.
Qed.

Lemma scheme_chain_witness :
  exists d, resolve_model_group built "fast#scheme:2" = Some d /\ names "models" d = ["m4"] /\ original_backup text d = "slow".
Proof.
  destruct (scheme_chain text no_digest raw 1 [("fast", fast); ("slow", slow)] built "fast" fast) as [_ Hd];
    [done | exact published_ex | by vm_compute | left | done | done | | done |].
  - intros k g [[= -> ->]|[[= -> ->]|?%not_elem_of_nil]%elem_of_cons]%elem_of_cons; [|by intros ?%not_elem_of_nil | done].
    by intros ?%list_elem_of_singleton.
  - destruct (Hd 1%nat _ ltac:(by vm_compute)) as (d & Hr & _ & Hm & _ & Hb). by exists d.
Defined.

Example chain_ex : list_model_group_backup_chain text built "quick" = ["quick"; "fast#scheme:1"; "fast#scheme:2"; "slow"].
Proof. by vm_compute. Qed.

Definition metadata_ex : list (string * row) :=
  [("m1", [("max_context_tokens", JNum "8000")]); ("m2", [("max_tokens", JNum "4096")]); ("m3", [("max_context_tokens", JNum "200000")])].

Lemma group_window_bounds_witness :
  let r := default [] (compute_group_metadata ["m1"; "m2"; "m3"] "" "avg" metadata_ex []) in
  int_or_zero (dict_get "max_context_tokens" r) = 104000 /\ 0 < int_or_zero (dict_get "max_context_tokens" r).
Proof.
  intros r. split; [by vm_compute|].
  apply (group_window_bounds ["m1"; "m2"; "m3"] "" "avg" metadata_ex [] r "max_context_tokens"); [by vm_compute | right; left | by vm_compute | by vm_compute].
Defined.
End CatalogSample.
