(* ===== verification/Fallback.v ===== *)
(** main.py, _run_group_fallback_pipeline: the loop over the groups of a request.

    When the accounts of a group are exhausted before a request could be sent, the
    backup group of the current catalogue is tried next.  A hop is one iteration:
    the catalogue it selects from, the turns its retry loop meets ([Loop]), and
    the catalogue the next group is looked up in. *)
From S2P Require Import Prelude Redis Client State Json Manager Retry Terminal Loop Catalog.

Record hop := Hop { hp_selection : snapshot; hp_turns : list turn_input; hp_fresh : snapshot }.

(** How the generator ends: as a group ended, as no group could, or still running. *)
Inductive pipeline_end :=
| Ended (o : loop_end)
| NothingRan                       (* 429 no_available_account *)
| StillRunning.

(** The catalogue part of a hop. *)
Section names.
Variable py_str : json -> string.

(** [str((group or {}).get("name") or model)] *)
Definition canonical_of (sn : snapshot) (model : string) : string :=
  match resolve_model_group sn model with
  | Some g => text_or py_str "name" model g
  | None => model
  end.

(** The backup of an exhausted group, unless it is missing or was visited. *)
Definition next_group (fresh : snapshot) (canonical : string) (visited : list string) : option string :=
  let backup := match resolve_model_group fresh canonical with
                | Some g => original_backup py_str g
                | None => ""
                end in
  if negb (str_truthy backup) then None else
  match resolve_model_group fresh backup with
  | None => None
  | Some _ => if bool_decide (canonical_of fresh backup ∈ visited) then None else Some backup
  end.
End names.

Section pipeline.
Context {R : Type} `{Redis R}.
Variables (conf : redis_conf) (utc_offset : Z -> Z) (py_str : json -> string) (q : chat_request).

Definition finish (last_exc : option loop_end) : pipeline_end :=
  match last_exc with Some o => Ended o | None => NothingRan end.

(** The canonical names visited, in order, are returned with the end. *)
Fixpoint run_groups (hops : list hop) (visited : list string) (last_exc : option loop_end) (current : string)
    : ST world R (pipeline_end * list string) :=
  if negb (str_truthy current) then mret (finish last_exc, visited) else
  match hops with
  | [] => mret (StillRunning, visited)
  | h :: hops' =>
      let canonical := canonical_of py_str (hp_selection h) current in
      if bool_decide (canonical ∈ visited) then mret (finish last_exc, visited) else
      let visited := visited ++ [canonical] in
      '(r, _) ← run_loop conf utc_offset py_str q (hp_turns h) loop_start;
      match r with
      | None => mret (StillRunning, visited)
      | Some (NoAccountRaised status detail code) =>
          match next_group py_str (hp_fresh h) canonical visited with
          | None => mret (finish (Some (NoAccountRaised status detail code)), visited)
          | Some backup => run_groups hops' visited (Some (NoAccountRaised status detail code)) backup
          end
      | Some o => mret (Ended o, visited)
      end
  end.
Definition _run_group_fallback_pipeline (hops : list hop) (model : string) : ST world R (pipeline_end * list string) :=
  run_groups hops [] None model.

(** The identity the client sees, fixed from the first catalogue: the response
    model of the requested group, or the name requested. *)
Definition stable_response_model (initial : snapshot) (model : string) : option string :=
  match resolve_model_group initial model with
  | Some _ => Some (str_or (get_model_group_response_model py_str initial model) model)
  | None => None
  end.
End pipeline.
