(* ===== verification/FallbackProps.v ===== *)
(** The group fallback: every group at most once, only after a group had no
    account, in the order of the configured chain. *)
From S2P Require Import ReservationProps.
From S2P Require Import Prelude Redis MapRedis Client State Json Text Manager ManagerProps Retry Terminal Loop LoopProps Ranking Catalog CatalogProps Fallback.

Definition no_account (o : loop_end) : bool := match o with NoAccountRaised _ _ _ => true | _ => false end.

(** The reference: the first group of a chain that does not lack an account answers. *)
Fixpoint first_served (chain : list string) (outcomes : list loop_end) (visited : list string) (last_exc : option loop_end)
    : pipeline_end * list string :=
  match chain, outcomes with
  | [], _ => (finish last_exc, visited)
  | _ :: _, [] => (StillRunning, visited)
  | c :: chain', o :: os =>
      if no_account o then first_served chain' os (visited ++ [c]) (Some o) else (Ended o, visited ++ [c])
  end.

Section fallback.
Context {R : Type} `{Redis R}.
Variables (conf : redis_conf) (utc_offset : Z -> Z) (py_str : json -> string) (q : chat_request).

Abbreviation loop ts := (run_loop conf utc_offset py_str q ts loop_start).

(** The turns end the loop with [o] whatever the state. *)
Definition gives (h : hop) (o : loop_end) : Prop :=
  forall w (e : renv R), exists s w' e', loop (hp_turns h) w e = (Ret ((Some o, s), w'), e').
(** They ended it with [o] from some state. *)
Definition returned (h : hop) (o : loop_end) : Prop :=
  exists w (e : renv R) s w' e', loop (hp_turns h) w e = (Ret ((Some o, s), w'), e').

(** ** Any catalogues *)

Lemma canonical_ne_self fresh canonical visited backup :
  next_group py_str fresh canonical visited = Some backup -> str_truthy backup = true.
Proof. unfold next_group. destruct (negb _) eqn:E; [done|]. btrue. repeat case_match; try done. by intros [= <-]. Qed.

(** Whatever the catalogues of the hops are: no group is tried twice, a further
    group is tried only after the one before it had no account, and the request
    ends as the last group tried ended. *)
Lemma fallback_only_without_account hops model w (e : renv R) r visited w' e' :
  _run_group_fallback_pipeline conf utc_offset py_str q hops model w e = (Ret ((r, visited), w'), e') ->
  str_truthy model = true ->
  NoDup visited /\ (length visited <= length hops)%nat /\
  exists outs, Forall2 returned (take (length outs) hops) outs /\
    (forall i o, outs !! i = Some o -> (S i < length visited)%nat -> no_account o = true) /\
    match r with
    | Ended o => length outs = length visited /\ last outs = Some o
    | NothingRan => False
    | StillRunning => (length visited <= S (length outs))%nat
    end.
Proof.
  intros Hrun Hm. unfold _run_group_fallback_pipeline in Hrun.
  enough (forall hops visited0 last_exc cur w e,
    run_groups conf utc_offset py_str q hops visited0 last_exc cur w e = (Ret ((r, visited), w'), e') ->
    str_truthy cur = true -> NoDup visited0 -> (last_exc = None -> visited0 = []) ->
    (forall o, last_exc = Some o -> no_account o = true) ->
    NoDup visited /\ (length visited <= length visited0 + length hops)%nat /\
    exists outs, Forall2 returned (take (length outs) hops) outs /\
      (forall i o, outs !! i = Some o -> (length visited0 + S i < length visited)%nat -> no_account o = true) /\
      match r with
      | Ended o => (length visited0 + length outs)%nat = length visited /\ (last outs = Some o \/ outs = [] /\ last_exc = Some o)
      | NothingRan => outs = [] /\ last_exc = None /\ visited0 <> []
      | StillRunning => (length visited <= length visited0 + S (length outs))%nat
      end) as Hg.
  { destruct (Hg hops [] None model w e Hrun Hm) as (Hn & Hl & outs & Hf & Ho & Hr); [constructor | done | done|].
    split; [done|]. split; [done|]. exists outs. split; [done|]. split; [done|]. destruct r as [o| |]; simpl in Hr.
    - destruct Hr as [? [?|[_ ?]]]; done.
    - by destruct Hr as (_ & _ & ?).
    - done. }
  clear Hrun Hm hops model w e. induction hops as [|h hops IH]; intros visited0 last_exc cur w e Hrun Hm Hn Hl Hlast; cbn [run_groups] in Hrun;
    rewrite Hm in Hrun; cbn [negb] in Hrun.
  { injection Hrun as <- <- <- <-. split; [done|]. split; [lia|]. exists []. split; [constructor|]. split; [done|]. simpl. lia. }
  set (cn := canonical_of py_str (hp_selection h) cur) in *. case_bool_decide as Hseen.
  { injection Hrun as <- <- <- <-. split; [done|]. split; [lia|]. exists []. split; [constructor|]. split; [done|].
    destruct last_exc as [o|]; simpl.
    - split; [lia|]. by right.
    - rewrite (Hl eq_refl) in Hseen. by apply not_elem_of_nil in Hseen. }
  apply ST_bind_inv in Hrun as ([r1 s1] & w1 & e1 & Hloop & Hrest).
  assert (NoDup (visited0 ++ [cn])) as Hn1.
  { apply NoDup_app. split; [done|]. split; [|apply NoDup_singleton]. intros x Hx ->%list_elem_of_singleton. done. }
  assert (forall o, r1 = Some o -> returned h o) as Hret by (intros o ->; by exists w, e, s1, w1, e1).
  destruct r1 as [o|].
  2: { injection Hrest as <- <- <- <-. rewrite length_app. simpl. split; [done|]. split; [lia|]. exists []. split; [constructor|].
       split; [done|]. simpl. lia. }
  destruct (no_account o) eqn:Hno.
  - destruct o as [|?|status detail code|?|?|?|?|?]; try done.
    destruct (next_group py_str (hp_fresh h) cn (visited0 ++ [cn])) as [backup|] eqn:En.
    + apply (IH _ _ _ _ _ Hrest) in Hn1 as (Hn' & Hlen & outs & Hf & Ho & Hr);
        [|by eapply canonical_ne_self | done | by intros ? [= <-]].
      rewrite length_app in Hlen, Ho, Hr. simpl in Hlen, Ho, Hr. split; [done|]. split; [simpl; lia|].
      exists (NoAccountRaised status detail code :: outs). split; [constructor; auto|]. split.
      * intros [|i] o'; simpl; [by intros [= <-]|]. intros Hi Hlt. apply (Ho i); [done|lia].
      * destruct r as [o'| |]; simpl length.
        -- destruct Hr as [Hr [Hlo|[-> [= <-]]]]; (split; [simpl in *; lia|]); left; [|done]. rewrite last_cons, Hlo. done.
        -- by destruct Hr as (_ & ? & _).
        -- lia.
    + injection Hrest as <- <- <- <-. rewrite length_app. simpl. split; [done|]. split; [lia|].
      exists [NoAccountRaised status detail code]. split; [constructor; [auto|constructor]|]. split; [|split; [done|by left]].
      intros [|i] o'; simpl; [by intros [= <-] | by rewrite lookup_nil].
  - assert (r = Ended o /\ visited = visited0 ++ [cn]) as [-> ->] by (destruct o; try done; by injection Hrest).
    rewrite length_app. simpl. split; [done|]. split; [lia|]. exists [o]. split; [constructor; [auto|constructor]|].
    split; [|split; [done|by left]]. intros [|i] o'; simpl; [intros _; lia | by rewrite lookup_nil].
Qed.

(** ** One catalogue *)

Context (sn : snapshot).
(** Names resolve to the group they name. *)
Hypothesis self_named : forall n g, resolve_model_group sn n = Some g ->
  group_name py_str g <> "" /\ resolve_model_group sn (group_name py_str g) = Some g.

Lemma name_truthy g alt : group_name py_str g <> "" -> text_or py_str "name" alt g = group_name py_str g.
Proof. unfold group_name, text_or. destruct (dict_get "name" g) as [v|]; [|done]. by destruct (json_truthy v). Qed.

Lemma canonical_group n g : resolve_model_group sn n = Some g -> canonical_of py_str sn n = group_name py_str g.
Proof. intros Hg. unfold canonical_of. rewrite Hg. apply name_truthy. by apply (self_named n). Qed.

Lemma next_is_walk g visited :
  resolve_model_group sn (group_name py_str g) = Some g ->
  next_group py_str sn (group_name py_str g) visited =
    if decide (original_backup py_str g = "") then None else
    match resolve_model_group sn (original_backup py_str g) with
    | None => None
    | Some g' => if decide (group_name py_str g' ∈ visited) then None else Some (original_backup py_str g)
    end.
Proof.
  intros Hg. unfold next_group. rewrite Hg. case_decide as Hb; [by rewrite Hb|].
  destruct (str_truthy (original_backup py_str g)) eqn:Ht; [|by destruct (original_backup py_str g)]. simpl.
  destruct (resolve_model_group sn (original_backup py_str g)) as [g'|] eqn:Eg; [|done].
  rewrite (canonical_group _ _ Eg). case_bool_decide; case_decide; done.
Qed.

Lemma walk_stops seen c chain : walk py_str sn seen c chain ->
  (forall g, resolve_model_group sn c = Some g -> group_name py_str g ∈ seen) -> chain = [].
Proof. destruct 1 as [|?|? c g Hr Hs|? c g ? Hr Hs]; intros Hin; try done; by apply Hin in Hr. Qed.

Lemma walk_runs seen c chain : walk py_str sn seen c chain -> forall hops outcomes visited last_exc w (e : renv R),
  (forall x, x ∈ visited <-> x ∈ seen) ->
  (forall x, x ∈ seen -> exists g, resolve_model_group sn x = Some g /\ group_name py_str g = x) ->
  is_Some (resolve_model_group sn c) ->
  (forall g, resolve_model_group sn c = Some g -> group_name py_str g ∉ seen) ->
  Forall (fun h => hp_selection h = sn /\ hp_fresh h = sn) hops -> Forall2 gives hops outcomes ->
  exists w' e', run_groups conf utc_offset py_str q hops visited last_exc c w e
    = (Ret (first_served (canonical_of py_str sn <$> chain) outcomes visited last_exc, w'), e').
Proof.
  intros Hw. induction Hw as [seen c Hr|seen c g Hr Hs|seen c g Hr Hs Hb|seen c g rest Hr Hs Hb Hb' Hw IH];
    intros hops outcomes visited last_exc w e Hv Hnames Hsome Hfresh Hst Hf.
  - rewrite Hr in Hsome. by destruct Hsome.
  - by apply Hfresh in Hr.
  - assert (str_truthy c = true) as Hc by (unfold resolve_model_group in Hr; by destruct (str_truthy c)).
    destruct Hf as [|h o hops outcomes Hh Hf]; cbn [run_groups first_served fmap list_fmap]; rewrite Hc; cbn [negb]; [by do 2 eexists|].
    apply Forall_cons in Hst as [[Hsel Hfre] Hst']. rewrite Hsel, Hfre, (canonical_group _ _ Hr).
    rewrite bool_decide_eq_false_2 by (by rewrite Hv). destruct (Hh w e) as (s1 & w1 & e1 & Hl).
    erewrite ST_bind_ret by exact Hl. destruct (self_named _ _ Hr) as [Hne Hself]. destruct o; try by do 2 eexists.
    cbn [no_account]. rewrite next_is_walk by done. destruct Hb as [Hb|Hb]; [rewrite decide_True by done; by do 2 eexists|].
    case_decide; [by do 2 eexists|]. destruct (resolve_model_group sn (original_backup py_str g)) as [g'|] eqn:Eg; [|by do 2 eexists].
    rewrite decide_True; [by do 2 eexists|]. apply elem_of_app. apply elem_of_cons in Hb as [Hb|Hb].
    + right. rewrite Hb, Hself in Eg. injection Eg as <-. by left.
    + left. apply Hv. destruct (Hnames _ Hb) as (gx & Hx & Hnx). rewrite Eg in Hx. injection Hx as ->. by rewrite Hnx.
  - assert (str_truthy c = true) as Hc by (unfold resolve_model_group in Hr; by destruct (str_truthy c)).
    destruct Hf as [|h o hops outcomes Hh Hf]; cbn [run_groups first_served fmap list_fmap]; rewrite Hc; cbn [negb]; [by do 2 eexists|].
    apply Forall_cons in Hst as [[Hsel Hfre] Hst']. rewrite Hsel, Hfre, (canonical_group _ _ Hr).
    rewrite bool_decide_eq_false_2 by (by rewrite Hv). destruct (Hh w e) as (s1 & w1 & e1 & Hl).
    erewrite ST_bind_ret by exact Hl. destruct (self_named _ _ Hr) as [Hne Hself]. destruct o; try by do 2 eexists.
    cbn [no_account]. rewrite next_is_walk by done. rewrite decide_False by done.
    assert (forall x, x ∈ visited ++ [group_name py_str g] <-> x ∈ group_name py_str g :: seen) as Hv'.
    { intros x. rewrite elem_of_app, Hv, !elem_of_cons, elem_of_nil. tauto. }
    destruct (resolve_model_group sn (original_backup py_str g)) as [g'|] eqn:Eg.
    + case_decide as Hd.
      * rewrite (walk_stops _ _ _ Hw); [by do 2 eexists|]. intros g2 Hg2. assert (g2 = g') as -> by congruence. by apply Hv'.
      * apply IH; try done.
        -- intros x [->|Hx]%elem_of_cons; [by exists g | by apply Hnames].
        -- intros g2 [= <-]. by rewrite <- Hv'.
    + rewrite (walk_stops _ _ _ Hw); [by do 2 eexists|]. intros g2 Hg2. congruence.
Qed.

(** C16: Under one catalogue the pipeline is the reference on the configured chain: it
    tries the canonical groups of the backup chain in order, and the first one
    that does not lack an account answers. *)
Theorem fallback_is_chain hops outcomes model w (e : renv R) :
  is_Some (resolve_model_group sn model) ->
  Forall (fun h => hp_selection h = sn /\ hp_fresh h = sn) hops -> Forall2 gives hops outcomes ->
  exists w' e', _run_group_fallback_pipeline conf utc_offset py_str q hops model w e
    = (Ret (first_served (canonical_of py_str sn <$> list_model_group_backup_chain py_str sn model) outcomes [] None, w'), e').
Proof.
  intros Hm Hst Hf. unfold _run_group_fallback_pipeline. eapply walk_runs; [|done| |done| |done..].
  - apply (backup_chain_walks py_str sn); [constructor | by intros x ?%not_elem_of_nil | simpl; rewrite chain_fuel_rows; lia].
  - by intros x ?%not_elem_of_nil.
  - by intros g _ ?%not_elem_of_nil.
Qed.
End fallback.

(** ** A concrete catalogue *)

Module FallbackSample.
Import Sample ManagerSample LoopSample CatalogSample.

Definition none_left : list turn_input :=
  [TurnInput None (NoAccount 429 (JStr "none") "no_available_account") None [] answer now].
Definition no_acc : loop_end := NoAccountRaised 429 (JStr "none") "no_available_account".
Definition hops : list hop :=
  [Hop built none_left built; Hop built none_left built; Hop built [take 0 answer] built].
Abbreviation piped := (_run_group_fallback_pipeline conf off text chat hops "quick" w0).
Definition nothing : pipeline_end * list string * world := (StillRunning, [], w0).

Definition served := outcome nothing piped e0.
Lemma piped_returns : returns piped e0 = true.
Proof. vm_compute. reflexivity. Qed.
Lemma piped_run : piped e0 = (Ret ((served.1.1, served.1.2), served.2), (piped e0).2).
Proof. unfold served. rewrite <- !surjective_pairing. exact (outcome_eq nothing piped e0 piped_returns). Qed.

Lemma fallback_only_without_account_witness :
  served.1 = (Ended Completed, ["fast"; "fast#scheme:1"; "fast#scheme:2"]) /\ NoDup served.1.2.
Proof.
  split; [by vm_compute|].
  exact (proj1 (fallback_only_without_account conf off text chat hops "quick" w0 e0 served.1.1 served.1.2 served.2 (piped e0).2 piped_run eq_refl)).
Defined.

Lemma none_left_gives b fresh : gives (R := mapredis) conf off text chat (Hop b none_left fresh) no_acc.
Proof. intros w e. by do 3 eexists. Qed.

Lemma built_self_named n g : resolve_model_group built n = Some g ->
  group_name text g <> "" /\ resolve_model_group built (group_name text g) = Some g.
Proof.
  intros Hg. assert (exists m, (m, g) ∈ sn_index built) as [m Hm].
  { unfold resolve_model_group in Hg. destruct (str_truthy n); [|done]. cbn [negb] in Hg.
    destruct (dict_get n (sn_index built)) as [g'|] eqn:E.
    - assert (g' = g) as -> by congruence. exists n. by apply dict_get_Some_elem.
    - exists n. apply dict_get_Some_elem in Hg. exact Hg. }
  assert (Forall (fun ng => group_name text ng.2 <> "" /\ resolve_model_group built (group_name text ng.2) = Some ng.2) (sn_index built)) as Hall.
  { repeat constructor; by vm_compute. }
  rewrite Forall_forall in Hall. exact (Hall _ Hm).
Qed.

Lemma fallback_is_chain_witness :
  exists w' e', _run_group_fallback_pipeline conf off text chat [Hop built none_left built; Hop built none_left built] "quick" w0 e0
    = (Ret (StillRunning, ["fast"; "fast#scheme:1"], w'), e').
Proof.
  apply (fallback_is_chain (R := mapredis) conf off text chat built built_self_named _ [no_acc; no_acc] "quick" w0 e0);
    [by eexists | by repeat constructor | repeat constructor; apply none_left_gives].
Defined.
End FallbackSample.
