(* ===== verification/Selection.v ===== *)
(** server/rate_limiter.py: [ModelClientPool], the choice of an account for a
    request: which (channel, model row, account, protocol row) quadruples qualify,
    which of them are preferred, which one a strategy picks, and the loop that
    reserves it and moves on when the reservation is refused.

    Several candidates share one account object, so a candidate refers to it by
    channel and position, and reserving works on the pools.  Random choices, the
    clock and the answers of the provider adapters are inputs. *)
From S2P Require Import Prelude Redis Client State Json Text Windows Rules Account Policy Pool Manager Ranking Catalog.

(** ** Channels *)

(** A row of Channel.chat_protocols; "" is a missing field. *)
Record chat_protocol := ChatProtocol {
  cp_id : string; cp_protocol : string; cp_models : list string; cp_enabled : bool; cp_client_preset : string;
}.
(** A row of Channel.models; [mr_enabled] is [row.get("enabled") is not False]. *)
Record model_row := ModelRow {
  mr_model_id : string; mr_upstream : string; mr_enabled : bool; mr_client_preset : string; mr_extra : row;
}.
Record channel := Channel {
  ch_tags : list string; ch_priority : Z; ch_weight : Z; ch_models : list model_row; ch_protocols : list chat_protocol;
}.
(** A provider pool with its channel. *)
Record site := Site { st_pool : pool; st_channel : channel }.
Definition with_clients (cs : list account_client) (s : site) : site := Site (set_clients cs (st_pool s)) (st_channel s).

(** AccountClient.priority and weight, read from the channel. *)
Definition priority (s : site) : Z := ch_priority (st_channel s).
Definition weight (s : site) : Z := Z.max 1 (ch_weight (st_channel s)).

(** What a provider adapter answers: the media methods it overrides, the system
    models it accepts, the protocol it names. *)
Record adapter := Adapter {
  ad_implements : string -> bool; ad_supports_system_model : string -> bool; ad_protocol : string;
}.

Definition _chat_protocol_rank (model_id request_protocol : string) (cp : chat_protocol) : Z :=
  let bound := str_truthy model_id && negb (bool_decide (cp_models cp = [])) in
  let same_protocol := str_truthy request_protocol && String.eqb (cp_protocol cp) request_protocol in
  if bound then if same_protocol then 0 else 1 else if same_protocol then 2 else 3.

(** Channel.chat_protocols_for, without a protocol filter. *)
Definition chat_protocols_for (model_id : string) (ch : channel) : list chat_protocol :=
  filter (fun cp => cp_enabled cp &&
    negb (str_truthy model_id && negb (bool_decide (cp_models cp = [])) && negb (bool_decide (model_id ∈ cp_models cp))) = true)
    (ch_protocols ch).
Definition get_chat_protocol_candidates (model_id request_protocol : string) (ch : channel) : list chat_protocol :=
  sorted_by (fun cp => [_chat_protocol_rank model_id request_protocol cp]) (chat_protocols_for model_id ch).

(** ** Media operations *)

Definition _MEDIA_OPERATION_CONFIG : list (string * (string * string)) :=
  [("image_generation", ("generate_image", "image")); ("video_generation", ("generate_video", "video"));
   ("tts_generation", ("generate_speech", "audio")); ("embedding", ("create_embedding", "embedding"))].

(** The method and the output modality of an operation; "" is no operation. *)
Definition _operation_spec (operation : string) : option (string * string) :=
  if negb (str_truthy operation) || String.eqb operation "chat" then None else dict_get operation _MEDIA_OPERATION_CONFIG.

Definition _provider_supports_operation (a : adapter) (operation : string) : bool :=
  match _operation_spec operation with Some (method, _) => ad_implements a method | None => true end.

(** [isinstance(v, list) and v and modality not in v] *)
Definition excludes_modality (modality : string) (v : option json) : bool :=
  match v with
  | Some (JArr (x :: l)) => negb (existsb (fun y => match y with JStr s => String.eqb s modality | _ => false end) (x :: l))
  | _ => false
  end.
Definition _metadata_allows_operation (metadata : row) (operation : string) : bool :=
  match _operation_spec operation with
  | Some (_, modality) => negb (excludes_modality modality (dict_get "output_modalities" metadata))
  | None => true
  end.
(** [extra.get("output_modalities") or extra.get("modalities")] *)
Definition row_modalities (extra : row) : option json :=
  match dict_get "output_modalities" extra with
  | Some v => if json_truthy v then Some v else dict_get "modalities" extra
  | None => dict_get "modalities" extra
  end.
Definition _route_supports_operation (sn : snapshot) (r : model_row) (routed_model operation : string) : bool :=
  match _operation_spec operation with
  | None => true
  | Some (_, modality) =>
      if excludes_modality modality (row_modalities (mr_extra r)) then false
      else match get_model_metadata sn routed_model with
           | Some metadata => _metadata_allows_operation metadata operation
           | None => true
           end
  end.

(** ** Dedicated routes *)

Record route_entry := RouteEntry { en_provider : string; en_accounts : list string }.

Section routes.
Variable py_str : json -> string.

(** A text field; None when stripping it raises. *)
Definition blank_or_text (k : string) (d : row) : option string :=
  match dict_get k d with
  | Some (JStr s) => Some s
  | Some v => if json_truthy v then None else Some ""
  | None => Some ""
  end.

Definition _entry_accounts (entry : row) : option (list string) :=
  let accounts := match dict_get "accounts" entry with Some (JStr s) => [JStr s] | Some (JArr l) => l | _ => [] end in
  let listed := dedup_first [] (filter (fun n => str_truthy n = true) ((fun v => strip (json_str_of py_str v)) <$> accounts)) in
  account ← blank_or_text "account" entry;
  username ← (if str_truthy account then Some "" else blank_or_text "username" entry);
  let single := strip (str_or account username) in
  Some (if str_truthy single && negb (bool_decide (single ∈ listed)) then listed ++ [single] else listed).

Definition route_entry_of (d : row) : option (option route_entry) :=
  provider ← blank_or_text "provider" d;
  if negb (str_truthy (strip provider)) then Some None
  else accounts ← _entry_accounts d; Some (Some (RouteEntry (strip provider) accounts)).

Fixpoint entries_of (l : list json) : option (list route_entry) :=
  match l with
  | [] => Some []
  | JObj d :: l' => e ← route_entry_of d; es ← entries_of l'; Some (match e with Some e => e :: es | None => es end)
  | _ :: l' => entries_of l'
  end.

(** _route_entries; None is an exception. *)
Definition _route_entries (route : row) : option (list route_entry) :=
  match dict_get "entries" route with
  | Some (JArr (x :: l)) => entries_of (x :: l)
  | _ => match route_entry_of route with
         | Some (Some e) => Some [e]
         | Some None => Some []
         | None => None
         end
  end.
End routes.

(** ** Candidates *)

(** [cn_index] is the position of the account in its pool. *)
Record choice := Choice {
  cn_provider : string; cn_index : nat; cn_account : string; cn_model : string; cn_upstream : string;
  cn_priority : Z; cn_weight : Z; cn_protocol : string; cn_same_protocol : bool; cn_model_bound : bool;
  cn_endpoint : option chat_protocol; cn_extra : row;
}.
#[export] Instance chat_protocol_eq_dec : EqDecision chat_protocol.
Proof. solve_decision. Defined.

(** What a request asks for.  [cr_entries] are the entries of a dedicated route
    the candidates are restricted to; blank lists restrict nothing. *)
Record criteria := Criteria {
  cr_exclude : list (string * string); cr_operation : string;
  cr_group_whitelist : list string; cr_group_blacklist : list string;
  cr_key_whitelist : list string; cr_key_blacklist : list string;
  cr_entries : list route_entry; cr_protocol : string; cr_accounts : list string;
  cr_is_test : bool; cr_is_probe : bool; cr_input_tokens : Z;
}.
Definition cr_bypass (cr : criteria) : bool := cr_is_test cr || cr_is_probe cr.

(** Truth of a set, and of an intersection. *)
Definition nonempty (l : list string) : bool := negb (bool_decide (l = [])).
Definition meets (a b : list string) : bool := existsb (fun x => bool_decide (x ∈ b)) a.

Definition entry_providers (cr : criteria) : list string :=
  filter (fun p => str_truthy p = true) ((fun e => strip (en_provider e)) <$> cr_entries cr).
(** The accounts a route allows on a provider: None without a route. *)
Definition route_allowed_accounts (cr : criteria) (provider : string) : option (list string) :=
  if bool_decide (cr_entries cr = []) || negb (bool_decide (provider ∈ entry_providers cr)) then None else
  Some (filter (fun a => str_truthy a = true)
    (strip <$> (filter (fun e => strip (en_provider e) = provider) (cr_entries cr) ≫= en_accounts))).

Definition window_of (metadata_limit : Z) (r : model_row) : Z :=
  let declared := int_or_zero (dict_get "max_context_tokens" (mr_extra r)) in
  if declared <=? 0 then metadata_limit else declared.
Definition metadata_window (sn : snapshot) (model : string) : Z :=
  default 0 ((fun m => int_or_zero (dict_get "max_context_tokens" m)) <$> get_model_metadata sn model).

(** Why a row of a channel is skipped. *)
Definition row_skipped (sn : snapshot) (cr : criteria) (model provider : string) (s : site) (r : model_row) : option string :=
  let tags := ch_tags (st_channel s) in
  let window := window_of (metadata_window sn model) r in
  if negb (_route_supports_operation sn r model (cr_operation cr)) then Some "operation_mismatch"
  else if (0 <? cr_input_tokens cr) && (0 <? window) && (window <? cr_input_tokens cr) then Some "context_window_exceeded"
  else if nonempty (entry_providers cr) && negb (bool_decide (provider ∈ entry_providers cr)) then Some "entry_provider_missing"
  else if negb (cr_bypass cr) &&
          ((nonempty (cr_group_whitelist cr) && negb (meets tags (cr_group_whitelist cr))) ||
           (nonempty (cr_group_blacklist cr) && meets tags (cr_group_blacklist cr))) then Some "group_provider_filtered"
  else if (if cr_bypass cr
           then (nonempty (cr_key_whitelist cr) && negb (bool_decide (provider ∈ cr_key_whitelist cr))) ||
                (nonempty (cr_key_blacklist cr) && bool_decide (provider ∈ cr_key_blacklist cr))
           else (nonempty (cr_key_whitelist cr) && negb (meets tags (cr_key_whitelist cr))) ||
                (nonempty (cr_key_blacklist cr) && meets tags (cr_key_blacklist cr))) then Some "api_key_provider_filtered"
  else if negb (cr_is_test cr) && negb (pl_enabled (st_pool s)) then Some "provider_disabled"
  else None.

(** The reason an account that is not routable is counted under. *)
Definition unroutable_reason (st : account_state) : string :=
  match st with
  | DISABLED | UNINITIALIZED => "account_disabled"
  | CREDENTIAL_INVALID | QUOTA_EXHAUSTED | FROZEN => "account_frozen"
  | COOLING => "account_cooldown"
  | _ => ""
  end.

(** Why an account is skipped; reading its state drops its expired freezes. *)
Definition account_skipped (now : Z) (a : adapter) (cr : criteria) (model provider : string) (c : account_client)
    : option string * account_client :=
  if negb (_provider_supports_operation a (cr_operation cr)) then (Some "provider_method_missing", c)
  else if negb (ad_supports_system_model a model) then (Some "system_model_unsupported", c)
  else if match route_allowed_accounts cr provider with
          | Some allowed => negb (bool_decide (ac_username c ∈ allowed))
          | None => false
          end then (Some "entry_account_missing", c)
  else if nonempty (cr_accounts cr) && negb (bool_decide (ac_username c ∈ cr_accounts cr)) then (Some "account_whitelist_missing", c)
  else if bool_decide ((provider, ac_username c) ∈ cr_exclude cr) then (Some "excluded_account", c)
  else if negb (cr_bypass cr) then
    let '(st, c) := state now c in
    if negb (bool_decide (st ∈ ROUTABLE_STATES)) then (Some (unroutable_reason st), c)
    else if is_model_frozen now model c then (Some "account_model_cooldown", c)
    else (None, c)
  else if negb (cr_is_test cr) && ac_disabled c then (Some "account_disabled", c)
  else (None, c).

(** One candidate per protocol row of the channel, or one without. *)
Definition protocol_rows (cr : criteria) (model : string) (s : site) : list (option chat_protocol) :=
  let chat := match _operation_spec (cr_operation cr) with Some _ => false | None => true end in
  match (if chat then get_chat_protocol_candidates model (cr_protocol cr) (st_channel s) else []) with
  | [] => [None]
  | rows => Some <$> rows
  end.
Definition make_choice (a : adapter) (cr : criteria) (model provider : string) (s : site) (r : model_row) (i : nat)
    (c : account_client) (ep : option chat_protocol) : choice :=
  let protocol := lower (str_or (default "" (cp_protocol <$> ep)) (str_or (ad_protocol a) "openai")) in
  {| cn_provider := provider; cn_index := i; cn_account := ac_username c; cn_model := model;
     cn_upstream := str_or (mr_upstream r) model; cn_priority := priority s; cn_weight := weight s;
     cn_protocol := protocol;
     cn_same_protocol := str_truthy (cr_protocol cr) && String.eqb protocol (lower (cr_protocol cr));
     cn_model_bound := match ep with Some cp => bool_decide (model ∈ cp_models cp) | None => false end;
     cn_endpoint := ep; cn_extra := mr_extra r |}.

(** What collecting gives: candidates, skip reasons in order. *)
Record found := Found { fd_choices : list choice; fd_skips : list string }.
Definition found_app (a b : found) : found := Found (fd_choices a ++ fd_choices b) (fd_skips a ++ fd_skips b).
Definition skip (reason : string) : found := Found [] [reason].

Section collect.
Variables (adapter_of : string -> string -> adapter) (sn : snapshot) (now : Z) (cr : criteria).

Fixpoint collect_accounts (model provider : string) (s : site) (r : model_row) (i : nat) (cs : list account_client)
    : found * list account_client :=
  match cs with
  | [] => (Found [] [], [])
  | c :: cs' =>
      let a := adapter_of provider (ac_username c) in
      let '(skipped, c) := account_skipped now a cr model provider c in
      let here := match skipped with
                  | Some reason => skip reason
                  | None => Found (make_choice a cr model provider s r i c <$> protocol_rows cr model s) []
                  end in
      let '(rest, cs') := collect_accounts model provider s r (S i) cs' in
      (found_app here rest, c :: cs')
  end.

Definition collect_row (model provider : string) (r : model_row) (s : site) : found * site :=
  match row_skipped sn cr model provider s r with
  | Some reason => (skip reason, s)
  | None =>
      let '(fd, cs) := collect_accounts model provider s r 0 (pl_clients (st_pool s)) in
      (fd, with_clients cs s)
  end.

(** iter_model_candidates: the rows of a model, a stopped row only for tests. *)
Definition model_rows (model : string) (s : site) : list model_row :=
  filter (fun r => mr_model_id r = model /\ (mr_enabled r || cr_bypass cr) = true) (ch_models (st_channel s)).

Fixpoint collect_rows (model provider : string) (rows : list model_row) (s : site) : found * site :=
  match rows with
  | [] => (Found [] [], s)
  | r :: rows' =>
      let '(fd, s) := collect_row model provider r s in
      let '(fds, s) := collect_rows model provider rows' s in
      (found_app fd fds, s)
  end.

Fixpoint collect_sites (model : string) (sites : list (string * site)) : found * list (string * site) :=
  match sites with
  | [] => (Found [] [], [])
  | (provider, s) :: sites' =>
      let '(fd, s) := collect_rows model provider (model_rows model s) s in
      let '(fds, sites') := collect_sites model sites' in
      (found_app fd fds, (provider, s) :: sites')
  end.

(** has_model_route *)
Definition has_model_route (model : string) (sites : list (string * site)) : bool :=
  existsb (fun ps => existsb (fun r => String.eqb (mr_model_id r) model && mr_enabled r) (ch_models (st_channel ps.2))) sites.
Definition has_rows (model : string) (sites : list (string * site)) : bool :=
  existsb (fun ps => negb (bool_decide (length (model_rows model ps.2) = 0%nat))) sites.

(** _collect_candidates: candidates, the models whose minute is used up, skips. *)
Fixpoint _collect_candidates (models : list string) (sites : list (string * site)) (w : world)
    : found * list string * (list (string * site) * world) :=
  match models with
  | [] => (Found [] [], [], (sites, w))
  | m :: models' =>
      let '(fd, limited, (sites, w)) :=
        if negb (has_rows m sites) then (skip "no_model_route", [], (sites, w)) else
        let '(cooling, w) := _is_model_tpm_cooling now m w in
        if cooling then (skip "model_tpm_limited", [m], (sites, w)) else
        let '(fd, sites) := collect_sites m sites in (fd, [], (sites, w)) in
      let '(fds, limiteds, after) := _collect_candidates models' sites w in
      (found_app fd fds, limited ++ limiteds, after)
  end.
End collect.
