(* ===== verification/Routing.v ===== *)
(** server/rate_limiter.py: [ModelClientPool], from candidates to a reserved
    account: preferences, strategies, the selection loop, and
    _get_available_client_with_provider over routes, groups, models and the
    fallback schemes of a model.

    Scores and weighted draws are floating point and stay inputs of a pick
    ([dice]); so do shuffles, the clock and the answers of the provider. *)
From S2P Require Import Prelude Redis Client State Json Text Windows Rules Account Policy Pool Manager Ranking Catalog Selection.

Definition PROVIDER_USAGE_HISTORY_WINDOW_SECONDS : Z := 600.
Definition PROVIDER_USAGE_HISTORY_MAX_ROUNDS : nat := 20.
Definition UPSTREAM_MODEL_AFFINITY_TTL : Z := 600.

(** ** Shared state *)

Record selector := Selector {
  sl_sites : list (string * site);                 (* _provider_pools *)
  sl_world : world;
  sl_history : list (Z * string);                  (* _provider_pick_history *)
  sl_picks : list (string * list Z);               (* _provider_recent_picks *)
  sl_affinity : list (string * (string * Z));      (* _upstream_model_affinity *)
  sl_ctx : list string;                            (* the lease stack of the task *)
}.
Definition set_sites (sites : list (string * site)) (s : selector) : selector :=
  Selector sites (sl_world s) (sl_history s) (sl_picks s) (sl_affinity s) (sl_ctx s).
Definition set_sl_world (w : world) (s : selector) : selector :=
  Selector (sl_sites s) w (sl_history s) (sl_picks s) (sl_affinity s) (sl_ctx s).
Definition set_history (h : list (Z * string)) (s : selector) : selector :=
  Selector (sl_sites s) (sl_world s) h (sl_picks s) (sl_affinity s) (sl_ctx s).
Definition set_ctx (ctx : list string) (s : selector) : selector :=
  Selector (sl_sites s) (sl_world s) (sl_history s) (sl_picks s) (sl_affinity s) ctx.

(** The account object of a candidate. *)
Definition account_at (p : string) (i : nat) (s : selector) : option account_client :=
  dict_get p (sl_sites s) ≫= fun st => pl_clients (st_pool st) !! i.
Definition put_account (p : string) (i : nat) (c : account_client) (s : selector) : selector :=
  match dict_get p (sl_sites s) with
  | Some st => set_sites (dict_set p (with_clients (<[i := c]> (pl_clients (st_pool st))) st) (sl_sites s)) s
  | None => s
  end.
Definition site_enabled (p : string) (s : selector) : bool :=
  match dict_get p (sl_sites s) with Some st => pl_enabled (st_pool st) | None => true end.

Definition set_is_test (b : bool) (c : account_client) : account_client :=
  AccountClient (ac_provider_name c) (ac_username c) (ac_limits c) (ac_disabled c) (ac_disable_reason c)
    (ac_account c) (ac_models c) (ac_auth_ok c) (ac_init c) (ac_quotas c) (ac_daily_remaining c) (ac_daily_limit c)
    (ac_quota_disabled_until c) (ac_stats c) (ac_requests c) (ac_token_usages c) (ac_in_flight c) (ac_leases c) b.
Definition note_pick (now : Z) (c : account_client) : account_client :=
  AccountClient (ac_provider_name c) (ac_username c) (ac_limits c) (ac_disabled c) (ac_disable_reason c)
    (ac_account c) (ac_models c) (ac_auth_ok c) (ac_init c) (ac_quotas c) (ac_daily_remaining c) (ac_daily_limit c)
    (ac_quota_disabled_until c) (record_pick now (ac_stats c)) (ac_requests c) (ac_token_usages c) (ac_in_flight c)
    (ac_leases c) (ac_is_test c).

(** ** Pick history and affinity *)

Definition _clean_provider_pick_history (now : Z) (h : list (Z * string)) : list (Z * string) :=
  let recent := filter (fun tp => now - sec PROVIDER_USAGE_HISTORY_WINDOW_SECONDS <= tp.1) h in
  drop (length recent - PROVIDER_USAGE_HISTORY_MAX_ROUNDS) recent.
Definition _last_used_provider (now : Z) (h : list (Z * string)) : option string :=
  snd <$> last (_clean_provider_pick_history now h).

(** [filtered or candidates] *)
Definition or_else {A} (a b : list A) : list A := match a with [] => b | _ => a end.

Definition _avoid_last_provider (now : Z) (cs : list choice) (h : list (Z * string)) : list choice * list (Z * string) :=
  match cs with
  | [] => (cs, h)
  | _ =>
      (match _last_used_provider now h with
       | Some p => if str_truthy p then or_else (filter (fun c => cn_provider c <> p) cs) cs else cs
       | None => cs
       end, _clean_provider_pick_history now h)
  end.

(** Appearances of a provider in the last [n] picks. *)
Definition usage_in_last (n : nat) (provider : string) (h : list (Z * string)) : nat :=
  length (filter (fun p => p = provider) (drop (length h - n) h.*2)).
Definition _provider_recent_usage_counts (provider : string) (h : list (Z * string)) : list (Z * nat) :=
  (fun n => (Z.of_nat n, usage_in_last n provider h)) <$> [3; 5; 10; 20]%nat.

Definition _account_key (provider username : string) : string := provider +++ ":" +++ username.
Definition record_upstream_model_affinity (now : Z) (upstream provider username : string)
    (a : list (string * (string * Z))) : list (string * (string * Z)) :=
  if str_truthy upstream then dict_set upstream (_account_key provider username, now) a else a.
(** The affinity part of cleanup_session_state. *)
Definition cleanup_affinity (now : Z) (a : list (string * (string * Z))) : list (string * (string * Z)) :=
  filter (fun kr => now - kr.2.2 <= sec UPSTREAM_MODEL_AFFINITY_TTL) a.

(** ** Preferences *)

Definition protocol_rank (c : choice) : Z :=
  if cn_model_bound c then if cn_same_protocol c then 0 else 1 else if cn_same_protocol c then 2 else 3.
Definition _prefer_same_protocol_candidates (request_protocol : string) (cs : list choice) : list choice :=
  if negb (str_truthy request_protocol) && negb (existsb cn_model_bound cs) then cs else
  let best := default 3 (protocol_rank <$> min_by (fun c => [protocol_rank c]) cs) in
  or_else (filter (fun c => protocol_rank c = best) cs) cs.

(** The time of a live affinity record of the candidate's account and model. *)
Definition affinity_of (now : Z) (a : list (string * (string * Z))) (c : choice) : option Z :=
  match dict_get (cn_upstream c) a with
  | Some (key, ts) =>
      if sec UPSTREAM_MODEL_AFFINITY_TTL <=? now - ts then None
      else if String.eqb key (_account_key (cn_provider c) (cn_account c)) then Some ts else None
  | None => None
  end.
Definition affinity_step (now : Z) (a : list (string * (string * Z))) (acc : Z * list choice) (c : choice) : Z * list choice :=
  match affinity_of now a c with
  | None => acc
  | Some ts => if acc.1 <? ts then (ts, [c]) else if ts =? acc.1 then (acc.1, acc.2 ++ [c]) else acc
  end.

Inductive strategy := SEQUENTIAL | RANDOM_MEMBER | MODEL_RANDOM | RANDOM_ALL | INTELLIGENT | FAST_INTELLIGENT | LARGEST_CONTEXT.
#[export] Instance strategy_eq_dec : EqDecision strategy.
Proof. solve_decision. Defined.
Definition scored (st : strategy) : bool := match st with INTELLIGENT | FAST_INTELLIGENT => true | _ => false end.

Definition _prefer_same_upstream_model_candidates (now : Z) (st : strategy) (a : list (string * (string * Z)))
    (cs : list choice) : list choice :=
  if scored st then cs else or_else (foldl (affinity_step now a) (0, []) cs).2 cs.

(** The strategy of an API key (Config.get_api_key_strategy and the method table). *)
Definition strategy_of (configured : string) : strategy :=
  let raw := strip (str_or configured "intelligent") in
  if String.eqb raw "sequential" then SEQUENTIAL
  else if String.eqb raw "random_member" then RANDOM_MEMBER
  else if String.eqb raw "model_random" then MODEL_RANDOM
  else if String.eqb raw "random_all" then RANDOM_ALL
  else if String.eqb raw "fast_intelligent" then FAST_INTELLIGENT
  else INTELLIGENT.

(** ** Strategies *)

(** The random choices of one pick: shuffles of model and channel names, an index
    drawn below a bound, the score test, and the weighted pick of [INTELLIGENT]
    (with its exploring round). *)
Record dice := Dice {
  dc_models : list string -> list string; dc_providers : list string -> list string; dc_index : nat -> nat;
  dc_positive : choice -> bool; dc_explore : bool; dc_weighted : bool -> list choice -> option choice;
}.

Definition order_key (c : choice) : list Z := [cn_priority c; - cn_weight c].
Definition first_by_order (cs : list choice) : option choice := head (sorted_by order_key cs).

Section strategies.
Variables (sn : snapshot) (now : Z) (d : dice).

Definition _select_sequential (cs : list choice) (h : list (Z * string)) : option choice * list (Z * string) :=
  let '(cs, h) := _avoid_last_provider now cs h in (first_by_order cs, h).

Definition _select_channel_random (cs : list choice) (h : list (Z * string)) : option choice * list (Z * string) :=
  let '(cs, h) := _avoid_last_provider now cs h in
  (match dc_providers d (dedup_first [] (cn_provider <$> cs)) with
   | [] => None
   | p :: _ => first_by_order (filter (fun c => cn_provider c = p) cs)
   end, h).

Fixpoint try_models (models : list string) (cs : list choice) (h : list (Z * string)) : option choice * list (Z * string) :=
  match models with
  | [] => (None, h)
  | m :: models' =>
      let '(r, h) := _select_channel_random (filter (fun c => cn_model c = m) cs) h in
      match r with Some c => (Some c, h) | None => try_models models' cs h end
  end.
Definition _select_model_random (cs : list choice) (h : list (Z * string)) : option choice * list (Z * string) :=
  try_models (dc_models d (dedup_first [] (cn_model <$> cs))) cs h.

Definition _select_all_random (cs : list choice) (h : list (Z * string)) : option choice * list (Z * string) :=
  let '(cs, h) := _avoid_last_provider now cs h in (cs !! dc_index d (length cs), h).

(** The input window of a candidate, as it is advertised. *)
Definition choice_window (c : choice) : Z :=
  let cap := int_or_zero (dict_get "max_context_tokens" (cn_extra c)) in
  if 0 <? cap then cap else metadata_window sn (cn_model c).
Definition _select_largest_context (cs : list choice) (h : list (Z * string)) : option choice * list (Z * string) :=
  (head (sorted_by (fun c => [- choice_window c; cn_priority c; - cn_weight c]) cs), h).

Definition scored_positive (cs : list choice) : list choice := filter (fun c => dc_positive d c = true) cs.
Definition _select_intelligent (cs : list choice) (h : list (Z * string)) : option choice * list (Z * string) :=
  match scored_positive cs with [] => (None, h) | valid => (dc_weighted d false valid, h) end.
Definition _select_fast_intelligent (cs : list choice) (h : list (Z * string)) : option choice * list (Z * string) :=
  match scored_positive cs with
  | [] => (None, h)
  | valid =>
      if dc_explore d then (dc_weighted d true valid, h)
      else let '(avoided, h) := _avoid_last_provider now valid h in (dc_weighted d false avoided, h)
  end.

(** [if not candidates: return None] opens every strategy. *)
Definition select (st : strategy) (cs : list choice) (h : list (Z * string)) : option choice * list (Z * string) :=
  match cs with
  | [] => (None, h)
  | _ =>
      match st with
      | SEQUENTIAL => _select_sequential cs h
      | RANDOM_MEMBER => _select_channel_random cs h
      | MODEL_RANDOM => _select_model_random cs h
      | RANDOM_ALL => _select_all_random cs h
      | INTELLIGENT => _select_intelligent cs h
      | FAST_INTELLIGENT => _select_fast_intelligent cs h
      | LARGEST_CONTEXT => _select_largest_context cs h
      end
  end.
End strategies.

(** ** Reserving a candidate *)

(** What one pick meets: the deadline, the clock, the random choices, the
    provider's answers, a fresh identifier. *)
Record pick_input := PickInput {
  pi_late : bool; pi_now : Z; pi_dice : dice; pi_check : bool * string; pi_record_ok : bool; pi_hex : string;
}.

(** The flags of the request that reserving needs, and the configuration. *)
Record reserve_mode := ReserveMode {
  rm_bypass : bool;                    (* is_test or is_probe *)
  rm_strategy : strategy; rm_model_tpm : string -> Z; rm_overflow : bool;
}.

Inductive selection_result := Selected (ch : choice) | NotSelected | SelectionRaised.

Definition model_level (reason : string) : bool :=
  String.eqb reason "account_model_cooldown" || String.eqb reason "account_model_frozen".
Definition same_account (a b : choice) : bool :=
  String.eqb (cn_provider a) (cn_provider b) && String.eqb (cn_account a) (cn_account b).
(** The candidates a refusal removes: those of the account, or only those of its
    model when the refusal is about the model. *)
Definition removed (reason : string) (refused c : choice) : bool :=
  same_account c refused && (negb (model_level reason) || String.eqb (cn_model c) (cn_model refused)).

Section reserve.
Context {R : Type} `{Redis R}.
Variables (conf : redis_conf) (utc_offset : Z -> Z) (boot_id : string) (sn : snapshot) (rm : reserve_mode).

(** A computation on the process state within that of the selector. *)
Definition zoom {A} (m : ST world R A) : ST selector R A := fun s e =>
  match m (sl_world s) e with
  | (Ret (a, w), e') => (Ret (a, set_sl_world w s), e')
  | (Exc, e') => (Exc, e')
  end.

(** A reserved account: the pick is noted, on the account and in the histories,
    unless it is a test. *)
Definition note_reserved (now : Z) (ch : choice) (c : account_client) (s : selector) : account_client * selector :=
  if rm_bypass rm then (c, s) else
  (note_pick now c,
   Selector (sl_sites s) (sl_world s)
     (_clean_provider_pick_history now (sl_history s ++ [(now, cn_provider ch)]))
     (dict_append (cn_provider ch) now (sl_picks s)) (sl_affinity s) (sl_ctx s)).

(** What the limit manager is asked; the token estimate is not handed on. *)
Definition reserve_request (t : pick_input) (ch : choice) (s : selector) : request :=
  Request (cn_model ch) (pi_check t) false 0 (site_enabled (cn_provider ch) s) (rm_model_tpm rm (cn_model ch))
    (rm_overflow rm) (pi_hex t).

(** _try_reserve.  None: the provider's record_message raised. *)
Definition _try_reserve (t : pick_input) (ch : choice) : ST selector R (option (bool * limit_decision)) :=
  s ← get_world;
  match account_at (cn_provider ch) (cn_index ch) s with
  | None => lift raise
  | Some c =>
      '(r, c, ctx) ← zoom (reserve_with_decision conf utc_offset boot_id (pi_now t) (reserve_request t ch s)
                             (pi_record_ok t) (sl_ctx s) (set_is_test (rm_bypass rm) c));
      modify (set_ctx ctx);;
      match r with
      | None => modify (put_account (cn_provider ch) (cn_index ch) (set_is_test false c));; mret None
      | Some r =>
          s ← get_world;
          let '(c, s) := if lr_allowed r then note_reserved (pi_now t) ch c s else (c, s) in
          modify (fun _ => put_account (cn_provider ch) (cn_index ch) (set_is_test false c) s);;
          mret (Some (lr_allowed r, lr_decision r))
      end
  end.

(** The strategy's pick; a test takes the first candidate when there is none. *)
Definition pick (t : pick_input) (remaining : list choice) : ST selector R (option choice) :=
  s ← get_world;
  let '(c, h) := select sn (pi_now t) (pi_dice t) (rm_strategy rm) remaining (sl_history s) in
  modify (set_history h);;
  mret (match c with Some c => Some c | None => if rm_bypass rm then head remaining else None end).

(** The loop of _select_and_reserve_candidates: [fuel] is max_selection_attempts
    less the attempts made, [i] their number.  The refused candidates are returned
    for the statements. *)
Fixpoint selection_loop (inputs : nat -> pick_input) (fuel i : nat) (remaining : list choice) (reasons : list (string * Z))
    (refused : list (choice * string)) : ST selector R (selection_result * list (string * Z) * list (choice * string)) :=
  match remaining, fuel with
  | [], _ => mret (NotSelected, reasons, refused)
  | _, O => mret (NotSelected, add_count (Z.of_nat (length remaining)) "selection_exhausted" reasons, refused)
  | _, S fuel =>
      let t := inputs i in
      if negb (rm_bypass rm) && pi_late t
      then mret (NotSelected, add_count (Z.of_nat (length remaining)) "selection_deadline" reasons, refused) else
      c ← pick t remaining;
      match c with
      | None => mret (NotSelected, add_count 1 "selection_returned_none" reasons, refused)
      | Some ch =>
          r ← _try_reserve t ch;
          match r with
          | None => mret (SelectionRaised, reasons, refused)
          | Some (true, _) => mret (Selected ch, reasons, refused)
          | Some (false, decision) =>
              let reason := str_or (ld_reason decision) "reservation_denied" in
              selection_loop inputs fuel (S i) (filter (fun c => removed reason ch c = false) remaining)
                (add_count 1 reason reasons) (refused ++ [(ch, reason)])
          end
      end
  end.
Definition _select_and_reserve_candidates (inputs : nat -> pick_input) (cs : list choice) (reasons : list (string * Z))
    : ST selector R (selection_result * list (string * Z) * list (choice * string)) :=
  selection_loop inputs (length cs) 0 cs reasons [].

(** _prepare_and_reserve; [request_protocol] is "" without one. *)
Definition _prepare_and_reserve (inputs : nat -> pick_input) (now : Z) (request_protocol : string) (cs : list choice)
    (reasons : list (string * Z)) : ST selector R (selection_result * list (string * Z)) :=
  match cs with
  | [] => mret (NotSelected, reasons)
  | _ =>
      s ← get_world;
      let cs := _prefer_same_upstream_model_candidates now (rm_strategy rm) (sl_affinity s)
                  (_prefer_same_protocol_candidates request_protocol cs) in
      '(r, reasons, _) ← _select_and_reserve_candidates inputs cs reasons;
      mret (r, reasons)
  end.
End reserve.
