(* ===== verification/Acquire.v ===== *)
(** server/rate_limiter.py: _get_available_client_with_provider and the error it
    ends with.

    The four paths of the source (dedicated route, random member model of a group,
    other groups, single model with its fallback schemes) collect candidates,
    reserve one, and otherwise raise with a business code derived from the reasons
    counted on the way. *)
From S2P Require Import Prelude Redis Client State Json Text Windows Rules Account Policy Pool Manager Ranking Catalog Selection Routing.

(** ** Business codes *)

Definition _REASON_TO_BUSINESS_CODE : list (string * string) :=
  [("account_frozen", "no_available_account"); ("account_cooldown", "no_available_account");
   ("account_model_cooldown", "no_available_account"); ("account_model_frozen", "no_available_account");
   ("account_disabled", "no_available_account"); ("model_frozen", "no_available_account");
   ("concurrent_limit", "concurrent_limit_exceeded"); ("model_tpm_limited", "rate_limit_exceeded");
   ("provider_quota_exhausted", "quota_exhausted"); ("provider_daily_quota_exhausted", "quota_exhausted");
   ("provider_quota_cooldown", "quota_exhausted"); ("provider_message_quota_exceeded", "quota_exhausted");
   ("redis_uncertain", "service_busy"); ("provider_not_initialized", "service_busy");
   ("selection_deadline", "no_available_account"); ("selection_exhausted", "no_available_account");
   ("selection_returned_none", "no_available_account"); ("context_window_exceeded", "context_too_large")].

Definition _dominant_reason_code (reasons : list (string * Z)) : string :=
  match top_key (filter (fun kv => kv.2 <> 0) reasons) with
  | Some top => default "no_available_account" (dict_get top _REASON_TO_BUSINESS_CODE)
  | None => "no_available_account"
  end.

(** ** The text of the error *)

Definition skip_labels : list (string * string) :=
  [("no_model_route", "模型未配置 provider_models 路由"); ("entry_provider_missing", "专用线路 provider 不在模型路由中");
   ("model_tpm_limited", "模型达到 TPM 限制"); ("context_window_exceeded", "预估输入超过模型上下文窗口");
   ("operation_mismatch", "output_modalities 不匹配当前媒体操作"); ("group_provider_filtered", "模型组 provider 白/黑名单过滤");
   ("api_key_provider_filtered", "API Key provider 白/黑名单过滤"); ("provider_quota_limited", "provider 模型配额不足");
   ("provider_disabled", "provider 已禁用（仅跳过发送消息）"); ("provider_method_missing", "provider 未实现媒体生成方法");
   ("system_model_unsupported", "provider 不支持该模型"); ("entry_account_missing", "专用线路账号不匹配");
   ("account_whitelist_missing", "账号不在白名单"); ("excluded_account", "账号已在重试中排除");
   ("account_disabled", "账号已禁用（仅跳过发送消息）"); ("account_frozen", "账号被持久冻结");
   ("account_cooldown", "账号处于冷却期"); ("account_model_cooldown", "账号的当前模型处于冷却期");
   ("channel_disabled", "渠道已禁用"); ("provider_not_initialized", "账号尚未完成初始化");
   ("provider_quota_cooldown", "上游配额处于冷却期"); ("provider_daily_quota_exhausted", "上游每日配额耗尽");
   ("provider_quota_exhausted", "上游配额耗尽"); ("provider_message_quota_exceeded", "消息级上游配额不足");
   ("concurrent_limit", "账号并发已满"); ("model_frozen", "模型达到 TPM 冻结");
   ("account_model_frozen", "账号的当前模型被冻结"); ("redis_uncertain", "Redis 预占结果不确定");
   ("reservation_denied", "账号预占失败"); ("selection_returned_none", "选择策略未返回候选");
   ("selection_deadline", "选择超时"); ("selection_exhausted", "选择耗尽"); ("model_missing", "模型缺失")].

(** The six most frequent reasons. *)
Definition _format_skip_reasons (reasons : list (string * Z)) : string :=
  join "；" ((fun kv => default kv.1 (dict_get kv.1 skip_labels) +++ " x" +++ tostring kv.2)
               <$> take 6 (sorted_by (fun kv => [- kv.2]) (filter (fun kv => 0 < kv.2) reasons))).

Definition _media_unavailable_detail (model_id operation : string) (reasons : list (string * Z)) (prefix : string) : string :=
  let reason_text := _format_skip_reasons reasons in
  if negb (str_truthy operation) || String.eqb operation "chat" then
    let base := str_or prefix ("模型 '" +++ model_id +++ "' 所有账号不可用") in
    if str_truthy reason_text then base +++ "：" +++ reason_text else base
  else
    let modality := match _operation_spec operation with Some (_, m) => m | None => operation end in
    let base := str_or prefix ("模型 '" +++ model_id +++ "' 没有可用于 " +++ operation +++ " 的账号") in
    let detail := base +++ "：已按 output_modalities=" +++ modality +++ " 筛选" in
    if str_truthy reason_text then detail +++ "；" +++ reason_text else detail.

(** ** What a request asks for *)

Record selection_request := SelectionRequest {
  sq_model_id : string; sq_strategy : string; sq_operation : string; sq_protocol : string;
  sq_exclude : list (string * string); sq_provider_whitelist : list string; sq_provider_blacklist : list string;
  sq_account_whitelist : list string; sq_is_test : bool; sq_is_probe : bool; sq_input_tokens : Z;
  sq_route : option row; sq_compression : list string; sq_model_tpm : string -> Z; sq_overflow : bool;
}.

Inductive acquired :=
| Reserved (ch : choice)
| Unavailable (code detail : string) (reasons : list (string * Z))     (* NoAvailableAccountError, 429 *)
| NoSuchModel                                                            (* 400 *)
| AcquireRaised.

(** The inputs of the k-th collection and of the picks that follow it. *)
Record stage_input := StageInput { sg_now : Z; sg_picks : nat -> pick_input }.

Section acquire.
Context {R : Type} `{Redis R}.
Variables (conf : redis_conf) (utc_offset : Z -> Z) (boot_id : string) (py_str : json -> string).
Variables (adapter_of : string -> string -> adapter) (sn : snapshot) (q : selection_request).

Definition sq_bypass : bool := sq_is_test q || sq_is_probe q.

(** _raise_no_available *)
Definition _raise_no_available (reasons : list (string * Z)) (prefix : string) (code_override detail_override : option string) : acquired :=
  Unavailable (str_or (default "" code_override) (_dominant_reason_code reasons))
    (match detail_override with
     | Some detail => detail
     | None => _media_unavailable_detail (sq_model_id q) (sq_operation q) reasons prefix
     end) reasons.
Definition tpm_detail : string := "模型 '" +++ sq_model_id q +++ "' 达到 TPM 限制".

(** _candidate_models *)
Definition _candidate_models (is_group : bool) (sites : list (string * site)) : list string :=
  if is_group then filter (fun m => has_model_route m sites = true) (get_model_group_models sn (sq_model_id q))
  else [sq_model_id q].

(** ** The fallback schemes of a model *)

Definition scheme_filters (s : row) : list string * list string := provider_filter s.
Definition mappings (l : list json) : list (nat * row) :=
  omap (fun iv => match iv.2 with JObj d => Some (iv.1, d) | _ => None end) (imap pair l).

(** _real_model_filter_nodes: the filters of the active scheme and of the marked
    other ones; None without a chain. *)
Definition _real_model_filter_nodes (is_group : bool) : option (list (list string * list string)) :=
  if is_group || sq_bypass then None else
  d ← dict_get (sq_model_id q) (sn_groups sn);
  if negb (is_real py_str d) then None else
  match dict_get "schemes" d with
  | Some (JArr schemes) =>
      if (length schemes <=? 1)%nat then None else
      let active_id := strip (text_or py_str "active_scheme" "" d) in
      let rows := mappings schemes in
      active ← (match list_find (fun s => scheme_id py_str s.2 = active_id) rows with
                | Some (_, s) => Some s
                | None => head rows
                end);
      let others := filter (fun s => s.1 <> active.1 /\ flag "is_backup" s.2 = true) rows in
      let nodes := scheme_filters active.2 :: ((fun s => scheme_filters s.2) <$> others) in
      if (1 <? length nodes)%nat then Some nodes else None
  | _ => None
  end.

(** ** Collect and reserve *)

Definition criteria_of (wl bl : list string) (entries : list route_entry) (input_tokens : Z) : criteria :=
  Criteria (sq_exclude q) (sq_operation q) wl bl (sq_provider_whitelist q) (sq_provider_blacklist q) entries (sq_protocol q)
    (sq_account_whitelist q) (sq_is_test q) (sq_is_probe q) input_tokens.

(** _collect_candidates, with the skip reasons counted. *)
Definition collect (now : Z) (cr : criteria) (models : list string) : ST selector R (list choice * list string * list (string * Z)) :=
  fun s => let '(fd, limited, (sites, w)) := _collect_candidates adapter_of sn now cr models (sl_sites s) (sl_world s) in
           mret ((fd_choices fd, limited, tally (fd_skips fd)), set_sl_world w (set_sites sites s)).

Definition mode (st : strategy) : reserve_mode := ReserveMode sq_bypass st (sq_model_tpm q) (sq_overflow q).

Definition prepare (st : strategy) (g : stage_input) (cs : list choice) (reasons : list (string * Z))
    : ST selector R (selection_result * list (string * Z)) :=
  _prepare_and_reserve conf utc_offset boot_id sn (mode st) (sg_picks g) (sg_now g) (sq_protocol q) cs reasons.

(** A stage: collect with these criteria, merge the reasons, reserve. *)
Definition stage (st : strategy) (g : stage_input) (cr : criteria) (models : list string) (merged : list (string * Z))
    : ST selector R (selection_result * list string * list choice * list (string * Z)) :=
  '(cs, limited, reasons) ← collect (sg_now g) cr models;
  '(r, merged) ← prepare st g cs (merge_counts merged reasons);
  mret (r, limited, cs, merged).

(** The result of a stage ends the request, or the loop goes on. *)
Definition settled (r : selection_result) : option acquired :=
  match r with Selected ch => Some (Reserved ch) | SelectionRaised => Some AcquireRaised | NotSelected => None end.

(** A dedicated route: entry after entry. *)
Fixpoint try_entries (st : strategy) (g : nat -> stage_input) (k : nat) (wl bl : list string) (tokens : Z) (models : list string)
    (entries : list route_entry) (merged : list (string * Z)) : ST selector R (acquired + list (string * Z)) :=
  match entries with
  | [] => mret (inr merged)
  | e :: entries' =>
      '(r, _, _, merged) ← stage st (g k) (criteria_of wl bl [e] tokens) models merged;
      match settled r with
      | Some a => mret (inl a)
      | None => try_entries st g (S k) wl bl tokens models entries' merged
      end
  end.

Definition entry_label (e : route_entry) : string :=
  let accounts := filter (fun a => str_truthy (strip a) = true) (en_accounts e) in
  en_provider e +++ "/" +++ match accounts with [] => "*" | _ => join "," accounts end.
Definition route_prefix (entries : list route_entry) : string :=
  "模型 '" +++ sq_model_id q +++ "' 专用线路不可用: " +++ str_or (join ", " (entry_label <$> entries)) "*".

(** The members of a group, one random order, the channels of one member at a time. *)
Fixpoint try_members (g : nat -> stage_input) (k : nat) (wl bl : list string) (tokens : Z) (members : list string)
    (merged : list (string * Z)) : ST selector R (acquired + list (string * Z)) :=
  match members with
  | [] => mret (inr merged)
  | m :: members' =>
      '(r, _, _, merged) ← stage RANDOM_MEMBER (g k) (criteria_of wl bl [] tokens) [m] merged;
      match settled r with
      | Some a => mret (inl a)
      | None => try_members g (S k) wl bl tokens members' merged
      end
  end.

(** The candidates of all members of a group. *)
Fixpoint gather (g : nat -> stage_input) (k : nat) (wl bl : list string) (tokens : Z) (members : list string)
    : ST selector R (list choice * list string * list (string * Z)) :=
  match members with
  | [] => mret ([], [], [])
  | m :: members' =>
      '(cs, limited, reasons) ← collect (sg_now (g k)) (criteria_of wl bl [] tokens) [m];
      '(css, limiteds, merged) ← gather g (S k) wl bl tokens members';
      mret (cs ++ css, limited ++ limiteds, merge_counts reasons merged)
  end.

(** The fallback schemes of one model: node after node. *)
Fixpoint try_nodes (st : strategy) (g : nat -> stage_input) (k : nat) (tokens : Z) (models : list string)
    (nodes : list (list string * list string)) (saw : bool) (last_limited : list string) (merged : list (string * Z))
    : ST selector R (acquired + bool * list string * list (string * Z)) :=
  match nodes with
  | [] => mret (inr (saw, last_limited, merged))
  | (wl, bl) :: nodes' =>
      '(r, limited, cs, merged) ← stage st (g k) (criteria_of wl bl [] tokens) models merged;
      match settled r with
      | Some a => mret (inl a)
      | None => try_nodes st g (S k) tokens models nodes' (saw || negb (bool_decide (length cs = 0%nat))) limited merged
      end
  end.

(** The TPM error takes precedence when every candidate model was limited. *)
Definition all_limited (limited models : list string) : bool :=
  negb (bool_decide (limited = [])) && bool_decide (length limited = length models).

Definition single_code (reasons : list (string * Z)) : string :=
  if negb (count_of "context_window_exceeded" reasons =? 0) then "context_too_large"
  else if negb (count_of "redis_uncertain" reasons =? 0) || negb (count_of "provider_not_initialized" reasons =? 0)
  then "service_busy" else "no_available_account".

(** The paths, for resolved candidate models. *)
Definition acquire_route (st : strategy) (g : nat -> stage_input) (wl bl : list string) (tokens : Z) (models : list string)
    (entries : list route_entry) : ST selector R acquired :=
  r ← try_entries st g 0 wl bl tokens models entries [];
  mret (match r with inl a => a | inr merged => _raise_no_available merged (route_prefix entries) None None end).

Definition acquire_member (g : nat -> stage_input) (order : list string -> list string) (wl bl : list string) (tokens : Z)
    (models : list string) : ST selector R acquired :=
  r ← try_members g 0 wl bl tokens (order models) [];
  mret (match r with inl a => a | inr merged => _raise_no_available merged "" None None end).

Definition acquire_group (st : strategy) (g : nat -> stage_input) (wl bl : list string) (tokens : Z) (models : list string)
    : ST selector R acquired :=
  '(cs, limited, merged) ← gather g 0 wl bl tokens models;
  match cs with
  | [] => mret (if all_limited limited models
                then _raise_no_available merged "" (Some "rate_limit_exceeded") (Some tpm_detail)
                else _raise_no_available merged "" None None)
  | _ =>
      '(r, merged) ← prepare st (g (length models)) cs merged;
      mret (match settled r with Some a => a | None => _raise_no_available merged "" None None end)
  end.

Definition acquire_model (st : strategy) (g : nat -> stage_input) (tokens : Z) (models : list string)
    (nodes : list (list string * list string)) : ST selector R acquired :=
  r ← try_nodes st g 0 tokens models nodes false [] [];
  mret (match r with
        | inl a => a
        | inr (false, limited, merged) =>
            if all_limited limited models then _raise_no_available merged "" (Some "rate_limit_exceeded") (Some tpm_detail)
            else _raise_no_available merged "" None None
        | inr (true, _, merged) => _raise_no_available merged "" (Some (single_code merged)) None
        end).

(** _get_available_client_with_provider.  [order] shuffles the members of a group. *)
Definition _get_available_client_with_provider (g : nat -> stage_input) (order : list string -> list string) : ST selector R acquired :=
  s ← get_world;
  let is_group := is_model_group sn (sq_model_id q) in
  match _candidate_models is_group (sl_sites s) with
  | [] => mret NoSuchModel
  | models =>
      let '(wl, bl) := if is_group then get_model_group_provider_filter sn (sq_model_id q)
                       else get_real_model_provider_filter py_str sn (sq_model_id q) in
      let nodes := default [(wl, bl)] (_real_model_filter_nodes is_group) in
      let st := strategy_of (sq_strategy q) in
      let compressed := filter (fun m => str_truthy m && has_model_route m (sl_sites s) = true) (sq_compression q) in
      let '(is_group, models, wl, bl, nodes, tokens, st) :=
        match sq_compression q, compressed with
        | [], _ => (is_group, models, wl, bl, nodes, sq_input_tokens q, st)
        | _, [] => (is_group, [], wl, bl, nodes, sq_input_tokens q, st)
        | _, _ => (false, compressed, [], [], [([], [])], 0, LARGEST_CONTEXT)
        end in
      match sq_route q with
      | Some (_ :: _) =>
          match _route_entries py_str (default [] (sq_route q)) with
          | None => mret AcquireRaised
          | Some entries => acquire_route st g wl bl tokens models entries
          end
      | _ =>
          if is_group then
            if decide (st = MODEL_RANDOM) then acquire_member g order wl bl tokens models
            else acquire_group st g wl bl tokens models
          else acquire_model st g tokens models nodes
      end
  end.
End acquire.
