(* ===== verification/SelectionProps.v ===== *)
(** Which candidates a request gets: exactly the qualifying combinations of
    channel, model row, account and protocol row.  Reading the state of an account
    drops its expired freezes, so the collection changes what it reads; the
    theorems show that this never changes what it finds. *)
From S2P Require Import Prelude Redis Client State Json Text Windows Rules Account AccountProps Policy Pool Manager Ranking Catalog Selection.

(** ** Dropping expired freezes *)

Definition prune (now : Z) (c : account_client) : account_client :=
  set_buckets (ac_account c) (filter (fun me => live now (fe_until me.2) = true) (ac_models c)) c.

Section prune.
Variable now : Z.
Implicit Types c : account_client.

(** The same account up to expired freezes. *)
Definition alike c c' : Prop := prune now c = prune now c' /\ bucket_wf c /\ bucket_wf c'.

Lemma prune_idemp c : prune now (prune now c) = prune now c.
Proof.
  unfold prune. simpl. unfold set_buckets. simpl. f_equal.
  induction (ac_models c) as [|me d IH]; [done|]. rewrite !filter_cons. case_decide as Hd; [|done].
  rewrite filter_cons. by rewrite decide_True, IH.
Qed.

Lemma wf_prune c : bucket_wf c -> bucket_wf (prune now c).
Proof. apply filter_keys_NoDup. Qed.

Lemma alike_refl c : bucket_wf c -> alike c c.
Proof. by repeat split. Qed.
Lemma alike_prune c : bucket_wf c -> alike c (prune now c).
Proof. intros Hc. split; [by rewrite prune_idemp|]. split; [done | by apply wf_prune]. Qed.
Lemma alike_trans c1 c2 c3 : alike c1 c2 -> alike c2 c3 -> alike c1 c3.
Proof. intros (? & ? & ?) (? & ? & ?). split; [congruence | done]. Qed.

Lemma frozen_prune m c : bucket_wf c -> is_model_frozen now m (prune now c) = is_model_frozen now m c.
Proof.
  intros Hc. unfold is_model_frozen, prune. simpl. rewrite dict_get_filter by done.
  destruct (dict_get m (ac_models c)) as [fe|]; simpl; [|done]. case_decide as Hd; [done|]. simpl in Hd.
  by destruct (live now (fe_until fe)).
Qed.

Lemma state_prune c : (state now (prune now c)).1 = (state now c).1.
Proof.
  unfold state, frozen_model_ids. change (ac_models (prune now c)) with (filter (fun me => live now (fe_until me.2) = true) (ac_models c)).
  change (ac_disabled (prune now c)) with (ac_disabled c). change (is_frozen now (prune now c)) with (is_frozen now c).
  change (freeze_category now (prune now c)) with (freeze_category now c).
  change (cooldown_remaining now (prune now c)) with (cooldown_remaining now c).
  rewrite list_filter_filter_l by done. destruct (ac_disabled c); [done|]. destruct (is_frozen now c); done.
Qed.

Lemma state_keeps c : bucket_wf c -> alike c (state now c).2.
Proof.
  intros Hc. unfold state. repeat case_match; simplify_eq/=; try by apply alike_refl.
  all: match goal with H : frozen_model_ids _ _ = (_, ?c') |- _ => injection H as _ <- end; by apply alike_prune.
Qed.
End prune.

(** ** Qualifying accounts *)

Section account.
Variables (now : Z) (a : adapter) (cr : criteria) (model provider : string).
Implicit Types c : account_client.

Record qualifies c : Prop := {
  qu_operation : _provider_supports_operation a (cr_operation cr) = true;
  qu_system : ad_supports_system_model a model = true;
  qu_route : forall allowed, route_allowed_accounts cr provider = Some allowed -> ac_username c ∈ allowed;
  qu_listed : cr_accounts cr = [] \/ ac_username c ∈ cr_accounts cr;
  qu_fresh : (provider, ac_username c) ∉ cr_exclude cr;
  qu_state : cr_bypass cr = false -> (state now c).1 ∈ ROUTABLE_STATES /\ is_model_frozen now model c = false;
  qu_probe : cr_bypass cr = true -> cr_is_test cr = false -> ac_disabled c = false;
}.

Lemma nonempty_false (l : list string) : nonempty l = false <-> l = [].
Proof. unfold nonempty. rewrite negb_false_iff, bool_decide_eq_true. done. Qed.

Lemma account_skipped_keeps c : bucket_wf c -> alike now c (account_skipped now a cr model provider c).2.
Proof.
  intros Hc. pose proof (state_keeps now c Hc) as Hs. unfold account_skipped. destruct (state now c) as [st c'].
  repeat case_match; simplify_eq/=; try done; by apply alike_refl.
Qed.

(** Skipping decides the qualification. *)
Lemma account_skipped_none c : bucket_wf c -> (account_skipped now a cr model provider c).1 = None <-> qualifies c.
Proof.
  intros Hc. unfold account_skipped.
  destruct (_provider_supports_operation a (cr_operation cr)) eqn:E1; [|split; [done | intros []; congruence]].
  destruct (ad_supports_system_model a model) eqn:E2; [|split; [done | intros []; congruence]]. cbn [negb].
  destruct (route_allowed_accounts cr provider) as [allowed|] eqn:E3.
  1: destruct (bool_decide (ac_username c ∈ allowed)) eqn:E3';
       [apply bool_decide_eq_true in E3' | apply bool_decide_eq_false in E3'; split; [done | intros []; naive_solver]].
  all: cbn [negb].
  all: destruct (nonempty (cr_accounts cr) && negb (bool_decide (ac_username c ∈ cr_accounts cr))) eqn:E4;
    [apply andb_prop in E4 as [E4 E4']; apply negb_true_iff, bool_decide_eq_false in E4'; split; [done|];
       intros [? ? ? [Hl|Hl] ? ? ?]; [apply nonempty_false in Hl; congruence | done]|].
  all: assert (cr_accounts cr = [] \/ ac_username c ∈ cr_accounts cr) as Hl
         by (apply andb_false_iff in E4 as [E4|E4]; [left; by apply nonempty_false | right; by apply negb_false_iff, bool_decide_eq_true in E4]); clear E4.
  all: case_bool_decide as E5; [split; [done | intros []; done]|].
  all: destruct (cr_bypass cr) eqn:E6; cbn [negb].
  all: assert (forall allowed, route_allowed_accounts cr provider = Some allowed -> ac_username c ∈ allowed) as Hr by naive_solver.
  all: try (destruct (negb (cr_is_test cr) && ac_disabled c) eqn:E7;
    [apply andb_prop in E7 as [E7 E7']; apply negb_true_iff in E7; split; [done | intros [? ? ? ? ? ? Hp]; rewrite Hp in E7'; done]
    | split; [intros _; split; try done; [congruence|]; intros _ Ht; rewrite Ht in E7; by simpl in E7 | done]]).
  all: pose proof (state_keeps now c Hc) as (Hp & _ & Hw); destruct (state now c) as [st c'] eqn:Es; simpl in Hp, Hw.
  all: case_bool_decide as Er; cbn [negb]; [|split; [done | intros [? ? ? ? ? Hst ?]; rewrite Es in Hst; by destruct (Hst E6)]].
  all: assert (is_model_frozen now model c' = is_model_frozen now model c) as Hm by (by rewrite <- (frozen_prune now model c), Hp, frozen_prune).
  all: rewrite Hm; destruct (is_model_frozen now model c) eqn:E8;
    [split; [done | intros [? ? ? ? ? Hst ?]; destruct (Hst E6); congruence]
    | split; [intros _; split; try done; [by rewrite Es | congruence] | done]].
Qed.

Lemma qualifies_alike c c' : alike now c c' -> qualifies c <-> qualifies c'.
Proof.
  intros (Hp & Hc & Hc').
  assert (ac_username c = ac_username c' /\ ac_disabled c = ac_disabled c') as [Hu Hd] by (by injection Hp).
  assert ((state now c).1 = (state now c').1) as Hs by (by rewrite <- state_prune, Hp, state_prune).
  assert (is_model_frozen now model c = is_model_frozen now model c') as Hm by (by rewrite <- (frozen_prune now model c), Hp, frozen_prune).
  split; intros [H1 H2 H3 H4 H5 H6 H7]; split; try done; rewrite ?Hu, ?Hd, ?Hs, ?Hm in *; done.
Qed.
End account.

(** ** Qualifying rows *)

Record row_open (sn : snapshot) (cr : criteria) (model provider : string) (s : site) (r : model_row) : Prop := {
  ro_operation : _route_supports_operation sn r model (cr_operation cr) = true;
  (* the declared window of the row, else that of the model, holds the input *)
  ro_window : 0 < cr_input_tokens cr -> 0 < window_of (metadata_window sn model) r ->
    cr_input_tokens cr <= window_of (metadata_window sn model) r;
  ro_route : entry_providers cr = [] \/ provider ∈ entry_providers cr;
  ro_group : cr_bypass cr = false ->
    (cr_group_whitelist cr = [] \/ meets (ch_tags (st_channel s)) (cr_group_whitelist cr) = true) /\
    meets (ch_tags (st_channel s)) (cr_group_blacklist cr) = false;
  ro_key : if cr_bypass cr
    then (cr_key_whitelist cr = [] \/ provider ∈ cr_key_whitelist cr) /\ provider ∉ cr_key_blacklist cr
    else (cr_key_whitelist cr = [] \/ meets (ch_tags (st_channel s)) (cr_key_whitelist cr) = true) /\
         meets (ch_tags (st_channel s)) (cr_key_blacklist cr) = false;
  ro_enabled : cr_is_test cr = false -> pl_enabled (st_pool s) = true;
}.

Lemma meets_nil tags : meets tags [] = false.
Proof.
  induction tags as [|t tags IH]; [done|]. unfold meets in *. cbn [existsb].
  by rewrite IH, bool_decide_eq_false_2 by apply not_elem_of_nil.
Qed.

Lemma filters_pass white black tags :
  (nonempty white && negb (meets tags white)) || (nonempty black && meets tags black) = false <->
  (white = [] \/ meets tags white = true) /\ meets tags black = false.
Proof.
  rewrite orb_false_iff, !andb_false_iff, !nonempty_false, negb_false_iff.
  split; intros [H1 H2]; (split; [done|]); [destruct H2 as [->|]; [apply meets_nil | done] | by right].
Qed.

Lemma names_pass white black (p : string) :
  (nonempty white && negb (bool_decide (p ∈ white))) || (nonempty black && bool_decide (p ∈ black)) = false <->
  (white = [] \/ p ∈ white) /\ p ∉ black.
Proof.
  rewrite orb_false_iff, !andb_false_iff, !nonempty_false, negb_false_iff, bool_decide_eq_true, bool_decide_eq_false.
  split; intros [H1 H2]; (split; [done|]); [destruct H2 as [->|]; [apply not_elem_of_nil | done] | by right].
Qed.

Lemma row_skipped_none sn cr model provider s r : row_skipped sn cr model provider s r = None <-> row_open sn cr model provider s r.
Proof.
  unfold row_skipped. set (w := window_of (metadata_window sn model) r).
  destruct (_route_supports_operation sn r model (cr_operation cr)) eqn:E1; [|split; [done | intros []; congruence]]. simpl.
  destruct ((0 <? cr_input_tokens cr) && (0 <? w) && (w <? cr_input_tokens cr)) eqn:E2.
  { btrue. split; [done|]. intros [_ Hw _ _ _ _]. fold w in Hw. specialize (Hw ltac:(lia) ltac:(lia)). lia. }
  assert (0 < cr_input_tokens cr -> 0 < w -> cr_input_tokens cr <= w) as Hw.
  { intros Ha Hb. apply andb_false_iff in E2 as [E2|E2]; [apply andb_false_iff in E2 as [E2|E2]|]; btrue; lia. }
  destruct (nonempty (entry_providers cr) && negb (bool_decide (provider ∈ entry_providers cr))) eqn:E3.
  { apply andb_prop in E3 as [E3 E3']. apply negb_true_iff, bool_decide_eq_false in E3'. split; [done|].
    intros [_ _ [Hr|Hr] _ _ _]; [apply nonempty_false in Hr; congruence | done]. }
  assert (entry_providers cr = [] \/ provider ∈ entry_providers cr) as Hr.
  { apply andb_false_iff in E3 as [E3|E3]; [left; by apply nonempty_false | right; by apply negb_false_iff, bool_decide_eq_true in E3]. }
  destruct (cr_bypass cr) eqn:Eb; simpl.
  - destruct (_ || _) eqn:E4; [split; [done|]; intros [_ _ _ _ Hk _]; rewrite Eb in Hk; apply names_pass in Hk; congruence|].
    apply names_pass in E4. destruct (negb (cr_is_test cr) && negb (pl_enabled (st_pool s))) eqn:E5.
    + btrue. split; [done|]. intros [_ _ _ _ _ He]. rewrite He in *; done.
    + split; [|done]. intros _. split; try done; try (by rewrite Eb); try congruence. intros Ht. rewrite Ht in E5. simpl in E5. by apply negb_false_iff in E5.
  - destruct (_ || _) eqn:E6; [split; [done|]; intros [_ _ _ Hg _ _]; apply filters_pass in Hg; [congruence|done]|].
    apply filters_pass in E6.
    destruct ((nonempty (cr_key_whitelist cr) && _) || _) eqn:E4; [split; [done|]; intros [_ _ _ _ Hk _]; rewrite Eb in Hk; apply filters_pass in Hk; congruence|].
    apply filters_pass in E4. destruct (negb (cr_is_test cr) && negb (pl_enabled (st_pool s))) eqn:E5.
    + btrue. split; [done|]. intros [_ _ _ _ _ He]. rewrite He in *; done.
    + split; [|done]. intros _. split; try done; try (by rewrite Eb); try congruence. intros Ht. rewrite Ht in E5. simpl in E5. by apply negb_false_iff in E5.
Qed.

(** ** The whole collection *)

Section collect.
Variables (adapter_of : string -> string -> adapter) (sn : snapshot) (now : Z) (cr : criteria).

(** Sites that differ by expired freezes only. *)
Record site_alike (s s' : site) : Prop := {
  sa_channel : st_channel s' = st_channel s;
  sa_enabled : pl_enabled (st_pool s') = pl_enabled (st_pool s);
  sa_clients : Forall2 (alike now) (pl_clients (st_pool s)) (pl_clients (st_pool s'));
}.
Definition sites_alike (l l' : list (string * site)) : Prop := Forall2 (fun ps ps' => ps'.1 = ps.1 /\ site_alike ps.2 ps'.2) l l'.
Definition site_wf (s : site) : Prop := Forall bucket_wf (pl_clients (st_pool s)).

Lemma site_alike_refl s : site_wf s -> site_alike s s.
Proof. intros Hs. split; [done..|]. induction Hs; constructor; [by apply alike_refl | done]. Qed.
Lemma site_alike_trans s1 s2 s3 : site_alike s1 s2 -> site_alike s2 s3 -> site_alike s1 s3.
Proof.
  intros [C1 E1 F1] [C2 E2 F2]. split; [congruence..|].
  revert F2. generalize (pl_clients (st_pool s3)). induction F1 as [|c1 c2 l1 l2 H1 F1 IH]; intros l3 F2; inversion F2; subst; constructor.
  - by eapply alike_trans.
  - by apply IH.
Qed.
Lemma site_alike_wf s s' : site_alike s s' -> site_wf s'.
Proof. intros [_ _ Hc]. unfold site_wf. induction Hc as [|c c' l l' (_ & _ & Hw) _ IH]; by constructor. Qed.

(** A candidate of a row of a channel. *)
Definition offers (m p : string) (s : site) (r : model_row) (ch : choice) : Prop :=
  row_open sn cr m p s r /\
  exists i c ep, pl_clients (st_pool s) !! i = Some c /\ qualifies now (adapter_of p (ac_username c)) cr m p c /\
    ep ∈ protocol_rows cr m s /\ ch = make_choice (adapter_of p (ac_username c)) cr m p s r i c ep.

Lemma alike_username c c' : alike now c c' -> ac_username c' = ac_username c.
Proof. intros (Hp & _). by injection Hp. Qed.

Lemma offers_alike m p s s' r ch : site_alike s s' -> offers m p s r ch <-> offers m p s' r ch.
Proof.
  intros [Hch He Hc]. unfold offers.
  assert (row_open sn cr m p s r <-> row_open sn cr m p s' r) as ->.
  { split; intros [H1 H2 H3 H4 H5 H6]; split; try done; rewrite ?Hch, ?He in *; done. }
  assert (protocol_rows cr m s' = protocol_rows cr m s) as Hpr by (unfold protocol_rows; by rewrite Hch).
  rewrite Hpr. split; intros [Ho (i & c & ep & Hi & Hq & Hep & ->)]; (split; [done|]).
  - destruct (Forall2_lookup_l _ _ _ _ _ Hc Hi) as (c' & Hi' & Ha). pose proof (alike_username _ _ Ha) as Hu.
    exists i, c', ep. rewrite Hu. split; [done|]. split; [by apply (qualifies_alike _ _ _ _ _ _ _ Ha)|]. split; [done|].
    unfold make_choice, priority, weight. by rewrite Hu, Hch.
  - destruct (Forall2_lookup_r _ _ _ _ _ Hc Hi) as (c' & Hi' & Ha). pose proof (alike_username _ _ Ha) as Hu.
    exists i, c', ep. rewrite <- Hu. split; [done|]. split; [by apply (qualifies_alike _ _ _ _ _ _ _ Ha)|]. split; [done|].
    unfold make_choice, priority, weight. by rewrite Hu, Hch.
Qed.

Lemma collect_accounts_elem m p s r i cs ch :
  Forall bucket_wf cs ->
  (ch ∈ fd_choices (collect_accounts adapter_of now cr m p s r i cs).1 <->
     exists j c ep, cs !! j = Some c /\ qualifies now (adapter_of p (ac_username c)) cr m p c /\
       ep ∈ protocol_rows cr m s /\ ch = make_choice (adapter_of p (ac_username c)) cr m p s r (i + j) c ep) /\
  Forall2 (alike now) cs (collect_accounts adapter_of now cr m p s r i cs).2.
Proof.
  intros Hw. revert i. induction Hw as [|c cs Hc Hw IH]; intros i; simpl.
  { split; [|constructor]. split; [by intros ?%not_elem_of_nil | intros (j & c & ep & Hj & _); by rewrite lookup_nil in Hj]. }
  set (a := adapter_of p (ac_username c)).
  pose proof (account_skipped_none now a cr m p c Hc) as Hq. pose proof (account_skipped_keeps now a cr m p c Hc) as Hk.
  destruct (account_skipped now a cr m p c) as [sk c'] eqn:Es. simpl in Hq, Hk.
  destruct (IH (S i)) as [Hin Hf]. destruct (collect_accounts _ _ _ _ _ _ _ (S i) cs) as [fds cs']. simpl in *.
  split; [|by constructor]. pose proof (alike_username _ _ Hk) as Hu.
  assert (forall ep, make_choice a cr m p s r i c' ep = make_choice a cr m p s r i c ep) as Hmk by (intros ep; unfold make_choice; by rewrite Hu).
  rewrite elem_of_app, Hin. split.
  - intros [Hhere|(j & c0 & ep & Hj & Hq0 & Hep & ->)].
    + destruct sk as [reason|]; simpl in Hhere; [by apply not_elem_of_nil in Hhere|].
      apply list_elem_of_fmap in Hhere as (ep & -> & Hep). exists 0%nat, c, ep. rewrite Nat.add_0_r, Hmk.
      split; [done|]. split; [by apply Hq | done].
    + exists (S j), c0, ep. by rewrite Nat.add_succ_r.
  - intros ([|j] & c0 & ep & Hj & Hq0 & Hep & ->); simpl in Hj.
    + injection Hj as <-. left. apply Hq in Hq0 as ->. simpl. rewrite Nat.add_0_r. fold a. rewrite <- Hmk.
      apply list_elem_of_fmap. by exists ep.
    + right. exists j, c0, ep. by rewrite <- Nat.add_succ_r.
Qed.

Lemma collect_row_elem m p r s ch : site_wf s ->
  (ch ∈ fd_choices (collect_row adapter_of sn now cr m p r s).1 <-> offers m p s r ch) /\
  site_alike s (collect_row adapter_of sn now cr m p r s).2.
Proof.
  intros Hs. unfold collect_row, offers. pose proof (row_skipped_none sn cr m p s r) as Hr.
  destruct (row_skipped sn cr m p s r) as [reason|].
  { simpl. split; [|by apply site_alike_refl]. split; [by intros ?%not_elem_of_nil | intros [Ho%Hr _]; done]. }
  destruct (collect_accounts_elem m p s r 0 _ ch Hs) as [Hin Hf].
  destruct (collect_accounts _ _ _ _ _ _ _ _ _) as [fd cs]. simpl in *. split; [|by split].
  rewrite Hin. split; [intros Hx; split; [by apply Hr | done] | by intros [_ Hx]].
Qed.

Lemma collect_rows_elem m p rows s ch : site_wf s ->
  (ch ∈ fd_choices (collect_rows adapter_of sn now cr m p rows s).1 <-> exists r, r ∈ rows /\ offers m p s r ch) /\
  site_alike s (collect_rows adapter_of sn now cr m p rows s).2.
Proof.
  revert s. induction rows as [|r rows IH]; intros s Hs; simpl.
  { split; [|by apply site_alike_refl]. split; [by intros ?%not_elem_of_nil | by intros (r & ?%not_elem_of_nil & _)]. }
  destruct (collect_row_elem m p r s ch Hs) as [Hin Ha]. destruct (collect_row _ _ _ _ _ _ r s) as [fd s1]. simpl in *.
  destruct (IH s1 (site_alike_wf _ _ Ha)) as [Hin' Ha']. destruct (collect_rows _ _ _ _ _ _ rows s1) as [fds s2]. simpl in *.
  split; [|by eapply site_alike_trans]. rewrite elem_of_app, Hin, Hin'. setoid_rewrite elem_of_cons.
  setoid_rewrite <- (offers_alike m p s s1) at 1; [|done]. naive_solver.
Qed.

Lemma collect_sites_elem m sites ch : Forall (fun ps => site_wf ps.2) sites ->
  (ch ∈ fd_choices (collect_sites adapter_of sn now cr m sites).1 <->
     exists p s r, (p, s) ∈ sites /\ r ∈ model_rows cr m s /\ offers m p s r ch) /\
  sites_alike sites (collect_sites adapter_of sn now cr m sites).2.
Proof.
  induction 1 as [|[p s] sites Hs Hw IH]; simpl.
  { split; [|constructor]. split; [by intros ?%not_elem_of_nil | by intros (p & s & r & ?%not_elem_of_nil & _)]. }
  destruct (collect_rows_elem m p (model_rows cr m s) s ch Hs) as [Hin Ha].
  destruct (collect_rows _ _ _ _ _ _ _ s) as [fd s1]. destruct IH as [Hin' Ha'].
  destruct (collect_sites _ _ _ _ _ sites) as [fds sites1]. simpl in *. split; [|by constructor].
  rewrite elem_of_app, Hin, Hin'. split.
  - intros [(r & Hr & Ho)|(p' & s' & r & Hp & Hr & Ho)].
    + exists p, s, r. split; [left | done].
    + exists p', s', r. split; [by right | done].
  - intros (p' & s' & r & [[= -> ->]|Hp]%elem_of_cons & Hr & Ho); [left; by exists r | right; by exists p', s', r].
Qed.

Lemma sites_alike_refl l : Forall (fun ps => site_wf ps.2) l -> sites_alike l l.
Proof. induction 1 as [|ps l Hs Hl IH]; constructor; [split; [done | by apply site_alike_refl] | done]. Qed.
Lemma sites_alike_trans l1 l2 l3 : sites_alike l1 l2 -> sites_alike l2 l3 -> sites_alike l1 l3.
Proof.
  intros H1. revert l3. induction H1 as [|ps1 ps2 l1 l2 [E1 S1] H1 IH]; intros l3 H2; inversion H2 as [|? ps3 ? l3' [E2 S2]]; subst; constructor.
  - split; [congruence | by eapply site_alike_trans].
  - by apply IH.
Qed.
Lemma sites_alike_wf l l' : sites_alike l l' -> Forall (fun ps => site_wf ps.2) l'.
Proof. induction 1 as [|ps ps' l l' [_ Hs] _ IH]; constructor; [by eapply site_alike_wf | done]. Qed.

(** The candidates of a model among the channels. *)
Definition on_offer (m : string) (sites : list (string * site)) (ch : choice) : Prop :=
  exists p s r, (p, s) ∈ sites /\ r ∈ model_rows cr m s /\ offers m p s r ch.

Lemma on_offer_alike m l l' ch : sites_alike l l' -> on_offer m l ch <-> on_offer m l' ch.
Proof.
  assert (forall s s', site_alike s s' -> model_rows cr m s' = model_rows cr m s) as Hrows by (intros s s' [Hc _ _]; unfold model_rows; by rewrite Hc).
  intros Hl. unfold on_offer. split; intros (p & s & r & Hp & Hr & Ho); apply list_elem_of_lookup in Hp as [i Hi].
  - destruct (Forall2_lookup_l _ _ _ _ _ Hl Hi) as ([p' s'] & Hi' & [Hpp Hs]). simpl in *. subst p'.
    exists p, s', r. split; [by eapply list_elem_of_lookup_2|]. rewrite (Hrows _ _ Hs). split; [done|]. by apply (offers_alike _ _ _ _ _ _ Hs).
  - destruct (Forall2_lookup_r _ _ _ _ _ Hl Hi) as ([p' s'] & Hi' & [Hpp Hs]). simpl in *. subst p'.
    exists p, s', r. split; [by eapply list_elem_of_lookup_2|]. rewrite <- (Hrows _ _ Hs). split; [done|]. by apply (offers_alike _ _ _ _ _ _ Hs).
Qed.

Definition cooling (m : string) (w : world) : bool := (_is_model_tpm_cooling now m w).1.
Lemma cooling_keeps m m' w : cooling m (_is_model_tpm_cooling now m' w).2 = cooling m w.
Proof.
  unfold cooling, _is_model_tpm_cooling at 2. destruct (dict_get m' (wd_model_tpm w)) as [until|] eqn:E; [|done].
  destruct (until =? 0) eqn:E0; [done|]. destruct (until <=? now) eqn:E1; [|done]. cbn [snd].
  unfold _is_model_tpm_cooling. simpl. rewrite dict_get_del. case_decide as Hm; [|destruct (dict_get m (wd_model_tpm w)); [by repeat case_match|done]].
  subst. by rewrite E, E0, E1.
Qed.

Lemma has_rows_false m sites ch : has_rows cr m sites = false -> ~ on_offer m sites ch.
Proof.
  intros Hf (p & s & r & Hp & Hr & _). unfold has_rows in Hf. apply not_true_iff_false in Hf. apply Hf.
  apply existsb_exists. exists (p, s). split; [by apply list_elem_of_In|]. simpl. apply negb_true_iff, bool_decide_eq_false.
  intros Hl. apply nil_length_inv in Hl. rewrite Hl in Hr. by apply not_elem_of_nil in Hr.
Qed.

Lemma collected_as_coded models sites w ch :
  Forall (fun ps => site_wf ps.2) sites ->
  let '(fd, limited, (sites', w')) := _collect_candidates adapter_of sn now cr models sites w in
  (ch ∈ fd_choices fd <-> exists m, m ∈ models /\ cooling m w = false /\ on_offer m sites ch) /\
  sites_alike sites sites' /\ (forall m, cooling m w' = cooling m w) /\
  (forall m, m ∈ limited -> m ∈ models /\ cooling m w = true).
Proof.
  revert sites w. induction models as [|m models IH]; intros sites w Hw; cbn [_collect_candidates].
  { split; [|split; [by apply sites_alike_refl | split; [done | by intros m ?%not_elem_of_nil]]].
    split; [by intros ?%not_elem_of_nil | by intros (m & ?%not_elem_of_nil & _)]. }
  set (here := if negb (has_rows cr m sites) then _ else _).
  assert (exists fd limited sites1 w1, here = (fd, limited, (sites1, w1)) /\
    (ch ∈ fd_choices fd <-> cooling m w = false /\ on_offer m sites ch) /\ sites_alike sites sites1 /\
    (forall m', cooling m' w1 = cooling m' w) /\ (forall m', m' ∈ limited -> m' = m /\ cooling m w = true))
    as (fd & limited & sites1 & w1 & -> & Hin & Ha & Hc & Hl).
  { unfold here. destruct (has_rows cr m sites) eqn:Ehr; cbn [negb].
    - pose proof (cooling_keeps) as Hk. specialize (Hk) . destruct (_is_model_tpm_cooling now m w) as [b w1] eqn:Ec.
      assert (cooling m w = b) as Hb by (unfold cooling; by rewrite Ec).
      assert (forall m', cooling m' w1 = cooling m' w) as Hk1 by (intros m'; pose proof (Hk m' m w) as Hkk; by rewrite Ec in Hkk).
      destruct b.
      + do 4 eexists. split; [done|]. simpl. split; [|split; [by apply sites_alike_refl | split; [done|]]].
        * split; [by intros ?%not_elem_of_nil | intros [? _]; congruence].
        * by intros m' ->%list_elem_of_singleton.
      + destruct (collect_sites_elem m sites ch Hw) as [Hin Ha]. destruct (collect_sites _ _ _ _ m sites) as [fd sites1]. simpl in *.
        do 4 eexists. split; [done|]. rewrite Hin, Hb. split; [|split; [done | split; [done | by intros m' ?%not_elem_of_nil]]].
        split; [by intros | by intros [_ ?]].
    - do 4 eexists. split; [done|]. simpl. split; [|split; [by apply sites_alike_refl | split; [done | by intros m' ?%not_elem_of_nil]]].
      split; [by intros ?%not_elem_of_nil | intros [_ Ho]; by eapply has_rows_false in Ho]. }
  specialize (IH sites1 w1 (sites_alike_wf _ _ Ha)).
  destruct (_collect_candidates _ _ _ _ models sites1 w1) as [[fds limiteds] [sites2 w2]]. destruct IH as (Hin' & Ha' & Hc' & Hl').
  simpl. split; [|split; [by eapply sites_alike_trans | split; [intros m'; by rewrite Hc', Hc|]]].
  - rewrite elem_of_app, Hin, Hin'. split.
    + intros [[? ?]|(m' & Hm & Hcm & Ho)]; [exists m; by split; [left|] |].
      exists m'. rewrite Hc in Hcm. split; [by right|]. split; [done|]. by apply (on_offer_alike _ _ _ _ Ha).
    + intros (m' & [->|Hm]%elem_of_cons & Hcm & Ho); [by left|]. right. exists m'. rewrite Hc. split; [done|]. split; [done|].
      by apply (on_offer_alike _ _ _ _ Ha).
  - intros m' [Hm|Hm]%elem_of_app; [apply Hl in Hm as [-> ?]; by split; [left|]|].
    apply Hl' in Hm as [? Hcm]. rewrite Hc in Hcm. by split; [right|].
Qed.

(** *** As the source means it

    The accounts that the entries of a dedicated route name for a channel.  Its comments
    say that an entry without accounts admits every account of the channel. *)
Definition named_accounts (p : string) : list string :=
  filter (fun a => str_truthy a = true) (strip <$> (filter (fun e => strip (en_provider e) = p) (cr_entries cr) ≫= en_accounts)).
Record admitted (m p : string) (c : account_client) : Prop := {
  ad_operation : _provider_supports_operation (adapter_of p (ac_username c)) (cr_operation cr) = true;
  ad_system : ad_supports_system_model (adapter_of p (ac_username c)) m = true;
  ad_route : p ∈ entry_providers cr -> named_accounts p = [] \/ ac_username c ∈ named_accounts p;
  ad_listed : cr_accounts cr = [] \/ ac_username c ∈ cr_accounts cr;
  ad_fresh : (p, ac_username c) ∉ cr_exclude cr;
  ad_state : cr_bypass cr = false -> (state now c).1 ∈ ROUTABLE_STATES /\ is_model_frozen now m c = false;
  ad_probe : cr_bypass cr = true -> cr_is_test cr = false -> ac_disabled c = false;
}.
(** A candidate of the model: a channel, a row of the model open to the request, an
    account that is admitted, a protocol row. *)
Definition possible (m : string) (sites : list (string * site)) (ch : choice) : Prop :=
  exists p s r i c ep, (p, s) ∈ sites /\ r ∈ model_rows cr m s /\ row_open sn cr m p s r /\
    pl_clients (st_pool s) !! i = Some c /\ admitted m p c /\
    ep ∈ protocol_rows cr m s /\ ch = make_choice (adapter_of p (ac_username c)) cr m p s r i c ep.
Lemma admitted_qualifies m p c : (p ∈ entry_providers cr -> named_accounts p <> []) ->
  admitted m p c <-> qualifies now (adapter_of p (ac_username c)) cr m p c.
Proof.
  intros Hn. assert (Hr : (p ∈ entry_providers cr -> named_accounts p = [] \/ ac_username c ∈ named_accounts p) <->
    (forall allowed, route_allowed_accounts cr p = Some allowed -> ac_username c ∈ allowed)).
  { unfold route_allowed_accounts. destruct (decide (p ∈ entry_providers cr)) as [Hp|Hp].
    - assert (cr_entries cr <> []) by (intros He; unfold entry_providers in Hp; rewrite He in Hp; by apply not_elem_of_nil in Hp).
      rewrite bool_decide_eq_false_2, bool_decide_eq_true_2 by done. cbn [orb negb]. specialize (Hn Hp). fold (named_accounts p). naive_solver.
    - rewrite (bool_decide_eq_false_2 (p ∈ _)) by done. rewrite orb_true_r. naive_solver. }
  split; intros [H1 H2 H3 H4 H5 H6 H7]; (split; [done|done|by apply Hr|done..]).
Qed.

(** C14: Where every route entry's channel has accounts named, collecting finds exactly
    the candidates the source means, of the channels as they were: a row of a model whose
    minute is not used up, open to the request; an account of the channel that is
    admitted; a protocol row the channel offers.  The channels afterwards differ by
    expired freezes only.  (For a channel whose entries name no account the code admits
    none and its comments all: [bare_route_admits_none].) *)
Theorem collected_exact models sites w ch :
  Forall (fun ps => site_wf ps.2) sites -> (forall p, p ∈ entry_providers cr -> named_accounts p <> []) ->
  let '(fd, limited, (sites', w')) := _collect_candidates adapter_of sn now cr models sites w in
  (ch ∈ fd_choices fd <-> exists m, m ∈ models /\ cooling m w = false /\ possible m sites ch) /\
  sites_alike sites sites' /\ (forall m, cooling m w' = cooling m w) /\
  (forall m, m ∈ limited -> m ∈ models /\ cooling m w = true).
Proof.
  intros Hw Hn. pose proof (collected_as_coded models sites w ch Hw) as H.
  destruct (_collect_candidates _ _ _ _ _ _ _) as [[fd limited] [sites' w']]. destruct H as (Hin & H). split; [|exact H]. rewrite Hin.
  assert (Heq : forall m, on_offer m sites ch <-> possible m sites ch); [|by setoid_rewrite Heq].
  intros m. unfold on_offer, offers, possible. split.
  - intros (p & s & r & Hp & Hr & Ho & i & c & ep & Hi & Hq & Hep & ->). exists p, s, r, i, c, ep. split_and!; try done. apply admitted_qualifies; auto.
  - intros (p & s & r & i & c & ep & Hp & Hr & Ho & Hi & Hq & Hep & ->). exists p, s, r. split_and!; try done. exists i, c, ep.
    split_and!; try done. apply admitted_qualifies; auto.
Qed.
End collect.

(** A dedicated route whose entry names no account is meant to allow every account
    of the provider; it allows none, and the collection is empty. *)
Lemma bare_route_admits_none adapter_of sn now cr p models sites w :
  Forall (fun ps => site_wf ps.2) sites -> cr_entries cr = [RouteEntry p []] -> str_truthy (strip p) = true ->
  fd_choices (_collect_candidates adapter_of sn now cr models sites w).1.1 = [].
Proof.
  intros Hw He Hp. destruct (fd_choices _) as [|ch chs] eqn:Ef; [done|]. exfalso.
  pose proof (collected_as_coded adapter_of sn now cr models sites w ch Hw) as Hx.
  destruct (_collect_candidates _ _ _ _ _ _ _) as [[fd limited] [sites' w']]. simpl in Ef. destruct Hx as [Hx _].
  rewrite Ef in Hx. apply proj1 in Hx. destruct (Hx ltac:(left)) as (m & _ & _ & p' & s & r & _ & _ & [Ho (i & c & ep & _ & Hq & _)]).
  assert (entry_providers cr = [strip p]) as Hep.
  { unfold entry_providers. rewrite He. simpl. by rewrite filter_cons_True. }
  destruct (ro_route _ _ _ _ _ _ Ho) as [Hn|Hin]; [by rewrite Hep in Hn|]. rewrite Hep in Hin. apply list_elem_of_singleton in Hin as ->.
  pose proof (qu_route _ _ _ _ _ _ Hq) as Hr. unfold route_allowed_accounts in Hr. rewrite He, Hep in Hr.
  rewrite bool_decide_eq_false_2, bool_decide_eq_true_2 in Hr by (done || left).
  specialize (Hr _ eq_refl). rewrite filter_cons_True in Hr by done. by apply not_elem_of_nil in Hr.
Qed.

(** ** Concrete channels *)

Module SelectionSample.

Definition plain_limits : account_limits := AccountLimits 0 0 0 0 0 0 2.
Definition named (channel user : string) (models : list (string * freeze_entry)) : account_client :=
  AccountClient channel user plain_limits false "" no_freeze models (Some true) (InitReturns true) None None None 0
    (new_failure_window 60) [] [] 0 [] false.
Definition site_of (channel_name : string) (prio : Z) (accounts : list account_client) (rows : list model_row) : site :=
  Site (Pool channel_name accounts 0 true None) (Channel ["cheap"] prio 10 rows []).
Definition any_model (m : string) : model_row := ModelRow m "" true "" [].
Definition short_model (m : string) : model_row := ModelRow m "up" true "" [("max_context_tokens", JNum "1000")].
Definition sites : list (string * site) :=
  [("a", site_of "a" 1 [named "a" "u1" []; named "a" "u2" [("m", FreezeEntry None "" "")]] [any_model "m"]);
   ("b", site_of "b" 0 [named "b" "u3" [("m", FreezeEntry (Some 5) "" "")]] [short_model "m"; any_model "m"])].
Definition openai : adapter := Adapter (fun _ => false) (fun _ => true) "".
Definition adapters (channel user : string) : adapter := openai.
Definition no_catalogue : snapshot := Snapshot 0 "" [] [] [] [] [].
Definition ask (entries : list route_entry) : criteria := Criteria [] "" [] [] [] [] entries "openai" [] false false 2000.
Definition idle : world := World [] [] None [].

Lemma sites_wf : Forall (fun ps => site_wf ps.2) sites.
Proof. repeat constructor; by try apply not_elem_of_nil. Qed.

(** The frozen model, the short window are left out; an expired freeze is dropped; of the
    first channel only a named account is asked. *)
Definition named_route : criteria := ask [RouteEntry "a" [" u1 "]; RouteEntry "b" ["u3"; "u9"]].
Lemma collected_exact_witness :
  let fd := (_collect_candidates adapters no_catalogue 10 named_route ["m"] sites idle).1.1 in
  (fun c => (cn_provider c, cn_account c)) <$> fd_choices fd = [("a", "u1"); ("b", "u3")] /\
  (forall ch, ch ∈ fd_choices fd -> exists m, m ∈ ["m"] /\ cooling 10 m idle = false /\ possible adapters no_catalogue 10 named_route m sites ch).
Proof.
  split; [by vm_compute|]. intros ch Hch.
  assert (Hn : forall p, p ∈ entry_providers named_route -> named_accounts named_route p <> []).
  { intros p Hp. change (entry_providers named_route) with ["a"; "b"] in Hp.
    apply elem_of_cons in Hp as [->|Hp]; [by vm_compute|]. apply list_elem_of_singleton in Hp as ->. by vm_compute. }
  pose proof (collected_exact adapters no_catalogue 10 named_route ["m"] sites idle ch sites_wf Hn) as Hx. revert Hx Hch.
  generalize (_collect_candidates adapters no_catalogue 10 named_route ["m"] sites idle). intros [[fd limited] [sites' w']] [Hx _] Hch.
  exact (proj1 Hx Hch).
Defined.

Lemma bare_route_admits_none_witness :
  fd_choices (_collect_candidates adapters no_catalogue 10 (ask [RouteEntry "a" []]) ["m"] sites idle).1.1 = [].
Proof. exact (bare_route_admits_none adapters no_catalogue 10 (ask [RouteEntry "a" []]) "a" ["m"] sites idle sites_wf eq_refl eq_refl). Defined.
End SelectionSample.
