(* ===== verification/RoutingProps.v ===== *)
(** Choosing and reserving: preferences and strategies pick among the candidates,
    the selection loop tries every candidate at most once and all of them before it
    gives up, and it holds one slot exactly when it selected an account. *)
From S2P Require Import Prelude Redis MapRedis Client State Json Text Windows Rules Account AccountProps Policy Pool.
From S2P Require Import Manager ManagerProps ReservationProps Ranking Catalog Selection SelectionProps Routing.

(** ** Preferences *)

Lemma or_else_elem {A} (a b : list A) x : (forall y, y ∈ a -> y ∈ b) -> x ∈ or_else a b -> x ∈ b.
Proof. destruct a; [done|]. intros Hs Hx. by apply Hs. Qed.
Lemma or_else_nonempty {A} (a b : list A) : b <> [] -> or_else a b <> [].
Proof. by destruct a. Qed.

Lemma rank_le c d : key_le (fun c => [protocol_rank c]) c d <-> protocol_rank c <= protocol_rank d.
Proof. unfold key_le. simpl. rewrite andb_false_r, orb_false_r, Z.ltb_ge. done. Qed.

(** With a request protocol, or a protocol row bound to the model, exactly the
    candidates of the best rank are kept: bound rows before unbound ones, the
    request's protocol first among them; otherwise all. *)
Lemma prefer_protocol_exact rp cs c :
  c ∈ _prefer_same_protocol_candidates rp cs <->
  c ∈ cs /\ (str_truthy rp = false /\ Forall (fun d => cn_model_bound d = false) cs \/
             Forall (fun d => protocol_rank c <= protocol_rank d) cs).
Proof.
  unfold _prefer_same_protocol_candidates.
  destruct (negb (str_truthy rp) && negb (existsb cn_model_bound cs)) eqn:E.
  - apply andb_prop in E as [Hr Hb]. apply negb_true_iff in Hr, Hb. split; [|by intros [? _]]. intros Hc. split; [done|]. left. split; [done|].
    apply Forall_forall. intros d Hd. destruct (cn_model_bound d) eqn:Ed; [|done]. exfalso.
    apply not_true_iff_false in Hb. apply Hb, existsb_exists. exists d. split; [by apply list_elem_of_In | done].
  - destruct (min_by (fun c => [protocol_rank c]) cs) as [m|] eqn:Em.
    + destruct (min_by_elem _ _ _ Em) as [Hm Hall]. simpl.
      assert (m ∈ filter (fun c => protocol_rank c = protocol_rank m) cs) as Hmf by (by apply list_elem_of_filter).
      destruct (filter _ cs) as [|x l] eqn:Ef; [by apply not_elem_of_nil in Hmf|]. simpl. rewrite <- Ef, list_elem_of_filter.
      rewrite Forall_forall in Hall. split.
      * intros [Hc Hin]. split; [done|]. right. apply Forall_forall. intros d Hd. rewrite Hc. by apply rank_le, Hall.
      * intros [Hin [[Hr Hnb]|Hle]].
        -- exfalso. rewrite Hr in E. simpl in E. apply negb_false_iff, existsb_exists in E as (d & Hd & Hb).
           apply list_elem_of_In in Hd. rewrite Forall_forall in Hnb. by rewrite Hnb in Hb.
        -- split; [|done]. rewrite Forall_forall in Hle. specialize (Hle m Hm). specialize (Hall c Hin). apply rank_le in Hall. lia.
    + apply min_by_None in Em as ->. simpl. split; [by intros ?%not_elem_of_nil | by intros [?%not_elem_of_nil _]].
Qed.

Lemma prefer_protocol_nonempty rp cs : cs <> [] -> _prefer_same_protocol_candidates rp cs <> [].
Proof. intros Hne. unfold _prefer_same_protocol_candidates. case_match; [done|]. by apply or_else_nonempty. Qed.

Section affinity.
Variables (now : Z) (a : list (string * (string * Z))).

Lemma affinity_step_case acc c :
  (affinity_step now a acc c).1 = acc.1 \/ affinity_of now a c = Some (affinity_step now a acc c).1.
Proof.
  unfold affinity_step. destruct (affinity_of now a c) as [ts|]; [|by left].
  destruct (acc.1 <? ts); [by right|]. destruct (ts =? acc.1); by left.
Qed.

Lemma affinity_fold cs acc :
  let best := (foldl (affinity_step now a) acc cs).1 in
  acc.1 <= best /\ Forall (fun c => forall ts, affinity_of now a c = Some ts -> ts <= best) cs /\
  (foldl (affinity_step now a) acc cs).2 =
    (if decide (best = acc.1) then acc.2 else []) ++ filter (fun c => affinity_of now a c = Some best) cs.
Proof.
  revert acc. induction cs as [|c cs IH]; intros acc; simpl.
  { split; [lia|]. split; [constructor|]. rewrite decide_True by done. by rewrite app_nil_r. }
  destruct (IH (affinity_step now a acc c)) as (Hb & Hall & ->). set (best := (foldl _ _ cs).1) in *.
  unfold affinity_step in *. destruct (affinity_of now a c) as [ts|] eqn:Ea.
  2: { split; [done|]. split; [constructor; [by intros ts' Hts; rewrite Ea in Hts | done]|]. rewrite filter_cons_False by (rewrite Ea; done). done. }
  destruct (Z.ltb_spec (acc.1) ts); simpl in *.
  - split; [lia|]. split; [constructor; [|done]; intros ts' Hts; rewrite Ea in Hts; injection Hts as <-; lia|].
    rewrite (decide_False (P := best = acc.1)) by lia. rewrite filter_cons. destruct (decide (affinity_of now a c = Some best)) as [Hd|Hd].
    + rewrite Ea in Hd. injection Hd as Hd. rewrite decide_True by done. done.
    + rewrite decide_False; [done|]. intros ->. by rewrite Ea in Hd.
  - destruct (Z.eqb_spec ts (acc.1)); simpl in *.
    + split; [lia|]. split; [constructor; [|done]; intros ts' Hts; rewrite Ea in Hts; injection Hts as <-; lia|].
      rewrite filter_cons. destruct (decide (best = acc.1)) as [Hd|Hd].
      * rewrite decide_True by (rewrite Ea; congruence). by rewrite <- app_assoc.
      * rewrite decide_False by (rewrite Ea; congruence). done.
    + split; [lia|]. split; [constructor; [|done]; intros ts' Hts; rewrite Ea in Hts; injection Hts as <-; lia|].
      rewrite filter_cons_False; [done|]. rewrite Ea. intros [= Hd]. lia.
Qed.

(** The candidates whose account last served their upstream model, the latest of
    them; all when there is none, or when the strategy scores. *)
Lemma prefer_affinity_exact st cs c : scored st = false ->
  c ∈ _prefer_same_upstream_model_candidates now st a cs <->
  c ∈ cs /\ (Forall (fun d => forall ts, affinity_of now a d = Some ts -> ts < 0) cs \/
             exists ts, 0 <= ts /\ affinity_of now a c = Some ts /\
               Forall (fun d => forall ts', affinity_of now a d = Some ts' -> ts' <= ts) cs).
Proof.
  intros Hst. unfold _prefer_same_upstream_model_candidates. rewrite Hst.
  destruct (affinity_fold cs (0, [])) as (Hb & Hall & ->). simpl in *. set (best := (foldl _ _ cs).1) in *.
  assert (((if decide (best = 0) then [] else []) ++ filter (fun c => affinity_of now a c = Some best) cs)
    = filter (fun c => affinity_of now a c = Some best) cs) as -> by (by case_decide).
  destruct (filter _ cs) as [|x l] eqn:Ef; simpl.
  - split; [|by intros [? _]]. intros Hc. split; [done|]. left. apply Forall_forall. intros d Hd ts Hts.
    rewrite Forall_forall in Hall. specialize (Hall d Hd ts Hts).
    assert (best = 0 \/ 0 < best) as [Hz|Hpos] by lia.
    + destruct (Z.eq_dec ts best) as [->|]; [|lia]. exfalso.
      assert (d ∈ filter (fun c => affinity_of now a c = Some best) cs) as Hf by (by apply list_elem_of_filter).
      rewrite Ef in Hf. by apply not_elem_of_nil in Hf.
    + exfalso. clear Hall Hts Hd Hc Hb. revert Ef Hpos. unfold best. clear best.
      assert (forall acc, (foldl (affinity_step now a) acc cs).1 = acc.1 \/
        exists d, d ∈ cs /\ affinity_of now a d = Some (foldl (affinity_step now a) acc cs).1) as Hreach.
      { clear. induction cs as [|c cs IH]; intros acc; simpl; [by left|].
        destruct (IH (affinity_step now a acc c)) as [Hs|(d & Hd & Hds)]; [|right; exists d; split; [by right | done]].
        destruct (affinity_step_case acc c) as [Hst'|Hst']; [left; congruence|]. right. exists c. split; [left|]. congruence. }
      intros Ef Hpos. destruct (Hreach (0, [])) as [H0|(d' & Hd' & Hds)]; [rewrite H0 in Hpos; simpl in Hpos; lia|].
      assert (d' ∈ filter (fun c => affinity_of now a c = Some (foldl (affinity_step now a) (0, []) cs).1) cs) as Hf by (by apply list_elem_of_filter).
      rewrite Ef in Hf. by apply not_elem_of_nil in Hf.
  - rewrite <- Ef, list_elem_of_filter. split.
    + intros [Ha Hin]. split; [done|]. right. exists best. split; [lia|]. by split.
    + intros [Hin [Hneg|(ts & Hts & Ha & Hmax)]].
      * exfalso. assert (x ∈ filter (fun c => affinity_of now a c = Some best) cs) as Hx by (rewrite Ef; left).
        apply list_elem_of_filter in Hx as [Hxa Hx]. rewrite Forall_forall in Hneg. specialize (Hneg x Hx best Hxa). lia.
      * split; [|done]. rewrite Ha. f_equal. rewrite Forall_forall in Hall, Hmax. specialize (Hall c Hin ts Ha).
        assert (x ∈ filter (fun c => affinity_of now a c = Some best) cs) as Hx by (rewrite Ef; left).
        apply list_elem_of_filter in Hx as [Hxa Hx]. specialize (Hmax x Hx best Hxa). lia.
Qed.

Lemma prefer_affinity_nonempty st cs : cs <> [] -> _prefer_same_upstream_model_candidates now st a cs <> [].
Proof. intros Hne. unfold _prefer_same_upstream_model_candidates. case_match; [done|]. by apply or_else_nonempty. Qed.

Lemma prefer_affinity_elem st cs c : c ∈ _prefer_same_upstream_model_candidates now st a cs -> c ∈ cs.
Proof.
  destruct (scored st) eqn:E; [by unfold _prefer_same_upstream_model_candidates; rewrite E|].
  intros Hc. by apply prefer_affinity_exact in Hc as [? _].
Qed.
End affinity.

(** ** Strategies *)

Record fair (d : dice) : Prop := {
  fr_models : forall l, dc_models d l ≡ₚ l;
  fr_providers : forall l, dc_providers d l ≡ₚ l;
  fr_index : forall n, (0 < n)%nat -> (dc_index d n < n)%nat;
  fr_weighted : forall b l, l <> [] -> exists c, dc_weighted d b l = Some c /\ c ∈ l;
}.

Lemma dedup_first_elem seen l (x : string) : x ∈ dedup_first seen l <-> x ∈ l /\ x ∉ seen.
Proof.
  revert seen. induction l as [|y l IH]; intros seen; simpl.
  { split; [by intros ?%not_elem_of_nil | by intros [?%not_elem_of_nil _]]. }
  case_decide as Hy.
  - rewrite IH, elem_of_cons. naive_solver.
  - rewrite !elem_of_cons, IH, not_elem_of_cons. destruct (decide (x = y)); naive_solver.
Qed.

Lemma avoid_spec now cs h c : c ∈ (_avoid_last_provider now cs h).1 <->
  c ∈ cs /\ (forall p, _last_used_provider now h = Some p -> p <> "" -> (exists d, d ∈ cs /\ cn_provider d <> p) -> cn_provider c <> p).
Proof.
  unfold _avoid_last_provider. destruct cs as [|c0 cs']; [split; [by intros ?%not_elem_of_nil | by intros [?%not_elem_of_nil _]]|].
  set (cs := c0 :: cs'). cbn [fst]. destruct (_last_used_provider now h) as [p|]; [|naive_solver].
  destruct (str_truthy p) eqn:Ep; [|destruct p; naive_solver]. assert (p <> "") as Hp by (by intros ->).
  destruct (filter (fun c => cn_provider c <> p) cs) as [|x l] eqn:Ef; simpl.
  - split; [|by intros [? _]]. intros Hc. split; [done|]. intros p' [= <-] _ (d & Hd & Hdp).
    assert (d ∈ filter (fun c => cn_provider c <> p) cs) as Hf by (by apply list_elem_of_filter). rewrite Ef in Hf. by apply not_elem_of_nil in Hf.
  - rewrite <- Ef, list_elem_of_filter. split.
    + intros [Hne Hc]. split; [done|]. by intros p' [= <-].
    + intros [Hc Hav]. split; [|done]. apply (Hav p); [done..|].
      assert (x ∈ filter (fun c => cn_provider c <> p) cs) as Hx by (rewrite Ef; left). apply list_elem_of_filter in Hx as [? ?]. by exists x.
Qed.

Lemma avoid_nonempty now cs h : cs <> [] -> (_avoid_last_provider now cs h).1 <> [].
Proof.
  unfold _avoid_last_provider. destruct cs as [|c0 cs']; [done|]. intros _. cbn [fst].
  destruct (_last_used_provider now h); [|done]. case_match; [|done]. by apply or_else_nonempty.
Qed.

Lemma first_by_order_spec cs c : first_by_order cs = Some c -> c ∈ cs /\ Forall (key_le order_key c) cs.
Proof. unfold first_by_order. rewrite sorted_by_head. apply min_by_elem. Qed.
Lemma first_by_order_some cs : cs <> [] -> is_Some (first_by_order cs).
Proof.
  unfold first_by_order. rewrite sorted_by_head. intros Hne. destruct (min_by order_key cs) eqn:E; [by eexists|].
  by apply min_by_None in E.
Qed.

Section strategies.
Variables (sn : snapshot) (now : Z) (d : dice).
Hypothesis Hfair : fair d.

Lemma channel_random_ok cs h : cs <> [] ->
  exists c, (_select_channel_random now d cs h).1 = Some c /\ c ∈ cs.
Proof.
  intros Hne. unfold _select_channel_random. pose proof (avoid_nonempty now cs h Hne) as Hn. pose proof (avoid_spec now cs h) as Ha.
  destruct (_avoid_last_provider now cs h) as [cs1 h1]. simpl in *.
  destruct (dc_providers d (dedup_first [] (cn_provider <$> cs1))) as [|p ps] eqn:Ep.
  - exfalso. pose proof (fr_providers d Hfair (dedup_first [] (cn_provider <$> cs1))) as Hp. rewrite Ep in Hp.
    apply Permutation_nil_l in Hp. destruct cs1 as [|c1 cs1]; [done|]. simpl in Hp. done.
  - assert (p ∈ dedup_first [] (cn_provider <$> cs1)) as Hin by (rewrite <- (fr_providers d Hfair), Ep; left).
    apply dedup_first_elem in Hin as [Hin _]. apply list_elem_of_fmap in Hin as (c1 & -> & Hc1).
    destruct (first_by_order_some (filter (fun c => cn_provider c = cn_provider c1) cs1)) as [c Hc].
    { intros Hf. assert (c1 ∈ filter (fun c => cn_provider c = cn_provider c1) cs1) as Hx by (by apply list_elem_of_filter). rewrite Hf in Hx. by apply not_elem_of_nil in Hx. }
    rewrite Hc. exists c. split; [done|]. apply first_by_order_spec in Hc as [Hc _]. apply list_elem_of_filter in Hc as [_ Hc]. by apply Ha.
Qed.

Lemma try_models_ok models cs h : (exists m c, m ∈ models /\ c ∈ cs /\ cn_model c = m) ->
  exists c, (try_models now d models cs h).1 = Some c /\ c ∈ cs.
Proof.
  revert h. induction models as [|m models IH]; intros h (m' & c & Hm & Hc & Hcm); [by apply not_elem_of_nil in Hm|]. simpl.
  destruct (decide (filter (fun c => cn_model c = m) cs = [])) as [He|Hne].
  - rewrite He. unfold _select_channel_random at 1. simpl.
    destruct (dc_providers d []) as [|p ps] eqn:Ep.
    + apply IH. exists m', c. split; [|done]. apply elem_of_cons in Hm as [->|]; [|done]. exfalso.
      assert (c ∈ filter (fun c => cn_model c = m) cs) as Hx by (by apply list_elem_of_filter). rewrite He in Hx. by apply not_elem_of_nil in Hx.
    + pose proof (fr_providers d Hfair []) as Hp. rewrite Ep in Hp. by apply Permutation_nil_r in Hp.
  - destruct (channel_random_ok _ h Hne) as (c1 & Hc1 & Hin). destruct (_select_channel_random _ _ _ h) as [r h1]. simpl in Hc1. subst r.
    exists c1. split; [done|]. by apply list_elem_of_filter in Hin as [_ ?].
Qed.

Lemma scored_positive_elem cs c : c ∈ scored_positive d cs -> c ∈ cs /\ dc_positive d c = true.
Proof. unfold scored_positive. intros [? ?]%list_elem_of_filter. done. Qed.

(** Every strategy picks one of its candidates, and none only when there are none
    or, for a scoring one, when no score is positive. *)
Lemma strategy_picks st cs h :
  match (select sn now d st cs h).1 with
  | Some c => c ∈ cs
  | None => cs = [] \/ scored st = true /\ Forall (fun c => dc_positive d c = false) cs
  end.
Proof.
  assert (forall cs c, c ∈ scored_positive d cs -> c ∈ cs) as Hsub by (intros ? ? Hc; by apply scored_positive_elem in Hc as [? _]).
  assert (forall cs, scored_positive d cs = [] -> Forall (fun c => dc_positive d c = false) cs) as Hnone.
  { intros cs0 Hs. apply Forall_forall. intros c Hc. destruct (dc_positive d c) eqn:E; [|done]. exfalso.
    assert (c ∈ scored_positive d cs0) as Hx by (by apply list_elem_of_filter). rewrite Hs in Hx. by apply not_elem_of_nil in Hx. }
  unfold select. destruct cs as [|c0 cs']; [by left|]. set (cs := c0 :: cs'). assert (cs <> []) as Hne by done. destruct st.
  - unfold _select_sequential. pose proof (avoid_nonempty now cs h Hne) as Hn. pose proof (avoid_spec now cs h) as Ha.
    destruct (_avoid_last_provider now cs h) as [cs1 h1]. simpl in *. destruct (first_by_order_some cs1 Hn) as [c Hc]. rewrite Hc.
    apply first_by_order_spec in Hc as [Hc _]. by apply Ha.
  - destruct (channel_random_ok cs h Hne) as (c & -> & Hc). done.
  - unfold _select_model_random. destruct (try_models_ok (dc_models d (dedup_first [] (cn_model <$> cs))) cs h) as (c & -> & Hc); [|done].
    exists (cn_model c0), c0. rewrite (fr_models d Hfair), dedup_first_elem. split; [split; [left | apply not_elem_of_nil]|]. split; [left | done].
  - unfold _select_all_random. pose proof (avoid_nonempty now cs h Hne) as Hn. pose proof (avoid_spec now cs h) as Ha.
    destruct (_avoid_last_provider now cs h) as [cs1 h1]. simpl in *.
    destruct (lookup_lt_is_Some_2 cs1 (dc_index d (length cs1))) as [c Hc]; [apply (fr_index d Hfair); destruct cs1; [done | simpl; lia]|].
    rewrite Hc. apply list_elem_of_lookup_2 in Hc. by apply Ha.
  - unfold _select_intelligent. destruct (scored_positive d cs) as [|x l] eqn:Ev; [right; split; [done | by apply Hnone]|]. cbn [fst].
    destruct (fr_weighted d Hfair false (x :: l)) as (c & -> & Hc); [done|]. apply Hsub. by rewrite Ev.
  - unfold _select_fast_intelligent. destruct (scored_positive d cs) as [|x l] eqn:Ev; [right; split; [done | by apply Hnone]|].
    destruct (dc_explore d); cbn [fst].
    + destruct (fr_weighted d Hfair true (x :: l)) as (c & -> & Hc); [done|]. apply Hsub. by rewrite Ev.
    + pose proof (avoid_nonempty now (x :: l) h ltac:(done)) as Hn. pose proof (avoid_spec now (x :: l) h) as Ha.
      destruct (_avoid_last_provider now (x :: l) h) as [cs1 h1]. simpl in Hn, Ha. cbn [fst].
      destruct (fr_weighted d Hfair false cs1 Hn) as (c & -> & Hc). apply Hsub. rewrite Ev. by apply Ha.
  - unfold _select_largest_context. cbn [fst]. rewrite sorted_by_head. destruct (min_by _ cs) as [c|] eqn:Em; [by apply min_by_elem in Em as [? _]|].
    by apply min_by_None in Em.
Qed.
End strategies.

(** In order: among the candidates not of the channel used last, or among all when
    there are no others, the first with the smallest priority and, within it, the
    largest weight. *)
Theorem sequential_in_order sn now d cs h : cs <> [] ->
  exists c, (select sn now d SEQUENTIAL cs h).1 = Some c /\ c ∈ cs /\
    (forall p, _last_used_provider now h = Some p -> p <> "" -> (exists x, x ∈ cs /\ cn_provider x <> p) -> cn_provider c <> p) /\
    forall x, x ∈ cs -> (cn_provider x = cn_provider c \/ _last_used_provider now h <> Some (cn_provider x) \/ cn_provider x = "") ->
      cn_priority c < cn_priority x \/ cn_priority c = cn_priority x /\ cn_weight x <= cn_weight c.
Proof.
  intros Hne. unfold select. destruct cs as [|c0 cs']; [done|]. set (cs := c0 :: cs') in *. unfold _select_sequential.
  pose proof (avoid_nonempty now cs h Hne) as Hn. pose proof (avoid_spec now cs h) as Ha.
  destruct (_avoid_last_provider now cs h) as [cs1 h1]. simpl in Hn, Ha. cbn [fst].
  destruct (first_by_order_some cs1 Hn) as [c Hc]. rewrite Hc. exists c. split; [done|].
  apply first_by_order_spec in Hc as [Hc Hall]. pose proof Hc as Hc'. apply Ha in Hc' as [Hin Hav]. split; [done|]. split; [done|].
  intros x Hx Hok. assert (x ∈ cs1) as Hx1.
  { apply Ha. split; [done|]. intros p Hp Hpe Hex Heq. destruct Hok as [Hxc|[Hl|Hl]]; [|congruence..].
    apply (Hav p Hp Hpe Hex). congruence. }
  rewrite Forall_forall in Hall. specialize (Hall x Hx1). unfold key_le, order_key in Hall. simpl in Hall. rewrite andb_false_r, orb_false_r in Hall.
  apply orb_false_iff in Hall as [Hp Hw]. apply Z.ltb_ge in Hp. apply andb_false_iff in Hw as [Hw|Hw].
  - apply Z.eqb_neq in Hw. lia.
  - apply Z.ltb_ge in Hw. lia.
Qed.

(** ** The selection loop *)

Lemma removed_self reason c : removed reason c c = true.
Proof. unfold removed, same_account. rewrite !(proj2 (String.eqb_eq _ _) eq_refl). by destruct (negb _). Qed.

Lemma filter_shrinks reason c cs : c ∈ cs -> (length (filter (fun x => removed reason c x = false) cs) < length cs)%nat.
Proof.
  induction cs as [|x cs IH]; [by intros ?%not_elem_of_nil|]. intros Hc. rewrite filter_cons. simpl.
  destruct (decide (removed reason c x = false)) as [Hr|Hr].
  - apply elem_of_cons in Hc as [->|Hc]; [by rewrite removed_self in Hr|]. specialize (IH Hc). simpl. lia.
  - pose proof (length_filter (fun x => removed reason c x = false) cs). lia.
Qed.

Definition counted (refused : list (choice * string)) (reasons : list (string * Z)) : list (string * Z) :=
  foldl (fun d x => add_count 1 x.2 d) reasons refused.

Section loop.
Context {R : Type} `{RedisLaws R}.
Variables (conf : redis_conf) (utc_offset : Z -> Z) (boot_id : string) (sn : snapshot) (rm : reserve_mode).

Lemma pick_spec t cs s (e : renv R) c s' e' : fair (pi_dice t) -> cs <> [] ->
  pick sn rm t cs s e = (Ret (c, s'), e') ->
  match c with
  | Some ch => ch ∈ cs
  | None => rm_bypass rm = false /\ scored (rm_strategy rm) = true /\ Forall (fun x => dc_positive (pi_dice t) x = false) cs
  end /\ (exists h, s' = set_history h s) /\ e' = e.
Proof.
  intros Hf Hne. unfold pick, get_world. erewrite ST_bind_ret by done.
  pose proof (strategy_picks sn (pi_now t) (pi_dice t) Hf (rm_strategy rm) cs (sl_history s)) as Hp.
  destruct (select _ _ _ _ cs (sl_history s)) as [r h]. erewrite ST_bind_ret by done. intros [= <- <- <-]. cbn [fst] in Hp.
  split; [|by split; [exists h|]]. destruct r as [ch|]; [done|]. destruct (rm_bypass rm); [by destruct cs; [|left]|].
  destruct Hp as [?|[? ?]]; done.
Qed.

(** The candidates no refusal ruled out. *)
Definition ruled_out (refused : list (choice * string)) (c : choice) : bool := existsb (fun x => removed x.2 x.1 c) refused.
Definition left_over (refused : list (choice * string)) (cs : list choice) : list choice := filter (fun c => ruled_out refused c = false) cs.
Lemma left_over_cons ch reason refused cs :
  left_over refused (filter (fun c => removed reason ch c = false) cs) = left_over ((ch, reason) :: refused) cs.
Proof.
  unfold left_over. rewrite list_filter_filter. apply list_filter_iff. intros c. unfold ruled_out. simpl. rewrite orb_false_iff. naive_solver.
Qed.
(** The time allowed is over at a turn. *)
Definition late (t : pick_input) : bool := negb (rm_bypass rm) && pi_late t.

(** What a run of the loop guarantees; turn [k] is the first one not spent on a refusal. *)
Record loop_outcome (inputs : nat -> pick_input) (i : nat) (cs : list choice) (reasons : list (string * Z)) (r : selection_result)
    (reasons' : list (string * Z)) (refused : list (choice * string)) : Prop := {
  lo_tried : forall x, x ∈ refused -> x.1 ∈ cs;
  lo_once : forall i j x y, refused !! i = Some x -> refused !! j = Some y -> (i < j)%nat -> removed x.2 x.1 y.1 = false;
  lo_in_time : forall j, (j < length refused)%nat -> late (inputs (i + j)%nat) = false;
  lo_result :
    let k := (i + length refused)%nat in
    let remaining := left_over refused cs in
    match r with
    | Selected ch => ch ∈ remaining /\ late (inputs k) = false /\ reasons' = counted refused reasons
    | NotSelected =>
        remaining = [] /\ reasons' = counted refused reasons \/
        remaining <> [] /\ late (inputs k) = true /\
          reasons' = add_count (Z.of_nat (length remaining)) "selection_deadline" (counted refused reasons) \/
        remaining <> [] /\ late (inputs k) = false /\ rm_bypass rm = false /\ scored (rm_strategy rm) = true /\
          Forall (fun c => dc_positive (pi_dice (inputs k)) c = false) remaining /\
          reasons' = add_count 1 "selection_returned_none" (counted refused reasons)
    | SelectionRaised => remaining <> [] /\ late (inputs k) = false /\ reasons' = counted refused reasons
    end;
}.

Lemma left_over_nil cs : left_over [] cs = cs.
Proof. unfold left_over. apply filter_all. by apply Forall_forall. Qed.
(** Stopping at once. *)
Lemma outcome_now inputs i cs reasons r reasons' refused0 :
  match r with
  | Selected ch => ch ∈ cs /\ late (inputs i) = false /\ reasons' = reasons
  | NotSelected =>
      cs = [] /\ reasons' = reasons \/
      cs <> [] /\ late (inputs i) = true /\ reasons' = add_count (Z.of_nat (length cs)) "selection_deadline" reasons \/
      cs <> [] /\ late (inputs i) = false /\ rm_bypass rm = false /\ scored (rm_strategy rm) = true /\
        Forall (fun c => dc_positive (pi_dice (inputs i)) c = false) cs /\ reasons' = add_count 1 "selection_returned_none" reasons
  | SelectionRaised => cs <> [] /\ late (inputs i) = false /\ reasons' = reasons
  end ->
  exists news, refused0 = refused0 ++ news /\ loop_outcome inputs i cs reasons r reasons' news.
Proof.
  intros Hr. exists []. rewrite app_nil_r. split; [done|].
  split; [by intros x ?%not_elem_of_nil | by intros ? ? ? ? Hi; rewrite lookup_nil in Hi | simpl; lia|].
  simpl. by rewrite left_over_nil, Nat.add_0_r.
Qed.

(** One refusal, then the rest of the loop. *)
Lemma outcome_more inputs i cs reasons r reasons' ch reason refused0 refused : ch ∈ cs -> late (inputs i) = false ->
  (exists news, refused = (refused0 ++ [(ch, reason)]) ++ news /\
     loop_outcome inputs (S i) (filter (fun c => removed reason ch c = false) cs) (add_count 1 reason reasons) r reasons' news) ->
  exists news, refused = refused0 ++ news /\ loop_outcome inputs i cs reasons r reasons' news.
Proof.
  intros Hc Hi (news & -> & [Ht Ho Hin Hr]). exists ((ch, reason) :: news). rewrite <- app_assoc. split; [done|]. split.
  - intros x [->|Hx]%elem_of_cons; [done|]. apply Ht in Hx. by apply list_elem_of_filter in Hx as [_ ?].
  - intros [|a] [|b] x y Hx Hy Hab; simpl in Hx, Hy; try lia.
    + injection Hx as <-. simpl. apply list_elem_of_lookup_2, Ht in Hy. by apply list_elem_of_filter in Hy as [? _].
    + apply (Ho a b); [done..|lia].
  - intros [|j] Hj; [by rewrite Nat.add_0_r|]. rewrite Nat.add_succ_r. apply (Hin j). simpl in Hj. lia.
  - cbv zeta in *. rewrite <- left_over_cons. simpl length. rewrite Nat.add_succ_r. exact Hr.
Qed.

Lemma selection_spec inputs fuel i cs reasons refused0 s (e : renv R) r reasons' refused s' e' :
  (forall k, fair (pi_dice (inputs k))) -> (length cs <= fuel)%nat ->
  selection_loop conf utc_offset boot_id sn rm inputs fuel i cs reasons refused0 s e = (Ret ((r, reasons', refused), s'), e') ->
  exists news, refused = refused0 ++ news /\ loop_outcome inputs i cs reasons r reasons' news.
Proof.
  intros Hfair. revert i cs reasons refused0 s e. induction fuel as [|fuel IH]; intros i cs reasons refused0 s e Hlen Hrun.
  { destruct cs; [|simpl in Hlen; lia]. injection Hrun as <- <- <- <- <-. apply outcome_now. by left. }
  destruct cs as [|c0 cs']; [injection Hrun as <- <- <- <- <-; apply outcome_now; by left|].
  cbn [selection_loop] in Hrun. set (cs := c0 :: cs') in *. fold (late (inputs i)) in Hrun.
  destruct (late (inputs i)) eqn:Elate.
  { injection Hrun as <- <- <- <- <-. apply outcome_now. right. by left. }
  apply ST_bind_inv in Hrun as (c & s1 & e1 & Hpick & Hrun).
  apply pick_spec in Hpick as (Hc & [h ->] & ->); [|apply Hfair | done]. destruct c as [ch|].
  2: { injection Hrun as <- <- <- <- <-. apply outcome_now. right. right. destruct Hc as (? & ? & ?). done. }
  apply ST_bind_inv in Hrun as (o & s2 & e2 & Htry & Hrun).
  destruct o as [[[] dec]|]; [injection Hrun as <- <- <- <- <-; by apply outcome_now | |
                              injection Hrun as <- <- <- <- <-; by apply outcome_now].
  apply IH in Hrun; [by eapply outcome_more|]. eapply Nat.lt_succ_r, Nat.lt_le_trans; [by apply filter_shrinks | done].
Qed.

(** C15: The selection loop tries candidates of its list only, none that an earlier
    refusal ruled out and none after its deadline.  A selected candidate is one that no
    refusal ruled out.  It gives up in three cases only: no candidate is left; the turn
    after the refusals begins past the deadline with candidates left (their number is
    counted); or the strategy scores, and scores every candidate left zero.  A test
    probe has neither deadline nor zero scores.  The bound on its attempts never ends
    it, and the reasons of all refusals are counted. *)
Theorem selection_complete inputs cs reasons s (e : renv R) r reasons' refused s' e' :
  (forall k, fair (pi_dice (inputs k))) ->
  _select_and_reserve_candidates conf utc_offset boot_id sn rm inputs cs reasons s e = (Ret ((r, reasons', refused), s'), e') ->
  loop_outcome inputs 0 cs reasons r reasons' refused.
Proof. intros Hf Hrun. apply selection_spec in Hrun as (news & -> & Hl); [done..|lia]. Qed.
End loop.

(** ** Slots *)

Definition site_slots (st : site) : Z := foldr (fun c n => ac_in_flight c + n) 0 (pl_clients (st_pool st)).
(** The concurrency slots held on all accounts. *)
Definition slots (s : selector) : Z := foldr (fun ps n => site_slots ps.2 + n) 0 (sl_sites s).

Lemma sum_insert (cs : list account_client) i c c' : cs !! i = Some c ->
  foldr (fun c n => ac_in_flight c + n) 0 (<[i := c']> cs) = foldr (fun c n => ac_in_flight c + n) 0 cs - ac_in_flight c + ac_in_flight c'.
Proof.
  revert i. induction cs as [|x cs IH]; intros [|i]; simpl; [done..| |]; [intros [= ->]; lia|]. intros Hi. rewrite (IH i Hi). lia.
Qed.

Lemma slots_put p i c c' s : account_at p i s = Some c -> slots (put_account p i c' s) = slots s - ac_in_flight c + ac_in_flight c'.
Proof.
  unfold account_at, put_account, slots. destruct (dict_get p (sl_sites s)) as [st|] eqn:Ep; simpl; [|done]. intros Hi.
  revert Ep. induction (sl_sites s) as [|[p' st'] l IH]; simpl; [done|]. case_decide as Hp.
  - intros [= ->]. simpl. unfold site_slots at 1. simpl. rewrite (sum_insert _ _ c) by done. unfold site_slots at 2. lia.
  - intros Ep. simpl. rewrite IH by done. lia.
Qed.

Lemma account_put p i c s p' i' : is_Some (account_at p i s) ->
  account_at p' i' (put_account p i c s) = if decide (p' = p /\ i' = i) then Some c else account_at p' i' s.
Proof.
  intros [c0 Hc0]. unfold account_at, put_account in *. destruct (dict_get p (sl_sites s)) as [st|] eqn:Ep; [|done]. simpl in *.
  rewrite dict_get_set. destruct (decide (p' = p)) as [->|Hp]; simpl.
  - rewrite Ep. simpl. destruct (decide (i' = i)) as [->|Hi].
    + rewrite decide_True by done. apply list_lookup_insert_eq. by eapply lookup_lt_Some.
    + rewrite decide_False by naive_solver. by apply list_lookup_insert_ne.
  - rewrite decide_False by naive_solver. done.
Qed.

Section slots.
Context {R : Type} `{RedisLaws R}.
Variables (conf : redis_conf) (utc_offset : Z -> Z) (boot_id : string) (sn : snapshot) (rm : reserve_mode).

Abbreviation lease_of t := (lease_name boot_id (pi_hex t)).
(** The identifier drawn for a pick is on no account and not in the task's stack. *)
Definition unused (t : pick_input) (s : selector) : Prop :=
  (forall p i c, account_at p i s = Some c -> dict_get (lease_of t) (ac_leases c) = None) /\ lease_of t ∉ sl_ctx s.
Definition counting (s : selector) : Prop := forall p i c, account_at p i s = Some c -> 0 <= ac_in_flight c.

(** The same leases and slots on every account. *)
Definition same_books (s s' : selector) : Prop :=
  slots s' = slots s /\ sl_ctx s' = sl_ctx s /\
  forall p i c', account_at p i s' = Some c' -> exists c, account_at p i s = Some c /\ ac_leases c' = ac_leases c /\ ac_in_flight c' = ac_in_flight c.

Lemma same_books_trans s1 s2 s3 : same_books s1 s2 -> same_books s2 s3 -> same_books s1 s3.
Proof.
  intros (A1 & B1 & C1) (A2 & B2 & C2). split; [congruence|]. split; [congruence|]. intros p i c3 G3.
  destruct (C2 _ _ _ G3) as (c2 & G2 & ? & ?). destruct (C1 _ _ _ G2) as (c1 & G1 & ? & ?). exists c1. split; [done|]. split; congruence.
Qed.
Lemma same_books_unused t s s' : same_books s s' -> unused t s -> unused t s'.
Proof.
  intros (_ & Hc & Hb) [Hu Hx]. split; [|by rewrite Hc]. intros p i c' Hi. destruct (Hb _ _ _ Hi) as (c & Hc0 & -> & _). by eapply Hu.
Qed.
Lemma same_books_counting s s' : same_books s s' -> counting s -> counting s'.
Proof. intros (_ & _ & Hb) Hs p i c' Hi. destruct (Hb _ _ _ Hi) as (c & Hc & _ & ->). by eapply Hs. Qed.

Lemma history_books h s : same_books s (set_history h s).
Proof. split; [done|]. split; [done|]. intros p i c Hc. by exists c. Qed.

(** One slot more, with the drawn lease on the chosen account and on the stack. *)
Definition one_more (id : string) (ch : choice) (s s' : selector) : Prop :=
  slots s' = slots s + 1 /\ sl_ctx s' = sl_ctx s ++ [id] /\
  exists c, account_at (cn_provider ch) (cn_index ch) s' = Some c /\ is_Some (current_limit_lease (sl_ctx s') c).

Lemma put_books p i c c' s ctx w h k a :
  account_at p i s = Some c -> ac_leases c' = ac_leases c -> ac_in_flight c' = ac_in_flight c -> ctx = sl_ctx s ->
  same_books s (put_account p i c' (Selector (sl_sites s) w h k a ctx)).
Proof.
  intros Hc Hl Hf ->. set (s1 := Selector _ _ _ _ _ _).
  assert (account_at p i s1 = Some c) as Hc1 by done.
  split; [rewrite (slots_put p i c c' s1) by done; rewrite Hf; unfold slots; simpl; lia|].
  split; [unfold put_account; by destruct (dict_get p (sl_sites s1))|].
  intros p' i' c0. rewrite account_put by (by eexists). case_decide as Hd; [destruct Hd as [-> ->]; intros [= <-]; by exists c | intros Hc0; by exists c0].
Qed.

Lemma try_reserve_books t ch s (e : renv R) o s' e' :
  _try_reserve conf utc_offset boot_id rm t ch s e = (Ret (o, s'), e') -> unused t s -> counting s ->
  match o with Some (true, _) => one_more (lease_of t) ch s s' | _ => same_books s s' end.
Proof.
  unfold _try_reserve, get_world. erewrite ST_bind_ret by done. intros Hrun [Hu Hx] Hcount.
  destruct (account_at (cn_provider ch) (cn_index ch) s) as [c|] eqn:Ec; [|done].
  apply ST_bind_inv in Hrun as ([[r c1] ctx] & s1 & e1 & Hz & Hrun). unfold zoom in Hz.
  destruct (reserve_with_decision _ _ _ _ _ _ _ _ _ e) as [[[[[r0 c0] ctx0] w0]|] e0] eqn:Er; [|done]. injection Hz as -> -> -> <- <-.
  erewrite ST_bind_ret in Hrun by done.
  assert (is_Some (account_at (cn_provider ch) (cn_index ch) s)) as Hsome by (by eexists).
  pose proof Er as Hal. unfold reserve_with_decision in Hal. apply ST_bind_inv in Hal as ([r2 c2] & w2 & e2 & Hacq & Hal).
  apply acquire_allowed in Hacq.
  assert (forall rr, r = Some rr -> lr_allowed rr = bool_decide (is_Some (lr_lease rr))) as Hallowed.
  { intros rr Hrr. revert Hal. destruct (lr_lease r2) as [l2|] eqn:El2; [|intros [= <- _ _ _ _]; injection Hrr as <-; by rewrite El2].
    match goal with |- context [if ?b then _ else _] => destruct b end; [intros [= <- _ _ _ _]; injection Hrr as <-; done|].
    match goal with |- context [if ?b then _ else _] => destruct b end; [intros [= <- _ _ _ _]; injection Hrr as <-; by rewrite El2|].
    destruct (detach_account_lease_locked _ _) as [dl dc]. intros Hal. apply ST_bind_inv in Hal as (? & ? & ? & _ & Hal).
    injection Hal as <- _ _ _ _. done. }
  clear Hal Hacq r2 c2 w2 e2.
  apply slots_balanced in Er; [|exact (Hu _ _ _ Ec) | exact Hx | exact (Hcount _ _ _ Ec)].
  destruct r as [r|].
  - erewrite ST_bind_ret in Hrun by done. simpl in Er. rewrite (Hallowed r eq_refl) in Hrun.
    destruct (lr_lease r) as [l|] eqn:El.
    + rewrite bool_decide_eq_true_2 in Hrun by (by eexists). destruct Er as (Hf & Hctx & Hcur & _). simpl in Hf.
      destruct (note_reserved rm (pi_now t) ch c1 (set_ctx ctx (set_sl_world w0 s))) as [c3 s3] eqn:En.
      erewrite ST_bind_ret in Hrun by done. injection Hrun as <- <- <-.
      assert (sl_sites s3 = sl_sites s /\ sl_ctx s3 = ctx /\ ac_in_flight c3 = ac_in_flight c1 /\ ac_leases c3 = ac_leases c1) as (Hs3 & Hc3 & Hf3 & Hl3).
      { unfold note_reserved in En. destruct (rm_bypass rm); injection En as <- <-; done. }
      assert (forall p i, account_at p i s3 = account_at p i s) as Hat by (intros p i; unfold account_at; by rewrite Hs3).
      split; [|split].
      * rewrite (slots_put _ _ c) by (by rewrite Hat). simpl. rewrite Hf3, Hf.
        assert (slots s3 = slots s) as -> by (unfold slots; by rewrite Hs3). lia.
      * transitivity (sl_ctx s3); [unfold put_account; by case_match | congruence].
      * eexists. rewrite account_put by (by rewrite Hat). rewrite decide_True by done. split; [done|].
        assert (sl_ctx (put_account (cn_provider ch) (cn_index ch) (set_is_test false c3) s3) = ctx) as -> by (unfold put_account; by case_match).
        exists l. unfold current_limit_lease in Hcur |- *. destruct (last ctx); [|done]. simpl. by rewrite Hl3.
    + rewrite bool_decide_eq_false_2 in Hrun by (by intros [? ?]). destruct Er as [[Hf Hl Hlim Hun] Hctx].
      erewrite ST_bind_ret in Hrun by done. injection Hrun as <- <- <-.
      exact (put_books _ _ c (set_is_test false c1) s ctx w0 _ _ _ Ec Hl Hf Hctx).
  - erewrite ST_bind_ret in Hrun by done. injection Hrun as <- <- <-. simpl in Er. destruct Er as [[Hf Hl Hlim Hun] Hctx].
    exact (put_books _ _ c (set_is_test false c1) s ctx w0 _ _ _ Ec Hl Hf Hctx).
Qed.

Lemma loop_books inputs fuel i cs reasons refused0 s (e : renv R) r reasons' refused s' e' :
  selection_loop conf utc_offset boot_id sn rm inputs fuel i cs reasons refused0 s e = (Ret ((r, reasons', refused), s'), e') ->
  (forall k, unused (inputs k) s) -> counting s ->
  match r with Selected ch => exists k, one_more (lease_of (inputs k)) ch s s' | _ => same_books s s' end.
Proof.
  assert (forall s, same_books s s) as Hrefl by (intros s0; split; [done|]; split; [done|]; intros p k c Hc; by exists c).
  revert i cs reasons refused0 s e. induction fuel as [|fuel IH]; intros i cs reasons refused0 s e Hrun Hu Hc.
  - destruct cs; by injection Hrun as <- <- <- <- <-.
  - destruct cs as [|c0 cs']; [by injection Hrun as <- <- <- <- <-|]. cbn [selection_loop] in Hrun. set (cs := c0 :: cs') in *.
    destruct (negb (rm_bypass rm) && pi_late (inputs i)); [by injection Hrun as <- <- <- <- <-|].
    apply ST_bind_inv in Hrun as (c & s1 & e1 & Hpick & Hrun). unfold pick, get_world in Hpick. erewrite ST_bind_ret in Hpick by done.
    destruct (select _ _ _ _ _ _) as [r0 h]. erewrite ST_bind_ret in Hpick by done. injection Hpick as Hr0 <- <-.
    pose proof (history_books h s) as Hb.
    destruct c as [ch|]; [|by injection Hrun as <- <- <- <- <-].
    apply ST_bind_inv in Hrun as (o & s2 & e2 & Htry & Hrun).
    apply try_reserve_books in Htry; [|exact (same_books_unused _ _ _ Hb (Hu _)) | exact (same_books_counting _ _ Hb Hc)].
    destruct o as [[[] dec]|].
    + injection Hrun as <- <- <- <- <-. exists i. destruct Htry as (G1 & G2 & G3). split; [|split; [|done]]; by rewrite ?G1, ?G2.
    + pose proof (same_books_trans _ _ _ Hb Htry) as Hb2. apply IH in Hrun;
        [|intros k; exact (same_books_unused _ _ _ Hb2 (Hu k)) | exact (same_books_counting _ _ Hb2 Hc)].
      destruct r as [ch'| |]; [|exact (same_books_trans _ _ _ Hb2 Hrun)..].
      destruct Hb2 as (A & B & _), Hrun as (k & G1 & G2 & G3). exists k. split; [by rewrite G1, A|]. split; [by rewrite G2, B | done].
    + injection Hrun as <- <- <- <- <-. exact (same_books_trans _ _ _ Hb Htry).
Qed.

(** Whatever the accounts, the strategy and Redis answer, a selection holds exactly
    one concurrency slot more when it selected an account, under a lease that is
    the account's and the task's current one, and none more otherwise: refused
    candidates, and one whose reservation raised afterwards, hold nothing. *)
Theorem selection_holds_one_slot inputs cs reasons s (e : renv R) r reasons' refused s' e' :
  _select_and_reserve_candidates conf utc_offset boot_id sn rm inputs cs reasons s e = (Ret ((r, reasons', refused), s'), e') ->
  (forall k, unused (inputs k) s) -> counting s ->
  match r with Selected ch => exists k, one_more (lease_of (inputs k)) ch s s' | _ => same_books s s' end.
Proof. intros Hrun Hu Hc. by eapply loop_books. Qed.
End slots.

(** ** A concrete selection *)

Module RoutingSample.
Import Sample ManagerSample SelectionSample.

Definition fixed_dice : dice :=
  Dice (fun l => l) (fun l => l) (fun _ => 0%nat) (fun _ => true) false (fun _ l => head l).
Lemma fixed_fair : fair fixed_dice.
Proof. split; [done | done | by intros n ? |]. intros b [|c l]; [done|]. exists c. split; [done | left]. Qed.

Definition chosen (channel : string) (i : nat) (user : string) (prio weight : Z) : choice :=
  Choice channel i user "m" "m" prio weight "openai" true false None [].
Definition three : list choice := [chosen "a" 0 "u1" 1 5; chosen "a" 1 "u2" 1 9; chosen "b" 0 "u3" 2 1].

(** The channel used last is left out although its priority is better. *)
Lemma sequential_in_order_witness :
  (select no_catalogue now fixed_dice SEQUENTIAL three [(now, "a")]).1 = Some (chosen "b" 0 "u3" 2 1) /\
  exists c, (select no_catalogue now fixed_dice SEQUENTIAL three []).1 = Some c /\ c ∈ three /\ cn_account c = "u2".
Proof.
  split; [by vm_compute|].
  destruct (sequential_in_order no_catalogue now fixed_dice three [] ltac:(done)) as (c & Hc & Hin & _ & _).
  exists c. split; [exact Hc|]. split; [exact Hin|]. vm_compute in Hc. by injection Hc as <-.
Defined.

(** The account preferred has the model frozen; the second is reserved. *)
Definition drawn (i : nat) : pick_input :=
  PickInput false now fixed_dice (true, "") true (if (i =? 0)%nat then "f00d" else "beef").
Definition idle_state : selector := Selector sites w0 [] [] [] [].
Definition in_order : reserve_mode := ReserveMode false SEQUENTIAL (fun _ => 0) false.
Abbreviation selection := (_select_and_reserve_candidates conf off "boot" no_catalogue in_order drawn three [] idle_state).
Definition ran := outcome ((NotSelected, [], []), idle_state) selection e0.

Lemma run_returns : selection e0 = (Ret ((ran.1.1.1, ran.1.1.2, ran.1.2), ran.2), (selection e0).2).
Proof.
  unfold ran. rewrite (outcome_eq ((NotSelected, [], []), idle_state)) at 1 by (by vm_compute).
  by rewrite <- !surjective_pairing.
Qed.

Lemma drawn_unused k : unused "boot" (drawn k) idle_state.
Proof.
  split; [|by intros ?%not_elem_of_nil]. intros p i c. unfold account_at, idle_state, sites. simpl.
  repeat (case_decide || case_match); simpl; try done; intros Hc; apply list_elem_of_lookup_2 in Hc; by set_solver.
Qed.
Lemma counting_state : counting idle_state.
Proof.
  intros p i c. unfold account_at, idle_state, sites. simpl.
  repeat (case_decide || case_match); simpl; try done; intros Hc; apply list_elem_of_lookup_2 in Hc; by set_solver.
Qed.

Lemma selection_complete_witness :
  ran.1.1.1 = Selected (chosen "a" 0 "u1" 1 5) /\ (fun x => (cn_account x.1, x.2)) <$> ran.1.2 = [("u2", "account_model_cooldown")] /\
  loop_outcome in_order drawn 0 three [] ran.1.1.1 ran.1.1.2 ran.1.2.
Proof.
  split; [by vm_compute|]. split; [by vm_compute|].
  exact (selection_complete conf off "boot" no_catalogue in_order drawn three [] idle_state e0 _ _ _ _ _ (fun _ => fixed_fair) run_returns).
Defined.

Lemma selection_holds_one_slot_witness :
  match ran.1.1.1 with
  | Selected ch => exists k, one_more (lease_name "boot" (pi_hex (drawn k))) ch idle_state ran.2
  | _ => same_books idle_state ran.2
  end.
Proof.
  exact (selection_holds_one_slot conf off "boot" no_catalogue in_order drawn three [] idle_state e0 _ _ _ _ _ run_returns
           drawn_unused counting_state).
Defined.
End RoutingSample.
