(* ===== verification/AcquireProps.v ===== *)
(** Acquiring an account, end to end: whatever the path (dedicated route, member of
    a group, group, model with fallback schemes), the strategy and Redis answer, the
    account returned is one the request admits, and one concurrency slot is held
    exactly when an account is returned.  Also the business codes of the errors. *)
From S2P Require Import Prelude Redis MapRedis Client State Json Text TextFacts Windows Rules Account AccountProps Policy Pool.
From S2P Require Import Manager ManagerProps ReservationProps Ranking Catalog Selection SelectionProps Routing RoutingProps Acquire.

(** ** Channels related account by account *)

Section sites_rel.
Variable P : account_client -> account_client -> Prop.
Record site_rel (s s' : site) : Prop := {
  sr_channel : st_channel s' = st_channel s;
  sr_enabled : pl_enabled (st_pool s') = pl_enabled (st_pool s);
  sr_clients : Forall2 P (pl_clients (st_pool s)) (pl_clients (st_pool s'));
}.
Definition sites_rel (l l' : list (string * site)) : Prop := Forall2 (fun ps ps' => ps'.1 = ps.1 /\ site_rel ps.2 ps'.2) l l'.

#[export] Instance site_rel_preorder `{!PreOrder P} : PreOrder site_rel.
Proof.
  split; [by intros s; split|]. intros s1 s2 s3 [C1 E1 F1] [C2 E2 F2]. split; [congruence..|]. by etransitivity.
Qed.
#[export] Instance sites_rel_preorder `{!PreOrder P} : PreOrder sites_rel.
Proof.
  split; [intros l; induction l; constructor; [by split | done]|].
  intros l1 l2 l3 F1. revert l3. induction F1 as [|a b l1 l2 [E1 S1] F1 IH]; intros l3 F2; inversion F2 as [|? c ? l3' [E2 S2]]; subst; constructor;
    [|by apply IH]. split; [congruence|]. by etransitivity.
Qed.

Lemma put_rel `{!PreOrder P} p i c c' s : account_at p i s = Some c -> P c c' -> sites_rel (sl_sites s) (sl_sites (put_account p i c' s)).
Proof.
  unfold account_at, put_account. destruct (dict_get p (sl_sites s)) as [st|] eqn:Ep; simpl; [|done]. intros Hi HP.
  revert Ep. induction (sl_sites s) as [|[p' st'] l IH]; simpl; [done|]. case_decide as Hp.
  - intros [= ->]. constructor; [|reflexivity]. split; [done|]. split; [done..|]. simpl.
    apply Forall2_same_length_lookup_2; [by rewrite length_insert|]. intros j x y Hx Hy.
    destruct (decide (i = j)) as [->|Hij]; [|rewrite list_lookup_insert_ne in Hy by done; by simplify_eq].
    rewrite list_lookup_insert_eq in Hy by (by eapply lookup_lt_Some). by simplify_eq.
  - intros Ep. constructor; [by split | by apply IH].
Qed.
End sites_rel.

Lemma sites_rel_impl (P Q : account_client -> account_client -> Prop) l l' :
  (forall c c', P c c' -> Q c c') -> sites_rel P l l' -> sites_rel Q l l'.
Proof.
  intros HPQ Hl. eapply Forall2_impl; [exact Hl|]. intros ps ps' [? [? ? Hf]]. split; [done|]. split; [done..|]. by eapply Forall2_impl.
Qed.

Definition same_user (c c' : account_client) : Prop := ac_username c' = ac_username c.
#[export] Instance same_user_preorder : PreOrder same_user.
Proof. split; [by intros c|]. intros c1 c2 c3. unfold same_user. congruence. Qed.
(** The same channels and accounts, in whatever state. *)
Abbreviation layout := (sites_rel same_user).

(** ** Collecting, whatever the state of the accounts *)

Section collect.
Variables (adapter_of : string -> string -> adapter) (sn : snapshot) (now : Z) (cr : criteria).

(** The part of an account's qualification that no state changes. *)
Record welcome (m p u : string) : Prop := {
  wc_operation : _provider_supports_operation (adapter_of p u) (cr_operation cr) = true;
  wc_system : ad_supports_system_model (adapter_of p u) m = true;
  wc_route : forall allowed, route_allowed_accounts cr p = Some allowed -> u ∈ allowed;
  wc_listed : cr_accounts cr = [] \/ u ∈ cr_accounts cr;
  wc_fresh : (p, u) ∉ cr_exclude cr;
}.

(** A candidate the request admits on these channels. *)
Definition admitted (l : list (string * site)) (m : string) (ch : choice) : Prop :=
  cn_model ch = m /\ welcome m (cn_provider ch) (cn_account ch) /\
  exists s r c, (cn_provider ch, s) ∈ l /\ r ∈ model_rows cr m s /\ row_open sn cr m (cn_provider ch) s r /\
    pl_clients (st_pool s) !! cn_index ch = Some c /\ ac_username c = cn_account ch.

Lemma admitted_layout l l' m ch : layout l l' -> admitted l' m ch -> admitted l m ch.
Proof.
  intros Hl (Hm & Hw & s' & r & c' & Hs & Hr & Ho & Hc & Hu). split; [done|]. split; [done|].
  apply list_elem_of_lookup in Hs as [i Hi]. destruct (Forall2_lookup_r _ _ _ _ _ Hl Hi) as ([p s] & Hi' & [Hp [Ech Een Hf]]). simpl in *.
  destruct (Forall2_lookup_r _ _ _ _ _ Hf Hc) as (c & Hc' & Huc). exists s, r, c. rewrite Hp. split; [by eapply list_elem_of_lookup_2|].
  split; [unfold model_rows in *; by rewrite <- Ech|]. rewrite <- Hp. split; [|split; [done|]; unfold same_user in Huc; congruence].
  destruct Ho as [O1 O2 O3 O4 O5 O6]. split; try done; by rewrite <- ?Ech, <- ?Een.
Qed.

Lemma state_slots c : same_slots c (state now c).2.
Proof.
  unfold state. repeat case_match; simplify_eq/=; try done.
  all: match goal with H : frozen_model_ids _ _ = (_, ?c') |- _ => injection H as _ <- end; done.
Qed.

Lemma account_skipped_spec a m p c : let '(why, c') := account_skipped now a cr m p c in
  same_slots c c' /\ (why = None -> adapter_of p (ac_username c) = a -> welcome m p (ac_username c)).
Proof.
  pose proof (state_slots c) as Hs. unfold account_skipped.
  destruct (_provider_supports_operation a (cr_operation cr)) eqn:E1; [|done].
  destruct (ad_supports_system_model a m) eqn:E2; [|done]. cbn [negb].
  destruct (match route_allowed_accounts cr p with Some _ => _ | None => _ end) eqn:E3; [done|].
  assert (forall allowed, route_allowed_accounts cr p = Some allowed -> ac_username c ∈ allowed) as Hr.
  { intros allowed Ha. rewrite Ha in E3. by apply negb_false_iff, bool_decide_eq_true in E3. }
  destruct (nonempty _ && _) eqn:E4; [done|].
  assert (cr_accounts cr = [] \/ ac_username c ∈ cr_accounts cr) as Hl.
  { apply andb_false_iff in E4 as [E4|E4]; [left; by apply nonempty_false | right; by apply negb_false_iff, bool_decide_eq_true in E4]. }
  clear E3 E4. case_bool_decide as E5; [done|].
  assert (adapter_of p (ac_username c) = a -> welcome m p (ac_username c)) as Hw by (intros <-; by split).
  destruct (state now c) as [st c']. simpl in Hs. repeat case_match; simplify_eq; done.
Qed.

Lemma collect_accounts_spec m p s r i cs : row_open sn cr m p s r ->
  let '(fd, cs') := collect_accounts adapter_of now cr m p s r i cs in
  Forall2 same_slots cs cs' /\
  forall ch, ch ∈ fd_choices fd -> cn_model ch = m /\ cn_provider ch = p /\ welcome m p (cn_account ch) /\
    exists j c, cs !! j = Some c /\ cn_index ch = (i + j)%nat /\ ac_username c = cn_account ch.
Proof.
  intros Ho. revert i. induction cs as [|c cs IH]; intros i; simpl; [split; [done | by intros ch ?%not_elem_of_nil]|].
  pose proof (account_skipped_spec (adapter_of p (ac_username c)) m p c) as Hc.
  destruct (account_skipped _ _ _ _ _ c) as [why c']. destruct Hc as [Hs Hw].
  specialize (IH (S i)). destruct (collect_accounts _ _ _ _ _ _ _ (S i) cs) as [fd cs']. destruct IH as [Hf Hin].
  split; [by constructor|]. simpl. intros ch [Hch|Hch]%elem_of_app.
  - destruct why; simpl in Hch; [by apply not_elem_of_nil in Hch|]. apply list_elem_of_fmap in Hch as (ep & -> & _). simpl.
    rewrite (sl_username _ _ Hs). split; [done|]. split; [done|]. split; [by apply Hw|]. exists 0%nat, c. by rewrite Nat.add_0_r.
  - destruct (Hin ch Hch) as (? & ? & ? & j & c0 & Hj & Hi & ?). do 3 (split; [done|]). exists (S j), c0. split; [done|]. split; [lia | done].
Qed.

Lemma collect_rows_spec m p rows s : rows ⊆ model_rows cr m s ->
  let '(fd, s') := collect_rows adapter_of sn now cr m p rows s in
  site_rel same_slots s s' /\ forall ch, ch ∈ fd_choices fd -> cn_provider ch = p /\ admitted [(p, s)] m ch.
Proof.
  revert s. induction rows as [|r rows IH]; intros s Hsub; simpl; [split; [done | by intros ch ?%not_elem_of_nil]|].
  assert (let '(fd, s1) := collect_row adapter_of sn now cr m p r s in
    site_rel same_slots s s1 /\ forall ch, ch ∈ fd_choices fd -> cn_provider ch = p /\ admitted [(p, s)] m ch) as Hrow.
  { unfold collect_row. destruct (row_skipped sn cr m p s r) eqn:Er; [split; [done | by intros ch ?%not_elem_of_nil]|].
    apply row_skipped_none in Er. pose proof (collect_accounts_spec m p s r 0 (pl_clients (st_pool s)) Er) as Hc.
    destruct (collect_accounts _ _ _ _ _ _ _ _ _) as [fd cs]. destruct Hc as [Hf Hin]. split; [by split|].
    intros ch Hch. destruct (Hin ch Hch) as (Hm & Hp & Hw & j & c & Hj & Hi & Hu). split; [done|]. unfold admitted. rewrite Hp.
    split; [done|]. split; [done|]. exists s, r, c. rewrite Hi. split; [left|]. split; [apply Hsub; left | done]. }
  destruct (collect_row _ _ _ _ _ _ r s) as [fd s1]. destruct Hrow as [Hs1 Hin1].
  specialize (IH s1). destruct (collect_rows _ _ _ _ _ _ rows s1) as [fds s2].
  assert (model_rows cr m s1 = model_rows cr m s) as Hmr by (unfold model_rows; by rewrite (sr_channel _ _ _ Hs1)).
  destruct IH as [Hs2 Hin2]; [rewrite Hmr; intros x Hx; apply Hsub; by right|]. split; [by etransitivity|].
  simpl. intros ch [Hch|Hch]%elem_of_app; [by apply Hin1|]. destruct (Hin2 ch Hch) as [Hp Ha]. split; [done|].
  eapply admitted_layout, Ha. apply (sites_rel_impl same_slots); [by intros ? ? []|]. constructor; [by split | constructor].
Qed.

Lemma collect_sites_spec m l :
  let '(fd, l') := collect_sites adapter_of sn now cr m l in
  sites_rel same_slots l l' /\ forall ch, ch ∈ fd_choices fd -> admitted l m ch.
Proof.
  induction l as [|[p s] l IH]; simpl; [split; [done | by intros ch ?%not_elem_of_nil]|].
  pose proof (collect_rows_spec m p (model_rows cr m s) s ltac:(done)) as Hr.
  destruct (collect_rows _ _ _ _ _ _ _ s) as [fd s']. destruct (collect_sites _ _ _ _ _ l) as [fds l'].
  destruct Hr as [Hs Hin], IH as [Hl Hin']. split; [by constructor|]. simpl. intros ch [Hch|Hch]%elem_of_app.
  - destruct (Hin ch Hch) as [_ (Hm & Hw & s0 & r & c & H0 & Hrest)]. apply list_elem_of_singleton in H0.
    split; [done|]. split; [done|]. exists s0, r, c. split; [rewrite H0; left | done].
  - destruct (Hin' ch Hch) as (Hm & Hw & s0 & r & c & H0 & Hrest). split; [done|]. split; [done|]. exists s0, r, c. split; [by right | done].
Qed.

Lemma collect_candidates_spec models l w :
  let '(fd, limited, (l', w')) := _collect_candidates adapter_of sn now cr models l w in
  sites_rel same_slots l l' /\ forall ch, ch ∈ fd_choices fd -> cn_model ch ∈ models /\ admitted l (cn_model ch) ch.
Proof.
  revert l w. induction models as [|m models IH]; intros l w; cbn [_collect_candidates]; [split; [done | by intros ch ?%not_elem_of_nil]|].
  set (here := if negb (has_rows cr m l) then _ else _).
  assert (let '(fd, limited, (l', w')) := here in sites_rel same_slots l l' /\ forall ch, ch ∈ fd_choices fd -> admitted l m ch) as Hhere.
  { unfold here. destruct (negb _); [split; [done | by intros ch ?%not_elem_of_nil]|].
    destruct (_is_model_tpm_cooling now m w) as [[] w1]; [split; [done | by intros ch ?%not_elem_of_nil]|].
    pose proof (collect_sites_spec m l) as Hc. by destruct (collect_sites _ _ _ _ m l) as [fd l']. }
  destruct here as [[fd limited] [l1 w1]]. destruct Hhere as [Hl Hin]. specialize (IH l1 w1).
  destruct (_collect_candidates _ _ _ _ models l1 w1) as [[fds limiteds] [l2 w2]]. destruct IH as [Hl' Hin'].
  split; [by etransitivity|]. simpl. intros ch [Hch|Hch]%elem_of_app.
  - pose proof (Hin ch Hch) as Ha. rewrite (proj1 Ha). by split; [left|].
  - destruct (Hin' ch Hch) as [Hm Ha]. split; [by right|]. eapply admitted_layout, Ha.
    by apply (sites_rel_impl same_slots); [intros ? ? []|].
Qed.
End collect.

(** ** What acquiring an account guarantees *)

Section runs.
Context {R : Type} `{RedisLaws R}.
Variables (conf : redis_conf) (utc_offset : Z -> Z) (boot_id : string) (sn : snapshot).

Lemma detach_user id c : same_user c (detach_account_lease_locked id c).2.
Proof. unfold detach_account_lease_locked. by repeat case_match; simplify_eq/=. Qed.

Lemma reserve_user now rq ok ctx c w (e : renv R) r c' ctx' w' e' :
  reserve_with_decision conf utc_offset boot_id now rq ok ctx c w e = (Ret ((r, c', ctx'), w'), e') -> same_user c c'.
Proof.
  unfold reserve_with_decision. intros Hrun. apply ST_bind_inv in Hrun as ([r1 c1] & w1 & e1 & Ea & Hrun).
  apply acquire_slots in Ea as [Hs _]. apply sl_username in Hs.
  assert (forall l, same_user c (push_lease now l c1)) as Hp by (intros l; unfold same_user, push_lease; rewrite <- Hs; by destruct (ac_is_test c1)).
  revert Hrun. destruct (lr_lease r1) as [l|]; [|by intros [= <- <- <- <- <-]].
  match goal with |- context [if ?b then _ else _] => destruct b end; [by intros [= <- <- <- <- <-]|].
  match goal with |- context [if ?b then _ else _] => destruct b end; [by intros [= <- <- <- <- <-]|].
  pose proof (detach_user (Some (ll_lease_id l)) (push_lease now l c1)) as Hd.
  destruct (detach_account_lease_locked _ _) as [dl dc]. intros Hrun. apply ST_bind_inv in Hrun as (? & ? & ? & _ & Hrun).
  injection Hrun as <- <- <- <- <-. by etransitivity; [apply (Hp l)|].
Qed.

Lemma try_reserve_layout rm t ch s (e : renv R) o s' e' :
  _try_reserve conf utc_offset boot_id rm t ch s e = (Ret (o, s'), e') -> layout (sl_sites s) (sl_sites s').
Proof.
  unfold _try_reserve, get_world. erewrite ST_bind_ret by done. intros Hrun.
  destruct (account_at (cn_provider ch) (cn_index ch) s) as [c|] eqn:Ec; [|done].
  apply ST_bind_inv in Hrun as ([[r c1] ctx] & s1 & e1 & Hz & Hrun). unfold zoom in Hz.
  destruct (reserve_with_decision _ _ _ _ _ _ _ _ _ e) as [[[[[r0 c0] ctx0] w0]|] e0] eqn:Er; [|done]. injection Hz as -> -> -> <- <-.
  apply reserve_user in Er. erewrite ST_bind_ret in Hrun by done.
  assert (forall c2 s2, sl_sites s2 = sl_sites s -> same_user c1 c2 ->
    layout (sl_sites s) (sl_sites (put_account (cn_provider ch) (cn_index ch) c2 s2))) as Hput.
  { intros c2 s2 Hs2 Hu. rewrite <- Hs2. apply (put_rel _ _ _ c); [unfold account_at in *; by rewrite Hs2|]. by etransitivity; [exact Er|]. }
  destruct r as [r|].
  - erewrite ST_bind_ret in Hrun by done.
    destruct (if lr_allowed r then _ else _) as [c2 s2] eqn:En. injection Hrun as <- <- <-.
    assert (sl_sites s2 = sl_sites s /\ same_user c1 c2) as [Hs2 Hu].
    { unfold note_reserved in En. destruct (lr_allowed r), (rm_bypass rm); by injection En as <- <-. }
    by apply Hput.
  - erewrite ST_bind_ret in Hrun by done. injection Hrun as <- <- <-. by apply Hput.
Qed.

Lemma loop_layout rm inputs fuel i cs reasons refused0 s (e : renv R) res s' e' :
  selection_loop conf utc_offset boot_id sn rm inputs fuel i cs reasons refused0 s e = (Ret (res, s'), e') ->
  layout (sl_sites s) (sl_sites s').
Proof.
  revert i cs reasons refused0 s e. induction fuel as [|fuel IH]; intros i cs reasons refused0 s e Hrun.
  { by destruct cs; injection Hrun as <- <- <-. }
  destruct cs as [|c0 cs']; [by injection Hrun as <- <- <-|]. cbn [selection_loop] in Hrun. set (cs := c0 :: cs') in *.
  destruct (negb (rm_bypass rm) && pi_late (inputs i)); [by injection Hrun as <- <- <-|].
  apply ST_bind_inv in Hrun as (c & s1 & e1 & Hpick & Hrun). unfold pick, get_world in Hpick. erewrite ST_bind_ret in Hpick by done.
  destruct (select _ _ _ _ _ _) as [r0 h]. erewrite ST_bind_ret in Hpick by done. injection Hpick as Hr0 <- <-.
  destruct c as [ch|]; [|by injection Hrun as <- <- <-].
  apply ST_bind_inv in Hrun as (o & s2 & e2 & Htry & Hrun). apply try_reserve_layout in Htry. simpl in Htry.
  destruct o as [[[] dec]|]; [by injection Hrun as <- <- <- | | by injection Hrun as <- <- <-].
  apply IH in Hrun. by etransitivity.
Qed.

(** Channels that differ in freezes only hold the same books. *)
Lemma books_rel l w s : sites_rel same_slots (sl_sites s) l -> same_books s (set_sl_world w (set_sites l s)).
Proof.
  intros Hl. split; [|split; [done|]].
  - unfold slots. simpl. induction Hl as [|ps ps' l1 l2 [_ [_ _ Hf]] _ IH]; simpl; [done|]. rewrite IH. f_equal. unfold site_slots.
    clear IH. induction Hf as [|c c' cs cs' Hc _ IH]; simpl; [done|]. by rewrite IH, (sl_in_flight _ _ Hc).
  - intros p i c'. unfold account_at. simpl. induction Hl as [|[p1 s1] [p2 s2] l1 l2 [Hp [_ _ Hf]] _ IH]; simpl; [done|].
    simpl in Hp, Hf. subst p2. case_decide as Hd; [|done]. simpl. intros Hc'. destruct (Forall2_lookup_r _ _ _ _ _ Hf Hc') as (c & Hc & Hs).
    exists c. split; [done|]. by destruct Hs.
Qed.
End runs.

Section acquire.
Context {R : Type} `{RedisLaws R}.
Variables (conf : redis_conf) (utc_offset : Z -> Z) (boot_id : string) (py_str : json -> string).
Variables (adapter_of : string -> string -> adapter) (sn : snapshot) (q : selection_request) (g : nat -> stage_input).
Hypothesis Hfair : forall k i, fair (pi_dice (sg_picks (g k) i)).

(** One slot more, under an identifier some pick drew. *)
Definition slot_taken (ch : choice) (s s' : selector) : Prop :=
  exists k i, one_more (lease_name boot_id (pi_hex (sg_picks (g k) i))) ch s s'.
Definition fresh (s : selector) : Prop := (forall k i, unused boot_id (sg_picks (g k) i) s) /\ counting s.

Lemma fresh_books s s' : same_books s s' -> fresh s -> fresh s'.
Proof.
  intros Hb [Hu Hc]. split; [intros k i; exact (same_books_unused _ _ _ _ Hb (Hu k i)) | exact (same_books_counting _ _ Hb Hc)].
Qed.
Lemma slot_taken_books ch s1 s2 s3 : same_books s1 s2 -> slot_taken ch s2 s3 -> slot_taken ch s1 s3.
Proof. intros (A & B & _) (k & i & G1 & G2 & G3). exists k, i. split; [by rewrite G1, A|]. split; [by rewrite G2, B | done]. Qed.

(** A candidate some stage of the request admits: the filters of a group or a scheme
    and the entry of a route vary from stage to stage, the rest does not. *)
Definition fits (s : selector) (wl bl : list string) (entries : list route_entry) (models : list string) (ch : choice) : Prop :=
  cn_model ch ∈ models /\ exists tokens, admitted adapter_of sn (criteria_of q wl bl entries tokens) (sl_sites s) (cn_model ch) ch.
Lemma fits_layout s s' wl bl entries models ch : layout (sl_sites s) (sl_sites s') -> fits s' wl bl entries models ch -> fits s wl bl entries models ch.
Proof. intros Hl [Hm [tokens Ha]]. split; [done|]. exists tokens. by eapply admitted_layout. Qed.

Lemma fits_models s wl bl entries models models' ch : models ⊆ models' -> fits s wl bl entries models ch -> fits s wl bl entries models' ch.
Proof. intros Hs [Hm Ha]. split; [by apply Hs | done]. Qed.
Lemma one_model (m : string) models : [m] ⊆ m :: models.
Proof. intros x ->%list_elem_of_singleton. left. Qed.
Lemma more_models (m : string) models : models ⊆ m :: models.
Proof. intros x Hx. by right. Qed.

Lemma collect_spec now wl bl entries tokens models s (e : renv R) cs limited reasons s' e' :
  collect adapter_of sn now (criteria_of q wl bl entries tokens) models s e = (Ret ((cs, limited, reasons), s'), e') ->
  same_books s s' /\ layout (sl_sites s) (sl_sites s') /\ forall ch, ch ∈ cs -> fits s wl bl entries models ch.
Proof.
  unfold collect. pose proof (collect_candidates_spec adapter_of sn now (criteria_of q wl bl entries tokens) models (sl_sites s) (sl_world s)) as Hc.
  destruct (_collect_candidates _ _ _ _ _ _ _) as [[fd lim] [l w]]. destruct Hc as [Hl Hin]. intros [= <- <- <- <- <-].
  split; [by apply books_rel|]. split; [by apply (sites_rel_impl same_slots); [intros ? ? []|]|].
  intros ch Hch. destruct (Hin ch Hch). split; [done|]. by exists tokens.
Qed.

(** What a reservation among [cs] leaves. *)
Definition chose (cs : list choice) (r : selection_result) (s s' : selector) : Prop :=
  layout (sl_sites s) (sl_sites s') /\ match r with Selected ch => ch ∈ cs /\ slot_taken ch s s' | _ => same_books s s' end.

Lemma same_books_refl s : same_books s s.
Proof. split; [done|]. split; [done|]. intros p i c Hc. by exists c. Qed.

Lemma prepare_spec st k cs reasons s (e : renv R) r reasons' s' e' : fresh s ->
  prepare conf utc_offset boot_id sn q st (g k) cs reasons s e = (Ret ((r, reasons'), s'), e') -> chose cs r s s'.
Proof.
  intros [Hu Hc]. unfold prepare, _prepare_and_reserve. destruct cs as [|c0 cs'].
  { intros [= <- <- <- <-]. split; [done | apply same_books_refl]. }
  set (cs := c0 :: cs'). unfold get_world. erewrite ST_bind_ret by done. intros Hrun.
  apply ST_bind_inv in Hrun as ([[r0 reasons0] refused] & s1 & e1 & Hrun & Hret). injection Hret as <- <- <- <-.
  unfold _select_and_reserve_candidates in Hrun. split; [by eapply loop_layout|].
  pose proof Hrun as Hb. apply loop_books in Hb; [|intros i; apply Hu | done].
  apply selection_spec in Hrun as (news & -> & [_ _ _ Hr]); [|intros i; apply Hfair | done].
  destruct r0 as [ch| |]; [|done..]. split; [|destruct Hb as [i Hb]; by exists k, i].
  destruct Hr as [Hin _]. apply list_elem_of_filter in Hin as [_ Hin]. apply prefer_affinity_elem in Hin. by apply prefer_protocol_exact in Hin as [? _].
Qed.

(** What a stage leaves. *)
Definition staged wl bl entries models (r : selection_result) (s s' : selector) : Prop :=
  layout (sl_sites s) (sl_sites s') /\
  match r with Selected ch => fits s wl bl entries models ch /\ slot_taken ch s s' | _ => same_books s s' end.

Lemma stage_spec st k wl bl entries tokens models merged s (e : renv R) r limited cs merged' s' e' : fresh s ->
  stage conf utc_offset boot_id adapter_of sn q st (g k) (criteria_of q wl bl entries tokens) models merged s e =
    (Ret ((r, limited, cs, merged'), s'), e') -> staged wl bl entries models r s s'.
Proof.
  intros Hf. unfold stage. intros Hrun. apply ST_bind_inv in Hrun as ([[cs0 lim] reasons] & s1 & e1 & Hcol & Hrun).
  apply collect_spec in Hcol as (Hb & Hl & Hin). apply ST_bind_inv in Hrun as ([r0 merged0] & s2 & e2 & Hp & Hret).
  injection Hret as <- <- <- <- <- <-. apply prepare_spec in Hp as [Hl2 Hr]; [|by eapply fresh_books].
  split; [by etransitivity|]. destruct r0 as [ch| |]; [|by eapply same_books_trans..].
  destruct Hr as [Hch Hr]. split; [by apply Hin | by eapply slot_taken_books].
Qed.
(** ** The paths *)

(** A path so far: it goes on with the books as they were, or it ended. *)
Definition progress {X} (F : choice -> Prop) (s s' : selector) (x : acquired + X) : Prop :=
  layout (sl_sites s) (sl_sites s') /\
  match x with inl (Reserved ch) => F ch /\ slot_taken ch s s' | _ => same_books s s' end.

Lemma progress_after {X} (F F' : choice -> Prop) s s1 s' (x : acquired + X) :
  layout (sl_sites s) (sl_sites s1) -> same_books s s1 -> (forall ch, F' ch -> F ch) -> progress F' s1 s' x -> progress F s s' x.
Proof.
  intros Hl Hb HF [Hl' Hx]. split; [by etransitivity|]. destruct x as [[ch| | |]|]; try by eapply same_books_trans.
  destruct Hx as [Hch Hr]. split; [by apply HF | by eapply slot_taken_books].
Qed.

Lemma settle_progress {X} (F : choice -> Prop) wl bl entries models r s s1 :
  staged wl bl entries models r s s1 -> (forall ch, fits s wl bl entries models ch -> F ch) ->
  match settled r with
  | Some a => progress (X := X) F s s1 (inl a)
  | None => layout (sl_sites s) (sl_sites s1) /\ same_books s s1
  end.
Proof. intros [Hl Hr] HF. destruct r as [ch| |]; simpl; [|done..]. split; [done|]. destruct Hr. split; [by apply HF | done]. Qed.

Lemma entries_spec st k wl bl tokens models entries merged s (e : renv R) x s' e' : fresh s ->
  try_entries conf utc_offset boot_id adapter_of sn q st g k wl bl tokens models entries merged s e = (Ret (x, s'), e') ->
  progress (fun ch => exists en, en ∈ entries /\ fits s wl bl [en] models ch) s s' x.
Proof.
  revert k merged s e. induction entries as [|en entries IH]; intros k merged s e Hf Hrun.
  { injection Hrun as <- <- <-. split; [done | apply same_books_refl]. }
  cbn [try_entries] in Hrun. apply ST_bind_inv in Hrun as ([[[r lim] cs] merged1] & s1 & e1 & Hst & Hrun).
  apply stage_spec in Hst; [|done].
  pose proof (settle_progress (X := list (string * Z)) (fun ch => exists en', en' ∈ en :: entries /\ fits s wl bl [en'] models ch)
    _ _ _ _ _ _ _ Hst ltac:(intros ch Hch; exists en; split; [left | done])) as Hs.
  destruct (settled r) as [a|]; [by injection Hrun as <- <- <-|]. destruct Hs as [Hl Hb].
  apply IH in Hrun; [|by eapply fresh_books]. eapply progress_after; [done.. | | done].
  intros ch (en' & Hen & Hch). exists en'. split; [by right | by eapply fits_layout].
Qed.

Lemma members_spec k wl bl tokens members merged s (e : renv R) x s' e' : fresh s ->
  try_members conf utc_offset boot_id adapter_of sn q g k wl bl tokens members merged s e = (Ret (x, s'), e') ->
  progress (fits s wl bl [] members) s s' x.
Proof.
  revert k merged s e. induction members as [|m members IH]; intros k merged s e Hf Hrun.
  { injection Hrun as <- <- <-. split; [done | apply same_books_refl]. }
  cbn [try_members] in Hrun. apply ST_bind_inv in Hrun as ([[[r lim] cs] merged1] & s1 & e1 & Hst & Hrun).
  apply stage_spec in Hst; [|done].
  pose proof (settle_progress (X := list (string * Z)) (fits s wl bl [] (m :: members)) _ _ _ _ _ _ _ Hst
    (fun ch => fits_models _ _ _ _ _ _ ch (one_model m members))) as Hs.
  destruct (settled r) as [a|]; [by injection Hrun as <- <- <-|]. destruct Hs as [Hl Hb].
  apply IH in Hrun; [|by eapply fresh_books]. eapply progress_after; [done.. | | done].
  intros ch Hch. eapply fits_layout; [done|]. by eapply fits_models, Hch; apply more_models.
Qed.

Lemma nodes_spec st k tokens models nodes saw lim0 merged s (e : renv R) x s' e' : fresh s ->
  try_nodes conf utc_offset boot_id adapter_of sn q st g k tokens models nodes saw lim0 merged s e = (Ret (x, s'), e') ->
  progress (fun ch => exists n, n ∈ nodes /\ fits s n.1 n.2 [] models ch) s s' x.
Proof.
  revert k saw lim0 merged s e. induction nodes as [|[wl bl] nodes IH]; intros k saw lim0 merged s e Hf Hrun.
  { injection Hrun as <- <- <-. split; [done | apply same_books_refl]. }
  cbn [try_nodes] in Hrun. apply ST_bind_inv in Hrun as ([[[r lim] cs] merged1] & s1 & e1 & Hst & Hrun).
  apply stage_spec in Hst; [|done].
  pose proof (settle_progress (X := bool * list string * list (string * Z))
    (fun ch => exists n, n ∈ (wl, bl) :: nodes /\ fits s n.1 n.2 [] models ch) _ _ _ _ _ _ _ Hst
    ltac:(intros ch Hch; exists (wl, bl); split; [left | done])) as Hs.
  destruct (settled r) as [a|]; [by injection Hrun as <- <- <-|]. destruct Hs as [Hl Hb].
  apply IH in Hrun; [|by eapply fresh_books]. eapply progress_after; [done.. | | done].
  intros ch (n & Hn & Hch). exists n. split; [by right | by eapply fits_layout].
Qed.

Lemma gather_spec k wl bl tokens members s (e : renv R) cs limited merged s' e' :
  gather adapter_of sn q g k wl bl tokens members s e = (Ret ((cs, limited, merged), s'), e') ->
  same_books s s' /\ layout (sl_sites s) (sl_sites s') /\ forall ch, ch ∈ cs -> fits s wl bl [] members ch.
Proof.
  revert k s e cs limited merged. induction members as [|m members IH]; intros k s e cs limited merged Hrun.
  { injection Hrun as <- <- <- <- <-. split; [apply same_books_refl|]. split; [done|]. by intros ch ?%not_elem_of_nil. }
  cbn [gather] in Hrun. apply ST_bind_inv in Hrun as ([[cs0 lim0] reasons] & s1 & e1 & Hcol & Hrun).
  apply collect_spec in Hcol as (Hb & Hl & Hin). apply ST_bind_inv in Hrun as ([[css lims] merged1] & s2 & e2 & Hg & Hret).
  injection Hret as <- <- <- <- <-. apply IH in Hg as (Hb' & Hl' & Hin'). split; [by eapply same_books_trans|]. split; [by etransitivity|].
  intros ch [Hch|Hch]%elem_of_app; [eapply fits_models, Hin, Hch; apply one_model|].
  eapply fits_layout; [done|]. by eapply fits_models, Hin', Hch; apply more_models.
Qed.
(** ** Every path *)

Abbreviation grouped := (is_model_group sn (sq_model_id q)).
(** The models a request may be served with, and the channel filters it is under. *)
Definition served_models (sites : list (string * site)) : list string :=
  match sq_compression q with
  | [] => _candidate_models sn q grouped sites
  | l => filter (fun m => str_truthy m && has_model_route m sites = true) l
  end.
Definition model_filter : list string * list string :=
  if grouped then get_model_group_provider_filter sn (sq_model_id q) else get_real_model_provider_filter py_str sn (sq_model_id q).
Definition filters_asked : list (list string * list string) :=
  match sq_route q with
  | Some (_ :: _) => [model_filter]
  | _ => if grouped then [model_filter] else default [model_filter] (_real_model_filter_nodes py_str sn q grouped)
  end.
Definition passes (tags white black : list string) : Prop := (white = [] \/ meets tags white = true) /\ meets tags black = false.

(** The account of a candidate is one the request admits. *)
Record proper (s : selector) (ch : choice) : Prop := {
  pr_model : cn_model ch ∈ served_models (sl_sites s);
  pr_fresh : (cn_provider ch, cn_account ch) ∉ sq_exclude q;
  pr_listed : sq_account_whitelist q = [] \/ cn_account ch ∈ sq_account_whitelist q;
  pr_account : exists st c, (cn_provider ch, st) ∈ sl_sites s /\ pl_clients (st_pool st) !! cn_index ch = Some c /\
    ac_username c = cn_account ch /\ (sq_is_test q = false -> pl_enabled (st_pool st) = true) /\
    (sq_bypass q = false ->
      passes (ch_tags (st_channel st)) (sq_provider_whitelist q) (sq_provider_blacklist q) /\
      (sq_compression q = [] -> exists f, f ∈ filters_asked /\ passes (ch_tags (st_channel st)) f.1 f.2));
  pr_route : forall r entries, sq_route q = Some r -> r <> [] -> _route_entries py_str r = Some entries ->
    exists en, en ∈ entries /\ strip (en_provider en) = cn_provider ch /\ cn_account ch ∈ strip <$> en_accounts en;
}.

Lemma fits_proper s wl bl entries models ch : fits s wl bl entries models ch -> models ⊆ served_models (sl_sites s) ->
  (sq_compression q = [] -> (wl, bl) ∈ filters_asked) ->
  (forall r all, sq_route q = Some r -> r <> [] -> _route_entries py_str r = Some all ->
     exists en, entries = [en] /\ en ∈ all /\ str_truthy (strip (en_provider en)) = true) ->
  proper s ch.
Proof.
  intros [Hm (tokens & _ & [_ _ Wr Wl Wf] & st & r & c & Hst & _ & [_ _ Or Og Ok Oe] & Hc & Hu)] Hsub Hfil Hroute.
  split; [by apply Hsub | done | done | |].
  - exists st, c. do 4 (split; [done|]). intros Hb. change (cr_bypass _) with (sq_bypass q) in *. rewrite Hb in Ok. split; [done|].
    intros Hcomp. exists (wl, bl). split; [by apply Hfil | by apply Og].
  - intros r0 all Hr Hne Hall. destruct (Hroute _ _ Hr Hne Hall) as (en & -> & Hen & Ht). exists en. split; [done|].
    assert (entry_providers (criteria_of q wl bl [en] tokens) = [strip (en_provider en)]) as Hep
      by (unfold entry_providers; simpl; by rewrite filter_cons_True).
    rewrite Hep in Or. destruct Or as [Or|Or]; [done|]. apply list_elem_of_singleton in Or. split; [done|].
    unfold route_allowed_accounts in Wr. rewrite Hep, bool_decide_eq_false_2, bool_decide_eq_true_2 in Wr by (done || by apply list_elem_of_singleton).
    specialize (Wr _ eq_refl). simpl in Wr. rewrite filter_cons_True, filter_nil in Wr by done. simpl in Wr. rewrite app_nil_r in Wr.
    by apply list_elem_of_filter in Wr as [_ ?].
Qed.

Lemma entry_named d en : route_entry_of py_str d = Some (Some en) -> str_truthy (strip (en_provider en)) = true.
Proof.
  unfold route_entry_of. destruct (blank_or_text "provider" d) as [p|]; simpl; [|done].
  destruct (str_truthy (strip p)) eqn:Et; simpl; [|done]. destruct (_entry_accounts py_str d); simpl; [|done].
  intros [= <-]. simpl. by rewrite strip_idemp.
Qed.
Lemma entries_named l es : entries_of py_str l = Some es -> Forall (fun en => str_truthy (strip (en_provider en)) = true) es.
Proof.
  revert es. induction l as [|x l IH]; intros es; simpl; [by intros [= <-]|]. destruct x; try by apply IH.
  destruct (route_entry_of py_str d) as [[en|]|] eqn:Ee; simpl; [| |done]; destruct (entries_of py_str l) as [es'|]; simpl; try done.
  - intros [= <-]. constructor; [by eapply entry_named | by apply IH].
  - intros [= <-]. by apply IH.
Qed.
Lemma route_named r es en : _route_entries py_str r = Some es -> en ∈ es -> str_truthy (strip (en_provider en)) = true.
Proof.
  assert (match route_entry_of py_str r with Some (Some e) => Some [e] | Some None => Some [] | None => None end = Some es ->
    en ∈ es -> str_truthy (strip (en_provider en)) = true) as Hone.
  { destruct (route_entry_of py_str r) as [[e|]|] eqn:Ee; [|by intros [= <-] ?%not_elem_of_nil | done].
    intros [= <-] ->%list_elem_of_singleton. by eapply entry_named. }
  unfold _route_entries. destruct (dict_get "entries" r) as [[]|]; try exact Hone. destruct l as [|x l]; [exact Hone|].
  intros Hes%entries_named Hen. rewrite Forall_forall in Hes. by apply Hes.
Qed.
(** What a request for an account leaves: the channels and accounts are the same
    ones, and one slot is held exactly when an account is returned, a proper one. *)
Definition sound (s s' : selector) (a : acquired) : Prop :=
  layout (sl_sites s) (sl_sites s') /\ match a with Reserved ch => proper s ch /\ slot_taken ch s s' | _ => same_books s s' end.

Lemma progress_sound {X} (F : choice -> Prop) (fail : X -> acquired) s s' (x : acquired + X) :
  progress F s s' x -> (forall ch, F ch -> proper s ch) -> (forall y, match fail y with Reserved _ => False | _ => True end) ->
  sound s s' (match x with inl a => a | inr y => fail y end).
Proof.
  intros [Hl Hx] HF Hfail. split; [done|]. destruct x as [[ch| | |]|y]; [destruct Hx; split; [by apply HF | done] | done..|].
  specialize (Hfail y). by destruct (fail y).
Qed.

Lemma route_sound st wl bl tokens models entries s (e : renv R) a s' e' r : fresh s ->
  acquire_route conf utc_offset boot_id adapter_of sn q st g wl bl tokens models entries s e = (Ret (a, s'), e') ->
  sq_route q = Some r -> _route_entries py_str r = Some entries -> models ⊆ served_models (sl_sites s) ->
  (sq_compression q = [] -> (wl, bl) ∈ filters_asked) -> sound s s' a.
Proof.
  unfold acquire_route. intros Hf Hrun Hr Hes Hm Hfil. apply ST_bind_inv in Hrun as (x & s1 & e1 & Hrun & Hret).
  apply entries_spec in Hrun; [|done]. injection Hret as <- <- <-.
  apply (progress_sound _ (fun merged => _raise_no_available q merged (route_prefix q entries) None None) _ _ _ Hrun); [|done].
  intros ch (en & Hen & Hch). eapply fits_proper; [exact Hch | done..|].
  intros r' all Hr' _ Hall. simplify_eq. exists en. split; [done|]. split; [done|]. by eapply route_named.
Qed.

Section unrouted.
Hypothesis Hno : forall r, sq_route q = Some r -> r = [].
Lemma fits_unrouted s wl bl entries models ch : fits s wl bl entries models ch -> models ⊆ served_models (sl_sites s) ->
  (sq_compression q = [] -> (wl, bl) ∈ filters_asked) -> proper s ch.
Proof. intros Hch Hm Hfil. eapply fits_proper; [done..|]. intros r all Hr Hne. by apply Hno in Hr. Qed.

Lemma member_sound order wl bl tokens models s (e : renv R) a s' e' : fresh s -> (forall l, order l ≡ₚ l) ->
  acquire_member conf utc_offset boot_id adapter_of sn q g order wl bl tokens models s e = (Ret (a, s'), e') ->
  models ⊆ served_models (sl_sites s) -> (sq_compression q = [] -> (wl, bl) ∈ filters_asked) -> sound s s' a.
Proof.
  unfold acquire_member. intros Hf Ho Hrun Hm Hfil. apply ST_bind_inv in Hrun as (x & s1 & e1 & Hrun & Hret).
  apply members_spec in Hrun; [|done]. injection Hret as <- <- <-.
  apply (progress_sound _ (fun merged => _raise_no_available q merged "" None None) _ _ _ Hrun); [|done].
  intros ch Hch. eapply fits_unrouted; [exact Hch | | done]. intros m Hin. apply Hm. by rewrite (Ho models) in Hin.
Qed.

Lemma group_sound st wl bl tokens models s (e : renv R) a s' e' : fresh s ->
  acquire_group conf utc_offset boot_id adapter_of sn q st g wl bl tokens models s e = (Ret (a, s'), e') ->
  models ⊆ served_models (sl_sites s) -> (sq_compression q = [] -> (wl, bl) ∈ filters_asked) -> sound s s' a.
Proof.
  unfold acquire_group. intros Hf Hrun Hm Hfil. apply ST_bind_inv in Hrun as ([[cs limited] merged] & s1 & e1 & Hg & Hrun).
  apply gather_spec in Hg as (Hb & Hl & Hin). destruct cs as [|c0 cs'].
  { injection Hrun as <- <- <-. split; [done|]. by destruct (all_limited _ _). }
  apply ST_bind_inv in Hrun as ([r merged1] & s2 & e2 & Hp & Hret). injection Hret as <- <- <-.
  apply prepare_spec in Hp as [Hl2 Hr]; [|by eapply fresh_books]. split; [by etransitivity|].
  destruct r as [ch| |]; simpl; [|by eapply same_books_trans..]. destruct Hr as [Hch Hr].
  split; [by eapply fits_unrouted; [apply Hin | |] | by eapply slot_taken_books].
Qed.

Lemma model_sound st tokens models nodes s (e : renv R) a s' e' : fresh s ->
  acquire_model conf utc_offset boot_id adapter_of sn q st g tokens models nodes s e = (Ret (a, s'), e') ->
  models ⊆ served_models (sl_sites s) -> (sq_compression q = [] -> nodes ⊆ filters_asked) -> sound s s' a.
Proof.
  unfold acquire_model. intros Hf Hrun Hm Hfil. apply ST_bind_inv in Hrun as (x & s1 & e1 & Hrun & Hret).
  apply nodes_spec in Hrun; [|done]. injection Hret as <- <- <-.
  assert (forall ch, (exists n, n ∈ nodes /\ fits s n.1 n.2 [] models ch) -> proper s ch) as HF.
  { intros ch ([wl bl] & Hn & Hch). eapply fits_unrouted; [exact Hch | done | intros Hc; by apply Hfil]. }
  destruct Hrun as [Hl Hx]. split; [done|]. destruct x as [[ch| | |]|[[[] lim] merged]]; try done; [|by destruct (all_limited _ _)].
  destruct Hx. split; [by apply HF | done].
Qed.
End unrouted.

(** C13: Whatever the path, the strategy, the state of the accounts and what Redis
    answers: when a request is given an account, the account belongs to an enabled
    channel that passes the filters of the API key and of the group or scheme, it is
    not one the request excluded, it is on the account list and in the dedicated
    route if there are such, and its model is one the request may be served with;
    then exactly one concurrency slot more is held, under a lease drawn for it.
    Otherwise no account holds more or less than before, and nothing is leased. *)
Theorem acquisition_sound order s (e : renv R) a s' e' : (forall l, order l ≡ₚ l) -> fresh s ->
  _get_available_client_with_provider conf utc_offset boot_id py_str adapter_of sn q g order s e = (Ret (a, s'), e') ->
  sound s s' a.
Proof.
  intros Ho Hf. unfold _get_available_client_with_provider, get_world. erewrite ST_bind_ret by done.
  assert (sound s s NoSuchModel /\ sound s s AcquireRaised) as [Hnone Hraised] by (split; (split; [done | apply same_books_refl])).
  destruct (_candidate_models sn q grouped (sl_sites s)) as [|m0 ms] eqn:Em; [by intros [= <- <- _]|]. set (models := m0 :: ms) in *.
  change (if grouped then get_model_group_provider_filter sn (sq_model_id q) else _) with model_filter.
  destruct model_filter as [wl bl] eqn:Emf.
  set (compressed := filter (fun m => str_truthy m && has_model_route m (sl_sites s) = true) (sq_compression q)).
  assert (sq_compression q <> [] -> served_models (sl_sites s) = compressed) as Hcomp
    by (unfold served_models, compressed; by destruct (sq_compression q)).
  destruct (match sq_compression q with [] => _ | _ => _ end) as [[[[[[is_group ms'] wl'] bl'] nodes] tokens] st] eqn:Ecfg.
  assert (ms' ⊆ served_models (sl_sites s) /\
    (sq_compression q = [] -> is_group = grouped /\ (wl', bl') = model_filter /\
       nodes = default [model_filter] (_real_model_filter_nodes py_str sn q grouped))) as [Hm Hcfg].
  { rewrite Emf. destruct (sq_compression q) as [|x l] eqn:Eq.
    - injection Ecfg as <- <- <- <- <- <- <-. split; [unfold served_models; by rewrite Eq, Em | done].
    - rewrite Hcomp by done. by destruct compressed; injection Ecfg as <- <- <- <- <- <- <-. }
  clear Ecfg.
  destruct (sq_route q) as [[|x r]|] eqn:Er.
  2: { destruct (_route_entries py_str _) as [es|] eqn:Ees; [|by intros [= <- <- _]]. simpl in Ees. intros Hrun.
       eapply route_sound; [done.. | ]. intros Hc. destruct (Hcfg Hc) as (_ & -> & _). unfold filters_asked. rewrite Er. left. }
  all: assert (forall r, sq_route q = Some r -> r = []) as Hno by (intros r Hr; rewrite Er in Hr; by simplify_eq).
  all: assert (sq_compression q = [] -> is_group = true -> (wl', bl') ∈ filters_asked) as Hg
    by (intros Hc Hgr; destruct (Hcfg Hc) as (Hgg & -> & _); unfold filters_asked; rewrite Er, <- Hgg, Hgr; left).
  all: assert (sq_compression q = [] -> is_group = false -> nodes ⊆ filters_asked) as Hn
    by (intros Hc Hgr; destruct (Hcfg Hc) as (Hgg & _ & ->); unfold filters_asked; by rewrite Er, <- Hgg, Hgr).
  all: destruct is_group; [case_decide|]; intros Hrun.
  all: first [by eapply member_sound; [..| intros; apply Hg] | by eapply group_sound; [..| intros; apply Hg] | by eapply model_sound; [..| intros; apply Hn]].
Qed.
End acquire.

(** When every candidate was refused for its concurrency, the reasons name the
    concurrency limit; the path of a single model overrides that code. *)
Lemma plain_model_hides_limit n : n <> 0 ->
  _dominant_reason_code [("concurrent_limit", n)] = "concurrent_limit_exceeded" /\
  single_code [("concurrent_limit", n)] = "no_available_account".
Proof.
  intros Hn. split; [|done]. unfold _dominant_reason_code. by rewrite filter_cons_True.
Qed.

(** ** A concrete acquisition *)

Module AcquireSample.
Import Sample ManagerSample SelectionSample RoutingSample.

Definition asks (exclude : list (string * string)) : selection_request :=
  SelectionRequest "m" "sequential" "" "" exclude ["cheap"] [] [] false false 0 None [] (fun _ => 0) false.
Definition stages (k : nat) : stage_input := StageInput now drawn.
Definition as_text (j : json) : string := "".
Abbreviation asked exclude := (_get_available_client_with_provider conf off "boot" as_text adapters no_catalogue (asks exclude) stages (fun l => l)).
Definition got exclude := outcome (AcquireRaised, idle_state) (asked exclude idle_state) e0.

Lemma got_returns : asked [("a", "u1")] idle_state e0 = (Ret ((got [("a", "u1")]).1, (got [("a", "u1")]).2), (asked [("a", "u1")] idle_state e0).2).
Proof.
  unfold got. rewrite (outcome_eq (AcquireRaised, idle_state)) at 1 by (by vm_compute). by rewrite <- !surjective_pairing.
Qed.

(** Without its account with the model unfrozen, channel a has none left; b serves. *)
Lemma acquisition_sound_witness :
  (exists ch, (got [("a", "u1")]).1 = Reserved ch /\ cn_account ch = "u3") /\
  sound "boot" as_text no_catalogue (asks [("a", "u1")]) stages idle_state (got [("a", "u1")]).2 (got [("a", "u1")]).1.
Proof.
  split; [eexists; split; by vm_compute|].
  exact (acquisition_sound conf off "boot" as_text adapters no_catalogue (asks [("a", "u1")]) stages (fun _ _ => fixed_fair)
    (fun l => l) idle_state e0 _ _ _ (fun l => Permutation_refl l) (conj (fun _ i => drawn_unused i) counting_state) got_returns).
Defined.
End AcquireSample.
