(* ===== verification/Usage.v ===== *)
(** server/usage_utils.py: the token usage an upstream service reports, in
    whatever dialect, made uniform; accumulation over the frames of a stream; and
    completion of a partial report by an estimate.

    None is an exception: int() of an infinite number, which the code does not catch.
    A usage report is a JSON object with distinct keys.  The estimate itself comes
    from a tokenizer and is an input. *)
From S2P Require Import Prelude Json Text.

(** ** Reading a report *)

(** [value.get(part)] along a dotted key: None without a value. *)
Fixpoint path_value (v : json) (parts : list string) : option json :=
  match parts with
  | [] => match v with JNull => None | _ => Some v end
  | p :: parts' => match v with
                   | JObj d => match dict_get p d with Some v' => path_value v' parts' | None => None end
                   | _ => None
                   end
  end.
Definition at_key (usage : list (string * json)) (key : string) : option json := path_value (JObj usage) (split_on "."%char key).

(** A number that is infinite as a double, for which int() raises OverflowError. *)
Definition infinite (v : json) : bool :=
  match v with
  | JNum t => match py_float t with
              | Some (NInf _) => true
              | Some (Dec m e) => negb (int_literal t) && bool_decide (float_int m e = None)
              | _ => false
              end
  | _ => false
  end.
(** [int(v)], 0 after TypeError and ValueError; None is the exception nothing catches. *)
Definition leaf_value (v : json) : option Z := if infinite v then None else Some (default 0 (json_int v)).

Fixpoint _usage_value_with_key (usage : list (string * json)) (keys : list string) : option (Z * option string) :=
  match keys with
  | [] => Some (0, None)
  | key :: keys' => match at_key usage key with
                    | Some v => n ← leaf_value v; Some (n, Some key)
                    | None => _usage_value_with_key usage keys'
                    end
  end.
Definition usage_value (usage : list (string * json)) (keys : list string) : option Z := fst <$> _usage_value_with_key usage keys.

(** The integers of an object, at any depth. *)
Fixpoint sum_leaves (v : json) : option Z :=
  match v with
  | JObj d => foldr (fun kv acc => n ← acc; m ← sum_leaves kv.2; Some (m + n)) (Some 0) d
  | v => leaf_value v
  end.
(** The first key with a scalar, or the sum of an object, that is not zero. *)
Fixpoint _usage_sum_value_with_key (usage : list (string * json)) (keys : list string) : option (Z * option string) :=
  match keys with
  | [] => Some (0, None)
  | key :: keys' =>
      match at_key usage key with
      | Some v => n ← sum_leaves v; if n =? 0 then _usage_sum_value_with_key usage keys' else Some (n, Some key)
      | None => _usage_sum_value_with_key usage keys'
      end
  end.
Definition usage_sum_value (usage : list (string * json)) (keys : list string) : option Z := fst <$> _usage_sum_value_with_key usage keys.

(** ** Normalising *)

Definition begins_with_details (key : option string) : bool :=
  match key with Some k => startswith "input_tokens_details." k | None => false end.
(** Whether the input field found counts the cached tokens. *)
Definition _input_field_is_total_input (input_key cached_key cache_creation_key : option string) : bool :=
  match input_key with
  | Some k =>
      if bool_decide (k ∈ ["prompt_tokens"; "promptTokens"]) then true
      else if bool_decide (k ∈ ["input_tokens"; "inputTokens"])
      then begins_with_details cached_key || begins_with_details cache_creation_key
      else false
  | None => false
  end.

Record usage := TokenUsage {
  us_prompt : Z; us_completion : Z; us_total : Z; us_cached : Z; us_cache_creation : Z; us_reasoning : Z;
}.

Definition INPUT_KEYS := ["prompt_tokens"; "input_tokens"; "promptTokens"; "inputTokens"].
Definition OUTPUT_KEYS := ["completion_tokens"; "output_tokens"; "completionTokens"; "outputTokens"].
Definition CACHED_KEYS :=
  ["cached_tokens"; "cache_read_input_tokens"; "prompt_tokens_details.cached_tokens"; "input_tokens_details.cached_tokens"].
Definition CREATION_KEYS :=
  ["cache_creation_tokens"; "cache_creation_input_tokens"; "cache_write_tokens"; "prompt_cache_miss_tokens"; "cache_creation";
   "prompt_tokens_details.cache_creation_input_tokens"; "prompt_tokens_details.cache_creation_tokens";
   "prompt_tokens_details.cache_write_tokens"; "prompt_tokens_details.prompt_cache_miss_tokens";
   "prompt_tokens_details.cache_creation"; "input_tokens_details.cache_creation_tokens";
   "input_tokens_details.cache_creation_input_tokens"; "input_tokens_details.cache_write_tokens";
   "input_tokens_details.prompt_cache_miss_tokens"; "input_tokens_details.cache_creation"].
Definition REASONING_KEYS :=
  ["reasoning_tokens"; "completion_tokens_details.reasoning_tokens"; "output_tokens_details.reasoning_tokens"].

(** [{**native_usage, **usage}] *)
Definition usage_source (u : list (string * json)) : list (string * json) :=
  match dict_get "nativeUsage" u with
  | Some (JObj native) => foldl (fun d kv => dict_set kv.1 kv.2 d) native u
  | _ => u
  end.

(** DeepSeek reports the total input split in cache hits and misses. *)
Definition has_deepseek_cache_split (source : list (string * json)) : option bool :=
  '(_, hit) ← _usage_value_with_key source ["prompt_cache_hit_tokens"];
  match hit with
  | None => Some false
  | Some _ => '(_, miss) ← _usage_value_with_key source ["prompt_cache_miss_tokens"];
              Some match miss with Some _ => true | None => false end
  end.

Definition total_input (is_total split : bool) (input cache_total : Z) : Z :=
  if is_total then
    if split then input
    else if (0 <? cache_total) && (input <? cache_total) then input + cache_total
    else input
  else input + cache_total.

Definition normalize_usage (report : option (list (string * json))) : option usage :=
  let source := usage_source (default [] report) in
  '(input_val, input_key) ← _usage_value_with_key source INPUT_KEYS;
  completion ← usage_value source OUTPUT_KEYS;
  '(cached, cached_key) ← _usage_value_with_key source CACHED_KEYS;
  '(cache_creation, cache_creation_key) ← _usage_sum_value_with_key source CREATION_KEYS;
  reasoning ← usage_value source REASONING_KEYS;
  split ← has_deepseek_cache_split source;
  let prompt := total_input (_input_field_is_total_input input_key cached_key cache_creation_key) split input_val (cached + cache_creation) in
  Some {| us_prompt := prompt; us_completion := completion; us_total := prompt + completion;
          us_cached := cached; us_cache_creation := cache_creation; us_reasoning := reasoning |}.

Definition count (z : Z) : json := JNum (tostring z).
(** The dict normalize_usage returns. *)
Definition usage_dict (u : usage) : list (string * json) :=
  [("prompt_tokens", count (us_prompt u)); ("completion_tokens", count (us_completion u));
   ("total_tokens", count (us_total u)); ("cached_tokens", count (us_cached u));
   ("cache_creation_tokens", count (us_cache_creation u)); ("reasoning_tokens", count (us_reasoning u))].

(** ** Accumulating and completing *)

(** [value is not None and value != 0] *)
Definition counts (v : json) : bool :=
  match v with
  | JNull | JBool false => false
  | JNum t => match py_float t with Some (Dec 0 _) => false | _ => true end
  | _ => true
  end.

(** merge_usage on two objects. *)
Fixpoint merge_json (current : list (string * json)) (incoming : json) : list (string * json) :=
  match incoming with
  | JObj d =>
      (fix merge (l : list (string * json)) (merged : list (string * json)) : list (string * json) :=
         match l with
         | [] => merged
         | (k, v) :: l' =>
             merge l' (match v, dict_get k merged with
                       | JObj _, Some (JObj c) => dict_set k (JObj (merge_json c v)) merged
                       | _, _ => if counts v then dict_set k v merged else merged
                       end)
         end) d current
  | _ => current
  end.
Definition merge_usage (current : option (list (string * json))) (incoming : json) : list (string * json) :=
  merge_json (default [] current) incoming.

Definition or_count (a b : Z) : Z := if a =? 0 then b else a.
Definition fill_usage_with_estimate (real_usage estimated_usage : option (list (string * json))) : option usage :=
  real ← normalize_usage real_usage;
  estimated ← normalize_usage estimated_usage;
  normalize_usage (Some
    [("prompt_tokens", count (or_count (us_prompt real) (us_prompt estimated)));
     ("completion_tokens", count (or_count (us_completion real) (us_completion estimated)));
     ("prompt_tokens_details", JObj
        [("cached_tokens", count (or_count (us_cached real) (us_cached estimated)));
         ("cache_creation_tokens", count (or_count (us_cache_creation real) (us_cache_creation estimated)))]);
     ("completion_tokens_details", JObj
        [("reasoning_tokens", count (or_count (us_reasoning real) (us_reasoning estimated)))])]).
