(* ===== verification/UsageProps.v ===== *)
(** What normalising usage guarantees: the dialects of one usage agree, a
    normalised report is stable, an estimate never replaces a reported count, and
    accumulation keeps the latest count. *)
From S2P Require Import Prelude Json Text TextFacts JsonFacts Usage.

Arguments leaf_value : simpl never.

Lemma tostring_finite z : 0 <= z -> infinite (JNum (tostring z)) = false.
Proof. intros Hz. unfold infinite, int_literal. by rewrite py_float_tostring, tonumber_tostring. Qed.
Lemma int_value_num z : 0 <= z -> leaf_value (JNum (tostring z)) = Some z.
Proof. intros Hz. unfold leaf_value. by rewrite tostring_finite, json_int_tostring. Qed.

(** ** When a report is refused *)

(** An infinite number anywhere in a value. *)
Fixpoint holds_infinite (v : json) : bool :=
  match v with
  | JObj d => existsb (fun kv => holds_infinite kv.2) d
  | JArr l => existsb holds_infinite l
  | v => infinite v
  end.
Lemma member_infinite k d v : dict_get k d = Some v -> holds_infinite v = true -> holds_infinite (JObj d) = true.
Proof.
  induction d as [|[k' v'] d IH]; simpl; [done|]. destruct (decide (k = k')); [intros [= ->] ->; done|].
  intros H Hv. apply orb_true_iff. right. exact (IH H Hv).
Qed.
Lemma path_infinite parts v w : path_value v parts = Some w -> holds_infinite w = true -> holds_infinite v = true.
Proof.
  revert v. induction parts as [|p parts IH]; intros v; simpl; [by destruct v; intros [= <-]|].
  destruct v as [| | | | |d]; try done. destruct (dict_get p d) as [x|] eqn:E; [|done]. intros H Hw. eapply member_infinite; eauto.
Qed.
Lemma leaf_infinite v : leaf_value v = None -> holds_infinite v = true.
Proof. unfold leaf_value. destruct (infinite v) eqn:E; [|done]. intros _. by destruct v. Qed.
Lemma sum_infinite v : sum_leaves v = None -> holds_infinite v = true.
Proof.
  induction v as [v Hv|l IH|d IH] using json_nested_ind; [destruct v; try done; apply leaf_infinite|by intros H|].
  simpl. induction IH as [|[k v] d Hv _ IHd]; simpl in *; [done|]. destruct (foldr _ _ d); simpl; [|intros _; rewrite IHd by done; apply orb_true_r].
  destruct (sum_leaves v); [done|]. by rewrite Hv.
Qed.
Lemma value_infinite u keys : _usage_value_with_key u keys = None -> holds_infinite (JObj u) = true.
Proof.
  induction keys as [|key keys IH]; simpl; [done|]. destruct (at_key u key) as [v|] eqn:E; [|exact IH].
  destruct (leaf_value v) eqn:El; [done|]. intros _. exact (path_infinite _ _ _ E (leaf_infinite v El)).
Qed.
Lemma sum_value_infinite u keys : _usage_sum_value_with_key u keys = None -> holds_infinite (JObj u) = true.
Proof.
  induction keys as [|key keys IH]; simpl; [done|]. destruct (at_key u key) as [v|] eqn:E; [|exact IH].
  destruct (sum_leaves v) as [n|] eqn:El; simpl; [destruct (n =? 0); [exact IH|done]|].
  intros _. exact (path_infinite _ _ _ E (sum_infinite v El)).
Qed.
(** A report is only refused for an infinite number in it. *)
Lemma infinite_normalizes r : normalize_usage r = None -> holds_infinite (JObj (usage_source (default [] r))) = true.
Proof.
  unfold normalize_usage, usage_value, has_deepseek_cache_split. set (source := usage_source _).
  destruct (_usage_value_with_key source INPUT_KEYS) as [[]|] eqn:E1; cbn [mbind option_bind]; [|intros _; by eapply value_infinite].
  destruct (_usage_value_with_key source OUTPUT_KEYS) as [[]|] eqn:E2; cbn [mbind option_bind fmap option_fmap option_map]; [|intros _; by eapply value_infinite].
  destruct (_usage_value_with_key source CACHED_KEYS) as [[]|] eqn:E3; cbn [mbind option_bind]; [|intros _; by eapply value_infinite].
  destruct (_usage_sum_value_with_key source CREATION_KEYS) as [[]|] eqn:E4; cbn [mbind option_bind]; [|intros _; by eapply sum_value_infinite].
  destruct (_usage_value_with_key source REASONING_KEYS) as [[]|] eqn:E5; cbn [mbind option_bind fmap option_fmap option_map]; [|intros _; by eapply value_infinite].
  destruct (_usage_value_with_key source ["prompt_cache_hit_tokens"]) as [[? [?|]]|] eqn:E6; cbn [mbind option_bind]; [|done|intros _; by eapply value_infinite].
  destruct (_usage_value_with_key source ["prompt_cache_miss_tokens"]) as [[]|] eqn:E7; cbn [mbind option_bind]; [done|intros _; by eapply value_infinite].
Qed.

(** ** Dialects *)

Definition anthropic_report (input read write output : Z) : list (string * json) :=
  [("input_tokens", count input); ("cache_creation_input_tokens", count write); ("cache_read_input_tokens", count read);
   ("output_tokens", count output)].
Definition openai_report (input read write output : Z) : list (string * json) :=
  [("prompt_tokens", count (input + read + write)); ("completion_tokens", count output);
   ("total_tokens", count (input + read + write + output));
   ("prompt_tokens_details", JObj [("cached_tokens", count read); ("cache_creation_tokens", count write)])].
Definition responses_report (input read write output : Z) : list (string * json) :=
  [("input_tokens", count (input + read + write));
   ("input_tokens_details", JObj [("cached_tokens", count read); ("cache_creation_tokens", count write)]);
   ("output_tokens", count output); ("total_tokens", count (input + read + write + output))].

(** Compute a normalisation of a report with known keys and numerals. *)
Ltac report :=
  unfold normalize_usage, usage_source, usage_value; simpl; unfold sum_leaves;
  repeat (rewrite int_value_num by lia; simpl); unfold total_input; simpl.

(** Decide the remaining comparisons. *)
Ltac compare_all :=
  repeat match goal with
         | |- context [?a =? ?b] => destruct (Z.eqb_spec a b); subst; simpl
         | |- context [?a <? ?b] => destruct (Z.ltb_spec a b); simpl
         end; do 2 f_equal; lia.

(** One usage reported as Anthropic, OpenAI chat and OpenAI Responses do it is
    normalised to one and the same: all input including what was read from and
    written to the cache, and the total of input and output. *)
Lemma usage_dialects_agree input read write output : 0 <= input -> 0 <= read -> 0 <= write -> 0 <= output ->
  let u := TokenUsage (input + read + write) output (input + read + write + output) read write 0 in
  normalize_usage (Some (anthropic_report input read write output)) = Some u /\
  normalize_usage (Some (openai_report input read write output)) = Some u /\
  normalize_usage (Some (responses_report input read write output)) = Some u.
Proof.
  intros Hi Hr Hw Ho u. unfold u, anthropic_report, openai_report, responses_report, count.
  split; [|split]; report; compare_all.
Qed.

(** ** Stability *)

(** The cached input counts as input. *)
Definition coherent (u : usage) : Prop :=
  0 <= us_completion u /\ 0 <= us_cached u /\ 0 <= us_cache_creation u /\ 0 <= us_reasoning u /\
  us_cached u + us_cache_creation u <= us_prompt u /\ us_total u = us_prompt u + us_completion u.

Lemma normalize_coherent r u :
  let source := usage_source (default [] r) in
  normalize_usage r = Some u -> (forall n, usage_value source INPUT_KEYS = Some n -> 0 <= n) -> has_deepseek_cache_split source = Some false ->
  0 <= us_completion u -> 0 <= us_cached u -> 0 <= us_cache_creation u -> 0 <= us_reasoning u -> coherent u.
Proof.
  intros source. unfold coherent, normalize_usage. fold source.
  assert (Hi0 : usage_value source INPUT_KEYS = fst <$> _usage_value_with_key source INPUT_KEYS) by done. rewrite Hi0. clear Hi0.
  destruct (_usage_value_with_key source INPUT_KEYS) as [[i ik]|]; cbn [mbind option_bind]; [|done].
  destruct (usage_value source OUTPUT_KEYS); cbn [mbind option_bind]; [|done].
  destruct (_usage_value_with_key source CACHED_KEYS) as [[c ck]|]; cbn [mbind option_bind]; [|done].
  destruct (_usage_sum_value_with_key source CREATION_KEYS) as [[w wk]|]; cbn [mbind option_bind]; [|done].
  destruct (usage_value source REASONING_KEYS); cbn [mbind option_bind]; [|done].
  intros Hu Hi Hs. rewrite Hs in Hu. cbn [mbind option_bind] in Hu. injection Hu as <-. simpl. intros Ho Hc Hw Hr. specialize (Hi i eq_refl).
  do 4 (split; [done|]). split; [|done]. unfold total_input. destruct (_input_field_is_total_input ik ck wk); [|lia].
  destruct ((0 <? c + w) && (i <? c + w)) eqn:E; btrue; [lia|]. apply andb_false_iff in E as [E|E]; btrue; lia.
Qed.

(** Normalising the dict of a coherent usage gives it back. *)
Lemma normalize_dict u : coherent u -> normalize_usage (Some (usage_dict u)) = Some u.
Proof.
  destruct u as [p o t c w r]. unfold coherent, usage_dict, count. simpl. intros (Ho & Hc & Hw & Hr & Hp & ->).
  report. compare_all.
Qed.

(** A report that is normalised twice is normalised once, provided its counts are
    not negative and it is not a DeepSeek split that contradicts its own total. *)
Lemma normalize_stable r u :
  let source := usage_source (default [] r) in
  normalize_usage r = Some u -> (forall n, usage_value source INPUT_KEYS = Some n -> 0 <= n) -> has_deepseek_cache_split source = Some false ->
  0 <= us_completion u -> 0 <= us_cached u -> 0 <= us_cache_creation u -> 0 <= us_reasoning u ->
  normalize_usage (Some (usage_dict u)) = Some u.
Proof. intros. apply normalize_dict. by eapply normalize_coherent. Qed.

(** ** Completing a report *)

Definition filled (real estimated : usage) : usage :=
  let f sel := or_count (sel real) (sel estimated) in
  TokenUsage (f us_prompt) (f us_completion) (f us_prompt + f us_completion) (f us_cached) (f us_cache_creation) (f us_reasoning).

(** Completing a coherent report by an estimate without cache counts keeps every
    count that was reported, takes the estimate for the ones that were not, and
    totals them; the cache is not counted twice. *)
Theorem fill_keeps_reported real estimated u e :
  normalize_usage real = Some u -> normalize_usage estimated = Some e -> coherent u -> coherent e ->
  us_cached e = 0 -> us_cache_creation e = 0 ->
  fill_usage_with_estimate real estimated = Some (filled u e).
Proof.
  intros Hu He. unfold fill_usage_with_estimate. rewrite Hu, He. clear Hu He. destruct u as [p o t c w r], e as [p' o' t' c' w' r'].
  unfold coherent, filled, or_count, count. simpl. intros (Ho & Hc & Hw & Hr & Hp & _) (Ho' & _ & _ & Hr' & Hp' & _) -> ->.
  set (P := if p =? 0 then p' else p). set (O := if o =? 0 then o' else o). set (Cc := if c =? 0 then 0 else c).
  set (W := if w =? 0 then 0 else w). set (Rr := if r =? 0 then r' else r).
  assert (0 <= O /\ Cc = c /\ W = w /\ 0 <= Rr /\ c + w <= P) as (HO & -> & -> & HR & HP).
  { unfold P, O, Cc, W, Rr. repeat case_match; btrue; subst; lia. }
  clearbody P O Rr. report. compare_all.
Qed.

(** ** Accumulating over the frames of a stream *)

Definition merge_field (c : list (string * json)) (k : string) (v : json) : list (string * json) :=
  match v, dict_get k c with
  | JObj _, Some (JObj c') => dict_set k (JObj (merge_json c' v)) c
  | _, _ => if counts v then dict_set k v c else c
  end.
Lemma merge_cons c k v d : merge_json c (JObj ((k, v) :: d)) = merge_json (merge_field c k v) (JObj d).
Proof. done. Qed.

#[local] Arguments merge_json : simpl never.

(** What a merge leaves under a key: objects are merged, a count replaces. *)
Definition merged_value (old new : option json) : option json :=
  match new, old with
  | Some (JObj d), Some (JObj c) => Some (JObj (merge_json c (JObj d)))
  | Some v, _ => if counts v then Some v else old
  | None, _ => old
  end.

Lemma merged_none x : merged_value x None = x.
Proof. by destruct x as [[]|]. Qed.

Lemma merge_field_get c k v k' : dict_get k' (merge_field c k v) = if decide (k' = k) then merged_value (dict_get k c) (Some v) else dict_get k' c.
Proof.
  unfold merge_field, merged_value. destruct v, (dict_get k c) as [[]|] eqn:E; try destruct (counts _);
    rewrite ?dict_get_set; case_decide; subst; done.
Qed.

Lemma merge_get c d k : NoDup d.*1 -> dict_get k (merge_json c (JObj d)) = merged_value (dict_get k c) (dict_get k d).
Proof.
  revert c. induction d as [|[k0 v] d IH]; intros c; [intros _; symmetry; apply merged_none|].
  intros [Hk Hd]%NoDup_cons. rewrite merge_cons, IH, merge_field_get by done. simpl. simpl in Hk.
  destruct (decide (k = k0)) as [->|Hne]; [|done].
  rewrite (proj2 (dict_get_None k0 d)) by done. apply merged_none.
Qed.

Definition accumulate (frames : list (list (string * json))) (current : list (string * json)) : list (string * json) :=
  foldl (fun acc d => merge_usage (Some acc) (JObj d)) current frames.
(** The values the frames give a key, without those that count nothing. *)
Definition reported (k : string) (frames : list (list (string * json))) : list json :=
  omap (fun d => v ← dict_get k d; if counts v then Some v else None) frames.

(** After any number of frames a key has the latest value that was not zero: later
    frames without the field, or with zero, do not erase a count. *)
Theorem accumulate_latest k frames current :
  Forall (fun d => NoDup d.*1 /\ forall o, dict_get k d <> Some (JObj o)) frames ->
  dict_get k (accumulate frames current) = match last (reported k frames) with Some v => Some v | None => dict_get k current end.
Proof.
  intros Hf. unfold accumulate. revert current. induction Hf as [|d frames [Hd Hs] _ IH]; intros current; [done|].
  simpl. rewrite IH. unfold merge_usage. simpl. rewrite merge_get by done. unfold reported. simpl.
  assert (merged_value (dict_get k current) (dict_get k d) =
    match (v ← dict_get k d; if counts v then Some v else None) with Some v => Some v | None => dict_get k current end) as ->.
  { unfold merged_value. destruct (dict_get k d) as [v|] eqn:E; simpl; [|by destruct (dict_get k current) as [[]|]].
    destruct v; try (by destruct (counts _)); by edestruct Hs. }
  destruct (v ← dict_get k d; _) as [v|]; [|done]. simpl. rewrite last_cons. by destruct (last (omap _ frames)).
Qed.

(** ** Concrete reports *)

Module UsageSample.

Lemma usage_dialects_agree_witness :
  normalize_usage (Some (anthropic_report 3 50 7 20)) = Some (TokenUsage 60 20 80 50 7 0) /\
  normalize_usage (Some (openai_report 3 50 7 20)) = Some (TokenUsage 60 20 80 50 7 0).
Proof.
  destruct (usage_dialects_agree 3 50 7 20 ltac:(lia) ltac:(lia) ltac:(lia) ltac:(lia)) as (Ha & Ho & _). by split.
Defined.
(** An infinite count is an exception. *)
Lemma infinite_count_raises : normalize_usage (Some [("prompt_tokens", JNum "1e400")]) = None /\ normalize_usage (Some [("prompt_tokens", JNum "NaN")]) <> None.
Proof. by vm_compute. Qed.

(** Input reported without its cache, which is added once. *)
Lemma normalize_stable_witness :
  normalize_usage (Some (usage_dict (TokenUsage 74 20 94 50 7 0))) = Some (TokenUsage 74 20 94 50 7 0).
Proof.
  apply (normalize_stable (Some (openai_report (-40) 50 7 20))); try by vm_compute. intros n [= <-]. by vm_compute.
Defined.

(** The prompt was reported with its cache, the completion was not. *)
Lemma fill_keeps_reported_witness :
  fill_usage_with_estimate (Some (anthropic_report 3 50 7 0)) (Some (openai_report 1 0 0 12)) = Some (TokenUsage 60 12 72 50 7 0).
Proof.
  by rewrite (fill_keeps_reported (Some (anthropic_report 3 50 7 0)) (Some (openai_report 1 0 0 12)) (TokenUsage 60 0 60 50 7 0) (TokenUsage 1 12 13 0 0 0)).
Defined.

Definition frames : list (list (string * json)) :=
  [[("output_tokens", JNum "5")]; [("output_tokens", JNum "9"); ("input_tokens", JNum "0")]; [("output_tokens", JNum "0")]].
Lemma accumulate_latest_witness : dict_get "output_tokens" (accumulate frames []) = Some (JNum "9").
Proof.
  rewrite (accumulate_latest "output_tokens" frames []); [by vm_compute|].
  repeat constructor; simpl; try by apply not_elem_of_nil.
  all: try (intros o; by repeat case_decide). all: by intros ?%list_elem_of_singleton.
Defined.
End UsageSample.
