(* ===== verification/Stream.v ===== *)
(** server/message_utils.py: the OpenAI stream of an attempt rendered as Anthropic
    events (convert_stream_to_anthropic), with the helpers it shares with the other
    converters.

    The converter is a generator: what it yielded before an exception has reached
    the client.  A run therefore gives the events and the final state, None after an
    exception.  Token estimates and fresh identifiers are inputs. *)
From S2P Require Import Prelude Json Text Retry Usage.

(** ** Identifiers and names of tools *)

Definition legal_char (c : ascii) : bool :=
  let n := nat_of_ascii c in
  ((48 <=? n)%nat && (n <=? 57)%nat) || ((65 <=? n)%nat && (n <=? 90)%nat) || ((97 <=? n)%nat && (n <=? 122)%nat)
  || bool_decide (c = "_"%char) || bool_decide (c = "-"%char).
(** A byte that continues a character of several bytes. *)
Definition continuation (c : ascii) : bool := let n := nat_of_ascii c in (128 <=? n)%nat && (n <? 192)%nat.
(** [_ANTHROPIC_TOOL_ID_ILLEGAL.sub("_", text)] *)
Fixpoint replace_illegal (s : string) : string :=
  match s with
  | EmptyString => EmptyString
  | String c s' => if legal_char c then String c (replace_illegal s')
                   else if continuation c then replace_illegal s'
                   else String "_" (replace_illegal s')
  end.
Fixpoint all_legal (s : string) : bool :=
  match s with EmptyString => true | String c s' => legal_char c && all_legal s' end.

Section names.
Variable py_str : json -> string.

(** [str(v or "").strip()] *)
Definition stripped_text (v : option json) : string :=
  match v with Some v => if json_truthy v then strip (json_str_of py_str v) else "" | None => "" end.

Definition sanitize_anthropic_tool_id (hex : string) (tool_id : option json) : string :=
  let text := stripped_text tool_id in
  if negb (str_truthy text) then "toolu_" +++ hex
  else if all_legal text then text
  else str_or (replace_illegal text) ("toolu_" +++ hex).

Definition _ANTHROPIC_TOOL_NAME_MAX : nat := 64.
Definition sanitize_anthropic_tool_name (name : option json) : string :=
  let text := stripped_text name in
  if negb (str_truthy text) then "tool"
  else if all_legal text && (String.length text <=? _ANTHROPIC_TOOL_NAME_MAX)%nat then text
  else str_or (String.substring 0 _ANTHROPIC_TOOL_NAME_MAX (replace_illegal text)) "tool".

(** ** Merging the fragments of tool calls *)

Record tool_call := ToolCall { tc_id : option json; tc_name : option json; tc_arguments : string }.

(** Equality of dict keys: numbers and truth values by value. *)
Definition as_number (v : json) : option num :=
  match v with
  | JNum t => py_float t
  | JBool b => Some (Dec (if b then 1 else 0) 0)
  | _ => None
  end.
Definition same_index (a b : json) : bool :=
  match a, b with
  | JNull, JNull => true
  | JStr x, JStr y => String.eqb x y
  | _, _ => match as_number a, as_number b with
            | Some x, Some y => match num_cmp x y with Some Eq => true | _ => false end
            | _, _ => false
            end
  end.
Definition hashable (v : json) : bool := match v with JArr _ | JObj _ => false | _ => true end.

Definition truthy_field (k : string) (d : list (string * json)) : option json :=
  match dict_get k d with Some v => if json_truthy v then Some v else None | None => None end.

(** One fragment into its call; None is an exception. *)
Definition add_fragment (d : list (string * json)) (c : tool_call) : option tool_call :=
  let id := match truthy_field "id" d with Some v => Some v | None => tc_id c end in
  let func := match dict_get "function" d with Some (JObj f) => f | _ => [] end in
  let name := match truthy_field "name" func with Some v => Some v | None => tc_name c end in
  match truthy_field "arguments" func with
  | None => Some (ToolCall id name (tc_arguments c))
  | Some (JObj a) => Some (ToolCall id name (dump_value (JObj a)))
  | Some (JStr s) => Some (ToolCall id name (tc_arguments c +++ s))
  | Some _ => None
  end.
Fixpoint put_fragment (idx : json) (d : list (string * json)) (merged : list (json * tool_call)) : option (list (json * tool_call)) :=
  match merged with
  | [] => c ← add_fragment d (ToolCall None None ""); Some [(idx, c)]
  | (i, c) :: merged' =>
      if same_index i idx then c ← add_fragment d c; Some ((i, c) :: merged')
      else m ← put_fragment idx d merged'; Some ((i, c) :: m)
  end.
Fixpoint merge_fragments (parts : list json) (merged : list (json * tool_call)) : option (list (json * tool_call)) :=
  match parts with
  | [] => Some merged
  | JObj d :: parts' =>
      let idx := default (JNum (tostring (Z.of_nat (length merged)))) (dict_get "index" d) in
      if hashable idx then m ← put_fragment idx d merged; merge_fragments parts' m else None
  | _ :: parts' => merge_fragments parts' merged
  end.

(** A merged call: identifier, name, arguments. *)
Record merged_call := MergedCall { mc_id : string; mc_name : string; mc_arguments : string }.
Definition _merge_tool_calls (hex : nat -> string) (parts : list json) : option (list merged_call) :=
  merged ← merge_fragments parts [];
  Some (imap (fun k ic => MergedCall (sanitize_anthropic_tool_id (hex k) (tc_id ic.2))
                            (sanitize_anthropic_tool_name (tc_name ic.2)) (str_or (tc_arguments ic.2) "{}")) merged).
End names.

(** ** Frames *)

Inductive kind := Thinking | Text | ToolUse.
#[export] Instance kind_eq_dec : EqDecision kind.
Proof. solve_decision. Defined.

(** [a or b or c] *)
Definition first_truthy (a b c : option json) : option json :=
  match a with
  | Some v => if json_truthy v then Some v else
      match b with Some v => if json_truthy v then Some v else c | None => c end
  | None => match b with Some v => if json_truthy v then Some v else c | None => c end
  end.
Definition if_truthy (k : kind) (v : option json) : list (kind * json) :=
  match v with Some v => if json_truthy v then [(k, v)] else [] | None => [] end.
Definition _extract_sub_frames (delta : list (string * json)) : list (kind * json) :=
  if_truthy Thinking (first_truthy (dict_get "reasoning_content" delta) (dict_get "reasoning" delta) (dict_get "thinking" delta))
  ++ if_truthy Text (dict_get "content" delta) ++ if_truthy ToolUse (dict_get "tool_calls" delta).

(** Objects as dicts: a repeated key keeps its place and takes the last value. *)
Fixpoint as_dicts (v : json) : json :=
  match v with
  | JArr l => JArr (map as_dicts l)
  | JObj d => JObj (foldl (fun acc kv => dict_set kv.1 kv.2 acc) [] (map (fun kv => (kv.1, as_dicts kv.2)) d))
  | v => v
  end.

(** The objects in the data lines of a chunk. *)
Definition frame_of_line (line : string) : option (list (string * json)) :=
  if negb (startswith "data:" line) then None else
  let data := strip (str_drop 5 line) in
  if String.eqb data "[DONE]" || negb (str_truthy data) then None
  else match as_dicts <$> loads data with Some (JObj d) => Some d | _ => None end.
Definition frames_of_chunk (chunk : string) : list (list (string * json)) :=
  omap frame_of_line (split_on "010"%char (strip chunk)).

(** ** Events *)

Inductive block := BThinking | BText | BTool (id name : string).
Inductive piece := DThinking (s : string) | DSignature | DText (s : string) | DJson (s : string).
Inductive event :=
| MessageStart (id : json) (input_tokens : Z)
| Ping
| BlockStart (index : Z) (b : block)
| BlockDelta (index : Z) (d : piece)
| BlockStop (index : Z)
| MessageDelta (stop_reason : string) (input_tokens output_tokens : Z)
| MessageStop.

(** ** The converter *)

Record conv := Conv {
  cv_id : option json; cv_started : bool; cv_index : Z; cv_thinking_open : bool; cv_text_open : bool;
  cv_tools : list json; cv_finish : option json; cv_input : Z; cv_output : Z;
  cv_text : string; cv_reasoning : string; cv_current : option kind;
}.
Definition out : Type := list event * option conv.
(** One part after another; an exception ends both. *)
Definition andthen (o : out) (k : conv -> out) : out :=
  match o with
  | (es, Some s) => let '(es', r) := k s in (es ++ es', r)
  | (es, None) => (es, None)
  end.

Definition set_started (s : conv) : conv :=
  Conv (cv_id s) true (cv_index s) (cv_thinking_open s) (cv_text_open s) (cv_tools s) (cv_finish s) (cv_input s) (cv_output s)
    (cv_text s) (cv_reasoning s) (cv_current s).
Definition set_current (k : option kind) (s : conv) : conv :=
  Conv (cv_id s) (cv_started s) (cv_index s) (cv_thinking_open s) (cv_text_open s) (cv_tools s) (cv_finish s) (cv_input s) (cv_output s)
    (cv_text s) (cv_reasoning s) k.
Definition set_open (thinking text : bool) (index : Z) (s : conv) : conv :=
  Conv (cv_id s) (cv_started s) index thinking text (cv_tools s) (cv_finish s) (cv_input s) (cv_output s)
    (cv_text s) (cv_reasoning s) (cv_current s).
Definition add_text (t r : string) (s : conv) : conv :=
  Conv (cv_id s) (cv_started s) (cv_index s) (cv_thinking_open s) (cv_text_open s) (cv_tools s) (cv_finish s) (cv_input s) (cv_output s)
    (cv_text s +++ t) (cv_reasoning s +++ r) (cv_current s).
Definition add_tools (l : list json) (s : conv) : conv :=
  Conv (cv_id s) (cv_started s) (cv_index s) (cv_thinking_open s) (cv_text_open s) (cv_tools s ++ l) (cv_finish s) (cv_input s)
    (cv_output s) (cv_text s) (cv_reasoning s) (cv_current s).

Section convert.
Variables (py_str : json -> string) (estimate : string -> Z) (fresh_id : json) (hex : nat -> string).

Definition _message_start_events (s : conv) : out :=
  if cv_started s then ([], Some s)
  else ([MessageStart (default fresh_id (cv_id s)) (cv_input s); Ping], Some (set_started s)).

Definition _close_open_block (s : conv) : out :=
  if cv_thinking_open s
  then ([BlockDelta (cv_index s) DSignature; BlockStop (cv_index s)], Some (set_open false (cv_text_open s) (cv_index s + 1) s))
  else if cv_text_open s then ([BlockStop (cv_index s)], Some (set_open (cv_thinking_open s) false (cv_index s + 1) s))
  else ([], Some s).

(** [l.extend(value)] *)
Fixpoint chars (s : string) : list json :=
  match s with EmptyString => [] | String c s' => JStr (String c "") :: chars s' end.
Definition extended (v : json) : option (list json) :=
  match v with
  | JArr l => Some l
  | JStr s => Some (chars s)
  | JObj d => Some (JStr <$> d.*1)
  | _ => None
  end.

Definition sub_frame (kv : kind * json) (s : conv) : out :=
  andthen (_message_start_events s) (fun s =>
  andthen (if bool_decide (cv_current s = Some kv.1) then ([], Some s)
           else andthen (_close_open_block s) (fun s => ([], Some (set_current (Some kv.1) s)))) (fun s =>
  match kv with
  | (Thinking, JStr v) =>
      let s := add_text "" v s in
      ((if cv_thinking_open s then [] else [BlockStart (cv_index s) BThinking]) ++ [BlockDelta (cv_index s) (DThinking v)],
       Some (set_open true (cv_text_open s) (cv_index s) s))
  | (Text, JStr v) =>
      let s := add_text v "" s in
      ((if cv_text_open s then [] else [BlockStart (cv_index s) BText]) ++ [BlockDelta (cv_index s) (DText v)],
       Some (set_open (cv_thinking_open s) true (cv_index s) s))
  | (ToolUse, v) => match extended v with Some l => ([], Some (add_tools l s)) | None => ([], None) end
  | _ => ([], None)
  end)).
Fixpoint sub_frames (l : list (kind * json)) (s : conv) : out :=
  match l with
  | [] => ([], Some s)
  | kv :: l' => andthen (sub_frame kv s) (sub_frames l')
  end.

(** The usage of a frame: its own when that is an object, or else that of a choice. *)
Definition frame_usage (frame : list (string * json)) : option json :=
  match dict_get "usage" frame with
  | Some (JObj u) => Some (JObj u)
  | own => match dict_get "choices" frame with
           | Some (JArr l) =>
               match head (omap (fun c => match c with
                                          | JObj d => match dict_get "usage" d with Some (JObj u) => Some (JObj u) | _ => None end
                                          | _ => None
                                          end) l) with
               | Some u => Some u
               | None => own
               end
           | _ => own
           end
  end.
(** Identifier and usage of a frame.  A usage that is no object and not empty, or
    whose numbers are infinite, is an exception. *)
Definition note_frame (frame : list (string * json)) (s : conv) : option conv :=
  let id := match cv_id s with Some v => Some v | None => truthy_field "id" frame end in
  let noted i o := Conv id (cv_started s) (cv_index s) (cv_thinking_open s) (cv_text_open s) (cv_tools s) (cv_finish s) i o
                     (cv_text s) (cv_reasoning s) (cv_current s) in
  match frame_usage frame with
  | Some v =>
      if json_truthy v
      then match v with
           | JObj u => n ← normalize_usage (Some u);
                       Some (noted (Z.max (cv_input s) (us_prompt n)) (Z.max (cv_output s) (us_completion n)))
           | _ => None
           end
      else Some (noted (cv_input s) (cv_output s))
  | None => Some (noted (cv_input s) (cv_output s))
  end.
Definition set_finish (f : json) (s : conv) : conv :=
  Conv (cv_id s) (cv_started s) (cv_index s) (cv_thinking_open s) (cv_text_open s) (cv_tools s) (Some f) (cv_input s) (cv_output s)
    (cv_text s) (cv_reasoning s) (cv_current s).

(** A finish reason closes the open block. *)
Definition finish_frame (done : bool) (s : conv) : out :=
  if done && negb (bool_decide (cv_current s = None))
  then andthen (_close_open_block s) (fun s => ([], Some (set_current None s)))
  else ([], Some s).

Definition choice_frame (choice : list (string * json)) (s : conv) : out :=
  let delta := match dict_get "delta" choice with Some (JObj d) => d | _ => [] end in
  let fr := truthy_field "finish_reason" choice in
  let s := match fr with Some f => set_finish f s | None => s end in
  andthen (sub_frames (_extract_sub_frames delta) s) (finish_frame (match fr with Some _ => true | None => false end)).

Definition step_frame (frame : list (string * json)) (s : conv) : out :=
  match note_frame frame s with
  | None => ([], None)
  | Some s =>
      match truthy_field "choices" frame with
      | None => ([], Some s)
      | Some (JArr (JObj choice :: _)) => choice_frame choice s
      | Some _ => ([], None)
      end
  end.
Fixpoint step_frames (frames : list (list (string * json))) (s : conv) : out :=
  match frames with
  | [] => ([], Some s)
  | f :: frames' => andthen (step_frame f s) (step_frames frames')
  end.

(** ** The end of the stream *)

Fixpoint tool_events (i : Z) (calls : list merged_call) : list event :=
  match calls with
  | [] => []
  | c :: calls' =>
      [BlockStart i (BTool (sanitize_anthropic_tool_id py_str (hex 0) (Some (JStr (mc_id c))))
                           (sanitize_anthropic_tool_name py_str (Some (JStr (mc_name c)))));
       BlockDelta i (DJson (str_or (mc_arguments c) "{}")); BlockStop i] ++ tool_events (i + 1) calls'
  end.
Definition stop_reason_of (finish : option json) : option string :=
  match finish with
  | Some (JStr s) => Some (default "end_turn" (dict_get s [("stop", "end_turn"); ("tool_calls", "tool_use"); ("length", "max_tokens")]))
  | Some (JArr _) | Some (JObj _) => None
  | _ => Some "end_turn"
  end.
Definition dump_calls (calls : list merged_call) : string :=
  dump_value (JArr ((fun c => JObj [("id", JStr (mc_id c)); ("type", JStr "function");
    ("function", JObj [("name", JStr (mc_name c)); ("arguments", JStr (mc_arguments c))])]) <$> calls)).

Definition end_of_stream (s : conv) : out :=
  andthen (_message_start_events s) (fun s =>
  andthen (_close_open_block s) (fun s =>
  match _merge_tool_calls py_str hex (cv_tools s) with
  | None => ([], None)
  | Some calls =>
      let index := cv_index s + Z.of_nat (length calls) in
      let empty_block := if index =? 0 then [BlockStart 0 BText; BlockStop 0] else [] in
      let shown := tool_events (cv_index s) calls ++ empty_block in
      match stop_reason_of (cv_finish s) with
      | None => (shown, None)
      | Some reason =>
          let fallback := cv_reasoning s +++ cv_text s +++ match calls with [] => "" | _ => String "010" (dump_calls calls) end in
          (shown ++ [MessageDelta reason (cv_input s) (if 0 <? cv_output s then cv_output s else estimate fallback); MessageStop], Some s)
      end
  end)).

(** convert_stream_to_anthropic on the chunks of a stream; [input] is the estimate
    of the prompt. *)
Definition conv_start (input : Z) : conv := Conv None false 0 false false [] None input 0 "" "" None.
Definition convert_stream_to_anthropic (input : Z) (chunks : list string) : out :=
  andthen (step_frames (chunks ≫= frames_of_chunk) (conv_start input)) end_of_stream.
End convert.
