(* ===== verification/StreamProps.v ===== *)
(** What a client of the Anthropic stream may rely on: the events form a message of
    consecutive, properly closed blocks, whatever the upstream sent; they carry the
    upstream's text and thinking exactly; and the tools they name are legal. *)
From S2P Require Import Prelude Json Text TextFacts Retry Usage Stream.

(** ** Legal names *)

Lemma legal_not_space c : legal_char c = true -> py_space c = false.
Proof. destruct c as [[] [] [] [] [] [] [] []]; vm_compute; congruence. Qed.
Lemma legal_append a b : all_legal (a +++ b) = all_legal a && all_legal b.
Proof. induction a as [|c a IH]; simpl; [done|]. by rewrite IH, andb_assoc. Qed.
Lemma replace_illegal_legal s : all_legal (replace_illegal s) = true.
Proof.
  induction s as [|c s IH]; [done|]. simpl. destruct (legal_char c) eqn:E; simpl; [by rewrite E, IH|].
  destruct (continuation c); [done|]. simpl. by rewrite IH.
Qed.
Lemma legal_substring n s : all_legal s = true -> all_legal (String.substring 0 n s) = true.
Proof.
  revert n. induction s as [|c s IH]; intros [|n] H; try done. simpl in *. apply andb_true_iff in H as [-> H]. by apply IH.
Qed.
Lemma length_substring n s : (String.length (String.substring 0 n s) <= n)%nat.
Proof. revert n. induction s as [|c s IH]; intros [|n]; simpl; try lia. specialize (IH n). lia. Qed.
Lemma legal_strip s : all_legal s = true -> strip s = s.
Proof.
  intros H. unfold strip. assert (Hl : lstrip s = s).
  { destruct s as [|c s]; [done|]. simpl in *. apply andb_true_iff in H as [H _]. by rewrite (legal_not_space c H). }
  rewrite Hl. clear Hl. induction s as [|c s IH]; [done|]. simpl in *. apply andb_true_iff in H as [Hc H].
  rewrite (IH H). destruct s; [|done]. by rewrite (legal_not_space c Hc).
Qed.

(** An identifier the Anthropic interface accepts. *)
Definition legal_id (s : string) : Prop := s <> "" /\ all_legal s = true.
Definition legal_name (s : string) : Prop := legal_id s /\ (String.length s <= 64)%nat.

Section names.
Variable py_str : json -> string.

Lemma str_truthy_spec s : str_truthy s = true <-> s <> "".
Proof. by destruct s. Qed.
Lemma sanitize_id_legal hex v : all_legal hex = true -> legal_id (sanitize_anthropic_tool_id py_str hex v).
Proof.
  intros Hh. unfold sanitize_anthropic_tool_id. set (t := stripped_text _ _).
  assert (Hf : legal_id ("toolu_" +++ hex)) by (split; [done|]; by rewrite legal_append, Hh).
  destruct (str_truthy t) eqn:Et; simpl; [|done]. destruct (all_legal t) eqn:E; [by split; [apply str_truthy_spec|]|].
  unfold str_or. destruct (str_truthy (replace_illegal t)) eqn:Er; [|done].
  by split; [apply str_truthy_spec|apply replace_illegal_legal].
Qed.
Lemma sanitize_name_legal v : legal_name (sanitize_anthropic_tool_name py_str v).
Proof.
  unfold sanitize_anthropic_tool_name. change _ANTHROPIC_TOOL_NAME_MAX with 64%nat. set (t := stripped_text _ _).
  assert (Hf : legal_name "tool") by (split; [split; [done|reflexivity]|simpl; lia]).
  destruct (str_truthy t) eqn:Et; cbn [negb]; [|exact Hf].
  destruct (all_legal t && (String.length t <=? 64)%nat) eqn:E.
  - apply andb_true_iff in E as [E L]. apply Nat.leb_le in L. split; [|exact L]. split; [by apply str_truthy_spec|exact E].
  - unfold str_or. destruct (str_truthy (String.substring _ _ _)) eqn:Er; [|exact Hf].
    split; [|apply length_substring]. by split; [apply str_truthy_spec|apply legal_substring, replace_illegal_legal].
Qed.

(** Legal names are left alone. *)
Lemma stripped_legal s : legal_id s -> stripped_text py_str (Some (JStr s)) = s.
Proof.
  intros [Hs Hl]. unfold stripped_text. simpl. destruct s as [|c s]; [done|]. by apply legal_strip.
Qed.
Lemma sanitize_id_same hex s : legal_id s -> sanitize_anthropic_tool_id py_str hex (Some (JStr s)) = s.
Proof.
  intros H. unfold sanitize_anthropic_tool_id. rewrite (stripped_legal s H). destruct H as [Hs Hl].
  by rewrite (proj2 (str_truthy_spec s) Hs), Hl.
Qed.
Lemma sanitize_name_same s : legal_name s -> sanitize_anthropic_tool_name py_str (Some (JStr s)) = s.
Proof.
  intros [H HL]. unfold sanitize_anthropic_tool_name. rewrite (stripped_legal s H). destruct H as [Hs Hl].
  rewrite (proj2 (str_truthy_spec s) Hs), Hl. apply Nat.leb_le in HL. change _ANTHROPIC_TOOL_NAME_MAX with 64%nat. by rewrite HL.
Qed.
End names.

(** ** The grammar of a message *)

Definition is_thinking (d : piece) : Prop := exists s, d = DThinking s.
Definition is_text (d : piece) : Prop := exists s, d = DText s.
(** What a block may hold: thinking ends with its signature, a tool's input comes in
    one piece. *)
Inductive holds : block -> list piece -> Prop :=
| holds_thinking ps : Forall is_thinking ps -> holds BThinking (ps ++ [DSignature])
| holds_text ps : Forall is_text ps -> holds BText ps
| holds_tool id name s : legal_id id -> legal_name name -> s <> "" -> holds (BTool id name) [DJson s].
(** Closed blocks numbered from [i] up to, not including, [j]. *)
Inductive blocks : Z -> list event -> Z -> Prop :=
| blocks_nil i : blocks i [] i
| blocks_cons i b ps es j : holds b ps -> blocks (i + 1) es j ->
    blocks i (BlockStart i b :: map (BlockDelta i) ps ++ BlockStop i :: es) j.
(** A block being written, as the flags and the kind of the converter say. *)
Inductive writing : bool -> bool -> option kind -> Z -> list event -> Prop :=
| writing_none k i : writing false false k i []
| writing_thinking i ps : Forall is_thinking ps ->
    writing true false (Some Thinking) i (BlockStart i BThinking :: map (BlockDelta i) ps)
| writing_text i ps : Forall is_text ps -> writing false true (Some Text) i (BlockStart i BText :: map (BlockDelta i) ps).

Lemma blocks_app i es j es' k : blocks i es j -> blocks j es' k -> blocks i (es ++ es') k.
Proof.
  induction 1 as [|i b ps es j Hb _ IH]; intros H'; [done|]. simpl. rewrite <- app_assoc. simpl. constructor; [done|by apply IH].
Qed.
Lemma blocks_one i b ps : holds b ps -> blocks i (BlockStart i b :: map (BlockDelta i) ps ++ [BlockStop i]) (i + 1).
Proof. intros H. apply (blocks_cons i b ps []); [done|constructor]. Qed.
Lemma blocks_le i es j : blocks i es j -> i <= j.
Proof. induction 1; lia. Qed.

(** The text and the thinking a list of events carries. *)
Fixpoint text_of (es : list event) : string :=
  match es with [] => "" | BlockDelta _ (DText s) :: es' => s +++ text_of es' | _ :: es' => text_of es' end.
Fixpoint thinking_of (es : list event) : string :=
  match es with [] => "" | BlockDelta _ (DThinking s) :: es' => s +++ thinking_of es' | _ :: es' => thinking_of es' end.
Lemma text_of_app a b : text_of (a ++ b) = text_of a +++ text_of b.
Proof. induction a as [|[| | |? []| | |] a IH]; simpl; rewrite ?IH, ?append_assoc; done. Qed.
Lemma thinking_of_app a b : thinking_of (a ++ b) = thinking_of a +++ thinking_of b.
Proof. induction a as [|[| | |? []| | |] a IH]; simpl; rewrite ?IH, ?append_assoc; done. Qed.

(** ** The invariant of the converter *)

(** What was sent so far and the converter's state agree. *)
Definition shape (pre : list event) (s : conv) : Prop :=
  text_of pre = cv_text s /\ thinking_of pre = cv_reasoning s /\
  if cv_started s
  then exists id n closed tail, pre = MessageStart id n :: Ping :: closed ++ tail /\ blocks 0 closed (cv_index s) /\
         writing (cv_thinking_open s) (cv_text_open s) (cv_current s) (cv_index s) tail
  else pre = [] /\ cv_index s = 0 /\ cv_thinking_open s = false /\ cv_text_open s = false.
Definition shape_out (pre : list event) (o : out) : Prop :=
  match o with
  | (es, Some s) => shape (pre ++ es) s
  | (es, None) => exists s, shape (pre ++ es) s
  end.
Definition keeps (k : conv -> out) : Prop := forall pre s, shape pre s -> shape_out pre (k s).

Lemma shape_andthen pre o k :
  shape_out pre o -> (forall es s, o = (es, Some s) -> shape (pre ++ es) s -> shape_out (pre ++ es) (k s)) -> shape_out pre (andthen o k).
Proof.
  destruct o as [es [s|]]; simpl; [|done]. intros H Hk. specialize (Hk es s eq_refl H). destruct (k s) as [es' [s'|]]; simpl in *.
  - by rewrite app_assoc.
  - destruct Hk as [s' Hk]. exists s'. by rewrite app_assoc.
Qed.
Lemma keeps_andthen k k' : keeps k -> keeps k' -> keeps (fun s => andthen (k s) k').
Proof. intros H H' pre s Hs. apply shape_andthen; [by apply H|]. intros es s' _ Hs'. by apply H'. Qed.
Lemma shape_idle pre s : shape pre s -> shape_out pre ([], Some s).
Proof. intros H. simpl. by rewrite app_nil_r. Qed.

Section convert.
Variables (py_str : json -> string) (estimate : string -> Z) (fresh_id : json) (hex : nat -> string).

Lemma start_keeps : keeps (_message_start_events fresh_id).
Proof.
  intros pre s H. unfold _message_start_events. destruct (cv_started s) eqn:E; [by apply shape_idle|].
  destruct H as (Ht & Hr & H). rewrite E in H. destruct H as (-> & Hi & Hk & Hx). repeat split; [done|done|].
  eexists _, _, [], []. simpl. rewrite Hi, Hk, Hx. split; [done|split; constructor].
Qed.
Lemma start_started s es s' : _message_start_events fresh_id s = (es, Some s') -> cv_started s' = true.
Proof. unfold _message_start_events. destruct (cv_started s) eqn:E; intros [= <- <-]; done. Qed.

(** Closing leaves nothing open and touches nothing else. *)
Lemma close_keeps : keeps _close_open_block.
Proof.
  intros pre s H. pose proof H as (Ht & Hr & Hs). unfold _close_open_block. destruct (cv_started s) eqn:E.
  - destruct Hs as (id & n & closed & tail & -> & Hb & Hw).
    destruct (cv_thinking_open s) eqn:Ek; [|destruct (cv_text_open s) eqn:Ex; [|by apply shape_idle]].
    + inversion Hw as [|i ps Hps|]; subst. split; [by rewrite text_of_app, Ht, append_nil_r|].
      split; [by rewrite thinking_of_app, Hr, append_nil_r|]. simpl. rewrite E.
      exists id, n, (closed ++ BlockStart (cv_index s) BThinking :: map (BlockDelta (cv_index s)) (ps ++ [DSignature]) ++ [BlockStop (cv_index s)]), [].
      split; [|split; [|constructor]].
      * rewrite map_app. by list_simplifier.
      * eapply blocks_app; [done|]. apply blocks_one. by constructor.
    + inversion Hw as [| |i ps Hps]; subst. split; [by rewrite text_of_app, Ht, append_nil_r|].
      split; [by rewrite thinking_of_app, Hr, append_nil_r|]. simpl. rewrite E.
      exists id, n, (closed ++ BlockStart (cv_index s) BText :: map (BlockDelta (cv_index s)) ps ++ [BlockStop (cv_index s)]), [].
      split; [|split; [|constructor]].
      * by list_simplifier.
      * eapply blocks_app; [done|]. apply blocks_one. by constructor.
  - destruct Hs as (-> & Hi & -> & ->). by apply shape_idle.
Qed.
Lemma close_closed pre s es s' : shape pre s -> _close_open_block s = (es, Some s') ->
  cv_thinking_open s' = false /\ cv_text_open s' = false /\ cv_started s' = cv_started s /\ cv_tools s' = cv_tools s /\
  cv_finish s' = cv_finish s.
Proof.
  intros (_ & _ & H). unfold _close_open_block. destruct (cv_started s) eqn:E.
  - destruct H as (id & n & closed & tail & -> & _ & Hw).
    inversion Hw as [k i Ek Ex|i ps Hps Ek Ex|i ps Hps Ek Ex]; intros [= <- <-]; simpl; rewrite ?E, <- ?Ek, <- ?Ex; done.
  - destruct H as (_ & _ & Hk & Hx). rewrite Hk, Hx. intros [= <- <-]. by rewrite Hk, Hx.
Qed.
Lemma current_keeps k pre s :
  cv_thinking_open s = false -> cv_text_open s = false -> shape pre s -> shape pre (set_current k s).
Proof.
  intros Hk Hx (Ht & Hr & H). repeat split; [done|done|]. simpl. rewrite Hk, Hx in *. destruct (cv_started s); [|done].
  destruct H as (id & n & closed & tail & -> & Hb & Hw). exists id, n, closed, tail.
  split; [done|split; [done|]]. inversion Hw. constructor.
Qed.

(** The block of the previous kind is closed first. *)
Definition switch (k : kind) (s : conv) : out :=
  if bool_decide (cv_current s = Some k) then ([], Some s)
  else andthen (_close_open_block s) (fun s => ([], Some (set_current (Some k) s))).
Lemma switch_keeps k : keeps (switch k).
Proof.
  intros pre s H. unfold switch. case_bool_decide as E; [by apply shape_idle|]. apply shape_andthen; [by apply close_keeps|].
  intros es s' Hc Hs'. destruct (close_closed pre s es s' H Hc) as (Hk & Hx & _). simpl. rewrite app_nil_r. by apply current_keeps.
Qed.
Lemma switch_current k pre s es s' : shape pre s -> switch k s = (es, Some s') ->
  cv_current s' = Some k /\ cv_started s' = cv_started s.
Proof.
  intros H. unfold switch. case_bool_decide as E; [by intros [= <- <-]|].
  destruct (_close_open_block s) as [es1 [s1|]] eqn:Ec; simpl; [|done]. intros [= <- <-].
  by destruct (close_closed pre s es1 s1 H Ec) as (_ & _ & Hst & _).
Qed.

(** One sub-frame is written into the block of its kind. *)
Definition write_frame (kv : kind * json) (s : conv) : out :=
  match kv with
  | (Thinking, JStr v) =>
      let s := add_text "" v s in
      ((if cv_thinking_open s then [] else [BlockStart (cv_index s) BThinking]) ++ [BlockDelta (cv_index s) (DThinking v)],
       Some (set_open true (cv_text_open s) (cv_index s) s))
  | (Text, JStr v) =>
      let s := add_text v "" s in
      ((if cv_text_open s then [] else [BlockStart (cv_index s) BText]) ++ [BlockDelta (cv_index s) (DText v)],
       Some (set_open (cv_thinking_open s) true (cv_index s) s))
  | (ToolUse, v) => match extended v with Some l => ([], Some (add_tools l s)) | None => ([], None) end
  | _ => ([], None)
  end.
Lemma sub_frame_eq kv s :
  sub_frame fresh_id kv s = andthen (_message_start_events fresh_id s) (fun s => andthen (switch kv.1 s) (write_frame kv)).
Proof. reflexivity. Qed.

Lemma write_keeps kv pre s :
  cv_started s = true -> cv_current s = Some kv.1 -> shape pre s -> shape_out pre (write_frame kv s).
Proof.
  intros E Hc H. assert (Hno : shape_out pre ([], None)) by (exists s; by rewrite app_nil_r).
  pose proof H as (Ht & Hr & Hs). rewrite E in Hs. destruct Hs as (id & n & closed & tail & Hpre & Hb & Hw).
  destruct kv as [k v]. simpl in Hc. rewrite Hc in Hw. destruct k.
  - destruct v as [| | |v| |]; [done..| |done|done]. simpl. split; [by rewrite text_of_app, Ht; destruct (cv_thinking_open s)|].
    split; [by rewrite thinking_of_app, Hr; destruct (cv_thinking_open s); simpl; rewrite append_nil_r|]. simpl. rewrite E, Hc, Hpre.
    exists id, n, closed. inversion Hw as [k i Ek Ex|i ps Hps Ek Ex|]; subst; simpl.
    + eexists. split; [by list_simplifier|]. split; [done|]. apply (writing_thinking _ [DThinking v]). constructor; [by eexists|done].
    + exists (BlockStart (cv_index s) BThinking :: map (BlockDelta (cv_index s)) (ps ++ [DThinking v])).
      split; [rewrite map_app; by list_simplifier|]. split; [done|]. constructor. apply Forall_app. split; [done|].
      constructor; [by eexists|done].
  - destruct v as [| | |v| |]; [done..| |done|done]. simpl.
    split; [by rewrite text_of_app, Ht; destruct (cv_text_open s); simpl; rewrite append_nil_r|].
    split; [by rewrite thinking_of_app, Hr; destruct (cv_text_open s)|]. simpl. rewrite E, Hc, Hpre.
    exists id, n, closed. inversion Hw as [k i Ek Ex| |i ps Hps Ek Ex]; subst; simpl.
    + eexists. split; [by list_simplifier|]. split; [done|]. apply (writing_text _ [DText v]). constructor; [by eexists|done].
    + exists (BlockStart (cv_index s) BText :: map (BlockDelta (cv_index s)) (ps ++ [DText v])).
      split; [rewrite map_app; by list_simplifier|]. split; [done|]. constructor. apply Forall_app. split; [done|].
      constructor; [by eexists|done].
  - simpl. destruct (extended v) as [l|]; [|done]. simpl. rewrite app_nil_r. split; [done|split; [done|]]. simpl. rewrite E, Hc, Hpre.
    by exists id, n, closed, tail.
Qed.
Lemma sub_frame_keeps kv : keeps (sub_frame fresh_id kv).
Proof.
  intros pre s H. rewrite sub_frame_eq. apply shape_andthen; [by apply start_keeps|]. intros es s1 E1 H1.
  apply start_started in E1. apply shape_andthen; [by apply switch_keeps|]. intros es2 s2 E2 H2.
  destruct (switch_current _ _ _ _ _ H1 E2) as [Hc Hst]. apply write_keeps; [congruence|done|done].
Qed.
Lemma sub_frames_keeps l : keeps (sub_frames fresh_id l).
Proof.
  induction l as [|kv l IH]; intros pre s H; simpl; [by apply shape_idle|]. by apply keeps_andthen; [apply sub_frame_keeps|..].
Qed.

(** A frame's identifier and usage are noted; nothing else changes. *)
Lemma note_spec frame s s' : note_frame frame s = Some s' ->
  exists id i o, s' = Conv id (cv_started s) (cv_index s) (cv_thinking_open s) (cv_text_open s) (cv_tools s) (cv_finish s) i o
                        (cv_text s) (cv_reasoning s) (cv_current s).
Proof.
  unfold note_frame. destruct (frame_usage frame) as [v|]; [|by intros [= <-]; eexists _, _, _].
  destruct (json_truthy v); [|by intros [= <-]; eexists _, _, _]. destruct v; try done.
  destruct (normalize_usage _); [|done]. by intros [= <-]; eexists _, _, _.
Qed.
Lemma note_keeps frame pre s s' : note_frame frame s = Some s' -> shape pre s -> shape pre s'.
Proof. intros H. by apply note_spec in H as (id & i & o & ->). Qed.
Lemma finish_keeps d : keeps (finish_frame d).
Proof.
  intros pre s H. unfold finish_frame. destruct (_ && _); [|by apply shape_idle]. apply shape_andthen; [by apply close_keeps|].
  intros es s' Hc Hs'. destruct (close_closed pre s es s' H Hc) as (Hk & Hx & _). simpl. rewrite app_nil_r. by apply current_keeps.
Qed.
Lemma choice_keeps choice : keeps (choice_frame fresh_id choice).
Proof.
  intros pre s H. unfold choice_frame. apply keeps_andthen; [apply sub_frames_keeps|apply finish_keeps|].
  by destruct (truthy_field "finish_reason" choice).
Qed.
Lemma step_keeps frame : keeps (step_frame fresh_id frame).
Proof.
  intros pre s H. unfold step_frame.
  assert (Hno : shape_out pre ([], None)) by (eexists; rewrite app_nil_r; exact H).
  destruct (note_frame frame s) as [s1|] eqn:E; [|exact Hno]. apply (note_keeps frame pre) in E; [|exact H].
  destruct (truthy_field "choices" frame) as [[| | | |[|[| | | | |choice] l]|]|]; try exact Hno; [by apply choice_keeps|by apply shape_idle].
Qed.
Lemma steps_keeps frames : keeps (step_frames fresh_id frames).
Proof.
  induction frames as [|f frames IH]; intros pre s H; simpl; [by apply shape_idle|]. by apply keeps_andthen; [apply step_keeps|..].
Qed.
Lemma start_shape input : shape [] (conv_start input).
Proof. by repeat split. Qed.

(** ** What the upstream said *)

(** The text (or thinking) of a frame, its fragments of tool calls and its finish. *)
Definition said (k : kind) (kv : kind * json) : string :=
  match kv with (k', JStr v) => if decide (k' = k) then v else "" | _ => "" end.
Definition offered (kv : kind * json) : list json :=
  match kv with (ToolUse, v) => default [] (extended v) | _ => [] end.
Definition choice_of (frame : list (string * json)) : list (string * json) :=
  match truthy_field "choices" frame with Some (JArr (JObj choice :: _)) => choice | _ => [] end.
Definition delta_of (frame : list (string * json)) : list (string * json) :=
  match dict_get "delta" (choice_of frame) with Some (JObj d) => d | _ => [] end.
Definition text_in (v : option json) : string := match v with Some (JStr s) => s | _ => "" end.
Definition said_in (k : kind) (frame : list (string * json)) : string :=
  let d := delta_of frame in
  match k with
  | Text => text_in (dict_get "content" d)
  | Thinking => text_in (first_truthy (dict_get "reasoning_content" d) (dict_get "reasoning" d) (dict_get "thinking" d))
  | ToolUse => ""
  end.
Definition spoken (k : kind) (frames : list (list (string * json))) : string := foldr (fun f t => said_in k f +++ t) "" frames.
Definition calls_of (frame : list (string * json)) : list json :=
  match truthy_field "tool_calls" (delta_of frame) with Some v => default [] (extended v) | None => [] end.
Definition fragments (frames : list (list (string * json))) : list json := frames ≫= calls_of.
Fixpoint last_finish (f : option json) (frames : list (list (string * json))) : option json :=
  match frames with
  | [] => f
  | frame :: frames' => last_finish (match truthy_field "finish_reason" (choice_of frame) with Some v => Some v | None => f end) frames'
  end.

(** The parts of a frame carry what it says. *)
Definition parts_of (frame : list (string * json)) : list (kind * json) := _extract_sub_frames (delta_of frame).
Definition all_said (k : kind) (parts : list (kind * json)) : string := foldr (fun kv t => said k kv +++ t) "" parts.
Lemma parts_say frame : all_said Text (parts_of frame) = said_in Text frame /\
  all_said Thinking (parts_of frame) = said_in Thinking frame /\ parts_of frame ≫= offered = calls_of frame.
Proof.
  assert (Ht : forall v : json, json_truthy v = false -> text_in (Some v) = "") by (intros [| | |[|]| |]; done).
  unfold parts_of, said_in, calls_of, truthy_field, _extract_sub_frames. set (d := delta_of frame). cbv zeta.
  assert (Hk : forall k v, all_said Text (if_truthy k v) = (if decide (k = Text) then text_in v else "") /\
    all_said Thinking (if_truthy k v) = (if decide (k = Thinking) then text_in v else "") /\
    if_truthy k v ≫= offered = match v with Some w => if json_truthy w then offered (k, w) else [] | None => [] end).
  { intros k [v|]; [|by destruct k]. simpl. destruct (json_truthy v) eqn:E.
    - destruct k, v; simpl; rewrite ?append_nil_r, ?app_nil_r; done.
    - pose proof (Ht v E) as Hv. simpl in Hv. destruct k; simpl; rewrite ?Hv; done. }
  assert (Happ : forall k a b, all_said k (a ++ b) = all_said k a +++ all_said k b).
  { intros k a b. induction a as [|x a IH]; simpl; [done|]. by rewrite IH, append_assoc. }
  rewrite !Happ, !bind_app.
  destruct (Hk Thinking (first_truthy (dict_get "reasoning_content" d) (dict_get "reasoning" d) (dict_get "thinking" d))) as (-> & -> & ->).
  destruct (Hk Text (dict_get "content" d)) as (-> & -> & ->). destruct (Hk ToolUse (dict_get "tool_calls" d)) as (-> & -> & ->).
  simpl. rewrite !append_nil_r. split; [done|split; [done|]].
  destruct (first_truthy _ _ _) as [v|]; [destruct (json_truthy v)|]; destruct (dict_get "content" d) as [w|];
    try destruct (json_truthy w); destruct (dict_get "tool_calls" d) as [u|]; try destruct (json_truthy u); done.
Qed.

Record gains (s s' : conv) (text thinking : string) (tools : list json) (finish : option json) : Prop := Gains {
  gain_text : cv_text s' = cv_text s +++ text;
  gain_thinking : cv_reasoning s' = cv_reasoning s +++ thinking;
  gain_tools : cv_tools s' = cv_tools s ++ tools;
  gain_finish : cv_finish s' = finish;
}.
Lemma gains_trans s s1 s2 t r l f t' r' l' f' :
  gains s s1 t r l f -> gains s1 s2 t' r' l' f' -> gains s s2 (t +++ t') (r +++ r') (l ++ l') f'.
Proof.
  intros [Ht Hr Hl Hf] [Ht' Hr' Hl' Hf'].
  constructor; [by rewrite Ht', Ht, append_assoc|by rewrite Hr', Hr, append_assoc|by rewrite Hl', Hl, app_assoc|done].
Qed.
Lemma gains_refl s : gains s s "" "" [] (cv_finish s).
Proof. constructor; by rewrite ?append_nil_r, ?app_nil_r. Qed.

Lemma start_gains s es s' : _message_start_events fresh_id s = (es, Some s') -> gains s s' "" "" [] (cv_finish s).
Proof.
  unfold _message_start_events. destruct (cv_started s); intros [= <- <-]; [apply gains_refl|].
  constructor; by rewrite ?append_nil_r, ?app_nil_r.
Qed.
Lemma close_gains s es s' : _close_open_block s = (es, Some s') -> gains s s' "" "" [] (cv_finish s).
Proof.
  unfold _close_open_block. destruct (cv_thinking_open s), (cv_text_open s); intros [= <- <-];
    constructor; by rewrite ?append_nil_r, ?app_nil_r.
Qed.
Lemma switch_gains k s es s' : switch k s = (es, Some s') -> gains s s' "" "" [] (cv_finish s).
Proof.
  unfold switch. case_bool_decide; [intros [= <- <-]; apply gains_refl|].
  destruct (_close_open_block s) as [es1 [s1|]] eqn:Ec; simpl; [|done]. intros [= <- <-].
  apply close_gains in Ec. by destruct Ec as [Ht Hr Hl Hf].
Qed.
Lemma write_gains kv s es s' :
  write_frame kv s = (es, Some s') -> gains s s' (said Text kv) (said Thinking kv) (offered kv) (cv_finish s).
Proof.
  destruct kv as [[] v]; simpl.
  - destruct v; try done. intros [= <- <-]. constructor; simpl; by rewrite ?append_nil_r, ?app_nil_r.
  - destruct v; try done. intros [= <- <-]. constructor; simpl; by rewrite ?append_nil_r, ?app_nil_r.
  - destruct (extended v) as [l|] eqn:Ev; [|done]. intros [= <- <-].
    constructor; simpl; rewrite ?Ev; try done; by destruct v; rewrite ?append_nil_r.
Qed.

Lemma sub_frame_gains kv s es s' :
  sub_frame fresh_id kv s = (es, Some s') -> gains s s' (said Text kv) (said Thinking kv) (offered kv) (cv_finish s).
Proof.
  rewrite sub_frame_eq. destruct (_message_start_events fresh_id s) as [es1 [s1|]] eqn:E1; simpl; [|done].
  destruct (switch kv.1 s1) as [es2 [s2|]] eqn:E2; simpl; [|done].
  destruct (write_frame kv s2) as [es3 [s3|]] eqn:E3; [|done]. intros [= _ <-].
  apply start_gains in E1. apply switch_gains in E2. apply write_gains in E3.
  rewrite (gain_finish _ _ _ _ _ _ E2), (gain_finish _ _ _ _ _ _ E1) in E3.
  exact (gains_trans _ _ _ _ _ _ _ _ _ _ _ E1 (gains_trans _ _ _ _ _ _ _ _ _ _ _ E2 E3)).
Qed.
Lemma sub_frames_gains l s es s' :
  sub_frames fresh_id l s = (es, Some s') -> gains s s' (all_said Text l) (all_said Thinking l) (l ≫= offered) (cv_finish s).
Proof.
  revert s es. induction l as [|kv l IH]; intros s es; simpl; [intros [= _ <-]; apply gains_refl|].
  destruct (sub_frame fresh_id kv s) as [es1 [s1|]] eqn:E1; simpl; [|done].
  destruct (sub_frames fresh_id l s1) as [es2 [s2|]] eqn:E2; [|done]. intros [= _ <-].
  apply IH in E2. apply sub_frame_gains in E1. rewrite (gain_finish _ _ _ _ _ _ E1) in E2. by eapply gains_trans.
Qed.
Lemma finish_gains d s es s' : finish_frame d s = (es, Some s') -> gains s s' "" "" [] (cv_finish s).
Proof.
  unfold finish_frame. destruct (_ && _); [|intros [= _ <-]; apply gains_refl].
  destruct (_close_open_block s) as [es1 [s1|]] eqn:Ec; simpl; [|done]. intros [= _ <-].
  apply close_gains in Ec. by destruct Ec.
Qed.
Lemma note_gains frame s s' : note_frame frame s = Some s' -> gains s s' "" "" [] (cv_finish s).
Proof. intros H. apply note_spec in H as (id & i & o & ->). constructor; by rewrite ?append_nil_r, ?app_nil_r. Qed.
Lemma choice_gains choice s es s' : choice_frame fresh_id choice s = (es, Some s') ->
  let parts := _extract_sub_frames (match dict_get "delta" choice with Some (JObj d) => d | _ => [] end) in
  gains s s' (all_said Text parts) (all_said Thinking parts) (parts ≫= offered)
    (match truthy_field "finish_reason" choice with Some v => Some v | None => cv_finish s end).
Proof.
  unfold choice_frame. set (parts := _extract_sub_frames _). set (s0 := match truthy_field _ _ with Some f => _ | None => _ end).
  intros H. cbv zeta. destruct (sub_frames fresh_id parts s0) as [es1 [s1|]] eqn:E1; simpl in H; [|done].
  destruct (finish_frame _ s1) as [es2 [s2|]] eqn:E2; [|done]. injection H as _ <-.
  apply sub_frames_gains in E1. apply finish_gains in E2.
  destruct E1 as [Ht Hr Hl Hf], E2 as [Ht' Hr' Hl' Hf']. subst s0.
  constructor; rewrite ?Ht', ?Hr', ?Hl', ?Hf', ?Ht, ?Hr, ?Hl, ?Hf, ?append_nil_r, ?app_nil_r; by destruct (truthy_field _ choice).
Qed.
Lemma step_gains frame s es s' : step_frame fresh_id frame s = (es, Some s') ->
  gains s s' (all_said Text (parts_of frame)) (all_said Thinking (parts_of frame)) (parts_of frame ≫= offered)
    (match truthy_field "finish_reason" (choice_of frame) with Some v => Some v | None => cv_finish s end).
Proof.
  unfold step_frame, parts_of, delta_of, choice_of. destruct (note_frame frame s) as [s1|] eqn:En; [|done].
  apply note_gains in En as Hn. destruct (truthy_field "choices" frame) as [[| | | |[|[| | | | |choice] l]|]|]; try done.
  - intros H. apply choice_gains in H. cbv zeta in H. rewrite (gain_finish _ _ _ _ _ _ Hn) in H.
    exact (gains_trans _ _ _ _ _ _ _ _ _ _ _ Hn H).
  - intros [= _ <-]. done.
Qed.
Lemma steps_gains frames s es s' : step_frames fresh_id frames s = (es, Some s') ->
  gains s s' (spoken Text frames) (spoken Thinking frames) (fragments frames) (last_finish (cv_finish s) frames).
Proof.
  revert s es. induction frames as [|f frames IH]; intros s es; simpl; [intros [= _ <-]; apply gains_refl|].
  destruct (step_frame fresh_id f s) as [es1 [s1|]] eqn:E1; simpl; [|done].
  destruct (step_frames fresh_id frames s1) as [es2 [s2|]] eqn:E2; [|done]. intros [= _ <-].
  apply IH in E2. apply step_gains in E1. rewrite (gain_finish _ _ _ _ _ _ E1) in E2.
  destruct (parts_say f) as (Ht & Hr & Hl). rewrite Ht, Hr, Hl in E1. unfold spoken, fragments. simpl. by eapply gains_trans.
Qed.

(** ** The tools *)

(** What an event shows of a tool: the block it starts, the input it gives. *)
Definition tool_of (e : event) : option (string * string) :=
  match e with BlockStart _ (BTool id name) => Some (id, name) | _ => None end.
Definition input_of (e : event) : option string := match e with BlockDelta _ (DJson s) => Some s | _ => None end.
(** No event is about a tool. *)
Definition plain (es : list event) : Prop := omap tool_of es = [] /\ omap input_of es = [].
Lemma plain_app a b : plain a -> plain b -> plain (a ++ b).
Proof. intros [Ha Ha'] [Hb Hb']. unfold plain. by rewrite !omap_app, Ha, Hb, Ha', Hb'. Qed.
Lemma plain_andthen o k : plain o.1 -> (forall s, plain (k s).1) -> plain (andthen o k).1.
Proof.
  destruct o as [es [s|]]; simpl; [|done]. intros H Hk. specialize (Hk s). destruct (k s). by apply plain_app.
Qed.
Lemma start_plain s : plain (_message_start_events fresh_id s).1.
Proof. unfold _message_start_events. by destruct (cv_started s). Qed.
Lemma close_plain s : plain (_close_open_block s).1.
Proof. unfold _close_open_block. by destruct (cv_thinking_open s), (cv_text_open s). Qed.
Lemma sub_frames_plain l s : plain (sub_frames fresh_id l s).1.
Proof.
  revert s. induction l as [|kv l IH]; intros s; [done|]. apply plain_andthen; [|done]. rewrite sub_frame_eq.
  apply plain_andthen; [apply start_plain|]. intros s1. apply plain_andthen.
  - unfold switch. case_bool_decide; [done|]. apply plain_andthen; [apply close_plain|done].
  - intros s2. destruct kv as [[] v]; simpl.
    + destruct v; try done. by destruct (cv_thinking_open s2).
    + destruct v; try done. by destruct (cv_text_open s2).
    + by destruct (extended v).
Qed.
Lemma steps_plain frames s : plain (step_frames fresh_id frames s).1.
Proof.
  revert s. induction frames as [|f frames IH]; intros s; [done|]. apply plain_andthen; [|done]. unfold step_frame.
  destruct (note_frame f s) as [s0|]; [|done]. destruct (truthy_field "choices" f) as [[| | | |[|[| | | | |choice] l]|]|]; try done.
  unfold choice_frame. apply plain_andthen; [apply sub_frames_plain|]. intros s1. unfold finish_frame.
  destruct (_ && _); [|done]. apply plain_andthen; [apply close_plain|done].
Qed.

(** Merged calls are legal, and the tool blocks show them as they are. *)
Definition legal_call (c : merged_call) : Prop := legal_id (mc_id c) /\ legal_name (mc_name c) /\ mc_arguments c <> "".
Hypothesis hex_legal : forall k, all_legal (hex k) = true.

Lemma merged_legal parts calls : _merge_tool_calls py_str hex parts = Some calls -> Forall legal_call calls.
Proof.
  unfold _merge_tool_calls. destruct (merge_fragments parts []) as [m|]; [|done]. intros [= <-].
  apply Forall_lookup. intros k c. rewrite list_lookup_imap. destruct (m !! k) as [[i tc]|]; [|done]. intros [= <-].
  split; [by apply sanitize_id_legal|split; [apply sanitize_name_legal|]]. simpl. unfold str_or.
  destruct (str_truthy (tc_arguments tc)) eqn:E; [by apply str_truthy_spec|done].
Qed.
Lemma tool_blocks i calls : Forall legal_call calls -> blocks i (tool_events py_str hex i calls) (i + Z.of_nat (length calls)).
Proof.
  intros H. revert i. induction H as [|c calls (Hid & Hn & Ha) _ IH]; intros i; simpl; [rewrite Z.add_0_r; constructor|].
  rewrite sanitize_id_same, sanitize_name_same by done. unfold str_or. rewrite (proj2 (str_truthy_spec _) Ha).
  replace (i + Z.of_nat (S (length calls))) with (i + 1 + Z.of_nat (length calls)) by lia.
  apply (blocks_cons i (BTool (mc_id c) (mc_name c)) [DJson (mc_arguments c)]); [by constructor|apply IH].
Qed.
Lemma tool_events_show i calls : Forall legal_call calls ->
  omap tool_of (tool_events py_str hex i calls) = (fun c => (mc_id c, mc_name c)) <$> calls /\
  omap input_of (tool_events py_str hex i calls) = mc_arguments <$> calls.
Proof.
  intros H. revert i. induction H as [|c calls (Hid & Hn & Ha) _ IH]; intros i; [done|]. cbn -[sanitize_anthropic_tool_id sanitize_anthropic_tool_name].
  rewrite sanitize_id_same, sanitize_name_same by done. unfold str_or. rewrite (proj2 (str_truthy_spec _) Ha).
  destruct (IH (i + 1)) as [-> ->]. done.
Qed.
Lemma tool_events_silent i calls : text_of (tool_events py_str hex i calls) = "" /\ thinking_of (tool_events py_str hex i calls) = "".
Proof. revert i. induction calls as [|c calls IH]; intros i; [done|]. apply (IH (i + 1)). Qed.

(** ** The end of the stream *)

Lemma andthen_assoc o k k' : andthen (andthen o k) k' = andthen o (fun s => andthen (k s) k').
Proof.
  destruct o as [es [s|]]; simpl; [|done]. destruct (k s) as [es1 [s1|]]; simpl; [|done].
  destruct (k' s1) as [es2 r]. by rewrite app_assoc.
Qed.
(** After the last block is closed: the tools, a block when there was none, the reason. *)
Definition shown (i : Z) (calls : list merged_call) : list event :=
  tool_events py_str hex i calls ++ (if i + Z.of_nat (length calls) =? 0 then [BlockStart 0 BText; BlockStop 0] else []).
Definition finale (s : conv) : out :=
  match _merge_tool_calls py_str hex (cv_tools s) with
  | None => ([], None)
  | Some calls =>
      match stop_reason_of (cv_finish s) with
      | None => (shown (cv_index s) calls, None)
      | Some reason =>
          (shown (cv_index s) calls ++ [MessageDelta reason (cv_input s) (if 0 <? cv_output s then cv_output s else
             estimate (cv_reasoning s +++ cv_text s +++ match calls with [] => "" | _ => String "010" (dump_calls calls) end)); MessageStop], Some s)
      end
  end.
Lemma end_eq s : end_of_stream py_str estimate fresh_id hex s =
  andthen (andthen (_message_start_events fresh_id s) _close_open_block) finale.
Proof. by rewrite andthen_assoc. Qed.

Lemma wind_up pre s : shape pre s -> exists es s',
  andthen (_message_start_events fresh_id s) _close_open_block = (es, Some s') /\ plain es /\ gains s s' "" "" [] (cv_finish s) /\
  text_of (pre ++ es) = cv_text s' /\ thinking_of (pre ++ es) = cv_reasoning s' /\
  exists id n closed, pre ++ es = MessageStart id n :: Ping :: closed /\ blocks 0 closed (cv_index s').
Proof.
  intros H. pose proof (keeps_andthen _ _ start_keeps close_keeps pre s H) as Hout.
  assert (Hp : plain (andthen (_message_start_events fresh_id s) _close_open_block).1)
    by (apply plain_andthen; [apply start_plain|apply close_plain]).
  pose proof (start_keeps pre s H) as H1. revert H1 Hp Hout.
  destruct (_message_start_events fresh_id s) as [es1 [s1|]] eqn:E1.
  2: { unfold _message_start_events in E1. by destruct (cv_started s). }
  simpl. intros H1. destruct (_close_open_block s1) as [es2 [s2|]] eqn:E2.
  2: { unfold _close_open_block in E2. by destruct (cv_thinking_open s1), (cv_text_open s1). }
  intros Hp Hout. rewrite E1 in Hout. simpl in Hout. rewrite E2 in Hout. exists (es1 ++ es2), s2. split; [done|split; [done|]]. split.
  { pose proof (start_gains _ _ _ E1) as G1. pose proof (close_gains _ _ _ E2) as G2. rewrite (gain_finish _ _ _ _ _ _ G1) in G2.
    exact (gains_trans _ _ _ _ _ _ _ _ _ _ _ G1 G2). }
  destruct Hout as (Ht & Hr & Hs). split; [done|split; [done|]].
  destruct (close_closed _ _ _ _ H1 E2) as (Hk & Hx & Hst & _). rewrite Hst, (start_started _ _ _ E1) in Hs.
  destruct Hs as (id & n & closed & tail & -> & Hb & Hw). rewrite Hk, Hx in Hw. inversion Hw.
  exists id, n, closed. by rewrite app_nil_r.
Qed.
Lemma shown_blocks i calls : 0 <= i -> Forall legal_call calls -> exists j, blocks i (shown i calls) j /\ 0 < j.
Proof.
  intros Hi Hc. unfold shown. pose proof (tool_blocks i calls Hc) as Hb. destruct (Z.eqb_spec (i + Z.of_nat (length calls)) 0) as [E|E].
  - exists 1. split; [|lia]. eapply blocks_app; [exact Hb|]. rewrite E. apply (blocks_one 0 BText []). by constructor.
  - eexists. rewrite app_nil_r. split; [exact Hb|lia].
Qed.
Lemma shown_says i calls : Forall legal_call calls ->
  text_of (shown i calls) = "" /\ thinking_of (shown i calls) = "" /\
  omap tool_of (shown i calls) = (fun c => (mc_id c, mc_name c)) <$> calls /\ omap input_of (shown i calls) = mc_arguments <$> calls.
Proof.
  intros Hc. unfold shown. destruct (tool_events_silent i calls) as [Ht Hr]. destruct (tool_events_show i calls Hc) as [Hi Hn].
  rewrite text_of_app, thinking_of_app, !omap_app, Ht, Hr, Hi, Hn. by destruct (_ =? 0); simpl; rewrite ?app_nil_r.
Qed.

(** ** What the client receives *)

Lemma stream_run_eq input chunks es s :
  convert_stream_to_anthropic py_str estimate fresh_id hex input chunks = (es, Some s) -> exists es1 s1 es2 s2 calls reason o,
  es = es1 ++ es2 ++ shown (cv_index s2) calls ++ [MessageDelta reason (cv_input s2) o; MessageStop] /\
  step_frames fresh_id (chunks ≫= frames_of_chunk) (conv_start input) = (es1, Some s1) /\
  andthen (_message_start_events fresh_id s1) _close_open_block = (es2, Some s2) /\
  _merge_tool_calls py_str hex (cv_tools s2) = Some calls /\ stop_reason_of (cv_finish s2) = Some reason.
Proof.
  unfold convert_stream_to_anthropic. destruct (step_frames _ _ _) as [es1 [s1|]] eqn:E1; simpl; [|done]. rewrite end_eq.
  destruct (andthen (_message_start_events fresh_id s1) _close_open_block) as [es2 [s2|]] eqn:E2; simpl; [|done].
  unfold finale. destruct (_merge_tool_calls py_str hex (cv_tools s2)) as [calls|] eqn:Em; [|done].
  destruct (stop_reason_of (cv_finish s2)) as [reason|] eqn:Er; [|done]. intros [= <- _].
  by eexists es1, s1, es2, s2, calls, reason, _.
Qed.
Lemma stop_reason_known f r : stop_reason_of f = Some r -> r ∈ ["end_turn"; "tool_use"; "max_tokens"].
Proof.
  assert (Hd : "end_turn" ∈ ["end_turn"; "tool_use"; "max_tokens"]) by set_solver.
  destruct f as [[| | |s| |]|]; cbn; try (intros [= <-]; exact Hd); try done.
  repeat (case_decide; [intros [= <-]; set_solver|]). by intros [= <-].
Qed.

(** C29: A stream that ends without an exception is a complete message, whatever its
    chunks held: the start and a ping, at least one block, the blocks numbered from 0
    without a gap and each closed before the next is opened, what they hold of their
    kind, tools under legal identifiers and names, then one known stop reason and the
    end. *)
Theorem stream_well_formed input chunks es s :
  convert_stream_to_anthropic py_str estimate fresh_id hex input chunks = (es, Some s) ->
  exists id n body j reason i o, es = MessageStart id n :: Ping :: body ++ [MessageDelta reason i o; MessageStop] /\
    blocks 0 body j /\ 0 < j /\ reason ∈ ["end_turn"; "tool_use"; "max_tokens"].
Proof.
  intros H. apply stream_run_eq in H as (es1 & s1 & es2 & s2 & calls & reason & o & -> & E1 & E2 & Em & Er).
  pose proof (steps_keeps (chunks ≫= frames_of_chunk) [] _ (start_shape input)) as H1. rewrite E1 in H1.
  destruct (wind_up es1 s1 H1) as (es2' & s2' & E2' & _ & _ & _ & _ & id & n & closed & Hpre & Hb).
  rewrite E2 in E2'. injection E2' as -> ->.
  destruct (shown_blocks (cv_index s2') calls) as (j & Hj & Hpos); [by eapply blocks_le|by eapply merged_legal|].
  exists id, n, (closed ++ shown (cv_index s2') calls), j, reason, (cv_input s2'), o.
  split; [rewrite app_assoc, Hpre; by list_simplifier|]. split; [by eapply blocks_app|]. split; [done|by eapply stop_reason_known].
Qed.

(** C30: What the message says is what the upstream said: its text and its thinking are
    those of the frames in their order, its tools are the merged fragments, and its
    reason translates the last finish reason given. *)
Theorem stream_content input chunks es s :
  let frames := chunks ≫= frames_of_chunk in
  convert_stream_to_anthropic py_str estimate fresh_id hex input chunks = (es, Some s) ->
  text_of es = spoken Text frames /\ thinking_of es = spoken Thinking frames /\
  exists calls reason pre i o,
    _merge_tool_calls py_str hex (fragments frames) = Some calls /\
    omap tool_of es = (fun c => (mc_id c, mc_name c)) <$> calls /\ omap input_of es = mc_arguments <$> calls /\
    stop_reason_of (last_finish None frames) = Some reason /\ es = pre ++ [MessageDelta reason i o; MessageStop].
Proof.
  intros frames H. apply stream_run_eq in H as (es1 & s1 & es2 & s2 & calls & reason & o & -> & E1 & E2 & Em & Er). fold frames in E1.
  pose proof (steps_keeps frames [] _ (start_shape input)) as H1. rewrite E1 in H1.
  pose proof (steps_plain frames (conv_start input)) as [P1 P1']. rewrite E1 in P1, P1'.
  destruct (wind_up es1 s1 H1) as (es2' & s2' & E2' & [P2 P2'] & G2 & Ht & Hr & _).
  rewrite E2 in E2'. injection E2' as -> ->. pose proof (steps_gains _ _ _ _ E1) as G1.
  destruct (gains_trans _ _ _ _ _ _ _ _ _ _ _ G1 G2) as [Gt Gr Gl Gf]. rewrite append_nil_r in Gt, Gr. rewrite app_nil_r in Gl.
  simpl in Gt, Gr, Gl, P1, P1'. rewrite (gain_finish _ _ _ _ _ _ G1) in Gf. rewrite Gl in Em. rewrite Gf in Er.
  destruct (shown_says (cv_index s2') calls) as (St & Sr & Si & Sn); [by eapply merged_legal|].
  split; [by rewrite app_assoc, text_of_app, Ht, Gt, text_of_app, St; apply append_nil_r|].
  split; [by rewrite app_assoc, thinking_of_app, Hr, Gr, thinking_of_app, Sr; apply append_nil_r|].
  exists calls, reason, (es1 ++ es2' ++ shown (cv_index s2') calls), (cv_input s2'), o. split; [done|].
  rewrite !omap_app, P1, P1', P2, P2', Si, Sn. simpl. rewrite !app_nil_r. split; [done|split; [done|split; [done|by list_simplifier]]].
Qed.

(** ** Failures *)

Definition fragment_ok (v : json) : bool :=
  match v with
  | JObj d => hashable (default JNull (dict_get "index" d)) &&
      match truthy_field "arguments" (match dict_get "function" d with Some (JObj f) => f | _ => [] end) with
      | None | Some (JObj _) | Some (JStr _) => true
      | Some _ => false
      end
  | _ => true
  end.
Definition part_ok (kv : kind * json) : bool :=
  match kv with
  | (ToolUse, v) => bool_decide (is_Some (extended v))
  | (_, v) => match v with JStr _ => true | _ => false end
  end.
Definition usage_ok (frame : list (string * json)) : bool :=
  match frame_usage frame with
  | Some (JObj u) => bool_decide (is_Some (normalize_usage (Some u)))
  | Some v => negb (json_truthy v)
  | None => true
  end.
Definition frame_ok (frame : list (string * json)) : bool :=
  usage_ok frame && match truthy_field "choices" frame with
  | None | Some (JArr (JObj _ :: _)) => forallb part_ok (parts_of frame)
  | Some _ => false
  end.
Lemma note_succeeds frame s : bool_decide (is_Some (note_frame frame s)) = usage_ok frame.
Proof.
  unfold note_frame, usage_ok. destruct (frame_usage frame) as [v|]; [|done].
  destruct v as [|b|t|t|l|d]; [done|by destruct b|by destruct (json_truthy _)..|].
  destruct d as [|kv d]; [done|]. cbn [json_truthy]. by destruct (normalize_usage _).
Qed.
Definition finish_ok (f : option json) : bool := match f with Some (JArr _) | Some (JObj _) => false | _ => true end.
Definition succeeds (o : out) : bool := bool_decide (is_Some o.2).

Lemma succeeds_andthen o k b : (forall s, succeeds (k s) = b) -> succeeds (andthen o k) = succeeds o && b.
Proof.
  destruct o as [es [s|]]; simpl; [|done]. intros Hk. rewrite <- (Hk s). unfold succeeds. simpl. by destruct (k s).
Qed.
Lemma start_succeeds s : succeeds (_message_start_events fresh_id s) = true.
Proof. unfold _message_start_events. by destruct (cv_started s). Qed.
Lemma close_succeeds s : succeeds (_close_open_block s) = true.
Proof. unfold _close_open_block. by destruct (cv_thinking_open s), (cv_text_open s). Qed.
Lemma sub_frames_succeed l s : succeeds (sub_frames fresh_id l s) = forallb part_ok l.
Proof.
  revert s. induction l as [|kv l IH]; intros s; [done|]. simpl. rewrite (succeeds_andthen _ _ _ IH). f_equal.
  rewrite sub_frame_eq. rewrite (succeeds_andthen _ _ (part_ok kv)); [by rewrite start_succeeds|]. intros s1.
  rewrite (succeeds_andthen _ _ (part_ok kv)).
  - unfold switch. case_bool_decide; [done|]. by rewrite (succeeds_andthen _ _ true), close_succeeds.
  - intros s2. destruct kv as [[] v]; simpl; [by destruct v..|]. by destruct (extended v).
Qed.
Lemma finish_succeeds d s : succeeds (finish_frame d s) = true.
Proof. unfold finish_frame. destruct (_ && _); [|done]. by rewrite (succeeds_andthen _ _ true), close_succeeds. Qed.
Lemma steps_succeed frames s : succeeds (step_frames fresh_id frames s) = forallb frame_ok frames.
Proof.
  revert s. induction frames as [|f frames IH]; intros s; [done|]. simpl. rewrite (succeeds_andthen _ _ _ IH). f_equal.
  unfold step_frame, frame_ok, parts_of, delta_of, choice_of. rewrite <- (note_succeeds f s).
  destruct (note_frame f s) as [s1|]; [|done]. rewrite andb_true_l.
  destruct (truthy_field "choices" f) as [[| | | |[|[| | | | |choice] l]|]|]; try done.
  unfold choice_frame. rewrite (succeeds_andthen _ _ true); [|apply finish_succeeds]. by rewrite sub_frames_succeed, andb_true_r.
Qed.

Lemma add_fragment_ok d c : bool_decide (is_Some (add_fragment d c)) =
  match truthy_field "arguments" (match dict_get "function" d with Some (JObj f) => f | _ => [] end) with
  | None | Some (JObj _) | Some (JStr _) => true
  | Some _ => false
  end.
Proof. unfold add_fragment. by destruct (truthy_field "arguments" _) as [[]|]. Qed.
Lemma put_fragment_ok idx d merged : bool_decide (is_Some (put_fragment idx d merged)) =
  match truthy_field "arguments" (match dict_get "function" d with Some (JObj f) => f | _ => [] end) with
  | None | Some (JObj _) | Some (JStr _) => true
  | Some _ => false
  end.
Proof.
  induction merged as [|[i c] merged IH]; simpl.
  - rewrite <- (add_fragment_ok d (ToolCall None None "")). by destruct (add_fragment d _).
  - rewrite <- (add_fragment_ok d c). rewrite <- (add_fragment_ok d c) in IH. destruct (same_index i idx); [by destruct (add_fragment d c)|].
    rewrite <- IH. by destruct (put_fragment idx d merged).
Qed.
Lemma merge_ok parts merged : bool_decide (is_Some (merge_fragments parts merged)) = forallb fragment_ok parts.
Proof.
  revert merged. induction parts as [|v parts IH]; intros merged; [done|]. destruct v as [| | | | |d]; simpl; try apply IH.
  assert (Hh : hashable (default (JNum (tostring (Z.of_nat (length merged)))) (dict_get "index" d)) =
    hashable (default JNull (dict_get "index" d))) by by destruct (dict_get "index" d).
  rewrite <- Hh. destruct (hashable _); [|done]. simpl.
  rewrite <- (put_fragment_ok (default (JNum (tostring (Z.of_nat (length merged)))) (dict_get "index" d)) d merged).
  destruct (put_fragment _ d merged) as [m|]; simpl; [apply IH|done].
Qed.


(** Even then the client has received the beginning of a message: nothing, or the
    start, complete blocks and at most one that is still open; never the end. *)
Theorem stream_prefix input chunks es :
  convert_stream_to_anthropic py_str estimate fresh_id hex input chunks = (es, None) ->
  es = [] \/ exists id n closed i thinking text k tail, es = MessageStart id n :: Ping :: closed ++ tail /\
    blocks 0 closed i /\ writing thinking text k i tail.
Proof.
  assert (Hshape : forall s, shape es s -> es = [] \/ exists id n closed i thinking text k tail,
    es = MessageStart id n :: Ping :: closed ++ tail /\ blocks 0 closed i /\ writing thinking text k i tail).
  { intros s (_ & _ & Hs). destruct (cv_started s); [|by left; destruct Hs]. right.
    destruct Hs as (id & n & closed & tail & -> & Hb & Hw). by eexists _, _, _, _, _, _, _, _. }
  unfold convert_stream_to_anthropic. pose proof (steps_keeps (chunks ≫= frames_of_chunk) [] _ (start_shape input)) as H1. revert H1.
  destruct (step_frames _ _ _) as [es1 [s1|]]; simpl; [|by intros [s H1] [= ->]; eapply Hshape].
  intros H1. rewrite end_eq. destruct (wind_up es1 s1 H1) as (es2 & s2 & -> & _ & _ & _ & _ & id & n & closed & Hpre & Hb).
  unfold finale. simpl. destruct (_merge_tool_calls py_str hex (cv_tools s2)) as [calls|] eqn:Em; simpl.
  - destruct (stop_reason_of (cv_finish s2)); [done|]. intros [= <-]. right.
    destruct (shown_blocks (cv_index s2) calls) as (j & Hj & _); [by eapply blocks_le|by eapply merged_legal|].
    exists id, n, (closed ++ shown (cv_index s2) calls), j, false, false, None, []. rewrite app_assoc, Hpre.
    split; [by list_simplifier|]. split; [by eapply blocks_app|constructor].
  - intros [= <-]. right. exists id, n, closed, (cv_index s2), false, false, None, []. rewrite app_nil_r, Hpre, app_nil_r.
    split; [done|split; [done|constructor]].
Qed.
End convert.

(** A thought, an answer, a tool call in two fragments and a finish; and a stream
    that breaks off. *)
Module StreamSample.
Definition chunk (v : json) : string := "data: " +++ dump_value v +++ String "010" (String "010" "").
Definition delta (d : list (string * json)) : json := JObj [("id", JStr "chatcmpl-1"); ("choices", JArr [JObj [("delta", JObj d)]])].
Definition piece_of (args : string) : json :=
  JArr [JObj [("index", JNum "0"); ("id", JStr "call:1"); ("function", JObj [("name", JStr "read file"); ("arguments", JStr args)])]].
Definition said_all : list string := chunk <$>
  [delta [("reasoning_content", JStr "Hm")]; delta [("content", JStr "Let ")]; delta [("content", JStr "me")];
   delta [("tool_calls", piece_of "{")]; delta [("tool_calls", piece_of "}")];
   JObj [("choices", JArr [JObj [("delta", JArr []); ("finish_reason", JStr "tool_calls")]])];
   JObj [("choices", JArr []); ("usage", JObj [("prompt_tokens", JNum "7"); ("completion_tokens", JNum "3")])]].
Definition broken : list string := chunk <$> [delta [("content", JStr "Let ")]; delta [("content", JNum "5")]].
Definition run : list string -> out :=
  convert_stream_to_anthropic (fun _ => "") (fun s => Z.of_nat (String.length s)) (JStr "msg_1") (fun _ => "ab") 2.
Definition final : conv := default (conv_start 0) (run said_all).2.

Example events_sent : (run said_all).1 =
  [MessageStart (JStr "chatcmpl-1") 2; Ping;
   BlockStart 0 BThinking; BlockDelta 0 (DThinking "Hm"); BlockDelta 0 DSignature; BlockStop 0;
   BlockStart 1 BText; BlockDelta 1 (DText "Let "); BlockDelta 1 (DText "me"); BlockStop 1;
   BlockStart 2 (BTool "call_1" "read_file"); BlockDelta 2 (DJson "{}"); BlockStop 2;
   MessageDelta "tool_use" 7 3; MessageStop].
Proof. vm_compute. reflexivity. Qed.

Example stream_well_formed_witness : exists id n body j reason i o,
  (run said_all).1 = MessageStart id n :: Ping :: body ++ [MessageDelta reason i o; MessageStop] /\
  blocks 0 body j /\ 0 < j /\ reason ∈ ["end_turn"; "tool_use"; "max_tokens"].
Proof.
  apply (stream_well_formed (fun _ => "") (fun s => Z.of_nat (String.length s)) (JStr "msg_1") (fun _ => "ab") (fun _ => eq_refl) 2
    said_all _ final). vm_compute. reflexivity.
Defined.
Example stream_content_witness :
  text_of (run said_all).1 = spoken Text (said_all ≫= frames_of_chunk) /\ text_of (run said_all).1 = "Let me".
Proof.
  split; [|vm_compute; reflexivity].
  destruct (stream_content (fun _ => "") (fun s => Z.of_nat (String.length s)) (JStr "msg_1") (fun _ => "ab") (fun _ => eq_refl) 2
    said_all (run said_all).1 final ltac:(vm_compute; reflexivity)) as [Ht _]. exact Ht.
Defined.
Example broken_fails : succeeds (run broken) = false /\ forallb frame_ok (broken ≫= frames_of_chunk) = false.
Proof. split; vm_compute; reflexivity. Qed.
Example stream_prefix_witness : (run broken).1 = [] \/ exists id n closed i thinking text k tail,
  (run broken).1 = MessageStart id n :: Ping :: closed ++ tail /\ blocks 0 closed i /\ writing thinking text k i tail.
Proof.
  apply (stream_prefix (fun _ => "") (fun s => Z.of_nat (String.length s)) (JStr "msg_1") (fun _ => "ab") (fun _ => eq_refl) 2 broken).
  vm_compute. reflexivity.
Defined.
End StreamSample.
