(* ===== verification/Messages.v ===== *)
(** server/message_utils.py and the callers in providers/custom.py: the last repair of
    a conversation before it is sent upstream.  Notices are moved out of a group of
    tool results, calls and results without a partner are dropped, over-long messages
    are split, and what an Anthropic service rejects is cleaned.

    Messages are JSON objects with distinct keys.  A fallible function gives None where
    Python raises TypeError (an identifier that cannot be hashed, calls that cannot be
    iterated). *)
From S2P Require Import Prelude Json Text Retry Usage Stream.

Definition role_is (role : string) (d : list (string * json)) : bool :=
  match dict_get "role" d with Some (JStr r) => String.eqb r role | _ => false end.
Definition is_notice (m : json) : bool := match m with JObj d => role_is "system" d || role_is "developer" d | _ => false end.

(** ** Sets of identifiers *)

Definition mem (v : json) (ids : list json) : bool := existsb (same_index v) ids.
(** [v in ids]: the value is hashed first. *)
Definition member (v : json) (ids : list json) : option bool := if hashable v then Some (mem v ids) else None.
Definition hashed (v : json) : option json := if hashable v then Some v else None.

(** The truthy identifiers of the objects of a list. *)
Fixpoint ids_of_calls (calls : list json) : option (list json) :=
  match calls with
  | [] => Some []
  | JObj d :: calls' =>
      match truthy_field "id" d with
      | Some v => v ← hashed v; ids ← ids_of_calls calls'; Some (v :: ids)
      | None => ids_of_calls calls'
      end
  | _ :: calls' => ids_of_calls calls'
  end.

(** ** Notices among tool results *)

(** An assistant message with calls opens a group that wants their results. *)
Definition opens (m : json) : option (option (list json)) :=
  match m with
  | JObj d =>
      if role_is "assistant" d
      then match dict_get "tool_calls" d with
           | Some (JArr ((_ :: _) as calls)) => want ← ids_of_calls calls; Some (Some want)
           | _ => Some None
           end
      else Some None
  | _ => Some None
  end.
Record group := Group { gr_want : list json; gr_results : list json; gr_notices : list json; gr_moved : bool }.
Definition open_group (want : option (list json)) : option group := (fun w => Group w [] [] false) <$> want.

(** A wanted result or a notice joins the group; anything else ends it. *)
Definition take_message (g : group) (m : json) : option (option group) :=
  match m with
  | JObj d =>
      if role_is "tool" d
      then wanted ← member (default JNull (dict_get "tool_call_id" d)) (gr_want g);
           Some (if wanted : bool
                 then Some (Group (gr_want g) (gr_results g ++ [m]) (gr_notices g)
                              (gr_moved g || match gr_notices g with [] => false | _ => true end))
                 else None)
      else if is_notice m then Some (Some (Group (gr_want g) (gr_results g) (gr_notices g ++ [m]) (gr_moved g)))
      else Some None
  | _ => Some None
  end.
(** The two loops, with the group being collected as state.  Gives the messages and
    whether their order changed. *)
Fixpoint repack_loop (g : option group) (messages : list json) : option (list json * bool) :=
  match messages with
  | [] => Some match g with Some g => (gr_results g ++ gr_notices g, gr_moved g) | None => ([], false) end
  | m :: rest =>
      taken ← match g with Some g => take_message g m | None => Some None end;
      match taken with
      | Some g' => repack_loop (Some g') rest
      | None =>
          want ← opens m;
          '(out, changed) ← repack_loop (open_group want) rest;
          Some match g with
               | Some g => (gr_results g ++ gr_notices g ++ m :: out, gr_moved g || changed)
               | None => (m :: out, changed)
               end
      end
  end.
Definition repack_tool_result_blocks (messages : list json) : option (list json) :=
  if (length messages <? 3)%nat then Some messages
  else '(out, changed) ← repack_loop None messages; Some (if changed : bool then out else messages).

(** ** Calls and results without a partner *)

(** The identifiers of the calls and of the result of a message. *)
Definition calls_in (m : json) : option (list json) :=
  match m with
  | JObj d =>
      if role_is "tool" d then Some []
      else if role_is "assistant" d
      then match dict_get "tool_calls" d with
           | Some v => if json_truthy v
                       then match v with JArr calls => ids_of_calls calls | JStr _ | JObj _ => Some [] | _ => None end
                       else Some []
           | None => Some []
           end
      else Some []
  | _ => Some []
  end.
Definition result_in (m : json) : option (list json) :=
  match m with
  | JObj d =>
      if role_is "tool" d
      then match truthy_field "tool_call_id" d with Some v => v ← hashed v; Some [v] | None => Some [] end
      else Some []
  | _ => Some []
  end.
Fixpoint collect_ids (messages : list json) : option (list json * list json) :=
  match messages with
  | [] => Some ([], [])
  | m :: rest =>
      calls ← calls_in m;
      results ← result_in m;
      '(cs, rs) ← collect_ids rest;
      Some (calls ++ cs, results ++ rs)
  end.

Fixpoint kept_calls (keep calls : list json) : option (list json) :=
  match calls with
  | [] => Some []
  | JObj d :: calls' =>
      b ← member (default JNull (dict_get "id" d)) keep;
      kept ← kept_calls keep calls';
      Some (if b : bool then JObj d :: kept else kept)
  | _ :: calls' => kept_calls keep calls'
  end.
(** What stays of a message, and whether it changed. *)
Definition cleaned (keep : list json) (m : json) : option (list json * bool) :=
  match m with
  | JObj d =>
      if role_is "tool" d
      then b ← member (default JNull (dict_get "tool_call_id" d)) keep; Some (if b : bool then ([m], false) else ([], true))
      else match dict_get "tool_calls" d with
           | Some (JArr ((_ :: _) as calls)) =>
               if role_is "assistant" d
               then kept ← kept_calls keep calls;
                    if (length kept =? length calls)%nat then Some ([m], false)
                    else Some ([JObj match kept with [] => dict_del "tool_calls" d | _ => dict_set "tool_calls" (JArr kept) d end], true)
               else Some ([m], false)
           | _ => Some ([m], false)
           end
  | _ => Some ([m], false)
  end.
Fixpoint cleanup_loop (keep messages : list json) : option (list json * bool) :=
  match messages with
  | [] => Some ([], false)
  | m :: rest =>
      '(out, changed) ← cleaned keep m;
      '(out', changed') ← cleanup_loop keep rest;
      Some (out ++ out', changed || changed')
  end.
Definition cleanup_orphan_tool_calls (messages : list json) : option (list json) :=
  '(call_ids, result_ids) ← collect_ids messages;
  match call_ids, result_ids with
  | [], [] => Some messages
  | _, _ => '(out, changed) ← cleanup_loop (List.filter (fun v => mem v result_ids) call_ids) messages;
            Some (if changed : bool then out else messages)
  end.

(** The repair of _build_openai_payload. *)
Definition repair (messages : list json) : option (list json) :=
  out ← repack_tool_result_blocks messages; cleanup_orphan_tool_calls out.

(** ** Reasoning content *)

Definition has_reasoning (m : json) : bool :=
  match m with JObj d => role_is "assistant" d && bool_decide (is_Some (dict_get "reasoning_content" d)) | _ => false end.
Definition strip_assistant_reasoning_content (messages : list json) : list json :=
  if existsb has_reasoning messages
  then map (fun m => match m with JObj d => if has_reasoning m then JObj (dict_del "reasoning_content" d) else m | _ => m end) messages
  else messages.

(** ** Bodies for an Anthropic service *)

Definition PROXY_SYNTHETIC_THINKING_SIGNATURE : string := "cHJveHktc3ludGhldGljLXNpZ25hdHVyZQ".
Definition type_is (t : string) (d : list (string * json)) : bool :=
  match dict_get "type" d with Some (JStr s) => String.eqb s t | _ => false end.
Definition is_tool_block (b : json) : bool := match b with JObj d => type_is "tool_use" d || type_is "tool_result" d | _ => false end.
(** The content blocks of a message. *)
Definition content_blocks (m : json) : option (list json) :=
  match m with JObj d => match dict_get "content" d with Some (JArr l) => Some l | _ => None end | _ => None end.
Definition set_content (v : json) (m : json) : json := match m with JObj d => JObj (dict_set "content" v d) | m => m end.
(** [messages[i]["content"]] rewritten block by block. *)
Definition on_blocks (f : nat -> list json -> list json) (i : nat) (m : json) : json :=
  match content_blocks m with Some l => set_content (JArr (f i l)) m | None => m end.

Section anthropic.
Variable py_str : json -> string.
(** The fresh identifier for the block [j] of the message [i]. *)
Variable hex : nat -> nat -> string.

Definition clean_block (i j : nat) (b : json) : json :=
  match b with
  | JObj d =>
      if type_is "tool_use" d
      then let d := dict_set "id" (JStr (sanitize_anthropic_tool_id py_str (hex i j) (dict_get "id" d))) d in
           JObj match dict_get "name" d with
                | Some name => dict_set "name" (JStr (sanitize_anthropic_tool_name py_str (Some name))) d
                | None => d
                end
      else if type_is "tool_result" d
      then JObj (dict_set "tool_use_id" (JStr (sanitize_anthropic_tool_id py_str (hex i j) (dict_get "tool_use_id" d))) d)
      else b
  | b => b
  end.
Definition sanitize_anthropic_tool_ids_in_body (body : list (string * json)) : list (string * json) :=
  match dict_get "messages" body with
  | Some (JArr messages) =>
      if existsb (fun m => existsb is_tool_block (default [] (content_blocks m))) messages
      then dict_set "messages" (JArr (imap (on_blocks (fun i => imap (clean_block i))) messages)) body
      else body
  | _ => body
  end.

(** A thought whose signature an Anthropic service would reject. *)
Definition unsigned_thinking (b : json) : bool :=
  match b with
  | JObj d => type_is "thinking" d &&
      match dict_get "signature" d with
      | Some (JStr s) => negb (str_truthy (strip s)) || String.eqb s PROXY_SYNTHETIC_THINKING_SIGNATURE
      | _ => true
      end
  | _ => false
  end.
Definition drop_unsigned (m : json) : json :=
  match content_blocks m with
  | Some l => if existsb unsigned_thinking l
              then set_content match List.filter (fun b => negb (unsigned_thinking b)) l with [] => JStr "" | l' => JArr l' end m
              else m
  | None => m
  end.
Definition sanitize_anthropic_request_body (body : list (string * json)) : list (string * json) :=
  let sanitized := sanitize_anthropic_tool_ids_in_body body in
  match dict_get "messages" sanitized with
  | Some (JArr messages) => dict_set "messages" (JArr (map drop_unsigned messages)) sanitized
  | _ => sanitized
  end.

Definition text_part (b : json) : option string :=
  match b with
  | JObj d => if type_is "text" d
              then match dict_get "text" d with Some v => if json_truthy v then Some (json_str_of py_str v) else None | None => None end
              else None
  | JStr s => if str_truthy s then Some s else None
  | _ => None
  end.
Definition TWO_LINES : string := String "010" (String "010" "").
Definition coerce_anthropic_system (system : json) (system_type : string) : json :=
  let target := lower system_type in
  match system with
  | JNull => system
  | JStr s =>
      if str_truthy s && String.eqb target "array" then JArr [JObj [("type", JStr "text"); ("text", JStr s)]] else system
  | JArr l => if String.eqb target "str" then JStr (join TWO_LINES (omap text_part l)) else system
  | _ => system
  end.
End anthropic.

(** ** Splitting over-long messages *)

(** The characters of a text, each with its continuation bytes. *)
Fixpoint chars_of (s : string) : list string :=
  match s with
  | EmptyString => []
  | String c s' =>
      match chars_of s' with
      | (String c' _ as w) :: ws => if Stream.continuation c' then String c w :: ws else String c "" :: w :: ws
      | ws => String c "" :: ws
      end
  end.
Definition unchars (w : list string) : string := foldr (fun c s => c +++ s) "" w.
(** [text[-n:]] for a positive [n]. *)
Definition last_chars (n : nat) (w : list string) : list string := drop (length w - n) w.

Definition _SPLIT_DELIMITERS : list string :=
  [TWO_LINES; String "010" ""; "。"; "！"; "？"; "；"; ". "; "! "; "? "; "; "; "，"; ", "; "、"; " "].
Fixpoint begins (d w : list string) : bool :=
  match d, w with
  | [], _ => true
  | c :: d', c' :: w' => String.eqb c c' && begins d' w'
  | _, [] => false
  end.
(** [window.rfind(delim)] *)
Fixpoint rfind (d w : list string) : option nat :=
  match w with
  | [] => None
  | _ :: w' => match rfind d w' with Some i => Some (S i) | None => if begins d w then Some O else None end
  end.
Fixpoint delimiter_cut (window : list string) (half : nat) (delims : list string) (budget : nat) : nat :=
  match delims with
  | [] => budget
  | delim :: delims' =>
      match rfind (chars_of delim) window with
      | Some idx => if (half <=? idx)%nat then (idx + length (chars_of delim))%nat else delimiter_cut window half delims' budget
      | None => delimiter_cut window half delims' budget
      end
  end.
Definition _split_at_delimiter (text : list string) (budget : nat) : nat :=
  delimiter_cut (take budget text) (budget / 2) _SPLIT_DELIMITERS budget.

Section split.
(** estimate_tokens_from_text for the model of the request. *)
Variable estimate : string -> Z.

(** The while loop; None when the fuel runs out. *)
Fixpoint split_text (fuel : nat) (max_tokens : Z) (remaining : list string) : option (list (list string)) :=
  match remaining, fuel with
  | [], _ => Some []
  | _, O => None
  | _, S fuel' =>
      let total_tokens := estimate (unchars remaining) in
      if total_tokens <=? max_tokens then Some [remaining]
      else
        let budget := Z.max 1 (Z.of_nat (length remaining) * max_tokens / total_tokens) in
        let cut := _split_at_delimiter remaining (Z.to_nat budget) in
        rest ← split_text fuel' max_tokens (drop cut remaining);
        Some (take cut remaining :: rest)
  end.

Definition splittable (max_tokens : Z) (d : list (string * json)) : option string :=
  match dict_get "content" d with
  | Some (JStr content) =>
      if negb (role_is "system" d || role_is "user" d || role_is "assistant" d)
         || bool_decide (is_Some (truthy_field "tool_calls" d)) || (estimate content <=? max_tokens)
      then None
      else Some content
  | _ => None
  end.
(** The messages of the pieces: a cache mark stays with the last one only. *)
Fixpoint piece_messages (d : list (string * json)) (pieces : list (list string)) : list json :=
  match pieces with
  | [] => []
  | [p] => [JObj (dict_set "content" (JStr (unchars p)) d)]
  | p :: pieces' => JObj (dict_del "cache_control" (dict_set "content" (JStr (unchars p)) d)) :: piece_messages d pieces'
  end.
Definition split_message (max_tokens : Z) (m : json) : option (list json) :=
  match m with
  | JObj d =>
      match splittable max_tokens d with
      | Some content =>
          let remaining := chars_of content in
          pieces ← split_text (length remaining) max_tokens remaining;
          Some (if (length pieces <=? 1)%nat then [m] else piece_messages d pieces)
      | None => Some [m]
      end
  | _ => Some [m]
  end.
Fixpoint split_messages (max_tokens : Z) (messages : list json) : option (list json) :=
  match messages with
  | [] => Some []
  | m :: rest => ms ← split_message max_tokens m; out ← split_messages max_tokens rest; Some (ms ++ out)
  end.
Definition split_oversized_messages (messages : list json) (max_tokens : Z) : option (list json) :=
  if max_tokens <=? 0 then Some messages else split_messages max_tokens messages.

(** _message_split_config: the channel's settings over the global ones. *)
Definition _message_split_config (global : bool * Z) (channel_enabled channel_max : option json) : bool * Z :=
  let set v := match v with Some JNull => None | v => v end in
  (match set channel_enabled with Some v => json_truthy v | None => global.1 end,
   match set channel_max with
   | Some v => match json_int v with Some n => if 0 <? n then n else global.2 | None => global.2 end
   | None => global.2
   end).
Definition _apply_message_split (config : bool * Z) (messages : list json) : option (list json) :=
  if config.1 then split_oversized_messages messages config.2 else Some messages.

(** A single plain text block becomes text, and text becomes such a block again. *)
Definition flat (m : json) : option json :=
  match m with
  | JObj d =>
      match dict_get "content" d with
      | Some (JArr [JObj b]) =>
          match dict_get "text" b with
          | Some (JStr t) =>
              if (role_is "user" d || role_is "assistant" d) && type_is "text" b
                 && forallb (fun kv => bool_decide (kv.1 ∈ ["type"; "text"])) b
              then Some (JObj (dict_set "content" (JStr t) d)) else None
          | _ => None
          end
      | _ => None
      end
  | _ => None
  end.
Definition unflat (m : json) : json :=
  match m with
  | JObj d => match dict_get "content" d with
              | Some (JStr t) => JObj (dict_set "content" (JArr [JObj [("type", JStr "text"); ("text", JStr t)]]) d)
              | _ => m
              end
  | m => m
  end.
(** Whether the split made more messages, which is when it returns another list. *)
Definition _apply_message_split_anthropic (config : bool * Z) (messages : list json) : option (list json) :=
  if negb config.1 || negb (existsb (fun m => bool_decide (is_Some (flat m))) messages) then Some messages
  else
    let normalized := map (fun m => default m (flat m)) messages in
    split ← split_oversized_messages normalized config.2;
    Some (if (length split =? length normalized)%nat then messages else map unflat split).
End split.
