(* ===== verification/MessagesProps.v ===== *)
(** What the repair of a conversation guarantees: results follow their calls without a
    notice between them, calls and results are paired, splitting loses nothing, and
    what is sent to an Anthropic service is legal. *)
From S2P Require Import Prelude Json Text TextFacts Retry Usage Stream StreamProps Messages.

(** ** Equality of identifiers *)

Lemma num_cmp_spec m1 e1 m2 e2 k : k <= e1 -> k <= e2 ->
  num_cmp (Dec m1 e1) (Dec m2 e2) = Some Eq <-> m1 * 10 ^ (e1 - k) = m2 * 10 ^ (e2 - k).
Proof.
  intros H1 H2. simpl. set (k0 := Z.min e1 e2).
  replace (e1 - k) with ((e1 - k0) + (k0 - k)) by lia. replace (e2 - k) with ((e2 - k0) + (k0 - k)) by lia.
  rewrite !Z.pow_add_r, !Z.mul_assoc by lia.
  assert (Hp : 10 ^ (k0 - k) <> 0) by (apply Z.pow_nonzero; lia).
  split; [intros [= E]; apply Z.compare_eq in E; by rewrite E|].
  intros E. apply Z.mul_reg_r in E; [|done]. by rewrite E, Z.compare_refl.
Qed.
Lemma num_eq_sym a b : num_cmp a b = Some Eq -> num_cmp b a = Some Eq.
Proof.
  destruct a as [m1 e1|x|], b as [m2 e2|y|]; simpl; try done; try (by destruct x); try (by destruct y).
  - intros H. apply (num_cmp_spec m1 e1 m2 e2 (Z.min e1 e2)) in H; [|lia..]. apply (num_cmp_spec m2 e2 m1 e1 (Z.min e1 e2)); [lia..|done].
  - by destruct x, y.
Qed.
Lemma num_eq_trans a b c : num_cmp a b = Some Eq -> num_cmp b c = Some Eq -> num_cmp a c = Some Eq.
Proof.
  destruct a as [m1 e1|x|], b as [m2 e2|y|], c as [m3 e3|z|]; try (by destruct x); try (by destruct y); try (by destruct z); try done.
  - intros H H'. set (k := Z.min e1 (Z.min e2 e3)).
    apply (num_cmp_spec m1 e1 m2 e2 k) in H; [|lia..]. apply (num_cmp_spec m2 e2 m3 e3 k) in H'; [|lia..].
    apply (num_cmp_spec m1 e1 m3 e3 k); [lia..|congruence].
  - by destruct x, y, z.
Qed.

Definition number_eq (a b : json) : bool :=
  match as_number a, as_number b with
  | Some x, Some y => match num_cmp x y with Some Eq => true | _ => false end
  | _, _ => false
  end.
Lemma number_eq_true a b : number_eq a b = true <->
  exists x y, as_number a = Some x /\ as_number b = Some y /\ num_cmp x y = Some Eq.
Proof.
  unfold number_eq. destruct (as_number a) as [x|]; [|split; [done|by intros (? & ? & ? & _)]].
  destruct (as_number b) as [y|]; [|split; [done|by intros (? & ? & _ & ? & _)]].
  split; [|intros (x' & y' & [= <-] & [= <-] & ->); done]. intros H. exists x, y. by destruct (num_cmp x y) as [[]|].
Qed.
(** The three ways two identifiers can be the same. *)
Lemma same_index_spec a b : same_index a b = true <->
  (a = JNull /\ b = JNull) \/ (exists s, a = JStr s /\ b = JStr s) \/ number_eq a b = true.
Proof.
  assert (Hn : forall x y, number_eq x y = true -> x <> JNull /\ (forall s, x <> JStr s)).
  { intros x y H. apply number_eq_true in H as (? & ? & Hx & _). split; [by intros ->|by intros ? ->]. }
  assert (Hd : (a = JNull /\ b = JNull) \/ (exists x y, a = JStr x /\ b = JStr y) \/ same_index a b = number_eq a b)
    by (destruct a, b; auto; right; left; eauto).
  destruct Hd as [[-> ->]|[(x & y & -> & ->)|E]].
  - split; [by left|done].
  - simpl. rewrite String.eqb_eq. split; [intros ->; right; left; by exists y|].
    intros [[? _]|[(s & [= ->] & [= ->])|H]]; [done|done|]. by apply Hn in H as [_ H]; destruct (H x).
  - rewrite E. split; [by right; right|]. intros [[-> ->]|[(s & -> & ->)|H]]; [done| |done].
    rewrite <- E. simpl. apply String.eqb_refl.
Qed.
Lemma same_sym a b : same_index a b = true -> same_index b a = true.
Proof.
  rewrite !same_index_spec. intros [[-> ->]|[(s & -> & ->)|H]]; [by left|right; left; by exists s|right; right].
  apply number_eq_true in H as (x & y & Hx & Hy & H). apply number_eq_true. exists y, x. by apply num_eq_sym in H.
Qed.
Lemma same_trans a b c : same_index a b = true -> same_index b c = true -> same_index a c = true.
Proof.
  rewrite !same_index_spec. intros [[-> ->]|[(s & -> & ->)|H]]; [done|done|].
  apply number_eq_true in H as (x & y & Hx & Hy & H).
  intros [[-> ->]|[(s & -> & ->)|H']]; [done|done|]. apply number_eq_true in H' as (y' & z & Hy' & Hz & H').
  right; right. apply number_eq_true. exists x, z. rewrite Hy in Hy'. injection Hy' as <-. eauto using num_eq_trans.
Qed.
(** Identifiers equal to themselves: all but NaN. *)
Definition proper (v : json) : Prop := same_index v v = true.
Lemma proper_str s : proper (JStr s).
Proof. apply String.eqb_refl. Qed.

Lemma mem_spec v ids : mem v ids = true <-> exists k, k ∈ ids /\ same_index v k = true.
Proof.
  unfold mem. rewrite existsb_exists. by setoid_rewrite list_elem_of_In.
Qed.
Lemma mem_filter v (f : json -> bool) ids :
  mem v (List.filter f ids) = true <-> exists k, k ∈ ids /\ f k = true /\ same_index v k = true.
Proof.
  rewrite mem_spec. setoid_rewrite list_elem_of_In. setoid_rewrite filter_In. naive_solver.
Qed.
Lemma member_mem v ids b : member v ids = Some b -> mem v ids = b.
Proof. unfold member. destruct (hashable v); [by intros [= <-]|done]. Qed.

(** ** Pairing *)

Lemma truthy_default k d v : truthy_field k d = Some v -> default JNull (dict_get k d) = v.
Proof. unfold truthy_field. destruct (dict_get k d) as [w|]; [|done]. destruct (json_truthy w); [by intros [= <-]|done]. Qed.
(** The identifiers of the kept calls are those of the calls in [keep]. *)
Lemma kept_calls_ids keep calls kept ids : kept_calls keep calls = Some kept -> ids_of_calls calls = Some ids ->
  ids_of_calls kept = Some (List.filter (fun v => mem v keep) ids).
Proof.
  revert kept ids. induction calls as [|v calls IH]; intros kept ids; simpl; [by intros [= <-] [= <-]|].
  destruct v as [| | | | |d]; [by apply IH..|]. destruct (member _ keep) as [b|] eqn:Em; simpl; [|done].
  destruct (kept_calls keep calls) as [kept'|] eqn:Ek; simpl; [|done]. intros [= <-]. apply member_mem in Em.
  destruct (truthy_field "id" d) as [v|] eqn:Ev.
  - rewrite (truthy_default _ _ _ Ev) in Em. destruct (hashed v) as [w|] eqn:Eh; simpl; [|done].
    unfold hashed in Eh. destruct (hashable v) eqn:Eh'; [|done]. injection Eh as <-.
    destruct (ids_of_calls calls) as [ids'|] eqn:Ei; simpl; [|done]. intros [= <-]. simpl. rewrite Em.
    destruct b; simpl; [|by apply IH]. rewrite Ev. unfold hashed. rewrite Eh'. simpl. by rewrite (IH _ _ eq_refl eq_refl).
  - intros Hi. destruct b; simpl; [rewrite Ev|]; by apply IH.
Qed.
Lemma kept_length keep calls kept : kept_calls keep calls = Some kept -> (length kept <= length calls)%nat /\
  (length kept = length calls -> kept = calls).
Proof.
  revert kept. induction calls as [|v calls IH]; intros kept; simpl; [by intros [= <-]|].
  assert (Hskip : forall l, kept_calls keep calls = Some l -> (length l <= S (length calls))%nat /\ (length l = S (length calls) -> l = v :: calls)).
  { intros l Hl. apply IH in Hl as [Hl _]. split; intros; lia. }
  destruct v as [| | | | |d]; [by apply Hskip..|]. destruct (member _ keep) as [b|]; simpl; [|done].
  destruct (kept_calls keep calls) as [kept'|] eqn:Ek; simpl; [|done]. intros [= <-]. destruct b; [|by apply Hskip].
  destruct (IH _ eq_refl) as [Hl He]. simpl. split; [lia|]. intros H. f_equal. apply He. lia.
Qed.

Definition kept_ids (keep ids : list json) : list json := List.filter (fun v => mem v keep) ids.
Lemma kept_ids_all keep ids : length (kept_ids keep ids) = length ids -> kept_ids keep ids = ids.
Proof.
  unfold kept_ids. induction ids as [|v ids IH]; simpl; [done|]. pose proof (List.filter_length_le (fun v => mem v keep) ids).
  destruct (mem v keep); simpl; intros H'; [by rewrite IH by lia|lia].
Qed.
Lemma role_set k v r d : k <> "role" -> role_is r (dict_set k v d) = role_is r d.
Proof. intros H. unfold role_is. rewrite dict_get_set. by rewrite decide_False. Qed.
Lemma role_del k r d : k <> "role" -> role_is r (dict_del k d) = role_is r d.
Proof. intros H. unfold role_is. rewrite dict_get_del. by rewrite decide_False. Qed.
Lemma role_other a b d : role_is a d = true -> a <> b -> role_is b d = false.
Proof.
  unfold role_is. destruct (dict_get "role" d) as [[]|]; try done. intros H%String.eqb_eq Hab. subst. by apply String.eqb_neq.
Qed.

(** What stays of a message has the identifiers in [keep], calls and result alike. *)
Lemma cleaned_ids keep m ms ch cs rs : cleaned keep m = Some (ms, ch) -> calls_in m = Some cs -> result_in m = Some rs ->
  collect_ids ms = Some (kept_ids keep cs, kept_ids keep rs) /\ (ch = false -> ms = [m]).
Proof.
  assert (Hone : forall m cs rs, calls_in m = Some cs -> result_in m = Some rs -> kept_ids keep cs = cs -> kept_ids keep rs = rs ->
    collect_ids [m] = Some (kept_ids keep cs, kept_ids keep rs)).
  { intros m' cs' rs' Hc Hr -> ->. simpl. by rewrite Hc, Hr; simpl; rewrite !app_nil_r. }
  unfold cleaned. destruct m as [| | | | |d]; try (intros [= <- <-] [= <-] [= <-]; by split; [apply Hone|]).
  intros H Hc Hr. pose proof Hc as Hc'. pose proof Hr as Hr'. simpl in Hc', Hr'. destruct (role_is "tool" d) eqn:Et.
  - injection Hc' as <-. destruct (member _ keep) as [b|] eqn:Em; simpl in H; [|done]. apply member_mem in Em.
    assert (Hrs : kept_ids keep rs = if b then rs else []).
    { destruct (truthy_field "tool_call_id" d) as [v|] eqn:Ev; simpl in Hr'; [|injection Hr' as <-; by destruct b].
      rewrite (truthy_default _ _ _ Ev) in Em. unfold hashed in Hr'. destruct (hashable v); [|done]. injection Hr' as <-.
      unfold kept_ids. simpl. rewrite Em. by destruct b. }
    destruct b; injection H as <- <-.
    + split; [apply Hone; done|done].
    + rewrite Hrs. by split.
  - injection Hr' as <-.
    destruct (dict_get "tool_calls" d) as [[| | | |[|c l]|]|] eqn:Ed; simpl in Hc';
      try (injection H as <- <-; split; [apply Hone; [exact Hc|done| |done]|done]; destruct (role_is "assistant" d);
           repeat match goal with H : (if ?b then _ else _) = Some _ |- _ => destruct b end; try injection Hc' as <-; done).
    destruct (role_is "assistant" d) eqn:Ea; [|injection Hc' as <-; injection H as <- <-; by split; [apply Hone|]].
    destruct (kept_calls keep (c :: l)) as [kept|] eqn:Ek; cbn [mbind option_bind] in H; [|done].
    assert (Hall : ids_of_calls (c :: l) = Some cs) by exact Hc'. clear Hc'.
    pose proof (kept_calls_ids _ _ _ _ Ek Hall) as Hids. destruct (kept_length _ _ _ Ek) as [_ Hsame].
    destruct (length kept =? length (c :: l))%nat eqn:El.
    + injection H as <- <-. apply Nat.eqb_eq in El. rewrite (Hsame El), Hall in Hids. injection Hids as Hids.
      split; [apply Hone; [done|done|by unfold kept_ids; rewrite <- Hids|done]|done].
    + injection H as <- <-. split; [|done]. set (d' := match kept with [] => _ | _ => _ end).
      assert (Hr2 : result_in (JObj d') = Some []).
      { simpl. subst d'. destruct kept; rewrite ?role_set, ?role_del by done; by rewrite Et. }
      assert (Hc2 : calls_in (JObj d') = Some (kept_ids keep cs)).
      { simpl. subst d'. destruct kept as [|k0 kept].
        - rewrite !role_del by done. rewrite Et, Ea, dict_get_del, decide_True by done.
          unfold kept_ids. injection Hids as Hids. by rewrite <- Hids.
        - rewrite !role_set by done. rewrite Et, Ea, dict_get_set, decide_True by done. exact Hids. }
      cbn -[calls_in result_in]. rewrite Hc2, Hr2. simpl. by rewrite app_nil_r.
Qed.
Lemma collect_app a b : collect_ids (a ++ b) =
  ('(c, r) ← collect_ids a; '(c', r') ← collect_ids b; Some (c ++ c', r ++ r')).
Proof.
  induction a as [|m a IH]; simpl; [by destruct (collect_ids b) as [[]|]|]. destruct (calls_in m); simpl; [|done].
  destruct (result_in m); simpl; [|done]. rewrite IH. destruct (collect_ids a) as [[]|]; simpl; [|done].
  destruct (collect_ids b) as [[]|]; simpl; by rewrite ?app_assoc.
Qed.
Lemma cleanup_loop_ids keep messages out ch cs rs :
  cleanup_loop keep messages = Some (out, ch) -> collect_ids messages = Some (cs, rs) ->
  collect_ids out = Some (kept_ids keep cs, kept_ids keep rs) /\ (ch = false -> out = messages).
Proof.
  revert out ch cs rs. induction messages as [|m messages IH]; intros out ch cs rs; simpl; [by intros [= <- <-] [= <- <-]|].
  destruct (cleaned keep m) as [[ms c]|] eqn:Em; simpl; [|done].
  destruct (cleanup_loop keep messages) as [[out' c']|] eqn:El; simpl; [|done]. intros [= <- <-].
  destruct (calls_in m) as [cs1|] eqn:Ec; simpl; [|done]. destruct (result_in m) as [rs1|] eqn:Er; simpl; [|done].
  destruct (collect_ids messages) as [[cs2 rs2]|] eqn:E2; simpl; [|done]. intros [= <- <-].
  destruct (cleaned_ids _ _ _ _ _ _ Em Ec Er) as [H1 H1']. destruct (IH _ _ _ _ eq_refl eq_refl) as [H2 H2'].
  rewrite collect_app, H1, H2. unfold kept_ids. simpl. rewrite !List.filter_app. split; [done|].
  intros [-> ->]%orb_false_iff. by rewrite H1', H2'.
Qed.

(** The calls and the results of the kept identifiers are the same. *)
Lemma kept_paired cs rs v : Forall proper cs ->
  let keep := List.filter (fun v => mem v rs) cs in mem v (kept_ids keep cs) = mem v (kept_ids keep rs).
Proof.
  intros Hp keep. rewrite Forall_forall in Hp. apply eq_true_iff_eq. unfold kept_ids. rewrite !mem_filter. split.
  - intros (c & Hc & Hk & Hv). apply mem_filter in Hk as (k & Hk & Hkr & Hck).
    apply mem_spec in Hkr as (r & Hr & Hrk). exists r. split; [done|]. split.
    + apply mem_filter. exists k. split; [done|]. split; [by apply mem_spec; exists r|by apply same_sym].
    + eauto using same_trans.
  - intros (r & Hr & Hk & Hv). apply mem_filter in Hk as (k & Hk & Hkr & Hrk). exists k. split; [done|]. split.
    + apply mem_filter. exists k. by split; [|split; [|apply Hp]].
    + eauto using same_trans.
Qed.

(** *** Cleaning twice *)

Lemma member_ext v a b : (forall v, mem v a = mem v b) -> member v a = member v b.
Proof. intros H. unfold member. by rewrite H. Qed.
Lemma kept_calls_ext a b calls : (forall v, mem v a = mem v b) -> kept_calls a calls = kept_calls b calls.
Proof.
  intros H. induction calls as [|v calls IH]; simpl; [done|]. destruct v; try done. by rewrite (member_ext _ _ _ H), IH.
Qed.
Lemma cleaned_ext a b m : (forall v, mem v a = mem v b) -> cleaned a m = cleaned b m.
Proof.
  intros H. unfold cleaned. destruct m as [| | | | |d]; try done. rewrite (member_ext _ _ _ H). destruct (role_is "tool" d); [done|].
  destruct (dict_get "tool_calls" d) as [[| | | |[|c l]|]|]; try done. by rewrite (kept_calls_ext _ _ _ H).
Qed.
Lemma cleanup_loop_ext a b messages : (forall v, mem v a = mem v b) -> cleanup_loop a messages = cleanup_loop b messages.
Proof. intros H. induction messages as [|m messages IH]; simpl; [done|]. by rewrite (cleaned_ext _ _ _ H), IH. Qed.
Lemma kept_calls_again keep calls kept : kept_calls keep calls = Some kept -> kept_calls keep kept = Some kept.
Proof.
  revert kept. induction calls as [|v calls IH]; intros kept; simpl; [by intros [= <-]|].
  destruct v as [| | | | |d]; [by apply IH..|]. destruct (member _ keep) as [b|] eqn:Em; simpl; [|done].
  destruct (kept_calls keep calls) as [kept'|] eqn:Ek; simpl; [|done]. intros [= <-]. specialize (IH _ eq_refl).
  destruct b; simpl; [|done]. by rewrite Em; simpl; rewrite IH.
Qed.
Lemma cleaned_again keep m ms ch : cleaned keep m = Some (ms, ch) -> cleanup_loop keep ms = Some (ms, false).
Proof.
  assert (Hone : forall m, cleaned keep m = Some ([m], false) -> cleanup_loop keep [m] = Some ([m], false))
    by (intros m' H; cbn -[cleaned]; by rewrite H).
  destruct m as [| | | | |d]; try (by intros [= <- <-]; apply Hone). intros H. pose proof H as H'. revert H'. unfold cleaned.
  destruct (role_is "tool" d) eqn:Et.
  { destruct (member _ keep) as [[]|] eqn:Em; cbn [mbind option_bind]; [intros [= <- <-]..|done]; [|done].
    apply Hone. unfold cleaned. by rewrite Et, Em. }
  destruct (dict_get "tool_calls" d) as [[| | | |[|c l]|]|] eqn:Ed;
    try (by intros [= <- <-]; apply Hone; unfold cleaned; rewrite Et, Ed).
  destruct (role_is "assistant" d) eqn:Ea; [|by intros [= <- <-]; apply Hone; unfold cleaned; rewrite Et, Ed, Ea].
  destruct (kept_calls keep (c :: l)) as [kept|] eqn:Ek; cbn [mbind option_bind]; [|done].
  destruct (length kept =? length (c :: l))%nat eqn:El; intros [= <- <-].
  - apply Hone. unfold cleaned. by rewrite Et, Ed, Ea, Ek; cbn [mbind option_bind]; rewrite El.
  - apply Hone. unfold cleaned. destruct kept as [|k0 kept].
    + by rewrite role_del, Et, dict_get_del, decide_True by done.
    + rewrite !role_set, Et, Ea, dict_get_set, decide_True by done. rewrite (kept_calls_again _ _ _ Ek).
      cbn [mbind option_bind]. by rewrite Nat.eqb_refl.
Qed.
Lemma cleanup_loop_app keep a b : cleanup_loop keep (a ++ b) =
  ('(o, c) ← cleanup_loop keep a; '(o', c') ← cleanup_loop keep b; Some (o ++ o', c || c')).
Proof.
  induction a as [|m a IH]; simpl; [by destruct (cleanup_loop keep b) as [[]|]|].
  destruct (cleaned keep m) as [[]|]; simpl; [|done]. rewrite IH. destruct (cleanup_loop keep a) as [[]|]; simpl; [|done].
  destruct (cleanup_loop keep b) as [[]|]; simpl; by rewrite ?app_assoc, ?orb_assoc.
Qed.
Lemma cleanup_loop_again keep messages out ch : cleanup_loop keep messages = Some (out, ch) -> cleanup_loop keep out = Some (out, false).
Proof.
  revert out ch. induction messages as [|m messages IH]; intros out ch; simpl; [by intros [= <- <-]|].
  destruct (cleaned keep m) as [[ms c]|] eqn:Em; simpl; [|done].
  destruct (cleanup_loop keep messages) as [[out' c']|] eqn:El; simpl; [|done]. intros [= <- <-].
  rewrite cleanup_loop_app, (cleaned_again _ _ _ _ Em). simpl. by rewrite (IH _ _ eq_refl).
Qed.
(** The identifiers kept are those of the calls that stay. *)
Lemma kept_mem cs rs v : Forall proper cs ->
  let keep := List.filter (fun v => mem v rs) cs in mem v (kept_ids keep cs) = mem v keep.
Proof.
  intros Hp keep. rewrite Forall_forall in Hp. apply eq_true_iff_eq. unfold kept_ids. rewrite mem_filter. split.
  - intros (c & Hc & Hk & Hv). apply mem_spec in Hk as (k & Hk & Hck). apply mem_spec. eauto using same_trans.
  - intros (k & Hk & Hkr & Hv)%mem_filter. exists k. split; [done|]. split; [|done]. apply mem_filter. exists k. by split; [|split; [|apply Hp]].
Qed.

(** *** What stays *)

(** A result, or the calls of an assistant message, all with an identifier in a list. *)
Definition result_in_list (ids : list json) (d : list (string * json)) : Prop :=
  role_is "tool" d = true -> mem (default JNull (dict_get "tool_call_id" d)) ids = true.
Definition calls_in_list (ids : list json) (d : list (string * json)) : Prop :=
  role_is "assistant" d = true -> forall calls, dict_get "tool_calls" d = Some (JArr calls) ->
    Forall (fun c => exists e, c = JObj e /\ mem (default JNull (dict_get "id" e)) ids = true) calls.
Lemma kept_calls_in keep calls kept : kept_calls keep calls = Some kept ->
  Forall (fun c => exists e, c = JObj e /\ mem (default JNull (dict_get "id" e)) keep = true) kept.
Proof.
  revert kept. induction calls as [|v calls IH]; intros kept; simpl; [by intros [= <-]|]. destruct v as [| | | | |e]; [by apply IH..|].
  destruct (member _ keep) as [[]|] eqn:Em; simpl; (destruct (kept_calls keep calls); simpl; [|done] || done); intros [= <-]; auto.
  constructor; [exists e; split; [done|by apply member_mem]|auto].
Qed.
Lemma cleaned_in keep m ms ch d : cleaned keep m = Some (ms, ch) -> JObj d ∈ ms -> result_in_list keep d /\ calls_in_list keep d.
Proof.
  destruct m as [| | | | |d0]; try (by intros [= <- <-] ?%list_elem_of_singleton). unfold cleaned.
  destruct (role_is "tool" d0) eqn:Et.
  { destruct (member _ keep) as [[]|] eqn:Em; simpl; [|by intros [= <- <-] ?%elem_of_nil|done]. intros [= <- <-] [= ->]%list_elem_of_singleton.
    split; [intros _; by apply member_mem|]. intros H. by rewrite (role_other "tool" "assistant" d0 Et) in H. }
  assert (Hr : forall d, role_is "tool" d = role_is "tool" d0 -> result_in_list keep d) by (intros d' H H'; congruence).
  assert (Hsame : JObj d ∈ [JObj d0] -> (role_is "assistant" d0 = true -> forall c l, dict_get "tool_calls" d0 <> Some (JArr (c :: l))) ->
    result_in_list keep d /\ calls_in_list keep d).
  { intros [= ->]%list_elem_of_singleton H. split; [by apply Hr|]. intros Ha [|c l] Hc; [constructor|]. by destruct (H Ha c l). }
  destruct (dict_get "tool_calls" d0) as [[| | | |[|c l]|]|] eqn:Ed; try (intros [= <- <-] H; apply Hsame; congruence).
  destruct (role_is "assistant" d0) eqn:Ea; [|intros [= <- <-] H; apply Hsame; congruence].
  destruct (kept_calls keep (c :: l)) as [kept|] eqn:Ek; cbn [mbind option_bind]; [|done]. pose proof (kept_calls_in _ _ _ Ek) as Hin.
  destruct (kept_length _ _ _ Ek) as [_ Hlen]. destruct (length kept =? length (c :: l))%nat eqn:El; intros [= <- <-] [= ->]%list_elem_of_singleton.
  - split; [by apply Hr|]. intros _ calls Hc. apply Nat.eqb_eq in El. rewrite (Hlen El) in Hin. congruence.
  - split; [apply Hr; destruct kept; by rewrite ?role_set, ?role_del|]. intros _ calls. destruct kept as [|k kept].
    + by rewrite dict_get_del, decide_True.
    + rewrite dict_get_set, decide_True by done. by intros [= <-].
Qed.
Lemma cleanup_loop_in keep messages out ch d : cleanup_loop keep messages = Some (out, ch) -> JObj d ∈ out ->
  result_in_list keep d /\ calls_in_list keep d.
Proof.
  revert out ch. induction messages as [|m messages IH]; intros out ch; simpl; [by intros [= <- <-] ?%elem_of_nil|].
  destruct (cleaned keep m) as [[ms c]|] eqn:Em; simpl; [|done]. destruct (cleanup_loop keep messages) as [[out' c']|]; simpl; [|done].
  intros [= <- <-] [H|H]%elem_of_app; [by eapply cleaned_in|by eapply IH].
Qed.
(** Every result answers a call that is there, and every call is answered. *)
Definition paired (messages : list json) : Prop := exists cs rs, collect_ids messages = Some (cs, rs) /\
  forall d, JObj d ∈ messages -> result_in_list cs d /\ calls_in_list rs d.
Lemma in_list_ext a b d : (forall v, mem v a = mem v b) -> (result_in_list a d -> result_in_list b d) /\ (calls_in_list a d -> calls_in_list b d).
Proof.
  intros H. unfold result_in_list, calls_in_list. split; [by rewrite H|]. intros Hc Ha calls Hd. eapply Forall_impl; [exact (Hc Ha calls Hd)|].
  intros c (e & -> & He). exists e. by rewrite <- H.
Qed.

(** C34: When some call or some result has an identifier (and none of a call is NaN), the
    clean-up leaves the calls
    that a result answers and the results that answer a call, and nothing else: no call
    and no result without an identifier stays.  When none has one, the conversation is
    left as it is.  Cleaning again changes nothing. *)
Theorem cleanup_pairs messages out cs rs :
  collect_ids messages = Some (cs, rs) -> Forall proper cs -> cleanup_orphan_tool_calls messages = Some out ->
  (if decide (cs = [] /\ rs = []) then out = messages else paired out) /\
  cleanup_orphan_tool_calls out = Some out.
Proof.
  intros E Hp. pose proof E as E0. unfold cleanup_orphan_tool_calls at 1. rewrite E. simpl. set (keep := List.filter (fun v => mem v rs) cs).
  intros H. assert (Hcase : out = messages /\ cs = [] /\ rs = [] \/ ~ (cs = [] /\ rs = []) /\ exists c, cleanup_loop keep messages = Some (out, c)).
  { destruct cs as [|c cs]; [destruct rs as [|r rs]|]; [left; by injection H as <-|right; split; [by intros []|]..];
      (destruct (cleanup_loop keep messages) as [[out' c']|] eqn:El; simpl in H; [|done]; injection H as <-;
       destruct (cleanup_loop_ids _ _ _ _ _ _ El E) as [_ Hsame]; exists c'; destruct c'; [done|by rewrite <- Hsame]). }
  destruct Hcase as [(-> & -> & ->)|[Hsome [c El]]].
  - rewrite decide_True by done. split; [done|]. unfold cleanup_orphan_tool_calls. by rewrite E.
  - destruct (cleanup_loop_ids _ _ _ _ _ _ El E) as [Hids _].
    pose proof (kept_paired cs rs) as Hpair. pose proof (kept_mem cs rs) as Hmem. cbv zeta in Hpair, Hmem. fold keep in Hpair, Hmem.
    rewrite decide_False by done. split.
    { exists (kept_ids keep cs), (kept_ids keep rs). split; [done|]. intros d Hd. destruct (cleanup_loop_in _ _ _ _ _ El Hd) as [H1 H2].
      split; [eapply (in_list_ext keep); [intros v; symmetry; by apply Hmem|done]|].
      eapply (in_list_ext keep); [intros v; rewrite <- Hpair by done; symmetry; by apply Hmem|done]. }
    unfold cleanup_orphan_tool_calls. rewrite Hids. simpl.
    rewrite (cleanup_loop_ext _ keep), (cleanup_loop_again _ _ _ _ El).
    { by destruct (kept_ids keep cs), (kept_ids keep rs). }
    intros v. rewrite <- (Hmem v Hp). apply eq_true_iff_eq. rewrite mem_filter. split.
    + intros (k & Hk & _ & Hv). apply mem_spec. by exists k.
    + intros (k & Hk & Hv)%mem_spec. exists k. split; [done|]. split; [|done]. rewrite <- (Hpair k Hp). apply mem_spec. exists k.
      split; [done|]. rewrite Forall_forall in Hp. apply Hp. unfold kept_ids in Hk.
      apply list_elem_of_In, filter_In in Hk as [Hk _]. by apply list_elem_of_In.
Qed.

(** ** Groups of results *)

Definition wanted (want : list json) (m : json) : Prop :=
  exists d, m = JObj d /\ role_is "tool" d = true /\ mem (default JNull (dict_get "tool_call_id" d)) want = true.
(** A message that does not belong to the group is next, if any. *)
Definition ends (want : list json) (l : list json) : Prop :=
  match l with [] => True | m :: _ => ~ wanted want m /\ is_notice m = false end.
(** A conversation whose groups are whole: the calls of a message are followed by
    results, then by notices, then by what does not belong to the group. *)
Inductive grouped : list json -> Prop :=
| grouped_nil : grouped []
| grouped_message m l : opens m = Some None -> grouped l -> grouped (m :: l)
| grouped_calls m want results notices l :
    opens m = Some (Some want) -> Forall (wanted want) results -> Forall (fun m => is_notice m = true) notices ->
    ends want l -> grouped l -> grouped (m :: results ++ notices ++ l).

Lemma tool_no_notice d : role_is "tool" d = true -> is_notice (JObj d) = false.
Proof.
  intros H. simpl. by rewrite (role_other "tool" "system" d H), (role_other "tool" "developer" d H) by done.
Qed.
Lemma take_some g m g' : take_message g m = Some (Some g') ->
  gr_want g' = gr_want g /\
  ((wanted (gr_want g) m /\ gr_results g' = gr_results g ++ [m] /\ gr_notices g' = gr_notices g /\
    gr_moved g' = gr_moved g || match gr_notices g with [] => false | _ => true end) \/
   (is_notice m = true /\ gr_results g' = gr_results g /\ gr_notices g' = gr_notices g ++ [m] /\ gr_moved g' = gr_moved g)).
Proof.
  unfold take_message. destruct m as [| | | | |d]; try done. destruct (role_is "tool" d) eqn:Et.
  - destruct (member _ _) as [b|] eqn:Em; simpl; [|done]. apply member_mem in Em. destruct b; [|done]. intros [= <-].
    split; [done|]. left. split; [by exists d|done].
  - destruct (is_notice (JObj d)) eqn:En; [|done]. intros [= <-]. split; [done|by right].
Qed.
Lemma take_none g m l : take_message g m = Some None -> ends (gr_want g) (m :: l).
Proof.
  unfold take_message, ends, wanted. destruct m as [| | | | |d]; try (by intros _; split; [intros (? & ? & _)|]).
  destruct (role_is "tool" d) eqn:Et.
  - destruct (member _ _) as [b|] eqn:Em; simpl; [|done]. apply member_mem in Em. destruct b; [done|]. intros _.
    split; [|by apply tool_no_notice]. intros (d' & [= <-] & _ & H). congruence.
  - destruct (is_notice (JObj d)) eqn:En; [done|]. intros _. split; [|done]. intros (d' & [= <-] & H & _). congruence.
Qed.

(** The shape of what the loop gives, the group it was in included. *)
Definition loop_shape (g : option group) (out : list json) : Prop :=
  match g with
  | None => grouped out
  | Some g => Forall (wanted (gr_want g)) (gr_results g) -> Forall (fun m => is_notice m = true) (gr_notices g) ->
      exists results notices l, out = results ++ notices ++ l /\ Forall (wanted (gr_want g)) results /\
        Forall (fun m => is_notice m = true) notices /\ ends (gr_want g) l /\ grouped l
  end.
Lemma open_shape m want out : opens m = Some want -> loop_shape (open_group want) out -> grouped (m :: out).
Proof.
  intros Hm. destruct want as [want|]; simpl; [|by constructor].
  intros H. destruct (H ltac:(constructor) ltac:(constructor)) as (rs & ns & l & -> & Hrs & Hns & He & Hl). by econstructor.
Qed.
Lemma repack_loop_shape messages g out ch : repack_loop g messages = Some (out, ch) -> loop_shape g out.
Proof.
  revert g out ch. induction messages as [|m messages IH]; intros g out ch; simpl.
  - destruct g as [g|]; intros [= <- _]; [|constructor]. intros Hr Hn. exists (gr_results g), (gr_notices g), [].
    rewrite app_nil_r. split; [done|]. split; [done|]. split; [done|]. split; [done|constructor].
  - destruct g as [g|]; cbn [mbind option_bind].
    + destruct (take_message g m) as [[g'|]|] eqn:Et; cbn [mbind option_bind]; [| |done].
      * intros H%IH. destruct (take_some _ _ _ Et) as [Hw [(Hm & Hr & Hn & _)|(Hm & Hr & Hn & _)]];
          intros HR HN; rewrite <- Hw in *; apply H; rewrite ?Hr, ?Hn; try apply Forall_app; auto.
      * destruct (opens m) as [want|] eqn:Eo; simpl; [|done].
        destruct (repack_loop (open_group want) messages) as [[out' c]|] eqn:El; simpl; [|done]. intros [= <- _] HR HN.
        exists (gr_results g), (gr_notices g), (m :: out'). do 3 (split; [done|]).
        split; [exact (take_none g m out' Et)|]. eapply open_shape; [done|by eapply IH].
    + destruct (opens m) as [want|] eqn:Eo; simpl; [|done].
      destruct (repack_loop (open_group want) messages) as [[out' c]|] eqn:El; simpl; [|done]. intros [= <- _].
      eapply open_shape; [done|by eapply IH].
Qed.

(** The messages of the group being collected. *)
Definition pending (g : option group) : list json := match g with Some g => gr_results g ++ gr_notices g | None => [] end.
Definition moved (g : option group) : bool := match g with Some g => gr_moved g | None => false end.
Lemma pending_open want : pending (open_group want) = [].
Proof. by destruct want. Qed.
(** The other messages of a list, in their order. *)
Definition turns (l : list json) : list json := List.filter (fun m => negb (is_notice m)) l.
Lemma notices_no_turns l : Forall (fun m => is_notice m = true) l -> turns l = [].
Proof. unfold turns. induction 1 as [|x l Hx _ IH]; simpl; [done|]. by rewrite Hx. Qed.
Lemma wanted_no_notice want m : wanted want m -> is_notice m = false.
Proof. intros (d & -> & H & _). exact (tool_no_notice d H). Qed.
Lemma pending_take g m g' : take_message g m = Some (Some g') ->
  List.filter is_notice (pending (Some g')) = List.filter is_notice (pending (Some g)) ++ List.filter is_notice [m] /\
  (Forall (fun m => is_notice m = true) (gr_notices g) -> turns (pending (Some g')) = turns (pending (Some g)) ++ turns [m] /\
   Forall (fun m => is_notice m = true) (gr_notices g')).
Proof.
  intros H. destruct (take_some _ _ _ H) as [_ [(Hm & Hr & Hn & _)|(Hm & Hr & Hn & _)]]; unfold turns; simpl; rewrite Hr, Hn.
  - apply wanted_no_notice in Hm. rewrite !List.filter_app. simpl. rewrite Hm. simpl. rewrite !app_nil_r. split; [done|].
    intros HN. split; [|done]. pose proof (notices_no_turns _ HN) as E. unfold turns in E. by rewrite E, !app_nil_r.
  - rewrite !List.filter_app. simpl. rewrite Hm. simpl. rewrite !app_nil_r, !app_assoc. split; [done|].
    intros HN. split; [done|]. apply Forall_app. split; [done|by constructor].
Qed.
Lemma repack_loop_order messages g out ch : repack_loop g messages = Some (out, ch) ->
  Forall (fun m => is_notice m = true) (match g with Some g => gr_notices g | None => [] end) ->
  List.filter is_notice out = List.filter is_notice (pending g ++ messages) /\ turns out = turns (pending g ++ messages) /\
  (ch = false -> moved g = false /\ out = pending g ++ messages).
Proof.
  unfold turns. revert g out ch. induction messages as [|m messages IH]; intros g out ch; simpl.
  - rewrite app_nil_r. by destruct g; intros [= <- <-] _.
  - intros H HN. assert (Hend : forall want out' c, repack_loop (open_group want) messages = Some (out', c) ->
        out = pending g ++ m :: out' -> ch = moved g || c ->
        List.filter is_notice out = List.filter is_notice (pending g ++ m :: messages) /\
        turns out = turns (pending g ++ m :: messages) /\ (ch = false -> moved g = false /\ out = pending g ++ m :: messages)).
    { intros want out' c El -> ->. destruct (IH _ _ _ El) as (H1' & H2' & H3'); [by destruct want|]. rewrite pending_open in H1', H2', H3'.
      simpl in H1', H2', H3'. unfold turns in *. rewrite !List.filter_app. simpl. rewrite H1', H2'. split; [done|split; [done|]].
      intros [Hm Hc]%orb_false_iff. destruct (H3' Hc) as [_ ->]. done. }
    destruct g as [g|]; cbn [mbind option_bind] in H.
    + destruct (take_message g m) as [[g'|]|] eqn:Et; cbn [mbind option_bind] in H; [| |done].
      * destruct (pending_take _ _ _ Et) as [Hn Ht]. destruct (Ht HN) as [Ht' HN'].
        destruct (IH _ _ _ H HN') as (H1' & H2' & H3'). unfold turns in *. rewrite H1', H2', !List.filter_app, Hn, Ht', <- !app_assoc.
        rewrite <- !List.filter_app. split; [done|split; [done|]]. intros Hc. destruct (H3' Hc) as [Hm ->]. simpl in *.
        destruct (take_some _ _ _ Et) as [_ [(_ & Hr & Hn' & Hmv)|(_ & Hr & Hn' & Hmv)]]; rewrite Hmv in Hm.
        -- apply orb_false_iff in Hm as [Hm Hnil]. split; [done|]. rewrite Hr, Hn'. destruct (gr_notices g); [|done]. by rewrite !app_nil_r, <- app_assoc.
        -- split; [done|]. by rewrite Hr, Hn', <- !app_assoc.
      * destruct (opens m) as [want|]; simpl in H; [|done].
        destruct (repack_loop (open_group want) messages) as [[out' c]|] eqn:El; simpl in H; [|done]. injection H as <- <-.
        apply (Hend want out' c); [done|simpl; by rewrite <- app_assoc|done].
    + destruct (opens m) as [want|]; simpl in H; [|done].
      destruct (repack_loop (open_group want) messages) as [[out' c]|] eqn:El; simpl in H; [|done]. injection H as <- <-.
      by apply (Hend want out' c).
Qed.

(** A notice changes places with the result after it. *)
Definition is_result (m : json) : Prop := exists d, m = JObj d /\ role_is "tool" d = true.
Inductive nudged : list json -> list json -> Prop :=
| nudged_at a n r b : is_notice n = true -> is_result r -> nudged (a ++ n :: r :: b) (a ++ r :: n :: b).
Lemma nudged_prefix p l l' : rtc nudged l l' -> rtc nudged (p ++ l) (p ++ l').
Proof. apply rtc_congruence. intros ? ? [a n r b Hn Hr]. rewrite !app_assoc. by constructor. Qed.
Lemma result_ahead ns r b : Forall (fun m => is_notice m = true) ns -> is_result r -> rtc nudged (ns ++ r :: b) (r :: ns ++ b).
Proof.
  intros Hn Hr. induction Hn as [|n ns Hn _ IH]; [done|]. etrans; [apply (nudged_prefix [n]), IH|]. apply rtc_once, (nudged_at [] n r); done.
Qed.
Lemma repack_loop_nudges messages g out ch : repack_loop g messages = Some (out, ch) ->
  Forall (fun m => is_notice m = true) (match g with Some g => gr_notices g | None => [] end) ->
  rtc nudged (pending g ++ messages) out.
Proof.
  revert g out ch. induction messages as [|m messages IH]; intros g out ch; simpl.
  - rewrite app_nil_r. by destruct g; intros [= <- <-] _.
  - intros H HN. assert (Hend : forall want out' c, repack_loop (open_group want) messages = Some (out', c) ->
        rtc nudged (pending g ++ m :: messages) (pending g ++ m :: out')).
    { intros want out' c El. pose proof (IH _ _ _ El) as H'. rewrite pending_open in H'. apply nudged_prefix, (nudged_prefix [m]), H'. by destruct want. }
    destruct g as [g|]; cbn [mbind option_bind] in H.
    + destruct (take_message g m) as [[g'|]|] eqn:Et; cbn [mbind option_bind] in H; [| |done].
      * destruct (pending_take _ _ _ Et) as [_ Ht]. destruct (Ht HN) as [_ HN'].
        etrans; [|exact (IH _ _ _ H HN')]. simpl.
        destruct (take_some _ _ _ Et) as [_ [((d & -> & Hd & _) & -> & -> & _)|(_ & -> & -> & _)]]; rewrite <- !app_assoc; simpl; [|done].
        apply nudged_prefix, result_ahead; [done|by exists d].
      * destruct (opens m) as [want|]; simpl in H; [|done].
        destruct (repack_loop (open_group want) messages) as [[out' c]|] eqn:El; simpl in H; [|done]. injection H as <- <-.
        rewrite (app_assoc (gr_results g)). exact (Hend _ _ _ El).
    + destruct (opens m) as [want|]; simpl in H; [|done].
      destruct (repack_loop (open_group want) messages) as [[out' c]|] eqn:El; simpl in H; [|done]. injection H as <- <-. exact (Hend _ _ _ El).
Qed.

(** C33: Repacking three or more messages (fewer are returned as they are) makes every
    group of results whole, and it only moves notices back:
    what it gives comes from the conversation by letting a notice and the tool result
    right after it change places, again and again, so that nothing is lost, no notice
    comes earlier or crosses a message of a user or an assistant, and notices and all other
    messages keep their order among themselves. *)
Theorem repack_groups messages out : (3 <= length messages)%nat -> repack_tool_result_blocks messages = Some out ->
  grouped out /\ rtc nudged messages out /\ List.filter is_notice out = List.filter is_notice messages /\ turns out = turns messages.
Proof.
  intros Hl. unfold repack_tool_result_blocks. destruct (Nat.ltb_spec (length messages) 3); [lia|].
  destruct (repack_loop None messages) as [[out' c]|] eqn:El; simpl; [|done]. intros [= <-].
  pose proof (repack_loop_shape _ _ _ _ El) as Hs. destruct (repack_loop_order _ _ _ _ El) as (Hn & Ht & Hc); [constructor|].
  pose proof (repack_loop_nudges _ _ _ _ El ltac:(constructor)) as Hm. simpl in *. destruct c; [done|]. destruct (Hc eq_refl) as [_ ->]. done.
Qed.

(** ** Splitting *)

Lemma unchars_chars s : unchars (chars_of s) = s.
Proof.
  induction s as [|c s IH]; simpl; [done|]. destruct (chars_of s) as [|[|c' w] ws]; simpl in *; [by rewrite IH|by rewrite IH|].
  destruct (Stream.continuation c'); simpl; by rewrite <- IH.
Qed.
Lemma unchars_app a b : unchars (a ++ b) = unchars a +++ unchars b.
Proof. induction a as [|c a IH]; simpl; [done|]. by rewrite IH, append_assoc. Qed.
Lemma delimiter_cut_pos window half delims budget :
  (0 < budget)%nat -> Forall (fun d => chars_of d <> []) delims -> (0 < delimiter_cut window half delims budget)%nat.
Proof.
  intros Hb. induction 1 as [|d delims Hd _ IH]; simpl; [done|]. destruct (rfind (chars_of d) window) as [idx|]; [|done].
  destruct (half <=? idx)%nat; [|done]. destruct (chars_of d); [done|]. simpl. lia.
Qed.
Lemma cut_pos text budget : (0 < budget)%nat -> (0 < _split_at_delimiter text budget)%nat.
Proof.
  intros H. unfold _split_at_delimiter. apply delimiter_cut_pos; [done|]. unfold _SPLIT_DELIMITERS. repeat constructor; vm_compute; discriminate.
Qed.

Section split.
Variable estimate : string -> Z.

(** The loop ends, whatever the estimates say, and its pieces are the text. *)
Lemma split_text_spec fuel max_tokens remaining : (length remaining <= fuel)%nat -> exists pieces,
  split_text estimate fuel max_tokens remaining = Some pieces /\ concat pieces = remaining /\ Forall (fun p => p <> []) pieces.
Proof.
  revert remaining. induction fuel as [|fuel IH]; intros remaining Hf.
  - destruct remaining; simpl in *; [by exists []|lia].
  - destruct remaining as [|c remaining]; [by exists []|]. simpl. set (w := c :: remaining).
    destruct (estimate (c +++ unchars remaining) <=? max_tokens); [exists [w]; simpl; rewrite app_nil_r; by repeat constructor|].
    set (cut := _split_at_delimiter w _).
    assert (Hcut : (0 < cut)%nat) by (apply cut_pos; lia).
    destruct (IH (drop cut w)) as (pieces & -> & Hp & Hne); [rewrite length_drop; subst w; simpl in *; lia|].
    exists (take cut w :: pieces). split; [done|]. split; [simpl; rewrite Hp; apply take_drop|].
    constructor; [|done]. subst w. destruct cut; [lia|done].
Qed.

(** How one message is sent: as it is, or in several pieces of its text under the
    same other fields. *)
Definition sent_as (max_tokens : Z) (m : json) (ms : list json) : Prop :=
  ms = [m] \/ exists d content pieces, m = JObj d /\ splittable estimate max_tokens d = Some content /\
    ms = piece_messages d pieces /\ (2 <= length pieces)%nat /\ Forall (fun p => p <> []) pieces /\ concat pieces = chars_of content /\
    unchars (concat pieces) = content.
Lemma split_message_spec max_tokens m : exists ms, split_message estimate max_tokens m = Some ms /\ sent_as max_tokens m ms.
Proof.
  unfold split_message. destruct m as [| | | | |d]; try (eexists; split; [done|by left]).
  destruct (splittable estimate max_tokens d) as [content|] eqn:E; [|eexists; split; [done|by left]].
  destruct (split_text_spec (length (chars_of content)) max_tokens (chars_of content)) as (pieces & -> & Hp & Hne); [done|].
  simpl. destruct (Nat.leb_spec (length pieces) 1); [eexists; split; [done|by left]|].
  eexists. split; [done|]. right. exists d, content, pieces. split_and!; try done. by rewrite Hp, unchars_chars.
Qed.
Lemma split_spec max_tokens messages : exists parts,
  split_oversized_messages estimate messages max_tokens = Some (concat parts) /\ Forall2 (sent_as max_tokens) messages parts.
Proof.
  assert (Hsame : exists parts, Some messages = Some (concat parts) /\ Forall2 (sent_as max_tokens) messages parts).
  { exists (map (fun m => [m]) messages). split; [f_equal; induction messages; simpl; congruence|].
    induction messages; simpl; constructor; [by left|done]. }
  unfold split_oversized_messages. destruct (max_tokens <=? 0); [done|]. clear Hsame.
  induction messages as [|m messages (parts & IH & HF)]; [by exists []; split; [|constructor]|]. simpl.
  destruct (split_message_spec max_tokens m) as (ms & -> & Hm). simpl. rewrite IH. simpl. exists (ms :: parts). by split; [|constructor].
Qed.

(** The message of a piece: its text, the other fields of the whole message, and the
    cache mark on the last one only. *)
Definition piece_of (d : list (string * json)) (is_last : bool) (text : string) (m : json) : Prop := exists e, m = JObj e /\ text <> "" /\
  dict_get "content" e = Some (JStr text) /\ dict_get "cache_control" e = (if is_last then dict_get "cache_control" d else None) /\
  forall k, k <> "content" -> k <> "cache_control" -> dict_get k e = dict_get k d.
(** How a message leaves: as it is, or, when its text is over the limit, as messages of
    the same role whose texts make up its text. *)
Definition leaves_as (max_tokens : Z) (m : json) (ms : list json) : Prop :=
  ms = [m] \/ exists d content front end_ texts text, m = JObj d /\ dict_get "content" d = Some (JStr content) /\ max_tokens < estimate content /\
    ms = front ++ [end_] /\ front <> [] /\ Forall2 (piece_of d false) texts front /\ piece_of d true text end_ /\
    foldr String.append "" (texts ++ [text]) = content.
Lemma unchars_concat pieces : unchars (concat pieces) = foldr String.append "" (map unchars pieces).
Proof. induction pieces as [|p pieces IH]; simpl; [done|]. by rewrite unchars_app, IH. Qed.
Lemma unchars_nonempty s pieces p : concat pieces = chars_of s -> p ∈ pieces -> p <> [] -> unchars p <> "".
Proof.
  intros Hc Hp Hne. destruct p as [|c p]; [done|]. assert (Hin : c ∈ chars_of s).
  { rewrite <- Hc. apply list_elem_of_In, in_concat. exists (c :: p). split; [by apply list_elem_of_In|by left]. }
  clear -Hin. simpl. assert (c <> ""); [|by destruct c]. revert c Hin. induction s as [|a s IH]; intros c; simpl; [by intros ?%elem_of_nil|].
  destruct (chars_of s) as [|[|c' w] ws]; [by intros ->%list_elem_of_singleton| |].
  - intros [->|H]%elem_of_cons; [done|]. by apply IH.
  - destruct (Stream.continuation c'); intros [->|H]%elem_of_cons; try done; apply IH; [by right|done].
Qed.
Lemma pieces_leave d pieces : (2 <= length pieces)%nat -> Forall (fun p => unchars p <> "") pieces -> exists front end_ texts text,
  piece_messages d pieces = front ++ [end_] /\ front <> [] /\ Forall2 (piece_of d false) texts front /\ piece_of d true text end_ /\
  texts ++ [text] = map unchars pieces.
Proof.
  assert (Hlast : forall p, unchars p <> "" -> piece_of d true (unchars p) (JObj (dict_set "content" (JStr (unchars p)) d))).
  { intros p Hp. eexists. do 2 (split; [done|]). rewrite !dict_get_set, decide_True, decide_False by done. do 2 (split; [done|]).
    intros k Hk _. by rewrite dict_get_set, decide_False. }
  assert (Hfirst : forall p, unchars p <> "" -> piece_of d false (unchars p) (JObj (dict_del "cache_control" (dict_set "content" (JStr (unchars p)) d)))).
  { intros p Hp. eexists. do 2 (split; [done|]). rewrite !dict_get_del, decide_False, decide_True, dict_get_set, decide_True by done. do 2 (split; [done|]).
    intros k Hk Hk'. by rewrite dict_get_del, decide_False, dict_get_set, decide_False. }
  destruct pieces as [|p [|p' pieces]]; simpl; [lia..|]. intros _ [Hp Hps]%Forall_cons. revert p p' Hp Hps.
  induction pieces as [|p'' pieces IH]; intros p p' Hp [Hp' Hps]%Forall_cons.
  - eexists [_], _, [_], _. split; [done|]. split; [done|]. split; [constructor; [by apply Hfirst|done]|]. by split; [apply Hlast|].
  - destruct (IH p' p'' Hp' Hps) as (front & end_ & texts & text & Hm & _ & Hf & He & Ht).
    eexists (_ :: front), end_, (unchars p :: texts), text. simpl in *. rewrite Hm, Ht. split; [done|]. split; [done|].
    by split; [constructor; [apply Hfirst|]|].
Qed.
Lemma sent_leaves max_tokens m ms : sent_as max_tokens m ms -> leaves_as max_tokens m ms.
Proof.
  intros [->|(d & content & pieces & -> & Hs & -> & Hl & Hne & Hc & Hu)]; [by left|]. right.
  unfold splittable in Hs. destruct (dict_get "content" d) as [[| | |t| |]|] eqn:Ed; try done.
  destruct (_ || _) eqn:E in Hs; [done|]. injection Hs as ->. apply orb_false_iff in E as [_ E]. apply Z.leb_gt in E.
  destruct (pieces_leave d pieces Hl) as (front & end_ & texts & text & -> & Hf & Hfs & He & Ht).
  { rewrite Forall_forall in Hne |- *. intros p Hp. by eapply unchars_nonempty; eauto. }
  exists d, content, front, end_, texts, text. do 7 (split; [done|]). by rewrite Ht, <- unchars_concat.
Qed.

(** C35: Splitting always succeeds and loses nothing: every message leaves as it is or, when
    its text is over the limit, as at least two messages with non-empty texts that, put
    together in order, are its text letter by letter; every other field is the same, save
    the cache mark, which only the last one has. *)
Theorem split_lossless max_tokens messages : exists parts,
  split_oversized_messages estimate messages max_tokens = Some (concat parts) /\ Forall2 (leaves_as max_tokens) messages parts.
Proof.
  destruct (split_spec max_tokens messages) as (parts & H & HF). exists parts. split; [done|].
  eapply Forall2_impl; [exact HF|]. apply sent_leaves.
Qed.

(** A piece has the fields of its message. *)
Lemma piece_fields d pieces k m : (1 <= length pieces)%nat -> k <> "content" -> k <> "cache_control" ->
  m ∈ piece_messages d pieces -> exists e, m = JObj e /\ dict_get k e = dict_get k d.
Proof.
  intros Hl Hk Hk'. induction pieces as [|p pieces IH]; simpl in *; [lia|].
  destruct pieces as [|p' pieces]; intros Hm.
  - apply list_elem_of_singleton in Hm as ->. eexists. split; [done|]. by rewrite dict_get_set, decide_False.
  - apply elem_of_cons in Hm as [->|Hm]; [|apply IH; [simpl; lia|done]].
    eexists. split; [done|]. by rewrite dict_get_del, decide_False, dict_get_set, decide_False.
Qed.
(** Splitting keeps the pairing: a message with calls or a result is never split. *)
Lemma piece_no_ids d pieces max_tokens content : splittable estimate max_tokens d = Some content ->
  collect_ids (piece_messages d pieces) = Some ([], []) /\ calls_in (JObj d) = Some [] /\ result_in (JObj d) = Some [].
Proof.
  intros H. unfold splittable in H. destruct (dict_get "content" d) as [[| | |t| |]|]; try done.
  destruct (negb (role_is "system" d || role_is "user" d || role_is "assistant" d)) eqn:Er; [done|]. simpl in H.
  destruct (truthy_field "tool_calls" d) as [v|] eqn:Et; [by rewrite bool_decide_true in H|].
  assert (Htool : role_is "tool" d = false).
  { destruct (role_is "tool" d) eqn:E; [|done].
    by rewrite (role_other _ "system" _ E), (role_other _ "user" _ E), (role_other _ "assistant" _ E) in Er. }
  assert (Hone : forall e, (forall k, k <> "content" -> k <> "cache_control" -> dict_get k e = dict_get k d) ->
    calls_in (JObj e) = Some [] /\ result_in (JObj e) = Some []).
  { intros e He. simpl. unfold role_is in *. rewrite !He by done. rewrite Htool. split; [|done].
    unfold truthy_field in Et. destruct (dict_get "tool_calls" d) as [v|]; [destruct (json_truthy v); [done|]|];
      match goal with |- (if ?b then _ else _) = _ => by destruct b end. }
  split; [|by apply Hone]. clear H Er. induction pieces as [|p pieces IH]; [done|].
  destruct pieces as [|p' pieces].
  - destruct (Hone (dict_set "content" (JStr (unchars p)) d)) as [Hc Hr].
    { intros k Hk _. by rewrite dict_get_set, decide_False. }
    cbn -[calls_in result_in]. by rewrite Hc, Hr.
  - destruct (Hone (dict_del "cache_control" (dict_set "content" (JStr (unchars p)) d))) as [Hc Hr].
    { intros k Hk Hk'. by rewrite dict_get_del, decide_False, dict_get_set, decide_False. }
    change (piece_messages d (p :: p' :: pieces)) with
      (JObj (dict_del "cache_control" (dict_set "content" (JStr (unchars p)) d)) :: piece_messages d (p' :: pieces)).
    cbn -[calls_in result_in piece_messages]. rewrite Hc, Hr. cbn [mbind option_bind]. by rewrite IH.
Qed.
Lemma split_keeps_ids max_tokens messages out cs rs : split_oversized_messages estimate messages max_tokens = Some out ->
  collect_ids messages = Some (cs, rs) -> collect_ids out = Some (cs, rs).
Proof.
  destruct (split_spec max_tokens messages) as (parts & -> & H). intros [= <-]. revert cs rs.
  induction H as [|m ms messages parts Hm _ IH]; intros cs rs; simpl; [done|].
  destruct (calls_in m) as [c|] eqn:Ec; simpl; [|done]. destruct (result_in m) as [r|] eqn:Er; simpl; [|done].
  destruct (collect_ids messages) as [[cs' rs']|]; simpl; [|done]. intros [= <- <-]. rewrite collect_app, (IH _ _ eq_refl).
  destruct Hm as [->|(d & content & pieces & -> & Hs & -> & _)].
  - cbn -[calls_in result_in]. rewrite Ec, Er. simpl. by rewrite !app_nil_r.
  - destruct (piece_no_ids d pieces _ _ Hs) as (-> & Hc & Hr). rewrite Hc in Ec. rewrite Hr in Er. by injection Ec as <-; injection Er as <-.
Qed.
End split.

(** ** Bodies for an Anthropic service *)

Section anthropic.
Variables (py_str : json -> string) (hex : nat -> nat -> string).
Hypothesis hex_legal : forall i j, all_legal (hex i j) = true.

Definition legal_text (P : string -> Prop) (v : option json) : Prop := exists s, v = Some (JStr s) /\ P s.
(** The identifiers and the name of a tool block are legal. *)
Definition identified (b : json) : Prop :=
  match b with
  | JObj d =>
      (type_is "tool_use" d = true -> legal_text legal_id (dict_get "id" d) /\
         (is_Some (dict_get "name" d) -> legal_text legal_name (dict_get "name" d))) /\
      (type_is "tool_result" d = true -> legal_text legal_id (dict_get "tool_use_id" d))
  | _ => True
  end.
(** A block the service does not reject for its identifiers or its signature. *)
Definition accepted (b : json) : Prop := unsigned_thinking b = false /\ identified b.
Lemma type_set k v t d : k <> "type" -> type_is t (dict_set k v d) = type_is t d.
Proof. intros H. unfold type_is. rewrite dict_get_set. by rewrite decide_False. Qed.
Lemma type_other a b d : type_is a d = true -> a <> b -> type_is b d = false.
Proof.
  unfold type_is. destruct (dict_get "type" d) as [[]|]; try done. intros H%String.eqb_eq Hab. subst. by apply String.eqb_neq.
Qed.
Lemma clean_identified i j b : identified (clean_block py_str hex i j b).
Proof.
  unfold clean_block. destruct b as [| | | | |d]; try done. destruct (type_is "tool_use" d) eqn:Eu.
  - set (id := sanitize_anthropic_tool_id _ _ _). assert (Hid : legal_id id) by by apply sanitize_id_legal.
    rewrite dict_get_set, decide_False by done. destruct (dict_get "name" d) as [name|] eqn:En; simpl; rewrite !type_set by done; split.
    + intros _. rewrite !dict_get_set. simpl. split; [by exists id|]. intros _. eexists. split; [done|apply sanitize_name_legal].
    + by rewrite (type_other _ _ _ Eu).
    + intros _. rewrite !dict_get_set. simpl. split; [by exists id|]. rewrite En. by intros [? ?].
    + by rewrite (type_other _ _ _ Eu).
  - destruct (type_is "tool_result" d) eqn:Er; simpl; [|split; congruence]. rewrite !type_set by done. rewrite Eu. split; [done|]. intros _.
    rewrite dict_get_set. simpl. eexists. split; [done|by apply sanitize_id_legal].
Qed.
Lemma plain_identified b : is_tool_block b = false -> identified b.
Proof. destruct b as [| | | | |d]; try done. simpl. intros [-> ->]%orb_false_iff. done. Qed.

Lemma existsb_elem {A} (f : A -> bool) (l : list A) x : x ∈ l -> f x = true -> existsb f l = true.
Proof. intros Hx Hf. apply existsb_exists. exists x. split; [by apply list_elem_of_In|done]. Qed.
(** The blocks of every message satisfy [P]. *)
Definition all_blocks (P : json -> Prop) (body : list (string * json)) : Prop :=
  forall ms m l b, dict_get "messages" body = Some (JArr ms) -> m ∈ ms -> content_blocks m = Some l -> b ∈ l -> P b.
Lemma content_set v m l : content_blocks m = Some l -> content_blocks (set_content v m) = match v with JArr l' => Some l' | _ => None end.
Proof. destruct m as [| | | | |d]; try done. simpl. intros _. by rewrite dict_get_set, decide_True. Qed.
Lemma ids_identified body : all_blocks identified (sanitize_anthropic_tool_ids_in_body py_str hex body).
Proof.
  intros ms m l b. unfold sanitize_anthropic_tool_ids_in_body.
  destruct (dict_get "messages" body) as [v|] eqn:Em; [|by rewrite Em]. destruct v as [| | | |ms0|]; try (by rewrite Em).
  destruct (existsb _ ms0) eqn:Ee.
  - rewrite dict_get_set, decide_True by done. intros [= <-] (i & Hi)%list_elem_of_lookup Hl (j & Hj)%list_elem_of_lookup.
    rewrite list_lookup_imap in Hi. destruct (ms0 !! i) as [m0|]; [|done]. injection Hi as <-. unfold on_blocks in Hl.
    destruct (content_blocks m0) as [l0|] eqn:E0; [|congruence]. rewrite (content_set _ _ _ E0) in Hl. injection Hl as <-.
    rewrite list_lookup_imap in Hj. destruct (l0 !! j); [|done]. injection Hj as <-. apply clean_identified.
  - rewrite Em. intros [= <-] Hm Hl Hb. apply plain_identified. destruct (is_tool_block b) eqn:E; [|done]. exfalso.
    assert (Hx : existsb (fun m => existsb is_tool_block (default [] (content_blocks m))) ms0 = true).
    { apply (existsb_elem _ _ m); [done|]. rewrite Hl. by apply (existsb_elem _ _ b). }
    congruence.
Qed.
Lemma no_unsigned l : existsb unsigned_thinking l = false -> forall b, b ∈ l -> unsigned_thinking b = false.
Proof.
  intros H b Hb. destruct (unsigned_thinking b) eqn:E; [|done]. by rewrite (existsb_elem _ _ _ Hb E) in H.
Qed.

(** No block of a body that leaves for an Anthropic service has a thought with an
    empty or a synthetic signature, an illegal tool identifier or an illegal name. *)
Lemma sanitized_body_accepted body : all_blocks accepted (sanitize_anthropic_request_body py_str hex body).
Proof.
  pose proof (ids_identified body) as Hid. unfold sanitize_anthropic_request_body. cbv zeta.
  set (s := sanitize_anthropic_tool_ids_in_body py_str hex body) in *. intros ms m l b.
  destruct (dict_get "messages" s) as [v|] eqn:Em; [|by rewrite Em]. destruct v as [| | | |ms0|]; try (by rewrite Em).
  rewrite dict_get_set, decide_True by done. intros [= <-] Hm Hl Hb.
  apply list_elem_of_fmap in Hm as (m0 & -> & Hm0). unfold drop_unsigned in Hl.
  destruct (content_blocks m0) as [l0|] eqn:E0; [|congruence].
  assert (Hacc : b ∈ l0 -> unsigned_thinking b = false -> accepted b) by (intros Hb0 Hu; split; [done|by apply (Hid ms0 m0 l0 b)]).
  destruct (existsb unsigned_thinking l0) eqn:Eu.
  - rewrite (content_set _ _ _ E0) in Hl. assert (Hf : List.filter (fun b => negb (unsigned_thinking b)) l0 = l)
      by (destruct (List.filter _ l0); [done|by injection Hl as <-]).
    rewrite <- Hf in Hb. apply list_elem_of_In, filter_In in Hb as [Hb Hu]. apply Hacc; [by apply list_elem_of_In|by apply negb_true_iff].
  - rewrite E0 in Hl. injection Hl as <-. apply Hacc; [done|by eapply no_unsigned].
Qed.

(** A system text written as a list and as a string again. *)
Lemma coerce_roundtrip s : s <> "" ->
  coerce_anthropic_system py_str (coerce_anthropic_system py_str (JStr s) "array") "str" = JStr s.
Proof. intros H. simpl. destruct s as [|c s]; [done|]. reflexivity. Qed.
End anthropic.

(** ** Samples *)

Module MessagesSample.
Definition user (t : string) : json := JObj [("role", JStr "user"); ("content", JStr t)].
Definition system (t : string) : json := JObj [("role", JStr "system"); ("content", JStr t)].
Definition calls (ids : list string) : json :=
  JObj [("role", JStr "assistant"); ("tool_calls", JArr (map (fun i => JObj [("id", JStr i)]) ids))].
Definition result (id : string) : json := JObj [("role", JStr "tool"); ("tool_call_id", JStr id); ("content", JStr "ok")].

(** A notice between two results, a call without a result and a result without a call. *)
Definition history : list json := [user "go"; calls ["a"; "b"; "c"]; result "a"; system "resized"; result "b"; user "more"; result "z"].
Definition repacked : list json := [user "go"; calls ["a"; "b"; "c"]; result "a"; result "b"; system "resized"; user "more"; result "z"].
Definition cleaned_up : list json := [user "go"; calls ["a"; "b"]; result "a"; result "b"; system "resized"; user "more"].
Example history_repaired : repack_tool_result_blocks history = Some repacked /\ repair history = Some cleaned_up.
Proof. split; vm_compute; reflexivity. Qed.

Example repack_groups_witness : grouped repacked /\ rtc nudged history repacked.
Proof. destruct (repack_groups history repacked) as (Hg & Hn & _); [simpl; lia|vm_compute; reflexivity|by split]. Defined.
Example cleanup_pairs_witness : paired cleaned_up /\ cleanup_orphan_tool_calls cleaned_up = Some cleaned_up.
Proof.
  apply (cleanup_pairs repacked cleaned_up [JStr "a"; JStr "b"; JStr "c"] [JStr "a"; JStr "b"; JStr "z"]).
  - vm_compute. reflexivity.
  - repeat constructor; apply proper_str.
  - vm_compute. reflexivity.
Defined.
(** Where nothing has an identifier, a call without a result and a result without a call stay. *)
Lemma unnamed_stay : let nameless := [JObj [("role", JStr "assistant"); ("tool_calls", JArr [JObj [("type", JStr "function")]])];
                                      JObj [("role", JStr "tool"); ("content", JStr "ok")]] in
  cleanup_orphan_tool_calls nameless = Some nameless.
Proof. by vm_compute. Qed.

(** A result without a call ends its group early, and only then is it dropped: the
    notice stays between the results it should not part. *)
Definition parted : list json := [user "go"; calls ["a"; "b"]; result "a"; result "z"; system "resized"; result "b"].
Lemma repair_leaves_notice :
  repair parted = Some [user "go"; calls ["a"; "b"]; result "a"; system "resized"; result "b"] /\
  (out ← cleanup_orphan_tool_calls parted; repack_tool_result_blocks out) =
    Some [user "go"; calls ["a"; "b"]; result "a"; result "b"; system "resized"].
Proof. split; vm_compute; reflexivity. Qed.

(** A text of three sentences at about one token per four bytes. *)
Definition long : json := user "One two three four. Five six seven eight. Nine ten eleven.".
Example long_split : split_oversized_messages (fun s => Z.of_nat (String.length s) / 4) [long] 6 =
  Some [user "One two three four. "; user "Five six seven eight. "; user "Nine ten eleven."].
Proof. vm_compute. reflexivity. Qed.

Definition body : list (string * json) :=
  [("messages", JArr [JObj [("role", JStr "assistant"); ("content", JArr
     [JObj [("type", JStr "thinking"); ("signature", JStr PROXY_SYNTHETIC_THINKING_SIGNATURE)];
      JObj [("type", JStr "tool_use"); ("id", JStr "functions.todo:3"); ("name", JStr "to do")]])]])].
Lemma sanitized_body_accepted_witness :
  accepted (JObj [("type", JStr "tool_use"); ("id", JStr "functions_todo_3"); ("name", JStr "to_do")]).
Proof.
  eapply (sanitized_body_accepted (fun _ => "") (fun _ _ => "ab") (fun _ _ => eq_refl) body).
  - vm_compute. reflexivity.
  - apply list_elem_of_singleton. reflexivity.
  - vm_compute. reflexivity.
  - apply list_elem_of_singleton. reflexivity.
Defined.
End MessagesSample.
