(* ===== verification/Convert.v ===== *)
(** server/message_utils.py, requests and answers between the OpenAI and the Anthropic
    dialect: contents, tool calls and results, whole conversations in both directions with
    the parameters of a request, and answers that are not streamed.

    None is an exception.  [hex] stands for the random part of an identifier that is made
    up, by message and block. *)
From S2P Require Import Prelude Json Text Retry Stream Messages.

Definition LINE : string := String "010" "".
(** [json.dumps(v, ensure_ascii=False, separators=(",", ":"))] *)
Fixpoint dump_compact (v : json) : string :=
  match v with
  | JArr l => "[" +++ join "," (map dump_compact l) +++ "]"
  | JObj d => "{" +++ join "," (map (fun kv => quote kv.1 +++ ":" +++ dump_compact kv.2) d) +++ "}"
  | v => dump_value v
  end.
Definition _json_dumps_compact (v : json) : string := match v with JStr s => s | v => dump_compact v end.
(** [d.get(k)] compared with one of some words. *)
Definition one_of (words : list string) (v : option json) : bool := match v with Some (JStr s) => bool_decide (s ∈ words) | _ => false end.

Section convert.
Variable py_str : json -> string.
Abbreviation field := (get_text py_str).
Abbreviation str_ := (json_str_of py_str).

(** ** Images *)

Definition until (c : ascii) (s : string) : string := match cut_at c s with Some (a, _) => a | None => s end.
Definition _safe_image_url_preview (url : string) : string :=
  if negb (str_truthy url) then "" else if startswith "data:" url then until "," url +++ ",..." else url.
Definition _data_url_to_media_and_data (url : string) : option (string * string) :=
  match cut_at "," url with
  | None => None
  | Some (header, data) =>
      if negb (startswith "data:" header) || negb (str_contains ";base64" header) then None
      else let media_type := until ";" (str_drop 5 header) in
           if startswith "image/" media_type && str_truthy data then Some (media_type, data) else None
  end.
Definition _openai_image_url_value (image_url : option json) : string :=
  match image_url with Some (JStr s) => s | Some (JObj d) => field d "url" | _ => "" end.
Definition openai_image_url_to_anthropic_source (image_url : option json) : option json :=
  let url := _openai_image_url_value image_url in
  if negb (str_truthy url) then None
  else if startswith "http://" url || startswith "https://" url then Some (JObj [("type", JStr "url"); ("url", JStr url)])
  else if startswith "data:" url then
    '(media_type, data) ← _data_url_to_media_and_data url;
    Some (JObj [("type", JStr "base64"); ("media_type", JStr media_type); ("data", JStr data)])
  else None.

(** ** Contents *)

Definition image_note (name url : string) : string :=
  let preview := _safe_image_url_preview url in
  if str_truthy preview then "[" +++ name +++ ": " +++ preview +++ "]" else "[" +++ name +++ "]".
(** [inner] is the text of the part's own content. *)
Definition _openai_content_part_text (include_image_urls : bool) (d : list (string * json)) (inner : string) : string :=
  let type := dict_get "type" d in
  if one_of ["input_text"; "output_text"; "text"] type then field d "text"
  else if one_of ["image_url"] type then
    if include_image_urls then image_note "image_url" (_openai_image_url_value (dict_get "image_url" d)) else ""
  else if one_of ["input_image"] type then
    if include_image_urls then image_note "input_image" (str_or (field d "image_url") (field d "url")) else ""
  else match dict_get "text" d with
       | Some JNull | None => match dict_get "content" d with Some JNull | None => _json_dumps_compact (JObj d) | Some _ => inner end
       | Some _ => field d "text"
       end.
Fixpoint openai_content_to_text (include_image_urls : bool) (content : json) : string :=
  let part d := _openai_content_part_text include_image_urls d
    ((fix inner d := match d with
                     | [] => ""
                     | (k, x) :: d' => if decide ("content" = k) then openai_content_to_text include_image_urls x else inner d'
                     end) d) in
  match content with
  | JNull => ""
  | JStr s => s
  | JArr l => join LINE ((fix parts l := match l with
                                         | [] => []
                                         | item :: l' =>
                                             match item with
                                             | JNull => []
                                             | JStr s => [s]
                                             | JObj d => let t := part d in if str_truthy t then [t] else []
                                             | v => [str_ v]
                                             end ++ parts l'
                                         end) l)
  | JObj d => part d
  | v => str_ v
  end.

(** A part that must be an object with a type. *)
Definition _require_openai_content_part_dict (item : json) : option (list (string * json)) :=
  match item with JObj d => match truthy_field "type" d with Some _ => Some d | None => None end | _ => None end.
Definition text_block (s : string) : json := JObj [("type", JStr "text"); ("text", JStr s)].
Definition content_block (user : bool) (item : json) : option json :=
  match item with
  | JStr s => Some (text_block s)
  | _ =>
      d ← _require_openai_content_part_dict item;
      let type := dict_get "type" d in
      if one_of ["text"; "input_text"; "output_text"] type then Some (text_block (field d "text"))
      else if one_of ["image_url"] type then
        if user then source ← openai_image_url_to_anthropic_source (dict_get "image_url" d); Some (JObj [("type", JStr "image"); ("source", source)])
        else None
      else None
  end.
Definition openai_content_to_anthropic_blocks (content : json) (user : bool) : option (list json) :=
  match content with
  | JNull | JStr "" => Some []
  | JStr s => Some [text_block s]
  | JObj d => mapM (content_block user) [JObj d]
  | JArr l => mapM (content_block user) l
  | v => Some [text_block (str_ v)]
  end.

(** ** Tool calls and results *)

Definition _parse_openai_tool_arguments (arguments : option json) : list (string * json) :=
  match arguments with
  | Some (JObj d) => d
  | Some (JStr s) => match loads s with Some (JObj d) => d | _ => [] end
  | _ => []
  end.
Definition tool_use_block (id name : string) (input : list (string * json)) : json :=
  JObj [("type", JStr "tool_use"); ("id", JStr id); ("name", JStr name); ("input", JObj input)].
Definition function_of (d : list (string * json)) : list (string * json) := match dict_get "function" d with Some (JObj f) => f | _ => [] end.
Definition call_block (hex : string) (call : json) : list json :=
  match call with
  | JObj d =>
      let f := function_of d in
      [tool_use_block (sanitize_anthropic_tool_id py_str hex (dict_get "id" d)) (sanitize_anthropic_tool_name py_str (dict_get "name" f))
                      (_parse_openai_tool_arguments (dict_get "arguments" f))]
  | _ => []
  end.
Definition openai_tool_calls_to_anthropic_blocks (hex : nat -> string) (tool_calls : json) : option (list json) :=
  match tool_calls with
  | JArr l => Some (concat (imap (fun i c => call_block (hex i) c) l))
  | JNull | JBool false | JStr _ | JObj _ => Some []
  | v => if json_truthy v then None else Some []
  end.
Definition tool_result_block (id content : string) : json :=
  JObj [("type", JStr "tool_result"); ("tool_use_id", JStr id); ("content", JStr content)].
Definition openai_tool_message_to_anthropic_block (hex : string) (d : list (string * json)) : json :=
  let id := match truthy_field "tool_call_id" d with Some v => Some v | None => truthy_field "id" d end in
  tool_result_block (sanitize_anthropic_tool_id py_str hex id) (openai_content_to_text true (default (JStr "") (dict_get "content" d))).
Definition system_part (item : json) : option string :=
  match item with
  | JStr s => Some s
  | _ => d ← _require_openai_content_part_dict item;
         if one_of ["text"; "input_text"; "output_text"] (dict_get "type" d) then Some (field d "text") else None
  end.
Definition _openai_system_content_to_text (content : json) : option string :=
  let parts l := (fun ps => join LINE (filter (fun p => str_truthy p = true) ps)) <$> mapM system_part l in
  match content with
  | JNull => Some ""
  | JStr s => Some s
  | JObj d => parts [JObj d]
  | JArr l => parts l
  | v => Some (str_ v)
  end.

(** ** An OpenAI conversation as an Anthropic one *)

Definition thinking_block (text : string) : json := JObj [("type", JStr "thinking"); ("thinking", JStr text); ("signature", JStr "")].
(** A system text, or a message. *)
Definition convert_message (hex : nat -> string) (m : json) : option (string + json) :=
  match m with
  | JObj d =>
      let role := match truthy_field "role" d with Some v => v | None => JStr "user" end in
      let content := default (JStr "") (dict_get "content" d) in
      if one_of ["system"; "developer"] (Some role) then inl <$> _openai_system_content_to_text content
      else if one_of ["tool"] (Some role)
      then Some (inr (JObj [("role", JStr "user"); ("content", JArr [openai_tool_message_to_anthropic_block (hex 0%nat) d])]))
      else if one_of ["user"; "assistant"] (Some role) then
        let assistant := one_of ["assistant"] (Some role) in
        parts ← openai_content_to_anthropic_blocks content (negb assistant);
        calls ← (match assistant, truthy_field "tool_calls" d with
                 | true, Some v => openai_tool_calls_to_anthropic_blocks hex v
                 | _, _ => Some []
                 end);
        let thinking := match assistant, truthy_field "reasoning_content" d with true, Some v => [thinking_block (str_ v)] | _, _ => [] end in
        Some (inr (JObj [("role", role); ("content", match thinking ++ parts ++ calls with [] => JStr "" | blocks => JArr blocks end)]))
      else None
  | _ => None
  end.
Fixpoint convert_messages (hex : nat -> nat -> string) (i : nat) (messages : list json) : option (list string * list json) :=
  match messages with
  | [] => Some ([], [])
  | m :: messages' =>
      c ← convert_message (hex i) m;
      '(system, rest) ← convert_messages hex (S i) messages';
      Some (match c with
            | inl text => (if str_truthy text then text :: system else system, rest)
            | inr m' => (system, m' :: rest)
            end)
  end.
Definition openai_messages_to_anthropic_messages (hex : nat -> nat -> string) (messages : list json) : option (list string * list json) :=
  convert_messages hex 0 messages.

(** ** An Anthropic request as an OpenAI one *)

(** [len(d.get(k, ""))] answers. *)
Definition has_len (k : string) (d : list (string * json)) : bool :=
  match dict_get k d with None | Some (JStr _) | Some (JArr _) | Some (JObj _) => true | _ => false end.
Definition texts_of (l : list json) : option (list string) := mapM (fun v => match v with JStr s => Some s | _ => None end) l.
Definition as_block (b : json) : option (list (string * json)) := match b with JObj d => Some d | _ => None end.
(** The text of a tool result. *)
Definition result_text_of (content : json) : option string :=
  match content with
  | JArr l =>
      ds ← mapM as_block l;
      join LINE <$> texts_of (map (fun d => default (JStr "") (dict_get "text" d)) (filter (fun d => one_of ["text"] (dict_get "type" d) = true) ds))
  | v => Some (str_ v)
  end.
(** What the blocks of a message are sorted into; names by the identifiers of the calls
    seen so far. *)
Record sorted := Sorted_ { so_texts : list json; so_thinking : list json; so_calls : list json; so_results : list (string * string) }.
Definition add_block (hex : string) (b : json) (s : sorted) (names : list (string * string)) : option (sorted * list (string * string)) :=
  d ← as_block b;
  let type := dict_get "type" d in
  if one_of ["text"] type then Some (Sorted_ (so_texts s ++ [default (JStr "") (dict_get "text" d)]) (so_thinking s) (so_calls s) (so_results s), names)
  else if one_of ["thinking"] type then
    Some (match truthy_field "thinking" d with
          | Some v => Sorted_ (so_texts s) (so_thinking s ++ [v]) (so_calls s) (so_results s)
          | None => s
          end, names)
  else if one_of ["tool_use"] type then
    let id := sanitize_anthropic_tool_id py_str hex (dict_get "id" d) in
    let name := sanitize_anthropic_tool_name py_str (dict_get "name" d) in
    let call := JObj [("id", JStr id); ("type", JStr "function");
                      ("function", JObj [("name", JStr name); ("arguments", JStr (dump_value (default (JObj []) (dict_get "input" d))))])] in
    Some (Sorted_ (so_texts s) (so_thinking s) (so_calls s ++ [call]) (so_results s),
          match truthy_field "name" d with Some _ => dict_set id name names | None => names end)
  else if one_of ["tool_result"] type then
    text ← result_text_of (default (JStr "") (dict_get "content" d));
    Some (Sorted_ (so_texts s) (so_thinking s) (so_calls s) (so_results s ++ [(sanitize_anthropic_tool_id py_str hex (dict_get "tool_use_id" d), text)]), names)
  else Some (s, names).
Fixpoint add_blocks (hex : nat -> string) (j : nat) (blocks : list json) (s : sorted) (names : list (string * string)) : option (sorted * list (string * string)) :=
  match blocks with
  | [] => Some (s, names)
  | b :: blocks' => '(s, names) ← add_block (hex j) b s names; add_blocks hex (S j) blocks' s names
  end.
Definition tool_message (names : list (string * string)) (r : string * string) : json :=
  JObj ([("role", JStr "tool"); ("content", JStr r.2); ("tool_call_id", JStr r.1)] ++
        match dict_get r.1 names with Some name => if str_truthy name then [("name", JStr name)] else [] | None => [] end).
(** [reasoning or "\n".join(parts)] *)
Definition reasoning_or (reasoning : json) (parts : list json) : option json :=
  if json_truthy reasoning then Some reasoning else JStr ∘ join LINE <$> texts_of parts.
Definition emit (role : option json) (reasoning : json) (s : sorted) (names : list (string * string)) : option (list json) :=
  if one_of ["assistant"] role then
    texts ← texts_of (so_texts s);
    thinking ← reasoning_or reasoning (so_thinking s);
    Some [JObj ([("role", JStr "assistant"); ("content", JStr (join LINE texts))] ++
                (if json_truthy thinking then [("reasoning_content", thinking)] else []) ++
                (match so_calls s with [] => [] | calls => [("tool_calls", JArr calls)] end))]
  else if one_of ["user"] role then
    let results := tool_message names <$> so_results s in
    match so_texts s with
    | [] => Some results
    | parts => texts ← texts_of parts; Some (results ++ [JObj [("role", JStr "user"); ("content", JStr (join LINE texts))]])
    end
  else Some [].
(** The summary for the log takes lengths, which not every value has. *)
Definition summary_ok (content : option json) (reasoning : bool) : bool :=
  reasoning && match content with
               | Some (JArr l) => forallb (fun b => match b with JObj d => has_len "text" d && has_len "thinking" d && has_len "data" d | _ => false end) l
               | _ => true
               end.
Definition anthropic_message (hex : nat -> string) (m : json) (names : list (string * string)) : option (list json * list (string * string)) :=
  match m with
  | JObj d =>
      let role := dict_get "role" d in
      let reasoning := default (JStr "") (dict_get "reasoning_content" d) in
      if negb (summary_ok (dict_get "content" d) (has_len "reasoning_content" d)) then None
      else match dict_get "content" d with
           | Some (JStr s) =>
               Some ([JObj ([("role", default JNull role); ("content", JStr s)] ++
                            (if one_of ["assistant"] role && json_truthy reasoning then [("reasoning_content", reasoning)] else []))], names)
           | Some (JArr blocks) =>
               '(s, names) ← add_blocks hex 0 blocks (Sorted_ [] [] [] []) names;
               ms ← emit role reasoning s names; Some (ms, names)
           | _ => Some ([], names)
           end
  | _ => None
  end.
Fixpoint anthropic_messages (hex : nat -> nat -> string) (i : nat) (messages : list json) (names : list (string * string)) : option (list json) :=
  match messages with
  | [] => Some []
  | m :: messages' =>
      '(ms, names) ← anthropic_message (hex i) m names;
      rest ← anthropic_messages hex (S i) messages' names; Some (ms ++ rest)
  end.
Definition system_text (system : json) : option string :=
  match system with
  | JStr s => Some s
  | JArr l => ds ← mapM as_block l;
              join "" <$> texts_of (map (fun d => default (JStr "") (dict_get "text" d)) (filter (fun d => one_of ["text"] (dict_get "type" d) = true) ds))
  | _ => Some ""
  end.
Definition system_messages (system : option json) : option (list json) :=
  match system with
  | Some v => if json_truthy v
              then text ← system_text v; Some (if str_truthy text then [JObj [("role", JStr "system"); ("content", JStr text)]] else [])
              else Some []
  | None => Some []
  end.

(** *** Parameters *)

Definition EMPTY_SCHEMA : json := JObj [("type", JStr "object"); ("properties", JObj [])].
Definition openai_tool (tool : json) : list json :=
  match tool with
  | JObj d =>
      let schema := match dict_get "input_schema" d with Some (JObj ((_ :: _) as s)) => JObj s | _ => EMPTY_SCHEMA end in
      [JObj [("type", JStr "function");
             ("function", JObj [("name", JStr (sanitize_anthropic_tool_name py_str (dict_get "name" d)));
                                ("description", default (JStr "") (dict_get "description" d)); ("parameters", schema)])]]
  | _ => []
  end.
(** A field that is there and not null, under another name. *)
Definition copied (body : list (string * json)) (k to : string) : list (string * json) :=
  match dict_get k body with None | Some JNull => [] | Some v => [(to, v)] end.
Definition choice_param (v : option json) : list (string * json) :=
  match v with
  | Some (JObj d) =>
      if one_of ["tool"] (dict_get "type" d)
      then [("tool_choice", JObj [("type", JStr "function"); ("function", JObj [("name", JStr (sanitize_anthropic_tool_name py_str (dict_get "name" d)))])])]
      else if one_of ["any"] (dict_get "type" d) then [("tool_choice", JStr "required")]
      else if one_of ["auto"; "none"] (dict_get "type" d) then [("tool_choice", default JNull (dict_get "type" d))]
      else []
  | None | Some JNull => []
  | Some v => [("tool_choice", v)]
  end.
Definition COPIED_PARAMS : list string :=
  ["top_p"; "top_k"; "metadata"; "service_tier"; "container"; "context_management"; "mcp_servers"; "stream_options"; "parallel_tool_calls"; "user"].
Definition thinking_params (v : option json) : list (string * json) :=
  match v with
  | Some (JObj d) =>
      if one_of ["enabled"] (dict_get "type" d)
      then [("thinking_enabled", JBool true); ("thinking_mode", JStr "Thinking"); ("auto_thinking", JBool false)] ++ copied d "budget_tokens" "thinking_budget"
      else []
  | _ => []
  end.
Definition tools_param (v : option json) : option json :=
  match v with
  | Some (JArr ((_ :: _) as l)) => Some (JArr (concat (openai_tool <$> l)))
  | Some (JStr (String _ _)) | Some (JObj (_ :: _)) => Some (JArr [])
  | Some v => if json_truthy v then None else Some JNull
  | None => Some JNull
  end.
Definition request_params (body : list (string * json)) : option (list (string * json)) :=
  tools ← tools_param (dict_get "tools" body);
  Some ([("max_tokens", default JNull (dict_get "max_tokens" body)); ("tools", tools)] ++ copied body "temperature" "temperature" ++
        choice_param (dict_get "tool_choice" body) ++ copied body "stop_sequences" "stop" ++
        concat ((fun k => copied body k k) <$> COPIED_PARAMS) ++ thinking_params (dict_get "thinking" body)).
Definition anthropic_to_openai_messages (hex : nat -> nat -> string) (body : list (string * json)) : option (list json * list (string * json)) :=
  system ← system_messages (dict_get "system" body);
  messages ← (match dict_get "messages" body with
              | None | Some (JArr []) | Some (JStr "") | Some (JObj []) => Some []
              | Some (JArr l) => anthropic_messages hex 0 l []
              | _ => None
              end);
  params ← request_params body;
  Some (system ++ messages, params).

(** ** An OpenAI answer as an Anthropic one *)

(** [d.get(k, {}) or {}], an object. *)
Definition object_or_empty (v : option json) : option (list (string * json)) :=
  match v with
  | Some (JObj d) => Some d
  | Some v => if json_truthy v then None else Some []
  | None => Some []
  end.
Definition answer_call (hex : string) (call : json) : option json :=
  d ← as_block call;
  f ← (match dict_get "function" d with None => Some [] | Some (JObj f) => Some f | _ => None end);
  input ← (match dict_get "arguments" f with
           | None => Some (JObj [])
           | Some (JObj a) => Some (JObj a)
           | Some (JStr s) => Some (default (JObj []) (loads s))
           | _ => None
           end);
  Some (JObj [("type", JStr "tool_use"); ("id", JStr (sanitize_anthropic_tool_id py_str hex (dict_get "id" d)));
              ("name", JStr (sanitize_anthropic_tool_name py_str (dict_get "name" f))); ("input", input)]).
Definition stop_of (finish : option json) : option string :=
  match finish with
  | Some (JStr "tool_calls") => Some "tool_use"
  | Some (JStr "length") => Some "max_tokens"
  | Some ((JArr (_ :: _)) | (JObj (_ :: _))) => None
  | _ => Some "end_turn"
  end.
Definition usage_field (u : list (string * json)) (k : string) : json := default (JNum "0") (dict_get k u).
Definition first_choice (resp : list (string * json)) : option (list (string * json)) :=
  match dict_get "choices" resp with
  | Some (JArr (JObj c :: _)) => Some c
  | Some (JArr (_ :: _)) => None
  | Some v => if json_truthy v then None else Some []
  | None => Some []
  end.
Definition openai_to_anthropic_response (hex : nat -> string) (message_id : string) (resp : list (string * json)) (model : string) : option json :=
  choice ← first_choice resp;
  message ← object_or_empty (dict_get "message" choice);
  calls ← (match truthy_field "tool_calls" message with
           | None => Some []
           | Some (JArr l) => mapM (fun ic => answer_call (hex ic.1) ic.2) (imap pair l)
           | Some _ => None
           end);
  stop ← stop_of (truthy_field "finish_reason" choice);
  usage ← (match dict_get "usage" resp with None => Some [] | Some (JObj u) => Some u | _ => None end);
  let thinking := match truthy_field "reasoning_content" message with
                  | Some t => [JObj [("type", JStr "thinking"); ("thinking", t); ("signature", JStr PROXY_SYNTHETIC_THINKING_SIGNATURE)]]
                  | None => [] end in
  let text := match truthy_field "content" message with Some t => [JObj [("type", JStr "text"); ("text", t)]] | None => [] end in
  let blocks := match thinking ++ text ++ calls with [] => [text_block ""] | l => l end in
  Some (JObj [("id", default (JStr message_id) (truthy_field "id" resp)); ("type", JStr "message"); ("role", JStr "assistant"); ("content", JArr blocks);
              ("model", JStr model); ("stop_reason", JStr stop); ("stop_sequence", JNull);
              ("usage", JObj [("input_tokens", usage_field usage "prompt_tokens"); ("output_tokens", usage_field usage "completion_tokens")])]).
End convert.
