(* ===== verification/ConvertProps.v ===== *)
(** A conversation of the Anthropic dialect goes through the OpenAI dialect and back:
    what returns of every message, whatever its blocks and their order.  Texts, thinking,
    calls and results return; what is lost is stated too: blocks of other kinds (images),
    signatures, the limits between the texts of a message and between the kinds of its
    blocks.  Samples show what the conversions drop or fail on. *)
From S2P Require Import Prelude Json Text Retry JsonFacts Stream StreamProps Messages Convert.

Section convert.
Variable py_str : json -> string.
Abbreviation to_openai := (anthropic_to_openai_messages py_str).
Abbreviation to_anthropic := (openai_messages_to_anthropic_messages py_str).

(** ** Messages *)

Record tool_use := ToolUse { tu_id : string; tu_name : string; tu_input : list (string * json) }.
(** Text, or an object of another type (an image), in a result and in the system prompt. *)
Definition part : Type := string + list (string * json).
(** A block of a message: thinking comes with a signature, a result holds a text or
    parts, and any other object is a block too. *)
Inductive content_item :=
  | TextBlock (text : string)
  | ThinkingBlock (text signature : string)
  | UseBlock (call : tool_use)
  | ResultBlock (id : string) (content : string + list part)
  | OtherBlock (fields : list (string * json)).
(** A message is a text or a list of blocks. *)
Inductive exchange := Plain (assistant : bool) (text : string) | Blocks (assistant : bool) (blocks : list content_item).
Inductive prompt := NoPrompt | PromptText (text : string) | PromptParts (parts : list part).

Definition call_of (c : tool_use) : json := tool_use_block (tu_id c) (tu_name c) (tu_input c).
Definition part_json (p : part) : json := match p with inl text => text_block text | inr d => JObj d end.
Definition block_json (b : content_item) : json :=
  match b with
  | TextBlock text => text_block text
  | ThinkingBlock text signature => JObj [("type", JStr "thinking"); ("thinking", JStr text); ("signature", JStr signature)]
  | UseBlock c => call_of c
  | ResultBlock id content =>
      JObj [("type", JStr "tool_result"); ("tool_use_id", JStr id);
            ("content", match content with inl text => JStr text | inr parts => JArr (map part_json parts) end)]
  | OtherBlock d => JObj d
  end.
Definition role_message (role : string) (content : json) : json := JObj [("role", JStr role); ("content", content)].
Definition role_name (assistant : bool) : string := if assistant then "assistant" else "user".
Definition sent (t : exchange) : json :=
  match t with
  | Plain a text => role_message (role_name a) (JStr text)
  | Blocks a blocks => role_message (role_name a) (JArr (map block_json blocks))
  end.
Definition prompt_field (s : prompt) : option json :=
  match s with NoPrompt => None | PromptText text => Some (JStr text) | PromptParts parts => Some (JArr (map part_json parts)) end.

(** *** What returns

    The blocks of each kind, in their order. *)
Definition part_texts (parts : list part) : list string := omap (fun p => match p with inl text => Some text | inr _ => None end) parts.
Definition texts_in (blocks : list content_item) : list string := omap (fun b => match b with TextBlock text => Some text | _ => None end) blocks.
Definition thinking_in (blocks : list content_item) : list string :=
  omap (fun b => match b with ThinkingBlock (String _ _ as text) _ => Some text | _ => None end) blocks.
Definition calls_of (blocks : list content_item) : list tool_use := omap (fun b => match b with UseBlock c => Some c | _ => None end) blocks.
Definition results_of (blocks : list content_item) : list (string * string) :=
  omap (fun b => match b with
                 | ResultBlock id content => Some (id, match content with inl text => text | inr parts => join LINE (part_texts parts) end)
                 | _ => None
                 end) blocks.
(** Several texts come back as one. *)
Definition joined (block : string -> json) (texts : list string) : list json :=
  match join LINE texts with "" => [] | text => [block text] end.
Definition content_of (blocks : list json) : json := match blocks with [] => JStr "" | _ => JArr blocks end.
(** From a user's message its results, each in a message of its own, and then its texts;
    from an assistant's message its thinking, its texts and its calls. *)
Definition given_back (t : exchange) : list json :=
  match t with
  | Plain a text => [role_message (role_name a) (content_of (joined text_block [text]))]
  | Blocks false blocks =>
      map (fun r => role_message "user" (JArr [tool_result_block r.1 r.2])) (results_of blocks) ++
      match texts_in blocks with [] => [] | texts => [role_message "user" (content_of (joined text_block texts))] end
  | Blocks true blocks =>
      [role_message "assistant" (content_of (joined thinking_block (thinking_in blocks) ++ joined text_block (texts_in blocks) ++
                                             map call_of (calls_of blocks)))]
  end.
Definition prompt_text (s : prompt) : string :=
  match s with NoPrompt => "" | PromptText text => text | PromptParts parts => join "" (part_texts parts) end.

Definition legal_use (c : tool_use) : Prop :=
  legal_id (tu_id c) /\ legal_name (tu_name c) /\ plain_numbers (JObj (tu_input c)) = true.
Definition other_than (types : list string) (d : list (string * json)) : Prop := one_of types (dict_get "type" d) = false.
Definition legal_part (p : part) : Prop := match p with inl _ => True | inr d => other_than ["text"] d end.
(** Identifiers and names are legal, numbers are written as numbers; another block is of
    another type, and its fields text, thinking and data have a length if they are there. *)
Definition legal_block (b : content_item) : Prop :=
  match b with
  | TextBlock _ | ThinkingBlock _ _ => True
  | UseBlock c => legal_use c
  | ResultBlock id content => legal_id id /\ match content with inl _ => True | inr parts => Forall legal_part parts end
  | OtherBlock d => other_than ["text"; "thinking"; "tool_use"; "tool_result"] d /\ has_len "text" d && has_len "thinking" d && has_len "data" d = true
  end.
Definition legal_turn (t : exchange) : Prop := match t with Plain _ _ => True | Blocks _ blocks => Forall legal_block blocks end.
Definition legal_prompt (s : prompt) : Prop := match s with PromptParts parts => Forall legal_part parts | _ => True end.

(** ** Sorting the blocks of a message *)

Abbreviation nothing_yet := (Sorted_ [] [] [] []).
Lemma texts_of_strings l : texts_of (map JStr l) = Some l.
Proof. unfold texts_of. induction l as [|s l IH]; [done|]. simpl. by rewrite IH. Qed.
Lemma parts_text sep parts : Forall legal_part parts ->
  (ds ← mapM as_block (map part_json parts);
   join sep <$> texts_of (map (fun d => default (JStr "") (dict_get "text" d)) (filter (fun d => one_of ["text"] (dict_get "type" d) = true) ds)))
  = Some (join sep (part_texts parts)).
Proof.
  intros Hp. assert (H : exists ds, mapM as_block (map part_json parts) = Some ds /\
    map (fun d => default (JStr "") (dict_get "text" d)) (filter (fun d => one_of ["text"] (dict_get "type" d) = true) ds) = map JStr (part_texts parts)).
  { induction Hp as [|[text|d] parts Hd _ (ds & IH & Hds)]; [by exists []|..].
    - exists ([("type", JStr "text"); ("text", JStr text)] :: ds). cbn [map part_json text_block mapM as_block mbind option_bind]. rewrite IH.
      split; [done|]. rewrite filter_cons_True by done. cbn [map]. by rewrite Hds.
    - exists (d :: ds). cbn [map part_json mapM as_block mbind option_bind]. rewrite IH. split; [done|].
      rewrite filter_cons_False by (unfold legal_part, other_than in Hd; congruence). exact Hds. }
  destruct H as (ds & -> & Hds). cbn [mbind option_bind]. by rewrite Hds, texts_of_strings.
Qed.
(** A call of the OpenAI dialect. *)
Definition function_call (c : tool_use) : json :=
  JObj [("id", JStr (tu_id c)); ("type", JStr "function");
        ("function", JObj [("name", JStr (tu_name c)); ("arguments", JStr (dump_value (JObj (tu_input c))))])].
Lemma add_call_block hex c s names : legal_use c -> exists names',
  add_block py_str hex (call_of c) s names = Some (Sorted_ (so_texts s) (so_thinking s) (so_calls s ++ [function_call c]) (so_results s), names').
Proof.
  intros (Hid & Hn & _). unfold add_block, call_of, tool_use_block. cbn [as_block mbind option_bind].
  set (d := [("type", _); ("id", _); ("name", _); ("input", _)]).
  assert (dict_get "type" d = Some (JStr "tool_use") /\ dict_get "id" d = Some (JStr (tu_id c)) /\
          dict_get "name" d = Some (JStr (tu_name c)) /\ dict_get "input" d = Some (JObj (tu_input c))) as (-> & -> & -> & ->) by done.
  rewrite (sanitize_id_same py_str _ _ Hid), (sanitize_name_same py_str _ Hn). by eexists.
Qed.
(** What blocks add to the sorted ones. *)
Definition sort_out (blocks : list content_item) (s : sorted) : sorted :=
  Sorted_ (so_texts s ++ map JStr (texts_in blocks)) (so_thinking s ++ map JStr (thinking_in blocks))
          (so_calls s ++ map function_call (calls_of blocks)) (so_results s ++ results_of blocks).
Lemma sort_out_cons b blocks s : sort_out (b :: blocks) s = sort_out blocks (sort_out [b] s).
Proof.
  unfold sort_out. destruct b as [|[|]| | |]; cbn [texts_in thinking_in calls_of results_of omap list_omap map so_texts so_thinking so_calls so_results];
    by rewrite ?app_nil_r, <- ?app_assoc.
Qed.
Lemma add_one hex b s names : legal_block b -> exists names', add_block py_str hex (block_json b) s names = Some (sort_out [b] s, names').
Proof.
  destruct s as [ts th cs rs]. destruct b as [text|text sg|c|uid content|d]; intros Hb.
  - exists names. unfold sort_out. simpl. by rewrite !app_nil_r.
  - exists names. unfold sort_out. destruct text; simpl; by rewrite !app_nil_r.
  - destruct (add_call_block hex c (Sorted_ ts th cs rs) names Hb) as [names' H]. exists names'. cbn [block_json]. rewrite H. unfold sort_out.
    simpl. by rewrite !app_nil_r.
  - destruct Hb as [Hid Hparts]. exists names. unfold add_block. cbn [block_json as_block mbind option_bind].
    set (d := [("type", _); ("tool_use_id", _); ("content", _)]).
    assert (dict_get "type" d = Some (JStr "tool_result") /\ dict_get "tool_use_id" d = Some (JStr uid) /\
            dict_get "content" d = Some (match content with inl text => JStr text | inr parts => JArr (map part_json parts) end)) as (-> & -> & ->) by done.
    rewrite (sanitize_id_same py_str _ _ Hid). cbn [one_of default from_option id]. rewrite !bool_decide_eq_false_2 by set_solver. rewrite bool_decide_eq_true_2 by set_solver.
    assert (Hr : result_text_of py_str (match content with inl text => JStr text | inr parts => JArr (map part_json parts) end) =
      Some (match content with inl text => text | inr parts => join LINE (part_texts parts) end)).
    { destruct content as [text|parts]; [done|]. exact (parts_text LINE parts Hparts). }
    rewrite Hr. unfold sort_out. simpl. by rewrite !app_nil_r.
  - destruct Hb as [Ht _]. exists names. unfold add_block. cbn [block_json as_block mbind option_bind]. unfold other_than, one_of in Ht.
    assert (Hno : forall w, w ∈ ["text"; "thinking"; "tool_use"; "tool_result"] -> one_of [w] (dict_get "type" d) = false).
    { intros w Hw. unfold one_of. destruct (dict_get "type" d) as [[| | |t| |]|]; try done. apply bool_decide_eq_false in Ht.
      apply bool_decide_eq_false. intros ->%list_elem_of_singleton. done. }
    rewrite !Hno by set_solver. unfold sort_out. simpl. by rewrite !app_nil_r.
Qed.
Lemma add_all hex blocks j s names : Forall legal_block blocks -> exists names',
  add_blocks py_str hex j (map block_json blocks) s names = Some (sort_out blocks s, names').
Proof.
  intros Hb. revert j s names. induction Hb as [|b blocks Hb _ IH]; intros j s names.
  - exists names. unfold sort_out. simpl. rewrite !app_nil_r. by destruct s.
  - destruct (add_one (hex j) b s names Hb) as [names1 H1]. destruct (IH (S j) (sort_out [b] s) names1) as [names' H].
    exists names'. cbn [map add_blocks]. rewrite H1. cbn [mbind option_bind]. rewrite H. by rewrite <- sort_out_cons.
Qed.

(** ** One message there and back *)

Definition back (m m' : json) : Prop := forall hex, convert_message py_str hex m = Some (inr m').
Lemma convert_all hex i ms out : Forall2 back ms out -> convert_messages py_str hex i ms = Some ([], out).
Proof. intros H. revert i. induction H as [|m m' ms out Hm _ IH]; intros i; [done|]. simpl. by rewrite Hm, IH. Qed.
Lemma back_plain (a : bool) text : back (role_message (role_name a) (JStr text)) (role_message (role_name a) (content_of (joined text_block [text]))).
Proof. intros hex. by destruct a, text. Qed.
Lemma back_tool names r : legal_id r.1 -> back (tool_message names r) (role_message "user" (JArr [tool_result_block r.1 r.2])).
Proof.
  destruct r as [id text]. simpl. intros Hid hex. unfold tool_message.
  set (d := _ ++ _). assert (dict_get "role" d = Some (JStr "tool") /\ dict_get "tool_call_id" d = Some (JStr id) /\ dict_get "content" d = Some (JStr text)) as (H1 & H2 & H3) by done.
  unfold convert_message, openai_tool_message_to_anthropic_block, truthy_field. rewrite H1, H2, H3.
  destruct id as [|c id]; [by destruct Hid|]. cbn [json_truthy negb str_truthy]. by rewrite (sanitize_id_same py_str _ _ Hid).
Qed.
Lemma back_calls hex calls : Forall legal_use calls ->
  openai_tool_calls_to_anthropic_blocks py_str hex (JArr (map function_call calls)) = Some (map call_of calls).
Proof.
  intros H. unfold openai_tool_calls_to_anthropic_blocks. f_equal. revert hex. induction H as [|c calls (Hid & Hn & Hp) _ IH]; intros hex; [done|].
  cbn [map]. change (concat (imap ?f (?x :: ?l))) with (f 0%nat x ++ concat (imap (f ∘ S) l)).
  apply (f_equal2 app (y1 := [call_of c])); [|apply (IH (hex ∘ S))].
  unfold call_block, function_call, function_of.
  set (d := [("id", _); _; _]). set (f := [("name", _); ("arguments", _)]) in d.
  assert (dict_get "function" d = Some (JObj f) /\ dict_get "id" d = Some (JStr (tu_id c)) /\ dict_get "name" f = Some (JStr (tu_name c)) /\
          dict_get "arguments" f = Some (JStr (dump_value (JObj (tu_input c))))) as (-> & -> & -> & ->) by done.
  rewrite (sanitize_id_same py_str _ _ Hid), (sanitize_name_same py_str _ Hn). unfold _parse_openai_tool_arguments.
  by rewrite (loads_dump_value _ Hp).
Qed.
Lemma back_assistant reasoning text calls : Forall legal_use calls ->
  back (JObj ([("role", JStr "assistant"); ("content", JStr text)] ++
              (if str_truthy reasoning then [("reasoning_content", JStr reasoning)] else []) ++
              match map function_call calls with [] => [] | l => [("tool_calls", JArr l)] end))
       (role_message "assistant" (content_of (joined thinking_block [reasoning] ++ joined text_block [text] ++ map call_of calls))).
Proof.
  intros Hc hex. pose proof (back_calls hex calls Hc) as Hb. set (d := _ ++ _).
  assert (dict_get "role" d = Some (JStr "assistant") /\ dict_get "content" d = Some (JStr text)) as [H1 H2] by done.
  assert (H3 : truthy_field "reasoning_content" d = if str_truthy reasoning then Some (JStr reasoning) else None).
  { unfold d, truthy_field. destruct reasoning; [|done]. by destruct calls. }
  assert (H4 : truthy_field "tool_calls" d = match calls with [] => None | _ => Some (JArr (map function_call calls)) end).
  { unfold d, truthy_field. destruct reasoning, calls; done. }
  unfold convert_message, truthy_field. fold (truthy_field "role" d) (truthy_field "reasoning_content" d) (truthy_field "tool_calls" d).
  assert (H5 : truthy_field "role" d = Some (JStr "assistant")) by (unfold truthy_field; by rewrite H1).
  unfold truthy_field in H3, H4, H5. unfold truthy_field. rewrite H5, H2, H3, H4. clear H1 H2 H3 H4 H5.
  cbn [one_of default]. rewrite !bool_decide_eq_false_2 by set_solver. rewrite !bool_decide_eq_true_2 by set_solver.
  destruct calls as [|c calls]; [by destruct reasoning, text|]. rewrite Hb.
  by destruct reasoning, text.
Qed.
(** Every block has lengths. *)
Lemma blocks_have_len role blocks : Forall (fun b => exists d, b = JObj d /\ has_len "text" d && has_len "thinking" d && has_len "data" d = true) blocks ->
  forall hex names, anthropic_message py_str hex (role_message role (JArr blocks)) names =
    '(s, names') ← add_blocks py_str hex 0 blocks nothing_yet names;
    ms ← emit (Some (JStr role)) (JStr "") s names'; Some (ms, names').
Proof.
  intros Hb hex names. unfold anthropic_message, role_message. set (d := [("role", _); ("content", _)]).
  assert (dict_get "role" d = Some (JStr role) /\ dict_get "content" d = Some (JArr blocks) /\ dict_get "reasoning_content" d = None /\ has_len "reasoning_content" d = true)
    as (-> & -> & -> & ->) by done.
  enough (summary_ok (Some (JArr blocks)) true = true) as -> by done.
  simpl. apply forallb_forall. intros b Hin. rewrite Forall_forall in Hb. apply list_elem_of_In in Hin. by destruct (Hb b Hin) as (? & -> & ?).
Qed.
Lemma legal_have_len blocks : Forall legal_block blocks ->
  Forall (fun b => exists d, b = JObj d /\ has_len "text" d && has_len "thinking" d && has_len "data" d = true) (map block_json blocks).
Proof.
  intros Hb. apply Forall_forall. intros j [b [-> Hin]]%list_elem_of_fmap. rewrite Forall_forall in Hb. specialize (Hb b Hin).
  destruct b as [| | |id content|d]; eexists; (split; [done|]); try done. by destruct Hb.
Qed.
Lemma user_back hex blocks names : Forall legal_block blocks -> exists ms names',
  anthropic_message py_str hex (sent (Blocks false blocks)) names = Some (ms, names') /\ Forall2 back ms (given_back (Blocks false blocks)).
Proof.
  intros Hb. cbn [sent]. rewrite blocks_have_len by by apply legal_have_len.
  destruct (add_all hex blocks 0 nothing_yet names Hb) as [names' ->]. cbn [mbind option_bind]. unfold emit, sort_out, role_name.
  cbn [one_of so_results so_texts app]. rewrite bool_decide_eq_false_2, bool_decide_eq_true_2 by set_solver.
  assert (Hres : Forall2 back (tool_message names' <$> results_of blocks) (map (fun r => role_message "user" (JArr [tool_result_block r.1 r.2])) (results_of blocks))).
  { clear -Hb. induction Hb as [|b blocks Hb _ IH]; [constructor|]. destruct b as [| | |id content|]; try exact IH.
    constructor; [apply back_tool; by destruct Hb|exact IH]. }
  cbn [given_back]. destruct (texts_in blocks) as [|x texts]; [do 2 eexists; split; [done|]; by rewrite app_nil_r|].
  change (map JStr (x :: texts)) with (JStr x :: map JStr texts). cbv iota. change (JStr x :: map JStr texts) with (map JStr (x :: texts)).
  rewrite texts_of_strings. cbn [mbind option_bind]. do 2 eexists. split; [done|]. apply Forall2_app; [exact Hres|].
  constructor; [|done]. apply (back_plain false).
Qed.
Lemma assistant_back hex blocks names : Forall legal_block blocks -> exists ms names',
  anthropic_message py_str hex (sent (Blocks true blocks)) names = Some (ms, names') /\ Forall2 back ms (given_back (Blocks true blocks)).
Proof.
  intros Hb. cbn [sent]. rewrite blocks_have_len by by apply legal_have_len.
  destruct (add_all hex blocks 0 nothing_yet names Hb) as [names' ->]. cbn [mbind option_bind]. unfold emit, reasoning_or, sort_out, role_name.
  cbn [one_of so_thinking so_texts so_calls json_truthy app negb str_truthy]. rewrite bool_decide_eq_true_2 by set_solver.
  rewrite !texts_of_strings. cbn [mbind option_bind fmap option_fmap option_map compose]. do 2 eexists. split; [done|]. constructor; [|done].
  apply back_assistant. clear -Hb. induction Hb as [|b blocks Hb _ IH]; [constructor|]. destruct b; try exact IH. by constructor.
Qed.
Lemma sent_back hex t names : legal_turn t -> exists ms names',
  anthropic_message py_str hex (sent t) names = Some (ms, names') /\ Forall2 back ms (given_back t).
Proof.
  destruct t as [a text|[] blocks]; intros Ht; [|by apply assistant_back|by apply user_back].
  do 2 eexists. split; [done|]. constructor; [|done]. destruct a; apply (back_plain _ text).
Qed.
Lemma turns_back hex i exchanges names : Forall legal_turn exchanges -> exists ms,
  anthropic_messages py_str hex i (map sent exchanges) names = Some ms /\ Forall2 back ms (concat (map given_back exchanges)).
Proof.
  intros Ht. revert i names. induction Ht as [|t exchanges Ht _ IH]; intros i names; [by exists []|].
  destruct (sent_back (hex i) t names Ht) as (ms & names' & Hms & Hb). destruct (IH (S i) names') as (rest & Hrest & Hbs).
  exists (ms ++ rest). cbn [map anthropic_messages]. rewrite Hms. cbn [mbind option_bind]. rewrite Hrest.
  split; [done|]. cbn [map concat]. by apply Forall2_app.
Qed.

Lemma prompt_read s : legal_prompt s -> system_messages (prompt_field s) =
  Some (if str_truthy (prompt_text s) then [JObj [("role", JStr "system"); ("content", JStr (prompt_text s))]] else []).
Proof.
  destruct s as [|text|parts]; intros Hs; [done|by destruct text|]. cbn [prompt_field system_messages prompt_text]. destruct parts as [|x parts]; [done|].
  cbn [map json_truthy system_text]. pose proof (parts_text "" (x :: parts) Hs) as H. cbn [map] in H.
  cbn [system_text]. rewrite H. done.
Qed.

(** C32: An Anthropic request with legal identifiers and names, translated for an OpenAI
    service and back for an Anthropic one.  The text of the system prompt returns.  Every
    message returns in its place: a user's results, each alone, then its texts; an
    assistant's thinking, its texts and then its calls; each with the same identifier,
    name, input and text, in the order they had among their kind, the texts of a message
    joined by line breaks.  Exactly the rest is lost: images and blocks of other kinds,
    results in an assistant's message, thinking and calls in a user's, signatures, and the
    order between the kinds. *)
Theorem through_openai hex hex' request_body system exchanges params :
  dict_get "system" request_body = prompt_field system -> legal_prompt system ->
  dict_get "messages" request_body = Some (JArr (map sent exchanges)) -> Forall legal_turn exchanges ->
  request_params py_str request_body = Some params ->
  exists messages, to_openai hex request_body = Some (messages, params) /\
    to_anthropic hex' messages = Some (if str_truthy (prompt_text system) then [prompt_text system] else [], concat (map given_back exchanges)).
Proof.
  intros Hs Hl Hm Ht Hp. destruct (turns_back hex 0 exchanges [] Ht) as (ms & Hms & Hb).
  exists ((if str_truthy (prompt_text system) then [JObj [("role", JStr "system"); ("content", JStr (prompt_text system))]] else []) ++ ms). split.
  - unfold anthropic_to_openai_messages. rewrite Hs, (prompt_read system Hl), Hm, Hp. cbn [mbind option_bind].
    destruct exchanges as [|t exchanges]; [injection Hms as <-; done|]. cbn [map] in *. by rewrite Hms.
  - unfold openai_messages_to_anthropic_messages. destruct (prompt_text system) as [|c text]; cbn [str_truthy negb app]; [by apply convert_all|].
    cbn [convert_messages]. by rewrite (convert_all _ _ _ _ Hb).
Qed.
End convert.

Module ConvertSample.
Definition py_str : json -> string := dump_value.
Definition hex (_ : nat) : string := "0".
Definition image : json := JObj [("type", JStr "image"); ("source", JObj [("type", JStr "url"); ("url", JStr "https://x/a.png")])].
Definition image_fields : list (string * json) := match image with JObj d => d | _ => [] end.
(** Text around a call, text before a result, a result in parts, an image. *)
Definition exchanges : list exchange :=
  [Plain false "read a.txt";
   Blocks true [ThinkingBlock "look" "c2ln"; TextBlock "one moment"; UseBlock (ToolUse "toolu_1" "read" [("path", JStr "a.txt"); ("n", JNum "2")]); TextBlock "please"];
   Blocks false [TextBlock "and now?"; ResultBlock "toolu_1" (inr [inl "hello"; inr image_fields; inl "world"]); OtherBlock image_fields];
   Blocks true [TextBlock "it says hello"]].
Definition request_body : list (string * json) :=
  [("system", JArr [text_block "be "; text_block "brief"]); ("messages", JArr (map sent exchanges)); ("max_tokens", JNum "100"); ("temperature", JNum "0.5")].
Lemma through_openai_witness : exists messages params, anthropic_to_openai_messages py_str (fun _ => hex) request_body = Some (messages, params) /\
  (length messages = 6)%nat /\ openai_messages_to_anthropic_messages py_str (fun _ => hex) messages = Some (["be brief"], concat (map given_back exchanges)).
Proof.
  destruct (through_openai py_str (fun _ => hex) (fun _ => hex) request_body (PromptParts [inl "be "; inl "brief"]) exchanges
              [("max_tokens", JNum "100"); ("tools", JNull); ("temperature", JNum "0.5")]) as (ms & H1 & H2); try done.
  - by repeat constructor.
  - repeat constructor; simpl; try done; lia.
  - exists ms. eexists. split; [exact H1|]. split; [|exact H2]. vm_compute in H1. by injection H1 as <-.
Defined.

(** An image in an Anthropic request disappears, and with it a message that only holds
    one; the other direction keeps images. *)
Lemma image_lost :
  anthropic_to_openai_messages py_str (fun _ => hex) [("messages", JArr [role_message "user" (JArr [image; text_block "what is it?"]); role_message "user" (JArr [image])])]
  = Some ([role_message "user" (JStr "what is it?")], [("max_tokens", JNull); ("tools", JNull)]).
Proof. by vm_compute. Qed.
Lemma image_kept :
  openai_messages_to_anthropic_messages py_str (fun _ => hex)
    [role_message "user" (JArr [JObj [("type", JStr "image_url"); ("image_url", JObj [("url", JStr "https://x/a.png")])]])]
  = Some ([], [role_message "user" (JArr [image])]).
Proof. by vm_compute. Qed.
(** The result of a call without content becomes the text None. *)
Lemma null_result_none names :
  add_block py_str "0" (JObj [("type", JStr "tool_result"); ("tool_use_id", JStr "t1"); ("content", JNull)]) (Sorted_ [] [] [] []) names
  = Some (Sorted_ [] [] [] [("t1", "None")], names).
Proof. by vm_compute. Qed.
(** An explicit null of the reasoning raises in the summary for the log. *)
Lemma null_reasoning_raises :
  anthropic_to_openai_messages py_str (fun _ => hex)
    [("messages", JArr [JObj [("role", JStr "user"); ("content", JStr "hi"); ("reasoning_content", JNull)]])] = None.
Proof. by vm_compute. Qed.
(** Two identifiers may be cleaned to one. *)
Lemma identifiers_collide :
  sanitize_anthropic_tool_id py_str "0" (Some (JStr "a.b")) = sanitize_anthropic_tool_id py_str "0" (Some (JStr "a:b")).
Proof. by vm_compute. Qed.
(** An answer that is not streamed: arguments that are no JSON are dropped. *)
Lemma broken_arguments_dropped :
  answer_call py_str "0" (JObj [("id", JStr "c1"); ("function", JObj [("name", JStr "f"); ("arguments", JStr "{oops")])])
  = Some (tool_use_block "c1" "f" []).
Proof. by vm_compute. Qed.
End ConvertSample.
