(* ===== verification/Masking.v ===== *)
(** security/masking.py: credentials in a request are replaced by fake values before
    the request leaves, fake values in a response by the real ones, and credentials in
    headers are cut short before they are logged.

    A compiled pattern is an input of the model: for a text it gives the matches of
    [re.finditer] from left to right and the rest of the text.  Header names and values
    are text. *)
From S2P Require Import Prelude Json Text Retry Usage Stream Messages.

(** ** Headers *)

Definition _OPAQUE_HEADER_PARTS : list string := ["cookie"].
Definition _CREDENTIAL_HEADER_PARTS : list string := ["token"; "api-key"; "apikey"; "secret"; "credential"; "password"].
Definition _SENSITIVE_HEADER_PARTS : list string := ["authorization"] ++ _OPAQUE_HEADER_PARTS ++ _CREDENTIAL_HEADER_PARTS.
Definition any_part (parts : list string) (key : string) : bool := existsb (fun part => str_contains part key) parts.

Definition mask_secret_value (text : string) : string :=
  let w := chars_of text in
  match w with
  | [] => "***"
  | _ => if (length w <=? 8)%nat then unchars (repeat "*" (length w))
         else unchars (take 4 w) +++ "..." +++ unchars (last_chars 4 w)
  end.
Definition mask_authorization_header (text : string) : string :=
  match cut_at " " text with
  | Some (scheme, credential) => if str_truthy credential then scheme +++ " " +++ mask_secret_value credential else mask_secret_value text
  | None => mask_secret_value text
  end.
Definition is_sensitive_header (key : string) : bool := any_part _SENSITIVE_HEADER_PARTS (lower key).
Definition sanitize_header_value (key value : string) : string :=
  let lower_key := lower key in
  if str_contains "authorization" lower_key then mask_authorization_header value
  else if any_part _OPAQUE_HEADER_PARTS lower_key then "***"
  else if any_part _CREDENTIAL_HEADER_PARTS lower_key then mask_secret_value value
  else value.

(** ** Masking *)

(** A match and the text before it: [hit_real] is the group that is masked (the whole
    match without a group), between what is kept of the match. *)
Record hit := Hit { hit_before : string; hit_left : string; hit_real : string; hit_right : string }.
Record rule := Rule { ru_find : string -> list hit * string; ru_grouped : bool; ru_fake : string }.

(** [{base}_{counter}] *)
Definition numbered (base : string) (counter : nat) : string := base +++ "_" +++ tostring (Z.of_nat counter).
Fixpoint next_fake (fuel : nat) (base : string) (counter : nat) (used : list (string * string)) : string :=
  match dict_get (numbered base counter) used, fuel with
  | Some _, S fuel' => next_fake fuel' base (S counter) used
  | _, _ => numbered base counter
  end.
Definition _make_unique_fake (base_fake : string) (used : list (string * string)) : string :=
  match dict_get base_fake used with
  | None => base_fake
  | Some _ => next_fake (length used) base_fake 2 used
  end.
(** The first fake value of a real one. *)
Fixpoint fake_of (real : string) (restore_map : list (string * string)) : option string :=
  match restore_map with
  | [] => None
  | (f, r) :: rest => if decide (r = real) then Some f else fake_of real rest
  end.

Definition _replace (grouped : bool) (base_fake : string) (h : hit) (restore_map : list (string * string)) : string * list (string * string) :=
  if grouped && negb (str_truthy (hit_real h)) then (hit_left h +++ hit_real h +++ hit_right h, restore_map)
  else match fake_of (hit_real h) restore_map with
       | Some f => (hit_left h +++ f +++ hit_right h, restore_map)
       | None => let fake := _make_unique_fake base_fake restore_map in
                 (hit_left h +++ fake +++ hit_right h, dict_set fake (hit_real h) restore_map)
       end.
(** [pattern.sub(_replace, text)] on the matches of the text. *)
Fixpoint sub_hits (grouped : bool) (base_fake : string) (hits : list hit) (tail : string) (restore_map : list (string * string))
    : string * list (string * string) :=
  match hits with
  | [] => (tail, restore_map)
  | h :: hits' =>
      let '(s, m) := _replace grouped base_fake h restore_map in
      let '(rest, m) := sub_hits grouped base_fake hits' tail m in
      (hit_before h +++ s +++ rest, m)
  end.
Fixpoint _mask_text (rules : list rule) (text : string) (restore_map : list (string * string)) : string * list (string * string) :=
  match rules with
  | [] => (text, restore_map)
  | r :: rules' =>
      let '(hits, tail) := ru_find r text in
      let '(text', m) := sub_hits (ru_grouped r) (ru_fake r) hits tail restore_map in
      _mask_text rules' text' m
  end.

Section mask.
Variable rules : list rule.

Definition mask_part (part : json) (m : list (string * string)) : json * list (string * string) :=
  match part with
  | JObj d => match dict_get "text" d with
              | Some (JStr t) => let '(t', m) := _mask_text rules t m in (JObj (dict_set "text" (JStr t') d), m)
              | _ => (part, m)
              end
  | _ => (part, m)
  end.
Fixpoint mask_parts (parts : list json) (m : list (string * string)) : list json * list (string * string) :=
  match parts with
  | [] => ([], m)
  | p :: parts' => let '(p', m) := mask_part p m in let '(rest, m) := mask_parts parts' m in (p' :: rest, m)
  end.
Definition _mask_content (content : json) (m : list (string * string)) : json * list (string * string) :=
  match content with
  | JStr t => let '(t', m) := _mask_text rules t m in (JStr t', m)
  | JArr parts => let '(parts', m) := mask_parts parts m in (JArr parts', m)
  | _ => (content, m)
  end.
Definition mask_message (msg : json) (m : list (string * string)) : json * list (string * string) :=
  match msg with
  | JObj d => match dict_get "content" d with
              | Some JNull | None => (msg, m)
              | Some content => let '(content', m) := _mask_content content m in (JObj (dict_set "content" content' d), m)
              end
  | _ => (msg, m)
  end.
Fixpoint mask_messages (messages : list json) (m : list (string * string)) : list json * list (string * string) :=
  match messages with
  | [] => ([], m)
  | x :: messages' => let '(x', m) := mask_message x m in let '(rest, m) := mask_messages messages' m in (x' :: rest, m)
  end.
Definition mask_credentials (body : list (string * json)) : list (string * json) * list (string * string) :=
  match dict_get "messages" body with
  | Some (JArr messages) => let '(messages', m) := mask_messages messages [] in (dict_set "messages" (JArr messages') body, m)
  | _ => (body, [])
  end.
End mask.

(** ** Restoring *)

(** [text.replace(old, new)] for a text [old] that is not empty: [skip] bytes of the
    last occurrence are still to be passed over. *)
Fixpoint replace_from (old new : string) (skip : nat) (s : string) : string :=
  match s with
  | EmptyString => EmptyString
  | String c s' =>
      match skip with
      | S n => replace_from old new n s'
      | O => if startswith old s then new +++ replace_from old new (String.length old - 1) s' else String c (replace_from old new 0 s')
      end
  end.
Definition str_replace (old new s : string) : string :=
  if str_truthy old then replace_from old new 0 s else new +++ unchars (map (fun c => c +++ new) (chars_of s)).

Definition restore_credentials (text : string) (restore_map : list (string * string)) : string :=
  foldl (fun result kv => str_replace kv.1 kv.2 result) text restore_map.
Definition restore_part (m : list (string * string)) (part : json) : json :=
  match part with
  | JObj d => match dict_get "text" d with Some (JStr t) => JObj (dict_set "text" (JStr (restore_credentials t m)) d) | _ => part end
  | _ => part
  end.
Definition restore_message (m : list (string * string)) (msg : json) : json :=
  match msg with
  | JObj d => match dict_get "content" d with
              | Some (JStr t) => JObj (dict_set "content" (JStr (restore_credentials t m)) d)
              | Some (JArr parts) => JObj (dict_set "content" (JArr (map (restore_part m) parts)) d)
              | _ => msg
              end
  | _ => msg
  end.
Definition restore_key (m : list (string * string)) (choice : list (string * json)) (key : string) : list (string * json) :=
  match dict_get key choice with Some msg => dict_set key (restore_message m msg) choice | None => choice end.
Definition restore_response_body (body : list (string * json)) (restore_map : list (string * string)) : list (string * json) :=
  match restore_map, dict_get "choices" body with
  | _ :: _, Some (JArr choices) =>
      dict_set "choices" (JArr (map (fun c => match c with
                                              | JObj d => JObj (foldl (restore_key restore_map) d ["message"; "delta"])
                                              | c => c
                                              end) choices)) body
  | _, _ => body
  end.
