(* ===== verification/MaskingProps.v ===== *)
(** What masking guarantees: exactly the credentials found are replaced, fakes and real values
    correspond one to one, a log shows only the ends of a credential; and where the
    restoration of a response goes wrong. *)
From S2P Require Import Prelude Json Text TextFacts Retry Usage Stream Messages Masking.

(** ** Fresh fake values *)

Lemma tostring_inj a b : tostring a = tostring b -> a = b.
Proof. intros H. assert (Some a = Some b) as [= ->] by (rewrite <- !tonumber_tostring; by rewrite H). done. Qed.
Lemma numbered_inj base i j : numbered base i = numbered base j -> i = j.
Proof. unfold numbered. intros H%append_inj_l%append_inj_l%tostring_inj. lia. Qed.
Lemma next_fake_spec fuel base c used :
  dict_get (next_fake fuel base c used) used = None \/ Forall (fun i => numbered base i ∈ used.*1) (seq c (S fuel)).
Proof.
  revert c. induction fuel as [|fuel IH]; intros c; simpl.
  - destruct (dict_get (numbered base c) used) eqn:E; [right|by left]. constructor; [|constructor].
    apply dict_get_Some_elem in E. by apply (list_elem_of_fmap_2 fst) in E.
  - destruct (dict_get (numbered base c) used) eqn:E; [|by left]. destruct (IH (S c)) as [H|H]; [by left|right].
    constructor; [|done]. apply dict_get_Some_elem in E. by apply (list_elem_of_fmap_2 fst) in E.
Qed.
Lemma next_fake_fresh base c used : dict_get (next_fake (length used) base c used) used = None.
Proof.
  destruct (next_fake_spec (length used) base c used) as [H|H]; [done|]. exfalso.
  assert (Hs : numbered base <$> seq c (S (length used)) ⊆+ used.*1).
  { apply NoDup_submseteq.
    - apply NoDup_fmap_2_strong; [|apply NoDup_seq]. intros i j _ _. apply numbered_inj.
    - intros x (i & -> & Hi)%list_elem_of_fmap. rewrite Forall_forall in H. by apply H. }
  apply submseteq_length in Hs. rewrite !length_fmap, length_seq in Hs. lia.
Qed.
Lemma unique_fake_fresh base used : dict_get (_make_unique_fake base used) used = None.
Proof. unfold _make_unique_fake. destruct (dict_get base used) eqn:E; [apply next_fake_fresh|done]. Qed.

Lemma dict_set_fresh {A} k (v : A) d : dict_get k d = None -> dict_set k v d = d ++ [(k, v)].
Proof.
  induction d as [|[k' v'] d IH]; simpl; [done|]. case_decide; [done|]. intros H'. by rewrite IH.
Qed.
Lemma fake_of_spec real m : match fake_of real m with Some f => (f, real) ∈ m | None => real ∉ m.*2 end.
Proof.
  induction m as [|[f r] m IH]; simpl; [apply not_elem_of_nil|]. case_decide as E; [subst; by left|].
  destruct (fake_of real m); [by right|]. by intros [?|?]%elem_of_cons.
Qed.

(** ** One to one *)

(** Every fake value stands for one real value and every real one has one fake. *)
Definition bijective (m : list (string * string)) : Prop := NoDup m.*1 /\ NoDup m.*2.
Lemma replace_bijective g base h m s m' : _replace g base h m = (s, m') -> bijective m -> bijective m' /\ m `prefix_of` m'.
Proof.
  unfold _replace. intros H Hb. destruct (g && _); [by injection H as <- <-|]. pose proof (fake_of_spec (hit_real h) m) as Hf.
  destruct (fake_of (hit_real h) m); injection H as <- <-; [done|].
  pose proof (unique_fake_fresh base m) as Hu. rewrite dict_set_fresh by done. split; [|by eexists].
  destruct Hb as [H1 H2]. unfold bijective. rewrite !fmap_app. simpl. rewrite !NoDup_app.
  split; (split; [done|split; [|apply NoDup_singleton]]).
  - intros x Hx ->%list_elem_of_singleton. by apply dict_get_None in Hu.
  - by intros x Hx ->%list_elem_of_singleton.
Qed.
(** ** What masking does to a request *)

(** The text with the given values in place of what is masked. *)
Fixpoint with_values (hits : list hit) (values : list string) (tail : string) : string :=
  match hits, values with
  | h :: hits', v :: values' => hit_before h +++ (hit_left h +++ v +++ hit_right h) +++ with_values hits' values' tail
  | _, _ => tail
  end.
(** A value that stands for what was matched: its fake, or itself when the group of
    the pattern matched nothing. *)
Definition stands (grouped : bool) (m : list (string * string)) (h : hit) (v : string) : Prop :=
  (v, hit_real h) ∈ m \/ grouped = true /\ hit_real h = "" /\ v = "".
(** A pattern's matches and the text between them are the text. *)
Definition covers (r : rule) : Prop := forall text, let '(hits, tail) := ru_find r text in with_values hits (hit_real <$> hits) tail = text.

(** Of a map of fakes to credentials: the patterns are applied one after the other, and
    each exchanges its matches, and nothing else, for the fakes the map has for them. *)
Inductive masked_text (m : list (string * string)) : list rule -> string -> string -> Prop :=
| masked_by_none t : masked_text m [] t t
| masked_by r rules t hits tail fakes t' :
    ru_find r t = (hits, tail) -> with_values hits (hit_real <$> hits) tail = t ->
    Forall2 (stands (ru_grouped r) m) hits fakes ->
    masked_text m rules (with_values hits fakes tail) t' ->
    masked_text m (r :: rules) t t'.
(** The value of a key changes as [R] says, everything else of the object stays. *)
Definition only_at (key : string) (R : json -> json -> Prop) (d d' : list (string * json)) : Prop :=
  match dict_get key d with Some v => exists v', R v v' /\ d' = dict_set key v' d | None => d' = d end.
Definition masked_string (m : list (string * string)) (rules : list rule) (v v' : json) : Prop :=
  match v with JStr t => exists t', v' = JStr t' /\ masked_text m rules t t' | _ => v' = v end.
Definition masked_object (key : string) (R : json -> json -> Prop) (v v' : json) : Prop :=
  match v with JObj d => exists d', v' = JObj d' /\ only_at key R d d' | _ => v' = v end.
Definition masked_list (R : json -> json -> Prop) (v v' : json) : Prop :=
  match v with JArr l => exists l', v' = JArr l' /\ Forall2 R l l' | _ => v' = v end.
(** The texts of a content: a text, or those of the parts that have one. *)
Definition masked_content (m : list (string * string)) (rules : list rule) (v v' : json) : Prop :=
  match v with JStr _ => masked_string m rules v v' | _ => masked_list (masked_object "text" (masked_string m rules)) v v' end.
Definition masked_request (m : list (string * string)) (rules : list rule) (body body' : list (string * json)) : Prop :=
  only_at "messages" (masked_list (masked_object "content" (masked_content m rules))) body body'.

(** What a masking step [f] promises: it extends the map, keeps it one to one, and its
    result is masked as [R] says with every later map. *)
Definition masks {A} (R : list (string * string) -> A -> A -> Prop) (f : A -> list (string * string) -> A * list (string * string)) : Prop :=
  forall x m x' m', f x m = (x', m') -> bijective m ->
    bijective m' /\ m `prefix_of` m' /\ forall k, m' `prefix_of` k -> R k x x'.
(** A step that leaves its argument and the map. *)
Ltac nothing_masked := intros [= <- <-] Hb; split; [exact Hb|split; [done|]]; intros k _.

Lemma stands_prefix g m k h v : m `prefix_of` k -> stands g m h v -> stands g k h v.
Proof. intros [l ->] [H|H]; [left; apply elem_of_app; by left|by right]. Qed.
Lemma replace_stands g base h m s m' : _replace g base h m = (s, m') -> bijective m ->
  exists v, stands g m' h v /\ s = hit_left h +++ v +++ hit_right h.
Proof.
  intros E _. revert E. unfold _replace. destruct (g && negb (str_truthy (hit_real h))) eqn:Eg.
  - intros [= <- _]. apply andb_true_iff in Eg as [-> Er]. exists "". destruct (hit_real h) eqn:Eh; [|done].
    split; [by right|done].
  - pose proof (fake_of_spec (hit_real h) m) as Hf. destruct (fake_of (hit_real h) m) as [f|]; intros [= <- <-]; eexists; (split; [left|done]).
    + done.
    + rewrite dict_set_fresh by apply unique_fake_fresh. apply elem_of_app. right. by left.
Qed.
Lemma sub_hits_masks g base hits tail m s m' : sub_hits g base hits tail m = (s, m') -> bijective m ->
  bijective m' /\ m `prefix_of` m' /\
  exists fakes, s = with_values hits fakes tail /\ forall k, m' `prefix_of` k -> Forall2 (stands g k) hits fakes.
Proof.
  revert m s m'. induction hits as [|h hits IH]; intros m s m'; simpl.
  { intros [= <- <-] Hb. split; [done|split; [done|]]. by exists []. }
  destruct (_replace g base h m) as [s1 m1] eqn:E1. destruct (sub_hits g base hits tail m1) as [s2 m2] eqn:E2. intros [= <- <-] Hb.
  destruct (replace_bijective _ _ _ _ _ _ E1 Hb) as [Hb1 Hp1]. destruct (replace_stands _ _ _ _ _ _ E1 Hb) as (v & Hv & ->).
  destruct (IH _ _ _ E2 Hb1) as (Hb2 & Hp2 & fakes & -> & HF). split; [done|split; [by etrans|]].
  exists (v :: fakes). split; [done|]. intros k Hk. constructor; [|by apply HF]. eapply stands_prefix; [|exact Hv]. by etrans.
Qed.

Lemma dict_set_same {A} k (v : A) d : dict_get k d = Some v -> dict_set k v d = d.
Proof. induction d as [|[k' w] d IH]; simpl; [done|]. case_decide; [by intros [= ->]; subst|]. intros H'. by rewrite IH. Qed.
Lemma only_at_set key R d v v' : dict_get key d = Some v -> R v v' -> only_at key R d (dict_set key v' d).
Proof. intros E HR. unfold only_at. rewrite E. by exists v'. Qed.
(** A step for the elements makes one for the list. *)
Lemma masks_list {A} (R : list (string * string) -> A -> A -> Prop) f g :
  (forall m, g [] m = ([], m)) ->
  (forall x l m, g (x :: l) m = let '(x', m) := f x m in let '(rest, m) := g l m in (x' :: rest, m)) ->
  masks R f -> masks (fun k => Forall2 (R k)) g.
Proof.
  intros Hn Hc Hf l. induction l as [|x l IH]; intros m l' m'.
  { rewrite Hn. intros [= <- <-] Hb. split; [done|split; [done|]]. by constructor. }
  rewrite Hc. destruct (f x m) as [x1 m1] eqn:E1. destruct (g l m1) as [l1 m2] eqn:E2. intros [= <- <-] Hb.
  destruct (Hf _ _ _ _ E1 Hb) as (Hb1 & Hp1 & HR). destruct (IH _ _ _ E2 Hb1) as (Hb2 & Hp2 & HRs).
  split; [done|split; [by etrans|]]. intros k Hk. constructor; [apply HR; by etrans|by apply HRs].
Qed.

Lemma text_masks rules : Forall covers rules -> masks (fun k => masked_text k rules) (_mask_text rules).
Proof.
  induction 1 as [|r rs Hr _ IH]; intros text m s m'; simpl.
  { intros [= <- <-] Hb. split; [done|split; [done|]]. constructor. }
  specialize (Hr text). destruct (ru_find r text) as [hits tail] eqn:Ef. destruct (sub_hits _ _ hits tail m) as [t1 m1] eqn:E1. intros E Hb.
  destruct (sub_hits_masks _ _ _ _ _ _ _ E1 Hb) as (Hb1 & Hp1 & fakes & -> & HF). destruct (IH _ _ _ _ E Hb1) as (Hb2 & Hp2 & HR).
  split; [done|split; [by etrans|]]. intros k Hk. apply (masked_by k r rs text hits tail fakes); [done|done| |by apply HR].
  apply HF. by etrans.
Qed.

Section mask.
Variable rules : list rule.
Hypothesis Hrules : Forall covers rules.

Lemma part_masks : masks (fun k => masked_object "text" (masked_string k rules)) (mask_part rules).
Proof.
  intros p m p' m'. unfold mask_part. destruct p as [| | | | |d]; try (by nothing_masked).
  destruct (dict_get "text" d) as [v|] eqn:Ed.
  2:{ nothing_masked. exists d. split; [done|]. unfold only_at. by rewrite Ed. }
  destruct v as [| | |t| |]; try (nothing_masked; exists d; split; [done|]; unfold only_at; rewrite Ed;
    eexists; split; [reflexivity|]; by rewrite dict_set_same).
  destruct (_mask_text rules t m) as [t' m1] eqn:E. intros [= <- <-] Hb. destruct (text_masks _ Hrules _ _ _ _ E Hb) as (Hb1 & Hp & HR).
  split; [done|split; [done|]]. intros k Hk. eexists. split; [done|]. eapply only_at_set; [done|]. exists t'. split; [done|by apply HR].
Qed.
Lemma parts_masks : masks (fun k => Forall2 (masked_object "text" (masked_string k rules))) (mask_parts rules).
Proof. apply (masks_list _ (mask_part rules)); [done|done|apply part_masks]. Qed.
Lemma content_masks : masks (fun k => masked_content k rules) (_mask_content rules).
Proof.
  intros c m c' m'. destruct c as [| | |t|ps|o]; simpl; try (by nothing_masked).
  - destruct (_mask_text rules t m) as [t' m1] eqn:E. intros [= <- <-] Hb. destruct (text_masks _ Hrules _ _ _ _ E Hb) as (Hb1 & Hp & HR).
    split; [done|split; [done|]]. intros k Hk. exists t'. split; [done|by apply HR].
  - destruct (mask_parts rules ps m) as [ps' m1] eqn:E. intros [= <- <-] Hb. destruct (parts_masks _ _ _ _ E Hb) as (Hb1 & Hp & HR).
    split; [done|split; [done|]]. intros k Hk. exists ps'. split; [done|by apply HR].
Qed.
Lemma message_masks : masks (fun k => masked_object "content" (masked_content k rules)) (mask_message rules).
Proof.
  intros x m x' m'. unfold mask_message. destruct x as [| | | | |d]; try (by nothing_masked).
  destruct (dict_get "content" d) as [v|] eqn:Ed.
  2:{ nothing_masked. exists d. split; [done|]. unfold only_at. by rewrite Ed. }
  assert (Hv : forall c m1, _mask_content rules v m = (c, m1) -> (JObj (dict_set "content" c d), m1) = (x', m') -> bijective m ->
    bijective m' /\ m `prefix_of` m' /\ forall k, m' `prefix_of` k -> masked_object "content" (masked_content k rules) (JObj d) x').
  { intros c m1 E [= <- <-] Hb. destruct (content_masks _ _ _ _ E Hb) as (Hb1 & Hp & HR).
    split; [done|split; [done|]]. intros k Hk. eexists. split; [done|]. eapply only_at_set; [done|]. by apply HR. }
  destruct v as [|b|n|t|l|o];
    lazymatch goal with |- (let '(_, _) := ?f in _) = _ -> _ => destruct f as [c m1]; exact (Hv _ _ eq_refl) | _ => idtac end.
  nothing_masked. exists d. split; [done|]. unfold only_at. rewrite Ed. exists JNull. by rewrite dict_set_same.
Qed.
Lemma messages_masks : masks (fun k => Forall2 (masked_object "content" (masked_content k rules))) (mask_messages rules).
Proof. apply (masks_list _ (mask_message rules)); [done|done|apply message_masks]. Qed.

End mask.

(** ** Headers *)

(** Two credentials a log cannot tell apart: short ones of one length, or long ones
    with the same four characters at each end. *)
Definition alike (v w : string) : Prop :=
  let a := chars_of v in let b := chars_of w in
  (length a = length b /\ (length a <= 8)%nat) \/
  ((8 < length a)%nat /\ (8 < length b)%nat /\ take 4 a = take 4 b /\ last_chars 4 a = last_chars 4 b).
Lemma secret_alike v w : alike v w -> mask_secret_value v = mask_secret_value w.
Proof.
  unfold alike, mask_secret_value. cbv zeta. generalize (chars_of v) (chars_of w). intros a b [[Hl Hs]|(Ha & Hb & Ht & Hd)].
  - rewrite <- Hl. destruct a as [|x a], b as [|y b]; try done. simpl length in *.
    apply Nat.leb_le in Hs. by rewrite Hs.
  - destruct a as [|x a]; [simpl in *; lia|]. destruct b as [|y b]; [simpl in *; lia|].
    destruct (Nat.leb_spec (length (x :: a)) 8); [lia|]. destruct (Nat.leb_spec (length (y :: b)) 8); [lia|]. by rewrite Ht, Hd.
Qed.
(** The credential of a header: what follows the scheme of an Authorization. *)
Definition credentials_alike (key v w : string) : Prop :=
  if str_contains "authorization" (lower key)
  then (exists scheme c c', str_mem " " scheme = false /\ v = scheme +++ String " " c /\ w = scheme +++ String " " c' /\
          c <> "" /\ c' <> "" /\ alike c c') \/
       (str_mem " " v = false /\ str_mem " " w = false /\ alike v w)
  else alike v w.
(** Of the credential in a sensitive header a log keeps four characters at each end of
    a long one and the length of a short one, and nothing else. *)
Lemma header_noninterference key v w : is_sensitive_header key = true -> credentials_alike key v w ->
  sanitize_header_value key v = sanitize_header_value key w.
Proof.
  unfold is_sensitive_header, credentials_alike, sanitize_header_value, any_part. simpl.
  destruct (str_contains "authorization" (lower key)); simpl.
  - intros _ [(sc & c & c' & Hs & -> & -> & Hc & Hc' & H)|(Hv & Hw & H)]; unfold mask_authorization_header.
    + rewrite !cut_at_append by done. destruct c as [|x c]; [done|]. destruct c' as [|x' c']; [done|]. simpl. by rewrite (secret_alike _ _ H).
    + rewrite !cut_at_none by done. by apply secret_alike.
  - destruct (str_contains "cookie" (lower key)); simpl; [done|]. intros -> H. by apply secret_alike.
Qed.

(** ** Restoration *)

Module MaskingSample.
(** The words that begin with a prefix, as a pattern would find them. *)
Fixpoint words_found (prefix before : string) (words : list string) : list hit * string :=
  match words with
  | [] => ([], before)
  | w :: words' =>
      let sep := match words' with [] => "" | _ => " " end in
      if startswith prefix w
      then let '(hits, tail) := words_found prefix sep words' in (Hit before "" w "" :: hits, tail)
      else words_found prefix (before +++ w +++ sep) words'
  end.
Definition keys (prefix fake : string) : rule := Rule (fun t => words_found prefix "" (split_on " " t)) false fake.
Definition text : string := "use sk-1111 or sk-2222 or sk-1111".

Example masked : _mask_text [keys "sk-" "FAKE"] text [] =
  ("use FAKE or FAKE_2 or FAKE", [("FAKE", "sk-1111"); ("FAKE_2", "sk-2222")]).
Proof. vm_compute. reflexivity. Qed.
Lemma words_found_covers prefix before words :
  let '(hits, tail) := words_found prefix before words in with_values hits (hit_real <$> hits) tail = before +++ join " " words.
Proof.
  revert before. induction words as [|w words IH]; intros before; simpl; [by rewrite append_nil_r|].
  assert (Hj : w +++ match words with [] => "" | _ => " " end +++ join " " words = join " " (w :: words)).
  { destruct words; simpl; [by rewrite !append_nil_r|done]. }
  destruct (startswith prefix w).
  - specialize (IH match words with [] => "" | _ => " " end). destruct (words_found _ _ words) as [hits tail]. simpl in *.
    fold (hit_real <$> hits). by rewrite IH, append_nil_r, Hj.
  - specialize (IH (before +++ w +++ match words with [] => "" | _ => " " end)). destruct (words_found _ _ words) as [hits tail].
    rewrite IH, !append_assoc. by f_equal.
Qed.
Lemma keys_covers prefix fake : covers (keys prefix fake).
Proof.
  intros t. simpl. pose proof (words_found_covers prefix "" (split_on " " t)) as H. destruct (words_found _ _ _) as [hits tail].
  rewrite H. simpl. clear H. induction t as [|a t IH]; [done|]. simpl. case_decide; subst; simpl.
  - destruct (split_on " " t) eqn:E; [by destruct t; simpl in E; repeat case_match|]. simpl in *. by rewrite IH.
  - destruct (split_on " " t) as [|w ws]; simpl in *; [by subst|]. destruct ws; simpl in *; by rewrite IH.
Qed.
Definition user (content : json) : json := JObj [("role", JStr "user"); ("content", content)].
Definition body : list (string * json) :=
  [("model", JStr "m"); ("messages", JArr [user (JStr text); user (JArr [JObj [("type", JStr "text"); ("text", JStr "sk-2222")]]); user JNull])].
Lemma header_noninterference_witness :
  sanitize_header_value "Authorization" "Bearer sk-abcdefghijkl" = sanitize_header_value "Authorization" "Bearer sk-a12345678ijkl".
Proof.
  apply header_noninterference; [vm_compute; reflexivity|]. left. exists "Bearer", "sk-abcdefghijkl", "sk-a12345678ijkl".
  split; [vm_compute; reflexivity|]. do 4 (split; [done|]). right. vm_compute. repeat split; lia.
Defined.

(** The fake values are put back in the order they were made: the second of two keys,
    whose fake value begins with that of the first, comes back as the first one with a
    suffix.  In the opposite order both come back. *)
Lemma restore_confuses_keys :
  let '(t, m) := _mask_text [keys "sk-" "FAKE"] text [] in
  restore_credentials t m = "use sk-1111 or sk-1111_2 or sk-1111" /\ restore_credentials t (rev m) = text.
Proof. vm_compute. split; reflexivity. Qed.
(** A pattern that matches the fake value of an earlier one masks it again, and the
    restoration stops at the first fake value. *)
Lemma restore_stops_early :
  let '(t, m) := _mask_text [keys "sk-" "FAKE"; keys "FA" "TOKEN"] "use sk-1111" [] in
  t = "use TOKEN" /\ restore_credentials t m = "use FAKE" /\ restore_credentials t (rev m) = "use sk-1111".
Proof. vm_compute. repeat split. Qed.
End MaskingSample.
