(* ===== verification/Context.v ===== *)
(** agent/context_manager.py: the history of an agent conversation kept within its
    budget (compression, trimming, summaries) and rebuilt from stored rows.

    Messages are JSON objects with distinct keys; None is an exception.  Sizes count
    characters.  The trim target ([int(cap * keep_rate)]) and the summary of a chunk
    (the LLM behind _summarize_chunk) are inputs. *)
From S2P Require Import Prelude Json Text Retry Usage Stream Messages.

Definition message : Type := list (string * json).
Definition MIN_MESSAGES_AFTER_TRIM : nat := 9.
Definition _SUMMARY_MIN_DROPPED : nat := 6.
Definition _SUMMARY_BATCH_LIMIT : nat := 24.
Definition TRIGGER_MULTIPLIER : Z := 3.

Section context.
Variable py_str : json -> string.

(** ** Sizes *)

Definition text_size (s : string) : Z := Z.of_nat (length (chars_of s)).
(** [m.get(k, "")] *)
Definition get_or_empty (k : string) (m : message) : json := default (JStr "") (dict_get k m).
Definition _message_char_count (m : message) : Z :=
  match get_or_empty "content" m with
  | JStr s => text_size s
  | JArr l => foldr (fun b n => text_size (match b with JObj _ => dump_value b | _ => json_str_of py_str b end) + n) 0 l
  | _ => 0
  end
  + match truthy_field "tool_calls" m with Some tc => text_size (dump_value tc) | None => 0 end.
Definition _estimate_chars (messages : list message) : Z := foldr (fun m n => _message_char_count m + n) 0 messages.

(** ** Compression *)

Definition TRUNCATED : string := String "010" ("...[Truncated]..." +++ String "010" "").
(** [content[-half:]] is the whole text when [half] is 0. *)
Definition _truncate_tag_content (content : string) (max_len : nat) : string :=
  let w := chars_of content in
  if (length w <=? max_len)%nat then content
  else let half := (max_len / 2)%nat in
       unchars (take half w) +++ TRUNCATED +++ unchars (if (half =? 0)%nat then w else last_chars half w).
Definition too_long (s : string) (max_len : nat) : bool := negb (length (chars_of s) <=? max_len)%nat.

Definition compress_call (max_len : nat) (tc : json) : option json :=
  match tc with
  | JObj d =>
      match default (JObj []) (dict_get "function" d) with
      | JObj f =>
          let f' := match get_or_empty "arguments" f with
                    | JStr a => if too_long a max_len then dict_set "arguments" (JStr (_truncate_tag_content a max_len)) f else f
                    | _ => f
                    end in
          Some (JObj (dict_set "function" (JObj f') d))
      | _ => Some tc
      end
  | _ => None
  end.
Definition _compress_tool_calls (calls : list json) (max_len : nat) : option (list json) := mapM (compress_call max_len) calls.
Definition compress_block (max_len : nat) (b : json) : option json :=
  match b with
  | JObj d =>
      if type_is "text" d
      then match get_or_empty "text" d with
           | JStr t => Some (if too_long t max_len then JObj (dict_set "text" (JStr (_truncate_tag_content t max_len)) d) else b)
           | JArr l => if (length l <=? max_len)%nat then Some b else None
           | JObj o => if (length o <=? max_len)%nat then Some b else None
           | _ => None
           end
      else Some b
  | _ => Some b
  end.
Definition _compress_tool_results (content : json) (max_len : nat) : option json :=
  match content with
  | JStr s => Some (if too_long s max_len then JStr (_truncate_tag_content s max_len) else content)
  | JArr l => l' ← mapM (compress_block max_len) l; Some (JArr l')
  | _ => Some content
  end.
Definition compress_message (max_len : nat) (m : message) : option message :=
  if role_is "assistant" m
  then m ← (match dict_get "tool_calls" m with
            | Some (JArr ((_ :: _) as calls)) => calls' ← _compress_tool_calls calls max_len; Some (dict_set "tool_calls" (JArr calls') m)
            | _ => Some m
            end);
       Some match get_or_empty "content" m with
            | JStr s => if too_long s (max_len * 2) then dict_set "content" (JStr (_truncate_tag_content s (max_len * 2))) m else m
            | _ => m
            end
  else if role_is "user" m || role_is "tool" m
  then match get_or_empty "content" m with
       | JStr s => Some (if too_long s max_len then dict_set "content" (JStr (_truncate_tag_content s max_len)) m else m)
       | JArr l => c ← _compress_tool_results (JArr l) max_len; Some (dict_set "content" c m)
       | _ => Some m
       end
  else Some m.
(** The counter of calls is process state: only every [interval]-th call compresses. *)
Definition compress_history (counter : Z) (messages : list message) (keep_recent max_len : nat) (interval : Z) (force : bool)
    : Z * option (list message) :=
  let counter := counter + 1 in
  (counter,
   if negb force && negb (counter mod interval =? 0) then Some messages
   else if (length messages <=? keep_recent)%nat then Some messages
   else let cutoff := (length messages - keep_recent)%nat in
        old ← mapM (compress_message max_len) (take cutoff messages); Some (old ++ drop cutoff messages)).

(** ** Trimming *)

Definition _is_summary_message (m : message) : bool :=
  match get_or_empty "content" m with JStr s => str_contains "<history_summary>" s | _ => false end.
Definition _is_protected (m : message) : bool := role_is "system" m || _is_summary_message m.

(** The protected messages in front, and the rest. *)
Fixpoint protected_prefix (messages : list message) : list message * list message :=
  match messages with
  | m :: rest => if _is_protected m then let '(p, r) := protected_prefix rest in (m :: p, r) else ([], messages)
  | [] => ([], [])
  end.
(** The inner loop: what cannot lead is dropped while enough is left. *)
Fixpoint drop_leading (messages : list message) : list message :=
  match messages with
  | m :: rest =>
      if (MIN_MESSAGES_AFTER_TRIM <? length messages)%nat && negb (_is_protected m) && negb (role_is "system" m || role_is "user" m)
      then drop_leading rest
      else messages
  | [] => []
  end.
Fixpoint trim_loop (fuel : nat) (target : Z) (messages : list message) : list message :=
  match fuel with
  | O => messages
  | S fuel' =>
      if (target <? _estimate_chars messages) && (MIN_MESSAGES_AFTER_TRIM <? length messages)%nat
      then let '(front, rest) := protected_prefix messages in
           match rest with
           | [] => messages
           | _ :: rest' => if (length rest <=? MIN_MESSAGES_AFTER_TRIM)%nat then messages
                           else trim_loop fuel' target (drop_leading (front ++ rest'))
           end
      else messages
  end.

(** [" ".join(b.get("text", "") for b in text if isinstance(b, dict))] *)
Definition result_text (v : json) : option string :=
  match v with
  | JArr l =>
      texts ← mapM (fun b => match b with
                             | JObj d => match get_or_empty "text" d with JStr s => Some [s] | _ => None end
                             | _ => Some []
                             end) l;
      Some (join " " (concat texts))
  | v => Some (json_str_of py_str v)
  end.
Definition plain_block (b : json) : option json :=
  match b with
  | JObj d => if type_is "tool_result" d
              then t ← result_text (get_or_empty "content" d); Some (JObj [("type", JStr "text"); ("text", JStr ("[tool_result] " +++ t))])
              else Some b
  | _ => Some b
  end.
Definition _sanitize_leading_message (messages : list message) : option (list message) :=
  match messages with
  | first :: rest =>
      match get_or_empty "content" first with
      | JArr l => if role_is "user" first then l' ← mapM plain_block l; Some (dict_set "content" (JArr l') first :: rest) else Some messages
      | _ => Some messages
      end
  | [] => Some []
  end.
Definition trim_messages (counter : Z) (messages : list message) (context_window target : Z) (max_tag_len : nat) : Z * option (list message) :=
  let cap := context_window * TRIGGER_MULTIPLIER in
  if _estimate_chars messages <=? cap then (counter, Some messages)
  else
    let '(counter, compressed) := compress_history counter messages 4 max_tag_len 5 true in
    (counter,
     messages ← compressed;
     if _estimate_chars messages <=? target then Some messages
     else _sanitize_leading_message (trim_loop (length messages) target messages)).

(** ** Summaries *)

Definition _summary_message (summary : string) : message :=
  [("role", JStr "user");
   ("content", JStr ("[Conversation summary generated by the runtime to preserve earlier " +++
      "context — not a new user request.]" +++ String "010" "<history_summary>" +++ String "010" summary +++
      String "010" "</history_summary>"))].

(** Where the pop loop would stop: how many messages go, in pairs. *)
Fixpoint skip_pair (rest : list message) (chars : Z) (i : nat) : list message * Z * nat :=
  match rest with
  | m :: rest' =>
      if (MIN_MESSAGES_AFTER_TRIM <? length rest)%nat && negb (role_is "system" m || role_is "user" m)
      then skip_pair rest' (chars - _message_char_count m) (S i)
      else (rest, chars, i)
  | [] => ([], chars, i)
  end.
Fixpoint plan_loop (fuel : nat) (target : Z) (rest : list message) (chars : Z) (i : nat) : nat :=
  match fuel, rest with
  | S fuel', m :: rest' =>
      if (target <? chars) && (MIN_MESSAGES_AFTER_TRIM <? length rest)%nat
      then let '(rest, chars, i) := skip_pair rest' (chars - _message_char_count m) (S i) in plan_loop fuel' target rest chars i
      else i
  | _, _ => i
  end.
Definition system_end (messages : list message) : nat :=
  match messages with m :: _ => if role_is "system" m then 1%nat else O | [] => O end.
Definition _plan_dropped_prefix (messages : list message) (target : Z) (keep_recent : nat) : list message * nat :=
  if (length messages <=? MIN_MESSAGES_AFTER_TRIM)%nat then ([], O)
  else if _estimate_chars messages <=? target then ([], O)
  else let i := plan_loop (length messages) target messages (_estimate_chars messages) 0 in
       if (i <=? system_end messages + keep_recent)%nat then ([], i)
       else (take (i - system_end messages) (drop (system_end messages) messages), i).

Variable summarize : list message -> option string.

Definition with_summary (messages : list message) (target : Z) (summary_keep_recent : nat) : list message :=
  let '(dropped, split) := _plan_dropped_prefix messages target summary_keep_recent in
  let fresh := List.filter (fun m => negb (_is_summary_message m)) dropped in
  if (_SUMMARY_MIN_DROPPED <=? length fresh)%nat && (system_end messages <? split)%nat
  then match summarize (take _SUMMARY_BATCH_LIMIT dropped) with
       | Some summary => if str_truthy summary
                         then take (system_end messages) messages ++ [_summary_message summary] ++ drop split messages
                         else messages
       | None => messages
       end
  else messages.
Definition trim_messages_async (counter : Z) (messages : list message) (context_window target : Z) (max_tag_len summary_keep_recent : nat)
    (has_summarizer : bool) : Z * option (list message) :=
  if negb has_summarizer then trim_messages counter messages context_window target max_tag_len
  else if _estimate_chars messages <=? context_window * TRIGGER_MULTIPLIER then (counter, Some messages)
  else trim_messages counter (with_summary messages target summary_keep_recent) context_window target max_tag_len.
End context.

(** ** Stored history *)

(** [json.dumps(v, sort_keys=True)] *)
Fixpoint insert_sorted (kv : string * json) (l : list (string * json)) : list (string * json) :=
  match l with
  | [] => [kv]
  | x :: l' => if String.ltb kv.1 x.1 then kv :: l else x :: insert_sorted kv l'
  end.
Fixpoint sort_keys (v : json) : json :=
  match v with
  | JArr l => JArr (map sort_keys l)
  | JObj d => JObj (foldr (fun kv acc => insert_sorted kv acc) [] (map (fun kv => (kv.1, sort_keys kv.2)) d))
  | v => v
  end.
Definition serialize_tool_result (v : json) : string :=
  match v with JStr s => s | JNull => "" | _ => dump_value (sort_keys v) end.

Section rebuild.
Variable py_str : json -> string.

(** [results[idx] if idx < len(results) else None] *)
Definition result_at (results : json) (idx : nat) : option json :=
  match results with
  | JArr l => Some (default JNull (l !! idx))
  | JStr s => Some (default JNull (JStr <$> chars_of s !! idx))
  | JObj d => if (idx <? length d)%nat then None else Some JNull
  | _ => None
  end.
(** [v or []], [v or ""] *)
Definition or_value (other : json) (v : option json) : json :=
  match v with Some v => if json_truthy v then v else other | None => other end.
Definition none_missing (v : option json) : option json := match v with Some JNull => None | v => v end.

(** A call that ran to its end. *)
Definition finished (c : message) : bool :=
  match none_missing (dict_get "status" c) with None => true | Some (JStr s) => String.eqb s "done" | Some _ => false end.
Definition stored_id (row c func : message) (idx : nat) : string :=
  match truthy_field "id" c with
  | Some v => json_str_of py_str v
  | None => match truthy_field "id" func with
            | Some v => json_str_of py_str v
            | None => "hist-" +++ json_str_of py_str (default JNull (dict_get "id" row)) +++ "-" +++ tostring (Z.of_nat idx)
            end
  end.
Definition stored_arguments (c func : message) : string :=
  match match none_missing (dict_get "args" c) with Some v => Some v | None => none_missing (dict_get "arguments" func) end with
  | Some (JStr s) => str_or s "{}"
  | Some v => dump_value v
  | None => "{}"
  end.
(** The call on the wire and its result message. *)
Definition wire_pair (row c : message) (idx : nat) (data : json) : json * json :=
  let func := match dict_get "function" c with Some (JObj f) => f | _ => [] end in
  let call_id := stored_id row c func idx in
  let name := json_str_of py_str (or_value (or_value (JStr "") (dict_get "name" func)) (dict_get "name" c)) in
  (JObj [("id", JStr call_id); ("type", JStr "function");
         ("function", JObj [("name", JStr name); ("arguments", JStr (stored_arguments c func))])],
   JObj [("role", JStr "tool"); ("tool_call_id", JStr call_id); ("name", JStr name); ("content", JStr (serialize_tool_result data))]).
(** A call is replayed when it finished and has a result. *)
Definition replay_call (row : message) (results : json) (idx : nat) (call : json) : option (option (json * json)) :=
  match call with
  | JObj c =>
      if finished c
      then data ← result_at results idx;
           Some match data with JNull => None | _ => Some (wire_pair row c idx data) end
      else Some None
  | _ => Some None
  end.
Fixpoint replay_calls (row : message) (results : json) (idx : nat) (calls : list json) : option (list (json * json)) :=
  match calls with
  | [] => Some []
  | c :: calls' => r ← replay_call row results idx c; rest ← replay_calls row results (S idx) calls'; Some (option_list r ++ rest)
  end.
(** What iterating over the stored calls gives. *)
Definition stored_calls (v : json) : option (list json) :=
  match v with JArr l => Some l | JStr s => Some (chars s) | JObj d => Some (JStr <$> d.*1) | _ => None end.

Definition replay_row (row : message) : option (list json) :=
  let role := or_value (JStr "user") (dict_get "role" row) in
  let content := or_value (JStr "") (dict_get "content" row) in
  let entry := [("role", role); ("content", content)] in
  match role with
  | JStr "assistant" =>
      calls ← stored_calls (or_value (JArr []) (dict_get "tool_calls" row));
      pairs ← replay_calls row (or_value (JArr []) (dict_get "tool_results" row)) 0 calls;
      Some match pairs with
           | [] => if json_truthy content then [JObj entry] else []
           | _ => JObj (entry ++ [("tool_calls", JArr pairs.*1)]) :: pairs.*2
           end
  | _ => Some [JObj entry]
  end.
Definition skipped (skip_msg_id : option json) (row : message) : bool :=
  match skip_msg_id with Some v => same_index (default JNull (dict_get "id" row)) v | None => false end.
(** [history[cutoff:]]: from the last summary on. *)
Fixpoint last_summary (history : list message) : option (list message) :=
  match history with
  | [] => None
  | m :: rest => match last_summary rest with
                 | Some l => Some l
                 | None => if _is_summary_message m then Some history else None
                 end
  end.
Definition effective_history (history : list message) : list message := default history (last_summary history).
Definition rebuild_history_messages (history : list message) (skip_msg_id : option json) (system_prompt : string) : option (list json) :=
  rows ← mapM (fun row => if skipped skip_msg_id row then Some [] else replay_row row) (effective_history history);
  Some ((if str_truthy system_prompt then [JObj [("role", JStr "system"); ("content", JStr system_prompt)]] else []) ++ concat rows).
End rebuild.
