(* ===== verification/ContextProps.v ===== *)
(** What an agent's history keeps: trimming never drops a protected message and never
    goes below its minimum, and a history rebuilt from stored rows is paired, so the
    repair of outgoing conversations leaves it alone. *)
From S2P Require Import Prelude Json Text TextFacts Retry Usage Stream StreamProps Messages MessagesProps Context.

Section trim.
Variable py_str : json -> string.
Abbreviation size := (_estimate_chars py_str).

(** ** Trimming *)

Abbreviation protected := (List.filter _is_protected).
Lemma prefix_split messages front rest : protected_prefix messages = (front, rest) ->
  messages = front ++ rest /\ Forall (fun m => _is_protected m = true) front /\
  match rest with m :: _ => _is_protected m = false | [] => True end.
Proof.
  revert front rest. induction messages as [|m messages IH]; intros front rest; simpl; [intros [= <- <-]; by repeat split|].
  destruct (_is_protected m) eqn:E; [|intros [= <- <-]; repeat split; [constructor|done]].
  destruct (protected_prefix messages) as [p r]. intros [= <- <-]. destruct (IH _ _ eq_refl) as (-> & HF & Hr).
  repeat split; [by constructor|done].
Qed.
(** What may be lost: a part of the list, nothing protected, and only while more than
    the minimum is left. *)
Definition pruned (kept messages : list message) : Prop :=
  kept `sublist_of` messages /\ protected kept = protected messages /\
  (kept = messages \/ MIN_MESSAGES_AFTER_TRIM <= length kept)%nat.
Lemma pruned_refl l : pruned l l.
Proof. split; [done|split; [done|by left]]. Qed.
Lemma pruned_trans a b c : pruned a b -> pruned b c -> pruned a c.
Proof.
  intros (H1 & H2 & H3) (H1' & H2' & H3'). split; [by etrans|split; [congruence|]].
  destruct H3 as [->|H3]; [done|by right].
Qed.
Lemma drop_leading_pruned l : pruned (drop_leading l) l.
Proof.
  induction l as [|m l IH]; [apply pruned_refl|]. simpl.
  destruct (MIN_MESSAGES_AFTER_TRIM <? S (length l))%nat eqn:El; simpl; [|apply pruned_refl]. apply Nat.ltb_lt in El.
  destruct (_is_protected m) eqn:Ep; simpl; [apply pruned_refl|]. destruct (negb _); [|apply pruned_refl].
  eapply pruned_trans; [exact IH|]. split; [by apply sublist_cons|split; [by simpl; rewrite Ep|right; lia]].
Qed.
Lemma drop_one_pruned front m rest : _is_protected m = false -> (MIN_MESSAGES_AFTER_TRIM < length (m :: rest))%nat ->
  pruned (front ++ rest) (front ++ m :: rest).
Proof.
  intros Hm Hl. split; [apply sublist_app; [done|by apply sublist_cons]|]. split.
  - rewrite !List.filter_app. simpl. by rewrite Hm.
  - right. rewrite length_app. simpl in Hl. lia.
Qed.
Lemma trim_loop_pruned fuel target messages : pruned (trim_loop py_str fuel target messages) messages.
Proof.
  revert messages. induction fuel as [|fuel IH]; intros messages; simpl; [apply pruned_refl|].
  destruct (_ && _); [|apply pruned_refl]. destruct (protected_prefix messages) as [front rest] eqn:Ef.
  apply prefix_split in Ef as (-> & HF & Hr). destruct rest as [|m rest]; [apply pruned_refl|].
  destruct (Nat.leb_spec (length (m :: rest)) MIN_MESSAGES_AFTER_TRIM) as [Hl|Hl]; [apply pruned_refl|].
  eapply pruned_trans; [apply IH|]. eapply pruned_trans; [apply drop_leading_pruned|]. by apply drop_one_pruned.
Qed.
(** The loop stops only when the target is met or no more may go. *)
Definition settled (target : Z) (messages : list message) : Prop :=
  size messages <= target \/ (length messages <= MIN_MESSAGES_AFTER_TRIM)%nat \/
  (length (protected_prefix messages).2 <= MIN_MESSAGES_AFTER_TRIM)%nat.
Lemma drop_leading_length l : (length (drop_leading l) <= length l)%nat.
Proof. induction l as [|m l IH]; simpl; [done|]. destruct (_ && _ && _); simpl; lia. Qed.
Lemma trim_loop_settled fuel target messages : (length messages <= fuel)%nat -> settled target (trim_loop py_str fuel target messages).
Proof.
  revert messages. induction fuel as [|fuel IH]; intros messages Hf; simpl; [right; left; lia|].
  destruct (Z.ltb_spec target (size messages)) as [Ht|Ht]; simpl; [|by left].
  destruct (Nat.ltb_spec MIN_MESSAGES_AFTER_TRIM (length messages)) as [Hl|Hl]; [|right; left; lia].
  destruct (protected_prefix messages) as [front rest] eqn:Ef. destruct rest as [|m rest].
  - right; right. rewrite Ef. simpl. lia.
  - destruct (Nat.leb_spec (length (m :: rest)) MIN_MESSAGES_AFTER_TRIM); [right; right; by rewrite Ef|].
    apply IH. apply prefix_split in Ef as (-> & _). pose proof (drop_leading_length (front ++ rest)).
    rewrite !length_app in *. simpl in *. lia.
Qed.

(** *** Compression keeps the conversation's shape *)

Lemma compress_role max_len m m' r : compress_message max_len m = Some m' -> role_is r m' = role_is r m.
Proof.
  unfold compress_message. destruct (role_is "assistant" m).
  - destruct (match dict_get "tool_calls" m with Some (JArr (_ :: _)) => _ | _ => _ end) as [m1|] eqn:E1; simpl; [|done].
    assert (H1 : role_is r m1 = role_is r m).
    { destruct (dict_get "tool_calls" m) as [[| | | |[|c l]|]|]; try (by injection E1 as <-).
      destruct (_compress_tool_calls (c :: l) max_len); simpl in E1; [|done]. injection E1 as <-. by apply role_set. }
    intros [= <-]. rewrite <- H1. destruct (get_or_empty "content" m1); try done. destruct (too_long _ _); [by apply role_set|done].
  - destruct (role_is "user" m || role_is "tool" m); [|by intros [= <-]].
    destruct (get_or_empty "content" m) as [| | |s|l|]; try (by intros [= <-]).
    + intros [= <-]. destruct (too_long s max_len); [by apply role_set|done].
    + destruct (_compress_tool_results (JArr l) max_len); cbn [mbind option_bind]; [|done]. intros [= <-]. by apply role_set.
Qed.
(** The same number of messages in the same roles; the recent ones untouched. *)
Lemma compress_shape counter messages keep_recent max_len interval force out r :
  (compress_history counter messages keep_recent max_len interval force).2 = Some out ->
  map (role_is r) out = map (role_is r) messages /\
  drop (length messages - keep_recent) out = drop (length messages - keep_recent) messages.
Proof.
  unfold compress_history. simpl. destruct (negb force && _); [by intros [= <-]|].
  destruct (length messages <=? keep_recent)%nat; [by intros [= <-]|]. set (k := (length messages - keep_recent)%nat).
  destruct (mapM (compress_message max_len) (take k messages)) as [old|] eqn:E; simpl; [|done]. intros [= <-].
  apply mapM_Some in E. split.
  - rewrite <- (take_drop k messages) at 2. rewrite !map_app. f_equal. induction E as [|m m' l l' Hm _ IH]; simpl; [done|].
    by rewrite IH, (compress_role _ _ _ r Hm).
  - apply Forall2_length in E. rewrite length_take in E. rewrite drop_app_length'; [done|]. lia.
Qed.

(** *** What compression may change

    A text over a limit loses its middle. *)
Definition cut (limit : nat) (s s' : string) : Prop :=
  s' = s \/ (limit < length (chars_of s))%nat /\ exists head middle tail, s = head +++ middle +++ tail /\ s' = head +++ TRUNCATED +++ tail.
(** A text block loses the middle of its text, a call that of its arguments; a content
    is a text or a list of blocks. *)
Definition shortened_block (limit : nat) (b b' : json) : Prop :=
  b' = b \/ exists d s s', b = JObj d /\ dict_get "text" d = Some (JStr s) /\ cut limit s s' /\ b' = JObj (dict_set "text" (JStr s') d).
Definition shortened_call (limit : nat) (c c' : json) : Prop :=
  c' = c \/ exists d f f', c = JObj d /\ default (JObj []) (dict_get "function" d) = JObj f /\ c' = JObj (dict_set "function" (JObj f') d) /\
    (f' = f \/ exists s s', dict_get "arguments" f = Some (JStr s) /\ cut limit s s' /\ f' = dict_set "arguments" (JStr s') f).
Definition shortened_content (limit : nat) (v v' : json) : Prop :=
  (exists s s', v = JStr s /\ v' = JStr s' /\ (cut limit s s' \/ cut (limit * 2) s s')) \/
  (exists l l', v = JArr l /\ v' = JArr l' /\ Forall2 (shortened_block limit) l l').
Definition field_as (R : json -> json -> Prop) (o o' : option json) : Prop := o' = o \/ exists v v', o = Some v /\ o' = Some v' /\ R v v'.
Record shortened (limit : nat) (m m' : message) : Prop := {
  sh_others : forall k, k <> "content" -> k <> "tool_calls" -> dict_get k m' = dict_get k m;
  sh_content : field_as (shortened_content limit) (dict_get "content" m) (dict_get "content" m');
  sh_calls : field_as (fun v v' => exists l l', v = JArr l /\ v' = JArr l' /\ Forall2 (shortened_call limit) l l') (dict_get "tool_calls" m) (dict_get "tool_calls" m');
  sh_system : role_is "system" m = true -> m' = m;
}.
Lemma shortened_refl limit m : shortened limit m m.
Proof. split; [done|by left|by left|done]. Qed.
Lemma truncate_cut limit s : cut limit s (if too_long s limit then _truncate_tag_content s limit else s).
Proof.
  unfold too_long, _truncate_tag_content. destruct (Nat.leb_spec (length (chars_of s)) limit) as [H|H]; cbn [negb]; [by left|]. right. split; [done|].
  set (w := chars_of s) in *. set (half := (limit / 2)%nat). assert (Hs : s = unchars w) by (symmetry; apply unchars_chars).
  assert (Hh : (half + half <= limit)%nat) by (unfold half; pose proof (Nat.div_mod_eq limit 2); lia).
  exists (unchars (take half w)). destruct (Nat.eqb_spec half 0) as [E|E].
  - exists "", (unchars w). rewrite E, take_0. by split.
  - exists (unchars (take (length w - half - half) (drop half w))), (unchars (last_chars half w)). split; [|done].
    unfold last_chars. rewrite Hs at 1. rewrite <- !unchars_app. f_equal.
    rewrite <- (take_drop half w) at 1. f_equal. rewrite <- (take_drop (length w - half - half) (drop half w)) at 1. f_equal. rewrite drop_drop. f_equal. lia.
Qed.
Lemma call_shortened limit c c' : compress_call limit c = Some c' -> shortened_call limit c c'.
Proof.
  destruct c as [| | | | |d]; try done. simpl. destruct (default _ _) as [| | | | |f] eqn:Ef; try (intros [= <-]; left; reflexivity).
  intros [= <-]. right. eexists d, f, _. split; [done|]. split; [done|]. split; [done|].
  unfold get_or_empty. destruct (dict_get "arguments" f) as [[| | |a| |]|] eqn:Ea; simpl; try (left; done).
  pose proof (truncate_cut limit a) as Hc. destruct (too_long a limit); [right; by eexists _, _|by left].
Qed.
Lemma block_shortened limit b b' : compress_block limit b = Some b' -> shortened_block limit b b'.
Proof.
  destruct b as [| | | | |d]; try (intros [= <-]; left; reflexivity). simpl. destruct (type_is "text" d); [|intros [= <-]; by left].
  unfold get_or_empty. destruct (dict_get "text" d) as [[| | |s|l|o]|] eqn:Es; simpl; try done; try (intros [= <-]; left; reflexivity).
  - intros [= <-]. pose proof (truncate_cut limit s) as Hc. destruct (too_long s limit); [right; by eexists _, _, _|by left].
  - destruct (_ <=? _)%nat; [intros [= <-]; by left|done].
  - destruct (_ <=? _)%nat; [intros [= <-]; by left|done].
Qed.
(** A field set to a shortened value, the others as they are. *)
Lemma set_content_shortened limit m v v' : role_is "system" m = false -> dict_get "content" m = Some v -> shortened_content limit v v' ->
  shortened limit m (dict_set "content" v' m).
Proof.
  intros Hr Hv H. split; [| | |congruence].
  - intros k Hk _. by rewrite dict_get_set, decide_False.
  - right. exists v, v'. by rewrite dict_get_set, decide_True.
  - left. by rewrite dict_get_set, decide_False.
Qed.
Lemma text_shortened limit cap m s : (cap = limit \/ cap = limit * 2)%nat -> role_is "system" m = false -> get_or_empty "content" m = JStr s ->
  shortened limit m (if too_long s cap then dict_set "content" (JStr (_truncate_tag_content s cap)) m else m).
Proof.
  intros Hcap Hr Hs. pose proof (truncate_cut cap s) as Hc. destruct (too_long s cap) eqn:El; [|apply shortened_refl].
  unfold get_or_empty in Hs. destruct (dict_get "content" m) as [v|] eqn:E; simpl in Hs; [subst v|by injection Hs as <-].
  eapply set_content_shortened; [done..|]. left. eexists _, _. split; [done|]. split; [done|]. destruct Hcap as [->| ->]; [by left|by right].
Qed.
Lemma compress_shortened limit m m' : compress_message limit m = Some m' -> shortened limit m m'.
Proof.
  unfold compress_message. destruct (role_is "assistant" m) eqn:Ea.
  - assert (Hs : role_is "system" m = false) by by apply (role_other "assistant").
    destruct (match dict_get "tool_calls" m with Some (JArr (_ :: _)) => _ | _ => _ end) as [m1|] eqn:E1; simpl; [|done].
    assert (H1 : m1 = m \/ exists l l', dict_get "tool_calls" m = Some (JArr l) /\ m1 = dict_set "tool_calls" (JArr l') m /\ Forall2 (shortened_call limit) l l').
    { destruct (dict_get "tool_calls" m) as [[| | | |[|c l]|]|]; try (injection E1 as <-; left; reflexivity).
      destruct (_compress_tool_calls (c :: l) limit) as [l'|] eqn:El; simpl in E1; [|done]. injection E1 as <-. right. exists (c :: l), l'.
      split; [done|]. split; [done|]. apply mapM_Some in El. eapply Forall2_impl; [exact El|]. apply call_shortened. }
    intros [= <-]. destruct H1 as [->|(l & l' & Hl & -> & Hf)].
    + destruct (get_or_empty "content" m) as [| | |s| |] eqn:Ec; try apply shortened_refl. by apply text_shortened; [right|..].
    + set (m1 := dict_set "tool_calls" (JArr l') m).
      assert (H1 : shortened limit m1 (match get_or_empty "content" m1 with
        | JStr s => if too_long s (limit * 2) then dict_set "content" (JStr (_truncate_tag_content s (limit * 2))) m1 else m1 | _ => m1 end)).
      { destruct (get_or_empty "content" m1) as [| | |s| |] eqn:Ec; try apply shortened_refl. apply text_shortened; [by right|by unfold m1; rewrite role_set|done]. }
      set (m2 := match get_or_empty "content" m1 with JStr _ => _ | _ => _ end) in *. destruct H1 as [Ho Hc _ _].
      assert (Ht : dict_get "tool_calls" m2 = dict_get "tool_calls" m1).
      { unfold m2. destruct (get_or_empty "content" m1); try done. destruct (too_long _ _); [by rewrite dict_get_set, decide_False|done]. }
      split; [| | |congruence].
      * intros k Hk Hk'. rewrite Ho by done. unfold m1. by rewrite dict_get_set, decide_False.
      * unfold m1 in Hc. by rewrite dict_get_set, decide_False in Hc.
      * right. exists (JArr l), (JArr l'). split; [done|]. split; [|by eexists _, _]. rewrite Ht. unfold m1. by rewrite dict_get_set, decide_True.
  - destruct (role_is "user" m || role_is "tool" m) eqn:Eu; [|intros [= <-]; apply shortened_refl].
    assert (Hs : role_is "system" m = false).
    { apply orb_true_iff in Eu as [E|E]; [by apply (role_other "user")|by apply (role_other "tool")]. }
    destruct (get_or_empty "content" m) as [| | |s|l|] eqn:Ec; try (intros [= <-]; apply shortened_refl).
    + intros [= <-]. by apply text_shortened; [left|..].
    + simpl. destruct (mapM (compress_block limit) l) as [l'|] eqn:El; simpl; [|done]. intros [= <-].
      unfold get_or_empty in Ec. destruct (dict_get "content" m) as [v|] eqn:E; simpl in Ec; [subst v|done].
      eapply set_content_shortened; [done..|]. right. exists l, l'. split; [done|]. split; [done|]. apply mapM_Some in El.
      eapply Forall2_impl; [exact El|]. apply block_shortened.
Qed.

(** *** Summaries keep their marker

    The head of a summary the runtime writes, up to its marker. *)
Definition SUMMARY_HEAD : string :=
  "[Conversation summary generated by the runtime to preserve earlier " +++
  "context — not a new user request.]" +++ String "010" "<history_summary>".
Lemma head_char c s : exists w ws, chars_of (String c s) = String c w :: ws.
Proof. simpl. destruct (chars_of s) as [|[|c' w'] ws]; [by eexists _, _..|]. destruct (Stream.continuation c'); by eexists _, _. Qed.
(** A text before one that starts a new character keeps its characters. *)
Definition starts_char (s : string) : bool := match s with String c _ => negb (Stream.continuation c) | EmptyString => true end.
Lemma chars_app a b : starts_char b = true -> chars_of (a +++ b) = chars_of a ++ chars_of b.
Proof.
  intros Hb. induction a as [|c a IH]; [done|]. cbn [String.append chars_of]. rewrite IH.
  destruct a as [|c' a].
  - simpl. destruct b as [|x b]; [done|]. destruct (head_char x b) as (w & ws & ->). simpl in Hb. apply negb_true_iff in Hb. by rewrite Hb.
  - destruct (head_char c' a) as (w & ws & ->). simpl. by destruct (Stream.continuation c').
Qed.
(** A text cut in the middle keeps a head that fits in its first half. *)
Lemma truncate_head head rest limit : starts_char rest = true -> (2 * length (chars_of head) <= limit)%nat ->
  exists rest', _truncate_tag_content (head +++ rest) limit = head +++ rest'.
Proof.
  intros Hr Hl. unfold _truncate_tag_content. destruct (_ <=? limit)%nat; [by exists rest|].
  rewrite chars_app by done. rewrite take_app_ge by (apply Nat.div_le_lower_bound; lia).
  rewrite unchars_app, unchars_chars. rewrite append_assoc. by eexists.
Qed.
(** What trimming must not drop: system messages, summaries it leaves whole, and the
    summaries of the runtime when their marker fits in the first half of the limit. *)
Definition lasting (limit : nat) (m : message) : Prop :=
  role_is "system" m = true \/
  (_is_summary_message m = true /\ (length (chars_of (match get_or_empty "content" m with JStr s => s | _ => "" end)) <= limit)%nat) \/
  ((2 * length (chars_of SUMMARY_HEAD) <= limit)%nat /\ exists summary, m = _summary_message summary).
Lemma lasting_protected limit m : lasting limit m -> _is_protected m = true.
Proof.
  unfold _is_protected. intros [->|[[-> _]|(_ & s & ->)]]; [done|apply orb_true_r|]. apply orb_true_iff. right.
  change (str_contains "<history_summary>" (SUMMARY_HEAD +++ String "010" (s +++ String "010" "</history_summary>")) = true). apply contains_spec. exists ("[Conversation summary generated by the runtime to preserve earlier " +++ "context — not a new user request.]" +++ String "010" ""). by eexists.
Qed.
Lemma compress_lasting limit m m' : compress_message limit m = Some m' -> lasting limit m -> _is_protected m' = true.
Proof.
  intros Hm Hl. destruct (role_is "system" m) eqn:Er.
  { rewrite (sh_system _ _ _ (compress_shortened _ _ _ Hm) Er). by eapply lasting_protected. }
  destruct Hl as [H|[[Hs Hlen]|(Hlim & s & ->)]]; [congruence|..].
  - unfold _is_protected. apply orb_true_iff. right. unfold _is_summary_message in *. unfold compress_message in Hm.
    destruct (get_or_empty "content" m) as [| | |text| |] eqn:Ec; try done.
    assert (Hno : forall k, (limit <= k)%nat -> too_long text k = false) by (intros k Hk; unfold too_long; apply negb_false_iff, Nat.leb_le; lia).
    rewrite (Hno limit) in Hm by done. destruct (role_is "assistant" m).
    + destruct (match dict_get "tool_calls" m with Some (JArr (_ :: _)) => _ | _ => _ end) as [m1|] eqn:E1; simpl in Hm; [|done].
      assert (Hc : get_or_empty "content" m1 = JStr text).
      { destruct (dict_get "tool_calls" m) as [[| | | |[|c l]|]|]; try (injection E1 as <-; exact Ec).
        destruct (_compress_tool_calls (c :: l) limit); simpl in E1; [|done]. injection E1 as <-. unfold get_or_empty. by rewrite dict_get_set, decide_False. }
      rewrite Hc, (Hno (limit * 2)%nat) in Hm by lia. injection Hm as <-. by rewrite Hc.
    + destruct (role_is "user" m || role_is "tool" m); injection Hm as <-; by rewrite Ec.
  - unfold compress_message in Hm. change (role_is "assistant" (_summary_message s)) with false in Hm. change (role_is "user" (_summary_message s) || _) with true in Hm.
    cbv iota in Hm. cbn [orb] in Hm. set (text := SUMMARY_HEAD +++ String "010" (s +++ String "010" "</history_summary>")).
    assert (Hc : get_or_empty "content" (_summary_message s) = JStr text) by done. rewrite Hc in Hm. injection Hm as <-.
    destruct (too_long text limit); [|apply (lasting_protected limit); right; right; split; [done|by exists s]].
    unfold _is_protected. apply orb_true_iff. right. change (str_contains "<history_summary>" (_truncate_tag_content text limit) = true). unfold text.
    destruct (truncate_head SUMMARY_HEAD (String "010" (s +++ String "010" "</history_summary>")) limit eq_refl Hlim) as [rest ->].
    apply contains_left. by vm_compute.
Qed.

(** *** Trimming *)

(** The leading message is made plain: the results in a user's message become texts. *)
Definition plain_head (messages out : list message) : Prop :=
  out = messages \/ exists m rest l l', messages = m :: rest /\ role_is "user" m = true /\ dict_get "content" m = Some (JArr l) /\
    out = dict_set "content" (JArr l') m :: rest /\
    Forall2 (fun b b' => b' = b \/ exists d text, b = JObj d /\ type_is "tool_result" d = true /\
                                    b' = JObj [("type", JStr "text"); ("text", JStr ("[tool_result] " +++ text))]) l l'.
Lemma sanitize_plain messages out : _sanitize_leading_message py_str messages = Some out -> plain_head messages out.
Proof.
  destruct messages as [|m rest]; simpl; [intros [= <-]; by left|].
  destruct (get_or_empty "content" m) as [| | | |l|] eqn:Ec; try (intros [= <-]; left; reflexivity).
  destruct (role_is "user" m) eqn:Er; [|intros [= <-]; left; reflexivity]. destruct (mapM (plain_block py_str) l) as [l'|] eqn:El; simpl; [|done].
  intros [= <-]. right. unfold get_or_empty in Ec. destruct (dict_get "content" m) as [v|] eqn:E; simpl in Ec; [subst v|done].
  exists m, rest, l, l'. split_and!; try done. apply mapM_Some in El. eapply Forall2_impl; [exact El|]. intros b b' Hb. unfold plain_block in Hb.
  destruct b as [| | | | |d]; try (injection Hb as <-; left; reflexivity). destruct (type_is "tool_result" d) eqn:Et; [|injection Hb as <-; left; reflexivity].
  destruct (result_text _ _) as [text|]; simpl in Hb; [|done]. injection Hb as <-. right. by exists d, text.
Qed.
(** Messages that compression went over, the last four left out. *)
Record compressed_from (limit : nat) (messages short : list message) : Prop := {
  cf_shortened : Forall2 (shortened limit) messages short;
  cf_recent : drop (length messages - 4) short = drop (length messages - 4) messages;
  cf_lasting : forall i m, messages !! i = Some m -> lasting limit m -> exists m', short !! i = Some m' /\ _is_protected m' = true;
}.
Lemma compress_spec counter messages limit short : (compress_history counter messages 4 limit 5 true).2 = Some short -> compressed_from limit messages short.
Proof.
  intros H. destruct (compress_shape _ _ _ _ _ _ _ "system" H) as [_ Hrecent]. unfold compress_history in H. cbn [fst snd negb andb] in H.
  assert (Hsame : compressed_from limit messages messages).
  { split; [|done|intros i m Hi Hl; exists m; split; [done|by eapply lasting_protected]]. clear. induction messages; constructor; [apply shortened_refl|done]. }
  destruct (length messages <=? 4)%nat; [by injection H as <-|]. set (k := (length messages - 4)%nat) in *.
  destruct (mapM (compress_message limit) (take k messages)) as [old|] eqn:E; simpl in H; [|done]. injection H as <-. apply mapM_Some in E.
  split; [|exact Hrecent|].
  - rewrite <- (take_drop k messages) at 1. apply Forall2_app; [eapply Forall2_impl; [exact E|]; apply compress_shortened|].
    generalize (drop k messages). clear. intros l. induction l; constructor; [apply shortened_refl|done].
  - intros i m Hi Hl. assert (Hlen : length old = length (take k messages)) by (symmetry; by eapply Forall2_length).
    destruct (decide (i < length old)%nat) as [Hlt|Hge].
    + assert (Hi' : take k messages !! i = Some m) by (rewrite lookup_take, decide_True; [done|rewrite Hlen, length_take in Hlt; lia]).
      destruct (Forall2_lookup_l _ _ _ _ _ E Hi') as (m' & Hm' & Hc). exists m'. split; [by rewrite lookup_app_l|by eapply compress_lasting].
    + exists m. split; [|by eapply lasting_protected]. rewrite lookup_app_r by lia. rewrite lookup_drop, <- Hi. f_equal. rewrite Hlen in *. rewrite length_take in *. lia.
Qed.

End trim.

(** ** Rebuilding *)

Section rebuild.
Variable py_str : json -> string.
(** [str()] of a value that is not falsy is not empty. *)
Hypothesis str_nonempty : forall v, json_truthy v = true -> json_str_of py_str v <> "".

(** A call on the wire and its result. *)
Definition wire_call (id : string) (v : json) : Prop := exists rest, v = JObj (("id", JStr id) :: rest).
Definition wire_result (id : string) (v : json) : Prop := exists rest, v = JObj (("role", JStr "tool") :: ("tool_call_id", JStr id) :: rest).
Definition replayed (id : string) (p : json * json) : Prop := id <> "" /\ wire_call id p.1 /\ wire_result id p.2.

Lemma stored_id_nonempty row c func idx : stored_id py_str row c func idx <> "".
Proof.
  assert (Ht : forall k d x, truthy_field k d = Some x -> json_truthy x = true).
  { intros k d x. unfold truthy_field. destruct (dict_get k d) as [y|]; [|done]. destruct (json_truthy y) eqn:E; [by intros [= <-]|done]. }
  unfold stored_id. destruct (truthy_field "id" c) eqn:E; [eapply str_nonempty, Ht, E|].
  destruct (truthy_field "id" func) eqn:E'; [eapply str_nonempty, Ht, E'|done].
Qed.
Lemma replay_call_spec row results idx call p : replay_call py_str row results idx call = Some (Some p) -> exists id, replayed id p.
Proof.
  unfold replay_call. destruct call as [| | | | |c]; try done. destruct (finished c); [|done].
  destruct (result_at results idx) as [data|]; simpl; [|done]. intros H.
  assert (Hp : p = wire_pair py_str row c idx data) by (destruct data; congruence). subst p.
  eexists. split; [apply stored_id_nonempty|]. split; by eexists.
Qed.
Lemma replay_calls_spec row results idx calls pairs : replay_calls py_str row results idx calls = Some pairs ->
  exists ids, Forall2 replayed ids pairs.
Proof.
  revert idx pairs. induction calls as [|c calls IH]; intros idx pairs; simpl; [intros [= <-]; by exists []|].
  destruct (replay_call py_str row results idx c) as [r|] eqn:E; simpl; [|done].
  destruct (replay_calls py_str row results (S idx) calls) as [rest|] eqn:E'; simpl; [|done]. intros [= <-].
  destruct (IH _ _ E') as [ids Hids]. destruct r as [p|]; simpl; [|by exists ids].
  destruct (replay_call_spec _ _ _ _ _ E) as [id Hid]. exists (id :: ids). by constructor.
Qed.

(** *** Whole groups *)

Definition boundary (l : list json) : Prop :=
  match l with [] => True | m :: _ => exists d, m = JObj d /\ role_is "tool" d = false /\ is_notice m = false end.
Definition answers (want : list json) (m : json) : Prop :=
  exists d, m = JObj d /\ role_is "tool" d = true /\ member (default JNull (dict_get "tool_call_id" d)) want = Some true.
(** Conversations the repacking leaves alone: a group of calls is followed by all its
    results at once. *)
Inductive whole : list json -> Prop :=
| whole_nil : whole []
| whole_message m l : opens m = Some None -> whole l -> whole (m :: l)
| whole_calls m want results l : opens m = Some (Some want) -> Forall (answers want) results -> boundary l -> whole l ->
    whole (m :: results ++ l).
Lemma take_boundary g m l : boundary (m :: l) -> take_message g m = Some None.
Proof. intros (d & -> & Ht & Hn). unfold take_message. by rewrite Ht, Hn. Qed.
Lemma whole_group want rs ts l : Forall (answers want) ts -> boundary l -> repack_loop None l = Some (l, false) ->
  repack_loop (Some (Group want rs [] false)) (ts ++ l) = Some (rs ++ ts ++ l, false).
Proof.
  intros HF Hb Hl. revert rs. induction HF as [|t ts (d & -> & Ht & Hm) _ IH]; intros rs; simpl.
  - destruct l as [|m l]; [done|]. simpl repack_loop. rewrite (take_boundary _ _ l Hb). cbn [mbind option_bind]. simpl in Hl.
    destruct (opens m) as [want'|]; simpl in *; [|done]. destruct (repack_loop (open_group want') l) as [[out c]|]; simpl in *; [|done].
    injection Hl as -> ->. done.
  - rewrite Ht, Hm. simpl. rewrite IH. by rewrite <- app_assoc.
Qed.
Lemma whole_repacked l : whole l -> repack_loop None l = Some (l, false).
Proof.
  induction 1 as [|m l Hm _ IH|m want results l Hm HF Hb _ IH]; simpl; [done|by rewrite Hm; simpl; rewrite IH|].
  rewrite Hm. simpl. by rewrite (whole_group want [] results l HF Hb IH).
Qed.

(** *** Rows *)

(** The messages of a row: their identifiers are paired and all of them stay. *)
Record row_ok (l ids : list json) : Prop := RowOk {
  row_ids : collect_ids l = Some (ids, ids);
  row_strings : Forall (fun v => exists s, v = JStr s) ids;
  row_stays : forall keep, (forall v, v ∈ ids -> mem v keep = true) -> Forall (fun m => cleaned keep m = Some ([m], false)) l;
  row_whole : forall rest, boundary rest -> whole rest -> whole (l ++ rest) /\ boundary (l ++ rest);
}.
Lemma row_ok_nil : row_ok [] [].
Proof. by constructor. Qed.
Lemma row_ok_app a ia b ib : row_ok a ia -> row_ok b ib -> row_ok (a ++ b) (ia ++ ib).
Proof.
  intros [Ha Sa Ka Wa] [Hb Sb Kb Wb]. constructor.
  - rewrite collect_app, Ha, Hb. done.
  - by apply Forall_app.
  - intros keep Hk. apply Forall_app. split; [apply Ka|apply Kb]; intros v Hv; apply Hk, elem_of_app; auto.
  - intros rest Hr Hw. rewrite <- app_assoc. destruct (Wb rest Hr Hw). by apply Wa.
Qed.
Lemma plain_row_ok d : role_is "tool" d = false -> role_is "system" d = false -> role_is "developer" d = false ->
  dict_get "tool_calls" d = None -> row_ok [JObj d] [].
Proof.
  intros Ht Hs Hd Hc. constructor.
  - simpl. rewrite Ht, Hc. by destruct (role_is "assistant" d).
  - constructor.
  - intros keep _. constructor; [|constructor]. simpl. by rewrite Ht, Hc.
  - intros rest Hr Hw. split; [|exists d; simpl; by rewrite Hs, Hd]. simpl. constructor; [|done]. simpl. rewrite Hc. by destruct (role_is "assistant" d).
Qed.
Lemma wire_ids ids pairs : Forall2 replayed ids pairs -> ids_of_calls pairs.*1 = Some (JStr <$> ids).
Proof.
  induction 1 as [|id [w t] ids pairs (Hne & [rest Hw] & _) _ IH]; [done|]. csimpl in *. subst w. unfold truthy_field. simpl.
  destruct id as [|c id]; [done|]. simpl. by rewrite IH.
Qed.
Lemma results_ids ids pairs : Forall2 replayed ids pairs -> collect_ids pairs.*2 = Some ([], JStr <$> ids).
Proof.
  induction 1 as [|id [w t] ids pairs (Hne & _ & [rest Ht]) _ IH]; [done|]. csimpl in *. subst t. unfold role_is, truthy_field. simpl.
  destruct id as [|c id]; [done|]. simpl. by rewrite IH.
Qed.
Lemma wire_kept keep ids pairs : Forall2 replayed ids pairs -> (forall v, v ∈ JStr <$> ids -> mem v keep = true) ->
  kept_calls keep pairs.*1 = Some pairs.*1.
Proof.
  induction 1 as [|id [w t] ids pairs (Hne & [rest Hw] & _) _ IH]; intros Hk; [done|]. csimpl in *. subst w.
  unfold member. simpl. rewrite (Hk (JStr id)) by by left. simpl. rewrite IH; [done|]. intros v Hv. apply Hk. by right.
Qed.
Lemma results_answer want ids pairs : Forall2 replayed ids pairs -> (forall v, v ∈ JStr <$> ids -> mem v want = true) ->
  Forall (answers want) pairs.*2.
Proof.
  induction 1 as [|id [w t] ids pairs (Hne & _ & [rest Ht]) _ IH]; intros Hk; csimpl in *; constructor.
  - subst t. eexists. split; [done|]. split; [done|]. unfold member. simpl. by rewrite (Hk (JStr id)) by by left.
  - apply IH. intros v Hv. apply Hk. by right.
Qed.
Lemma mem_self v ids : proper v -> v ∈ ids -> mem v ids = true.
Proof. intros Hv Hin. apply mem_spec. by exists v. Qed.
Lemma strings_mem (ids : list string) v : v ∈ JStr <$> ids -> mem v (JStr <$> ids) = true.
Proof. intros Hv. apply mem_self; [|done]. apply list_elem_of_fmap in Hv as (s & -> & _). apply proper_str. Qed.
Lemma collect_cons m l c r cs rs c' r' : calls_in m = Some c -> result_in m = Some r -> collect_ids l = Some (cs, rs) ->
  c' = c ++ cs -> r' = r ++ rs -> collect_ids (m :: l) = Some (c', r').
Proof. simpl. by intros -> -> -> -> ->. Qed.
(** An assistant turn with its calls and their results. *)
Lemma calls_row_ok content ids pairs : Forall2 replayed ids pairs -> pairs <> [] ->
  row_ok (JObj ([("role", JStr "assistant"); ("content", content)] ++ [("tool_calls", JArr pairs.*1)]) :: pairs.*2) (JStr <$> ids).
Proof.
  intros HF Hne. set (d := [("role", JStr "assistant"); ("content", content)] ++ [("tool_calls", JArr pairs.*1)]).
  assert (Hcalls : exists c l, pairs.*1 = c :: l) by (destruct pairs as [|[w t] pairs]; [done|by eexists _, _]).
  destruct Hcalls as (c & l & Hcl). pose proof (wire_ids _ _ HF) as Hids. pose proof (results_ids _ _ HF) as Hres.
  constructor.
  - apply (collect_cons _ _ (JStr <$> ids) [] [] (JStr <$> ids)); [|done|done|by rewrite app_nil_r|done].
    unfold calls_in, d, role_is. simpl. rewrite Hcl in *. exact Hids.
  - apply Forall_fmap, Forall_true. intros s. by exists s.
  - intros keep Hk. constructor.
    + unfold cleaned, d, role_is. simpl. rewrite Hcl. rewrite <- Hcl. rewrite (wire_kept keep ids pairs HF Hk). cbn [mbind option_bind].
      by rewrite Nat.eqb_refl.
    + pose proof (results_answer keep ids pairs HF Hk) as Ha. eapply Forall_impl; [exact Ha|].
      intros m (e & -> & Ht & Hm). unfold cleaned. by rewrite Ht, Hm.
  - intros rest Hr Hw. split; [|exists d; by unfold role_is]. apply (whole_calls _ (JStr <$> ids)); [|apply (results_answer _ ids pairs HF), strings_mem|done|done].
    unfold opens, d, role_is. simpl. rewrite Hcl in *. cbn -[ids_of_calls]. by rewrite Hids.
Qed.

(** *** The history *)

Definition row_role (row : message) : json := or_value (JStr "user") (dict_get "role" row).
Definition talk (row : message) : Prop := row_role row = JStr "user" \/ row_role row = JStr "assistant".
Lemma replay_row_ok row l : talk row -> replay_row py_str row = Some l -> exists ids, row_ok l ids.
Proof.
  unfold talk, row_role, replay_row. intros [->| ->].
  - intros [= <-]. exists []. by apply plain_row_ok.
  - destruct (stored_calls _) as [calls|]; simpl; [|done]. destruct (replay_calls py_str row _ 0 calls) as [pairs|] eqn:E; simpl; [|done].
    destruct (replay_calls_spec _ _ _ _ _ E) as [ids HF]. destruct pairs as [|p pairs]; intros [= <-].
    + exists []. destruct (json_truthy _); [by apply plain_row_ok|apply row_ok_nil].
    + exists (JStr <$> ids). by apply (calls_row_ok _ ids (p :: pairs)).
Qed.
Lemma rows_ok skip history rows : Forall talk history ->
  mapM (fun row => if skipped skip row then Some [] else replay_row py_str row) history = Some rows -> exists ids, row_ok (concat rows) ids.
Proof.
  intros HT Hm. apply mapM_Some in Hm. revert HT. induction Hm as [|row l history rows Hrow _ IH]; intros HT; [exists []; apply row_ok_nil|].
  inversion HT as [|? ? Ht HT']; subst. destruct (IH HT') as [ids' Hids]. simpl.
  assert (exists ids, row_ok l ids) as [ids Hok]
    by (destruct (skipped skip row); [injection Hrow as <-; exists []; apply row_ok_nil|by eapply replay_row_ok]).
  eexists. by apply row_ok_app.
Qed.
Lemma effective_talk history : Forall talk history -> Forall talk (effective_history history).
Proof.
  intros H. unfold effective_history. assert (Hl : forall l, last_summary history = Some l -> Forall talk l).
  { induction H as [|m history Hm H IH]; intros l; simpl; [done|]. destruct (last_summary history) as [l'|]; [intros [= <-]; by apply IH|].
    destruct (_is_summary_message m); [|done]. intros [= <-]. by constructor. }
  destruct (last_summary history) as [l|]; [by apply Hl|done].
Qed.
Lemma filter_same {A} (f : A -> bool) (l : list A) : (forall x, x ∈ l -> f x = true) -> List.filter f l = l.
Proof.
  induction l as [|x l IH]; intros H; [done|]. simpl. rewrite H by by left. f_equal. apply IH. intros y Hy. apply H. by right.
Qed.
Lemma cleanup_loop_stays keep l : Forall (fun m => cleaned keep m = Some ([m], false)) l -> cleanup_loop keep l = Some (l, false).
Proof. induction 1 as [|m l Hm _ IH]; simpl; [done|]. by rewrite Hm; simpl; rewrite IH. Qed.

(** A history rebuilt from rows of users and assistants needs no repair: every call is
    followed by its result at once, no call or result is alone, and the repair before
    a request is sent gives it back unchanged. *)
Lemma rebuilt_needs_no_repair history skip prompt out : Forall talk history ->
  rebuild_history_messages py_str history skip prompt = Some out -> repair out = Some out.
Proof.
  intros HT. unfold rebuild_history_messages.
  destruct (mapM _ (effective_history history)) as [rows|] eqn:Em; cbn [mbind option_bind]; [|done]. intros [= <-].
  destruct (rows_ok _ _ _ (effective_talk _ HT) Em) as [ids [Hids Hstr Hstay Hwhole]].
  set (front := if str_truthy prompt then _ else _).
  assert (Hfront : forall l, collect_ids (front ++ l) = collect_ids l /\ (whole l -> whole (front ++ l)) /\
    (forall keep, Forall (fun m => cleaned keep m = Some ([m], false)) l -> Forall (fun m => cleaned keep m = Some ([m], false)) (front ++ l))).
  { intros l. subst front. destruct (str_truthy prompt); [|done]. split; [simpl; by destruct (collect_ids l) as [[]|]|].
    split; [intros Hl; by apply whole_message|]. intros keep Hl. by constructor. }
  destruct (Hfront (concat rows)) as (Hc & Hw & Hs). destruct (Hwhole [] I whole_nil) as [Hall _]. rewrite app_nil_r in Hall.
  unfold repair, repack_tool_result_blocks. rewrite (whole_repacked _ (Hw Hall)).
  assert ((if (length (front ++ concat rows) <? 3)%nat then Some (front ++ concat rows) else
    '(out, changed) ← Some (front ++ concat rows, false); Some (if changed : bool then out else front ++ concat rows)) = Some (front ++ concat rows))
    as -> by by destruct (_ <? 3)%nat.
  simpl. unfold cleanup_orphan_tool_calls. rewrite Hc, Hids. simpl. destruct ids as [|v ids]; [done|].
  assert (Hm : forall w, w ∈ v :: ids -> mem w (v :: ids) = true).
  { intros w Hw'. apply mem_self; [|done]. rewrite Forall_forall in Hstr. destruct (Hstr w Hw') as [s ->]. apply proper_str. }
  rewrite (filter_same _ _ Hm). by rewrite (cleanup_loop_stays _ _ (Hs _ (Hstay _ Hm))).
Qed.
End rebuild.

(** ** Samples *)

Module ContextSample.
Definition str_of (v : json) : string := match v with JStr s => s | v => dump_value v +++ " " end.
Definition say (role text : string) : message := [("role", JStr role); ("content", JStr text)].
Definition call (id status : string) : json :=
  JObj [("id", JStr id); ("name", JStr "read"); ("args", JObj [("path", JStr "a")]); ("status", JStr status)].
(** Two finished calls, one still running: only the finished ones are replayed. *)
Definition history : list message :=
  [say "user" "old"; say "user" "<history_summary>"; say "user" "go";
   [("role", JStr "assistant"); ("content", JStr "ok"); ("tool_calls", JArr [call "a" "done"; call "b" "running"; call "c" "done"]);
    ("tool_results", JArr [JStr "ra"; JNull; JObj [("n", JNum "1")]])];
   say "assistant" ""].
Definition rebuilt : list json := default [] (rebuild_history_messages str_of history None "be brief").
Example rebuilt_history : (fun m => match m with JObj d => (or_value JNull (dict_get "role" d), or_value JNull (dict_get "tool_call_id" d)) | _ => (JNull, JNull) end) <$> rebuilt =
  [(JStr "system", JNull); (JStr "user", JNull); (JStr "user", JNull); (JStr "assistant", JNull); (JStr "tool", JStr "a"); (JStr "tool", JStr "c")].
Proof. vm_compute. reflexivity. Qed.
Lemma str_of_nonempty v : json_truthy v = true -> json_str_of str_of v <> "".
Proof.
  destruct v as [|[]|t|s|l|d]; simpl; try done.
  - intros H. destruct (int_literal t) eqn:E; [by intros ->|]. destruct t; done.
  - by destruct s.
Qed.
Lemma rebuilt_needs_no_repair_witness : repair rebuilt = Some rebuilt.
Proof.
  apply (rebuilt_needs_no_repair str_of str_of_nonempty history None "be brief" rebuilt); [|vm_compute; reflexivity].
  repeat constructor; solve [by left|by right].
Defined.

(** Thirteen messages after a system prompt, over a budget of nothing. *)
Definition calls_message (id : string) : message :=
  [("role", JStr "assistant"); ("content", JStr ""); ("tool_calls", JArr [JObj [("id", JStr id); ("function", JObj [])]])].
Definition result_message (id : string) : message := [("role", JStr "tool"); ("tool_call_id", JStr id); ("content", JStr "ok")].
Definition long_talk : list message :=
  say "system" "rules" :: say "user" "go" :: calls_message "a" :: result_message "a" :: (say "user" <$> ["1"; "2"; "3"; "4"; "5"; "6"; "7"; "8"]).
Definition trimmed : list message := default [] (trim_messages str_of 0 long_talk 0 0 800).2.
(** The default limit is enough for the summaries of the runtime; a limit of 100 is not:
    an old summary loses its marker and then goes like any other message. *)
Lemma default_limit_enough : (2 * length (chars_of SUMMARY_HEAD) <= 800)%nat.
Proof. apply Nat.leb_le. by vm_compute. Qed.
Definition summarized : list message :=
  _summary_message "the user asked for a report of last year and got the first half of it" :: (say "user" <$> ["1"; "2"; "3"; "4"; "5"; "6"; "7"; "8"; "9"; "10"]).
Lemma short_limit_drops_summary :
  existsb _is_summary_message summarized = true /\
  existsb _is_summary_message (default [] (trim_messages str_of 0 summarized 0 0 100).2) = false /\
  existsb _is_summary_message (default [] (trim_messages str_of 0 summarized 0 0 800).2) = true.
Proof. by vm_compute. Qed.
(** With a system prompt in front the loop that drops what belongs to a dropped call
    looks at the prompt only: the result stays, without its call. *)
Lemma trim_orphans_result : exists rest, trimmed = say "system" "rules" :: result_message "a" :: rest.
Proof. eexists. vm_compute. reflexivity. Qed.

(** Thirty messages give way to a summary of the first twenty-four of them. *)
Definition numbers : list message := (fun i => say "user" (tostring (Z.of_nat i))) <$> seq 1 45.
Definition summarize (l : list message) : option string := Some (join "," ((fun m => str_of (get_or_empty "content" m)) <$> l)).
Lemma summary_misses_messages :
  _plan_dropped_prefix str_of numbers 30 10 = (take 30 numbers, 30%nat) /\
  summarize (take _SUMMARY_BATCH_LIMIT numbers) = Some "1,2,3,4,5,6,7,8,9,10,11,12,13,14,15,16,17,18,19,20,21,22,23,24" /\
  drop 1 (with_summary str_of summarize numbers 30 10) = drop 30 numbers.
Proof. vm_compute. repeat split; reflexivity. Qed.
End ContextSample.
