(* ===== verification/Graph.v ===== *)
(** agent/workflow.py, the graph of a workflow: edges, ancestors and descendants, the
    check for cycles, the layers in which nodes run, and the bodies of loops.

    Node identifiers are the keys of [by_id]; None is WorkflowDefError.  Loops that
    recur over the graph carry fuel, and the bounds they are given are enough (see
    GraphProps). *)
From S2P Require Import Prelude Json Text.

Record edge := Edge { e_source : string; e_target : string; e_when : string }.

Section edges_of.
Variable py_str : json -> string.

(** [str(v or "").strip()] *)
Definition field_text (k : string) (d : list (string * json)) : string := strip (get_text py_str d k).
Definition edge_of (by_id : list string) (e : json) : option edge :=
  match e with
  | JObj d =>
      let source := field_text "source" d in
      let target := field_text "target" d in
      if negb (bool_decide (source ∈ by_id)) || negb (bool_decide (target ∈ by_id)) || String.eqb source target then None
      else Some (Edge source target (field_text "when" d))
  | _ => None
  end.
Definition _edges_of (raw : option json) (by_id : list string) : option (list edge) :=
  match raw with
  | None | Some JNull => Some []
  | Some (JArr l) => mapM (edge_of by_id) l
  | Some _ => None
  end.
End edges_of.

(** ** Reachability *)

Section closure.
(** Along edges from their [near] end to their [far] end. *)
Variables near far : edge -> string.

Definition neighbours (edges : list edge) (n : string) : list string := far <$> List.filter (fun e => String.eqb (near e) n) edges.
(** The stack loop: what was pushed last is popped first. *)
Fixpoint closure_loop (fuel : nat) (edges : list edge) (stack seen : list string) : list string :=
  match fuel, stack with
  | S fuel', n :: stack' =>
      if bool_decide (n ∈ seen) then closure_loop fuel' edges stack' seen
      else closure_loop fuel' edges (rev (neighbours edges n) ++ stack') (n :: seen)
  | _, _ => seen
  end.
Definition closure (edges : list edge) (n : string) : list string :=
  let stack := rev (neighbours edges n) in closure_loop (length stack + length edges) edges stack [].
End closure.

(** [incoming.get(n, [])] and [outgoing.get(n, [])] *)
Abbreviation sources := (neighbours e_target e_source).
Abbreviation targets := (neighbours e_source e_target).
Definition _ancestors (edges : list edge) (n : string) : list string := closure e_target e_source edges n.
Definition _descendants (edges : list edge) (n : string) : list string := closure e_source e_target edges n.

(** ** Cycles *)

(** What a visit ends with: the finished nodes, a cycle, or no fuel. *)
Inductive visited := Finished (done : list string) | Cyclic | NoFuel.
(** A [for] loop of visits; what it raises ends it. *)
Fixpoint visit_list (visit : string -> list string -> visited) (l done : list string) : visited :=
  match l with
  | [] => Finished done
  | n :: l' => match visit n done with Finished done' => visit_list visit l' done' | r => r end
  end.
(** [visit]: [visiting] are the nodes in state 0, [done] those in state 1. *)
Fixpoint visit (fuel : nat) (edges : list edge) (visiting : list string) (n : string) (done : list string) : visited :=
  if bool_decide (n ∈ done) then Finished done
  else if bool_decide (n ∈ visiting) then Cyclic
  else match fuel with
       | O => NoFuel
       | S fuel' =>
           match visit_list (visit fuel' edges (n :: visiting)) (sources edges n) done with
           | Finished done' => Finished (n :: done')
           | r => r
           end
       end.
Definition _check_acyclic (edges : list edge) (ids : list string) : bool :=
  match visit_list (visit (length ids) edges []) ids [] with Finished _ => true | _ => false end.

(** ** Layers *)

Fixpoint insert_id (n : string) (l : list string) : list string :=
  match l with
  | [] => [n]
  | m :: l' => if String.leb n m then n :: l else m :: insert_id n l'
  end.
(** [sorted(...)] *)
Definition sort_ids (l : list string) : list string := foldr insert_id [] l.
Definition ready (edges : list edge) (done : list string) (n : string) : bool :=
  forallb (fun d => bool_decide (d ∈ done)) (sources edges n).
Fixpoint layers_loop (fuel : nat) (edges : list edge) (remaining done : list string) : option (list (list string)) :=
  match remaining, fuel with
  | [], _ => Some []
  | _, O => None
  | _, S fuel' =>
      match sort_ids (List.filter (ready edges done) remaining) with
      | [] => None
      | layer => rest ← layers_loop fuel' edges (List.filter (fun n => negb (bool_decide (n ∈ layer))) remaining) (done ++ layer);
                 Some (layer :: rest)
      end
  end.
Definition topo_layers (edges : list edge) (ids : list string) : option (list (list string)) := layers_loop (length ids) edges ids [].

(** ** Loop bodies *)

(** Loops that are in no other loop's body; everything below them is a body. *)
Definition top_loops (edges : list edge) (headers : list string) : list string :=
  List.filter (fun h => negb (existsb (fun o => negb (String.eqb o h) && bool_decide (h ∈ _descendants edges o)) headers)) headers.
Definition _loop_body_nodes (edges : list edge) (headers : list string) : list string :=
  top_loops edges headers ≫= _descendants edges.
