(* ===== verification/GraphProps.v ===== *)
(** The graph of a workflow: reachability is the transitive closure of the edges, the
    check for cycles is exact, and the layers are a schedule: they hold every node once,
    after all of its sources. *)
From S2P Require Import Prelude Json Text Graph.

(** ** Reachability *)

Section closure.
Variables near far : edge -> string.
Abbreviation step := (fun edges n m => m ∈ neighbours near far edges n).

Lemma elem_of_neighbours edges n m : m ∈ neighbours near far edges n <-> exists e, e ∈ edges /\ near e = n /\ far e = m.
Proof.
  unfold neighbours. rewrite list_elem_of_fmap. split.
  - intros (e & -> & [He Hn]%list_elem_of_In%filter_In). apply String.eqb_eq in Hn. apply list_elem_of_In in He. by exists e.
  - intros (e & He & <- & <-). exists e. split; [done|]. apply list_elem_of_In, filter_In. split; [by apply list_elem_of_In|apply String.eqb_refl].
Qed.

(** Edges whose near end was not seen yet. *)
Definition open_edges (edges : list edge) (seen : list string) : nat :=
  length (List.filter (fun e => negb (bool_decide (near e ∈ seen))) edges).
Lemma open_edges_visit edges n seen : n ∉ seen ->
  open_edges edges seen = (open_edges edges (n :: seen) + length (neighbours near far edges n))%nat.
Proof.
  intros Hn. unfold open_edges, neighbours. rewrite length_fmap. induction edges as [|e edges IH]; [done|]. simpl.
  destruct (String.eqb_spec (near e) n) as [->|Hne].
  - rewrite bool_decide_eq_false_2 by done. rewrite bool_decide_eq_true_2 by (rewrite elem_of_cons; by left). simpl. lia.
  - destruct (decide (near e ∈ seen)) as [Hs|Hs].
    + rewrite !bool_decide_eq_true_2; [exact IH|rewrite elem_of_cons; by right|done].
    + rewrite !bool_decide_eq_false_2; [simpl; lia|rewrite elem_of_cons; by intros [?|?]|done].
Qed.

(** What the loop keeps: everything seen or stacked is reachable, everything one step
    from the start or from a seen node is seen or stacked. *)
Definition covers (edges : list edge) (n : string) (stack seen : list string) : Prop :=
  (forall m, m ∈ stack \/ m ∈ seen -> tc (step edges) n m) /\
  (forall m, step edges n m -> m ∈ stack \/ m ∈ seen) /\
  (forall x m, x ∈ seen -> step edges x m -> m ∈ stack \/ m ∈ seen).
Lemma covers_skip edges n x stack seen : x ∈ seen -> covers edges n (x :: stack) seen -> covers edges n stack seen.
Proof.
  intros Hx (H1 & H2 & H3). assert (Hs : forall m, m ∈ x :: stack \/ m ∈ seen -> m ∈ stack \/ m ∈ seen).
  { intros m [[->|Hm]%elem_of_cons|Hm]; auto. }
  split; [intros m [Hm|Hm]; apply H1; [left; by right|by right]|split; eauto].
Qed.
Lemma covers_visit edges n x stack seen : covers edges n (x :: stack) seen ->
  covers edges n (rev (neighbours near far edges x) ++ stack) (x :: seen).
Proof.
  intros (H1 & H2 & H3). assert (Hx : tc (step edges) n x) by (apply H1; left; by left).
  assert (Hrev : forall m, m ∈ rev (neighbours near far edges x) <-> step edges x m).
  { intros m. by rewrite !list_elem_of_In, <- in_rev. }
  assert (Hs : forall m, m ∈ x :: stack \/ m ∈ seen -> m ∈ rev (neighbours near far edges x) ++ stack \/ m ∈ x :: seen).
  { intros m. rewrite elem_of_app, !elem_of_cons. tauto. }
  split; [|split].
  - intros m. rewrite elem_of_app, elem_of_cons, Hrev. intros [[Hm|Hm]|[->|Hm]]; [|apply H1; left; by right|done|apply H1; by right].
    by eapply tc_r.
  - eauto.
  - intros y m [->|Hy]%elem_of_cons Hm; [left; rewrite elem_of_app, Hrev; by left|eauto].
Qed.
Lemma closure_loop_covers edges n fuel stack seen : covers edges n stack seen ->
  (length stack + open_edges edges seen <= fuel)%nat -> covers edges n [] (closure_loop near far fuel edges stack seen).
Proof.
  revert stack seen. induction fuel as [|fuel IH]; intros [|x stack] seen Hc Hf; try exact Hc; simpl in Hf; [lia|].
  simpl. case_bool_decide as Hx.
  - apply IH; [by eapply covers_skip|lia].
  - apply IH; [by apply covers_visit|]. rewrite length_app, length_rev. rewrite (open_edges_visit edges x seen Hx) in Hf. lia.
Qed.
Lemma elem_of_closure edges n m : m ∈ closure near far edges n <-> tc (step edges) n m.
Proof.
  destruct (closure_loop_covers edges n (length (rev (neighbours near far edges n)) + length edges) (rev (neighbours near far edges n)) [])
    as (H1 & H2 & H3).
  - assert (Hrev : forall k, k ∈ rev (neighbours near far edges n) <-> step edges n k) by (intros k; by rewrite !list_elem_of_In, <- in_rev).
    split; [|split].
    + intros k [Hk|Hk]; [by apply tc_once, Hrev|by apply not_elem_of_nil in Hk].
    + intros k Hk. left. by apply Hrev.
    + intros x k Hx. by apply not_elem_of_nil in Hx.
  - unfold open_edges. apply Nat.add_le_mono_l. apply List.filter_length_le.
  - fold (closure near far edges n) in *. split; [intros Hm; apply H1; by right|].
    assert (Hin : forall a, a ∈ [] \/ a ∈ closure near far edges n -> a ∈ closure near far edges n).
    { intros a [Ha|Ha]; [by apply not_elem_of_nil in Ha|done]. }
    assert (Hcl : forall a b, tc (step edges) a b -> a ∈ closure near far edges n -> b ∈ closure near far edges n).
    { intros a b Hab. induction Hab as [a b Hab|a b c Hab _ IH]; intros Ha; [apply Hin; eauto|apply IH, Hin; eauto]. }
    intros Hm. destruct Hm as [n m Hm|n k m Hk Hkm]; [apply Hin; eauto|].
    eapply Hcl; [exact Hkm|apply Hin; eauto].
Qed.
Lemma closure_loop_NoDup fuel edges stack seen : NoDup seen -> NoDup (closure_loop near far fuel edges stack seen).
Proof.
  revert stack seen. induction fuel as [|fuel IH]; intros [|n stack] seen Hs; simpl; try done.
  case_bool_decide; [by apply IH|]. apply IH. by apply NoDup_cons.
Qed.
Lemma closure_NoDup edges n : NoDup (closure near far edges n).
Proof. apply closure_loop_NoDup. constructor. Qed.
End closure.

(** ** Cycles *)

(** [n] has [m] among its sources. *)
Definition source_of (edges : list edge) (n m : string) : Prop := m ∈ sources edges n.
Definition acyclic (edges : list edge) : Prop := forall n, ~ tc (source_of edges) n n.
(** Both ends of every edge are nodes. *)
Definition edges_within (ids : list string) (edges : list edge) : Prop :=
  Forall (fun e => e_source e ∈ ids /\ e_target e ∈ ids) edges.
Lemma source_of_edge edges n m : source_of edges n m <-> exists e, e ∈ edges /\ e_target e = n /\ e_source e = m.
Proof. apply elem_of_neighbours. Qed.
Lemma source_of_within ids edges n m : edges_within ids edges -> source_of edges n m -> n ∈ ids /\ m ∈ ids.
Proof. intros Hw (e & He & <- & <-)%source_of_edge. unfold edges_within in Hw. rewrite Forall_forall in Hw. destruct (Hw e He). by split. Qed.
Lemma tc_source_within ids edges n m : edges_within ids edges -> tc (source_of edges) n m -> n ∈ ids /\ m ∈ ids.
Proof.
  intros Hw Ht. induction Ht as [n m Hs|n k m Hs _ [_ IH]]; [by eapply source_of_within|].
  split; [by destruct (source_of_within _ _ _ _ Hw Hs)|done].
Qed.

(** What a finished visit leaves: finished nodes have finished sources and are on no cycle. *)
Definition settled (edges : list edge) (fin : list string) : Prop :=
  (forall n m, n ∈ fin -> source_of edges n m -> m ∈ fin) /\ (forall n, n ∈ fin -> ~ tc (source_of edges) n n).
Lemma settled_tc edges fin n m : settled edges fin -> n ∈ fin -> tc (source_of edges) n m -> m ∈ fin.
Proof. intros [H1 _] Hn Ht. induction Ht; eauto. Qed.
#[export] Instance settled_proper edges : Proper (Permutation ==> iff) (settled edges).
Proof. intros a b Hab. unfold settled. by setoid_rewrite Hab. Qed.
Lemma settled_cons edges fin n : settled edges fin -> (forall m, source_of edges n m -> m ∈ fin) -> settled edges (n :: fin).
Proof.
  intros Hs Hn. destruct Hs as [H1 H2]. split.
  - intros a m [->|Ha]%elem_of_cons Hm; apply elem_of_cons; right; eauto.
  - intros a [->|Ha]%elem_of_cons; [|by apply H2]. destruct (decide (n ∈ fin)) as [Hd|Hd]; [by apply H2|].
    intros Ht. apply Hd. inversion Ht as [? ? Hm|? k ? Hm Hk]; subst; [by apply Hn|].
    eapply settled_tc; [split; eauto| |exact Hk]. by apply Hn.
Qed.

Definition visit_ok (edges : list edge) (fin : list string) (want : list string) (r : visited) : Prop :=
  match r with
  | Finished fin' => settled edges fin' /\ fin ⊆ fin' /\ want ⊆ fin'
  | Cyclic => exists n, tc (source_of edges) n n
  | NoFuel => False
  end.
Lemma visit_list_ok edges f l fin : settled edges fin ->
  (forall n fin', n ∈ l -> settled edges fin' -> visit_ok edges fin' [n] (f n fin')) ->
  visit_ok edges fin l (visit_list f l fin).
Proof.
  revert fin. induction l as [|n l IH]; intros fin Hs Hf; simpl; [by split; [done|split; [done|set_solver]]|].
  pose proof (Hf n fin ltac:(left) Hs) as Hn. destruct (f n fin) as [d| |]; [|done|done].
  destruct Hn as (Hd & Hsub & Hw). specialize (IH d Hd ltac:(intros; apply Hf; [by right|done])).
  destruct (visit_list f l d) as [d'| |]; [|done|done]. destruct IH as (Hd' & Hsub' & Hw'). simpl.
  split; [done|set_solver].
Qed.
Lemma visit_spec ids edges fuel visiting n fin : edges_within ids edges -> n ∈ ids -> NoDup visiting -> visiting ⊆ ids ->
  (length ids <= fuel + length visiting)%nat -> (forall v, v ∈ visiting -> tc (source_of edges) v n) -> settled edges fin ->
  visit_ok edges fin [n] (visit fuel edges visiting n fin).
Proof.
  intros Hw. revert visiting n fin. induction fuel as [|fuel IH]; intros visiting n fin Hn Hnd Hsub Hf Hv Hs;
    unfold visit; fold visit; case_bool_decide as Hd; try (by split; [done|set_solver]); case_bool_decide as Hc; try (by exists n; apply Hv).
  - assert (Hlen : (length (n :: visiting) <= length ids)%nat); [|simpl in Hlen; lia].
    apply submseteq_length, NoDup_submseteq; [by constructor|set_solver].
  - assert (Hl : visit_ok edges fin (sources edges n) (visit_list (visit fuel edges (n :: visiting)) (sources edges n) fin)).
    { apply visit_list_ok; [done|]. intros s d Hsn Hsd. apply IH; [by destruct (source_of_within _ _ _ _ Hw Hsn)|by constructor|set_solver|simpl; lia| |done].
      intros v [->|Hvv]%elem_of_cons; [by apply tc_once|by eapply tc_r; [apply Hv|]]. }
    destruct (visit_list _ _ _) as [d| |]; [|done|done]. destruct Hl as (Hsd & Hsd1 & Hwt).
    split; [apply settled_cons; [done|intros m Hm; exact (Hwt m Hm)]|set_solver].
Qed.
Lemma check_acyclic_iff ids edges : edges_within ids edges -> _check_acyclic edges ids = true <-> acyclic edges.
Proof.
  intros Hw. unfold _check_acyclic.
  assert (Hv : visit_ok edges [] ids (visit_list (visit (length ids) edges []) ids [])).
  { assert (H0 : settled edges []) by (split; [intros n m Hn|intros n Hn]; by apply not_elem_of_nil in Hn).
    apply visit_list_ok; [done|]. intros n d Hn Hd. apply (visit_spec ids); try done; [constructor|set_solver|simpl; lia|set_solver]. }
  destruct (visit_list _ _ _) as [d| |]; [|by destruct Hv as [n Hn]; split; [|intros Ha; by apply Ha in Hn]|done].
  destruct Hv as ((_ & Hd) & _ & Hi). split; [|done]. intros _ n Hn. destruct (tc_source_within _ _ _ _ Hw Hn) as [Hin _]. exact (Hd n (Hi _ Hin) Hn).
Qed.

(** ** Layers *)

Lemma insert_id_perm n l : insert_id n l ≡ₚ n :: l.
Proof. induction l as [|m l IH]; simpl; [done|]. destruct (String.leb n m); [done|]. rewrite IH. apply perm_swap. Qed.
Lemma sort_ids_perm l : sort_ids l ≡ₚ l.
Proof. induction l as [|n l IH]; simpl; [done|]. by rewrite insert_id_perm, IH. Qed.
Lemma filter_partition (p : string -> bool) l : List.filter p l ++ List.filter (fun n => negb (p n)) l ≡ₚ l.
Proof. induction l as [|n l IH]; simpl; [done|]. destruct (p n); simpl; [by rewrite IH|]. by rewrite <- Permutation_middle, IH. Qed.
Lemma ready_iff edges fin n : ready edges fin n = true <-> forall m, source_of edges n m -> m ∈ fin.
Proof.
  unfold ready. rewrite forallb_forall. split.
  - intros H m Hm. apply list_elem_of_In, H in Hm. by apply bool_decide_eq_true in Hm.
  - intros H m Hm. apply bool_decide_eq_true, H. by apply list_elem_of_In.
Qed.
Lemma not_ready edges fin n : ready edges fin n = false -> exists m, source_of edges n m /\ m ∉ fin.
Proof.
  unfold ready, source_of. induction (sources edges n) as [|m l IH]; simpl; [done|]. intros [H|H]%andb_false_iff.
  - exists m. apply bool_decide_eq_false in H. by split; [left|].
  - destruct (IH H) as (k & Hk & Hd). exists k. by split; [right|].
Qed.
(** One turn of the loop takes out the nodes that are ready. *)
Lemma layer_split edges fin remaining (layer := sort_ids (List.filter (ready edges fin) remaining)) :
  layer ++ List.filter (fun n => negb (bool_decide (n ∈ layer))) remaining ≡ₚ remaining /\
  (forall n, n ∈ layer <-> n ∈ remaining /\ forall m, source_of edges n m -> m ∈ fin).
Proof.
  assert (Hm : forall n, n ∈ layer <-> n ∈ remaining /\ forall m, source_of edges n m -> m ∈ fin).
  { intros n. unfold layer. rewrite sort_ids_perm, list_elem_of_In, filter_In, ready_iff, <- list_elem_of_In. done. }
  split; [|done]. rewrite (List.filter_ext_in _ (fun n => negb (ready edges fin n))).
  - unfold layer. rewrite sort_ids_perm. apply filter_partition.
  - intros n Hn. f_equal. apply eq_true_iff_eq. rewrite bool_decide_eq_true, Hm, ready_iff, list_elem_of_In. tauto.
Qed.

(** A schedule: every node comes after all of its sources. *)
Fixpoint schedule (edges : list edge) (fin : list string) (layers : list (list string)) : Prop :=
  match layers with
  | [] => True
  | layer :: layers' => (forall n m, n ∈ layer -> source_of edges n m -> m ∈ fin) /\ schedule edges (fin ++ layer) layers'
  end.
Lemma schedule_settled edges fin layers : settled edges fin -> schedule edges fin layers -> settled edges (fin ++ concat layers).
Proof.
  revert fin. induction layers as [|layer layers IH]; intros fin Hs; simpl; [by rewrite app_nil_r|]. intros [Hl Hr].
  rewrite app_assoc. apply IH; [|done]. clear IH Hr. revert fin Hs Hl. induction layer as [|n layer IHl]; intros fin Hs Hl; [by rewrite app_nil_r|].
  rewrite cons_middle, app_assoc. apply IHl.
  - rewrite <- Permutation_cons_append. apply settled_cons; [done|intros m; apply Hl; by left].
  - intros a m Ha Hm. apply elem_of_app. left. eapply Hl; [by right|done].
Qed.
Lemma layers_loop_sound fuel edges remaining fin layers : layers_loop fuel edges remaining fin = Some layers ->
  concat layers ≡ₚ remaining /\ schedule edges fin layers.
Proof.
  revert remaining fin layers. induction fuel as [|fuel IH]; intros [|r remaining] fin layers; simpl; try done; [by intros [= <-]|by intros [= <-]|].
  destruct (layer_split edges fin (r :: remaining)) as [Hp Hm]. simpl in Hp, Hm.
  destruct (sort_ids _) as [|n layer]; [done|].
  destruct (layers_loop _ _ _ _) as [rest|] eqn:El; [|done]. intros [= <-]. apply IH in El as [Hc Hs].
  split; [|split; [|done]].
  - etrans; [|exact Hp]. simpl. constructor. by apply Permutation_app_head.
  - intros a m Ha. by apply Hm.
Qed.

(** Nodes whose sources are all waiting too: without a node that is ready they would go
    back for ever, through ever more nodes. *)
Lemma back_path edges remaining k : acyclic edges -> remaining <> [] ->
  (forall n, n ∈ remaining -> exists m, source_of edges n m /\ m ∈ remaining) ->
  exists n l, n ∈ remaining /\ l ⊆ remaining /\ NoDup (n :: l) /\ length l = k /\ (forall v, v ∈ l -> tc (source_of edges) v n).
Proof.
  intros Ha Hr Hs. induction k as [|k (n & l & Hn & Hl & Hnd & Hk & Ht)].
  - destruct remaining as [|n r]; [done|]. exists n, []. split; [by left|]. split; [set_solver|]. split; [apply NoDup_singleton|set_solver].
  - destruct (Hs n Hn) as (m & Hm & Hin).
    assert (Htm : forall v, v ∈ n :: l -> tc (source_of edges) v m).
    { intros v [->|Hv]%elem_of_cons; [by apply tc_once|by eapply tc_r; [apply Ht|]]. }
    exists m, (n :: l). split; [done|]. split; [set_solver|]. split; [|split; [simpl; by rewrite Hk|done]].
    constructor; [|done]. intros Hc. by apply (Ha m), Htm.
Qed.
Lemma some_ready edges remaining fin : acyclic edges -> remaining <> [] ->
  (forall n m, n ∈ remaining -> source_of edges n m -> m ∈ fin ++ remaining) -> exists n, n ∈ remaining /\ ready edges fin n = true.
Proof.
  intros Ha Hr Hs. destruct (existsb (ready edges fin) remaining) eqn:E.
  - apply existsb_exists in E as (n & Hn & Hd). exists n. by rewrite list_elem_of_In.
  - exfalso. destruct (back_path edges remaining (length remaining) Ha Hr) as (n & l & Hn & Hl & Hnd & Hk & _).
    + intros n Hn. assert (Hf : ready edges fin n = false).
      { apply not_true_iff_false. intros Ht. apply not_true_iff_false in E. apply E, existsb_exists. exists n. by rewrite <- list_elem_of_In. }
      destruct (not_ready _ _ _ Hf) as (m & Hm & Hd).
      exists m. split; [done|]. pose proof (Hs n m Hn Hm) as Hc. apply elem_of_app in Hc as [?|?]; done.
    + assert (Hlen : (length (n :: l) <= length remaining)%nat) by (apply submseteq_length, NoDup_submseteq; [done|set_solver]).
      simpl in Hlen. lia.
Qed.
Lemma layers_loop_complete fuel edges remaining fin : acyclic edges -> (length remaining <= fuel)%nat ->
  (forall n m, n ∈ remaining -> source_of edges n m -> m ∈ fin ++ remaining) -> is_Some (layers_loop fuel edges remaining fin).
Proof.
  intros Ha. revert remaining fin. induction fuel as [|fuel IH]; intros [|r remaining] fin Hf Hs; simpl in *; try (by eexists); [lia|].
  destruct (some_ready edges (r :: remaining) fin Ha ltac:(done) Hs) as (n & Hn & Hd).
  destruct (layer_split edges fin (r :: remaining)) as [Hp Hm].
  assert (Hin : n ∈ sort_ids (List.filter (ready edges fin) (r :: remaining))) by (apply Hm; split; [done|by apply ready_iff]).
  simpl in Hp, Hin. destruct (sort_ids _) as [|l layer]; [by apply not_elem_of_nil in Hin|].
  change (if negb _ then r :: List.filter ?f remaining else _) with (List.filter f (r :: remaining)) in *.
  set (left := List.filter _ (r :: remaining)) in *.
  pose proof (Permutation_length Hp) as Hlen. simpl in Hlen. rewrite length_app in Hlen.
  destruct (IH left (fin ++ l :: layer)) as [rest ->]; [lia| |by eexists].
  intros a m Hi Hsm. rewrite <- app_assoc, Hp. eapply Hs; [|exact Hsm]. rewrite <- Hp. apply elem_of_app. by right.
Qed.

(** The nodes of a workflow: distinct identifiers, and edges between them. *)
Record graph_ok (ids : list string) (edges : list edge) : Prop := {
  graph_ids : NoDup ids;
  graph_edges : edges_within ids edges }.
Lemma schedule_acyclic ids edges layers : edges_within ids edges -> ids ⊆ concat layers -> schedule edges [] layers -> acyclic edges.
Proof.
  intros Hw Hi Hs n Hn. assert (H0 : settled edges []) by (split; [intros a m Ha|intros a Ha]; by apply not_elem_of_nil in Ha).
  destruct (schedule_settled edges [] layers H0 Hs) as [_ Hd].
  destruct (tc_source_within _ _ _ _ Hw Hn) as [Hin _]. exact (Hd n (Hi n Hin) Hn).
Qed.
Lemma acyclic_layers ids edges : edges_within ids edges -> acyclic edges -> is_Some (topo_layers edges ids).
Proof.
  intros Hw Ha. apply layers_loop_complete; [done|done|]. intros n m _ Hs. by destruct (source_of_within _ _ _ _ Hw Hs).
Qed.

(** the ancestors of a node are exactly the nodes an edge path leads from, its
    descendants exactly those one leads to, whatever the order and the number of the
    edges; the search ends by itself. *)
Lemma closure_exact (edges : list edge) (n m : string) :
  (m ∈ _ancestors edges n <-> tc (source_of edges) n m) /\
  (m ∈ _descendants edges n <-> tc (source_of edges) m n).
Proof.
  split; [apply elem_of_closure|]. unfold _descendants. rewrite elem_of_closure.
  assert (Hflip : forall a b, a ∈ targets edges b <-> source_of edges a b).
  { intros a b. rewrite source_of_edge, elem_of_neighbours. split; intros (e & ? & ? & ?); by exists e. }
  split; intros Ht.
  - induction Ht as [a b Hab|a b c Hab _ IH]; [by apply tc_once, Hflip|]. eapply tc_r; [exact IH|]. by apply Hflip.
  - induction Ht as [a b Hab|a b c Hab _ IH]; [by apply tc_once, Hflip|]. eapply tc_r; [exact IH|]. by apply Hflip.
Qed.

(** C22: the check of a definition accepts a graph exactly when no path leads from a node
    back to itself, and exactly then the nodes can be scheduled: the layers hold every
    node once, each after all the nodes its edges come from. *)
Theorem acyclic_iff_scheduled (ids : list string) (edges : list edge) (Hg : graph_ok ids edges) :
  (_check_acyclic edges ids = true <-> forall n, ~ tc (source_of edges) n n) /\
  match topo_layers edges ids with
  | Some layers => _check_acyclic edges ids = true /\ concat layers ≡ₚ ids /\ schedule edges [] layers
  | None => _check_acyclic edges ids = false
  end.
Proof.
  destruct Hg as [Hnd Hw]. pose proof (check_acyclic_iff ids edges Hw) as Hc. split; [exact Hc|].
  destruct (topo_layers edges ids) as [layers|] eqn:E.
  - apply layers_loop_sound in E as [Hp Hs]. split; [|by split]. apply Hc. apply (schedule_acyclic ids edges layers Hw); [by rewrite Hp|done].
  - apply not_true_iff_false. intros Ha. apply Hc, (acyclic_layers ids edges Hw) in Ha as [l Hl]. congruence.
Qed.
Lemma acyclic_iff_scheduled_witness :
  _check_acyclic [Edge "a" "b" ""; Edge "b" "c" ""; Edge "a" "c" ""] ["c"; "a"; "b"] = true /\
  topo_layers [Edge "a" "b" ""; Edge "b" "a" ""] ["a"; "b"] = None.
Proof.
  assert (Hg : graph_ok ["c"; "a"; "b"] [Edge "a" "b" ""; Edge "b" "c" ""; Edge "a" "c" ""]).
  { split; [by apply (bool_decide_unpack _); vm_compute|]. repeat constructor; set_solver. }
  destruct (acyclic_iff_scheduled _ _ Hg) as [_ H]. split; [exact (proj1 H)|by vm_compute].
Defined.
