(* ===== verification/Refs.v ===== *)
(** agent/workflow.py, references and predicates: the grammar of [$root.a.b], how a
    reference is resolved against the variables of a run, template strings, the values
    of a node's parameters, and the predicates on edges.

    None is WorkflowDefError.  Objects have distinct keys, as Python's dicts do. *)
From S2P Require Import Prelude Json Text Retry Stream.

(** ** References *)

Record ref_path := RefPath { root : string; path : list string }.
Definition text (r : ref_path) : string := "$" +++ root r +++ foldr (fun p s => "." +++ p +++ s) "" (path r).

Definition letter (c : ascii) : bool :=
  let n := nat_of_ascii c in
  ((65 <=? n)%nat && (n <=? 90)%nat) || ((97 <=? n)%nat && (n <=? 122)%nat) || bool_decide (c = "_"%char).
Definition word_char (c : ascii) : bool := letter c || digit c.
Fixpoint span_word (s : string) : string * string :=
  match s with
  | String c s' => if word_char c then let '(w, r) := span_word s' in (String c w, r) else (EmptyString, s)
  | EmptyString => (EmptyString, EmptyString)
  end.
(** [(?:\.[A-Za-z0-9_]+)*] *)
Fixpoint span_path (fuel : nat) (s : string) : list string * string :=
  match fuel, s with
  | S fuel', String "." r =>
      match span_word r with
      | (EmptyString, _) => ([], s)
      | (w, r') => let '(p, rest) := span_path fuel' r' in (w :: p, rest)
      end
  | _, _ => ([], s)
  end.
(** [_REF_RE] at the start of the text, and what follows the match. *)
Definition match_ref (s : string) : option (ref_path * string) :=
  match s with
  | String "$" (String c _ as r) =>
      if letter c then
        let '(w, r1) := span_word r in
        let '(p, r2) := span_path (String.length r1) r1 in Some (RefPath w p, r2)
      else None
  | _ => None
  end.
Definition full_ref (s : string) : option ref_path :=
  match match_ref s with Some (r, EmptyString) => Some r | _ => None end.
Definition parse_ref (expr : string) : option ref_path := full_ref (strip expr).

Fixpoint find_refs_from (fuel : nat) (s : string) : list ref_path :=
  match fuel, s with
  | S fuel', String _ s' =>
      match match_ref s with
      | Some (r, rest) => r :: find_refs_from fuel' rest
      | None => find_refs_from fuel' s'
      end
  | _, _ => []
  end.
Definition find_refs (s : string) : list ref_path := find_refs_from (String.length s) s.

(** ** The variables of a run *)

Inductive status := StatusOk | StatusFailed | StatusSkipped.
#[export] Instance status_eq_dec : EqDecision status.
Proof. solve_decision. Defined.
Record node_entry := NodeEntry { entry_status : status; entry_output : json }.
Record context := WorkflowContext {
  inputs : list (string * json); args : list (string * json);
  nodes : gmap string node_entry; item : json }.

Definition descend (cur : json) (seg : string) : option json :=
  match cur with
  | JObj d => dict_get seg d
  | JArr l => i ← py_int_text seg; l !! Z.to_nat i
  | _ => None
  end.
Fixpoint descend_all (cur : json) (segs : list string) : option json :=
  match segs with
  | [] => Some cur
  | seg :: segs' => cur' ← descend cur seg; descend_all cur' segs'
  end.
Definition root_value (ctx : context) (r : string) : option json :=
  if String.eqb r "args" then Some (JObj (args ctx))
  else if String.eqb r "input" then Some (JObj (inputs ctx))
  else if String.eqb r "item" then Some (item ctx)
  else e ← nodes ctx !! r; if decide (entry_status e = StatusOk) then Some (entry_output e) else None.
Definition resolve (ctx : context) (r : ref_path) : option json := cur ← root_value ctx (root r); descend_all cur (path r).

(** ** Values *)

Section values.
Variable py_str : json -> string.

Definition rendered (v : json) : string :=
  match v with JObj _ | JArr _ => dump_value v | JNull => "" | _ => json_str_of py_str v end.
(** The text before the first brace, and the rest. *)
Fixpoint span_slot (s : string) : string * string :=
  match s with
  | String c s' => if bool_decide (c = "{"%char) || bool_decide (c = "}"%char) then (EmptyString, s)
                   else let '(w, r) := span_slot s' in (String c w, r)
  | EmptyString => (EmptyString, EmptyString)
  end.
(** [_TEMPLATE_RE] at the start of the text: what is in the slot, and what follows it. *)
Definition match_slot (s : string) : option (string * string) :=
  match s with
  | String a (String b r) =>
      if bool_decide (a = "{"%char) && bool_decide (b = "$"%char) then
        match span_slot r with
        | ((String _ _) as w, String c rest) => if decide (c = "}"%char) then Some (String "$" w, rest) else None
        | _ => None
        end
      else None
  | _ => None
  end.
Fixpoint interpolate_from (fuel : nat) (ctx : context) (s : string) : option string :=
  match fuel, s with
  | S fuel', String c s' =>
      match match_slot s with
      | Some (slot, rest) => r ← parse_ref slot; v ← resolve ctx r; t ← interpolate_from fuel' ctx rest; Some (rendered v +++ t)
      | None => t ← interpolate_from fuel' ctx s'; Some (String c t)
      end
  | _, _ => Some EmptyString
  end.
Definition interpolate (template : string) (ctx : context) : option string := interpolate_from (String.length template) ctx template.
Definition resolve_str (ctx : context) (expr : string) : option json :=
  match full_ref (strip expr) with
  | Some r => resolve ctx r
  | None => JStr <$> interpolate (strip expr) ctx
  end.
Fixpoint resolve_value (value : json) (ctx : context) : option json :=
  match value with
  | JObj d => JObj <$> (fix go (d : list (string * json)) : option (list (string * json)) :=
                          match d with
                          | [] => Some []
                          | (k, v) :: d' => v' ← resolve_value v ctx; rest ← go d'; Some ((k, v') :: rest)
                          end) d
  | JArr l => JArr <$> (fix go (l : list json) : option (list json) :=
                          match l with
                          | [] => Some []
                          | v :: l' => v' ← resolve_value v ctx; rest ← go l'; Some (v' :: rest)
                          end) l
  | JStr s => if str_mem "$"%char s then resolve_str ctx s else Some value
  | _ => Some value
  end.
End values.

(** ** Predicates *)

Definition is_quote (c : ascii) : bool := bool_decide (c = "'"%char) || bool_decide (c = DQ).
(** The current part and the parts after it; [skip] characters of a separator are still
    to be passed over. *)
Fixpoint split_from (sep : string) (s : string) (skip : nat) (depth : Z) (quote : option ascii) : string * list string :=
  match s with
  | EmptyString => (EmptyString, [])
  | String c s' =>
      match skip, quote with
      | S k, _ => split_from sep s' k depth quote
      | O, Some q => let '(w, ws) := split_from sep s' 0 depth (if decide (c = q) then None else quote) in (String c w, ws)
      | O, None =>
          if is_quote c then let '(w, ws) := split_from sep s' 0 depth (Some c) in (String c w, ws)
          else if bool_decide (c ∈ ["("; "["]%char) then let '(w, ws) := split_from sep s' 0 (depth + 1) None in (String c w, ws)
          else if bool_decide (c ∈ [")"; "]"]%char) then let '(w, ws) := split_from sep s' 0 (depth - 1) None in (String c w, ws)
          else if (depth =? 0) && startswith sep s
          then let '(w, ws) := split_from sep s' (String.length sep - 1) depth None in (EmptyString, w :: ws)
          else let '(w, ws) := split_from sep s' 0 depth None in (String c w, ws)
      end
  end.
Definition _split_top (expr sep : string) : list string := let '(w, ws) := split_from sep expr 0 0 None in w :: ws.

(** [s[n:-m]] *)
Definition between (n m : nat) (s : string) : string := str_take (String.length s - n - m) (str_drop n s).
Definition last_char (s : string) : option ascii := String.get (String.length s - 1) s.
(** A text in quotes. *)
Definition quoted (s : string) : option string :=
  match s with
  | String c (String _ _) => if is_quote c && bool_decide (last_char s = Some c) then Some (between 1 1 s) else None
  | _ => None
  end.
Fixpoint _eval_operand (fuel : nat) (token : string) (ctx : context) : option json :=
  match fuel with
  | O => None
  | S fuel' =>
      let s := strip token in
      if negb (str_truthy s) then None
      else match quoted s with
      | Some t => Some (JStr t)
      | None =>
          if startswith "[" s && endswith "]" s then
            let inner := strip (between 1 1 s) in
            if negb (str_truthy inner) then Some (JArr [])
            else JArr <$> mapM (fun part => _eval_operand fuel' part ctx) (_split_top inner ",")
          else if bool_decide (lower s ∈ ["true"; "false"]) then Some (JBool (String.eqb (lower s) "true"))
          else if bool_decide (lower s ∈ ["null"; "none"]) then Some JNull
          else match py_int_text s, py_float s with
               | Some z, _ => Some (JNum (tostring z))
               | None, Some _ => Some (JNum s)
               | None, None => if startswith "$" s then r ← parse_ref s; resolve ctx r else Some (JStr s)
               end
      end
  end.

(** [a == b] *)
Fixpoint py_eq (a b : json) : bool :=
  match a, b with
  | JArr l, JArr l' => (fix go (l l' : list json) : bool :=
                          match l, l' with
                          | [], [] => true
                          | x :: l, y :: l' => py_eq x y && go l l'
                          | _, _ => false
                          end) l l'
  | JObj d, JObj d' => (length d =? length d')%nat &&
                       forallb (fun kv => match dict_get kv.1 d' with Some v => py_eq kv.2 v | None => false end) d
  | _, _ => same_index a b
  end.
(** How [a] is ordered against [b]: None is TypeError, Some None an order with a NaN. *)
Fixpoint order (a b : json) : option (option comparison) :=
  match a, b with
  | JStr x, JStr y => Some (Some (String.compare x y))
  | JArr l, JArr l' => (fix go (l l' : list json) : option (option comparison) :=
                          match l, l' with
                          | [], [] => Some (Some Eq)
                          | [], _ :: _ => Some (Some Lt)
                          | _ :: _, [] => Some (Some Gt)
                          | x :: l, y :: l' => if py_eq x y then go l l' else order x y
                          end) l l'
  | _, _ => match as_number a, as_number b with Some x, Some y => Some (num_cmp x y) | _, _ => None end
  end.
(** [left in right] *)
Definition contained (left right : json) : option bool :=
  match right with
  | JArr l => Some (existsb (fun v => py_eq v left) l)
  | JStr s => match left with JStr t => Some (str_contains t s) | _ => None end
  | JObj d => if hashable left then Some (existsb (fun kv => same_index (JStr kv.1) left) d) else None
  | _ => None
  end.

Inductive op := Eq_op | Ne_op | Ge_op | Le_op | Gt_op | Lt_op.
(** [_OPS], in this order *)
Definition _OPS : list (string * op) := [("==", Eq_op); ("!=", Ne_op); (">=", Ge_op); ("<=", Le_op); (">", Gt_op); ("<", Lt_op)].
Definition order_test (o : op) (c : option comparison) : bool :=
  match o, c with
  | Ge_op, Some (Eq | Gt) | Le_op, Some (Eq | Lt) | Gt_op, Some Gt | Lt_op, Some Lt => true
  | _, _ => false
  end.
Definition apply_op (o : op) (left right : json) : option bool :=
  match o with
  | Eq_op => Some (py_eq left right)
  | Ne_op => Some (negb (py_eq left right))
  | _ => order_test o <$> order left right
  end.

Section eval.
Variable ctx : context.
Definition operand (s : string) : option json := _eval_operand (S (String.length s)) s ctx.
(** The first operator that cuts [e] in two. *)
Fixpoint eval_ops (ops : list (string * op)) (e : string) : option bool :=
  match ops with
  | [] => match _split_top e " in " with
          | [a; b] => left ← operand a; right ← operand b; contained left right
          | _ => None
          end
  | (o, sem) :: ops' => match _split_top e o with
                        | [a; b] => left ← operand a; right ← operand b; apply_op sem left right
                        | _ => eval_ops ops' e
                        end
  end.
Definition exists_arg (e : string) : option string :=
  if startswith "exists(" (lower e) && endswith ")" e then Some (strip (between 7 1 e)) else None.
Fixpoint eval_from (fuel : nat) (expr : string) : option bool :=
  match fuel with
  | O => None
  | S fuel' =>
      let e := strip expr in
      if negb (str_truthy e) then Some true
      else match _split_top e " or ", _split_top e " and " with
           | (_ :: _ :: _) as parts, _ => existsb id <$> mapM (eval_from fuel') parts
           | _, (_ :: _ :: _) as parts => forallb id <$> mapM (eval_from fuel') parts
           | _, _ =>
               if startswith "not " (lower e) then negb <$> eval_from fuel' (str_drop 4 e)
               else match exists_arg e with
                    | Some a => Some (match parse_ref a with
                                      | Some r => match resolve ctx r with Some _ => true | None => false end
                                      | None => false
                                      end)
                    | None => eval_ops _OPS e
                    end
           end
  end.
End eval.
Definition eval_predicate (expr : string) (ctx : context) : option bool := eval_from ctx (S (String.length expr)) expr.

Example refs_ex : find_refs "a $x.b.0 {$args.k}. $9 $y." = [RefPath "x" ["b"; "0"]; RefPath "args" ["k"]; RefPath "y" []].
Proof. by vm_compute. Qed.
Definition example_ctx : context :=
  WorkflowContext [("n", JNum "3")] [] {[ "f" := NodeEntry StatusOk (JObj [("s", JStr "a or b"); ("l", JArr [JNum "1"; JNum "7"])]) ]} JNull.
Example predicate_ex :
  eval_predicate "$f.s == 'a or b' and not $f.l.1 in [1, 2]" example_ctx = Some true /\
  eval_predicate "$input.n > 3 or exists($g)" example_ctx = Some false /\ eval_predicate "$g == 1" example_ctx = None.
Proof. by vm_compute. Qed.
Example template_ex : resolve_str dump_value example_ctx " n={$input.n} l={ $f.l } {$f.l}" = Some (JStr "n=3 l={ $f.l } [1, 7]").
Proof. by vm_compute. Qed.
