(* ===== verification/RefsProps.v ===== *)
(** References and predicates: what a text resolves to depends only on the references
    that are found in it, also in the JSON text the check of a definition reads; and more
    fuel than a text has characters changes nothing. *)
From S2P Require Import Prelude Json Text Windows TextFacts Retry JsonFacts Stream Refs.

(** ** The references found in a text *)

(** A character no reference goes past or starts with. *)
Definition breaks (c : ascii) : bool := negb (word_char c) && negb (bool_decide (c ∈ ["."; "$"]%char)).
Lemma breaks_spec c : breaks c = true -> word_char c = false /\ c <> "."%char /\ c <> "$"%char.
Proof.
  unfold breaks. rewrite andb_true_iff, !negb_true_iff, bool_decide_eq_false, !not_elem_of_cons. tauto.
Qed.
Lemma span_word_length s : String.length s = (String.length (span_word s).1 + String.length (span_word s).2)%nat.
Proof. induction s as [|c s IH]; simpl; [done|]. destruct (word_char c); [|done]. destruct (span_word s). simpl in *. lia. Qed.
Lemma span_word_app a b s : breaks b = true ->
  span_word (a +++ String b s) = ((span_word a).1, (span_word a).2 +++ String b s).
Proof.
  intros (Hb & _ & _)%breaks_spec. induction a as [|c a IH]; simpl; [by rewrite Hb|].
  destruct (word_char c); [|done]. rewrite IH. by destruct (span_word a).
Qed.
Lemma span_path_eq fuel s : span_path fuel s =
  match fuel, s with
  | S fuel', String c r =>
      if decide (c = "."%char) then
        match span_word r with
        | (EmptyString, _) => ([], s)
        | (w, r') => let '(p, rest) := span_path fuel' r' in (w :: p, rest)
        end
      else ([], s)
  | _, _ => ([], s)
  end.
Proof. destruct fuel as [|fuel]; [done|]. destruct s as [|c r]; [done|]. by destruct c as [[] [] [] [] [] [] [] []]. Qed.
Lemma span_path_app fuel a b s k : breaks b = true -> (String.length a <= fuel)%nat ->
  span_path (fuel + k) (a +++ String b s) = ((span_path fuel a).1, (span_path fuel a).2 +++ String b s).
Proof.
  intros Hb. revert a. induction fuel as [|fuel IH]; intros [|c a] Hf; simpl in Hf; try lia.
  - rewrite span_path_eq. simpl. destruct k; [done|]. rewrite decide_False; [done|]. by apply breaks_spec in Hb as (_ & ? & _).
  - rewrite span_path_eq. simpl. rewrite decide_False; [done|]. by apply breaks_spec in Hb as (_ & ? & _).
  - rewrite !span_path_eq. simpl. destruct (decide (c = "."%char)) as [->|]; [|done].
    rewrite (span_word_app a b s Hb). pose proof (span_word_length a) as Hl. destruct (span_word a) as [[|x w] r]; [done|].
    simpl in Hl |- *. rewrite IH by lia. by destruct (span_path fuel r).
Qed.
Lemma span_path_fuel fuel s : (String.length s <= fuel)%nat -> span_path fuel s = span_path (String.length s) s.
Proof.
  remember (String.length s) as n eqn:En. assert (Hn : (String.length s <= n)%nat) by lia. clear En.
  revert s fuel Hn. induction n as [|n IH]; intros [|c s] fuel Hn Hf; simpl in Hn; try lia; rewrite !span_path_eq; try by destruct fuel.
  destruct fuel as [|fuel]; [lia|]. destruct (decide _); [|done]. pose proof (span_word_length s) as Hl.
  destruct (span_word s) as [[|x w] r]; [done|]. simpl in Hl. rewrite (IH r fuel) by lia. done.
Qed.
Lemma match_ref_eq s : match_ref s =
  match s with
  | String d (String c _ as r) =>
      if decide (d = "$"%char) then
        if letter c then
          let '(w, r1) := span_word r in
          let '(p, r2) := span_path (String.length r1) r1 in Some (RefPath w p, r2)
        else None
      else None
  | _ => None
  end.
Proof. destruct s as [|d [|c s]]; [done|by destruct d as [[] [] [] [] [] [] [] []]|by destruct d as [[] [] [] [] [] [] [] []]]. Qed.
Lemma letter_breaks b : breaks b = true -> letter b = false.
Proof. intros (Hb & _ & _)%breaks_spec. by apply orb_false_iff in Hb as []. Qed.
Lemma match_ref_app a b s : breaks b = true -> a <> EmptyString ->
  match_ref (a +++ String b s) = (fun p => (p.1, p.2 +++ String b s)) <$> match_ref a.
Proof.
  intros Hb Ha. rewrite !match_ref_eq. destruct a as [|d [|c a]]; [done| |].
  - simpl. destruct (decide _); [|done]. by rewrite (letter_breaks b Hb).
  - cbn [String.append]. destruct (decide _); [|done]. destruct (letter c); [|done].
    change (String c (a +++ String b s)) with (String c a +++ String b s). rewrite (span_word_app (String c a) b s Hb).
    destruct (span_word (String c a)) as [w r1]. cbn [fst snd].
    rewrite length_append. pose proof (span_path_app (String.length r1) r1 b s (String.length (String b s)) Hb ltac:(lia)) as ->.
    by destruct (span_path (String.length r1) r1).
Qed.
Lemma span_path_rest fuel s : (String.length (span_path fuel s).2 <= String.length s)%nat.
Proof.
  revert s. induction fuel as [|fuel IH]; intros [|c s]; rewrite span_path_eq; simpl; try lia.
  destruct (decide _); simpl; [|lia]. pose proof (span_word_length s) as Hl. destruct (span_word s) as [[|x w] r]; simpl in *; [lia|].
  specialize (IH r). destruct (span_path fuel r). simpl in *. lia.
Qed.
Lemma match_ref_rest s r rest : match_ref s = Some (r, rest) -> (String.length rest < String.length s)%nat.
Proof.
  rewrite match_ref_eq. destruct s as [|d [|c s]]; try done. destruct (decide _); [|done]. destruct (letter c) eqn:El; [|done].
  pose proof (span_word_length (String c s)) as Hl. destruct (span_word (String c s)) as [w r1].
  pose proof (span_path_rest (String.length r1) r1) as Hp. destruct (span_path _ r1) as [p r2]. intros [= _ <-]. simpl in *. lia.
Qed.
Lemma find_refs_fuel fuel s : (String.length s <= fuel)%nat -> find_refs_from fuel s = find_refs s.
Proof.
  unfold find_refs. remember (String.length s) as n eqn:En. assert (Hn : (String.length s <= n)%nat) by lia. clear En.
  revert s fuel Hn. induction n as [|n IH]; intros [|c s] fuel Hn Hf; simpl in Hn; try lia; destruct fuel as [|fuel]; try done; [lia|].
  cbn [find_refs_from]. destruct (match_ref (String c s)) as [[r rest]|] eqn:E; [|apply IH; lia].
  apply match_ref_rest in E. simpl in E. f_equal. apply IH; lia.
Qed.
Lemma find_refs_cons c s : find_refs (String c s) =
  match match_ref (String c s) with Some (r, rest) => r :: find_refs rest | None => find_refs s end.
Proof.
  unfold find_refs at 1. cbn [String.length find_refs_from]. destruct (match_ref _) as [[r rest]|] eqn:E; [|by apply find_refs_fuel].
  apply match_ref_rest in E. simpl in E. f_equal. apply find_refs_fuel. lia.
Qed.
Lemma find_refs_skip c s : c <> "$"%char -> find_refs (String c s) = find_refs s.
Proof. intros Hc. rewrite find_refs_cons, match_ref_eq. destruct s; [done|]. by rewrite decide_False. Qed.
Lemma find_refs_app a b s : breaks b = true -> find_refs (a +++ String b s) = find_refs a ++ find_refs s.
Proof.
  intros Hb. remember (String.length a) as n eqn:En. assert (Hn : (String.length a <= n)%nat) by lia. clear En.
  revert a Hn. induction n as [|n IH]; intros a Hn.
  - destruct a; [|simpl in Hn; lia]. apply find_refs_skip. by apply breaks_spec in Hb as (_ & _ & ?).
  - destruct a as [|c a]; [apply find_refs_skip; by apply breaks_spec in Hb as (_ & _ & ?)|].
    cbn [String.append]. rewrite !find_refs_cons.
    change (String c (a +++ String b s)) with (String c a +++ String b s). rewrite (match_ref_app (String c a) b s Hb) by done.
    destruct (match_ref (String c a)) as [[r rest]|] eqn:E; simpl; simpl in Hn.
    + apply match_ref_rest in E. simpl in E. rewrite IH by lia. done.
    + apply IH. lia.
Qed.
(** A text without a dollar sign holds no reference. *)
Lemma find_refs_none s : str_mem "$"%char s = false -> find_refs s = [].
Proof.
  induction s as [|c s IH]; [done|]. intros [Hc Hs]%orb_false_iff. apply bool_decide_eq_false in Hc. rewrite find_refs_skip by done. by apply IH.
Qed.

(** ** What the references of a text decide *)

(** The two contexts give the references the same values. *)
Definition agree (rs : list ref_path) (c1 c2 : context) : Prop := forall r, r ∈ rs -> resolve c1 r = resolve c2 r.
Lemma agree_app rs rs' c1 c2 : agree (rs ++ rs') c1 c2 <-> agree rs c1 c2 /\ agree rs' c1 c2.
Proof.
  unfold agree. split.
  - intros H. split; intros r Hr; apply H, elem_of_app; auto.
  - intros [H1 H2] r [Hr|Hr]%elem_of_app; auto.
Qed.

Lemma span_slot_spec s : s = (span_slot s).1 +++ (span_slot s).2.
Proof. induction s as [|c s IH]; simpl; [done|]. destruct (_ || _); [done|]. destruct (span_slot s). simpl in *. by rewrite <- IH. Qed.
Lemma match_slot_spec s slot rest : match_slot s = Some (slot, rest) -> s = String "{" (slot +++ String "}" rest).
Proof.
  unfold match_slot. destruct s as [|a [|b r]]; try done.
  destruct (bool_decide (a = _)) eqn:Ha; [|done]. destruct (bool_decide (b = _)) eqn:Hb; [|done].
  apply bool_decide_eq_true in Ha as ->. apply bool_decide_eq_true in Hb as ->. cbn [andb].
  pose proof (span_slot_spec r) as Hs. destruct (span_slot r) as [[|x y] [|c r']]; try done.
  destruct (decide _) as [->|]; [|done]. intros [= <- <-]. simpl in Hs. by rewrite Hs.
Qed.
Lemma full_ref_found s r : full_ref s = Some r -> find_refs s = [r].
Proof.
  unfold full_ref. destruct s as [|c s]; [done|]. destruct (match_ref (String c s)) as [[r' [|d rest]]|] eqn:E; try done.
  intros [= ->]. by rewrite find_refs_cons, E.
Qed.

(** Blanks around a text hold no references. *)
Lemma space_breaks c : py_space c = true -> breaks c = true.
Proof. by destruct c as [[] [] [] [] [] [] [] []]; vm_compute. Qed.
Lemma space_no_dollar c : py_space c = true -> c <> "$"%char.
Proof. by intros H ->. Qed.
Lemma rstrip_split s : exists b, s = rstrip s +++ b /\ str_all py_space b = true.
Proof.
  induction s as [|c s (b & Hs & Hb)]; [by exists EmptyString|]. simpl. destruct (rstrip s) as [|d r]; simpl in Hs.
  - subst b. destruct (py_space c) eqn:E; [exists (String c s); simpl; by rewrite E|by exists s].
  - exists b. split; [simpl; by rewrite Hs|done].
Qed.
Lemma find_refs_blank b : str_all py_space b = true -> find_refs b = [].
Proof.
  induction b as [|c b IH]; [done|]. simpl. intros [Hc Hb]%andb_true_iff. rewrite find_refs_skip by by apply space_no_dollar. by apply IH.
Qed.
Lemma find_refs_strip s : find_refs (strip s) = find_refs s.
Proof.
  unfold strip. transitivity (find_refs (lstrip s)).
  - destruct (rstrip_split (lstrip s)) as ([|c b] & Hs & Hb); rewrite Hs at 2; [by rewrite append_nil_r|].
    simpl in Hb. apply andb_true_iff in Hb as [Hc Hb]. rewrite find_refs_app by by apply space_breaks.
    by rewrite (find_refs_blank b Hb), app_nil_r.
  - induction s as [|c s IH]; [done|]. simpl. destruct (py_space c) eqn:E; [|done]. rewrite find_refs_skip by by apply space_no_dollar. done.
Qed.

(** What is left of a text after its first character holds no new references. *)
Lemma span_word_skip s : find_refs (span_word s).2 = find_refs s.
Proof.
  induction s as [|c s IH]; [done|]. simpl. destruct (word_char c) eqn:E; [|done]. destruct (span_word s) as [w r]. simpl in *.
  rewrite find_refs_skip; [done|]. by intros ->.
Qed.
Lemma span_path_skip fuel s : find_refs (span_path fuel s).2 = find_refs s.
Proof.
  revert s. induction fuel as [|fuel IH]; intros [|c s]; rewrite span_path_eq; try done.
  destruct (decide _) as [->|]; [|done]. pose proof (span_word_skip s) as Hw. destruct (span_word s) as [[|x w] r]; [done|].
  specialize (IH r). destruct (span_path fuel r). simpl in *. rewrite IH, Hw. by rewrite find_refs_skip.
Qed.
Lemma match_ref_skip c s r rest : match_ref (String c s) = Some (r, rest) -> find_refs rest = find_refs s.
Proof.
  rewrite match_ref_eq. destruct s as [|d s]; [done|]. destruct (decide _); [|done]. destruct (letter d); [|done].
  pose proof (span_word_skip (String d s)) as Hw. destruct (span_word (String d s)) as [w r1].
  pose proof (span_path_skip (String.length r1) r1) as Hp. destruct (span_path _ r1) as [p r2]. intros [= _ <-]. simpl in *. congruence.
Qed.
Lemma find_refs_tail c s : find_refs s ⊆ find_refs (String c s).
Proof.
  rewrite find_refs_cons. destruct (match_ref (String c s)) as [[r rest]|] eqn:E; [|done].
  apply match_ref_skip in E as ->. intros x Hx. by right.
Qed.

(** Interpolating a text, and resolving it, uses only the references found in it. *)
Lemma parse_ref_found s r : parse_ref s = Some r -> r ∈ find_refs s.
Proof. intros H%full_ref_found. rewrite find_refs_strip in H. rewrite H. by left. Qed.
Lemma interpolate_from_agree py_str fuel c1 c2 s : agree (find_refs s) c1 c2 ->
  interpolate_from py_str fuel c1 s = interpolate_from py_str fuel c2 s.
Proof.
  revert s. induction fuel as [|fuel IH]; intros [|c s] Ha; try done. cbn [interpolate_from].
  destruct (match_slot (String c s)) as [[slot rest]|] eqn:E.
  - apply match_slot_spec in E. rewrite E, find_refs_skip, find_refs_app in Ha by done.
    apply agree_app in Ha as [Hs Hr]. rewrite (IH rest Hr).
    destruct (parse_ref slot) as [r|] eqn:Ep; [|done]. cbn [mbind option_bind]. rewrite (Hs r); [done|]. by apply parse_ref_found.
  - rewrite (IH s); [done|]. intros r Hr. by apply Ha, find_refs_tail.
Qed.
Lemma resolve_str_agree py_str c1 c2 s : agree (find_refs s) c1 c2 -> resolve_str py_str c1 s = resolve_str py_str c2 s.
Proof.
  intros Ha. rewrite <- find_refs_strip in Ha. unfold resolve_str.
  destruct (full_ref (strip s)) as [r|] eqn:E.
  - apply Ha. apply full_ref_found in E. rewrite E. by left.
  - unfold interpolate. by rewrite (interpolate_from_agree py_str _ c1 c2).
Qed.

(** ** The references in a JSON text *)

(** A character that json.dumps writes as itself. *)
Definition unescaped (c : ascii) : bool := bool_decide (escape c = String c EmptyString).
Lemma escaped_breaks c : unescaped c = false ->
  breaks c = true /\ exists w, escape c = String BS w /\ forall s, find_refs (w +++ s) = find_refs s.
Proof.
  unfold unescaped. rewrite bool_decide_eq_false. intros H.
  destruct c as [[] [] [] [] [] [] [] []]; try (exfalso; apply H; by vm_compute);
    (split; [by vm_compute|eexists; split; [by vm_compute|intros s; cbn [String.append]; by rewrite ?find_refs_skip by done]]).
Qed.
Lemma find_refs_escape s : find_refs (escape_all s) = find_refs s.
Proof.
  enough (H : forall a, find_refs (a +++ escape_all s) = find_refs (a +++ s)) by exact (H EmptyString).
  induction s as [|c s IH]; intros a; [done|]. cbn [escape_all]. destruct (unescaped c) eqn:E.
  - apply bool_decide_eq_true in E. rewrite E. change (String c "" +++ escape_all s) with (String c (escape_all s)).
    assert (Hc : forall x, a +++ String c x = (a +++ String c "") +++ x) by (intros x; by rewrite append_assoc).
    rewrite (Hc (escape_all s)), (Hc s). apply IH.
  - destruct (escaped_breaks c E) as (Hb & w & -> & Hw). cbn [String.append]. rewrite !find_refs_app by done.
    f_equal. rewrite Hw. exact (IH EmptyString).
Qed.
Lemma find_refs_quote s : find_refs (quote s) = find_refs s.
Proof. unfold quote. rewrite find_refs_skip, find_refs_app by done. rewrite find_refs_escape. apply app_nil_r. Qed.
Lemma find_refs_join w ws : w ∈ ws -> find_refs w ⊆ find_refs (join ", " ws).
Proof.
  induction ws as [|x ws IH]; [by intros ?%not_elem_of_nil|]. destruct ws as [|y ws].
  - rewrite list_elem_of_singleton. by intros ->.
  - change (join ", " (x :: y :: ws)) with (x +++ String "," (String " " (join ", " (y :: ws)))).
    rewrite find_refs_app, find_refs_skip by done. rewrite elem_of_cons. intros [->|Hw]; [apply list_subseteq_app_l; done|].
    apply list_subseteq_app_r. by apply IH.
Qed.

(** The references in the string values of a JSON value, keys apart. *)
Fixpoint refs_of (v : json) : list ref_path :=
  match v with
  | JStr s => find_refs s
  | JArr l => concat (map refs_of l)
  | JObj d => concat (map (fun kv => refs_of kv.2) d)
  | _ => []
  end.
Lemma elem_of_concat {A} (x : A) (ls : list (list A)) : x ∈ concat ls <-> exists l, x ∈ l /\ l ∈ ls.
Proof.
  induction ls as [|l ls IH]; simpl.
  - split; [by intros ?%not_elem_of_nil|by intros (l & _ & ?%not_elem_of_nil)].
  - rewrite elem_of_app, IH. setoid_rewrite elem_of_cons. split; [intros [?|(m & ? & ?)]; eauto|intros (m & ? & [->|?]); eauto].
Qed.
Lemma refs_of_dump v : refs_of v ⊆ find_refs (dump_value v).
Proof.
  induction v as [v Hv|l IH|d IH] using json_nested_ind.
  - destruct v; try done; simpl; try (intros ? ?%not_elem_of_nil; done). by rewrite find_refs_quote.
  - intros r Hr. cbn [refs_of] in Hr. cbn [dump_value]. cbn [String.append]. apply elem_of_concat in Hr as (rs & Hr & Hin). apply list_elem_of_fmap in Hin as (v & -> & Hv).
    rewrite find_refs_skip, find_refs_app by done. apply elem_of_app. left.
    rewrite Forall_forall in IH. eapply find_refs_join; [|by apply (IH v)]. by apply list_elem_of_fmap_2.
  - intros r Hr. cbn [refs_of] in Hr. cbn [dump_value]. cbn [String.append]. apply elem_of_concat in Hr as (rs & Hr & Hin). apply list_elem_of_fmap in Hin as (kv & -> & Hv).
    rewrite find_refs_skip, find_refs_app by done. apply elem_of_app. left.
    rewrite Forall_forall in IH.
    eapply find_refs_join; [by apply (list_elem_of_fmap_2 (fun kv => quote kv.1 +++ ": " +++ dump_value kv.2) _ kv)|].
    change (": " +++ ?x) with (String ":" (String " " x)). rewrite find_refs_app, find_refs_skip by done.
    apply elem_of_app. right. by apply (IH kv).
Qed.

(** A value resolves by the references in its strings. *)
Lemma resolve_value_agree py_str c1 c2 v : agree (refs_of v) c1 c2 -> resolve_value py_str v c1 = resolve_value py_str v c2.
Proof.
  induction v as [v Hv|l IH|d IH] using json_nested_ind.
  - destruct v as [| | |s| |]; try done. intros Ha. simpl. by rewrite (resolve_str_agree py_str c1 c2 s Ha).
  - intros Ha. simpl. f_equal. induction IH as [|v l Hv' _ IHl]; [done|].
    simpl in Ha. apply agree_app in Ha as [H1 H2]. rewrite (Hv' H1). by rewrite (IHl H2).
  - intros Ha. simpl. f_equal. induction IH as [|[k v] d Hv _ IHd]; [done|].
    simpl in Ha. apply agree_app in Ha as [H1 H2]. simpl in Hv. rewrite (Hv H1). by rewrite (IHd H2).
Qed.

(** ** Splitting at the top level *)

Lemma take_drop_string n s : s = str_take n s +++ str_drop n s.
Proof. revert s. induction n as [|n IH]; intros [|c s]; simpl; try done. by rewrite <- IH. Qed.
Lemma length_drop_string n s : String.length (str_drop n s) = (String.length s - n)%nat.
Proof. revert s. induction n as [|n IH]; intros [|c s]; simpl; try done. Qed.
Lemma length_take_string n s : String.length (str_take n s) = Nat.min n (String.length s).
Proof. revert s. induction n as [|n IH]; intros [|c s]; simpl; try done. by rewrite IH. Qed.
Lemma between_length n m s : (String.length (between n m s) <= String.length s - n - m)%nat.
Proof. unfold between. rewrite length_take_string. lia. Qed.
Lemma str_drop_refs n s : find_refs (str_drop n s) ⊆ find_refs s.
Proof.
  revert s. induction n as [|n IH]; intros [|c s]; try done. simpl. etrans; [apply IH|apply find_refs_tail].
Qed.
(** The inside of a text that ends in a breaking character. *)
Lemma between_refs n c s : breaks c = true -> (n < String.length s)%nat -> endswith (String c EmptyString) s = true ->
  find_refs (between n 1 s) ⊆ find_refs s.
Proof.
  intros Hc Hn He. unfold endswith in He. apply andb_true_iff in He as [_ He]. apply bool_decide_eq_true in He.
  etrans; [|apply (str_drop_refs n)]. pose proof (take_drop_string (String.length s - n - 1) (str_drop n s)) as Hs.
  assert (Hd : forall a b t, str_drop a (str_drop b t) = str_drop (b + a) t).
  { intros a b. induction b as [|b IH]; intros [|x t]; simpl; try done. by destruct a. }
  rewrite Hd in Hs. replace (n + (String.length s - n - 1))%nat with (String.length s - 1)%nat in Hs by lia.
  simpl in He. rewrite He in Hs. unfold between. rewrite Hs at 2. rewrite find_refs_app by done. by apply list_subseteq_app_l.
Qed.

Section split.
Context (sep : string) (d : ascii) (tl : string) (Hsep : sep = String d tl).

Lemma split_skip a s depth quote : split_from sep (a +++ s) (String.length a) depth quote = split_from sep s 0 depth quote.
Proof. induction a as [|c a IH]; [done|]. exact IH. Qed.
(** The current part is the whole text, or ends where a separator begins. *)
Lemma split_from_spec s depth quote w ws : split_from sep s 0 depth quote = (w, ws) ->
  (w = s /\ ws = []) \/ exists rest, s = w +++ sep +++ rest /\ ws = _split_top rest sep.
Proof.
  revert depth quote w ws. induction s as [|c s IH]; intros depth quote w ws; simpl; [intros [= <- <-]; by left|].
  assert (Hrec : forall depth quote, (let '(w0, ws0) := split_from sep s 0 depth quote in (String c w0, ws0)) = (w, ws) ->
    (w = String c s /\ ws = []) \/ exists rest, String c s = w +++ sep +++ rest /\ ws = _split_top rest sep).
  { intros dp q. destruct (split_from sep s 0 dp q) as [w0 ws0] eqn:E. intros [= <- <-].
    destruct (IH _ _ _ _ E) as [[-> ->]|(rest & -> & ->)]; [by left|right; by exists rest]. }
  destruct quote as [q|]; [apply Hrec|]. destruct (is_quote c); [apply Hrec|].
  destruct (bool_decide (c ∈ ["("; "["]%char)); [apply Hrec|]. destruct (bool_decide (c ∈ [")"; "]"]%char)); [apply Hrec|].
  destruct ((depth =? 0) && startswith sep (String c s)) eqn:E; [|apply Hrec].
  apply andb_true_iff in E as [Hd Hs]. apply Z.eqb_eq in Hd as ->. apply startswith_spec in Hs as [rest Hs].
  pose proof Hs as Hs'. rewrite Hsep in Hs'. cbn [String.append] in Hs'. injection Hs' as -> ->.
  replace (String.length sep - 1)%nat with (String.length tl) by (rewrite Hsep; simpl; lia). rewrite split_skip.
  destruct (split_from sep rest 0 0 None) as [w0 ws0] eqn:E0. intros [= <- <-].
  right. exists rest. split; [done|]. unfold _split_top. by rewrite E0.
Qed.
Lemma split_top_spec s w ws : _split_top s sep = w :: ws ->
  (w = s /\ ws = []) \/ exists rest, s = w +++ sep +++ rest /\ ws = _split_top rest sep.
Proof. unfold _split_top at 1. destruct (split_from sep s 0 0 None) as [w0 ws0] eqn:E. intros [= -> ->]. by eapply split_from_spec. Qed.
Lemma split_top_part s x : x ∈ _split_top s sep ->
  (String.length x <= String.length s)%nat /\ (breaks d = true -> find_refs x ⊆ find_refs s) /\
  (x = s \/ (String.length x < String.length s)%nat).
Proof.
  remember (String.length s) as n eqn:En. assert (Hn : (String.length s <= n)%nat) by lia. rewrite En. clear En.
  revert s x Hn. induction n as [|n IH]; intros s x Hn Hx;
    destruct (_split_top s sep) as [|w ws] eqn:E; try by apply not_elem_of_nil in Hx.
  - destruct (split_top_spec _ _ _ E) as [[-> ->]|(rest & -> & _)].
    + apply list_elem_of_singleton in Hx as ->. split; [lia|split; [done|by left]].
    + rewrite !length_append, Hsep in Hn. simpl in Hn. lia.
  - destruct (split_top_spec _ _ _ E) as [[-> ->]|(rest & -> & ->)].
    + apply list_elem_of_singleton in Hx as ->. split; [lia|split; [done|by left]].
    + assert (Hl : (String.length (w +++ sep +++ rest) = String.length w + S (String.length tl) + String.length rest)%nat).
      { rewrite !length_append, Hsep. simpl. lia. }
      apply elem_of_cons in Hx as [->|Hx].
      * split; [lia|split; [|right; lia]]. intros Hb. rewrite Hsep. cbn [String.append]. rewrite find_refs_app by done. by apply list_subseteq_app_l.
      * destruct (IH rest x ltac:(lia) Hx) as (Hle & Hr & _). split; [lia|split; [|right; lia]].
        intros Hb. etrans; [by apply Hr|]. rewrite Hsep. cbn [String.append]. rewrite find_refs_app by done.
        apply list_subseteq_app_r. etrans; [|]. 2: apply (str_drop_refs (String.length tl)). by rewrite str_drop_append.
Qed.
(** A part of a text that is cut is shorter. *)
Lemma split_top_shorter s x y l : _split_top s sep = x :: y :: l -> forall z, z ∈ x :: y :: l -> (String.length z < String.length s)%nat.
Proof.
  intros E z Hz. rewrite <- E in Hz. destruct (split_top_part s z Hz) as (_ & _ & [->|H]); [|done].
  destruct (split_top_spec _ _ _ E) as [[_ ?]|(rest & Hs & Hr)]; [done|].
  rewrite E in Hz. rewrite Hr in Hz. assert (Hl : String.length s = (String.length x + S (String.length tl) + String.length rest)%nat).
  { rewrite Hs at 1. rewrite !length_append, Hsep. simpl. lia. }
  apply elem_of_cons in Hz as [->|Hz]; [lia|]. destruct (split_top_part rest s Hz) as (Hle & _). lia.
Qed.
End split.

(** ** Predicates use the references found in them *)

Lemma agree_sub rs rs' c1 c2 : rs ⊆ rs' -> agree rs' c1 c2 -> agree rs c1 c2.
Proof. intros Hs Ha r Hr. by apply Ha, Hs. Qed.
Lemma mapM_agree {A B} (f g : A -> option B) l : (forall x, x ∈ l -> f x = g x) -> mapM f l = mapM g l.
Proof.
  induction l as [|x l IH]; [done|]. intros H. cbn [mapM]. rewrite (H x) by by left. by rewrite IH by (intros y Hy; apply H; by right).
Qed.
Lemma bracket_inside s : startswith "[" s && endswith "]" s = true -> find_refs (strip (between 1 1 s)) ⊆ find_refs s.
Proof.
  intros [Hs He]%andb_true_iff. rewrite find_refs_strip. apply (between_refs 1 "]"%char); [done| |done].
  destruct s as [|c [|c' s]]; [done| |simpl; lia]. simpl in Hs. rewrite andb_true_r in Hs. apply bool_decide_eq_true in Hs as <-. by vm_compute in He.
Qed.
Lemma operand_agree fuel c1 c2 token : agree (find_refs token) c1 c2 -> _eval_operand fuel token c1 = _eval_operand fuel token c2.
Proof.
  revert token. induction fuel as [|fuel IH]; intros token Ha; [done|]. cbn [_eval_operand].
  rewrite <- find_refs_strip in Ha. set (s := strip token) in *. destruct (negb (str_truthy s)); [done|].
  destruct (quoted s); [done|]. destruct (startswith "[" s && endswith "]" s) eqn:Eb.
  - destruct (negb _); [done|]. rewrite (mapM_agree _ (fun part => _eval_operand fuel part c2)); [done|].
    intros part Hp. apply IH. destruct (split_top_part "," "," "" eq_refl _ _ Hp) as (_ & Hr & _).
    eapply agree_sub; [|exact Ha]. etrans; [by apply Hr|]. by apply bracket_inside.
  - destruct (bool_decide _); [done|]. destruct (bool_decide _); [done|].
    destruct (py_int_text s); [done|]. destruct (py_float s); [done|]. destruct (startswith "$" s); [|done].
    destruct (parse_ref s) as [r|] eqn:E; [|done]. cbn [mbind option_bind]. apply Ha. by apply parse_ref_found.
Qed.
Lemma eval_ops_agree c1 c2 ops e : agree (find_refs e) c1 c2 ->
  Forall (fun o => exists d tl, o.1 = String d tl /\ breaks d = true) ops -> eval_ops c1 ops e = eval_ops c2 ops e.
Proof.
  intros Ha Ho.
  assert (Hp : forall d tl a b, breaks d = true -> _split_top e (String d tl) = [a; b] -> operand c1 a = operand c2 a /\ operand c1 b = operand c2 b).
  { intros d tl a b Hd Hs. assert (Hr : forall x, x ∈ [a; b] -> operand c1 x = operand c2 x); [|split; apply Hr; rewrite !elem_of_cons; auto].
    intros x Hx. rewrite <- Hs in Hx. apply operand_agree. destruct (split_top_part _ d tl eq_refl _ _ Hx) as (_ & Hr & _).
    eapply agree_sub; [by apply Hr|done]. }
  induction Ho as [|[o sem] ops (d & tl & Hod & Hd) _ IH]; cbn [eval_ops].
  - destruct (_split_top e " in ") as [|a [|b [|]]] eqn:E; try done. by destruct (Hp " "%char "in " a b ltac:(by vm_compute) E) as [-> ->].
  - simpl in Hod. rewrite Hod. destruct (_split_top e (String d tl)) as [|a [|b [|]]] eqn:E; try exact IH. by destruct (Hp _ _ a b Hd E) as [-> ->].
Qed.
Lemma ops_break : Forall (fun o => exists d tl, o.1 = String d tl /\ breaks d = true) _OPS.
Proof. unfold _OPS. repeat apply Forall_cons_2; [..|apply Forall_nil_2]; do 2 eexists; (split; [reflexivity|by vm_compute]). Qed.
Lemma exists_arg_refs e a : exists_arg e = Some a -> find_refs a ⊆ find_refs e.
Proof.
  unfold exists_arg. destruct (_ && _) eqn:E; [|done]. intros [= <-]. apply andb_true_iff in E as [Hs He].
  rewrite find_refs_strip. destruct (decide (7 < String.length e)%nat) as [Hl|Hl]; [by apply (between_refs 7 ")"%char)|].
  pose proof (between_length 7 1 e) as Hb. destruct (between 7 1 e); [by intros r Hr%not_elem_of_nil|simpl in Hb; lia].
Qed.
Lemma eval_from_agree fuel c1 c2 expr : agree (find_refs expr) c1 c2 -> eval_from c1 fuel expr = eval_from c2 fuel expr.
Proof.
  revert expr. induction fuel as [|fuel IH]; intros expr Ha; [done|]. cbn [eval_from].
  rewrite <- find_refs_strip in Ha. set (e := strip expr) in *. destruct (negb (str_truthy e)); [done|].
  assert (Hp : forall sep tl, sep = String " " tl -> mapM (eval_from c1 fuel) (_split_top e sep) = mapM (eval_from c2 fuel) (_split_top e sep)).
  { intros sep tl Hs. apply mapM_agree. intros x Hx. apply IH. destruct (split_top_part sep _ tl Hs _ _ Hx) as (_ & Hr & _).
    eapply agree_sub; [by apply Hr|done]. }
  pose proof (Hp " or " _ eq_refl) as Ho. pose proof (Hp " and " _ eq_refl) as Hn.
  assert (Hi : (if startswith "not " (lower e) then negb <$> eval_from c1 fuel (str_drop 4 e)
     else match exists_arg e with
          | Some a => Some (match parse_ref a with Some r => match resolve c1 r with Some _ => true | None => false end | None => false end)
          | None => eval_ops c1 _OPS e end)
   = (if startswith "not " (lower e) then negb <$> eval_from c2 fuel (str_drop 4 e)
     else match exists_arg e with
          | Some a => Some (match parse_ref a with Some r => match resolve c2 r with Some _ => true | None => false end | None => false end)
          | None => eval_ops c2 _OPS e end)).
  { destruct (startswith "not " (lower e)); [rewrite IH; [done|eapply agree_sub; [apply str_drop_refs|done]]|].
    destruct (exists_arg e) as [a|] eqn:Ea.
    - destruct (parse_ref a) as [r|] eqn:Er; [|done]. rewrite (Ha r); [done|]. apply (exists_arg_refs e a Ea). by apply parse_ref_found.
    - apply eval_ops_agree; [done|apply ops_break]. }
  destruct (_split_top e " or ") as [|x [|y l]]; [|destruct (_split_top e " and ") as [|x' [|y' l']]|by rewrite Ho]; try exact Hi;
    [destruct (_split_top e " and ") as [|x' [|y' l']]; try exact Hi; by rewrite Hn|by rewrite Hn].
Qed.
Lemma eval_predicate_agree c1 c2 expr : agree (find_refs expr) c1 c2 -> eval_predicate expr c1 = eval_predicate expr c2.
Proof. apply eval_from_agree. Qed.

(** Every step of the evaluation goes to shorter texts: more fuel changes nothing. *)
Lemma strip_length s : (String.length (strip s) <= String.length s)%nat.
Proof.
  unfold strip. transitivity (String.length (lstrip s)).
  - destruct (rstrip_split (lstrip s)) as (b & Hs & _). rewrite Hs at 2. rewrite length_append. lia.
  - induction s as [|c s IH]; [done|]. simpl. destruct (py_space c); simpl; lia.
Qed.
Lemma operand_fuel fuel c token : (String.length token < fuel)%nat -> _eval_operand fuel token c = operand c token.
Proof.
  unfold operand. remember (String.length token) as n eqn:En. assert (Hn : (String.length token <= n)%nat) by lia. clear En.
  revert fuel token Hn. induction n as [n IH] using lt_wf_ind. intros [|fuel] token Hn Hf; [lia|]. cbn [_eval_operand].
  pose proof (strip_length token) as Hl. set (s := strip token) in *. destruct (str_truthy s) eqn:Et; [|done]. cbn [negb].
  destruct (quoted s); [done|]. destruct (startswith "[" s && endswith "]" s) eqn:Eb; [|done].
  assert (Hin : forall part, part ∈ _split_top (strip (between 1 1 s)) "," -> (String.length part < n)%nat).
  { intros part Hp. destruct (split_top_part "," "," "" eq_refl _ _ Hp) as (Hle & _). pose proof (strip_length (between 1 1 s)).
    pose proof (between_length 1 1 s). destruct s; [done|]. simpl in *. lia. }
  destruct (negb _); [done|]. f_equal. apply mapM_agree. intros part Hp. specialize (Hin part Hp).
  rewrite (IH (String.length part)) by lia. symmetry. apply (IH (String.length part)); lia.
Qed.
Lemma eval_from_fuel fuel c expr : (String.length expr < fuel)%nat -> eval_from c fuel expr = eval_predicate expr c.
Proof.
  unfold eval_predicate. remember (String.length expr) as n eqn:En. assert (Hn : (String.length expr <= n)%nat) by lia. clear En.
  revert fuel expr Hn. induction n as [n IH] using lt_wf_ind. intros [|fuel] expr Hn Hf; [lia|]. cbn [eval_from].
  pose proof (strip_length expr) as Hl. set (e := strip expr) in *. destruct (str_truthy e) eqn:Et; [|done]. cbn [negb].
  assert (Hrec : forall s, (String.length s < n)%nat -> eval_from c fuel s = eval_from c n s).
  { intros s Hs. rewrite (IH (String.length s)) by lia. symmetry. apply (IH (String.length s)); lia. }
  assert (Hp : forall sep tl x y l, sep = String " " tl -> _split_top e sep = x :: y :: l ->
    mapM (eval_from c fuel) (x :: y :: l) = mapM (eval_from c n) (x :: y :: l)).
  { intros sep tl x y l Hs E. apply mapM_agree. intros z Hz. apply Hrec.
    pose proof (split_top_shorter sep _ tl Hs _ _ _ _ E z Hz). lia. }
  destruct (_split_top e " or ") as [|x [|y l]] eqn:Eo; [| |by rewrite (Hp " or " _ _ _ _ eq_refl Eo)];
    (destruct (_split_top e " and ") as [|x' [|y' l']] eqn:En; [| |by rewrite (Hp " and " _ _ _ _ eq_refl En)]);
    (destruct (startswith "not " (lower e)); [|done]; rewrite Hrec; [done|]; rewrite length_drop_string; destruct e; [done|simpl in *; lia]).
Qed.
