(* ===== verification/PredicateProps.v ===== *)
(** Predicates on edges: a predicate written in the documented grammar (comparisons,
    membership, exists, not, and, or) means what it says, whatever its quoted texts
    contain. *)
From S2P Require Import Prelude Json Text Windows TextFacts Retry Stream Refs RefsProps.

(** ** The grammar *)

(** A word of a reference. *)
Definition word (s : string) : Prop := s <> EmptyString /\ str_all word_char s = true.
Definition ref_wf (r : ref_path) : Prop :=
  (exists c s, root r = String c s /\ letter c = true /\ str_all word_char s = true) /\ Forall word (path r).
Inductive constant := CText (q : ascii) (s : string) | CInt (z : Z).
Inductive term := TConst (c : constant) | TRef (r : ref_path) | TList (l : list constant).
Inductive atom := Compare (o : op) (a b : term) | In_ (a b : term) | Exists (r : ref_path).
(** Atoms under any number of negations, conjunctions of these, disjunctions of those. *)
Inductive lit := Atom (a : atom) | Not (l : lit).

Definition constant_wf (c : constant) : Prop := match c with CText q s => is_quote q = true /\ str_mem q s = false | CInt _ => True end.
Definition term_wf (t : term) : Prop :=
  match t with TConst c => constant_wf c | TRef r => ref_wf r | TList l => Forall constant_wf l end.
Definition atom_wf (a : atom) : Prop :=
  match a with Compare _ a b | In_ a b => term_wf a /\ term_wf b | Exists r => ref_wf r end.
Fixpoint lit_wf (l : lit) : Prop := match l with Atom a => atom_wf a | Not l => lit_wf l end.

Definition show_constant (c : constant) : string := match c with CText q s => String q (s +++ String q "") | CInt z => tostring z end.
Definition show_term (t : term) : string :=
  match t with TConst c => show_constant c | TRef r => text r | TList l => "[" +++ join ", " (show_constant <$> l) +++ "]" end.
Definition show_op (o : op) : string :=
  match o with Eq_op => "==" | Ne_op => "!=" | Ge_op => ">=" | Le_op => "<=" | Gt_op => ">" | Lt_op => "<" end.
Definition show_atom (a : atom) : string :=
  match a with
  | Compare o a b => show_term a +++ " " +++ show_op o +++ " " +++ show_term b
  | In_ a b => show_term a +++ " in " +++ show_term b
  | Exists r => "exists(" +++ text r +++ ")"
  end.
Fixpoint show_lit (l : lit) : string := match l with Atom a => show_atom a | Not l => "not " +++ show_lit l end.
Definition show_clause (c : list lit) : string := join " and " (show_lit <$> c).
Definition show (p : list (list lit)) : string := join " or " (show_clause <$> p).

(** ** Its meaning *)

Definition constant_value (c : constant) : json := match c with CText _ s => JStr s | CInt z => JNum (tostring z) end.
Definition term_value (ctx : context) (t : term) : option json :=
  match t with TConst c => Some (constant_value c) | TRef r => resolve ctx r | TList l => Some (JArr (constant_value <$> l)) end.
Definition atom_value (ctx : context) (a : atom) : option bool :=
  match a with
  | Compare o a b => x ← term_value ctx a; y ← term_value ctx b; apply_op o x y
  | In_ a b => x ← term_value ctx a; y ← term_value ctx b; contained x y
  | Exists r => Some (bool_decide (is_Some (resolve ctx r)))
  end.
Fixpoint lit_value (ctx : context) (l : lit) : option bool := match l with Atom a => atom_value ctx a | Not l => negb <$> lit_value ctx l end.
(** An error in a part is an error of the whole. *)
Definition clause_value (ctx : context) (c : list lit) : option bool := forallb id <$> mapM (lit_value ctx) c.
Definition value (ctx : context) (p : list (list lit)) : option bool := existsb id <$> mapM (clause_value ctx) p.

(** ** References read back *)

Lemma span_word_all s r : str_all word_char s = true -> (forall c t, r = String c t -> word_char c = false) -> span_word (s +++ r) = (s, r).
Proof.
  intros Hs Hr. induction s as [|c s IH]; simpl in *.
  - destruct r as [|c t]; [done|]. simpl. by rewrite (Hr c t).
  - apply andb_true_iff in Hs as [-> Hs]. by rewrite IH.
Qed.
Definition dotted (p : list string) : string := foldr (fun p s => "." +++ p +++ s) "" p.
Lemma dotted_head p c t : dotted p = String c t -> word_char c = false.
Proof. destruct p as [|w p]; [done|]. by intros [= <- _]. Qed.
Lemma span_path_dotted p fuel : Forall word p -> (String.length (dotted p) <= fuel)%nat -> span_path fuel (dotted p) = (p, "").
Proof.
  intros Hp. revert fuel. induction Hp as [|w p [Hw Hc] Hp IH]; intros fuel Hf; [by destruct fuel|].
  change (dotted (w :: p)) with (String "." (w +++ dotted p)) in *. simpl in Hf. destruct fuel as [|fuel]; [lia|].
  rewrite span_path_eq, decide_True by done. rewrite (span_word_all w (dotted p) Hc) by apply dotted_head.
  destruct w as [|c w]; [done|]. rewrite length_append in Hf. rewrite IH by lia. done.
Qed.
Lemma full_ref_text r : ref_wf r -> full_ref (text r) = Some r.
Proof.
  destruct r as [rt p]. intros [(c & s & Hr & Hc & Hs) Hp]. simpl in Hr, Hp. subst rt. unfold full_ref, text. simpl root. simpl path. fold (dotted p).
  rewrite match_ref_eq. cbn [String.append]. rewrite decide_True, Hc by done.
  change (String c (s +++ dotted p)) with (String c s +++ dotted p).
  rewrite (span_word_all (String c s) (dotted p)) by (try apply dotted_head; simpl; unfold word_char; by rewrite Hc).
  by rewrite span_path_dotted.
Qed.

(** ** Texts that a split passes over *)

Definition prepend (s : string) (p : string * list string) : string * list string := (s +++ p.1, p.2).
Definition passes (sep : string) (depth : Z) (s rest : string) : Prop :=
  split_from sep (s +++ rest) 0 depth None = prepend s (split_from sep rest 0 depth None).
Lemma passes_nil sep depth rest : passes sep depth "" rest.
Proof. unfold passes, prepend. simpl. by destruct (split_from sep rest 0 depth None). Qed.
Lemma passes_app sep depth a b rest : passes sep depth a (b +++ rest) -> passes sep depth b rest -> passes sep depth (a +++ b) rest.
Proof. unfold passes, prepend. intros Ha Hb. by rewrite append_assoc, Ha, Hb, append_assoc. Qed.
Definition bracket (c : ascii) : bool := bool_decide (c ∈ ["("; "["]%char) || bool_decide (c ∈ [")"; "]"]%char).
Lemma passes_char sep depth c rest : is_quote c = false -> bracket c = false -> (depth =? 0) && startswith sep (String c rest) = false ->
  passes sep depth (String c "") rest.
Proof.
  unfold passes, bracket. intros Hq [Ho Hc]%orb_false_iff Hs. cbn [String.append split_from]. rewrite Hq, Ho, Hc, Hs.
  by destruct (split_from sep rest 0 depth None).
Qed.
(** The separators in use begin with a blank, an operator or a comma. *)
Definition cut_char (c : ascii) : bool := bool_decide (c ∈ [" "; "="; "!"; ">"; "<"; ","]%char).
Definition separator (sep : string) : Prop := exists d tl, sep = String d tl /\ cut_char d = true.
Definition calm (c : ascii) : bool := negb (is_quote c) && negb (bracket c) && negb (cut_char c) && negb (py_space c).
Lemma passes_calm sep s depth rest : separator sep -> str_all calm s = true -> passes sep depth s rest.
Proof.
  intros (d & tl & Hsep & Hd). induction s as [|c s IH]; [intros _; apply passes_nil|]. simpl. intros [Hc Hs]%andb_true_iff.
  change (String c s) with (String c "" +++ s). apply passes_app; [|by apply IH].
  unfold calm in Hc. rewrite !andb_true_iff, !negb_true_iff in Hc. destruct Hc as [[[Hq Hb] Hk] _]. apply passes_char; [done|done|].
  rewrite Hsep. simpl. rewrite bool_decide_eq_false_2 by (intros ->; congruence). apply andb_false_r.
Qed.
Lemma in_quote sep q s t depth : str_mem q s = false ->
  split_from sep (s +++ String q t) 0 depth (Some q) = prepend (s +++ String q "") (split_from sep t 0 depth None).
Proof.
  unfold prepend. induction s as [|c s IH]; cbn [String.append split_from str_mem].
  - intros _. rewrite decide_True by done. by destruct (split_from sep t 0 depth None).
  - intros [Hc Hs]%orb_false_iff. apply bool_decide_eq_false in Hc. rewrite decide_False by done. by rewrite (IH Hs).
Qed.
Lemma str_all_impl (p q : ascii -> bool) s : (forall c, p c = true -> q c = true) -> str_all p s = true -> str_all q s = true.
Proof. intros Hi. induction s as [|c s IH]; [done|]. simpl. intros [Hc Hs]%andb_true_iff. by rewrite (Hi c Hc), (IH Hs). Qed.
Lemma digit_calm c : digit c = true -> calm c = true.
Proof. by destruct c as [[] [] [] [] [] [] [] []]; vm_compute. Qed.
Lemma word_calm c : word_char c = true -> calm c = true.
Proof. by destruct c as [[] [] [] [] [] [] [] []]; vm_compute. Qed.
(** A numeral: digits, or a minus sign and digits. *)
Lemma tostring_shape z : exists d, str_all digit d = true /\ starts_digit d = true /\
  ((tostring z = d /\ digits_value 0 d = z) \/ (tostring z = String "-" d /\ - digits_value 0 d = z)).
Proof.
  destruct z as [|p|p].
  - exists "0". split; [done|split; [done|left; done]].
  - destruct (tostring_digits (Z.pos p) ltac:(lia)) as (Hd & Hv & Hs). exists (tostring (Z.pos p)). split; [done|split; [done|left; done]].
  - destruct (tostring_digits (Z.pos p) ltac:(lia)) as (Hd & Hv & Hs). exists (tostring (Z.pos p)). split; [done|split; [done|right]]. split; [done|]. by rewrite Hv.
Qed.
Lemma tostring_calm z : str_all calm (tostring z) = true.
Proof.
  destruct (tostring_shape z) as (d & Hd & _ & [[-> _]|[-> _]]); apply (str_all_impl _ _ _ digit_calm) in Hd; [done|]. simpl. by rewrite Hd.
Qed.
Lemma text_calm r : ref_wf r -> str_all calm (text r) = true.
Proof.
  destruct r as [rt p]. intros [(c & s & Hr & Hc & Hs) Hp]. simpl in Hr, Hp. subst rt. unfold text. cbn [root path]. fold (dotted p).
  assert (Happ : forall a b, str_all calm a = true -> str_all calm b = true -> str_all calm (a +++ b) = true).
  { intros a b. induction a as [|x a IH]; [done|]. simpl. intros [Hx Ha]%andb_true_iff Hb. by rewrite Hx, IH. }
  apply (Happ "$"); [done|]. apply Happ.
  - simpl. rewrite (word_calm c) by (unfold word_char; by rewrite Hc). by apply (str_all_impl _ _ _ word_calm).
  - induction Hp as [|w p [_ Hw] _ IH]; [done|]. change (dotted (w :: p)) with ("." +++ w +++ dotted p). apply (Happ "."); [done|].
    apply Happ; [by apply (str_all_impl _ _ _ word_calm)|done].
Qed.
Lemma passes_constant sep c depth rest : separator sep -> constant_wf c -> passes sep depth (show_constant c) rest.
Proof.
  intros Hsep Hc. destruct c as [q s|z]; simpl in *; [|apply passes_calm; [done|apply tostring_calm]].
  destruct Hc as [Hq Hs]. unfold passes. cbn [String.append]. rewrite append_assoc. cbn [String.append split_from]. rewrite Hq, (in_quote _ _ _ _ _ Hs).
  by destruct (split_from sep rest 0 depth None).
Qed.
Lemma passes_list sep l rest : separator sep -> Forall constant_wf l -> passes sep 0 ("[" +++ join ", " (show_constant <$> l) +++ "]") rest.
Proof.
  intros Hsep Hl.
  assert (Hin : forall l tl, Forall constant_wf l -> passes sep 1 (join ", " (show_constant <$> l)) tl).
  { clear l Hl. intros l tl Hl. induction Hl as [|c l Hc Hl IH]; [apply passes_nil|]. destruct l as [|c' l]; [by apply passes_constant|].
    change (join ", " (show_constant <$> c :: c' :: l)) with (show_constant c +++ ", " +++ join ", " (show_constant <$> c' :: l)).
    apply passes_app; [by apply passes_constant|]. apply passes_app; [|done]. apply (passes_app sep 1 "," " "); by apply passes_char. }
  unfold passes. rewrite !append_assoc. change ("[" +++ ?x) with (String "[" x). cbn [split_from].
  change (is_quote "[") with false. change (bool_decide ("["%char ∈ ["("; "["]%char)) with true. cbn iota.
  pose proof (Hin l ("]" +++ rest) Hl) as Hp. unfold passes in Hp. change (0 + 1) with 1. rewrite Hp. unfold prepend.
  change ("]" +++ rest) with (String "]" rest). cbn [split_from].
  change (is_quote "]") with false. change (bool_decide ("]"%char ∈ ["("; "["]%char)) with false. change (bool_decide ("]"%char ∈ [")"; "]"]%char)) with true. cbn iota.
  change (1 - 1) with 0. destruct (split_from sep rest 0 0 None). cbn [fst snd String.append]. by rewrite append_assoc.
Qed.
Lemma passes_term sep t rest : separator sep -> term_wf t -> passes sep 0 (show_term t) rest.
Proof.
  intros Hsep Ht. destruct t as [c|r|l]; [by apply passes_constant|apply passes_calm; [done|by apply text_calm]|by apply passes_list].
Qed.

(** ** Reading a term *)

Lemma calm_strip s : str_all calm s = true -> strip s = s.
Proof.
  intros Hs. assert (Hr : forall s, str_all calm s = true -> lstrip s = s /\ rstrip s = s); [|unfold strip; destruct (Hr s Hs) as [-> ->]; done].
  clear s Hs. intros s. induction s as [|c s IH]; [done|]. simpl. intros [Hc Hs]%andb_true_iff. destruct (IH Hs) as [_ Hr].
  unfold calm in Hc. rewrite !andb_true_iff, !negb_true_iff in Hc. destruct Hc as [_ Hc]. rewrite Hc, Hr. by destruct s.
Qed.
Lemma strip_between c s d : py_space c = false -> py_space d = false -> strip (String c (s +++ String d "")) = String c (s +++ String d "").
Proof. intros Hc Hd. unfold strip. cbn [lstrip]. rewrite Hc. exact (rstrip_last (String c s) d Hd). Qed.
Lemma rstrip_blank s : rstrip (s +++ " ") = rstrip s.
Proof. induction s as [|c s IH]; [done|]. cbn [String.append rstrip]. by rewrite IH. Qed.
Lemma strip_right s : strip s = s -> s <> "" -> strip (s +++ " ") = s.
Proof.
  intros Hs Hn. unfold strip in *. assert (Hl : lstrip (s +++ " ") = lstrip s +++ " ").
  { destruct s as [|c s]; [done|]. cbn [String.append lstrip]. destruct (py_space c) eqn:E; [|done]. exfalso.
    pose proof (strip_begins (String c s)) as Hb. unfold strip in Hb. rewrite Hs in Hb. simpl in Hb. congruence. }
  by rewrite Hl, rstrip_blank.
Qed.
Lemma strip_left s : strip (String " " s) = strip s.
Proof. done. Qed.
Lemma constant_strip c : constant_wf c -> strip (show_constant c) = show_constant c /\ show_constant c <> "".
Proof.
  destruct c as [q s|z]; simpl.
  - intros [Hq _]. split; [|done]. assert (Hs : py_space q = false); [|by apply strip_between].
    unfold is_quote in Hq. apply orb_true_iff in Hq as [Hq|Hq]; apply bool_decide_eq_true in Hq as ->; done.
  - intros _. split; [apply calm_strip, tostring_calm|]. destruct (tostring_shape z) as ([|c d] & _ & Hs & [[-> _]|[-> _]]); done.
Qed.
Lemma term_strip t : term_wf t -> strip (show_term t) = show_term t /\ show_term t <> "".
Proof.
  destruct t as [c|r|l]; [apply constant_strip| |].
  - intros Hr. split; [by apply calm_strip, text_calm|done].
  - intros _. split; [|done]. by apply strip_between.
Qed.

Lemma take_app_string s t n : (n = String.length s)%nat -> str_take n (s +++ t) = s.
Proof. intros ->. induction s as [|c s IH]; [by destruct t|]. simpl. by rewrite IH. Qed.
Lemma between_ends c s d : between 1 1 (String c (s +++ d)) = s \/ String.length d <> 1%nat.
Proof.
  destruct (decide (String.length d = 1%nat)) as [Hd|]; [left|by right]. unfold between. simpl. apply take_app_string. rewrite length_append. lia.
Qed.
Lemma last_char_app s c : last_char (s +++ String c "") = Some c.
Proof.
  unfold last_char. rewrite length_append. simpl. replace (String.length s + 1 - 1)%nat with (String.length s) by lia.
  induction s as [|x s IH]; [done|]. exact IH.
Qed.
Lemma quoted_text q s : is_quote q = true -> quoted (String q (s +++ String q "")) = Some s.
Proof.
  intros Hq. assert (Hl : last_char (String q (s +++ String q "")) = Some q) by exact (last_char_app (String q s) q).
  assert (Hb : between 1 1 (String q (s +++ String q "")) = s) by (by destruct (between_ends q s (String q ""))).
  unfold quoted. rewrite Hl, Hb, Hq, bool_decide_eq_true_2 by done. by destruct s.
Qed.
Lemma quoted_none c s : is_quote c = false -> quoted (String c s) = None.
Proof. intros Hc. destruct s; [done|]. unfold quoted. by rewrite Hc. Qed.
Lemma endswith_last s c : endswith (String c "") (s +++ String c "") = true.
Proof.
  unfold endswith. rewrite length_append. simpl. replace (String.length s + 1 - 1)%nat with (String.length s) by lia.
  rewrite str_drop_append, bool_decide_eq_true_2 by done. by rewrite Nat.add_1_r.
Qed.
(** The heads of numerals and references. *)
Definition number_head (c : ascii) : Prop := digit c = true \/ c = "-"%char \/ c = "$"%char.
Lemma head_facts c s : number_head c -> is_quote c = false /\ startswith "[" (String c s) = false /\
  bool_decide (lower (String c s) ∈ ["true"; "false"]) = false /\ bool_decide (lower (String c s) ∈ ["null"; "none"]) = false.
Proof.
  intros Hc. assert (Hh : is_quote c = false /\ c <> "["%char /\ lower_char c ∉ ["t"; "f"; "n"]%char).
  { destruct Hc as [Hc|[->| ->]]; [apply digit_cases in Hc; repeat (apply elem_of_cons in Hc as [->|Hc]; [by split; [|split; [|apply (bool_decide_unpack _)]]|]); by apply not_elem_of_nil in Hc|..];
      (split; [done|split; [done|by apply (bool_decide_unpack _)]]). }
  destruct Hh as (Hq & Hb & Hl). rewrite !not_elem_of_cons in Hl. destruct Hl as (Ht & Hf & Hn & _).
  split; [done|split; [|split]].
  - simpl. by rewrite bool_decide_eq_false_2 by done.
  - apply bool_decide_eq_false_2. cbn [lower]. rewrite !elem_of_cons. by intros [[= E _]|[[= E _]|?%not_elem_of_nil]].
  - apply bool_decide_eq_false_2. cbn [lower]. rewrite !elem_of_cons. by intros [[= E _]|[[= E _]|?%not_elem_of_nil]].
Qed.
Lemma py_int_tostring z : py_int_text (tostring z) = Some z.
Proof.
  unfold py_int_text. rewrite (calm_strip _ (tostring_calm z)).
  destruct (tostring_shape z) as (d & Hd & Hs & [[-> Hv]|[-> Hv]]).
  - assert (Hu : drop_sign d = d /\ negative d = false).
    { destruct d as [|c d]; [done|]. simpl in Hs. apply digit_cases in Hs. repeat (apply elem_of_cons in Hs as [->|Hs]; [done|]). by apply not_elem_of_nil in Hs. }
    destruct Hu as [-> Hn]. rewrite Hs, digits_rest by done. unfold signed. by rewrite Hn, Hv.
  - change (drop_sign (String "-" d)) with d. rewrite Hs, digits_rest by done. unfold signed. simpl. by rewrite Hv.
Qed.
Lemma number_head_of z : exists c s, tostring z = String c s /\ number_head c.
Proof.
  destruct (tostring_shape z) as (d & _ & Hs & [[-> _]|[-> _]]); [|by exists "-"%char, d; split; [|right; left]].
  destruct d as [|c d]; [done|]. exists c, d. split; [done|by left].
Qed.
Lemma py_float_dollar s : py_int_text (String "$" s) = None /\ py_float (String "$" s) = None.
Proof.
  split; [|done]. unfold py_int_text, strip. cbn [lstrip]. change (py_space "$") with false. cbn iota.
  cbn [rstrip]. destruct (rstrip s); done.
Qed.
Lemma eval_constant fuel ctx c : constant_wf c -> forall token, strip token = show_constant c -> _eval_operand (S fuel) token ctx = Some (constant_value c).
Proof.
  intros Hc token Ht. cbn [_eval_operand]. rewrite Ht. destruct c as [q s|z]; simpl in Hc.
  - destruct Hc as [Hq _]. cbn [show_constant]. cbn [str_truthy negb]. by rewrite (quoted_text q s Hq).
  - cbn [show_constant constant_value]. destruct (number_head_of z) as (c & s & Hz & Hh). pose proof (py_int_tostring z) as Hi.
    rewrite Hz in *. destruct (head_facts c s Hh) as (Hq & Hb & Ht1 & Ht2). cbn [str_truthy negb].
    rewrite (quoted_none c s Hq), Hb, Ht1, Ht2, Hi. cbn [andb]. by rewrite Hz.
Qed.
Lemma split_passes sep a rest : passes sep 0 a rest -> _split_top (a +++ rest) sep =
  match _split_top rest sep with w :: ws => (a +++ w) :: ws | [] => [] end.
Proof. unfold passes, _split_top, prepend. intros ->. by destruct (split_from sep rest 0 0 None). Qed.
(** A separator that follows a text cuts there. *)
Lemma split_cut sep rest : separator sep -> _split_top (sep +++ rest) sep = "" :: _split_top rest sep.
Proof.
  intros (d & tl & Hs & Hd). unfold _split_top. rewrite Hs at 2. cbn [String.append split_from].
  assert (Hc : is_quote d = false /\ bool_decide (d ∈ ["("; "["]%char) = false /\ bool_decide (d ∈ [")"; "]"]%char) = false).
  { unfold cut_char in Hd. apply bool_decide_eq_true in Hd. repeat (apply elem_of_cons in Hd as [->|Hd]; [by vm_compute|]). by apply not_elem_of_nil in Hd. }
  destruct Hc as (-> & -> & ->). pose proof (startswith_append sep rest) as Hst. rewrite Hs in Hst at 2. cbn [String.append] in Hst.
  rewrite Hst. cbn [Z.eqb andb]. replace (String.length sep - 1)%nat with (String.length tl) by (rewrite Hs; simpl; lia).
  rewrite split_skip. by destruct (split_from sep rest 0 0 None).
Qed.
Lemma split_end sep a : passes sep 0 a "" -> _split_top a sep = [a].
Proof. intros H. rewrite <- (append_nil_r a) at 1. rewrite (split_passes _ _ _ H). simpl. by rewrite append_nil_r. Qed.
Lemma comma_separator : separator ",".
Proof. by exists ","%char, "". Qed.
Lemma split_constants c l : Forall constant_wf (c :: l) ->
  _split_top (join ", " (show_constant <$> c :: l)) "," = show_constant c :: ((fun x => " " +++ show_constant x) <$> l).
Proof.
  revert c. induction l as [|c' l IH]; intros c [Hc Hl]%Forall_cons.
  - apply split_end. by apply passes_constant; [apply comma_separator|].
  - change (join ", " (show_constant <$> c :: c' :: l)) with (show_constant c +++ "," +++ " " +++ join ", " (show_constant <$> c' :: l)).
    rewrite split_passes by by apply passes_constant; [apply comma_separator|].
    rewrite (split_cut "," _ comma_separator), append_nil_r. rewrite split_passes by by apply passes_char.
    rewrite (IH c' Hl). done.
Qed.
Lemma rstrip_app a b : rstrip b <> "" -> rstrip (a +++ b) = a +++ rstrip b.
Proof. intros Hb. induction a as [|c a IH]; [done|]. cbn [String.append rstrip]. rewrite IH. destruct (a +++ rstrip b) eqn:E; [|done]. by destruct a, (rstrip b). Qed.
Lemma strip_ends s : strip s = s -> begins_blank s = false /\ rstrip s = s.
Proof.
  intros Hs. assert (Hb : begins_blank s = false) by (rewrite <- Hs; apply strip_begins). split; [done|].
  unfold strip in Hs. by rewrite (lstrip_same s Hb) in Hs.
Qed.
Lemma join_strip c l : Forall constant_wf (c :: l) -> strip (join ", " (show_constant <$> c :: l)) = join ", " (show_constant <$> c :: l).
Proof.
  intros Hl. enough (H : begins_blank (join ", " (show_constant <$> c :: l)) = false /\ rstrip (join ", " (show_constant <$> c :: l)) = join ", " (show_constant <$> c :: l)).
  { destruct H as [Hb Hr]. unfold strip. by rewrite (lstrip_same _ Hb). }
  revert c Hl. induction l as [|c' l IH]; intros c [Hc Hl]%Forall_cons; destruct (constant_strip c Hc) as [Hs Hn]; apply strip_ends in Hs as [Hb Hr]; [done|].
  destruct (IH c' Hl) as [_ Hr'].
  change (join ", " (show_constant <$> c :: c' :: l)) with (show_constant c +++ ", " +++ join ", " (show_constant <$> c' :: l)).
  set (J := join ", " (show_constant <$> c' :: l)) in *. assert (HJ : J <> "").
  { apply Forall_cons in Hl as [Hc' _]. destruct (constant_strip c' Hc') as [_ Hn']. unfold J. simpl. destruct l; [done|]. simpl. by destruct (show_constant c'). }
  split; [by destruct (show_constant c)|].
  assert (H1 : rstrip (", " +++ J) = ", " +++ J) by (rewrite rstrip_app; rewrite Hr'; done).
  rewrite rstrip_app; rewrite H1; done.
Qed.
Lemma eval_term ctx t token fuel : term_wf t -> strip token = show_term t -> (String.length (show_term t) <= fuel)%nat ->
  _eval_operand (S fuel) token ctx = term_value ctx t.
Proof.
  intros Ht Hs Hf. destruct t as [c|r|l]; [by apply eval_constant| |].
  - cbn [_eval_operand]. rewrite Hs. cbn [show_term] in *. assert (Hd : text r = String "$" (root r +++ dotted (path r))) by done.
    destruct (head_facts "$"%char (root r +++ dotted (path r)) ltac:(by right; right)) as (Hq & Hb & Ht1 & Ht2).
    pose proof (py_float_dollar (root r +++ dotted (path r))) as [Hi Hfl].
    assert (Hp : parse_ref (text r) = Some r) by (unfold parse_ref; rewrite (calm_strip _ (text_calm r Ht)); by apply full_ref_text).
    rewrite Hd in *. cbn [str_truthy negb]. rewrite (quoted_none _ _ Hq), Hb, Ht1, Ht2, Hi, Hfl, Hp. done.
  - cbn [_eval_operand]. rewrite Hs. cbn [show_term term_value term_wf] in *. pose proof (join_strip) as HJ. set (J := join ", " (show_constant <$> l)) in *.
    change ("[" +++ J +++ "]") with (String "[" (J +++ String "]" "")) in *. cbn [str_truthy negb].
    rewrite quoted_none by done. change (startswith "[" (String "[" ?x)) with true.
    change (endswith "]" (String "[" (J +++ String "]" ""))) with (endswith (String "]" "") (String "[" J +++ String "]" "")). rewrite endswith_last. cbn [andb].
    assert (Hb : between 1 1 (String "[" (J +++ String "]" "")) = J) by (by destruct (between_ends "[" J (String "]" ""))). rewrite Hb.
    destruct l as [|c l]; [done|]. unfold J. rewrite (HJ c l Ht).
    assert (Htr : str_truthy (join ", " (show_constant <$> c :: l)) = true).
    { apply Forall_cons in Ht as [Hc _]. destruct (constant_strip c Hc) as [_ Hn]. simpl. destruct l; simpl; by destruct (show_constant c). }
    rewrite Htr, (split_constants c l Ht). cbn [negb]. simpl in Hf. destruct fuel as [|fuel]; [lia|].
    apply Forall_cons in Ht as [Hc Hl].
    assert (Hm : forall l, Forall constant_wf l -> mapM (fun part => _eval_operand (S fuel) part ctx) ((fun x => " " +++ show_constant x) <$> l) = Some (constant_value <$> l)).
    { clear -Hc. intros l Hl. induction Hl as [|x l Hx _ IH]; [done|]. cbn [fmap list_fmap mapM].
      rewrite (eval_constant fuel ctx x Hx) by (change (strip (" " +++ show_constant x)) with (strip (show_constant x)); by apply constant_strip). cbn [mbind option_bind]. by rewrite IH. }
    cbn [mapM]. rewrite (eval_constant fuel ctx c Hc) by by apply constant_strip. cbn [mbind option_bind]. by rewrite (Hm l Hl).
Qed.

(** ** Splitting an atom *)

(** What a term begins with. *)
Definition term_heads : list ascii := ["'"; DQ; "-"; "$"; "["; "0"; "1"; "2"; "3"; "4"; "5"; "6"; "7"; "8"; "9"]%char.
Lemma head_spec c : c ∈ term_heads -> c ∉ ["o"; "a"; "i"]%char /\ lower_char c ∉ ["n"; "e"]%char /\ py_space c = false.
Proof.
  intros Hc. unfold term_heads in Hc. repeat (apply elem_of_cons in Hc as [->|Hc];
    [split; [by apply (bool_decide_unpack _)|split; [by apply (bool_decide_unpack _)|done]]|]). by apply not_elem_of_nil in Hc.
Qed.
Lemma constant_head c : constant_wf c -> exists h s, show_constant c = String h s /\ h ∈ term_heads.
Proof.
  destruct c as [q s|z]; simpl.
  - intros [Hq _]. eexists q, _. split; [done|]. unfold is_quote in Hq. unfold term_heads. rewrite !elem_of_cons.
    apply orb_true_iff in Hq as [Hq|Hq]; apply bool_decide_eq_true in Hq; auto.
  - intros _. destruct (tostring_shape z) as (d & _ & Hs & [[-> _]|[-> _]]).
    + destruct d as [|c d]; [done|]. exists c, d. split; [done|]. simpl in Hs. apply digit_cases in Hs. unfold term_heads. do 5 (apply elem_of_cons; right). exact Hs.
    + eexists _, _. split; [done|]. by apply (bool_decide_unpack _).
Qed.
Lemma term_head t : term_wf t -> exists h s, show_term t = String h s /\ h ∈ term_heads.
Proof.
  destruct t as [c|r|l]; [apply constant_head| |]; intros _; eexists _, _; (split; [reflexivity|by apply (bool_decide_unpack _)]).
Qed.
Lemma passes_cons sep c s rest : is_quote c = false -> bracket c = false -> startswith sep (String c (s +++ rest)) = false ->
  passes sep 0 s rest -> passes sep 0 (String c s) rest.
Proof. intros Hq Hb Hs Hp. change (String c s) with (String c "" +++ s). apply passes_app; [|done]. by apply passes_char. Qed.
Ltac pass_over :=
  repeat (apply passes_cons;
    [reflexivity|reflexivity|first [reflexivity|simpl; rewrite ?bool_decide_eq_false_2 by congruence; reflexivity]|]); apply passes_nil.
(** A blank before a word that no separator begins with. *)
Lemma passes_mid sep o h s rest : h ∉ ["o"; "a"; "i"]%char -> sep ∈ [" or "; " and "; " in "] ->
  passes sep 0 (" " +++ show_op o +++ " ") (String h s +++ rest).
Proof.
  rewrite !not_elem_of_cons. intros (Ho & Ha & Hi & _) Hs. repeat (apply elem_of_cons in Hs as [->|Hs]; [by destruct o; simpl; pass_over|]).
  by apply not_elem_of_nil in Hs.
Qed.
Lemma passes_in sep h s rest : h ∉ ["o"; "a"; "i"]%char -> sep ∈ " or " :: " and " :: _OPS.*1 ->
  passes sep 0 " in " (String h s +++ rest).
Proof.
  rewrite !not_elem_of_cons. intros (Ho & Ha & Hi & _) Hs. repeat (apply elem_of_cons in Hs as [->|Hs]; [by simpl; pass_over|]).
  by apply not_elem_of_nil in Hs.
Qed.
Lemma separators sep : sep ∈ " or " :: " and " :: " in " :: _OPS.*1 -> separator sep.
Proof. intros Hs. repeat (apply elem_of_cons in Hs as [->|Hs]; [by do 2 eexists|]). by apply not_elem_of_nil in Hs. Qed.

Definition connective (sep : string) : Prop := sep = " or " \/ sep = " and ".
Lemma connective_separator sep : connective sep -> separator sep.
Proof. intros [->| ->]; by do 2 eexists. Qed.
Lemma passes_atom sep a rest : connective sep -> atom_wf a -> passes sep 0 (show_atom a) rest.
Proof.
  intros Hc Ha. pose proof (connective_separator sep Hc) as Hsep.
  assert (Hin : sep ∈ [" or "; " and "; " in "]) by (rewrite !elem_of_cons; destruct Hc as [->| ->]; auto).
  assert (Hin2 : sep ∈ " or " :: " and " :: _OPS.*1) by (rewrite !elem_of_cons; destruct Hc as [->| ->]; auto).
  destruct a as [o a b|a b|r]; simpl in Ha.
  - destruct Ha as [Ha Hb]. destruct (term_head b Hb) as (h & s & Hs & Hh). apply head_spec in Hh as (Hh & _).
    change (show_atom (Compare o a b)) with (show_term a +++ " " +++ show_op o +++ " " +++ show_term b).
    apply passes_app; [by apply passes_term|].
    replace (" " +++ show_op o +++ " " +++ show_term b) with ((" " +++ show_op o +++ " ") +++ show_term b) by by destruct o.
    apply passes_app; [|by apply passes_term]. rewrite Hs. by apply passes_mid.
  - destruct Ha as [Ha Hb]. destruct (term_head b Hb) as (h & s & Hs & Hh). apply head_spec in Hh as (Hh & _).
    cbn [show_atom]. apply passes_app; [by apply passes_term|]. apply passes_app; [|by apply passes_term]. rewrite Hs. by apply passes_in.
  - cbn [show_atom]. change ("exists(" +++ text r +++ ")") with ("exists" +++ String "(" (text r +++ ")")). apply passes_app; [by apply passes_calm|].
    unfold passes. cbn [String.append split_from]. change (is_quote "(") with false. change (bool_decide ("("%char ∈ ["("; "["]%char)) with true. cbn iota.
    pose proof (passes_calm sep (text r) 1 (")" +++ rest) Hsep (text_calm r Ha)) as Hp. unfold passes in Hp. change (0 + 1) with 1.
    rewrite append_assoc, Hp. unfold prepend. change (")" +++ rest) with (String ")" rest). cbn [split_from].
    change (is_quote ")") with false. change (bool_decide (")"%char ∈ ["("; "["]%char)) with false. change (bool_decide (")"%char ∈ [")"; "]"]%char)) with true. cbn iota.
    change (1 - 1) with 0. destruct (split_from sep rest 0 0 None). cbn [fst snd String.append]. by rewrite append_assoc.
Qed.

(** ** Texts without blanks at their ends *)

Definition tight (s : string) : Prop := begins_blank s = false /\ rstrip s = s /\ s <> "".
Lemma tight_strip s : tight s -> strip s = s.
Proof. intros (Hb & Hr & _). unfold strip. by rewrite (lstrip_same s Hb). Qed.
Lemma tight_term t : term_wf t -> tight (show_term t).
Proof. intros Ht. destruct (term_strip t Ht) as [Hs Hn]. destruct (strip_ends _ Hs). by split. Qed.
Lemma tight_app a m b : tight a -> tight b -> tight (a +++ m +++ b).
Proof.
  intros (Hb & Hr & Hn) (_ & Hr' & Hn'). split; [by destruct a|].
  assert (Hm : rstrip (m +++ b) = m +++ b) by (rewrite rstrip_app; rewrite Hr'; done).
  assert (Hne : m +++ b <> "") by (destruct m; done).
  split; [rewrite rstrip_app; rewrite Hm; done|by destruct a].
Qed.
Lemma tight_prefix c s m b : py_space c = false -> tight b -> tight (String c s +++ m +++ b).
Proof.
  intros Hc (_ & Hr & Hn). assert (Hm : rstrip (m +++ b) = m +++ b) by (rewrite rstrip_app; rewrite Hr; done).
  assert (Hne : m +++ b <> "") by (destruct m; done).
  split; [simpl; by rewrite Hc|split; [rewrite rstrip_app; rewrite Hm; done|done]].
Qed.
Lemma tight_atom a : atom_wf a -> tight (show_atom a).
Proof.
  destruct a as [o a b|a b|r]; simpl.
  - intros [Ha Hb]. replace (show_term a +++ _) with (show_term a +++ (" " +++ show_op o +++ " ") +++ show_term b) by by destruct o.
    apply tight_app; by apply tight_term.
  - intros [Ha Hb]. apply (tight_app _ " in "); by apply tight_term.
  - intros Hr. apply (tight_prefix "e" "xists(" (text r) ")"); [done|]. by repeat split.
Qed.

(** ** Atoms *)

Lemma operand_term ctx t token : term_wf t -> strip token = show_term t -> (String.length (show_term t) <= String.length token)%nat ->
  operand ctx token = term_value ctx t.
Proof. intros Ht Hs Hl. unfold operand. by apply eval_term. Qed.
Lemma operand_left ctx t : term_wf t -> operand ctx (show_term t +++ " ") = term_value ctx t.
Proof. intros Ht. destruct (term_strip t Ht) as [Hs Hn]. apply operand_term; [done|by apply strip_right|rewrite length_append; lia]. Qed.
Lemma operand_whole ctx t : term_wf t -> operand ctx (show_term t) = term_value ctx t.
Proof. intros Ht. apply operand_term; [done|by apply term_strip|done]. Qed.
Lemma operand_right ctx t : term_wf t -> operand ctx (" " +++ show_term t) = term_value ctx t.
Proof. intros Ht. apply operand_term; [done|apply term_strip; done|simpl; lia]. Qed.
(** An operator that is tried too early finds nothing to cut. *)
Definition earlier (o : op) : list string :=
  match o with
  | Eq_op => [] | Ne_op => ["=="] | Ge_op => ["=="; "!="] | Le_op => ["=="; "!="; ">="]
  | Gt_op => ["=="; "!="; ">="; "<="] | Lt_op => ["=="; "!="; ">="; "<="; ">"]
  end.
Lemma passes_earlier o sep rest : sep ∈ earlier o -> passes sep 0 (" " +++ show_op o +++ " ") rest.
Proof. intros Hs. destruct o; simpl in Hs; repeat (apply elem_of_cons in Hs as [->|Hs]; [by simpl; pass_over|]); by apply not_elem_of_nil in Hs. Qed.
Lemma op_separator o : separator (show_op o).
Proof. destruct o; by do 2 eexists. Qed.
Lemma earlier_separator o sep : sep ∈ earlier o -> separator sep.
Proof. intros Hs. apply separators. do 3 (apply elem_of_cons; right). destruct o; simpl in *; rewrite !elem_of_cons in *; naive_solver. Qed.
Lemma compare_shape o a b : show_atom (Compare o a b) = show_term a +++ (" " +++ show_op o +++ " ") +++ show_term b.
Proof. by destruct o. Qed.
Lemma split_compare o a b : term_wf a -> term_wf b ->
  _split_top (show_atom (Compare o a b)) (show_op o) = [show_term a +++ " "; " " +++ show_term b] /\
  forall sep, sep ∈ earlier o -> _split_top (show_atom (Compare o a b)) sep = [show_atom (Compare o a b)].
Proof.
  intros Ha Hb. split.
  - change (show_atom (Compare o a b)) with (show_term a +++ " " +++ show_op o +++ " " +++ show_term b).
    rewrite split_passes by (apply passes_term; [apply op_separator|done]).
    rewrite (split_passes _ " ") by (apply passes_char; [done|done|by destruct o]).
    rewrite (split_cut _ _ (op_separator o)). rewrite (split_passes _ " ") by (apply passes_char; [done|done|by destruct o]).
    rewrite split_end by (apply passes_term; [apply op_separator|done]). done.
  - intros sep Hs. rewrite compare_shape. apply split_end. apply passes_app; [apply passes_term; [by eapply earlier_separator|done]|].
    apply passes_app; [by apply passes_earlier|]. apply passes_term; [by eapply earlier_separator|done].
Qed.
Lemma eval_ops_skip ctx s sem ops e : _split_top e s = [e] -> eval_ops ctx ((s, sem) :: ops) e = eval_ops ctx ops e.
Proof. intros H. cbn [eval_ops]. by rewrite H. Qed.
Lemma eval_ops_hit ctx s sem ops e a b : _split_top e s = [a; b] ->
  eval_ops ctx ((s, sem) :: ops) e = (left ← operand ctx a; right ← operand ctx b; apply_op sem left right).
Proof. intros H. cbn [eval_ops]. by rewrite H. Qed.
Lemma eval_ops_compare ctx o a b : term_wf a -> term_wf b -> eval_ops ctx _OPS (show_atom (Compare o a b)) = atom_value ctx (Compare o a b).
Proof.
  intros Ha Hb. destruct (split_compare o a b Ha Hb) as [Hs He].
  assert (Hv : (left ← operand ctx (show_term a +++ " "); right ← operand ctx (" " +++ show_term b); apply_op o left right) = atom_value ctx (Compare o a b))
    by by rewrite operand_left, operand_right.
  unfold _OPS. rewrite <- Hv.
  destruct o; repeat (rewrite eval_ops_skip by (apply He; by apply (bool_decide_unpack _))); by rewrite (eval_ops_hit _ _ _ _ _ _ _ Hs).
Qed.
Lemma eval_ops_in ctx a b : term_wf a -> term_wf b -> eval_ops ctx _OPS (show_atom (In_ a b)) = atom_value ctx (In_ a b).
Proof.
  intros Ha Hb. destruct (term_head b Hb) as (h & s & Hs & Hh). apply head_spec in Hh as (Hh & _).
  assert (He : forall sep, sep ∈ _OPS.*1 -> _split_top (show_atom (In_ a b)) sep = [show_atom (In_ a b)]).
  { intros sep Hin. assert (Hsep : separator sep) by (apply separators; do 3 (apply elem_of_cons; right); done).
    apply split_end. cbn [show_atom]. apply passes_app; [by apply passes_term|]. apply passes_app; [|by apply passes_term].
    rewrite Hs. apply passes_in; [done|]. do 2 (apply elem_of_cons; right). done. }
  assert (Hin : _split_top (show_atom (In_ a b)) " in " = [show_term a; show_term b]).
  { assert (Hsep : separator " in ") by by do 2 eexists. cbn [show_atom]. rewrite split_passes by by apply passes_term.
    rewrite (split_cut " in " _ Hsep), append_nil_r. by rewrite split_end by by apply passes_term. }
  unfold _OPS in *. repeat (rewrite eval_ops_skip by (apply He; by apply (bool_decide_unpack _))). cbn [eval_ops]. rewrite Hin.
  rewrite (operand_whole ctx a Ha), (operand_whole ctx b Hb). done.
Qed.

(** ** The whole predicate *)

Section eval.
Variable ctx : context.

(** One step of the evaluation, with the parts evaluated as predicates. *)
Lemma eval_step e : tight e -> eval_predicate e ctx =
  match _split_top e " or ", _split_top e " and " with
  | (_ :: _ :: _) as parts, _ => existsb id <$> mapM (fun x => eval_predicate x ctx) parts
  | _, (_ :: _ :: _) as parts => forallb id <$> mapM (fun x => eval_predicate x ctx) parts
  | _, _ =>
      if startswith "not " (lower e) then negb <$> eval_predicate (str_drop 4 e) ctx
      else match exists_arg e with
           | Some a => Some (match parse_ref a with Some r => match resolve ctx r with Some _ => true | None => false end | None => false end)
           | None => eval_ops ctx _OPS e
           end
  end.
Proof.
  intros He. unfold eval_predicate at 1. cbn [eval_from]. rewrite (tight_strip e He). destruct He as (_ & _ & Hn).
  assert (Ht : str_truthy e = true) by by destruct e. rewrite Ht. cbn [negb].
  assert (Hp : forall sep tl x y l, sep = String " " tl -> _split_top e sep = x :: y :: l ->
    mapM (eval_from ctx (String.length e)) (x :: y :: l) = mapM (fun x => eval_predicate x ctx) (x :: y :: l)).
  { intros sep tl x y l Hs E. apply mapM_agree. intros z Hz. apply eval_from_fuel. exact (split_top_shorter sep _ tl Hs _ _ _ _ E z Hz). }
  destruct (_split_top e " or ") as [|x [|y l]] eqn:Eo; [| |by rewrite (Hp " or " _ _ _ _ eq_refl Eo)];
    (destruct (_split_top e " and ") as [|x' [|y' l']] eqn:En; [| |by rewrite (Hp " and " _ _ _ _ eq_refl En)]);
    (destruct (startswith "not " (lower e)); [|done]; rewrite eval_from_fuel; [done|]; rewrite length_drop_string; destruct e; [done|simpl; lia]).
Qed.
(** What no connective cuts. *)
Definition whole (e : string) : Prop := tight e /\ forall sep rest, connective sep -> passes sep 0 e rest.
Lemma whole_split e sep : whole e -> connective sep -> _split_top e sep = [e].
Proof. intros [_ He] Hc. by apply split_end, He. Qed.
Lemma eval_atom a : atom_wf a -> eval_predicate (show_atom a) ctx = atom_value ctx a.
Proof.
  intros Ha. assert (Hw : whole (show_atom a)) by (split; [by apply tight_atom|intros; by apply passes_atom]).
  rewrite (eval_step _ (proj1 Hw)), !whole_split by (try done; by (left + right)).
  destruct a as [o a b|a b|r].
  1-2: destruct Ha as [Ha Hb]; destruct (term_head a Ha) as (h & s & Hs & Hh); apply head_spec in Hh as (_ & Hl & _); rewrite !not_elem_of_cons in Hl; destruct Hl as (Hn & He & _).
  - rewrite <- (eval_ops_compare ctx o a b Ha Hb). unfold exists_arg. cbn [show_atom]. rewrite Hs. cbn [String.append lower startswith].
    by rewrite !bool_decide_eq_false_2 by congruence.
  - rewrite <- (eval_ops_in ctx a b Ha Hb). unfold exists_arg. cbn [show_atom]. rewrite Hs. cbn [String.append lower startswith].
    by rewrite !bool_decide_eq_false_2 by congruence.
  - cbn [show_atom]. change (startswith "not " (lower ("exists(" +++ text r +++ ")"))) with false. cbn iota.
    assert (Hx : exists_arg ("exists(" +++ text r +++ ")") = Some (text r)).
    { unfold exists_arg.
      change ("exists(" +++ text r +++ ")") with (("exists(" +++ text r) +++ String ")" ""). rewrite endswith_last.
      change (startswith "exists(" (lower (("exists(" +++ text r) +++ String ")" ""))) with true. cbn [andb].
      unfold between. cbn [String.append str_drop]. f_equal. rewrite (take_app_string (text r)).
      - apply calm_strip. by apply text_calm.
      - cbn [String.length]. rewrite length_append. simpl. lia. }
    rewrite Hx. cbn [atom_value]. unfold parse_ref. rewrite (calm_strip _ (text_calm r Ha)), (full_ref_text r Ha). by destruct (resolve ctx r).
Qed.
Lemma lit_head l : lit_wf l -> exists h s, show_lit l = String h s /\ h ∉ ["o"; "a"; "i"]%char.
Proof.
  destruct l as [[o a b|a b|r]|l]; simpl.
  1-2: intros [Ha _]; destruct (term_head a Ha) as (h & s & -> & Hh); apply head_spec in Hh as (Hh & _); eexists h, _; by split.
  - intros _. eexists _, _. split; [reflexivity|by apply (bool_decide_unpack _)].
  - intros _. eexists _, _. split; [reflexivity|by apply (bool_decide_unpack _)].
Qed.
Lemma whole_lit l : lit_wf l -> whole (show_lit l).
Proof.
  induction l as [a|l IH]; intros Hl.
  - split; [by apply tight_atom|intros; by apply passes_atom].
  - destruct (IH Hl) as [Ht Hp]. split; [by apply (tight_prefix "n" "ot " "")|]. intros sep rest Hc.
    destruct (lit_head l Hl) as (h & s & Hs & Hh). cbn [show_lit]. apply passes_app; [|by apply Hp]. rewrite Hs. rewrite !not_elem_of_cons in Hh.
    destruct Hh as (Ho & Hn & _). destruct Hc as [->| ->]; simpl; pass_over.
Qed.
Lemma eval_lit l : lit_wf l -> eval_predicate (show_lit l) ctx = lit_value ctx l.
Proof.
  induction l as [a|l IH]; intros Hl; [by apply eval_atom|]. pose proof (whole_lit (Not l) Hl) as Hw.
  rewrite (eval_step _ (proj1 Hw)), !whole_split by (try done; by (left + right)). cbn [show_lit lit_value].
  change (startswith "not " (lower ("not " +++ show_lit l))) with true. cbn iota. change (str_drop 4 ("not " +++ show_lit l)) with (show_lit l). by rewrite (IH Hl).
Qed.
Lemma split_join sep x l : connective sep -> Forall whole (x :: l) -> _split_top (join sep (x :: l)) sep = x :: l.
Proof.
  intros Hc. pose proof (connective_separator sep Hc) as Hsep. revert x. induction l as [|y l IH]; intros x [Hx Hl]%Forall_cons; [by apply whole_split|].
  change (join sep (x :: y :: l)) with (x +++ sep +++ join sep (y :: l)). rewrite split_passes by by apply Hx.
  rewrite (split_cut sep _ Hsep), append_nil_r. by rewrite (IH y Hl).
Qed.
Lemma tight_join sep x l : sep <> "" -> Forall (fun s => tight s) (x :: l) -> tight (join sep (x :: l)).
Proof.
  intros Hs. revert x. induction l as [|y l IH]; intros x [Hx Hl]%Forall_cons; [done|].
  change (join sep (x :: y :: l)) with (x +++ sep +++ join sep (y :: l)). apply tight_app; [done|by apply IH].
Qed.
(** A conjunction holds no disjunction. *)
Lemma passes_clause l c rest : Forall lit_wf (l :: c) -> passes " or " 0 (show_clause (l :: c)) rest.
Proof.
  unfold show_clause. revert l. induction c as [|l' c IH]; intros l [Hl Hc]%Forall_cons; [by apply (proj2 (whole_lit l Hl)); left|].
  change (join " and " (show_lit <$> l :: l' :: c)) with (show_lit l +++ " and " +++ join " and " (show_lit <$> l' :: c)).
  apply passes_app; [by apply (proj2 (whole_lit l Hl)); left|]. apply passes_app; [|by apply IH].
  assert (Hh : exists h s, join " and " (show_lit <$> l' :: c) = String h s /\ h ∉ ["o"; "a"; "i"]%char).
  { apply Forall_cons in Hc as [Hl' _]. destruct (lit_head l' Hl') as (h & s & Hs & Hh). simpl. rewrite Hs. destruct c; simpl; eauto. }
  destruct Hh as (h & s & -> & Hh). rewrite !not_elem_of_cons in Hh. destruct Hh as (Ho & _). simpl. pass_over.
Qed.
Lemma tight_clause l c : Forall lit_wf (l :: c) -> tight (show_clause (l :: c)).
Proof. intros Hl. apply (tight_join " and "); [done|]. change (Forall (fun s => tight s) (show_lit <$> l :: c)). apply Forall_fmap. eapply Forall_impl; [exact Hl|]. intros x Hx. by apply whole_lit. Qed.
Lemma mapM_fmap_agree {A B C} (f : B -> option C) (g : A -> option C) (h : A -> B) l : (forall x, x ∈ l -> f (h x) = g x) -> mapM f (h <$> l) = mapM g l.
Proof.
  induction l as [|x l IH]; [done|]. intros H. cbn [fmap list_fmap mapM]. rewrite (H x) by by left. by rewrite IH by (intros y Hy; apply H; by right).
Qed.
Lemma eval_clause l c : Forall lit_wf (l :: c) -> eval_predicate (show_clause (l :: c)) ctx = clause_value ctx (l :: c).
Proof.
  intros Hl. assert (Hv : mapM (fun x => eval_predicate x ctx) (show_lit <$> l :: c) = mapM (lit_value ctx) (l :: c)).
  { apply mapM_fmap_agree. intros x Hx. apply eval_lit. rewrite Forall_forall in Hl. by apply Hl. }
  unfold clause_value. destruct c as [|l' c].
  - apply Forall_cons in Hl as [Hl _]. unfold show_clause. simpl join. rewrite (eval_lit l Hl). simpl. destruct (lit_value ctx l) as [b|]; [|done]. simpl. by rewrite andb_true_r.
  - rewrite (eval_step _ (tight_clause _ _ Hl)), (split_end " or ") by (by apply passes_clause).
    assert (Hw : Forall whole (show_lit <$> l :: l' :: c)).
    { apply Forall_fmap. eapply Forall_impl; [exact Hl|]. intros x Hx. by apply whole_lit. }
    unfold show_clause at 1. cbn [fmap list_fmap] in Hw |- *. rewrite (split_join " and ") by (try done; by right).
    cbn [fmap list_fmap] in Hv. by rewrite Hv.
Qed.
Definition clause_wf (c : list lit) : Prop := c <> [] /\ Forall lit_wf c.
Lemma eval_show c p : Forall clause_wf (c :: p) -> eval_predicate (show (c :: p)) ctx = value ctx (c :: p).
Proof.
  intros Hp. assert (Hc : forall x, clause_wf x -> eval_predicate (show_clause x) ctx = clause_value ctx x).
  { intros [|l x] [Hn Hx]; [done|]. by apply eval_clause. }
  assert (Hv : mapM (fun x => eval_predicate x ctx) (show_clause <$> c :: p) = mapM (clause_value ctx) (c :: p)).
  { apply mapM_fmap_agree. intros x Hx. apply Hc. rewrite Forall_forall in Hp. by apply Hp. }
  unfold value. destruct p as [|c' p].
  - apply Forall_cons in Hp as [Hp _]. unfold show. simpl join. rewrite (Hc c Hp). simpl. destruct (clause_value ctx c) as [b|]; [|done]. simpl. by rewrite orb_false_r.
  - assert (Hpass : forall x rest, clause_wf x -> passes " or " 0 (show_clause x) rest) by (intros [|l x] rest [Hn Hx]; [done|by apply passes_clause]).
    assert (Ht : forall x, clause_wf x -> tight (show_clause x)) by (intros [|l x] [Hn Hx]; [done|by apply tight_clause]).
    assert (Hs : _split_top (show (c :: c' :: p)) " or " = show_clause <$> c :: c' :: p).
    { unfold show. clear Hv. revert c Hp. generalize (c' :: p) as l. intros l. induction l as [|y l IH]; intros x [Hx Hl]%Forall_cons; [by apply split_end, Hpass|].
      change (join " or " (show_clause <$> x :: y :: l)) with (show_clause x +++ " or " +++ join " or " (show_clause <$> y :: l)).
      rewrite split_passes by by apply Hpass. rewrite (split_cut " or ") by (by apply connective_separator; left). rewrite append_nil_r. by rewrite (IH y Hl). }
    rewrite eval_step; [|apply (tight_join " or "); [done|]; change (Forall (fun s => tight s) (show_clause <$> c :: c' :: p)); apply Forall_fmap; eapply Forall_impl; [exact Hp|done]].
    rewrite Hs. cbn [fmap list_fmap] in Hv |- *. by rewrite Hv.
Qed.
End eval.

(** C23: a predicate written in the grammar means what it says, for all variables of a
    run: comparisons and membership of texts, integers, references and lists, [exists],
    and their negations, conjunctions and disjunctions, evaluated without short cut, an
    error in a part being an error of the whole; what stands between quotes is never
    taken for an operator, a connective or a separator. *)
Theorem predicate_means (ctx : context) (p : list (list lit)) (Hne : p <> []) (Hwf : Forall clause_wf p) :
  eval_predicate (show p) ctx = value ctx p.
Proof. destruct p as [|c p]; [done|]. by apply eval_show. Qed.
Lemma predicate_means_witness :
  show [[Atom (Compare Eq_op (TRef (RefPath "f" ["s"])) (TConst (CText "'" "a or b")));
         Not (Atom (In_ (TRef (RefPath "f" ["l"; "1"])) (TList [CInt 1; CText DQ "x, y"])))];
        [Atom (Exists (RefPath "g" []))]]
  = "$f.s == 'a or b' and not $f.l.1 in [1, " +++ String DQ ("x, y" +++ String DQ "] or exists($g)") /\
  eval_predicate (show [[Atom (Compare Eq_op (TRef (RefPath "f" ["s"])) (TConst (CText "'" "a or b")))]; [Atom (Exists (RefPath "g" []))]]) example_ctx = Some true.
Proof.
  split; [by vm_compute|]. rewrite predicate_means; [by vm_compute|done|].
  repeat constructor; try done; simpl; try (do 2 eexists; split; [reflexivity|by vm_compute]).
Defined.
