(* ===== verification/Workflow.v ===== *)
(** agent/workflow.py, the definition of a workflow and its run: the static checks of
    nodes, edges and references, the parameters of a node, the check of outputs against
    a schema, and the runner with its loops.

    The declared inputs are given by their keys.  Executors are a parameter: what the
    step of a node answers for a scope and its parameters, at a place in the enclosing
    loops; None is an exception.  The texts of errors and decisions and the durations
    are left out. *)
From S2P Require Import Prelude Json Text Windows Retry Stream Messages Graph Refs.

Definition node : Type := list (string * json).
Definition NODE_KINDS : list string :=
  ["code_run"; "file_read"; "file_write"; "web"; "run_mcp"; "run_session"; "cache"; "http"; "select"; "foreach"].
Definition CACHE_KEY_PREFIX : string := "wf:".
Definition _ENGINE_FIELDS : list string := ["id"; "name"; "kind"; "foreach"; "output_schema"; "position"; "note"; "description"].
Definition MAX_NODE_OUTPUT_CHARS : nat := Z.to_nat 20000.
Definition _VAR_ROOTS : list string := ["args"; "input"; "item"].
Definition _KIND_MIN_PARAMS (kind : string) : option (list string) :=
  dict_get kind [("code_run", ["code"]); ("file_read", ["path"]); ("file_write", ["path"; "content"]); ("web", ["operation"]);
                 ("run_mcp", ["service"; "method"]); ("run_session", ["sop"]); ("cache", ["action"; "key"]); ("http", ["url"]);
                 ("select", []); ("foreach", ["items"])].
Definition _CREDENTIAL_KIND_FIELD : string := "credential_kind".
Definition _CACHE_ACTIONS : list string := ["get"; "set"; "delete"].
Definition _HTTP_METHODS : list string := ["GET"; "POST"; "PUT"; "PATCH"; "DELETE"; "HEAD"].

Definition upper_char (c : ascii) : ascii :=
  let n := nat_of_ascii c in if (97 <=? n)%nat && (n <=? 122)%nat then ascii_of_nat (n - 32) else c.
Fixpoint upper (s : string) : string :=
  match s with EmptyString => EmptyString | String c s' => String (upper_char c) (upper s') end.

(** [d.get(k) is None] *)
Definition none_field (k : string) (d : node) : bool := match dict_get k d with None | Some JNull => true | _ => false end.
Definition without (ks : list string) (d : node) : node := List.filter (fun kv => negb (bool_decide (kv.1 ∈ ks))) d.

(** The references of a node: its whole parameter bag as JSON text. *)
Definition _param_text (n : node) : string := dump_value (JObj (without ["position"] n)).

(** ** Schemas *)

Fixpoint _schema_path_ok (cur : json) (path : list string) : option bool :=
  match path with
  | [] => Some true
  | seg :: path' =>
      match cur with
      | JObj d =>
          let is_array := match dict_get "type" d with Some v => py_eq v (JStr "array") | None => false end in
          let cur := if is_array || match dict_get "items" d with Some _ => true | None => false end
                     then match dict_get "items" d with Some v => if json_truthy v then v else JObj [] | None => JObj [] end
                     else cur in
          match cur with
          | JObj d =>
              match dict_get "properties" d ≫= (fun p => match p with JObj props => dict_get seg props | _ => None end) with
              | Some sub => _schema_path_ok sub path'
              | None => Some (match dict_get "additionalProperties" d with Some (JBool true) => true | _ => false end
                              || negb (match dict_get "type" d with None | Some JNull => true | Some v => py_eq v (JStr "object") end))
              end
          | _ => None
          end
      | _ => Some false
      end
  end.

Fixpoint _type_ok (value declared : json) : bool :=
  match declared with
  | JArr l => existsb (_type_ok value) l
  | JStr t =>
      if String.eqb t "string" then match value with JStr _ => true | _ => false end
      else if String.eqb t "integer" then match value with JNum n => int_literal n | _ => false end
      else if String.eqb t "number" then match value with JNum _ => true | _ => false end
      else if String.eqb t "boolean" then match value with JBool _ => true | _ => false end
      else if String.eqb t "object" then match value with JObj _ => true | _ => false end
      else if String.eqb t "array" then match value with JArr _ => true | _ => false end
      else if String.eqb t "null" then match value with JNull => true | _ => false end
      else true
  | _ => true
  end.

(** A violation, at the place it was found. *)
Inductive violation := Expected (place : string) | NotInEnum (place : string) | MissingRequired (place : string) (key : json).
(** What iterating over a value gives; None is TypeError. *)
Definition iterated (v : json) : option (list json) :=
  match v with
  | JArr l => Some l
  | JStr s => Some (JStr <$> chars_of s)
  | JObj d => Some (JStr <$> d.*1)
  | _ => None
  end.
Fixpoint missing_required (place : string) (d : node) (reqs : list json) : option (list violation) :=
  match reqs with
  | [] => Some []
  | r :: reqs' =>
      if hashable r then
        rest ← missing_required place d reqs';
        Some (if existsb (fun kv => same_index (JStr kv.1) r) d then rest else MissingRequired place r :: rest)
      else None
  end.
Definition or_empty (v : option json) (empty : json) : json := match v with Some v => if json_truthy v then v else empty | None => empty end.
Fixpoint concat_opt {A} (l : list (option (list A))) : option (list A) :=
  match l with [] => Some [] | o :: l' => x ← o; rest ← concat_opt l'; Some (x ++ rest) end.
(** Nesting of a value: at least the depth of the recursion over a schema. *)
Fixpoint depth (v : json) : nat :=
  match v with
  | JArr l => S (foldr (fun x n => Nat.max (depth x) n) 0%nat l)
  | JObj d => S (foldr (fun kv n => Nat.max (depth kv.2) n) 0%nat d)
  | _ => 0%nat
  end.
(** What is checked once the type is right; [rec] is the check of a part. *)
Definition validate_parts (rec : json -> json -> string -> option (list violation)) (value : json) (d : node) (place : string) : option (list violation) :=
  enum ← match dict_get "enum" d with
         | Some choices => ok ← contained value choices; Some (if ok : bool then [] else [NotInEnum place])
         | None => Some []
         end;
  parts ← match value with
          | JObj v =>
              reqs ← iterated (or_empty (dict_get "required" d) (JArr []));
              missing ← missing_required place v reqs;
              match or_empty (dict_get "properties" d) (JObj []) with
              | JObj props =>
                  subs ← concat_opt (map (fun kv => match dict_get kv.1 v with Some x => rec x kv.2 (place +++ "." +++ kv.1) | None => Some [] end) props);
                  Some (missing ++ subs)
              | _ => None
              end
          | JArr l =>
              match dict_get "items" d with
              | Some (JObj items) => concat_opt (imap (fun i el => rec el (JObj items) (place +++ "[" +++ tostring (Z.of_nat i) +++ "]")) l)
              | _ => Some []
              end
          | _ => Some []
          end;
  Some (enum ++ parts).
Fixpoint _validate_into (fuel : nat) (value schema : json) (place : string) : option (list violation) :=
  match fuel, schema with
  | S fuel', JObj d =>
      match dict_get "type" d with
      | None | Some JNull => validate_parts (_validate_into fuel') value d place
      | Some declared => if _type_ok value declared then validate_parts (_validate_into fuel') value d place else Some [Expected place]
      end
  | _, _ => Some []
  end.
Definition validate_output (value schema : json) : option (list violation) := _validate_into (depth schema) value schema "$".

(** ** The static checks *)

Section static.
Variable py_str : json -> string.
Abbreviation field := (field_text py_str).

(** The nodes by identifier, in order. *)
Definition check_node (by_id : list (string * node)) (n : json) : option (string * node) :=
  match n with
  | JObj d =>
      let nid := field "id" d in
      if str_truthy nid && negb (bool_decide (nid ∈ by_id.*1)) && negb (bool_decide (nid ∈ _VAR_ROOTS)) &&
         str_truthy (field "name" d) && bool_decide (lower (field "kind" d) ∈ NODE_KINDS) &&
         none_field "depends_on" d && none_field "when" d
      then Some (nid, d) else None
  | _ => None
  end.
Fixpoint check_nodes (by_id : list (string * node)) (ns : list json) : option (list (string * node)) :=
  match ns with
  | [] => Some by_id
  | n :: ns' => b ← check_node by_id n; check_nodes (by_id ++ [b]) ns'
  end.

Definition check_case (case : json) : bool :=
  match case with
  | JObj d =>
      match dict_get "when" d with None | Some JNull | Some (JStr _) => true | _ => false end &&
      match dict_get "set" d with Some (JObj (_ :: _)) => true | _ => false end
  | _ => false
  end.
Definition check_select (d : node) : bool :=
  match default JNull (dict_get "cases" d) with
  | JNull => true
  | JArr l => forallb check_case l && negb (match l with [] => false | _ => none_field "default" d end)
  | _ => false
  end && match default JNull (dict_get "default" d) with JNull | JObj _ => true | _ => false end.
Fixpoint lstrip_dashes (s : string) : string := match s with String "-" s' => lstrip_dashes s' | _ => s end.
Definition check_agent (d : node) : bool :=
  match default JNull (dict_get "agent_id" d) with
  | JNull => true
  | v => py_eq v (JStr "") || py_eq v (JStr "any") ||
         let s := lstrip_dashes (strip (json_str_of py_str v)) in str_truthy s && str_all digit s
  end.
(** Lookup of the raw kind raises KeyError when it is not written as in the table. *)
Definition check_params (d : node) : bool :=
  match dict_get "kind" d with
  | Some (JStr kind) =>
      match _KIND_MIN_PARAMS kind with
      | Some names =>
          forallb (fun name => str_truthy (field name d)) names &&
          (if String.eqb kind "cache" then bool_decide (lower (field "action" d) ∈ _CACHE_ACTIONS) && startswith CACHE_KEY_PREFIX (field "key" d)
           else if String.eqb kind "run_session" then check_agent d
           else if String.eqb kind "http" then bool_decide (upper (strip (str_or (get_text py_str d "method") "GET")) ∈ _HTTP_METHODS)
           else if String.eqb kind "select" then check_select d
           else if String.eqb kind "web" then
             negb (String.eqb (lower (field "operation" d)) "fill_credential") ||
             bool_decide (lower (field _CREDENTIAL_KIND_FIELD d) ∈ ["otp"; "password"])
           else true)
      | None => false
      end
  | _ => false
  end.

Definition is_foreach (d : node) : bool := String.eqb (lower (get_text py_str d "kind")) "foreach".
Definition _in_foreach_scope (by_id : list (string * node)) (edges : list edge) (nid : string) : bool :=
  existsb (fun anc => match dict_get anc by_id with
                      | Some d => is_foreach d || match dict_get "foreach" d with Some v => json_truthy v | None => false end
                      | None => false
                      end) (_ancestors edges nid).
(** A reference to a declared input. *)
Definition check_input (inputs : list string) (r : ref_path) : bool :=
  match path r with p :: _ => bool_decide (p ∈ inputs) | [] => true end.
Definition check_schema (d : node) (r : ref_path) : bool :=
  match dict_get "output_schema" d with
  | Some schema => if json_truthy schema && negb (match path r with [] => true | _ => false end)
                   then default false (_schema_path_ok schema (path r)) else true
  | None => true
  end.
Definition check_ref (by_id : list (string * node)) (edges : list edge) (inputs : list string) (nid : string) (r : ref_path) : bool :=
  if String.eqb (root r) "item" then _in_foreach_scope by_id edges nid
  else if String.eqb (root r) "args" then true
  else if String.eqb (root r) "input" then check_input inputs r
  else match dict_get (root r) by_id with
       | Some d => bool_decide (root r ∈ _ancestors edges nid) && check_schema d r
       | None => false
       end.
Definition check_edge_ref (by_id : list (string * node)) (edges : list edge) (inputs : list string) (e : edge) (r : ref_path) : bool :=
  if bool_decide (root r ∈ ["args"; "item"; "input"]) then negb (String.eqb (root r) "input") || check_input inputs r
  else bool_decide (root r ∈ by_id.*1) && bool_decide (root r ∈ e_source e :: _ancestors edges (e_source e)).
Definition check_refs (by_id : list (string * node)) (edges : list edge) (inputs : list string) : bool :=
  forallb (fun kv => forallb (check_ref by_id edges inputs kv.1) (find_refs (_param_text kv.2))) by_id &&
  forallb (fun e => forallb (check_edge_ref by_id edges inputs e) (find_refs (e_when e))) edges.

(** The graph part of [validate_def], of a definition with nodes. *)
Definition validate_graph (inputs : list string) (defn : node) : option (list (string * node) * list edge) :=
  match dict_get "nodes" defn with
  | Some (JArr ((_ :: _) as ns)) =>
      by_id ← check_nodes [] ns;
      edges ← _edges_of py_str (dict_get "edges" defn) by_id.*1;
      if _check_acyclic edges by_id.*1 && forallb (fun kv => check_params kv.2) by_id && check_refs by_id edges inputs
      then Some (by_id, edges) else None
  | _ => None
  end.

(** ** Parameters and outputs *)

Definition strip_case (c : json) : option json :=
  match c with
  | JObj d => Some (JObj (without ["when"] d))
  | v => if json_truthy v then None else Some (JObj [])
  end.
Definition node_params (d : node) : option node :=
  let params := without _ENGINE_FIELDS d in
  match dict_get "cases" params with
  | Some (JArr l) => if String.eqb (get_text py_str d "kind") "select"
                     then l' ← mapM strip_case l; Some (dict_set "cases" (JArr l') params) else Some params
  | _ => Some params
  end.
Definition _bound_output (value : json) : json :=
  let w := chars_of (dump_value value) in
  if (length w <=? MAX_NODE_OUTPUT_CHARS)%nat then value
  else JObj [("_truncated", JBool true); ("_chars", JNum (tostring (Z.of_nat (length w)))); ("preview", JStr (unchars (take MAX_NODE_OUTPUT_CHARS w)))].
End static.

(** ** The runner *)

Record runner := WorkflowRunner { by_id : list (string * node); edges : list edge }.
Record node_result := NodeResult { r_status : status; r_output : json }.
Definition entry_of (r : node_result) : node_entry := NodeEntry (r_status r) (r_output r).
(** Where a step runs: the loops around it, each with the index of its element. *)
Definition place : Type := list (string * nat).
Definition with_nodes (m : gmap string node_entry) (c : context) : context := WorkflowContext (inputs c) (args c) m (item c).
Definition with_item (v : json) (c : context) : context := WorkflowContext (inputs c) (args c) (nodes c) v.

Section run.
Variable py_str : json -> string.
Variable exec : place -> string -> context -> json -> option json.
Variable R : runner.

(** An edge whose source succeeded and whose predicate holds. *)
Definition active (c : context) (results : gmap string node_result) (e : edge) : bool :=
  let dep_status := match nodes c !! e_source e with Some en => Some (entry_status en) | None => r_status <$> results !! e_source e end in
  bool_decide (dep_status = Some StatusOk) &&
  (negb (str_truthy (e_when e)) || bool_decide (eval_predicate (e_when e) c = Some true)).
Definition incoming (nid : string) : list edge := List.filter (fun e => String.eqb (e_target e) nid) (edges R).
Definition gate (nid : string) (c : context) (results : gmap string node_result) : bool :=
  match incoming nid with [] => true | l => existsb (active c results) l end.

(** The output of a step, if nothing raised on the way. *)
Definition _dispatch (at_ : place) (nid : string) (d : node) (c : context) : option json :=
  params ← node_params py_str d;
  value ← resolve_value py_str (JObj params) c;
  out ← exec at_ nid c value;
  match dict_get "output_schema" d with
  | Some schema => if json_truthy schema
                   then errs ← validate_output out schema; match errs with [] => Some out | _ => None end
                   else Some out
  | None => Some out
  end.

(** What a node leaves: its result, the published nodes of its scope, the results. *)
Definition ran : Type := node_result * gmap string node_entry * gmap string node_result.
Definition publish (nid : string) (r : node_result) (m : gmap string node_entry) : gmap string node_entry := <[nid := entry_of r]> m.

Section loops.
(** The run of a node of the body. *)
Variable run_node : place -> string -> context -> gmap string node_result -> option ran.

(** One element: the nodes of the layers in turn, in a scope of their own. *)
Fixpoint run_body (at_ : place) (header : string) (ls : list string) (c : context) (results : gmap string node_result)
  : option (list (string * node_result) * gmap string node_result) :=
  match ls with
  | [] => Some ([], results)
  | ln :: ls' =>
      '(r, m, results) ← (if String.eqb ln header then Some (NodeResult StatusOk JNull, nodes c, results) else run_node at_ ln c results);
      '(log, results) ← run_body at_ header ls' (with_nodes (publish ln r m) c) results;
      Some ((ln, r) :: log, results)
  end.
Fixpoint run_elements (at_ : place) (header : string) (ls : list string) (i : nat) (items : list json) (c : context)
  (results : gmap string node_result) : option (list (string * node_result) * gmap string node_result) :=
  match items with
  | [] => Some ([], results)
  | el :: items' =>
      '(log, results) ← run_body (at_ ++ [(header, i)]) header ls (with_item el c) results;
      '(rest, results) ← run_elements at_ header ls (S i) items' c results;
      Some (log ++ rest, results)
  end.
(** The collected result of a node of the body. *)
Definition collected (log : list (string * node_result)) (n_items : nat) (n : string) : node_result :=
  let rs := snd <$> List.filter (fun kv => String.eqb kv.1 n) log in
  let oks := length (List.filter (fun r => bool_decide (r_status r = StatusOk)) rs) in
  NodeResult (if (oks =? n_items)%nat then StatusOk else if (oks =? 0)%nat then StatusFailed else StatusOk)
             (_bound_output (JArr (r_output <$> rs))).
Definition within (body : list string) (e : edge) : bool := bool_decide (e_source e ∈ body) && bool_decide (e_target e ∈ body).
Definition loop_items (d : node) (c : context) : option (list json) :=
  items ← dict_get "items" d;
  match resolve_str py_str c (json_str_of py_str items) with
  | None | Some JNull => None
  | Some (JArr l) => Some l
  | Some v => Some [v]
  end.
Definition _run_loop (at_ : place) (nid : string) (d : node) (c : context) (results : gmap string node_result) : option ran :=
  match loop_items d c with
  | None => Some (NodeResult StatusFailed JNull, nodes c, results)
  | Some items =>
      let body := nid :: _descendants (edges R) nid in
      layers ← topo_layers (List.filter (within body) (edges R)) body;
      '(log, results) ← run_elements at_ nid (concat layers) 0 items c results;
      let done n (w : gmap string node_entry * gmap string node_result) :=
        let r := collected log (length items) n in (publish n r w.1, <[n := r]> w.2) in
      let '(m, results) := foldr done (nodes c, results) (_descendants (edges R) nid) in
      Some (collected log (length items) nid, m, results)
  end.
End loops.

Fixpoint _run_node (fuel : nat) (at_ : place) (nid : string) (c : context) (results : gmap string node_result) : option ran :=
  match fuel, dict_get nid (by_id R) with
  | S fuel', Some d =>
      if negb (gate nid c results) then Some (NodeResult StatusSkipped JNull, nodes c, results)
      else if is_foreach py_str d then _run_loop (_run_node fuel') at_ nid d c results
      else Some (match _dispatch at_ nid d c with
                 | Some out => NodeResult StatusOk (_bound_output out)
                 | None => NodeResult StatusFailed JNull
                 end, nodes c, results)
  | _, _ => None
  end.

Definition loop_headers : list string := fst <$> List.filter (fun kv => is_foreach py_str kv.2) (by_id R).
Definition loop_body : list string := _loop_body_nodes (edges R) loop_headers.
(** The nodes of the layers in turn; the nodes of loop bodies are left to their loop. *)
Fixpoint run_layers (ls : list string) (c : context) (results : gmap string node_result) : option (context * gmap string node_result) :=
  match ls with
  | [] => Some (c, results)
  | nid :: ls' =>
      if bool_decide (nid ∈ loop_body) then run_layers ls' c results
      else '(r, m, results) ← _run_node (S (length (by_id R))) [] nid c results;
           run_layers ls' (with_nodes (publish nid r m) c) (<[nid := r]> results)
  end.

Inductive overall := OverallOk | OverallPartial | OverallFailed.
Definition has_status (st : status) (results : gmap string node_result) : bool :=
  existsb (fun kv => bool_decide (r_status kv.2 = st)) (map_to_list results).
(** [statuses <= {"ok"}], [statuses == {"failed", "skipped"}] *)
Definition overall_status (results : gmap string node_result) : overall :=
  if negb (has_status StatusFailed results) && negb (has_status StatusSkipped results) then OverallOk
  else if has_status StatusFailed results && has_status StatusSkipped results && negb (has_status StatusOk results) then OverallFailed
  else OverallPartial.
Definition run (c : context) : option (overall * context * gmap string node_result) :=
  layers ← topo_layers (edges R) (by_id R).*1;
  '(c, results) ← run_layers (concat layers) c ∅;
  Some (overall_status results, c, results).
End run.

(** A fetch, a loop over its list, and a step after a failure. *)
Definition sample_nodes : list (string * node) :=
  [("fetch", [("id", JStr "fetch"); ("name", JStr "f"); ("kind", JStr "http"); ("url", JStr "u")]);
   ("each", [("id", JStr "each"); ("name", JStr "e"); ("kind", JStr "foreach"); ("items", JStr "$fetch.l")]);
   ("one", [("id", JStr "one"); ("name", JStr "o"); ("kind", JStr "http"); ("url", JStr "{$item}/x")]);
   ("bad", [("id", JStr "bad"); ("name", JStr "b"); ("kind", JStr "http"); ("url", JStr "v")])].
Definition sample_runner : runner :=
  WorkflowRunner sample_nodes [Edge "fetch" "each" "exists($fetch.l)"; Edge "each" "one" ""; Edge "fetch" "bad" "$fetch.l.0 == 'z'"].
Definition sample_exec (at_ : place) (nid : string) (c : context) (params : json) : option json :=
  if String.eqb nid "fetch" then Some (JObj [("l", JArr [JStr "a"; JStr "b"])]) else Some params.
Example run_ex :
  (fun r => (r.1.1, r_status <$> r.2 !! "bad", r_output <$> r.2 !! "one")) <$>
    run dump_value sample_exec sample_runner (WorkflowContext [] [] ∅ JNull)
  = Some (OverallPartial, Some StatusSkipped, Some (JArr [JObj [("url", JStr "a/x")]; JObj [("url", JStr "b/x")]])).
Proof. by vm_compute. Qed.
