(* ===== verification/WorkflowProps.v ===== *)
(** Workflows: what the static checks of a definition guarantee to its runs.  An accepted
    definition always runs to an end, the outcome does not depend on the order in which
    its nodes are started and finish, and what fails stays with its descendants. *)
From S2P Require Import Prelude Json Text Retry Stream Messages Graph GraphProps Refs RefsProps Workflow.

(** ** What is checked *)

Section accepted.
Variable py_str : json -> string.

(** A reference names a variable, or a node that comes before. *)
Definition known (before : list string) (r : ref_path) : Prop := root r ∈ _VAR_ROOTS \/ root r ∈ before.
Record accepted (R : runner) : Prop := {
  acc_graph : graph_ok (by_id R).*1 (edges R);
  acc_acyclic : acyclic (edges R);
  acc_params nid d r : (nid, d) ∈ by_id R -> r ∈ find_refs (_param_text d) -> known (_ancestors (edges R) nid) r;
  acc_when e r : e ∈ edges R -> r ∈ find_refs (e_when e) -> known (e_source e :: _ancestors (edges R) (e_source e)) r }.

Lemma check_nodes_ids by_id ns l : NoDup by_id.*1 -> check_nodes py_str by_id ns = Some l -> NoDup l.*1.
Proof.
  revert by_id. induction ns as [|n ns IH]; intros by_id Hnd; cbn [check_nodes]; [by intros [= <-]|].
  destruct (check_node py_str by_id n) as [[nid d]|] eqn:E; [|done]. cbn [mbind option_bind]. apply IH.
  unfold check_node in E. destruct n as [| | | | |o]; try done. destruct (_ && _) eqn:Ec; [|done]. injection E as <- <-.
  rewrite !andb_true_iff, !negb_true_iff in Ec. destruct Ec as ((((((_ & Hn) & _) & _) & _) & _) & _).
  apply bool_decide_eq_false in Hn. rewrite fmap_app. apply NoDup_app. split; [done|]. split; [|apply NoDup_singleton].
  intros x Hx ->%list_elem_of_singleton. done.
Qed.
Lemma edges_of_within raw ids es : _edges_of py_str raw ids = Some es -> edges_within ids es.
Proof.
  unfold _edges_of. destruct raw as [[| | | |l|]|]; try done; try (intros [= <-]; by apply Forall_nil_2).
  intros H%mapM_Some. unfold edges_within. induction H as [|j e l es Hj _ IH]; [by apply Forall_nil_2|]. apply Forall_cons_2; [|done].
  unfold edge_of in Hj. destruct j as [| | | | |d]; try done. destruct (_ || _) eqn:E; [done|]. injection Hj as <-. simpl.
  rewrite !orb_false_iff, !negb_false_iff in E. destruct E as [[Hs Ht] _]. apply bool_decide_eq_true in Hs, Ht. done.
Qed.
Lemma NoDup_dict_get {A} k (v : A) l : NoDup l.*1 -> (k, v) ∈ l -> dict_get k l = Some v.
Proof.
  induction l as [|[k' v'] l IH]; [by intros _ ?%not_elem_of_nil|]. simpl. intros [Hn Hnd]%NoDup_cons [[= -> ->]|Hin]%elem_of_cons.
  - by rewrite decide_True.
  - rewrite decide_False; [by apply IH|]. intros ->. apply Hn. by apply (list_elem_of_fmap_2 fst _ (k', v)).
Qed.
(** What the check of a definition accepts is an accepted workflow. *)
Lemma validate_accepted inputs defn R : validate_graph py_str inputs defn = Some (by_id R, edges R) -> accepted R.
Proof.
  unfold validate_graph. destruct (dict_get "nodes" defn) as [[| | | |[|n ns]|]|]; try done.
  destruct (check_nodes py_str [] (n :: ns)) as [b|] eqn:En; [|done]. cbn [mbind option_bind].
  destruct (_edges_of py_str _ b.*1) as [es|] eqn:Ee; [|done]. cbn [mbind option_bind]. destruct (_ && _) eqn:Ec; [|done].
  intros [= Hb He]. subst b es. rewrite !andb_true_iff in Ec. destruct Ec as [[Ha _] Hr].
  assert (Hw : edges_within (by_id R).*1 (edges R)) by by eapply edges_of_within.
  assert (Hg : graph_ok (by_id R).*1 (edges R)) by (split; [eapply check_nodes_ids; [|exact En]; constructor|done]).
  unfold check_refs in Hr. rewrite andb_true_iff, !forallb_forall in Hr. destruct Hr as [Hp Hwn].
  split; [done|by apply (check_acyclic_iff _ _ Hw)| |].
  - intros nid d r Hin Hf. apply list_elem_of_In in Hin. specialize (Hp _ Hin). rewrite forallb_forall in Hp.
    apply list_elem_of_In in Hf. specialize (Hp _ Hf). unfold check_ref in Hp. unfold known, _VAR_ROOTS. simpl in Hp.
    destruct (String.eqb_spec (root r) "item") as [->|_]; [left; set_solver|].
    destruct (String.eqb_spec (root r) "args") as [->|_]; [left; set_solver|].
    destruct (String.eqb_spec (root r) "input") as [->|_]; [left; set_solver|].
    destruct (dict_get (root r) (by_id R)); [|done]. apply andb_true_iff in Hp as [Hp _]. apply bool_decide_eq_true in Hp. by right.
  - intros e r Hin Hf. apply list_elem_of_In in Hin. specialize (Hwn _ Hin). rewrite forallb_forall in Hwn.
    apply list_elem_of_In in Hf. specialize (Hwn _ Hf). unfold check_edge_ref in Hwn. unfold known, _VAR_ROOTS.
    destruct (bool_decide (root r ∈ ["args"; "item"; "input"])) eqn:Er.
    + apply bool_decide_eq_true in Er. left. set_solver.
    + apply andb_true_iff in Hwn as [_ Hwn]. apply bool_decide_eq_true in Hwn. by right.
Qed.

(** The references of a node's parameters are among those that were checked. *)
Lemma refs_of_without ks ks' d : ks' ⊆ ks -> refs_of (JObj (without ks d)) ⊆ refs_of (JObj (without ks' d)).
Proof.
  intros Hk r Hr. cbn [refs_of] in *. apply elem_of_concat in Hr as (rs & Hr & Hin). apply list_elem_of_fmap in Hin as (kv & -> & Hv).
  apply elem_of_concat. exists (refs_of kv.2). split; [done|]. apply (list_elem_of_fmap_2 (fun kv => refs_of kv.2)).
  unfold without in *. apply list_elem_of_In, filter_In in Hv as [Hin Hn]. apply list_elem_of_In, filter_In. split; [done|].
  apply negb_true_iff, bool_decide_eq_false in Hn. apply negb_true_iff, bool_decide_eq_false. auto.
Qed.
Lemma refs_of_member kv d : kv ∈ d -> refs_of kv.2 ⊆ refs_of (JObj d).
Proof.
  intros Hin r Hr. cbn [refs_of]. apply elem_of_concat. exists (refs_of kv.2). split; [done|]. by apply (list_elem_of_fmap_2 (fun kv => refs_of kv.2)).
Qed.
Lemma refs_of_set k v d : refs_of (JObj (dict_set k v d)) ⊆ refs_of v ++ refs_of (JObj d).
Proof.
  intros r Hr. cbn [refs_of] in Hr. apply elem_of_concat in Hr as (rs & Hr & Hin). apply list_elem_of_fmap in Hin as (kv & -> & Hv).
  apply elem_of_app. assert (Hc : kv = (k, v) \/ kv ∈ d).
  { clear Hr. induction d as [|[k' v'] d IH]; simpl in Hv; [left; by apply list_elem_of_singleton in Hv|].
    destruct (decide (k = k')) as [->|]; apply elem_of_cons in Hv as [->|Hv]; [by left|right; by right|right; by left|].
    destruct (IH Hv) as [?|?]; [by left|right; by right]. }
  destruct Hc as [->|Hd]; [by left|right]. by eapply refs_of_member.
Qed.
Lemma strip_case_cases c c' : strip_case c = Some c' -> c' = JObj [] \/ exists d, c = JObj d /\ c' = JObj (without ["when"] d).
Proof.
  unfold strip_case. destruct c as [|b|t|s|l|d]; [| | | | |intros [= <-]; right; by exists d]; (destruct (json_truthy _); [done|intros [= <-]; by left]).
Qed.
Lemma strip_cases_refs l l' : mapM strip_case l = Some l' -> refs_of (JArr l') ⊆ refs_of (JArr l).
Proof.
  intros H%mapM_Some. induction H as [|c c' l l' Hc _ IH]; [done|]. cbn [refs_of map concat] in *.
  assert (Hs : refs_of c' ⊆ refs_of c).
  { destruct (strip_case_cases _ _ Hc) as [->|(d & -> & ->)]; [by intros r ?%not_elem_of_nil|].
    etrans; [apply (refs_of_without ["when"] []); set_solver|].
    assert (He : without [] d = d); [|by rewrite He]. unfold without. clear. induction d as [|kv d IH]; [done|]. simpl. f_equal. exact IH. }
  apply list_subseteq_app_iff_l. split; [by apply list_subseteq_app_l|by apply list_subseteq_app_r].
Qed.
Lemma params_refs d params : node_params py_str d = Some params -> refs_of (JObj params) ⊆ find_refs (_param_text d).
Proof.
  intros H. etrans; [|apply refs_of_dump].
  assert (Hw : refs_of (JObj (without _ENGINE_FIELDS d)) ⊆ refs_of (JObj (without ["position"] d))) by (apply refs_of_without; set_solver).
  unfold node_params in H. destruct (dict_get "cases" _) as [[| | | |l|]|] eqn:Ec; try (injection H as <-; done).
  destruct (String.eqb _ _); [|by injection H as <-]. destruct (mapM strip_case l) as [l'|] eqn:Em; [|done]. injection H as <-.
  etrans; [apply refs_of_set|]. apply list_subseteq_app_iff_l. split; [|done]. etrans; [by apply strip_cases_refs|].
  etrans; [|exact Hw]. by apply (refs_of_member ("cases", JArr l)), dict_get_Some_elem.
Qed.
End accepted.

(** ** A step uses the nodes before it *)

Lemma existsb_agree {A} (f g : A -> bool) l : (forall x, x ∈ l -> f x = g x) -> existsb f l = existsb g l.
Proof.
  induction l as [|x l IH]; [done|]. intros H. cbn [existsb]. rewrite (H x) by by left. by rewrite IH by (intros y Hy; apply H; by right).
Qed.

(** The same variables, and the same entries of some nodes. *)
Definition same_on (before : list string) (c1 c2 : context) : Prop :=
  inputs c1 = inputs c2 /\ args c1 = args c2 /\ item c1 = item c2 /\ forall n, n ∈ before -> nodes c1 !! n = nodes c2 !! n.
Lemma known_resolve before c1 c2 r : same_on before c1 c2 -> known before r -> resolve c1 r = resolve c2 r.
Proof.
  intros (Hi & Ha & Hm & Hn) Hk. unfold resolve. enough (H : root_value c1 (root r) = root_value c2 (root r)) by by rewrite H.
  unfold root_value. rewrite Hi, Ha, Hm. destruct Hk as [Hv|Hb]; [|by rewrite (Hn _ Hb)].
  unfold _VAR_ROOTS in Hv. rewrite !elem_of_cons in Hv. destruct Hv as [->|[->|[->|Hv]]]; try done. by apply not_elem_of_nil in Hv.
Qed.
Lemma same_agree before rs c1 c2 : same_on before c1 c2 -> (forall r, r ∈ rs -> known before r) -> agree rs c1 c2.
Proof. intros Hs Hk r Hr. eapply known_resolve; eauto. Qed.

Section runs.
Variable py_str : json -> string.
Variable R : runner.
Variable start : context.
Abbreviation ids := ((by_id R).*1).
Abbreviation anc := (_ancestors (edges R)).

(** The scope in which the published results are seen. *)
Definition scope (out : gmap string node_result) : context := with_nodes (entry_of <$> out) start.
Lemma scope_same before out1 out2 : (forall n, n ∈ before -> out1 !! n = out2 !! n) -> same_on before (scope out1) (scope out2).
Proof. intros H. repeat split; try done. intros n Hn. simpl. by rewrite !lookup_fmap, H. Qed.
Lemma anc_iff n m : m ∈ anc n <-> tc (source_of (edges R)) n m.
Proof. apply elem_of_closure. Qed.
Lemma incoming_source n e : e ∈ incoming R n -> e ∈ edges R /\ e_target e = n /\ e_source e ∈ anc n.
Proof.
  unfold incoming. rewrite list_elem_of_In, filter_In, <- list_elem_of_In, String.eqb_eq. intros [He Ht]. split; [done|split; [done|]].
  apply anc_iff, tc_once, source_of_edge. by exists e.
Qed.

Section exec.
Variable exec : place -> string -> context -> json -> option json.

(** The result of a node when [out] has been published. *)
Definition step_result (n : string) (d : node) (out : gmap string node_result) : node_result :=
  if gate R n (scope out) out then
    match _dispatch py_str exec [] n d (scope out) with
    | Some v => NodeResult StatusOk (_bound_output v)
    | None => NodeResult StatusFailed JNull
    end
  else NodeResult StatusSkipped JNull.
(** What an executor answers depends on the variables that its node names. *)
Definition exec_local : Prop := forall n d c1 c2 v, (n, d) ∈ by_id R -> agree (find_refs (_param_text d)) c1 c2 -> exec [] n c1 v = exec [] n c2 v.

Lemma gate_local n out1 out2 : accepted R -> (forall m, m ∈ anc n -> out1 !! m = out2 !! m) ->
  gate R n (scope out1) out1 = gate R n (scope out2) out2.
Proof.
  intros Hacc Ho. unfold gate. assert (Ha : forall e, e ∈ incoming R n -> active (scope out1) out1 e = active (scope out2) out2 e).
  { intros e (He & Ht & Hs)%incoming_source. unfold active.
    assert (Hn : nodes (scope out1) !! e_source e = nodes (scope out2) !! e_source e).
    { unfold scope. cbn [nodes with_nodes]. by rewrite !lookup_fmap, (Ho _ Hs). }
    rewrite Hn, (Ho _ Hs), (eval_predicate_agree (scope out1) (scope out2)); [done|].
    apply (same_agree (e_source e :: anc (e_source e))); [|intros r Hr; exact (acc_when R Hacc e r He Hr)].
    apply scope_same. intros m [->|Hm]%elem_of_cons; [by apply Ho|]. apply Ho, anc_iff. apply anc_iff in Hm, Hs. by etrans. }
  destruct (incoming R n) as [|e l]; [done|]. by apply existsb_agree.
Qed.
Lemma dispatch_local n d c1 c2 : exec_local -> (n, d) ∈ by_id R -> agree (find_refs (_param_text d)) c1 c2 ->
  _dispatch py_str exec [] n d c1 = _dispatch py_str exec [] n d c2.
Proof.
  intros Hx Hin Ha. unfold _dispatch. destruct (node_params py_str d) as [params|] eqn:Ep; [|done]. cbn [mbind option_bind].
  rewrite (resolve_value_agree py_str c1 c2 (JObj params)); [|by eapply agree_sub; [eapply params_refs|]].
  destruct (resolve_value _ _ _) as [v|]; [|done]. cbn [mbind option_bind]. by rewrite (Hx n d c1 c2 v Hin Ha).
Qed.
Lemma step_local n d out1 out2 : accepted R -> exec_local -> (n, d) ∈ by_id R ->
  (forall m, m ∈ anc n -> out1 !! m = out2 !! m) -> step_result n d out1 = step_result n d out2.
Proof.
  intros Hacc Hx Hin Ho. unfold step_result. rewrite (gate_local n out1 out2 Hacc Ho).
  rewrite (dispatch_local n d (scope out1) (scope out2) Hx Hin); [done|].
  apply (same_agree (anc n)); [by apply scope_same|]. intros r Hr. exact (acc_params R Hacc n d r Hin Hr).
Qed.

(** ** Solutions *)

(** Every node has the result its step gives for what is published. *)
Definition solution (out : gmap string node_result) : Prop :=
  forall n d, (n, d) ∈ by_id R -> out !! n = Some (step_result n d out).
End exec.

(** A list in which every node comes after its sources. *)
Fixpoint ordered (fin l : list string) : Prop :=
  match l with
  | [] => True
  | n :: l' => (forall m, source_of (edges R) n m -> m ∈ fin) /\ ordered (n :: fin) l'
  end.
Lemma ordered_weaken fin fin' l : fin ⊆ fin' -> ordered fin l -> ordered fin' l.
Proof.
  revert fin fin'. induction l as [|n l IH]; intros fin fin' Hs; [done|]. simpl. intros [Hn Hl]. split; [auto|].
  eapply IH; [|exact Hl]. intros m [->|Hm]%elem_of_cons; apply elem_of_cons; auto.
Qed.
Lemma ordered_app fin l l' : ordered fin l -> ordered (fin ++ l) l' -> ordered fin (l ++ l').
Proof.
  revert fin. induction l as [|n l IH]; intros fin; simpl; [by rewrite app_nil_r|]. intros [Hn Hl] Hl'. split; [done|].
  apply IH; [done|]. eapply ordered_weaken; [|exact Hl']. intros m. rewrite !elem_of_app, !elem_of_cons. tauto.
Qed.
Lemma schedule_ordered fin layers : schedule (edges R) fin layers -> ordered fin (concat layers).
Proof.
  revert fin. induction layers as [|layer layers IH]; intros fin; simpl; [done|]. intros [Hl Hr]. apply ordered_app; [|by apply IH].
  clear IH Hr. assert (Hl' : forall n m, n ∈ layer -> source_of (edges R) n m -> m ∈ fin) by done. clear Hl. revert Hl'.
  assert (H : forall l fin', fin ⊆ fin' -> (forall n m, n ∈ l -> source_of (edges R) n m -> m ∈ fin) -> ordered fin' l).
  { induction l as [|n l IH]; intros fin' Hs Hn; [done|]. split; [intros m Hm; apply Hs; eapply Hn; [by left|done]|].
    apply IH; [intros m Hm; apply elem_of_cons; auto|]. intros a m Ha. apply Hn. by right. }
  by apply H.
Qed.
Lemma topo_ordered : accepted R -> exists layers, topo_layers (edges R) ids = Some layers /\ concat layers ≡ₚ ids /\ ordered [] (concat layers).
Proof.
  intros [[_ Hw] Ha _ _]. destruct (acyclic_layers ids (edges R) Hw Ha) as [layers Hl]. exists layers. split; [done|].
  apply layers_loop_sound in Hl as [Hp Hs]. split; [done|by apply schedule_ordered].
Qed.
(** Once its sources are there, all ancestors of a node are. *)
Lemma settled_anc fin n : settled (edges R) fin -> (forall m, source_of (edges R) n m -> m ∈ fin) -> anc n ⊆ fin.
Proof.
  intros Hs Hn m Hm. apply anc_iff in Hm. inversion Hm as [? ? H1|? k ? H1 H2]; subst; [by apply Hn|].
  eapply settled_tc; [done|by apply Hn|done].
Qed.

(** Solutions for two executors agree where the executors do, on nodes closed under
    ancestors. *)
Lemma solutions_agree (U : string -> Prop) exec1 exec2 out1 out2 : accepted R -> exec_local exec1 ->
  (forall n m, U n -> m ∈ anc n -> U m) ->
  (forall n d out, (n, d) ∈ by_id R -> U n -> step_result exec1 n d out = step_result exec2 n d out) ->
  solution exec1 out1 -> solution exec2 out2 -> forall n, n ∈ ids -> U n -> out1 !! n = out2 !! n.
Proof.
  intros Hacc Hx HU He H1 H2. destruct (topo_ordered Hacc) as (layers & _ & Hp & Ho).
  enough (H : forall l fin, ordered fin l -> settled (edges R) fin -> l ⊆ ids -> (forall n, n ∈ fin -> U n -> out1 !! n = out2 !! n) ->
    forall n, n ∈ l -> U n -> out1 !! n = out2 !! n).
  { intros n Hn. apply (H (concat layers) [] Ho); [split; [intros a m Ha|intros a Ha]; by apply not_elem_of_nil in Ha| | |].
    - intros m. by rewrite Hp.
    - intros m Hm. by apply not_elem_of_nil in Hm.
    - by rewrite Hp. }
  induction l as [|n l IH]; intros fin Hol Hs Hl Hf m Hm Hu; [by apply not_elem_of_nil in Hm|]. destruct Hol as [Hn Hol].
  assert (Heq : U n -> out1 !! n = out2 !! n).
  { intros Hun. assert (Hid : n ∈ ids) by (apply Hl; by left). apply list_elem_of_fmap in Hid as ([n' d] & Heqn & Hin). simpl in Heqn. subst n'.
    rewrite (H1 n d Hin), (H2 n d Hin), <- (He n d out2 Hin Hun). f_equal. apply step_local; try done.
    intros k Hk. apply Hf; [by apply (settled_anc fin n)|by eapply HU]. }
  apply elem_of_cons in Hm as [->|Hm]; [by apply Heq|].
  apply (IH (n :: fin) Hol); [by apply settled_cons|intros k Hk; apply Hl; by right| |done|done].
  intros k [->|Hk]%elem_of_cons Hu'; [by apply Heq|by apply Hf].
Qed.

(** ** Interleavings *)

(** Tasks of a run: nodes not started, nodes that have read their scope and not
    published yet, published results. *)
Record wf_state := WfState { todo : list string; busy : gmap string node_result; out : gmap string node_result }.

Section interleaving.
Variable exec : place -> string -> context -> json -> option json.
Hypothesis Hacc : accepted R.
Hypothesis Hx : exec_local exec.

(** A node starts once all its sources are published; it finishes at any later time. *)
Inductive wf_step : wf_state -> wf_state -> Prop :=
| wf_start n d before after b o : (n, d) ∈ by_id R -> (forall m, source_of (edges R) n m -> is_Some (o !! m)) ->
    wf_step (WfState (before ++ n :: after) b o) (WfState (before ++ after) (<[n := step_result exec n d o]> b) o)
| wf_finish t n r b o : b !! n = Some r -> wf_step (WfState t b o) (WfState t (delete n b) (<[n := r]> o)).

Record wf_inv (s : wf_state) : Prop := {
  inv_todo : NoDup (todo s);
  inv_fresh n : n ∈ todo s -> busy s !! n = None /\ out s !! n = None;
  inv_apart n r : busy s !! n = Some r -> out s !! n = None;
  inv_ids n : n ∈ ids <-> n ∈ todo s \/ is_Some (busy s !! n) \/ is_Some (out s !! n);
  inv_closed n m : is_Some (busy s !! n) \/ is_Some (out s !! n) -> source_of (edges R) n m -> is_Some (out s !! m);
  inv_result n d r : (n, d) ∈ by_id R -> busy s !! n = Some r \/ out s !! n = Some r -> r = step_result exec n d (out s) }.

Lemma inv_anc s n m : wf_inv s -> (forall k, source_of (edges R) n k -> is_Some (out s !! k)) -> m ∈ anc n -> is_Some (out s !! m).
Proof.
  intros Hi Hs Hm. apply anc_iff in Hm. inversion Hm as [? ? H1|? k ? H1 H2]; subst; [by apply Hs|].
  specialize (Hs k H1). clear Hm H1. induction H2 as [a b Hab|a b c Hab _ IH]; [|apply IH]; eapply inv_closed; eauto.
Qed.
Lemma wf_init_inv l : l ≡ₚ ids -> wf_inv (WfState l ∅ ∅).
Proof.
  intros Hp. destruct Hacc as [[Hnd _] _ _ _]. split; simpl.
  - by rewrite Hp.
  - done.
  - done.
  - intros n. rewrite Hp, !lookup_empty. split; [by left|intros [?|[[? ?]|[? ?]]]; done].
  - intros n m [[? H]|[? H]]; by rewrite lookup_empty in H.
  - intros n d r _ [H|H]; by rewrite lookup_empty in H.
Qed.
Lemma wf_start_inv n d before after b o : wf_inv (WfState (before ++ n :: after) b o) -> (n, d) ∈ by_id R ->
  (forall m, source_of (edges R) n m -> is_Some (o !! m)) -> wf_inv (WfState (before ++ after) (<[n := step_result exec n d o]> b) o).
Proof.
  intros [Ht Hf Ha Hi Hc Hr] Hin Hs. simpl in *. rewrite <- Permutation_middle in Ht. apply NoDup_cons in Ht as [Hn Ht].
  destruct (Hf n) as [Hb Ho]; [apply elem_of_app; right; by left|]. split; simpl.
  - done.
  - intros k Hk. assert (Hkn : n <> k) by (intros ->; done). rewrite lookup_insert_ne by done. apply Hf. rewrite elem_of_app, elem_of_cons in *. tauto.
  - intros k r. destruct (decide (n = k)) as [<-|Hk]; [by intros _|rewrite lookup_insert_ne by done; apply Ha].
  - intros k. rewrite Hi, lookup_insert_is_Some, elem_of_app, elem_of_cons, elem_of_app. destruct (decide (n = k)) as [->|]; intuition congruence.
  - intros k m. rewrite lookup_insert_is_Some. intros [[->|[_ Hk]]|Hk]; [apply Hs|apply Hc; by left|apply Hc; by right].
  - intros k d' r Hin' [Hk|Hk]; [|apply (Hr k d' r Hin'); by right]. destruct (decide (n = k)) as [<-|Hne].
    + rewrite lookup_insert_eq in Hk. injection Hk as <-. f_equal. destruct Hacc as [[Hnd _] _ _ _].
      pose proof (NoDup_dict_get n d _ Hnd Hin). pose proof (NoDup_dict_get n d' _ Hnd Hin'). congruence.
    + rewrite lookup_insert_ne in Hk by done. apply (Hr k d' r Hin'). by left.
Qed.
Lemma wf_finish_inv t n r b o : wf_inv (WfState t b o) -> b !! n = Some r -> wf_inv (WfState t (delete n b) (<[n := r]> o)).
Proof.
  intros Hinv Hn. pose proof Hinv as [Ht Hf Ha Hi Hc Hr]. simpl in *. pose proof (Ha n r Hn) as Ho. split; simpl.
  - done.
  - intros k Hk. destruct (Hf k Hk) as [Hb Hok]. assert (n <> k) by congruence. rewrite lookup_delete_ne, lookup_insert_ne by done. done.
  - intros k r'. rewrite lookup_delete_Some. intros [Hne Hk]. rewrite lookup_insert_ne by done. by eapply Ha.
  - intros k. rewrite Hi, lookup_insert_is_Some. destruct (decide (n = k)) as [->|Hne]; [|rewrite lookup_delete_ne by done; tauto].
    rewrite lookup_delete_eq. split; [tauto|]. intros _. right. left. by exists r.
  - intros k m Hk Hm. destruct (decide (n = m)) as [->|Hne]; [rewrite lookup_insert_eq; eauto|]. rewrite lookup_insert_ne by done.
    apply (Hc k m); [|done]. rewrite lookup_insert_is_Some in Hk. destruct Hk as [[x Hk]|[->|[_ Hk]]]; [|left; by exists r|by right].
    apply lookup_delete_Some in Hk as [_ Hk]. left. by exists x.
  - intros k d r' Hin Hk.
    assert (Hbo : b !! k = Some r' \/ o !! k = Some r').
    { destruct Hk as [[_ Hk]%lookup_delete_Some|Hk]; [by left|]. destruct (decide (n = k)) as [<-|Hne].
      - rewrite lookup_insert_eq in Hk. left. congruence.
      - rewrite lookup_insert_ne in Hk by done. by right. }
    rewrite (Hr k d r' Hin Hbo). apply step_local; [done|done|done|]. intros m Hm. rewrite lookup_insert_ne; [done|]. intros ->.
    assert (Hso : is_Some (o !! m)); [|rewrite Ho in Hso; by destruct Hso].
    eapply (inv_anc _ k m Hinv); [|done]. intros j Hj. apply (Hc k j); [|done]. destruct Hbo; [left|right]; by exists r'.
Qed.
Lemma wf_steps_inv s s' : wf_inv s -> rtc wf_step s s' -> wf_inv s'.
Proof.
  intros Hi Hs. induction Hs as [s|s1 s2 s3 H12 _ IH]; [done|]. apply IH.
  destruct H12 as [n d before after b o Hin Hs|t n r b o Hn]; [by apply wf_start_inv|by apply wf_finish_inv].
Qed.

Lemma wf_progress s : wf_inv s -> (exists s', wf_step s s') \/ (todo s = [] /\ busy s = ∅).
Proof.
  intros Hi. destruct s as [t b o]. destruct (decide (b = ∅)) as [->|Hb].
  - destruct t as [|n t]; [by right|left]. set (fin := elements (dom o)).
    assert (Hfin : forall m, m ∈ fin <-> is_Some (o !! m)) by (intros m; unfold fin; by rewrite elem_of_elements, elem_of_dom).
    destruct (some_ready (edges R) (n :: t) fin) as (k & Hk & Hr); [apply Hacc|done| |].
    + intros a m _ Hm. destruct Hacc as [[_ Hw] _ _ _]. destruct (source_of_within _ _ _ _ Hw Hm) as [_ Hid].
      apply (inv_ids _ Hi) in Hid as [Hid|[[? Hid]|Hid]]; simpl in Hid; [apply elem_of_app; by right|by rewrite lookup_empty in Hid|].
      apply elem_of_app. left. by apply Hfin.
    + assert (Hid : k ∈ ids) by (apply (inv_ids _ Hi); by left). apply list_elem_of_fmap in Hid as ([k' d] & -> & Hin).
      apply list_elem_of_split in Hk as (before & after & ->). eexists. eapply (wf_start _ d); [done|].
      intros m Hm. apply Hfin. by eapply (proj1 (ready_iff _ _ _) Hr).
  - apply map_choose in Hb as (n & r & Hn). left. eexists. by eapply wf_finish.
Qed.
Lemma wf_done_solution s : wf_inv s -> todo s = [] -> busy s = ∅ -> solution exec (out s) /\ dom (out s) = list_to_set ids.
Proof.
  intros Hi Ht Hb. assert (Hd : forall n, n ∈ ids <-> is_Some (out s !! n)).
  { intros n. rewrite (inv_ids _ Hi), Ht, Hb, lookup_empty. split; [intros [?%not_elem_of_nil|[[? ?]|?]]; done|tauto]. }
  split.
  - intros n d Hin. assert (Hn : n ∈ ids) by by apply (list_elem_of_fmap_2 fst _ (n, d)). apply Hd in Hn as [r Hr].
    rewrite Hr. f_equal. apply (inv_result _ Hi n d r Hin). by right.
  - apply set_eq. intros n. by rewrite elem_of_dom, elem_of_list_to_set, Hd.
Qed.

(** A run starts and finishes the nodes one after another. *)
Hypothesis loop_free : forall n d, (n, d) ∈ by_id R -> is_foreach py_str d = false.
Lemma no_loop_body : loop_body py_str R = [].
Proof.
  unfold loop_body, loop_headers. replace (List.filter _ (by_id R)) with (@nil (string * node)); [done|]. symmetry.
  induction (by_id R) as [|[n d] l IH]; [done|]. simpl. rewrite (loop_free n d) by by left.
  apply IH. intros k d' Hin. apply (loop_free k). by right.
Qed.
Lemma scope_publish n r o : with_nodes (publish n r (nodes (scope o))) (scope o) = scope (<[n := r]> o).
Proof. unfold scope, publish. cbn [nodes with_nodes inputs args item]. by rewrite fmap_insert. Qed.
Lemma run_node_step fuel n d o : (n, d) ∈ by_id R ->
  _run_node py_str exec R (S fuel) [] n (scope o) o = Some (step_result exec n d o, nodes (scope o), o).
Proof.
  intros Hin. cbn [_run_node]. destruct Hacc as [[Hnd _] _ _ _]. rewrite (NoDup_dict_get n d _ Hnd Hin), (loop_free n d Hin).
  unfold step_result. by destruct (gate R n (scope o) o).
Qed.
Lemma run_layers_trace l fin o : l ⊆ ids -> ordered fin l -> (forall m, m ∈ fin -> is_Some (o !! m)) ->
  exists o', run_layers py_str exec R l (scope o) o = Some (scope o', o') /\ rtc wf_step (WfState l ∅ o) (WfState [] ∅ o').
Proof.
  revert fin o. induction l as [|n l IH]; intros fin o Hl Ho Hf; [by exists o|]. destruct Ho as [Hn Ho].
  assert (Hid : n ∈ ids) by (apply Hl; by left). apply list_elem_of_fmap in Hid as ([n' d] & Heq & Hin). simpl in Heq. subst n'.
  cbn [run_layers]. rewrite no_loop_body, bool_decide_eq_false_2 by apply not_elem_of_nil.
  rewrite (run_node_step _ n d o Hin). cbn [mbind option_bind]. rewrite scope_publish. set (r := step_result exec n d o).
  destruct (IH (n :: fin) (<[n := r]> o)) as (o' & Hr & Ht); [intros m Hm; apply Hl; by right|done| |].
  { intros m [->|Hm]%elem_of_cons; [rewrite lookup_insert_eq; eauto|]. apply lookup_insert_is_Some'. right. by apply Hf. }
  exists o'. split; [done|]. eapply rtc_l; [exact (wf_start n d [] l ∅ o Hin (fun m Hm => Hf m (Hn m Hm)))|].
  eapply rtc_l; [apply (wf_finish _ n r); by rewrite lookup_insert_eq|]. by rewrite delete_insert_id.
Qed.
Lemma run_solution : exists o, run py_str exec R (scope ∅) = Some (overall_status o, scope o, o) /\
  solution exec o /\ dom o = list_to_set ids.
Proof.
  destruct (topo_ordered Hacc) as (layers & Hl & Hp & Ho).
  destruct (run_layers_trace (concat layers) [] ∅) as (o & Hr & Ht); [by rewrite Hp|done|by intros m ?%not_elem_of_nil|].
  assert (Hi : wf_inv (WfState [] ∅ o)) by (eapply wf_steps_inv; [by apply wf_init_inv|done]).
  destruct (wf_done_solution _ Hi eq_refl eq_refl) as [Hs Hd]. exists o. split; [|by split].
  unfold run. rewrite Hl. cbn [mbind option_bind]. by rewrite Hr.
Qed.
Definition left_to_do (s : wf_state) : nat := (2 * length (todo s) + size (busy s))%nat.
Lemma wf_steps_bound k s s' : wf_inv s -> nsteps wf_step k s s' -> (k + left_to_do s' <= left_to_do s)%nat.
Proof.
  intros Hi Hs. revert Hi. induction Hs as [s|k s1 s2 s3 H12 _ IH]; intros Hi; [done|].
  assert (Hi2 : wf_inv s2) by (eapply wf_steps_inv; [exact Hi|by apply rtc_once]). specialize (IH Hi2).
  enough (left_to_do s2 < left_to_do s1)%nat by lia. unfold left_to_do.
  destruct H12 as [n d before after b o Hin Hs|t n r b o Hn]; simpl.
  - rewrite !length_app. simpl. rewrite map_size_insert_None; [lia|]. destruct Hi as [_ Hf _ _ _ _]. apply (Hf n). apply elem_of_app. right. by left.
  - rewrite map_size_delete_Some by by exists r. assert (size b <> 0%nat); [|lia]. intros Hz. apply map_size_empty_iff in Hz as ->.
    by rewrite lookup_empty in Hn.
Qed.
End interleaving.
End runs.

(** ** The status of a run *)

Lemma has_status_iff st w : has_status st w = true <-> exists n r, w !! n = Some r /\ r_status r = st.
Proof.
  unfold has_status. rewrite existsb_exists. split.
  - intros ([n r] & Hin & Hs). apply list_elem_of_In, elem_of_map_to_list in Hin. apply bool_decide_eq_true in Hs. by exists n, r.
  - intros (n & r & Hn & Hs). exists (n, r). split; [by apply list_elem_of_In, elem_of_map_to_list|by apply bool_decide_eq_true].
Qed.
Lemma overall_ok w : overall_status w = OverallOk <-> forall n r, w !! n = Some r -> r_status r = StatusOk.
Proof.
  unfold overall_status. pose proof (has_status_iff StatusFailed w) as Hf. pose proof (has_status_iff StatusSkipped w) as Hs.
  destruct (has_status StatusFailed w), (has_status StatusSkipped w); cbn [negb andb].
  1-3: split; [by try (destruct (has_status StatusOk w))|]; intros H.
  - destruct (proj1 Hf eq_refl) as (n & r & Hn & Hr). by rewrite (H n r Hn) in Hr.
  - destruct (proj1 Hf eq_refl) as (n & r & Hn & Hr). by rewrite (H n r Hn) in Hr.
  - destruct (proj1 Hs eq_refl) as (n & r & Hn & Hr). by rewrite (H n r Hn) in Hr.
  - split; [|done]. intros _ n r Hn. destruct (r_status r) eqn:E; [done| |].
    + assert (false = true) by (apply Hf; by exists n, r). done.
    + assert (false = true) by (apply Hs; by exists n, r). done.
Qed.

(** ** Loops end *)

Section total.
Variable py_str : json -> string.
Variable R : runner.
Variable exec : place -> string -> context -> json -> option json.
Hypothesis Hacc : accepted R.
Abbreviation desc := (_descendants (edges R)).

Lemma desc_iff n m : m ∈ desc n <-> tc (source_of (edges R)) m n.
Proof. by destruct (closure_exact (edges R) n m). Qed.
Lemma desc_fewer n m : m ∈ desc n -> (length (desc m) < length (desc n))%nat.
Proof.
  intros Hm. assert (H : (length (m :: desc m) <= length (desc n))%nat); [|done].
  apply submseteq_length, NoDup_submseteq.
  - apply NoDup_cons. split; [|apply closure_NoDup]. intros Hc%desc_iff. by apply (acc_acyclic R Hacc m).
  - intros k [->|Hk]%elem_of_cons; [done|]. apply desc_iff. apply desc_iff in Hk, Hm. by etrans.
Qed.
Lemma desc_ids n m : m ∈ desc n -> m ∈ (by_id R).*1.
Proof. intros Hm%desc_iff. destruct Hacc as [[_ Hw] _ _ _]. by destruct (tc_source_within _ _ _ _ Hw Hm). Qed.
Lemma desc_length n : (length (desc n) <= length (by_id R))%nat.
Proof.
  rewrite <- (length_fmap fst (by_id R)). apply submseteq_length, NoDup_submseteq; [apply closure_NoDup|]. intros m. apply desc_ids.
Qed.
(** A part of an accepted graph can be scheduled. *)
Lemma body_layers body : exists layers, topo_layers (List.filter (within body) (edges R)) body = Some layers /\ concat layers ≡ₚ body.
Proof.
  assert (Hw : edges_within body (List.filter (within body) (edges R))).
  { apply Forall_forall. intros e He%list_elem_of_In%filter_In. destruct He as [_ He]. unfold within in He.
    apply andb_true_iff in He as [Hs Ht]. by apply bool_decide_eq_true in Hs, Ht. }
  assert (Ha : acyclic (List.filter (within body) (edges R))).
  { intros n Hn. apply (acc_acyclic R Hacc n). revert Hn. apply (tc_congruence id).
    intros a b (e & He & Ht & Hs)%source_of_edge. apply source_of_edge. exists e. split; [|done].
    apply list_elem_of_In, filter_In in He as [He _]. by apply list_elem_of_In. }
  destruct (acyclic_layers _ _ Hw Ha) as [layers Hl]. exists layers. split; [done|]. by apply layers_loop_sound in Hl as [Hp _].
Qed.
(** Results are replaced, never removed. *)
Definition keeps (w w' : gmap string node_result) : Prop := forall n, is_Some (w !! n) -> is_Some (w' !! n).
Lemma keeps_refl w : keeps w w.
Proof. by intros k. Qed.
#[local] Hint Resolve keeps_refl : core.
Lemma keeps_insert n r w w' : keeps w w' -> keeps w (<[n := r]> w').
Proof. intros H k Hk. apply lookup_insert_is_Some'. right. by apply H. Qed.
Section body.
Variable rn : place -> string -> context -> gmap string node_result -> option ran.
Definition total_on (ls : list string) (header : string) : Prop :=
  forall at_ n c w, n ∈ ls -> n <> header -> exists r m w', rn at_ n c w = Some (r, m, w') /\ keeps w w'.
Lemma run_body_total at_ header ls c w : total_on ls header -> exists log w', run_body rn at_ header ls c w = Some (log, w') /\ keeps w w'.
Proof.
  revert c w. induction ls as [|n ls IH]; intros c w Hrn; [by exists [], w|]. cbn [run_body].
  assert (Hr : exists r m w', (if String.eqb n header then Some (NodeResult StatusOk JNull, nodes c, w) else rn at_ n c w) = Some (r, m, w') /\ keeps w w').
  { destruct (String.eqb_spec n header) as [|Hne]; [by exists (NodeResult StatusOk JNull), (nodes c), w|]. apply Hrn; [by left|done]. }
  destruct Hr as (r & m & w1 & -> & H1). cbn [mbind option_bind].
  destruct (IH (with_nodes (publish n r m) c) w1) as (log & w2 & -> & H2); [intros a k c' w' Hk; apply Hrn; by right|].
  exists ((n, r) :: log), w2. split; [done|]. intros k Hk. by apply H2, H1.
Qed.
Lemma run_elements_total at_ header ls i items c w : total_on ls header ->
  exists log w', run_elements rn at_ header ls i items c w = Some (log, w') /\ keeps w w'.
Proof.
  intros Hrn. revert i w. induction items as [|el items IH]; intros i w; [by exists [], w|]. cbn [run_elements].
  destruct (run_body_total (at_ ++ [(header, i)]) header ls (with_item el c) w Hrn) as (log & w1 & -> & H1). cbn [mbind option_bind].
  destruct (IH (S i) w1) as (log' & w2 & -> & H2). exists (log ++ log'), w2. split; [done|]. intros k Hk. by apply H2, H1.
Qed.
End body.
Lemma publish_keeps f l m w m' w' : foldr (fun n (x : gmap string node_entry * gmap string node_result) => (publish n (f n) x.1, <[n := f n]> x.2)) (m, w) l = (m', w') ->
  keeps w w' /\ forall n, n ∈ l -> is_Some (w' !! n).
Proof.
  revert m' w'. induction l as [|n l IH]; intros m' w'; simpl; [intros [= _ <-]; split; [done|by intros n ?%not_elem_of_nil]|].
  destruct (foldr _ _ _) as [m1 w1] eqn:E. intros [= _ <-]. destruct (IH _ _ eq_refl) as [Hk Hl]. split; [by apply keeps_insert|].
  intros k [->|Hk']%elem_of_cons; apply lookup_insert_is_Some'; [by left|right; by apply Hl].
Qed.
Lemma run_node_total fuel at_ n c w : n ∈ (by_id R).*1 -> (length (desc n) < fuel)%nat ->
  exists r m w', _run_node py_str exec R fuel at_ n c w = Some (r, m, w') /\ keeps w w'.
Proof.
  revert at_ n c w. induction fuel as [|fuel IH]; intros at_ n c w Hn Hf; [lia|]. cbn [_run_node].
  destruct (dict_get n (by_id R)) as [d|] eqn:Ed; [|by apply dict_get_None in Ed].
  destruct (negb _); [by do 3 eexists|]. destruct (is_foreach py_str d); [|by do 3 eexists].
  unfold _run_loop. destruct (loop_items py_str d c) as [items|]; [|by do 3 eexists].
  destruct (body_layers (n :: desc n)) as (layers & Hl & Hp). rewrite Hl. cbn [mbind option_bind].
  destruct (run_elements_total (_run_node py_str exec R fuel) at_ n (concat layers) 0 items c w) as (log & w1 & -> & H1).
  - intros a k c' w' Hk Hne. rewrite Hp in Hk. apply elem_of_cons in Hk as [->|Hk]; [done|].
    apply IH; [by eapply desc_ids|]. pose proof (desc_fewer n k Hk). lia.
  - cbn [mbind option_bind]. destruct (foldr _ _ _) as [m w2] eqn:Ef. exists (collected log (length items) n), m, w2. split; [done|].
    apply (publish_keeps (collected log (length items))) in Ef as [H2 _]. intros k Hk. by apply H2, H1.
Qed.
Lemma run_layers_total ls c w : ls ⊆ (by_id R).*1 -> exists c' w', run_layers py_str exec R ls c w = Some (c', w') /\
  keeps w w' /\ (forall n, n ∈ ls -> n ∉ loop_body py_str R -> is_Some (w' !! n)).
Proof.
  revert c w. induction ls as [|n ls IH]; intros c w Hl.
  - exists c, w. split; [done|]. split; [done|by intros n ?%not_elem_of_nil].
  - cbn [run_layers]. assert (Hls : ls ⊆ (by_id R).*1) by (intros m Hm; apply Hl; by right). destruct (bool_decide _) eqn:Eb.
    + apply bool_decide_eq_true in Eb. destruct (IH c w Hls) as (c' & w' & Hr & Hk & Ho). exists c', w'. split; [done|split; [done|]].
      intros m [->|Hm]%elem_of_cons Hnb; [done|by apply Ho].
    + destruct (run_node_total (S (length (by_id R))) [] n c w) as (r & m & w1 & -> & H1); [apply Hl; by left|pose proof (desc_length n); lia|].
      cbn [mbind option_bind]. destruct (IH (with_nodes (publish n r m) c) (<[n := r]> w1) Hls) as (c' & w2 & Hr & Hk & Ho).
      exists c', w2. split; [done|]. split.
      * intros k Hi. apply Hk. by apply (keeps_insert n r w w1 H1).
      * intros k [->|Hi]%elem_of_cons Hnb; [|by apply Ho]. apply Hk, lookup_insert_is_Some'. by left.
Qed.
End total.

(** ** The outcome of a run *)

(** C19: a run of an accepted workflow always comes to an end, with nested loops and
    whatever its executors answer or raise, and leaves a result for every node that is
    not in the body of a loop; its status is ok exactly when every result is. *)
Theorem run_total (py_str : json -> string) (inputs : list string) (defn : node) (R : runner) (exec : place -> string -> context -> json -> option json) (c : context) (Hval : validate_graph py_str inputs defn = Some (by_id R, edges R)) :
  exists st c' w, run py_str exec R c = Some (st, c', w) /\
    (forall n, n ∈ (by_id R).*1 -> n ∉ loop_body py_str R -> is_Some (w !! n)) /\
    (st = OverallOk <-> forall n r, w !! n = Some r -> r_status r = StatusOk).
Proof.
  pose proof (validate_accepted py_str inputs defn R Hval) as Hacc.
  destruct (topo_ordered R Hacc) as (layers & Hl & Hp & _).
  destruct (run_layers_total py_str R exec Hacc (concat layers) c ∅) as (c' & w & Hr & _ & Ho); [by rewrite Hp|].
  exists (overall_status w), c', w. split; [unfold run; rewrite Hl; cbn [mbind option_bind]; by rewrite Hr|].
  split; [intros n Hn; apply Ho; by rewrite Hp|apply overall_ok].
Qed.

(** C18: the nodes of an accepted workflow without loops may be started in any order in
    which sources come first and may finish in any order: no such run gets stuck, every
    one ends after two steps per node, and all of them end with the results that [run]
    computes. *)
Theorem interleavings_agree (py_str : json -> string) (inputs : list string) (defn : node) (R : runner) (start : context) (exec : place -> string -> context -> json -> option json)
  (k : nat) (s : wf_state) (Hval : validate_graph py_str inputs defn = Some (by_id R, edges R)) (Hlocal : exec_local R exec)
  (Hfree : forall n d, (n, d) ∈ by_id R -> is_foreach py_str d = false)
  (Hrun : nsteps (wf_step py_str R start exec) k (WfState (by_id R).*1 ∅ ∅) s) :
  (k <= 2 * length (by_id R).*1)%nat /\
  ((exists s', wf_step py_str R start exec s s') \/
   (todo s = [] /\ busy s = ∅ /\
    run py_str exec R (scope start ∅) = Some (overall_status (out s), scope start (out s), out s))).
Proof.
  pose proof (validate_accepted py_str inputs defn R Hval) as Hacc.
  pose proof (wf_init_inv py_str R start exec Hacc (by_id R).*1 ltac:(done)) as H0.
  assert (Hi : wf_inv py_str R start exec s) by (eapply wf_steps_inv; [done|done|done|by eapply rtc_nsteps_2]).
  split; [pose proof (wf_steps_bound py_str R start exec Hacc Hlocal _ _ _ H0 Hrun) as Hb; unfold left_to_do in Hb; simpl in Hb; rewrite map_size_empty in Hb; lia|].
  destruct (wf_progress py_str R start exec Hacc s Hi) as [?|[Ht Hb]]; [by left|right].
  destruct (run_solution py_str R start exec Hacc Hlocal Hfree) as (o & Hr & Hs & Hd). split; [done|split; [done|]].
  destruct (wf_done_solution py_str R start exec s Hi Ht Hb) as [Hs' Hd']. enough (o = out s) by by subst o.
  apply map_eq. intros n. destruct (decide (n ∈ (by_id R).*1)) as [Hn|Hn].
  - by apply (solutions_agree py_str R start (fun _ => True) exec exec).
  - transitivity (@None node_result); [|symmetry]; apply not_elem_of_dom; [rewrite Hd|rewrite Hd']; by rewrite elem_of_list_to_set.
Qed.

(** C20: in an accepted workflow without loops, whose executors read no more of the
    context than what the node may refer to, what a node answers, or whether it fails,
    changes the results of its descendants at most: every other node ends as it would
    have. *)
Theorem failure_localizes (py_str : json -> string) (inputs : list string) (defn : node) (R : runner) (start : context) (exec1 exec2 : place -> string -> context -> json -> option json)
  (x n : string) (Hval : validate_graph py_str inputs defn = Some (by_id R, edges R)) (Hlocal1 : exec_local R exec1) (Hlocal2 : exec_local R exec2)
  (Hfree : forall n d, (n, d) ∈ by_id R -> is_foreach py_str d = false)
  (Hsame : forall m c v, m <> x -> exec1 [] m c v = exec2 [] m c v)
  (Hn : n ∈ (by_id R).*1) (Hx : n <> x) (Hnot : x ∉ _ancestors (edges R) n) :
  exists out1 out2, run py_str exec1 R (scope start ∅) = Some (overall_status out1, scope start out1, out1) /\
    run py_str exec2 R (scope start ∅) = Some (overall_status out2, scope start out2, out2) /\
    is_Some (out1 !! n) /\ out1 !! n = out2 !! n.
Proof.
  pose proof (validate_accepted py_str inputs defn R Hval) as Hacc.
  destruct (run_solution py_str R start exec1 Hacc Hlocal1 Hfree) as (o1 & Hr1 & Hs1 & Hd1).
  destruct (run_solution py_str R start exec2 Hacc Hlocal2 Hfree) as (o2 & Hr2 & Hs2 & _).
  exists o1, o2. split; [done|split; [done|]]. split; [apply elem_of_dom; rewrite Hd1; by apply elem_of_list_to_set|].
  apply (solutions_agree py_str R start (fun m => m <> x /\ x ∉ _ancestors (edges R) m) exec1 exec2); try done.
  - intros a m [_ Ha] Hm. apply anc_iff in Hm. split; [intros ->; by apply Ha, anc_iff|]. intros Hc. apply Ha, anc_iff. apply anc_iff in Hc. by etrans.
  - intros m d o _ [Hm _]. unfold step_result, _dispatch. destruct (gate _ _ _ _); [|done]. destruct (node_params _ _); [|done]. cbn [mbind option_bind].
    destruct (resolve_value _ _ _); [|done]. cbn [mbind option_bind]. by rewrite (Hsame m).
Qed.

(** An edge is taken when its source succeeded and its predicate holds. *)
Definition taken (start : context) (out : gmap string node_result) (e : edge) : Prop :=
  (exists r, out !! e_source e = Some r /\ r_status r = StatusOk) /\
  (e_when e = EmptyString \/ eval_predicate (e_when e) (scope start out) = Some true).
Lemma active_taken start out e : active (scope start out) out e = true <-> taken start out e.
Proof.
  unfold active, taken, scope. cbn [nodes with_nodes]. rewrite lookup_fmap, andb_true_iff, orb_true_iff, !bool_decide_eq_true, negb_true_iff.
  assert (Hw : str_truthy (e_when e) = false <-> e_when e = EmptyString) by (by destruct (e_when e)).
  rewrite Hw. apply and_iff_compat_r. destruct (out !! e_source e) as [r|]; simpl.
  - split; [intros [= H]; by exists r|by intros (r' & [= <-] & ->)].
  - split; [done|by intros (r' & ? & _)].
Qed.
Lemma gate_taken R n start out : gate R n (scope start out) out = true <-> incoming R n = [] \/ exists e, e ∈ incoming R n /\ taken start out e.
Proof.
  unfold gate. destruct (incoming R n) as [|e l]; [split; auto|]. rewrite existsb_exists. split.
  - intros (x & Hx & Ha). right. exists x. rewrite list_elem_of_In. by rewrite <- active_taken.
  - intros [?|(x & Hx & Ha)]; [done|]. exists x. rewrite <- list_elem_of_In. by rewrite active_taken.
Qed.

(** C21: in an accepted workflow without loops, whose executors read no more of the
    context than what the node may refer to, a node is skipped exactly when it has
    incoming edges and none of them is taken, and it succeeds only with an output of its
    executor that satisfies its declared schema.  (With loops neither holds, see
    [skipped_body_fails] and [loop_output_unchecked].) *)
Theorem node_outcome (py_str : json -> string) (inputs : list string) (defn : node) (R : runner) (start : context) (exec : place -> string -> context -> json -> option json)
  (Hval : validate_graph py_str inputs defn = Some (by_id R, edges R)) (Hlocal : exec_local R exec) (Hfree : forall n d, (n, d) ∈ by_id R -> is_foreach py_str d = false) :
  exists out, run py_str exec R (scope start ∅) = Some (overall_status out, scope start out, out) /\
  forall n d, (n, d) ∈ by_id R -> exists r, out !! n = Some r /\
    (r_status r = StatusSkipped <-> incoming R n <> [] /\ forall e, e ∈ incoming R n -> ~ taken start out e) /\
    (r_status r = StatusOk -> exists params v, exec [] n (scope start out) params = Some v /\ r_output r = _bound_output v /\
       forall schema, dict_get "output_schema" d = Some schema -> json_truthy schema = true -> validate_output v schema = Some []).
Proof.
  pose proof (validate_accepted py_str inputs defn R Hval) as Hacc.
  destruct (run_solution py_str R start exec Hacc Hlocal Hfree) as (o & Hr & Hs & _). exists o. split; [done|].
  intros n d Hin. exists (step_result py_str R start exec n d o). split; [by apply Hs|]. unfold step_result.
  pose proof (gate_taken R n start o) as Hg. destruct (gate R n (scope start o) o) eqn:Eg.
  - assert (Hno : ~ (incoming R n <> [] /\ forall e, e ∈ incoming R n -> ~ taken start o e)).
    { intros [Hi Hnone]. destruct (proj1 Hg eq_refl) as [?|(e & He & Ht)]; [done|]. by apply (Hnone e). }
    unfold _dispatch. destruct (node_params py_str d) as [params|]; cbn [mbind option_bind]; [|by split; [split|]].
    destruct (resolve_value py_str (JObj params) (scope start o)) as [v|]; cbn [mbind option_bind]; [|by split; [split|]].
    destruct (exec [] n (scope start o) v) as [res|] eqn:Ex; cbn [mbind option_bind]; [|by split; [split|]].
    assert (Hok : forall P, (forall schema, dict_get "output_schema" d = Some schema -> json_truthy schema = true -> validate_output res schema = Some []) ->
      (P <-> False) -> (StatusOk = StatusSkipped <-> P) /\ (StatusOk = StatusOk -> exists params v, exec [] n (scope start o) params = Some v /\
        _bound_output res = _bound_output v /\ forall schema, dict_get "output_schema" d = Some schema -> json_truthy schema = true -> validate_output v schema = Some [])).
    { intros P Hv HP. split; [by rewrite HP|]. intros _. by exists v, res. }
    destruct (dict_get "output_schema" d) as [schema|]; [|apply Hok; [done|by split]].
    destruct (json_truthy schema) eqn:Et; [|apply Hok; [intros sc [= <-] ?; congruence|by split]].
    destruct (validate_output res schema) as [[|? ?]|] eqn:Ev; cbn [mbind option_bind]; [|by split; [split|]|by split; [split|]].
    apply Hok; [by intros sc [= <-] _|by split].
  - split; [|done]. split; [|done]. intros _. split.
    + intros Hi. assert (false = true) by (apply Hg; by left). done.
    + intros e He Ht. assert (false = true) by (apply Hg; right; by exists e). done.
Qed.

(** ** Samples *)

Module WorkflowSample.
Definition defn_of (R : runner) : node :=
  [("nodes", JArr ((fun kv => JObj kv.2) <$> by_id R));
   ("edges", JArr ((fun e => JObj [("source", JStr (e_source e)); ("target", JStr (e_target e)); ("when", JStr (e_when e))]) <$> edges R))].
Definition plain_runner : runner :=
  WorkflowRunner
    [("a", [("id", JStr "a"); ("name", JStr "A"); ("kind", JStr "http"); ("url", JStr "u")]);
     ("b", [("id", JStr "b"); ("name", JStr "B"); ("kind", JStr "http"); ("url", JStr "{$a.url}/b"); ("output_schema", JObj [("type", JStr "object"); ("required", JArr [JStr "url"])])]);
     ("c", [("id", JStr "c"); ("name", JStr "C"); ("kind", JStr "http"); ("url", JStr "v")])]
    [Edge "a" "b" "$a.url == 'u'"; Edge "a" "c" "$a.url == 'w'"].
Definition echo (at_ : place) (nid : string) (c : context) (params : json) : option json := Some params.
Definition fail_at (x : string) (at_ : place) (nid : string) (c : context) (params : json) : option json :=
  if String.eqb nid x then None else Some params.
Definition empty_start : context := WorkflowContext [] [] ∅ JNull.
Lemma plain_valid : validate_graph dump_value [] (defn_of plain_runner) = Some (by_id plain_runner, edges plain_runner).
Proof. by vm_compute. Qed.
Lemma loops_valid : validate_graph dump_value [] (defn_of sample_runner) = Some (by_id sample_runner, edges sample_runner).
Proof. by vm_compute. Qed.
Lemma plain_free n d : (n, d) ∈ by_id plain_runner -> is_foreach dump_value d = false.
Proof. intros H. repeat (apply elem_of_cons in H as [[= -> ->]|H]; [by vm_compute|]). by apply not_elem_of_nil in H. Qed.
Lemma fail_local R x : exec_local R (fail_at x).
Proof. done. Qed.

Lemma interleavings_agree_witness : exists k s,
  nsteps (wf_step dump_value plain_runner empty_start echo) k (WfState ["a"; "b"; "c"] ∅ ∅) s /\
  todo s = ["b"; "c"] /\ (k <= 6)%nat.
Proof.
  assert (Hrun : nsteps (wf_step dump_value plain_runner empty_start echo) 1 (WfState (by_id plain_runner).*1 ∅ ∅)
    (WfState ([] ++ ["b"; "c"]) (<["a" := step_result dump_value plain_runner empty_start echo "a" (default [] (dict_get "a" (by_id plain_runner))) ∅]> ∅) ∅)).
  { apply nsteps_once, (wf_start _ _ _ _ "a" _ [] ["b"; "c"]); [by left|]. intros m Hm. by apply not_elem_of_nil in Hm. }
  destruct (interleavings_agree dump_value [] (defn_of plain_runner) plain_runner empty_start echo _ _ plain_valid ltac:(done) plain_free Hrun) as [Hk _].
  eexists 1%nat, _. split; [exact Hrun|]. split; [done|exact Hk].
Defined.
Lemma failure_localizes_witness : exists out1 out2,
  run dump_value (fail_at "b") plain_runner (scope empty_start ∅) = Some (overall_status out1, scope empty_start out1, out1) /\
  run dump_value echo plain_runner (scope empty_start ∅) = Some (overall_status out2, scope empty_start out2, out2) /\
  is_Some (out1 !! "c") /\ out1 !! "c" = out2 !! "c".
Proof.
  apply (failure_localizes dump_value [] (defn_of plain_runner) plain_runner empty_start (fail_at "b") echo "b" "c" plain_valid (fail_local _ _) ltac:(done) plain_free);
    [|set_solver|done|by vm_compute; set_solver].
  intros m c v Hm. unfold fail_at. by destruct (String.eqb_spec m "b").
Defined.
Lemma node_outcome_witness : exists out,
  run dump_value echo plain_runner (scope empty_start ∅) = Some (overall_status out, scope empty_start out, out) /\ is_Some (out !! "b").
Proof.
  destruct (node_outcome dump_value [] (defn_of plain_runner) plain_runner empty_start echo plain_valid ltac:(done) plain_free) as (out & Hr & H). exists out. split; [done|].
  destruct (H "b" _ ltac:(right; by left)) as (r & Hb & _). by exists r.
Defined.
Lemma run_total_witness : exists st c w, run dump_value sample_exec sample_runner empty_start = Some (st, c, w) /\ is_Some (w !! "each").
Proof.
  destruct (run_total dump_value [] (defn_of sample_runner) sample_runner sample_exec empty_start loops_valid) as (st & c & w & Hr & Hw & _).
  exists st, c, w. split; [done|]. apply Hw; [right; by left|].
  assert (Hb : loop_body dump_value sample_runner = ["one"]) by by vm_compute. rewrite Hb. by intros ?%list_elem_of_singleton.
Defined.
(** Where every node failed, and where some were skipped too. *)
Lemma all_failed_is_partial :
  fst <$> (fst <$> run dump_value (fun _ _ _ _ => None) (WorkflowRunner (take 1 (by_id plain_runner)) []) empty_start) = Some OverallPartial /\
  fst <$> (fst <$> run dump_value (fail_at "a") plain_runner empty_start) = Some OverallFailed.
Proof. by vm_compute. Qed.
(** A node of a loop body that is skipped for every element is reported failed. *)
Lemma skipped_body_fails :
  (fun r => r_status <$> r.2 !! "one") <$>
    run dump_value sample_exec (WorkflowRunner (take 3 sample_nodes) [Edge "fetch" "each" ""; Edge "each" "one" "$item == 'z'"]) empty_start
  = Some (Some StatusFailed).
Proof. by vm_compute. Qed.
(** The list a loop collects is not held against the schema its header declares. *)
Definition typed_loop : list (string * node) :=
  match sample_nodes with
  | f :: (e, d) :: o :: _ => [f; (e, d ++ [("output_schema", JObj [("type", JStr "object"); ("required", JArr [JStr "k"])])]); o]
  | _ => []
  end.
Lemma loop_output_unchecked :
  (fun r => r_status <$> r.2 !! "each") <$>
    run dump_value sample_exec (WorkflowRunner typed_loop [Edge "fetch" "each" ""; Edge "each" "one" ""]) empty_start = Some (Some StatusOk) /\
  validate_output (JArr [JNull; JNull]) (JObj [("type", JStr "object"); ("required", JArr [JStr "k"])]) = Some [Expected "$"].
Proof. by vm_compute. Qed.
(** The body of an inner loop is run by the outer loop as well: the result of [d] is what
    it answered for the outer elements, once each, and not for the inner ones. *)
Definition nested_runner : runner :=
  WorkflowRunner
    [("outer", [("id", JStr "outer"); ("name", JStr "o"); ("kind", JStr "foreach"); ("items", JStr "$input.xs")]);
     ("inner", [("id", JStr "inner"); ("name", JStr "i"); ("kind", JStr "foreach"); ("items", JStr "$input.ys")]);
     ("d", [("id", JStr "d"); ("name", JStr "d"); ("kind", JStr "http"); ("url", JStr "{$item}")])]
    [Edge "outer" "inner" ""; Edge "inner" "d" ""].
Lemma nested_body_reruns :
  validate_graph dump_value ["xs"; "ys"] (defn_of nested_runner) = Some (by_id nested_runner, edges nested_runner) /\
  (w ← snd <$> run dump_value echo nested_runner (WorkflowContext [("xs", JArr [JStr "x"]); ("ys", JArr [JStr "p"; JStr "q"])] [] ∅ JNull);
   r_output <$> w !! "d")
  = Some (JArr [JObj [("url", JStr "x")]]).
Proof. by vm_compute. Qed.
End WorkflowSample.
