(* ===== verification/Inputs.v ===== *)
(** agent/workflow.py, the declarations around the graph of a workflow: its inputs with
    their types, options and defaults, the values a run is given, its launch methods, and
    what happens at its end.

    None is WorkflowDefError.  Declarations are JSON objects with distinct keys. *)
From S2P Require Import Prelude Json Text Windows Retry Stream Messages Graph Refs Workflow.

Definition INPUT_TYPES : list string := ["string"; "number"; "boolean"; "json"; "array"; "model"; "account"; "cdp_client"; "proxy"].
Definition _RESOURCE_INPUT_TYPES : list string := ["model"; "account"; "cdp_client"; "proxy"].
Definition TRIGGER_KINDS : list string := ["cron"].
Definition TRIGGER_PARAM_SOURCES : list string := ["agent"; "custom"; "account_list"].
Definition NOTIFY_WHEN : list string := ["success"; "failed"; "always"].
Definition MAX_NOTIFY_TEMPLATE_CHARS : nat := Z.to_nat 2000.

Section inputs.
Variable py_str : json -> string.
Abbreviation field := (field_text py_str).
Abbreviation str_ := (json_str_of py_str).

(** [re.fullmatch("[A-Za-z_][A-Za-z0-9_]*", s)] *)
Definition identifier (s : string) : bool :=
  match s with String c s' => letter c && str_all word_char s' | EmptyString => false end.

(** ** Values of a declared type *)

(** [float(v)]: None is TypeError or ValueError. *)
Definition float_of (v : json) : option num :=
  match v with JStr s => py_float s | v => as_number v end.
Definition _same_scalar (a b : json) : bool :=
  py_eq a b ||
  match a, b with
  | JBool _, _ | _, JBool _ => String.eqb (lower (strip (str_ a))) (lower (strip (str_ b)))
  | _, _ => match float_of a, float_of b with
            | Some x, Some y => match num_cmp x y with Some Eq => true | _ => false end
            | _, _ => String.eqb (str_ a) (str_ b)
            end
  end.
(** [re.fullmatch("[+-]?\d+", s)] *)
Definition plain_int (s : string) : bool :=
  match s with
  | String "+" r | String "-" r => str_truthy r && str_all digit r
  | r => str_truthy r && str_all digit r
  end.
Definition number_of_text (s : string) : option json :=
  if plain_int s then JNum <$> (tostring <$> py_int_text s)
  else match py_float s with Some _ => Some (JNum s) | None => None end.
Definition truth_of_text (s : string) : option bool :=
  let low := lower (strip s) in
  if bool_decide (low ∈ ["true"; "1"; "yes"; "on"]) then Some true
  else if bool_decide (low ∈ ["false"; "0"; "no"; "off"]) then Some false else None.
(** [str(a or b or ... or "")] over the fields of an object. *)
Fixpoint first_field (ks : list string) (d : list (string * json)) : string :=
  match ks with
  | [] => ""
  | k :: ks' => match truthy_field k d with Some v => str_ v | None => first_field ks' d end
  end.
Definition _name_of (v : json) : string :=
  match v with JObj d => first_field ["username"; "name"] d | _ => str_ v end.
Definition account_of_text (s : string) : json :=
  if startswith "[" (strip s) then
    match loads (strip s) with Some (JArr l) => JArr (JStr ∘ _name_of <$> l) | _ => JStr s end
  else JStr s.
(** A value that is not null. *)
Definition coerce_value (type_ : string) (raw : json) : option json :=
  if String.eqb type_ "string" then Some (JStr (str_ raw))
  else if String.eqb type_ "number" then
    match raw with JBool _ => None | JNum _ => Some raw | _ => number_of_text (strip (str_ raw)) end
  else if String.eqb type_ "boolean" then
    match raw with JBool _ => Some raw | _ => JBool <$> truth_of_text (str_ raw) end
  else if String.eqb type_ "array" then
    match raw with
    | JArr _ => Some raw
    | JStr s => match loads s with Some (JArr l) => Some (JArr l) | _ => None end
    | _ => None
    end
  else if bool_decide (type_ ∈ ["model"; "cdp_client"; "proxy"]) then
    Some (JStr (match raw with JObj d => first_field ["id"; "model_name"; "client_id"; "name"] d | _ => str_ raw end))
  else if String.eqb type_ "account" then
    Some (match raw with
          | JArr l => JArr (JStr ∘ _name_of <$> l)
          | JStr s => account_of_text s
          | _ => JStr (_name_of raw)
          end)
  else Some raw.
Definition _coerce_one (type_ : string) (raw : json) : option json :=
  match raw with JNull => Some JNull | _ => coerce_value type_ raw end.

(** ** Declared inputs *)

Record input_spec := InputSpec {
  in_type : string; in_note : string; in_site : option string; in_default : option json; in_options : list json; in_required : option bool }.
(** The first of the options that read the same. *)
Fixpoint dedup_options (seen : list string) (l : list json) : list json :=
  match l with
  | [] => []
  | o :: l' => if bool_decide (str_ o ∈ seen) then dedup_options seen l' else o :: dedup_options (str_ o :: seen) l'
  end.
Definition scalar (v : json) : bool := match v with JNull | JObj _ | JArr _ => false | _ => true end.
Definition check_options (type_ : string) (v : option json) : option (list json) :=
  match v with
  | None | Some JNull => Some []
  | Some (JArr ((_ :: _) as l)) =>
      if negb (bool_decide (type_ ∈ ["json"; "array"])) && forallb scalar l then Some (dedup_options [] l) else None
  | Some _ => None
  end.
Definition check_default (type_ : string) (options : list json) (v : option json) : option (option json) :=
  match v with
  | None | Some JNull => Some None
  | Some raw =>
      dv ← _coerce_one type_ raw;
      if negb (match options with [] => true | _ => false end) && negb (bool_decide (type_ ∈ _RESOURCE_INPUT_TYPES)) &&
         negb (existsb (_same_scalar dv) options)
      then None else Some (Some dv)
  end.
Definition check_spec (seen : list string) (spec : json) : option (string * input_spec) :=
  match spec with
  | JObj d =>
      let key := field "key" d in
      let type_ := lower (strip (str_or (get_text py_str d "type") "string")) in
      if identifier key && negb (bool_decide (key ∈ seen)) && negb (bool_decide (key ∈ _VAR_ROOTS)) && none_field "source" d &&
         bool_decide (type_ ∈ INPUT_TYPES)
      then options ← check_options type_ (dict_get "options" d);
           dv ← check_default type_ options (dict_get "default" d);
           let site := field "site_url" d in
           Some (key, InputSpec type_ (get_text py_str d "note")
                        (if String.eqb type_ "account" && str_truthy site then Some site else None) dv options
                        (match dict_get "required" d with None | Some JNull => None | Some v => Some (json_truthy v) end))
      else None
  | _ => None
  end.
Fixpoint check_specs (table : list (string * input_spec)) (l : list json) : option (list (string * input_spec)) :=
  match l with
  | [] => Some table
  | spec :: l' => e ← check_spec table.*1 spec; check_specs (table ++ [e]) l'
  end.
Definition validate_inputs (defn : node) : option (list (string * input_spec)) :=
  match dict_get "inputs" defn with
  | None | Some JNull => Some []
  | Some (JArr l) => check_specs [] l
  | Some _ => None
  end.

(** ** Values of a run *)

Definition coerce_input (table : list (string * input_spec)) (key : string) (raw : json) : option json :=
  match dict_get key table, raw with
  | None, _ => Some raw
  | Some _, JNull => Some JNull
  | Some spec, _ =>
      v ← _coerce_one (in_type spec) raw;
      match in_options spec with
      | [] => Some v
      | opts => if existsb (_same_scalar v) opts then Some v else None
      end
  end.
Fixpoint coerce_all (table : list (string * input_spec)) (values : list (string * json)) : option (list (string * json)) :=
  match values with
  | [] => Some []
  | (k, raw) :: values' => v ← coerce_input table k raw; rest ← coerce_all table values'; Some ((k, v) :: rest)
  end.
Definition coerce_inputs (defn : node) (values : list (string * json)) : option (list (string * json)) :=
  table ← validate_inputs defn; coerce_all table values.
(** The filled values, and the required keys that are missing. *)
Fixpoint fill_defaults (table : list (string * input_spec)) (out : list (string * json)) : list (string * json) * list string :=
  match table with
  | [] => (out, [])
  | (key, spec) :: table' =>
      match default JNull (dict_get key out) with
      | JNull => match in_default spec with
                 | Some dv => fill_defaults table' (dict_set key dv out)
                 | None => let '(out', missing) := fill_defaults table' out in
                           (out', if default false (in_required spec) then key :: missing else missing)
                 end
      | _ => fill_defaults table' out
      end
  end.
Definition apply_input_defaults (defn : node) (values : list (string * json)) : option (list (string * json)) :=
  table ← validate_inputs defn;
  match fill_defaults table values with (out, []) => Some out | _ => None end.
(** What a run starts with. *)
Definition run_inputs (defn : node) (values : list (string * json)) : option (list (string * json)) :=
  coerced ← coerce_inputs defn values; apply_input_defaults defn coerced.
End inputs.

(** ** Launch methods and the end of a run *)

Section launch.
Variable py_str : json -> string.
Abbreviation field := (field_text py_str).

Inductive trigger_params := AccountList (url : string) (multiple : bool) | StaticValue (source : string) (value : list (string * json)).
Record trigger := Trigger { tr_id : string; tr_kind : string; tr_label : string; tr_cron : string; tr_enabled : bool; tr_params : trigger_params }.
(** [d.get(k)] that must be an object, absent or null standing for the empty one. *)
Definition object_field (k : string) (d : node) : option node :=
  match default JNull (dict_get k d) with JNull => Some [] | JObj o => Some o | _ => None end.
(** [str(d.get(k) or dflt).strip().lower()] *)
Definition word_field (k dflt : string) (d : node) : string := lower (strip (str_or (get_text py_str d k) dflt)).
Definition check_trigger_params (d : node) : option trigger_params :=
  params ← object_field "params" d;
  let source := word_field "source" "custom" params in
  if negb (bool_decide (source ∈ TRIGGER_PARAM_SOURCES)) then None
  else if String.eqb source "account_list" then
    let url := field "url" params in
    if str_truthy url then Some (AccountList url (match dict_get "multiple" params with Some v => json_truthy v | None => false end)) else None
  else StaticValue source <$> object_field "value" params.
Definition check_trigger (seen : list string) (spec : json) : option trigger :=
  match spec with
  | JObj d =>
      let tid := field "id" d in
      let kind := word_field "kind" "cron" d in
      let cron := field "cron" d in
      if identifier tid && negb (bool_decide (tid ∈ seen)) && bool_decide (kind ∈ TRIGGER_KINDS) && str_truthy cron
      then params ← check_trigger_params d;
           Some (Trigger tid kind (get_text py_str d "label") cron (match dict_get "enabled" d with Some (JBool false) => false | _ => true end) params)
      else None
  | _ => None
  end.
Fixpoint check_triggers (done_ : list trigger) (l : list json) : option (list trigger) :=
  match l with
  | [] => Some done_
  | spec :: l' => t ← check_trigger (tr_id <$> done_) spec; check_triggers (done_ ++ [t]) l'
  end.
Definition validate_triggers (defn : node) : option (list trigger) :=
  match dict_get "triggers" defn with
  | None | Some JNull => Some []
  | Some (JArr l) => check_triggers [] l
  | Some _ => None
  end.

Record end_config := EndConfig { end_template : string; end_channels : list string; end_when : string; end_params : node }.
Definition channel_id (c : json) : option string :=
  match c with JStr s => if str_truthy (strip s) then Some (strip s) else None | _ => None end.
Definition validate_end (d : node) : option end_config :=
  channels ← match default JNull (dict_get "notify_channels" d) with JNull => Some [] | JArr l => mapM channel_id l | _ => None end;
  params ← object_field "notify_params" d;
  let template := get_text py_str d "notify_template" in
  let notify_when := word_field "notify_when" "always" d in
  if (length (chars_of template) <=? MAX_NOTIFY_TEMPLATE_CHARS)%nat && bool_decide (notify_when ∈ NOTIFY_WHEN)
  then Some (EndConfig template channels notify_when params) else None.
(** The agent a failure is handed to. *)
Definition validate_failure (d : node) : option (option Z) :=
  if negb (none_field "action" d) then None
  else match default JNull (dict_get "agent_id" d) with JNull => Some None | v => Some <$> json_int v end.
Definition validate_end_failure (defn : node) : option (end_config * option Z) :=
  e ← object_field "end" defn; end_norm ← validate_end e;
  f ← object_field "failure" defn; failure_norm ← validate_failure f;
  Some (end_norm, failure_norm).

(** The whole check of a definition: None is refused, Some None the empty shell of a
    definition that is still to be drawn. *)
Definition validate_def (defn : json) (allow_empty : bool) : option (option (list (string * node) * list edge)) :=
  match defn with
  | JObj d =>
      inputs ← validate_inputs py_str d;
      _ ← validate_triggers d;
      _ ← validate_end_failure d;
      match dict_get "nodes" d with
      | Some (JArr []) => if allow_empty then Some None else None
      | _ => Some <$> validate_graph py_str inputs.*1 d
      end
  | _ => None
  end.
End launch.

Example run_inputs_ex :
  run_inputs dump_value
    [("inputs", JArr [JObj [("key", JStr "n"); ("type", JStr "number"); ("required", JBool true)];
                      JObj [("key", JStr "mode"); ("options", JArr [JStr "a"; JStr "b"]); ("default", JStr "b")]])]
    [("n", JStr " 7 "); ("x", JNull)]
  = Some [("n", JNum "7"); ("x", JNull); ("mode", JStr "b")].
Proof. by vm_compute. Qed.
