(* ===== verification/InputsProps.v ===== *)
(** The inputs of a workflow: values end up with their declared types, defaults and
    required keys are honoured, and a value that was coerced once is left alone. *)
From S2P Require Import Prelude Json Text Windows Retry Stream Messages Graph Refs Workflow Inputs.

(** What a declared type promises of a value that is not null. *)
Definition has_type (type_ : string) (v : json) : Prop :=
  if String.eqb type_ "string" then exists s, v = JStr s
  else if String.eqb type_ "number" then exists t, v = JNum t
  else if String.eqb type_ "boolean" then exists b, v = JBool b
  else if String.eqb type_ "array" then exists l, v = JArr l
  else if bool_decide (type_ ∈ ["model"; "cdp_client"; "proxy"]) then exists s, v = JStr s
  else if String.eqb type_ "account" then (exists s, v = JStr s) \/ exists l, v = JArr (JStr <$> l)
  else True.

Section inputs.
Variable py_str : json -> string.

Lemma option_typed {A} (o : option A) (f : A -> json) v : f <$> o = Some v -> exists x, v = f x.
Proof. destruct o as [x|]; [|done]. intros [= <-]. by exists x. Qed.
Lemma number_typed s v : number_of_text s = Some v -> exists t, v = JNum t.
Proof.
  unfold number_of_text. destruct (plain_int s); [apply option_typed|]. destruct (py_float s); [|done]. intros [= <-]. by exists s.
Qed.
Lemma account_typed s : (exists t, account_of_text py_str s = JStr t) \/ exists l, account_of_text py_str s = JArr (JStr <$> l).
Proof.
  unfold account_of_text. destruct (startswith _ _); [|left; by eexists]. destruct (loads (strip s)) as [[| | | |l|]|]; try (left; by eexists).
  right. exists (_name_of py_str <$> l). by rewrite <- list_fmap_compose.
Qed.
Lemma json_null_dec (v : json) : v = JNull \/ v <> JNull.
Proof. destruct v; [by left|by right..]. Qed.
Lemma coerce_one_eq t v : v <> JNull -> _coerce_one py_str t v = coerce_value py_str t v.
Proof. by destruct v. Qed.
(** What is read as a value of a type is one, and only null stays null. *)
Lemma value_typed t v v' : coerce_value py_str t v = Some v' -> v <> JNull -> v' <> JNull /\ has_type t v'.
Proof.
  intros H Hv. unfold has_type, coerce_value in *.
  destruct (String.eqb t "string"); [injection H as <-; split; [done|by eexists]|].
  destruct (String.eqb t "number").
  { destruct v as [|b|n|s|l|d]; try done; first [injection H as <-; split; [done|by eexists]|apply number_typed in H as [x ->]; split; [done|by exists x]]. }
  destruct (String.eqb t "boolean").
  { destruct v as [|b|n|s|l|d]; try done; first [injection H as <-; split; [done|by eexists]|apply option_typed in H as [x ->]; split; [done|by exists x]]. }
  destruct (String.eqb t "array").
  { destruct v as [|b|n|s|l|d]; try done; [destruct (loads s) as [[| | | |l|]|]; try done|]; injection H as <-; (split; [done|by eexists]). }
  destruct (bool_decide (t ∈ ["model"; "cdp_client"; "proxy"])); [injection H as <-; split; [done|by eexists]|].
  destruct (String.eqb t "account"); [|by injection H as <-; split].
  destruct v as [|b|n|s|l|d]; injection H as <-; try done; try (split; [done|left; by eexists]).
  - destruct (account_typed s) as [[x ->]|[x ->]]; (split; [done|]); [left|right]; by exists x.
  - split; [done|right]. exists (_name_of py_str <$> l). by rewrite <- list_fmap_compose.
Qed.
Lemma coerce_typed t v v' : _coerce_one py_str t v = Some v' -> v <> JNull -> v' <> JNull /\ has_type t v'.
Proof. intros H Hv. rewrite coerce_one_eq in H by done. by eapply value_typed. Qed.
Lemma coerce_null t v : _coerce_one py_str t v = Some JNull -> v = JNull.
Proof. intros H. destruct v; [done|..]; by destruct (coerce_typed t _ JNull H) as [Hc _]. Qed.
(** A value that has its type already is left as it is; but the name of an account
    given as an object may itself be a list. *)
Lemma value_stable t v : has_type t v -> v <> JNull ->
  (forall s, String.eqb t "account" = true -> v = JStr s -> account_of_text py_str s = JStr s) -> coerce_value py_str t v = Some v.
Proof.
  intros Ht Hv Ha. unfold has_type, coerce_value in *.
  destruct (String.eqb t "string"); [by destruct Ht as [s ->]|].
  destruct (String.eqb t "number"); [by destruct Ht as [s ->]|].
  destruct (String.eqb t "boolean"); [by destruct Ht as [s ->]|].
  destruct (String.eqb t "array"); [by destruct Ht as [s ->]|].
  destruct (bool_decide _); [by destruct Ht as [s ->]|].
  destruct (String.eqb t "account"); [|done]. destruct Ht as [[s ->]|[l ->]]; [by rewrite (Ha s)|].
  f_equal. f_equal. rewrite <- list_fmap_compose. by apply list_fmap_ext.
Qed.

(** ** The table of declared inputs *)

(** A default has its declared type and, unless the platform supplies the options, is one
    of them. *)
Definition spec_ok (spec : input_spec) : Prop :=
  forall dv, in_default spec = Some dv -> dv <> JNull /\ has_type (in_type spec) dv /\
    (in_options spec = [] \/ in_type spec ∈ _RESOURCE_INPUT_TYPES \/ existsb (_same_scalar py_str dv) (in_options spec) = true).
Lemma check_default_ok t opts v dv : check_default py_str t opts v = Some (Some dv) -> dv <> JNull /\ has_type t dv /\
  (opts = [] \/ t ∈ _RESOURCE_INPUT_TYPES \/ existsb (_same_scalar py_str dv) opts = true).
Proof.
  unfold check_default. intros H. assert (Hraw : exists raw, raw <> JNull /\ (x ← _coerce_one py_str t raw;
    if negb (match opts with [] => true | _ => false end) && negb (bool_decide (t ∈ _RESOURCE_INPUT_TYPES)) && negb (existsb (_same_scalar py_str x) opts)
    then None else Some (Some x)) = Some (Some dv)).
  { destruct v as [[]|]; try discriminate H; (eexists; split; [|exact H]; discriminate). }
  clear H. destruct Hraw as (raw & Hraw & H). destruct (_coerce_one py_str t raw) as [x|] eqn:Ex; [|done]. cbn [mbind option_bind] in H.
  destruct (_ && _) eqn:E; [done|]. injection H as ->. destruct (coerce_typed t raw dv Ex Hraw) as [Hn Ht]. split; [done|split; [done|]].
  rewrite !andb_false_iff, !negb_false_iff in E. destruct E as [[E|E]|E]; [left; by destruct opts|right; left; by apply bool_decide_eq_true in E|by right; right].
Qed.
Lemma check_spec_ok seen spec key e : check_spec py_str seen spec = Some (key, e) -> key ∉ seen /\ spec_ok e.
Proof.
  unfold check_spec. destruct spec as [| | | | |d]; try done. destruct (_ && _) eqn:E; [|done].
  rewrite !andb_true_iff, !negb_true_iff in E. destruct E as ((((_ & Hs) & _) & _) & _). apply bool_decide_eq_false in Hs.
  destruct (check_options py_str _ _) as [opts|]; [|done]. cbn [mbind option_bind].
  destruct (check_default py_str _ _ _) as [dv|] eqn:Ed; [|done]. cbn [mbind option_bind]. intros [= <- <-]. split; [done|].
  intros dv' Hdv. simpl in *. subst dv. by apply check_default_ok in Ed.
Qed.
Definition table_ok (table : list (string * input_spec)) : Prop := NoDup table.*1 /\ forall key spec, (key, spec) ∈ table -> spec_ok spec.
Lemma check_specs_ok table l table' : table_ok table -> check_specs py_str table l = Some table' -> table_ok table'.
Proof.
  revert table. induction l as [|x l IH]; intros table Ht; cbn [check_specs]; [by intros [= <-]|].
  destruct (check_spec py_str table.*1 x) as [[key e]|] eqn:E; [|done]. cbn [mbind option_bind]. apply IH.
  apply check_spec_ok in E as [Hk He]. destruct Ht as [Hnd Hs]. split.
  - rewrite fmap_app. apply NoDup_app. split; [done|]. split; [|apply NoDup_singleton]. by intros y Hy ->%list_elem_of_singleton.
  - intros k s. rewrite elem_of_app, list_elem_of_singleton. intros [Hin|[= -> ->]]; [by eapply Hs|done].
Qed.
Lemma validate_inputs_ok defn table : validate_inputs py_str defn = Some table -> table_ok table.
Proof.
  unfold validate_inputs. assert (H0 : table_ok []) by (split; [constructor|by intros k s ?%not_elem_of_nil]).
  destruct (dict_get "inputs" defn) as [[]|]; try done; try (by intros [= <-]). by apply check_specs_ok.
Qed.

(** ** The values of a run *)

Lemma coerce_all_get table values out k : coerce_all py_str table values = Some out ->
  dict_get k out = dict_get k values ≫= coerce_input py_str table k /\ (dict_get k out = None <-> dict_get k values = None).
Proof.
  revert out. induction values as [|[k' raw] values IH]; intros out; cbn [coerce_all]; [by intros [= <-]|].
  destruct (coerce_input py_str table k' raw) as [v|] eqn:Ev; [|done]. cbn [mbind option_bind].
  destruct (coerce_all py_str table values) as [rest|]; [|done]. cbn [mbind option_bind]. intros [= <-]. simpl.
  destruct (decide (k = k')) as [->|]; [by split|by apply IH].
Qed.
(** A default fills in what is absent or null, a required key without one must be there. *)
Definition filled (table : list (string * input_spec)) (values : list (string * json)) (k : string) : option json :=
  match dict_get k table, default JNull (dict_get k values) with
  | Some spec, JNull => match in_default spec with Some dv => Some dv | None => dict_get k values end
  | _, _ => dict_get k values
  end.
Lemma fill_defaults_get table values out missing k : NoDup table.*1 -> fill_defaults table values = (out, missing) ->
  dict_get k out = filled table values k /\
  (missing = [] -> forall spec, dict_get k table = Some spec -> in_required spec = Some true -> in_default spec = None -> default JNull (dict_get k values) <> JNull).
Proof.
  unfold filled. revert values out missing. induction table as [|[key spec] table IH]; intros values out missing Hnd; cbn [fill_defaults]; [by intros [= <- <-]|].
  apply NoDup_cons in Hnd as [Hk Hnd]. cbn [dict_get].
  assert (Hnone : dict_get key table = None) by by apply dict_get_None.
  destruct (default JNull (dict_get key values)) eqn:Ev.
  2-6: intros H; destruct (IH _ _ _ Hnd H) as [Hg Hm]; destruct (decide (k = key)) as [->|]; [|by split]; (split; [by rewrite Hg, Hnone, Ev|by rewrite Ev]).
  destruct (in_default spec) as [dv|] eqn:Ed.
  - intros H. destruct (IH _ _ _ Hnd H) as [Hg Hm]. rewrite dict_get_set in Hg, Hm. destruct (decide (k = key)) as [->|]; [|by split].
    split; [by rewrite Hg, Hnone, Ev, Ed|]. intros _ sp [= <-]. by rewrite Ed.
  - destruct (fill_defaults table values) as [out' missing'] eqn:Ef. intros [= <- <-]. destruct (IH _ _ _ Hnd Ef) as [Hg Hm].
    destruct (decide (k = key)) as [->|]; [|split; [done|]].
    + split; [by rewrite Hg, Hnone, Ev, Ed|]. intros He sp [= <-] Hr. rewrite Hr in He. done.
    + intros He. apply Hm. by destruct (default false (in_required spec)).
Qed.

Lemma coerce_input_typed table k raw v spec : dict_get k table = Some spec -> coerce_input py_str table k raw = Some v -> v <> JNull ->
  raw <> JNull /\ _coerce_one py_str (in_type spec) raw = Some v /\ has_type (in_type spec) v /\
  (in_options spec = [] \/ existsb (_same_scalar py_str v) (in_options spec) = true).
Proof.
  unfold coerce_input. intros -> H Hv. assert (Hraw : raw <> JNull) by (intros ->; congruence).
  assert (Hc : (x ← _coerce_one py_str (in_type spec) raw; match in_options spec with
      | [] => Some x | opts => if existsb (_same_scalar py_str x) opts then Some x else None end) = Some v) by by destruct raw.
  destruct (_coerce_one py_str (in_type spec) raw) as [x|] eqn:Ex; [|done]. cbn [mbind option_bind] in Hc. split; [done|].
  assert (Hx : x = v /\ (in_options spec = [] \/ existsb (_same_scalar py_str v) (in_options spec) = true)).
  { destruct (in_options spec) as [|o l]; [injection Hc as ->; by split; [|left]|]. destruct (existsb _ _) eqn:Ee; [|done].
    injection Hc as ->. split; [done|by right]. }
  destruct Hx as [-> Ho]. split; [done|split; [|done]]. by destruct (coerce_typed _ _ _ Ex Hraw).
Qed.
End inputs.


Module InputsSample.
Definition defn : node :=
  [("inputs", JArr [JObj [("key", JStr "n"); ("type", JStr "number"); ("required", JBool true)];
                    JObj [("key", JStr "mode"); ("options", JArr [JStr "a"; JStr "b"]); ("default", JStr "b")]])].
(** A value that was coerced once may change when it is coerced again: the name of an
    account given as an object can read as a list. *)
Lemma account_coerced_twice :
  _coerce_one dump_value "account" (JObj [("username", JStr "[1]")]) = Some (JStr "[1]") /\
  _coerce_one dump_value "account" (JStr "[1]") = Some (JArr [JStr "1"]).
Proof. by vm_compute. Qed.
(** Options of an account or another resource are not enforced for its default. *)
Lemma resource_default_unchecked :
  is_Some (check_default dump_value "model" [JStr "m1"] (Some (JStr "m2"))).
Proof. vm_compute. by eexists. Qed.
End InputsSample.
