(* ===== verification/Delivery.v ===== *)
(** user_platform/task_service.py and message_status_machine.py, the delivery of a user
    message to the runtime of its task: the row of the message with its status machine,
    the claim that makes one of many concurrent requests the sender, the push to the node
    and the marks it leaves; and the requests that take part, interleaved at their
    database statements and calls.

    A request is a tree of operations.  Each statement of the database is one operation,
    carried out at once; between two operations of a request anything else may happen.
    The lock of a process around a send only removes interleavings.  Starting the runtime
    of a task and the answers of the node are inputs; the text of a message and the
    record of a key are kept elsewhere. *)
From S2P Require Import Prelude Json Text Messages.

(** ** The status machine *)

Inductive message_status := Pending | Dispatching | Received | Running | Completed | Failed | Cancelled.
#[export] Instance message_status_eq : EqDecision message_status.
Proof. solve_decision. Defined.
Definition MESSAGE_STATUS_TRANSITIONS (s : message_status) : list message_status :=
  match s with
  | Pending => [Dispatching; Failed; Cancelled]
  | Dispatching => [Received; Failed]
  | Received => [Running; Completed; Failed; Cancelled]
  | Running => [Completed; Failed; Cancelled]
  | Failed => [Pending; Completed]
  | Cancelled => [Pending]
  | Completed => []
  end.
Definition status_name (s : message_status) : string :=
  match s with
  | Pending => "pending" | Dispatching => "dispatching" | Received => "received" | Running => "running"
  | Completed => "completed" | Failed => "failed" | Cancelled => "cancelled"
  end.
Definition from_states (to : message_status) : list message_status :=
  filter (fun s => to ∈ MESSAGE_STATUS_TRANSITIONS s) [Pending; Dispatching; Received; Running; Failed; Cancelled].

(** ** What is stored *)

Record event_row := EventRow {
  delivery_status : message_status; delivery_attempt : Z; received_at : option Z; started_at : option Z; completed_at : option Z;
  failure_reason : option string }.
Record task_row := TaskRow { t_title : option string; t_status : string; t_session : option string }.
Record transition := Transition { h_field : string; h_from : string; h_to : string; h_reason : option string; h_attempt : option Z }.

(** What the node, and a dispatch of the runtime, may answer. *)
Inductive code := UNAVAILABLE | NOT_FOUND | OTHER_CODE.
Inductive send_outcome := Accepted | NodeServerUnavailable (text : string) | RPCError (c : code) (text : string).
Inductive dispatch_outcome := Session (id : string) (redispatched : bool) | DispatchRefused (reason : string) | DispatchRPCError (c : code) (text : string).
Record input_sent := InputSent { in_session : string; in_text : string; in_attempt : Z; in_outcome : send_outcome }.
Record shared := Shared { ev : option event_row; task : task_row; now : Z; history : list transition; sent : list input_sent }.

(** ** Programs *)

Inductive operation :=
| InsertEvent (r : event_row)
| SelectEvent
| UpdateEvent (guard : event_row -> bool) (set : event_row -> event_row)
| UpdateTask (guard : task_row -> bool) (set : task_row -> task_row)
| UtcNow
| History (h : transition)
| DispatchRuntime
| KeyRow
| SendInput (session text : string) (attempt : Z).
Definition answer (o : operation) : Type :=
  match o with
  | InsertEvent _ | UpdateEvent _ _ | UpdateTask _ _ | KeyRow => bool
  | SelectEvent => option event_row
  | UtcNow => Z
  | History _ => unit
  | DispatchRuntime => dispatch_outcome
  | SendInput _ _ _ => send_outcome
  end.
Inductive error := ValueError (reason : string) | OtherError (name : string).
Inductive program (A : Type) :=
| Return (a : A)
| Raise (e : error)
| Call (o : operation) (k : answer o -> program A).
Arguments Return {A} a.
Arguments Raise {A} e.
Arguments Call {A} o k.

#[export] Instance program_ret : MRet program := fun A => Return.
#[export] Instance program_bind : MBind program := fun A B f =>
  fix bind p :=
    match p with
    | Return a => f a
    | Raise e => Raise e
    | Call o k => Call o (fun r => bind (k r))
    end.
Definition call (o : operation) : program (answer o) := Call o Return.
(** [try: p except ValueError: h] *)
Fixpoint rescue {A} (p : program A) (h : string -> program A) : program A :=
  match p with
  | Return a => Return a
  | Raise (ValueError s) => h s
  | Raise e => Raise e
  | Call o k => Call o (fun r => rescue (k r) h)
  end.
(** [try: p except Exception: log] *)
Fixpoint swallow {A} (p : program A) (a : A) : program A :=
  match p with
  | Return a => Return a
  | Raise _ => Return a
  | Call o k => Call o (fun r => swallow (k r) a)
  end.

(** What the outside answers to the next operation, and whether a best-effort record of
    the history is written. *)
Record outside := Outside { ch_dispatch : dispatch_outcome; ch_task : task_row -> task_row; ch_key : bool; ch_send : send_outcome; ch_history : bool }.
Definition set_ev (e : option event_row) (w : shared) : shared := Shared e (task w) (now w) (history w) (sent w).
Definition set_task (t : task_row) (w : shared) : shared := Shared (ev w) t (now w) (history w) (sent w).
Definition perform (c : outside) (w : shared) (o : operation) : shared * answer o :=
  match o return shared * answer o with
  | InsertEvent r => match ev w with None => (set_ev (Some r) w, true) | Some _ => (w, false) end
  | SelectEvent => (w, ev w)
  | UpdateEvent guard set =>
      match ev w with Some r => if guard r then (set_ev (Some (set r)) w, true) else (w, false) | None => (w, false) end
  | UpdateTask guard set => if guard (task w) then (set_task (set (task w)) w, true) else (w, false)
  | UtcNow => (w, now w)
  | History h => ((if ch_history c then Shared (ev w) (task w) (now w) (history w ++ [h]) (sent w) else w), tt)
  | DispatchRuntime => (set_task (ch_task c (task w)) w, ch_dispatch c)
  | KeyRow => (w, ch_key c)
  | SendInput session text attempt =>
      (Shared (ev w) (task w) (now w) (history w) (sent w ++ [InputSent session text attempt (ch_send c)]), ch_send c)
  end.

(** ** Moving a message *)

Definition or_one (z : Z) : Z := if z =? 0 then 1 else z.
Definition status_in (l : list message_status) (r : event_row) : bool := bool_decide (delivery_status r ∈ l).
Definition same_attempt (a : option Z) (r : event_row) : bool :=
  match a with Some z => if z =? 0 then true else delivery_attempt r =? z | None => true end.
Definition moved_to (to : message_status) (now : Z) (reason : option string) (r : event_row) : event_row :=
  EventRow to (delivery_attempt r)
    (match to with Received => Some now | _ => received_at r end)
    (match to with Running => Some now | _ => started_at r end)
    (match to with Completed | Cancelled => Some now | _ => completed_at r end)
    (match reason with Some _ => reason | None => failure_reason r end).
Definition record_delivery (frm : string) (to : message_status) (reason : option string) (attempt : option Z) : program unit :=
  call (History (Transition "delivery_status" frm (status_name to) (reason ≫= fun s => if str_truthy s then Some s else None) attempt)).
Definition _transition_message_status (to : message_status) (attempt : option Z) (reason : option string) : program bool :=
  match from_states to with
  | [] => Return false
  | froms =>
      t ← call UtcNow;
      previous ← call SelectEvent;
      updated ← call (UpdateEvent (fun r => same_attempt attempt r && status_in froms r) (moved_to to t reason));
      if updated : bool
      then record_delivery (match previous with Some r => status_name (delivery_status r) | None => "" end) to reason
             (match attempt with Some z => if z =? 0 then None else attempt | None => None end);; Return true
      else Return false
  end.
Definition mark_failed (attempt : Z) (reason : string) : program bool := _transition_message_status Failed (Some attempt) (Some reason).

Definition new_row : event_row := EventRow Pending 1 None None None None.
(** The unique key of the row makes concurrent first sends one row. *)
Definition _persist_user_input_item (content : string) : program event_row :=
  if str_truthy (strip content) then
    inserted ← call (InsertEvent new_row);
    if inserted : bool then Return new_row
    else existing ← call SelectEvent; match existing with Some r => Return r | None => Raise (OtherError "IntegrityError") end
  else Raise (ValueError "content_required").

(** ** Claiming a message *)

Definition _DISPATCHING_STALE_SECONDS : Z := 120.
Definition requeued (attempt : Z) (r : event_row) : event_row := EventRow Pending attempt (received_at r) (started_at r) (completed_at r) None.
Definition claimed (t : Z) (r : event_row) : event_row :=
  EventRow Dispatching (delivery_attempt r) (received_at r) (Some t) (completed_at r) (failure_reason r).
Definition restarted (t : Z) (r : event_row) : event_row :=
  EventRow (delivery_status r) (delivery_attempt r) (received_at r) (Some t) (completed_at r) (failure_reason r).
Definition stale (before : Z) (r : event_row) : bool := match started_at r with Some t => t <? before | None => false end.
Definition claim_pending : program bool :=
  t ← call UtcNow; call (UpdateEvent (status_in [Pending]) (claimed t)).
Definition fresh_state (fresh : option event_row) (status : message_status) (attempt : Z) : message_status * Z :=
  match fresh with Some r => (delivery_status r, or_one (if delivery_attempt r =? 0 then attempt else delivery_attempt r)) | None => (status, or_one attempt) end.
(** An explicit retry: a failed or cancelled message is put back with a new attempt. *)
Definition requeue (row : event_row) : program (message_status * Z) :=
  let attempt := or_one (delivery_attempt row) in
  if status_in [Failed; Cancelled] row then
    updated ← call (UpdateEvent (status_in [Failed; Cancelled]) (requeued (attempt + 1)));
    if updated : bool
    then record_delivery (status_name (delivery_status row)) Pending (Some "explicit retry") (Some (attempt + 1));; Return (Pending, attempt + 1)
    else Return (delivery_status row, attempt)
  else Return (delivery_status row, attempt).
(** Only one request moves the row from pending to dispatching. *)
Definition claim_if_pending (status : message_status) (attempt : Z) : program (bool * message_status * Z) :=
  match status with
  | Pending =>
      won ← claim_pending;
      if won : bool
      then record_delivery "pending" Dispatching (Some "claimed for dispatch") (Some attempt);; Return (true, Pending, attempt)
      else Return (false, status, attempt)
  | _ => Return (false, status, attempt)
  end.
Definition claim_first (row : event_row) : program (bool * message_status * Z) :=
  '(status, attempt) ← requeue row; claim_if_pending status attempt.
(** A claim that was never finished is taken over. *)
Definition claim_stale (fresh : option event_row) (status : message_status) (attempt : Z) : program (message_status * Z) :=
  match status with
  | Dispatching =>
      t ← call UtcNow;
      let before := t - _DISPATCHING_STALE_SECONDS in
      if match fresh with Some r => stale before r | None => false end then
        t' ← call UtcNow;
        again ← call (UpdateEvent (fun r => status_in [Dispatching] r && stale before r) (restarted t'));
        if again : bool then Return (Pending, attempt) else Return (status, attempt)
      else Return (status, attempt)
  | _ => Return (status, attempt)
  end.
(** The claim was not won: the row is read again. *)
Definition claim_second (status : message_status) (attempt : Z) : program (message_status * Z) :=
  fresh ← call SelectEvent;
  let '(status, attempt) := fresh_state fresh status attempt in
  match status with
  | Pending =>
      won ← claim_pending;
      if won : bool then Return (Pending, attempt)
      else fresh ← call SelectEvent;
           let '(status, attempt) := fresh_state fresh status attempt in claim_stale fresh status attempt
  | _ => claim_stale fresh status attempt
  end.
Definition _claim_message_for_dispatch (row : event_row) : program (message_status * Z) :=
  '(won, status, attempt) ← claim_first row;
  if won : bool then Return (Pending, attempt) else claim_second status attempt.

(** ** The text of a message *)

(** [s.split()] *)
Definition next_word (c : ascii) (ws : string * list string) : string * list string :=
  let '(w, l) := ws in
  if py_space c then ("", if str_truthy w then w :: l else l) else (String c w, l).
Fixpoint span_words (s : string) : string * list string :=
  match s with EmptyString => ("", []) | String c s' => next_word c (span_words s') end.
Definition words (s : string) : list string := let '(w, l) := span_words s in if str_truthy w then w :: l else l.
Definition _TASK_TITLE_MAX_LEN : nat := 40.
Definition _derive_task_title (content : string) : string :=
  let text := join " " (words content) in
  if startswith "/" text then "" else unchars (take _TASK_TITLE_MAX_LEN (chars_of text)).

Fixpoint map_chars (f : ascii -> ascii) (s : string) : string :=
  match s with EmptyString => "" | String c s' => String (f c) (map_chars f s') end.
Fixpoint lstrip_char (c : ascii) (s : string) : string :=
  match s with String a s' => if decide (a = c) then lstrip_char c s' else s | EmptyString => s end.
(** The path of an attachment inside the workspace of the task. *)
Definition workspace_path (py_str : json -> string) (item : json) : option string :=
  match item with
  | JObj d =>
      let url := strip (get_text py_str d "url") in
      if startswith "workspace://" url then
        let rel := lstrip_char "/" (map_chars (fun c => if decide (c = BS) then "/"%char else c) (str_drop 12 url)) in
        if negb (str_truthy rel) || bool_decide (".." ∈ split_on "/" rel) then None else Some rel
      else None
  | _ => None
  end.
Definition NL : string := String "010" "".
Definition message_content (py_str : json -> string) (content : string) (attachments : list json) : string :=
  let content := strip content in
  match omap (workspace_path py_str) attachments with
  | [] => content
  | paths => strip (content +++ NL +++ NL +++ "[Attachments in task workspace]" +++ NL +++ join NL ((fun p => "- " +++ p) <$> paths))
  end.

(** ** Pushing a message to the node *)

(** The task as the request loaded it. *)
Record task_view := TaskView { v_title : string; v_status : string; v_has_key : bool }.

Definition NODE_UNAVAILABLE : error := ValueError "node_server_unavailable".
(** The failure is recorded, then the request ends. *)
Definition fail_with {A} (attempt : Z) (reason : string) (e : error) : program A := mark_failed attempt reason;; Raise e.
(** The row of the key, looked up once more after a reload. *)
Definition find_key : program bool :=
  found ← call KeyRow; if found : bool then Return true else call KeyRow.
(** The session that took the message, and the status of the task the request knows. *)
Definition push (status session text : string) (attempt : Z) : program string :=
  outcome ← call (SendInput session text attempt);
  match outcome with
  | Accepted => Return status
  | NodeServerUnavailable why | RPCError UNAVAILABLE why => fail_with attempt why NODE_UNAVAILABLE
  | RPCError OTHER_CODE why => fail_with attempt why (OtherError "RPCError")
  | RPCError NOT_FOUND _ =>
      call (UpdateTask (fun t => bool_decide (t_session t = Some session)) (fun t => TaskRow (t_title t) (t_status t) None));;
      placed ← call DispatchRuntime;
      match placed with
      | DispatchRefused why => Raise (ValueError why)
      | DispatchRPCError UNAVAILABLE why | DispatchRPCError NOT_FOUND why => fail_with attempt why NODE_UNAVAILABLE
      | DispatchRPCError OTHER_CODE why => fail_with attempt why (ValueError "runtime_not_bound")
      | Session session' redispatched =>
          outcome ← call (SendInput session' text attempt);
          match outcome with
          | Accepted => Return (if redispatched : bool then "pending" else status)
          | NodeServerUnavailable why | RPCError UNAVAILABLE why | RPCError NOT_FOUND why => fail_with attempt why NODE_UNAVAILABLE
          | RPCError OTHER_CODE why => fail_with attempt why (ValueError "runtime_not_bound")
          end
      end
  end.
(** An empty title is filled in, null or blank, first writer wins. *)
Definition backfill_title (view : task_view) (title : string) : program unit :=
  if str_truthy title && negb (str_truthy (strip (v_title view))) then
    filled ← call (UpdateTask (fun t => bool_decide (t_title t = None)) (fun t => TaskRow (Some title) (t_status t) (t_session t)));
    if filled : bool then Return tt
    else call (UpdateTask (fun t => bool_decide (t_title t = Some "")) (fun t => TaskRow (Some title) (t_status t) (t_session t)));; Return tt
  else Return tt.
Definition mark_processing (status : string) : program unit :=
  if String.eqb status "processing" then Return tt
  else call (UpdateTask (fun _ => true) (fun t => TaskRow (t_title t) "processing" (t_session t)));;
       call (History (Transition "status" status "processing" (Some "turn delivered") None)).
(** A task without a key reads a variable that was never set. *)
Definition _deliver_turn (view : task_view) (session content : string) (attempt : Z) (title : string) : program unit :=
  if v_has_key view then
    found ← find_key;
    if found : bool then
      status ← push (v_status view) session content attempt;
      backfill_title view title;; mark_processing status
    else Raise (ValueError "task_api_key_unavailable")
  else Raise (OtherError "UnboundLocalError").

(** ** The requests *)

(** A session for the message; a runtime that was started anew left the task pending. *)
Definition _ensure_task_runtime_for_send (view : task_view) : program (string * task_view) :=
  placed ← call DispatchRuntime;
  match placed with
  | Session id redispatched =>
      Return (id, if redispatched : bool then TaskView (v_title view) "pending" (v_has_key view) else view)
  | DispatchRefused why => Raise (ValueError why)
  | DispatchRPCError _ _ => Raise (OtherError "RPCError")
  end.
Definition settled : list message_status := [Received; Running; Completed; Dispatching].
Definition send_task_message (py_str : json -> string) (view : task_view) (content : string) (attachments : list json) : program (message_status * Z) :=
  let title := _derive_task_title content in
  let content := message_content py_str content attachments in
  if str_truthy content then
    row ← _persist_user_input_item content;
    '(claim, attempt) ← _claim_message_for_dispatch row;
    if bool_decide (claim ∈ settled) then Return (claim, attempt)
    else
      '(session, view) ← rescue (_ensure_task_runtime_for_send view) (fun why => fail_with attempt "runtime_unavailable" (ValueError why));
      rescue (_deliver_turn view session content attempt title) (fun why => fail_with attempt "deliver_precondition_failed" (ValueError why));;
      Return (Dispatching, attempt)
  else Raise (ValueError "content_required").
(** The first turn of a task that was just created, after its session is up; whether it
    was pushed. *)
Definition push_first_turn (view : task_view) (session content : string) : program bool :=
  let content := strip content in
  if str_truthy content then
    swallow (row ← _persist_user_input_item content;
             '(claim, attempt) ← _claim_message_for_dispatch row;
             match claim with
             | Pending => _deliver_turn view session content attempt (_derive_task_title content);; Return true
             | _ => Return (bool_decide (claim ∈ [Received; Running; Completed]))
             end) false
  else Return false.
(** The recovery worker, for a task whose runtime is up. *)
Definition _deliver_pending_first_turn (view : task_view) (session content : string) : program unit :=
  let content := strip content in
  let session := strip session in
  if str_truthy content then
    swallow (row ← call SelectEvent;
             match row with
             | Some row =>
                 if status_in [Pending] row && str_truthy session then
                   '(claim, attempt) ← _claim_message_for_dispatch row;
                   match claim with
                   | Pending => _deliver_turn view session content attempt (_derive_task_title content)
                   | _ => Return tt
                   end
                 else Return tt
             | None => Return tt
             end) tt
  else Return tt.
Definition cancelled (r : event_row) : event_row :=
  EventRow Cancelled (delivery_attempt r) (received_at r) (started_at r) (completed_at r) (Some "dispatch_failed").
Definition _cancel_pending_first_turn : program unit := call (UpdateEvent (status_in [Pending]) cancelled);; Return tt.

(** ** Requests side by side *)

Inductive claimant :=
| Send (py_str : json -> string) (view : task_view) (content : string) (attachments : list json)
| FirstTurn (view : task_view) (session content : string)
| Recover (view : task_view) (session content : string)
| CancelFirst.
Definition handle (r : claimant) : program (option (message_status * Z)) :=
  match r with
  | Send py_str view content attachments => r ← send_task_message py_str view content attachments; Return (Some r)
  | FirstTurn view session content => push_first_turn view session content;; Return None
  | Recover view session content => _deliver_pending_first_turn view session content;; Return None
  | CancelFirst => _cancel_pending_first_turn;; Return None
  end.

(** The statuses a node reports for a message. *)
Definition ack (to : message_status) (attempt : option Z) (t : Z) (reason : option string) (w : shared) : shared :=
  match ev w with
  | Some r => if same_attempt attempt r && status_in (from_states to) r then set_ev (Some (moved_to to t reason r)) w else w
  | None => w
  end.
Definition reported : list message_status := [Received; Running; Completed; Failed; Cancelled].
Record system := System { sys : shared; running : list (program (option (message_status * Z))) }.
Inductive step : system -> system -> Prop :=
| step_arrive w ps r : step (System w ps) (System w (ps ++ [handle r]))
| step_call w l1 l2 c o k : step (System w (l1 ++ Call o k :: l2))
    (System (perform c w o).1 (l1 ++ k (perform c w o).2 :: l2))
| step_crash w l1 l2 p : step (System w (l1 ++ p :: l2)) (System w (l1 ++ l2))
| step_ack w ps to attempt reason : to ∈ reported -> step (System w ps) (System (ack to attempt (now w) reason w) ps)
| step_time w ps t : now w <= t -> step (System w ps) (System (Shared (ev w) (task w) t (history w) (sent w)) ps).

(** ** Schedules, to run a system *)

Inductive happening := Arrive (r : claimant) | Go (i : nat) (c : outside) | Ack (to : message_status) (attempt : option Z) (reason : option string) | Later (t : Z).
Definition advance (s : system) (e : happening) : system :=
  match e with
  | Arrive r => System (sys s) (running s ++ [handle r])
  | Go i c => match running s !! i with
              | Some (Call o k) => System (perform c (sys s) o).1 (<[i := k (perform c (sys s) o).2]> (running s))
              | _ => s
              end
  | Ack to attempt reason => System (ack to attempt (now (sys s)) reason (sys s)) (running s)
  | Later t => System (Shared (ev (sys s)) (task (sys s)) (Z.max t (now (sys s))) (history (sys s)) (sent (sys s))) (running s)
  end.
Definition play (s : system) (es : list happening) : system := foldl advance s es.

(** One request to its end, nothing else happening. *)
Fixpoint alone {A} (c : outside) (w : shared) (p : program A) : shared * (A + error) :=
  match p with
  | Return a => (w, inl a)
  | Raise e => (w, inr e)
  | Call o k => let '(w', r) := perform c w o in alone c w' (k r)
  end.

Definition calm_choice : outside := Outside (Session "s" false) (fun t => t) true Accepted true.
Definition start_shared (e : option event_row) : shared := Shared e (TaskRow None "pending" (Some "s")) 1000 [] [].
Definition started_with (e : option event_row) : system := System (start_shared e) [].
Definition hello : claimant := Send (fun _ => "") (TaskView "" "pending" true) " hi " [].
Example send_ex : (alone calm_choice (start_shared None) (handle hello)).2 = inl (Some (Dispatching, 1)).
Proof. by vm_compute. Qed.
