(* ===== verification/DeliveryProps.v ===== *)
(** The delivery of messages, requests interleaved at their operations: a message moves
    along its table whatever fails, one request delivers it while nothing fails, what a
    request that is alone does; and the interleavings in which the claim does not hold. *)
From S2P Require Import Prelude Json Text Messages Delivery.

(** ** What every operation of a program respects *)

Section respects.
Context (P : event_row -> event_row -> Prop).
Definition operation_ok (o : operation) : Prop :=
  match o with UpdateEvent guard set => forall r, guard r = true -> P r (set r) | InsertEvent r => r = new_row | _ => True end.
Fixpoint respects {A} (p : program A) : Prop :=
  match p with Call o k => operation_ok o /\ forall r, respects (k r) | _ => True end.
Lemma respects_bind {A B} (p : program A) (f : A -> program B) : respects p -> (forall a, respects (f a)) -> respects (p ≫= f).
Proof. intros Hp Hf. induction p as [a|e|o k IH]; [apply Hf|done|]. destruct Hp as [Ho Hk]. split; [done|]. intros r. by apply IH. Qed.
Lemma respects_call o : operation_ok o -> respects (call o).
Proof. by split. Qed.
Lemma respects_rescue {A} (p : program A) h : respects p -> (forall why, respects (h why)) -> respects (rescue p h).
Proof. intros Hp Hh. induction p as [a|[]|o k IH]; try done; [apply Hh|]. destruct Hp as [Ho Hk]. split; [done|]. intros r. by apply IH. Qed.
Lemma respects_swallow {A} (p : program A) a : respects p -> respects (swallow p a).
Proof. intros Hp. induction p as [?|?|o k IH]; [done|done|]. destruct Hp as [Ho Hk]. split; [done|]. intros r. by apply IH. Qed.
End respects.
(** Follows a program, leaving the updates of the row. *)
Ltac follow :=
  repeat first
    [ progress intros
    | match goal with
      | |- respects _ (_ ≫= _) => apply respects_bind
      | |- respects _ (call _) => apply respects_call
      | |- respects _ (rescue _ _) => apply respects_rescue
      | |- respects _ (swallow _ _) => apply respects_swallow
      | |- operation_ok _ _ => cbn [operation_ok]
      | |- True => exact I
      | |- respects _ (Return _) => exact I
      | |- respects _ (Raise _) => exact I
      | |- respects _ (let '(_, _) := ?x in _) => destruct x
      | |- respects _ (match ?x with _ => _ end) => destruct x
      end ].

(** ** The table *)

(** A row moves along the table, keeping its attempt unless it is put back; or its claim
    is renewed. *)
Definition moves_to (r r' : event_row) : Prop :=
  (delivery_status r' ∈ MESSAGE_STATUS_TRANSITIONS (delivery_status r) /\ (delivery_status r' = Pending \/ delivery_attempt r' = delivery_attempt r)) \/
  (delivery_status r = Dispatching /\ delivery_status r' = Dispatching /\ delivery_attempt r' = delivery_attempt r).
Lemma from_states_spec to s : s ∈ from_states to <-> to ∈ MESSAGE_STATUS_TRANSITIONS s.
Proof.
  unfold from_states. rewrite list_elem_of_filter. split; [by intros [? _]|]. intros H. split; [done|].
  destruct s; rewrite ?elem_of_cons; try tauto. by apply not_elem_of_nil in H.
Qed.
Lemma status_in_spec l r : status_in l r = true <-> delivery_status r ∈ l.
Proof. apply bool_decide_eq_true. Qed.
Lemma moved_moves to t reason r : delivery_status r ∈ from_states to -> moves_to r (moved_to to t reason r).
Proof. intros H%from_states_spec. left. split; [done|by right]. Qed.
Lemma in_pending r : status_in [Pending] r = true -> delivery_status r = Pending.
Proof. by intros ?%status_in_spec%list_elem_of_singleton. Qed.
Lemma transition_respects to a reason : respects moves_to (_transition_message_status to a reason).
Proof.
  unfold _transition_message_status. destruct (from_states to) eqn:E; [done|]. unfold record_delivery. follow; try done.
  match goal with H : _ && _ = true |- _ => apply andb_true_iff in H as [_ H%status_in_spec] end. apply moved_moves. by rewrite E.
Qed.
Lemma ensure_respects content : respects moves_to (_persist_user_input_item content).
Proof. unfold _persist_user_input_item. by follow. Qed.
Lemma claim_pending_respects : respects moves_to claim_pending.
Proof.
  unfold claim_pending. follow.
  match goal with H : status_in _ _ = true |- _ => apply in_pending in H as E end. left. split; [rewrite E; by left|by right].
Qed.
Lemma claim_stale_respects fresh s a : respects moves_to (claim_stale fresh s a).
Proof.
  unfold claim_stale. follow; try done.
  match goal with H : _ && _ = true |- _ => apply andb_true_iff in H as [H%status_in_spec%list_elem_of_singleton _] end. by right.
Qed.
Lemma claim_first_respects row : respects moves_to (claim_first row).
Proof.
  unfold claim_first, requeue, claim_if_pending, record_delivery. follow; try done; try apply claim_pending_respects.
  match goal with H : status_in _ _ = true |- _ => apply status_in_spec in H end. left. split; [|by left].
  match goal with H : _ ∈ _ |- _ => rewrite !elem_of_cons, elem_of_nil in H; destruct H as [->|[->|[]]] end; by left.
Qed.
Lemma claim_respects row : respects moves_to (_claim_message_for_dispatch row).
Proof. unfold _claim_message_for_dispatch, claim_second. follow; try done; auto using claim_first_respects, claim_pending_respects, claim_stale_respects. Qed.
Lemma deliver_respects view session content attempt title : respects moves_to (_deliver_turn view session content attempt title).
Proof.
  unfold _deliver_turn, find_key, push, fail_with, mark_failed, backfill_title, mark_processing.
  follow; try done; apply transition_respects.
Qed.
Lemma handle_respects r : respects moves_to (handle r).
Proof.
  destruct r; cbn [handle].
  - unfold send_task_message, fail_with, mark_failed, _ensure_task_runtime_for_send.
    follow; try done; auto using ensure_respects, claim_respects, deliver_respects, transition_respects.
  - unfold push_first_turn. follow; try done; auto using ensure_respects, claim_respects, deliver_respects.
  - unfold _deliver_pending_first_turn. follow; try done; auto using claim_respects, deliver_respects.
  - unfold _cancel_pending_first_turn. follow; try done.
    match goal with H : status_in _ _ = true |- _ => apply in_pending in H as E end. left. split; [rewrite E; simpl; set_solver|by right].
Qed.

Definition ev_moves (e e' : option event_row) : Prop :=
  match e with
  | Some r => exists r', e' = Some r' /\ rtc moves_to r r'
  | None => e' = None \/ exists r', e' = Some r' /\ rtc moves_to new_row r'
  end.
#[export] Instance ev_moves_preorder : PreOrder ev_moves.
Proof.
  split.
  - intros [r|]; [by exists r|by left].
  - intros [r|] e2 e3; cbn [ev_moves].
    + intros (r2 & -> & H2) (r3 & -> & H3). exists r3. split; [done|]. by etrans.
    + intros [->|(r2 & -> & H2)]; [done|]. intros (r3 & -> & H3). right. exists r3. split; [done|]. by etrans.
Qed.
Lemma ack_moves to attempt t reason w : ev_moves (ev w) (ev (ack to attempt t reason w)).
Proof.
  unfold ack. destruct (ev w) as [r|] eqn:E; [|by rewrite E]. destruct (_ && _) eqn:Eg; [|by rewrite E].
  apply andb_true_iff in Eg as [_ Eg%status_in_spec]. exists (moved_to to t reason r). split; [done|]. apply rtc_once. by apply moved_moves.
Qed.
Lemma perform_moves c w o : operation_ok moves_to o -> ev_moves (ev w) (ev (perform c w o).1).
Proof.
  destruct o as [r| |g f|g f| |h| | |]; cbn [perform operation_ok]; intros Ho; try reflexivity.
  - subst r. destruct (ev w) as [r'|] eqn:E; cbn [fst]; [by rewrite E|]. right. by exists new_row.
  - destruct (ev w) as [r|] eqn:E; cbn [fst]; [|by rewrite E]. destruct (g r) eqn:Eg; cbn [fst]; [|by rewrite E].
    exists (f r). split; [done|]. by apply rtc_once, Ho.
  - by destruct (g (task w)).
  - by destruct (ch_history c).
Qed.
Lemma step_moves s s' : step s s' -> Forall (respects moves_to) (running s) ->
  Forall (respects moves_to) (running s') /\ ev_moves (ev (sys s)) (ev (sys s')).
Proof.
  intros [w ps r|w l1 l2 c o k|w l1 l2 p|w ps to a reason _|w ps t _]; simpl; intros Hf.
  - split; [|done]. apply Forall_app. split; [done|]. apply Forall_singleton, handle_respects.
  - apply Forall_app in Hf as [H1 [[Ho Hk] H2]%Forall_cons]. split; [|by apply perform_moves]. apply Forall_app. split; [done|]. by apply Forall_cons.
  - apply Forall_app in Hf as [H1 [_ H2]%Forall_cons]. split; [|done]. by apply Forall_app.
  - split; [done|]. apply ack_moves.
  - by split.
Qed.
Lemma steps_move s s' : rtc step s s' -> Forall (respects moves_to) (running s) ->
  Forall (respects moves_to) (running s') /\ ev_moves (ev (sys s)) (ev (sys s')).
Proof.
  induction 1 as [s|s1 s2 s3 Hs _ IH]; intros Hf; [by split|]. destruct (step_moves _ _ Hs Hf) as [Hf2 H2].
  destruct (IH Hf2) as [Hf3 H3]. split; [done|]. by etrans.
Qed.
Lemma completed_final r r' : delivery_status r = Completed -> rtc moves_to r r' -> r' = r.
Proof.
  intros Hr [->|(r2 & H & _)]%rtc_inv; [done|]. destruct H as [[H _]|[H _]]; rewrite Hr in H; [by apply not_elem_of_nil in H|done].
Qed.

(** C28: whatever requests, reports of the node, failures, crashes and pauses of a message
    are mixed, its row only moves along the table: a new one starts pending, the attempt
    changes only when a failed or cancelled message is put back, and a completed message
    never changes again. *)
Theorem delivery_follows_table (s s' : system) (Hs : running s = []) (Hrun : rtc step s s') :
  ev_moves (ev (sys s)) (ev (sys s')) /\
  (forall r, ev (sys s) = Some r -> delivery_status r = Completed -> ev (sys s') = Some r).
Proof.
  assert (Hm : ev_moves (ev (sys s)) (ev (sys s'))) by (apply steps_move; [done|by rewrite Hs]).
  split; [done|]. intros r Hr Hc. rewrite Hr in Hm. destruct Hm as (r' & -> & H). by rewrite (completed_final r r').
Qed.

(** ** One sender *)

(** Nothing has failed, and no claim is old. *)
Definition failing (s : message_status) : bool := bool_decide (s ∈ [Failed; Cancelled]).
(** The node may have taken the message. *)
Definition delivered (i : input_sent) : bool := match in_outcome i with RPCError NOT_FOUND _ => false | _ => true end.

Section calm.
Context (T0 a0 : Z) (Ha0 : 1 <= a0).
Definition calm_row (r : event_row) : Prop :=
  failing (delivery_status r) = false /\ delivery_attempt r = a0 /\
  (delivery_status r = Dispatching -> exists t, started_at r = Some t /\ T0 <= t).
Definition calm_ev (e : option event_row) : Prop := match e with Some r => calm_row r | None => a0 = 1 end.

(** What a request may rely on: 1, the row exists; 2, it was claimed; 3, by this request,
    which has not delivered it. *)
Definition known (k : nat) (e : option event_row) : Prop :=
  match k with O => True | 1%nat => e <> None | _ => exists r, e = Some r /\ delivery_status r <> Pending end.
Definition learn (k : nat) (e : option event_row) : nat :=
  match e with Some r => Nat.max k (if decide (delivery_status r = Pending) then 1 else 2) | None => k end.
Definition safe_op (k : nat) (o : operation) : (nat -> answer o -> Prop) -> Prop :=
  match o return (nat -> answer o -> Prop) -> Prop with
  | InsertEvent r => fun K => r = new_row /\ forall b : bool, (b = true -> a0 = 1) -> K (Nat.max k 1) b
  | SelectEvent => fun K => forall e, calm_ev e -> known k e -> K (learn k e) e
  | UpdateEvent g f => fun K =>
      (forall r, calm_row r -> known k (Some r) -> g r = true -> failing (delivery_status (f r)) = false ->
         calm_row (f r) /\ delivery_status (f r) <> Pending /\
         (if decide (delivery_status r = Pending) then K 3%nat true else K (Nat.max k 2) true)) /\
      (forall e, calm_ev e -> known k e -> (forall r, e = Some r -> g r = false) -> K (learn k e) false)
  | UpdateTask _ _ | KeyRow => fun K => forall b, K k b
  | UtcNow => fun K => forall t, T0 <= t <= T0 + _DISPATCHING_STALE_SECONDS -> K k t
  | History _ => fun K => K k tt
  | DispatchRuntime => fun K => forall d, K k d
  | SendInput _ _ a => fun K => k = 3%nat /\ a = a0 /\ forall o, K (match o with RPCError NOT_FOUND _ => 3%nat | _ => 2%nat end) o
  end.
Fixpoint safe {A} (Q : nat -> A -> Prop) (E : nat -> error -> Prop) (k : nat) (p : program A) : Prop :=
  match p with
  | Return a => Q k a
  | Raise e => E k e
  | Call o f => safe_op k o (fun k' r => safe Q E k' (f r))
  end.
Lemma safe_op_mono k o (K K' : nat -> answer o -> Prop) : (forall k' r, K k' r -> K' k' r) -> safe_op k o K -> safe_op k o K'.
Proof.
  intros H. destruct o as [r| |g f|g f| |h| | |]; cbn [safe_op]; auto.
  - intros [-> Hk]. split; auto.
  - intros [H1 H2]. split; [|auto]. intros r Hr Hk Hg Hf. destruct (H1 r Hr Hk Hg Hf) as (? & ? & Hd).
    split; [done|split; [done|]]. destruct (decide _); auto.
  - intros (-> & -> & Hk). auto.
Qed.
Lemma safe_bind {A B} Q Q' E k (p : program A) (f : A -> program B) :
  safe Q' E k p -> (forall k' a, Q' k' a -> safe Q E k' (f a)) -> safe Q E k (p ≫= f).
Proof.
  intros Hp Hf. revert k Hp. induction p as [a|e|o g IH]; intros k Hp; [by apply Hf|done|].
  cbn [mbind program_bind safe] in *. eapply safe_op_mono, Hp. intros k' r. apply IH.
Qed.
Lemma safe_rescue {A} (Q : nat -> A -> Prop) E E' k p h :
  safe Q E' k p -> (forall k' e, E' k' e -> match e with ValueError why => safe Q E k' (h why) | OtherError _ => E k' e end) -> safe Q E k (rescue p h).
Proof.
  intros Hp Hh. revert k Hp. induction p as [a|e|o g IH]; intros k Hp; [done|by specialize (Hh k e Hp); destruct e|].
  cbn [rescue safe] in *. eapply safe_op_mono, Hp. intros k' r. apply IH.
Qed.
Lemma safe_swallow {A} (Q : nat -> A -> Prop) E E' k p a : safe Q E' k p -> (forall k', Q k' a) -> safe Q E k (swallow p a).
Proof.
  intros Hp Ha. revert k Hp. induction p as [x|e|o g IH]; intros k Hp; [done|apply Ha|].
  cbn [swallow safe] in *. eapply safe_op_mono, Hp. intros k' r. apply IH.
Qed.
Definition any {A} (k : nat) (a : A) : Prop := True.
(** *** The claim *)
Lemma or_one_a0 : or_one a0 = a0.
Proof. unfold or_one. by destruct (Z.eqb_spec a0 0); [lia|]. Qed.
Lemma not_stale t r : t <= T0 + _DISPATCHING_STALE_SECONDS -> calm_row r -> delivery_status r = Dispatching -> stale (t - _DISPATCHING_STALE_SECONDS) r = false.
Proof. intros Ht (_ & _ & H) Hd. destruct (H Hd) as (t' & Hs & Ht'). unfold stale. rewrite Hs. apply Z.ltb_ge. lia. Qed.
Definition claim_post (k : nat) (x : message_status * Z) : Prop := x.2 = a0 /\ (x.1 = Pending -> k = 3%nat) /\ failing x.1 = false.
Lemma known_row k e : (1 <= k)%nat -> known k e -> exists r, e = Some r.
Proof. intros Hk H. destruct e as [r|]; [by exists r|]. destruct k as [|[|k]]; [lia|done|by destruct H as (? & ? & _)]. Qed.
Lemma known_taken k r : (2 <= k)%nat -> known k (Some r) -> delivery_status r <> Pending.
Proof. intros Hk H. destruct k as [|[|k]]; [lia|lia|]. by destruct H as (? & [= <-] & ?). Qed.
Lemma fresh_calm r s a : calm_row r -> fresh_state (Some r) s a = (delivery_status r, a0).
Proof. intros (_ & Ha & _). unfold fresh_state. rewrite Ha. destruct (Z.eqb_spec a0 0); [lia|]. by rewrite or_one_a0. Qed.
Lemma claim_pending_safe E k : (1 <= k)%nat -> safe (fun k' b => if b : bool then k' = 3%nat else (2 <= k')%nat) E k claim_pending.
Proof.
  intros Hk. unfold claim_pending. cbn [mbind program_bind call safe safe_op]. intros t Ht. split.
  - intros r (Hf & Ha & Hd) Hkn Hg Hfr. apply in_pending in Hg. split; [|split; [done|]].
    + split; [done|split; [done|]]. intros _. exists t. split; [done|lia].
    + by rewrite decide_True by done.
  - intros e He Hkn Hg. destruct (known_row k e Hk Hkn) as [r ->]. cbn [learn].
    assert (Hp : delivery_status r <> Pending) by (intros Hp; specialize (Hg r eq_refl); unfold status_in in Hg; by rewrite Hp in Hg).
    rewrite decide_False by done. lia.
Qed.
Lemma claim_stale_safe E k fresh s : (forall r, fresh = Some r -> calm_row r /\ delivery_status r = s) ->
  failing s = false -> s <> Pending -> safe claim_post E k (claim_stale fresh s a0).
Proof.
  intros Hfresh Hf Hp. assert (Hend : claim_post k (s, a0)) by by split.
  destruct s; cbn [claim_stale]; try done. cbn [mbind program_bind call safe safe_op]. intros t Ht.
  destruct fresh as [r|]; [|done]. destruct (Hfresh r eq_refl) as [Hr Hd]. rewrite (not_stale t r) by (done || lia). done.
Qed.
Lemma claim_first_safe E k row : (1 <= k)%nat -> calm_row row ->
  safe (fun k' '(won, _, a) => a = a0 /\ (1 <= k')%nat /\ (won = true -> k' = 3%nat)) E k (claim_first row).
Proof.
  intros Hk Hr. unfold claim_first, requeue, claim_if_pending. destruct Hr as (Hf & Ha & _). unfold status_in, failing in *. rewrite Ha, or_one_a0, Hf. cbn [mbind program_bind].
  destruct (delivery_status row); try done.
  eapply safe_bind; [by apply claim_pending_safe|]. intros k' [] Hk'; [|simpl; repeat split; try done; lia].
  unfold record_delivery. cbn [mbind program_bind call safe safe_op]. subst k'. repeat split; lia.
Qed.
Lemma claim_safe E k row : (1 <= k)%nat -> calm_row row -> safe claim_post E k (_claim_message_for_dispatch row).
Proof.
  intros Hk Hr. unfold _claim_message_for_dispatch. eapply safe_bind; [by apply claim_first_safe|].
  intros k1 [[won s] a] (-> & Hk1 & Hwon). unfold claim_second. destruct won; [by split; [|split]; try done; auto|].
  cbn [mbind program_bind call safe safe_op]. intros e He Hkn. destruct (known_row k1 e Hk1 Hkn) as [r ->]. rewrite (fresh_calm r) by done.
  assert (Hf : failing (delivery_status r) = false) by apply He.
  destruct (decide (delivery_status r = Pending)) as [Hp|Hp].
  - rewrite Hp. cbn [learn]. rewrite decide_True by done. eapply safe_bind; [apply claim_pending_safe; lia|].
    intros k2 [] Hk2; [by split; [|split]; try done; auto|]. cbn [mbind program_bind call safe safe_op]. intros e2 He2 Hkn2.
    destruct (known_row k2 e2 ltac:(lia) Hkn2) as [r2 ->]. rewrite (fresh_calm r2) by done. apply claim_stale_safe; [by intros ? [= <-]|apply He2|].
    by eapply known_taken.
  - destruct (delivery_status r) eqn:Ed; try done; apply claim_stale_safe; try done; intros ? [= <-]; done.
Qed.

(** *** The push *)
Lemma learn_more k e : (k <= learn k e)%nat.
Proof. destruct e; simpl; lia. Qed.
Lemma mark_failed_safe E k a reason : safe any E k (mark_failed a reason).
Proof.
  unfold mark_failed, _transition_message_status. cbn [from_states]. destruct (from_states Failed); [done|].
  cbn [mbind program_bind call safe safe_op]. intros t _ e _ _. split; [by intros r _ _ _|done].
Qed.
Lemma fail_with_safe {A} E k a reason e : (forall k', E k' e) -> safe (@any A) E k (fail_with a reason e).
Proof. intros He. eapply safe_bind; [apply mark_failed_safe|]. intros k' b _. apply He. Qed.
Lemma push_safe status session text : safe any any 3 (push status session text a0).
Proof.
  unfold push. cbn [mbind program_bind call safe safe_op]. split; [done|split; [done|]].
  intros [|?|[] ?]; try (by apply fail_with_safe); [done|]. cbn [mbind program_bind call safe safe_op].
  intros _ [id re|?|[] ?]; try (by apply fail_with_safe); [|done]. cbn [mbind program_bind call safe safe_op]. split; [done|split; [done|]].
  by intros [|?|[] ?]; try (by apply fail_with_safe).
Qed.
Lemma backfill_safe E k view title : safe any E k (backfill_title view title).
Proof.
  unfold backfill_title. destruct (_ && _); [|done]. cbn [mbind program_bind call safe safe_op]. by intros [].
Qed.
Lemma processing_safe E k status : safe any E k (mark_processing status).
Proof. unfold mark_processing. by destruct (String.eqb _ _). Qed.
Lemma deliver_safe view session content title : safe any any 3 (_deliver_turn view session content a0 title).
Proof.
  unfold _deliver_turn, find_key. destruct (v_has_key view); [|done].
  assert (Hrest : safe any any 3 (status ← push (v_status view) session content a0; backfill_title view title;; mark_processing status)).
  { eapply safe_bind; [apply push_safe|]. intros k st _. eapply safe_bind; [apply backfill_safe|]. intros. apply processing_safe. }
  cbn [mbind program_bind call safe safe_op]. intros []; [exact Hrest|]. cbn [mbind program_bind call safe safe_op]. intros []; [exact Hrest|done].
Qed.
Lemma ensure_safe content : safe (fun k row => (1 <= k)%nat /\ calm_row row) any 0 (_persist_user_input_item content).
Proof.
  unfold _persist_user_input_item. destruct (str_truthy _); [|done]. cbn [mbind program_bind call safe safe_op]. split; [done|].
  intros [] Hb; [by split; [|split; [|split; [symmetry; apply Hb|]]]|]. cbn [mbind program_bind call safe safe_op]. intros e He Hkn.
  destruct e as [r|]; [|done]. split; [|done]. pose proof (learn_more (Nat.max 0 1) (Some r)). lia.
Qed.
Lemma claim_pending_owner k (x : message_status * Z) : claim_post k x -> x.1 ∉ settled -> k = 3%nat.
Proof. intros (_ & Hp & Hf) Hs. apply Hp. destruct (x.1); try done; unfold settled in Hs; set_solver. Qed.
Lemma request_safe r : safe any any 0 (handle r).
Proof.
  destruct r as [py_str view content attachments|view session content|view session content|]; cbn [handle].
  - eapply (safe_bind any any); [|by intros]. unfold send_task_message. destruct (str_truthy _); [|done].
    eapply safe_bind; [apply ensure_safe|]. intros k row [Hk Hrow]. eapply safe_bind; [by apply claim_safe|].
    intros k' [claim a] Hc. destruct (bool_decide _) eqn:Es; [done|]. apply bool_decide_eq_false in Es.
    pose proof (claim_pending_owner _ _ Hc Es) as ->. destruct Hc as (Ha & _). simpl in Ha. subst a.
    eapply safe_bind with (Q' := fun k _ => k = 3%nat).
    { eapply (safe_rescue _ _ any).
      - unfold _ensure_task_runtime_for_send. cbn [mbind program_bind call safe safe_op]. by intros [| |].
      - intros k2 [why|] _; [|done]. eapply safe_bind; [apply mark_failed_safe|]. intros; exact I. }
    intros k2 [session view'] ->. eapply (safe_bind any any); [|by intros].
    eapply (safe_rescue _ _ any); [apply deliver_safe|]. intros k3 [why|] _; [by apply fail_with_safe|exact I].
  - eapply (safe_bind any any); [|by intros]. unfold push_first_turn. destruct (str_truthy _); [|done]. eapply (safe_swallow _ _ any); [|done].
    eapply safe_bind; [apply ensure_safe|]. intros k row [Hk Hrow]. eapply safe_bind; [by apply claim_safe|].
    intros k' [claim a] (Ha & Hp & _). simpl in Ha. subst a. destruct claim; try done. rewrite (Hp eq_refl).
    eapply safe_bind; [apply deliver_safe|by intros].
  - eapply (safe_bind any any); [|by intros]. unfold _deliver_pending_first_turn. destruct (str_truthy _); [|done]. eapply (safe_swallow _ _ any); [|done].
    cbn [mbind program_bind call safe safe_op]. intros e He _. destruct e as [row|]; [|done]. destruct (_ && _); [|done].
    eapply safe_bind; [apply claim_safe; [|done]|].
    { pose proof (learn_more 0 (Some row)). simpl. destruct (decide _); lia. }
    intros k' [claim a] (Ha & Hp & _). simpl in Ha. subst a. destruct claim; try done. rewrite (Hp eq_refl). apply deliver_safe.
  - unfold _cancel_pending_first_turn. eapply (safe_bind any any); [|by intros]. cbn [mbind program_bind call safe safe_op].
    split; [by intros r _ _ _|done].
Qed.

(** *** The requests together *)

Definition fresh (e : option event_row) : nat := match e with None => 1 | Some r => if decide (delivery_status r = Pending) then 1 else 0 end.
Definition owners (ks : list nat) : nat := length (filter (fun k => k = 3%nat) ks).
Definition deliveries (l : list input_sent) : nat := length (filter (fun i => delivered i = true) l).
Definition relies (e : option event_row) (k : nat) (p : program (option (message_status * Z))) : Prop :=
  (k <= 3)%nat /\ safe any any k p /\ known k e.
Definition one_sender (s : system) : Prop :=
  calm_ev (ev (sys s)) /\ Forall (fun i => in_attempt i = a0) (sent (sys s)) /\
  exists ks, Forall2 (relies (ev (sys s))) ks (running s) /\
    (owners ks + deliveries (sent (sys s)) + fresh (ev (sys s)) <= 1)%nat.
(** The clock is within the time a claim lasts, and nothing failed. *)
Definition quiet (s : system) : Prop :=
  T0 <= now (sys s) <= T0 + _DISPATCHING_STALE_SECONDS /\
  match ev (sys s) with Some r => failing (delivery_status r) = false | None => True end.
Lemma owners_app l1 l2 : owners (l1 ++ l2) = (owners l1 + owners l2)%nat.
Proof. unfold owners. by rewrite filter_app, length_app. Qed.
Lemma owners_cons k l : owners (k :: l) = ((if decide (k = 3%nat) then 1 else 0) + owners l)%nat.
Proof. unfold owners. rewrite filter_cons. by destruct (decide (k = 3%nat)). Qed.
Lemma deliveries_snoc l i : deliveries (l ++ [i]) = (deliveries l + if delivered i then 1 else 0)%nat.
Proof. unfold deliveries. rewrite filter_app, length_app, filter_cons. simpl. by destruct (delivered i). Qed.
(** What is known stays known while the row stays or leaves the pending state. *)
Definition taken (e : option event_row) : Prop := exists r, e = Some r /\ delivery_status r <> Pending.
Lemma taken_known k e : taken e -> known k e.
Proof. intros (r & -> & Hr). destruct k as [|[|k]]; [done|done|]. by exists r. Qed.
Lemma known_learn k e : known k e -> known (learn k e) e.
Proof.
  destruct e as [r|]; [|done]. simpl. destruct (decide (delivery_status r = Pending)) as [Hp|Hp]; [|intros _; apply taken_known; by exists r].
  intros H. destruct k as [|[|k]]; simpl; done.
Qed.
Lemma ack_calm to attempt t reason w : to ∈ reported -> calm_ev (ev w) ->
  match ev (ack to attempt t reason w) with Some r => failing (delivery_status r) = false | None => True end ->
  calm_ev (ev (ack to attempt t reason w)) /\ fresh (ev (ack to attempt t reason w)) = fresh (ev w) /\
  (forall k, known k (ev w) -> known k (ev (ack to attempt t reason w))).
Proof.
  intros Hto Hw. unfold ack. destruct (ev w) as [r|] eqn:E; [|intros _; rewrite E; auto].
  destruct (_ && _) eqn:Eg; [|intros _; rewrite E; auto].
  apply andb_true_iff in Eg as [_ Hfrom%status_in_spec%from_states_spec]. cbn [ev set_ev]. intros Hf. cbn [delivery_status moved_to] in Hf.
  destruct Hw as (Hfr & Ha & Hd).
  assert (Hnp : delivery_status r <> Pending /\ to <> Pending /\ to <> Dispatching).
  { assert (Ht : to <> Pending /\ to <> Dispatching) by (split; intros ->; by destruct (bool_decide_pack _ Hto)). split; [|done].
    intros Hp. rewrite Hp in Hfrom. cbn [MESSAGE_STATUS_TRANSITIONS] in Hfrom. rewrite !elem_of_cons, elem_of_nil in Hfrom.
    destruct Ht as [_ Htd]. destruct Hfrom as [->|[->|[->|[]]]]; done. }
  destruct Hnp as (Hnp & Htp & Htd). split; [by split|]. cbn [fresh delivery_status moved_to]. rewrite !decide_False by done. split; [done|].
  intros k Hk. apply taken_known. by exists (moved_to to t reason r).
Qed.
Lemma same_owner k j : (j < 3)%nat -> (if decide (Nat.max k j = 3%nat) then 1%nat else 0%nat) = (if decide (k = 3%nat) then 1%nat else 0%nat).
Proof. intros Hj. destruct (decide (k = 3%nat)) as [->|]; [by rewrite decide_True by lia|by rewrite decide_False by lia]. Qed.
Lemma learn_owner k e : (k <= 3)%nat -> (if decide (learn k e = 3%nat) then 1%nat else 0%nat) = (if decide (k = 3%nat) then 1%nat else 0%nat).
Proof. intros Hk. destruct e as [r|]; [|done]. simpl. destruct (decide (delivery_status r = Pending)); apply same_owner; lia. Qed.
Lemma learn_le k e : (k <= 3)%nat -> (learn k e <= 3)%nat.
Proof. intros Hk. destruct e as [r|]; [|done]. simpl. destruct (decide _); lia. Qed.
Lemma perform_sender c w o (K : nat -> answer o -> Prop) k :
  calm_ev (ev w) -> known k (ev w) -> safe_op k o K -> T0 <= now w <= T0 + _DISPATCHING_STALE_SECONDS -> (k <= 3)%nat ->
  match ev (perform c w o).1 with Some r => failing (delivery_status r) = false | None => True end ->
  (deliveries (sent w) + fresh (ev w) + (if decide (k = 3%nat) then 1 else 0) <= 1)%nat ->
  calm_ev (ev (perform c w o).1) /\
  (Forall (fun i => in_attempt i = a0) (sent w) -> Forall (fun i => in_attempt i = a0) (sent (perform c w o).1)) /\
  (forall k', known k' (ev w) -> known k' (ev (perform c w o).1)) /\
  exists k', (k' <= 3)%nat /\ known k' (ev (perform c w o).1) /\ K k' (perform c w o).2 /\
    (deliveries (sent (perform c w o).1) + fresh (ev (perform c w o).1) + (if decide (k' = 3%nat) then 1 else 0) =
     deliveries (sent w) + fresh (ev w) + (if decide (k = 3%nat) then 1 else 0))%nat.
Proof.
  intros He Hkn Hs Hnow Hk Hq Hsum. destruct o as [r| |g f|g f| |h| | |session text a]; cbn [perform safe_op fst snd answer] in *.
  - destruct Hs as [-> HK]. destruct (ev w) as [r'|] eqn:E; cbn [fst snd ev set_ev sent] in *.
    + rewrite E. split; [done|split; [done|split; [done|]]]. exists (Nat.max k 1). split; [lia|split; [|split; [by apply HK|by rewrite same_owner by lia]]].
      by destruct k as [|[|k]].
    + split; [by split; [|split]|split; [done|split]]; [by intros [|[|k']]; [|done|intros (? & ? & _)]|].
      exists (Nat.max k 1). split; [lia|split; [|split; [by apply HK|by rewrite same_owner by lia]]].
      destruct k as [|[|k]]; [done|done|]. by destruct Hkn as (? & ? & _).
  - split; [done|split; [done|split; [done|]]]. exists (learn k (ev w)). rewrite learn_owner by done.
    split; [by apply learn_le|split; [by apply known_learn|split; [by apply Hs|done]]].
  - destruct Hs as [H1 H2]. destruct (ev w) as [r|] eqn:E; [destruct (g r) eqn:Eg|]; cbn [fst snd ev set_ev sent] in *.
    + destruct (H1 r He Hkn Eg Hq) as (Hc & Hp & HK). assert (Ht : taken (Some (f r))) by by exists (f r).
      split; [done|split; [done|split; [intros; by apply taken_known|]]]. cbn [fresh] in *. rewrite (decide_False (P := delivery_status (f r) = Pending)) by done.
      destruct (decide (delivery_status r = Pending)).
      * exists 3%nat. split; [lia|split; [done|split; [done|]]]. destruct (decide (k = 3%nat)); simpl; lia.
      * exists (Nat.max k 2). split; [lia|split; [by apply taken_known|split; [done|by rewrite same_owner by lia]]].
    + rewrite E. split; [done|split; [done|split; [done|]]]. exists (learn k (Some r)). rewrite learn_owner by done.
      split; [by apply learn_le|split; [by apply known_learn|split; [|done]]]. apply H2; [done|done|by intros ? [= <-]].
    + rewrite E. split; [done|split; [done|split; [done|]]]. exists k. split; [done|split; [done|split; [|done]]]. by apply (H2 None).
  - destruct (g (task w)); cbn [fst snd ev set_task sent] in *; (split; [done|split; [done|split; [done|]]]); exists k; auto.
  - split; [done|split; [done|split; [done|]]]. exists k. auto.
  - destruct (ch_history c); cbn [ev sent] in *; (split; [done|split; [done|split; [done|]]]); exists k; auto.
  - split; [done|split; [done|split; [done|]]]. exists k. auto.
  - split; [done|split; [done|split; [done|]]]. exists k. auto.
  - destruct Hs as (-> & -> & HK). cbn [ev sent]. split; [done|split; [|split; [done|]]].
    { intros Hf. apply Forall_app. split; [done|]. by apply Forall_singleton. }
    rewrite deliveries_snoc. specialize (HK (ch_send c)). unfold delivered. cbn [in_outcome].
    destruct (ch_send c) as [|?|[] ?]; [exists 2%nat|exists 2%nat|exists 2%nat|exists 3%nat|exists 2%nat];
      (split; [lia|split; [done|split; [done|simpl; lia]]]).
Qed.
Lemma ack_sent to attempt t reason w : sent (ack to attempt t reason w) = sent w.
Proof. unfold ack. destruct (ev w); [|done]. by destruct (_ && _). Qed.
Lemma step_sender s s' : step s s' -> quiet s -> quiet s' -> one_sender s -> one_sender s'.
Proof.
  intros Hstep [Hnow _] [_ Hq] (He & Ha & ks & Hks & Hsum).
  destruct Hstep as [w ps r|w l1 l2 c o g|w l1 l2 p|w ps to a reason Hto|w ps t Ht]; cbn [sys running] in *.
  - split; [done|split; [done|]]. exists (ks ++ [0%nat]). rewrite owners_app. change (owners [0%nat]) with 0%nat. split; [|cbn [sys]; lia].
    apply Forall2_app; [done|]. constructor; [|constructor]. split; [lia|split; [apply request_safe|done]].
  - apply Forall2_app_inv_r in Hks as (ks1 & ks' & H1 & H2 & ->). apply Forall2_cons_inv_r in H2 as (k & ks2 & (Hk & Hs & Hkn) & H2 & ->).
    rewrite owners_app, owners_cons in Hsum. cbn [safe] in Hs.
    assert (Hone : (deliveries (sent w) + fresh (ev w) + (if decide (k = 3%nat) then 1 else 0) <= 1)%nat) by lia.
    destruct (perform_sender c w o _ k He Hkn Hs Hnow Hk Hq Hone) as (He' & Ha' & Hmono & k' & Hk' & Hkn' & HK & Heq).
    split; [done|split; [by apply Ha'|]]. exists (ks1 ++ k' :: ks2). split; [|rewrite owners_app, owners_cons; cbn [sys]; lia].
    assert (Hm : forall l qs, Forall2 (relies (ev w)) l qs -> Forall2 (relies (ev (perform c w o).1)) l qs).
    { intros l qs Hf. eapply Forall2_impl; [exact Hf|]. intros j p (? & ? & ?). split; auto. }
    apply Forall2_app; [by apply Hm|]. constructor; [done|by apply Hm].
  - apply Forall2_app_inv_r in Hks as (ks1 & ks' & H1 & H2 & ->). apply Forall2_cons_inv_r in H2 as (k & ks2 & _ & H2 & ->).
    split; [done|split; [done|]]. exists (ks1 ++ ks2). split; [by apply Forall2_app|]. rewrite owners_app, owners_cons in Hsum. rewrite owners_app. cbn [sys]. lia.
  - destruct (ack_calm to a (now w) reason w Hto He Hq) as (He' & Hf & Hkn). split; [done|split; [cbn [sys]; by rewrite ack_sent|]].
    exists ks. cbn [sys running]. rewrite Hf, ack_sent. split; [|done]. eapply Forall2_impl; [exact Hks|]. intros k p (? & ? & ?). split; auto.
  - by split; [|split; [|exists ks]].
Qed.
End calm.

(** C26: while no request fails or is cancelled and no claim is older than it may be, at
    most one of any number of requests for one message gets it to the node, whatever
    their interleaving with each other, with reports of the node, and with crashes; it is
    sent with the attempt of its row, and nothing is sent before the row is claimed. *)
Theorem single_delivery (T0 a0 : Z) (s s' : system) (Ha0 : 1 <= a0)
  (Hstart : running s = [] /\ sent (sys s) = [] /\ calm_ev T0 a0 (ev (sys s)) /\ quiet T0 s)
  (Hrun : rtc (fun s1 s2 => step s1 s2 /\ quiet T0 s2) s s') :
  (deliveries (sent (sys s')) <= 1)%nat /\ Forall (fun i => in_attempt i = a0) (sent (sys s')) /\
  (match ev (sys s') with Some r => delivery_status r = Pending | None => True end -> deliveries (sent (sys s')) = 0%nat).
Proof.
  destruct Hstart as (Hr & Hs & He & Hq). assert (H : one_sender T0 a0 s').
  { assert (H0 : one_sender T0 a0 s).
    { split; [done|]. rewrite Hs, Hr. split; [constructor|]. exists []. split; [constructor|]. simpl.
      destruct (ev (sys s)); simpl; [destruct (decide _)|]; lia. }
    clear Hr Hs He. revert Hq H0. induction Hrun as [s|s1 s2 s3 [H12 Hq2] _ IH]; [done|]. intros Hq1 H1.
    apply IH; [done|]. by eapply step_sender. }
  destruct H as (_ & Ha & ks & _ & Hsum). split; [lia|split; [done|]]. intros Hp.
  destruct (ev (sys s')) as [r|]; cbn [fresh] in Hsum; [rewrite decide_True in Hsum by done|]; lia.
Qed.

(** ** Runs of a schedule *)

Definition event_ok (e : happening) : Prop := match e with Ack to _ _ => to ∈ reported | _ => True end.
#[export] Instance event_ok_dec e : Decision (event_ok e).
Proof. destruct e; apply _. Defined.
#[export] Instance quiet_dec T0 s : Decision (quiet T0 s).
Proof. unfold quiet. destruct (ev (sys s)); apply _. Defined.
Lemma advance_step s e : event_ok e -> step s (advance s e) \/ advance s e = s.
Proof.
  destruct s as [w ps], e as [r|i c|to a reason|t]; intros Hok; cbn [advance sys running].
  - left. constructor.
  - destruct (ps !! i) as [[a|e|o k]|] eqn:E; auto. left.
    assert (Hi : (i < length ps)%nat) by by eapply lookup_lt_Some. rewrite insert_take_drop by done.
    rewrite <- (take_drop_middle ps i (Call o k) E) at 1. constructor.
  - left. by constructor.
  - left. constructor. lia.
Qed.
Lemma play_steps s es : Forall event_ok es -> rtc step s (play s es).
Proof.
  intros H. revert s. induction H as [|e es He _ IH]; intros s; [done|].
  etrans; [|apply IH]. destruct (advance_step s e He) as [Hs|Hs]; [by apply rtc_once|by rewrite Hs].
Qed.
(** Every state of the schedule is quiet. *)
Fixpoint quietly (T0 : Z) (s : system) (es : list happening) : bool :=
  match es with [] => true | e :: es' => bool_decide (event_ok e) && bool_decide (quiet T0 (advance s e)) && quietly T0 (advance s e) es' end.
Lemma play_quiet T0 s es : quietly T0 s es = true -> rtc (fun s1 s2 => step s1 s2 /\ quiet T0 s2) s (play s es).
Proof.
  revert s. induction es as [|e es IH]; intros s; [done|]. cbn [quietly]. rewrite !andb_true_iff, !bool_decide_eq_true. intros [[He Hq] H].
  etrans; [|by apply IH]. destruct (advance_step s e He) as [Hs|Hs]; [by apply rtc_once|by rewrite Hs].
Qed.

(** ** A request that is alone *)

Lemma alone_bind {A B} c w (p : program A) (f : A -> program B) :
  alone c w (p ≫= f) = match alone c w p with (w', inl a) => alone c w' (f a) | (w', inr e) => (w', inr e) end.
Proof.
  revert w. induction p as [a|e|o k IH]; intros w; [done|done|]. cbn [mbind program_bind alone]. destruct (perform c w o) as [w' r]. apply IH.
Qed.
Lemma alone_rescue {A} c w (p : program A) h :
  alone c w (rescue p h) = match alone c w p with (w', inr (ValueError why)) => alone c w' (h why) | x => x end.
Proof.
  revert w. induction p as [a|[]|o k IH]; intros w; [done|done|done|]. cbn [rescue alone]. destruct (perform c w o) as [w' r]. apply IH.
Qed.
(** One operation of a request. *)
Ltac run1 := cbn [mbind program_bind call alone perform fst snd].
Lemma alone_pending c w r : ev w = Some r -> delivery_status r = Pending ->
  alone c w claim_pending = (set_ev (Some (claimed (now w) r)) w, inl true).
Proof. intros He Hr. unfold claim_pending, status_in. run1. by rewrite He, Hr. Qed.
(** Two worlds with the same clock, the same messages sent and the same task. *)
Definition only_row (w w' : shared) : Prop := now w' = now w /\ sent w' = sent w /\ task w' = task w.
#[export] Instance only_row_preorder : PreOrder only_row.
Proof. split; [by repeat split|]. intros w1 w2 w3 (H1 & H2 & H3) (H4 & H5 & H6). split_and!; congruence. Qed.
Lemma alone_record c w frm to reason a : exists w', alone c w (record_delivery frm to reason a) = (w', inl tt) /\ only_row w w' /\ ev w' = ev w.
Proof. unfold record_delivery. run1. destruct (ch_history c); eexists; (split; [done|]); by repeat split. Qed.
Lemma alone_failed c w r a reason : ev w = Some r -> delivery_attempt r = a -> a <> 0 -> failing (delivery_status r) = false -> delivery_status r <> Completed ->
  exists w', alone c w (mark_failed a reason) = (w', inl true) /\ only_row w w' /\ ev w' = Some (moved_to Failed (now w) (Some reason) r).
Proof.
  intros He Ha Hz Hf Hc. unfold mark_failed, _transition_message_status. destruct (from_states Failed) as [|x l] eqn:E; [done|]. rewrite <- E. run1. rewrite He.
  assert (Hg : same_attempt (Some a) r && status_in (from_states Failed) r = true).
  { unfold same_attempt. destruct (Z.eqb_spec a 0); [done|]. rewrite Ha, Z.eqb_refl. apply status_in_spec, from_states_spec. destruct (delivery_status r); try done; simpl; set_solver. }
  rewrite Hg. cbn [fst snd]. rewrite alone_bind. edestruct alone_record as (w' & -> & Ho & Hev). run1. exists w'.
  split; [done|split; [|done]]. etrans; [|exact Ho]. by repeat split.
Qed.
(** What a claim makes of a row: a new claim, or nothing to do. *)
Definition claim_of (t : Z) (r : event_row) : option event_row :=
  match delivery_status r with
  | Pending => Some (claimed t r)
  | Failed | Cancelled => Some (claimed t (requeued (delivery_attempt r + 1) r))
  | Dispatching => if stale (t - _DISPATCHING_STALE_SECONDS) r then Some (restarted t r) else None
  | _ => None
  end.
Definition claim_answer (t : Z) (r : event_row) : message_status * Z :=
  match claim_of t r with Some r' => (Pending, delivery_attempt r') | None => (delivery_status r, delivery_attempt r) end.
Lemma or_one_pos z : 1 <= z -> or_one z = z.
Proof. unfold or_one. destruct (Z.eqb_spec z 0); lia. Qed.
Lemma fresh_same r s a : 1 <= delivery_attempt r -> fresh_state (Some r) s a = (delivery_status r, delivery_attempt r).
Proof. intros H. unfold fresh_state. destruct (Z.eqb_spec (delivery_attempt r) 0); [lia|]. by rewrite or_one_pos. Qed.
Lemma alone_if_pending c w r a : ev w = Some r -> delivery_status r = Pending ->
  exists w', alone c w (claim_if_pending Pending a) = (w', inl (true, Pending, a)) /\ only_row w w' /\ ev w' = Some (claimed (now w) r).
Proof.
  intros He Hr. unfold claim_if_pending. rewrite alone_bind, (alone_pending c w r) by done. rewrite alone_bind.
  edestruct (alone_record c) as (w' & -> & Ho & Hev). run1. exists w'. split; [done|split; [|done]]. etrans; [|exact Ho]. by repeat split.
Qed.
Lemma alone_requeue c w r : ev w = Some r -> 1 <= delivery_attempt r -> delivery_status r ∈ [Failed; Cancelled] ->
  exists w', alone c w (requeue r) = (w', inl (Pending, delivery_attempt r + 1)) /\ only_row w w' /\
    ev w' = Some (requeued (delivery_attempt r + 1) r).
Proof.
  intros He Ha Hs. unfold requeue. rewrite (or_one_pos _ Ha). apply status_in_spec in Hs. rewrite Hs. run1. rewrite He, Hs. cbn [fst snd].
  rewrite alone_bind. edestruct (alone_record c) as (w1 & -> & Ho1 & He1). run1. exists w1. split; [done|split; [|done]].
  etrans; [|exact Ho1]. by repeat split.
Qed.
Lemma alone_no_requeue c w r : status_in [Failed; Cancelled] r = false -> 1 <= delivery_attempt r ->
  alone c w (requeue r) = (w, inl (delivery_status r, delivery_attempt r)).
Proof. intros Hs Ha. unfold requeue. by rewrite Hs, or_one_pos. Qed.
Lemma alone_claim_first c w r : ev w = Some r -> 1 <= delivery_attempt r ->
  match delivery_status r with
  | Pending | Failed | Cancelled => exists w', alone c w (claim_first r) = (w', inl (true, Pending, (claim_answer (now w) r).2)) /\
                                      only_row w w' /\ ev w' = claim_of (now w) r
  | _ => alone c w (claim_first r) = (w, inl (false, delivery_status r, delivery_attempt r))
  end.
Proof.
  intros He Ha. unfold claim_first, claim_answer, claim_of.
  assert (Hretry : delivery_status r ∈ [Failed; Cancelled] -> exists w',
    alone c w ('(s, a) ← requeue r; claim_if_pending s a) = (w', inl (true, Pending, delivery_attempt r + 1)) /\ only_row w w' /\
    ev w' = Some (claimed (now w) (requeued (delivery_attempt r + 1) r))).
  { intros Hs. rewrite alone_bind. destruct (alone_requeue c w r He Ha Hs) as (w1 & -> & Ho1 & He1).
    destruct (alone_if_pending c w1 _ (delivery_attempt r + 1) He1 eq_refl) as (w2 & Hw2 & Ho2 & He2).
    exists w2. split; [done|split; [by etrans|]]. by rewrite He2, (proj1 Ho1). }
  assert (Hkeep : status_in [Failed; Cancelled] r = false ->
    alone c w ('(s, a) ← requeue r; claim_if_pending s a) = alone c w (claim_if_pending (delivery_status r) (delivery_attempt r))).
  { intros Hs. by rewrite alone_bind, alone_no_requeue. }
  unfold status_in in Hkeep. destruct (delivery_status r) eqn:Es; try (by rewrite Hkeep).
  - rewrite Hkeep by done. by apply alone_if_pending.
  - apply Hretry. by left.
  - apply Hretry. by right; left.
Qed.
Lemma alone_claim_second c w r : ev w = Some r -> 1 <= delivery_attempt r -> delivery_status r ∈ settled ->
  exists w', alone c w (claim_second (delivery_status r) (delivery_attempt r)) = (w', inl (claim_answer (now w) r)) /\ only_row w w' /\
    ev w' = match claim_of (now w) r with Some r' => Some r' | None => Some r end.
Proof.
  intros He Ha Hs. unfold claim_second. run1. rewrite He, fresh_same by done. unfold claim_answer, claim_of.
  destruct (delivery_status r) eqn:Es; try (by exists w; split; [|split]); try (by destruct (bool_decide_pack _ Hs)).
  unfold claim_stale. run1. destruct (stale (now w - _DISPATCHING_STALE_SECONDS) r) eqn:E; [|by exists w; split; [|split]]. run1.
  rewrite He. unfold status_in. rewrite Es, E. run1. by exists (set_ev (Some (restarted (now w) r)) w).
Qed.
Lemma alone_claim c w r : ev w = Some r -> 1 <= delivery_attempt r ->
  exists w', alone c w (_claim_message_for_dispatch r) = (w', inl (claim_answer (now w) r)) /\ only_row w w' /\
    ev w' = match claim_of (now w) r with Some r' => Some r' | None => Some r end.
Proof.
  intros He Ha. pose proof (alone_claim_first c w r He Ha) as H1. unfold _claim_message_for_dispatch. rewrite alone_bind.
  destruct (delivery_status r) eqn:Es.
  2-5: rewrite H1; rewrite <- Es; apply alone_claim_second; try done; rewrite Es; by apply (bool_decide_unpack _).
  all: destruct H1 as (w' & -> & Ho & Hev); exists w'; unfold claim_answer, claim_of in *; rewrite Es in *; run1; by split; [|split].
Qed.
Lemma alone_failed_again c w r a reason : ev w = Some r -> delivery_status r = Failed -> alone c w (mark_failed a reason) = (w, inl false).
Proof.
  intros He Hr. unfold mark_failed, _transition_message_status. destruct (from_states Failed) as [|x l] eqn:E; [done|]. rewrite <- E. run1. rewrite He.
  assert (status_in (from_states Failed) r = false) as -> by (unfold status_in; by rewrite Hr). by rewrite andb_false_r.
Qed.
Lemma alone_fail_with {A} c w r a reason e : ev w = Some r -> delivery_attempt r = a -> a <> 0 -> failing (delivery_status r) = false -> delivery_status r <> Completed ->
  exists w', alone c w (@fail_with A a reason e) = (w', inr e) /\ only_row w w' /\ ev w' = Some (moved_to Failed (now w) (Some reason) r).
Proof.
  intros He Ha Hz Hf Hc. destruct (alone_failed c w r a reason He Ha Hz Hf Hc) as (w' & Hw & Ho & Hev).
  exists w'. split; [|done]. unfold fail_with. by rewrite alone_bind, Hw.
Qed.
(** The task may change, the row does not. *)
Definition only_task (w w' : shared) : Prop := now w' = now w /\ sent w' = sent w /\ ev w' = ev w.
Lemma alone_title c w view title : exists w', alone c w (backfill_title view title) = (w', inl tt) /\ only_task w w'.
Proof.
  unfold backfill_title. destruct (_ && _); [|by exists w]. run1. destruct (bool_decide (t_title (task w) = None)); run1; [by eexists|].
  destruct (bool_decide _); by eexists.
Qed.
Lemma alone_processing c w status : exists w', alone c w (mark_processing status) = (w', inl tt) /\ only_task w w'.
Proof. unfold mark_processing. destruct (String.eqb status "processing"); [by exists w|]. run1. destruct (ch_history c); by eexists. Qed.
(** How a claimed message ends, by what the outside answers, and how often it is pushed:
    delivered, failed with an error and a reason, or stuck in its claim. *)
Inductive ending := Delivered | FailedWith (e : error) (why : string) | ClaimKept (e : error).
Definition push_ending (c : outside) : ending * nat :=
  match ch_send c with
  | Accepted => (Delivered, 1%nat)
  | NodeServerUnavailable why | RPCError UNAVAILABLE why => (FailedWith NODE_UNAVAILABLE why, 1%nat)
  | RPCError NOT_FOUND why => (FailedWith NODE_UNAVAILABLE why, 2%nat)
  | RPCError OTHER_CODE why => (FailedWith (OtherError "RPCError") why, 1%nat)
  end.
Definition ending_of (c : outside) (has_key : bool) : ending * nat :=
  match ch_dispatch c with
  | DispatchRefused why => (FailedWith (ValueError why) "runtime_unavailable", 0%nat)
  | DispatchRPCError _ _ => (ClaimKept (OtherError "RPCError"), 0%nat)
  | Session _ _ =>
      if negb has_key then (ClaimKept (OtherError "UnboundLocalError"), 0%nat)
      else if negb (ch_key c) then (FailedWith (ValueError "task_api_key_unavailable") "deliver_precondition_failed", 0%nat)
      else push_ending c
  end.
Definition session_of (c : outside) : string := match ch_dispatch c with Session s _ => s | _ => "" end.
(** The row and the answer of an ending, [r] being the claimed row. *)
Definition ends {A} (w w' : shared) (r : event_row) (ok : A) (answer : A + error) (e : ending) : Prop :=
  match e with
  | Delivered => answer = inl ok /\ ev w' = Some r
  | FailedWith e why => answer = inr e /\ ev w' = Some (moved_to Failed (now w) (Some why) r)
  | ClaimKept e => answer = inr e /\ ev w' = Some r
  end.
Ltac pushes Hfail status :=
  match goal with |- context [alone _ ?w0 (fail_with _ ?why ?e)] =>
    destruct (Hfail string w0 why e) as (w' & -> & H1 & H2 & H3); [done|done|];
    exists status, w'; eexists; split; [done|]; rewrite H1; cbn [sent set_task]
  end.
Lemma alone_push c w r status text a re : ch_dispatch c = Session (session_of c) re -> ev w = Some r -> delivery_attempt r = a -> 1 <= a ->
  delivery_status r = Dispatching -> exists status' w' answer, alone c w (push status (session_of c) text a) = (w', answer) /\
    sent w' = sent w ++ replicate (push_ending c).2 (InputSent (session_of c) text a (ch_send c)) /\ now w' = now w /\
    ends w w' r status' answer (push_ending c).1.
Proof.
  intros Hd He Ha Hpos Hs.
  assert (Hfail : forall (A : Type) (w0 : shared) why e, ev w0 = Some r -> now w0 = now w -> exists w', alone c w0 (@fail_with A a why e) = (w', inr e) /\
    sent w' = sent w0 /\ now w' = now w /\ ev w' = Some (moved_to Failed (now w) (Some why) r)).
  { intros A w0 why e He0 Hn0. destruct (alone_fail_with (A := A) c w0 r a why e) as (w' & -> & (Hn & Hsent & _) & Hev); [done|done|lia|by rewrite Hs|by rewrite Hs|].
    exists w'. rewrite Hn, Hsent, Hev, Hn0. done. }
  unfold push, push_ending. run1. destruct (ch_send c) as [|why|[] why] eqn:Eo; run1; cbn [fst snd].
  - exists status. do 2 eexists. split; [done|]. done.
  - by pushes Hfail status.
  - by pushes Hfail status.
  - case_bool_decide; run1; rewrite Hd; run1; rewrite Eo; run1; pushes Hfail status; by rewrite <- app_assoc.
  - by pushes Hfail status.
Qed.
Lemma alone_ensure c w content : str_truthy (strip content) = true ->
  exists w', alone c w (_persist_user_input_item content) = (w', inl (default new_row (ev w))) /\ only_row w w' /\ ev w' = Some (default new_row (ev w)).
Proof.
  intros Ht. unfold _persist_user_input_item. rewrite Ht. run1. destruct (ev w) as [r|] eqn:E; run1.
  - rewrite E. by exists w.
  - by eexists.
Qed.
Lemma claim_settled t r : claim_of t r = None -> delivery_status r ∈ settled.
Proof. unfold claim_of. destruct (delivery_status r); try done; intros _; by apply (bool_decide_unpack _). Qed.
Lemma claim_of_row t r r' : claim_of t r = Some r' -> delivery_status r' = Dispatching /\ (1 <= delivery_attempt r -> 1 <= delivery_attempt r').
Proof. unfold claim_of. destruct (delivery_status r) eqn:E; try done; [|destruct (stale _ _); [|done]|..]; intros [= <-]; (split; [done|simpl; lia]). Qed.

Lemma alone_deliver c w r view title text a re : ch_dispatch c = Session (session_of c) re -> ev w = Some r -> delivery_attempt r = a -> 1 <= a ->
  delivery_status r = Dispatching ->
  let '(w', answer) := alone c w (rescue (_deliver_turn view (session_of c) text a title) (fun why => fail_with a "deliver_precondition_failed" (ValueError why))) in
  sent w' = sent w ++ replicate (ending_of c (v_has_key view)).2 (InputSent (session_of c) text a (ch_send c)) /\
  ends w w' r tt answer (ending_of c (v_has_key view)).1.
Proof.
  intros Hd He Ha Hpos Hs. rewrite alone_rescue. unfold _deliver_turn, find_key, ending_of. rewrite Hd. destruct (v_has_key view); cbn [negb].
  2: { cbn [alone]. by rewrite app_nil_r. }
  run1. destruct (ch_key c) eqn:Ek; run1; cbn [negb].
  2: { rewrite Ek. run1. destruct (alone_fail_with (A := unit) c w r a "deliver_precondition_failed" (ValueError "task_api_key_unavailable")) as (w' & -> & (_ & Hsent & _) & Hev);
         [done|done|lia|by rewrite Hs|by rewrite Hs|]. cbn [fst snd replicate]. by rewrite Hsent, app_nil_r. }
  rewrite alone_bind. destruct (alone_push c w r (v_status view) text a re Hd He Ha Hpos Hs) as (status & w1 & answer & -> & Hsent & Hn & Hend).
  destruct (push_ending c) as [[|e why|e] n] eqn:Ep; cbn [ends fst snd] in *; destruct Hend as [-> Hev].
  - rewrite alone_bind. edestruct (alone_title c) as (w2 & -> & H1 & H2 & H3). edestruct (alone_processing c w2) as (w3 & -> & H4 & H5 & H6).
    by rewrite H5, H2, H6, H3.
  - destruct e as [x|x]; [|done]. unfold fail_with. rewrite alone_bind. erewrite alone_failed_again by (exact Hev || done). cbn [alone]. done.
  - exfalso. unfold push_ending in Ep. destruct (ch_send c) as [|?|[] ?]; discriminate.
Qed.


Module DeliverySample.
Definition row_in (s : message_status) (attempt : Z) : event_row := EventRow s attempt None (Some 990) None None.
Definition go (i n : nat) : list happening := replicate n (Go i calm_choice).
Definition refusing : outside := Outside (Session "s" false) (fun t => t) true (NodeServerUnavailable "down") true.

Lemma delivery_follows_table_witness :
  ev_moves None (ev (sys (play (started_with None) (Arrive hello :: go 0 12)))) /\
  ev (sys (play (started_with None) (Arrive hello :: go 0 12))) = Some (EventRow Dispatching 1 None (Some 1000) None None).
Proof.
  split; [|by vm_compute]. apply (delivery_follows_table (started_with None)); [done|]. apply play_steps. by apply (bool_decide_unpack _).
Defined.
(** Two requests and a report of the node, interleaved. *)
Definition two_sends : list happening :=
  [Arrive hello; Arrive hello] ++ go 0 1 ++ go 1 3 ++ go 0 1 ++ go 1 1 ++ go 0 2 ++ [Later 1010] ++ go 1 8 ++ [Ack Received (Some 1) None] ++ go 0 12.
Lemma single_delivery_witness :
  let s := play (started_with None) two_sends in
  (deliveries (sent (sys s)) <= 1)%nat /\ sent (sys s) = [InputSent "s" "hi" 1 Accepted] /\ length (running s) = 2%nat.
Proof.
  split; [|by vm_compute]. eapply (single_delivery 1000 1 (started_with None)); [lia| |].
  - split; [done|split; [done|split; [done|]]]. by apply (bool_decide_unpack _).
  - apply play_quiet. by vm_compute.
Defined.

(** A message whose failure is reported between the two times a request reads it is sent
    by a request that never claimed it, with the attempt that failed. *)
Lemma unclaimed_send :
  let s := play (started_with (Some (row_in Received 1))) ([Arrive hello] ++ go 0 2 ++ [Ack Failed (Some 1) (Some "lost")] ++ go 0 12) in
  sent (sys s) = [InputSent "s" "hi" 1 Accepted] /\ delivery_status <$> ev (sys s) = Some Failed /\
  running s = [Return (Some (Dispatching, 1))].
Proof. by vm_compute. Qed.
(** The claim looks at the status only: after a failure and a retry in between, a request
    claims the message of attempt 2 and sends it as attempt 1, which was sent before. *)
Definition refusal (i before after : nat) : list happening := go i before ++ [Go i refusing] ++ go i after.
Lemma claims_old_attempt :
  let s := play (started_with (Some (row_in Pending 1))) ([Arrive hello; Arrive hello] ++ go 0 3 ++ refusal 1 7 8 ++ [Arrive hello] ++ go 2 3 ++ go 0 12) in
  (in_attempt <$> sent (sys s)) = [1; 1] /\ delivery_attempt <$> ev (sys s) = Some 2 /\ delivery_status <$> ev (sys s) = Some Dispatching.
Proof. by vm_compute. Qed.
(** An attempt counted from an old reading goes back, and is used twice. *)
Lemma attempt_goes_back :
  let s := play (started_with (Some (row_in Failed 1))) ([Arrive hello; Arrive hello; Arrive hello] ++ go 0 2 ++ refusal 1 9 8 ++ refusal 2 9 8 ++ go 0 12) in
  (in_attempt <$> sent (sys s)) = [2; 3; 2] /\ delivery_attempt <$> ev (sys s) = Some 2.
Proof. by vm_compute. Qed.
(** A task without a key never gets a message to its node: the claim stays until it is old. *)
Lemma keyless_never_sent :
  let '(w, r) := alone calm_choice (start_shared None) (send_task_message (fun _ => "") (TaskView "" "pending" false) "hi" []) in
  r = inr (OtherError "UnboundLocalError") /\ sent w = [] /\ delivery_status <$> ev w = Some Dispatching.
Proof. by vm_compute. Qed.
(** So does the claim when the probe of the runtime fails with another code. *)
Lemma probe_error_keeps_claim :
  let '(w, r) := alone (Outside (DispatchRPCError OTHER_CODE "internal") (fun t => t) true Accepted true) (start_shared None) (handle hello) in
  r = inr (OtherError "RPCError") /\ sent w = [] /\ delivery_status <$> ev w = Some Dispatching.
Proof. by vm_compute. Qed.
End DeliverySample.
