(* ===== verification/Launch.v ===== *)
(** agent/workflow_service.py, the launch of a workflow: how many runs one launch makes and
    with which account each, what the inputs of a run are, and what follows when it ends.

    The accounts stored for a site are an input, read once; the runner is the one of
    Workflow; texts of errors are inputs of the end. *)
From S2P Require Import Prelude Json Text Windows Retry Stream Messages Masking Graph Refs Workflow Inputs.

Section launch.
Variable py_str : json -> string.
(** [_resolve_accounts] for the owner of the run. *)
Variable accounts_of : string -> list node.

(** ** Values of account inputs *)

Definition username (a : node) : string := get_text py_str a "username".
Definition _account_value_for (accounts : list node) (single : option node) : json :=
  match single with
  | Some a => JStr (username a)
  | None => match filter (fun a => json_truthy (default JNull (dict_get "username" a)) = true) accounts with
            | [] => JNull
            | l => JArr (JStr ∘ username <$> l)
            end
  end.
(** The values so far, and the keys that were filled in here. *)
Record supply := Supply { resolved : list (string * json); engine_supplied : list string }.
Definition take_value (k : string) (v : json) (s : supply) : supply := Supply (dict_set k v (resolved s)) (engine_supplied s).
Definition supply_value (k : string) (v : json) (s : supply) : supply := Supply (dict_set k v (resolved s)) (k :: engine_supplied s).
Definition has {A} (k : string) (d : list (string * A)) : bool := match dict_get k d with Some _ => true | None => false end.
Definition is_account (spec : input_spec) : bool := String.eqb (in_type spec) "account".
(** [for k in declared: if k in args: resolved[k] = args[k]] *)
Definition take_args (declared : list (string * input_spec)) (args : list (string * json)) (s : supply) : supply :=
  foldl (fun s kv => match dict_get kv.1 args with Some v => take_value kv.1 v s | None => s end) s declared.
Definition update (d d' : list (string * json)) : list (string * json) := foldl (fun d kv => dict_set kv.1 kv.2 d) d d'.

Section resolve.
Variable declared : list (string * input_spec).
Variable args : list (string * json).
Variable single_account : option node.
Variable accounts_override : option (list node).
Definition _single : option node :=
  match single_account with
  | Some a => Some a
  | None => match accounts_override with Some [a] => Some a | _ => None end
  end.
(** The account of the run fills the account inputs that nothing else filled. *)
Definition fill_single (s : supply) : supply :=
  match _single with
  | None => s
  | Some a => foldl (fun s kv => if is_account kv.2 && negb (has kv.1 (resolved s)) && negb (has kv.1 args)
                                 then supply_value kv.1 (JStr (username a)) s else s) s declared
  end.
Definition _finish (definition : node) (s : supply) : option (list (string * json)) :=
  let s := fill_single s in
  out ← coerce_inputs py_str definition (filter (fun kv => kv.1 ∉ engine_supplied s) (resolved s));
  apply_input_defaults py_str definition (update out (filter (fun kv => kv.1 ∈ engine_supplied s) (resolved s))).

(** No launch method: the arguments by key, accounts by the site of their input. *)
Definition supply_site (s : supply) (kv : string * input_spec) : supply :=
  if has kv.1 (resolved s) || negb (is_account kv.2) then s
  else match accounts_override with
       | Some l => supply_value kv.1 (_account_value_for l _single) s
       | None => match in_site kv.2 with
                 | Some site => match accounts_of site with
                                | [] => s
                                | l => supply_value kv.1 (_account_value_for l single_account) s
                                end
                 | None => s
                 end
       end.
Definition manual_inputs : supply := foldl supply_site (take_args declared args (Supply [] [])) declared.
(** A launch method with a fixed value, overridden by the arguments. *)
Definition value_inputs (value : list (string * json)) : supply := take_args declared args (Supply (update [] value) []).

(** A launch method over the accounts of a site. *)
Definition _site (url : string) (spec : input_spec) : string := strip (str_or (default "" (in_site spec)) url).
(** The account, or the accounts, as they are. *)
Definition raw_accounts (accounts : list node) : json :=
  match accounts_override with
  | Some l => match _single, l with Some _, a :: _ => JObj a | _, _ => JArr (JObj <$> l) end
  | None => match single_account with Some a => JObj a | None => JArr (JObj <$> accounts) end
  end.
Definition supply_accounts (url : string) (multiple : bool) (s : supply) (kv : string * input_spec) : supply :=
  let s := match dict_get kv.1 args with Some v => take_value kv.1 v s | None => s end in
  if is_account kv.2 then
    supply_value kv.1 (match accounts_override with
                       | Some l => _account_value_for l _single
                       | None => _account_value_for (accounts_of (_site url kv.2)) (if multiple then single_account else None)
                       end) s
  else if String.eqb kv.1 "accounts" then supply_value kv.1 (raw_accounts (accounts_of (_site url kv.2))) s
  else s.
Definition account_inputs (url : string) (multiple : bool) : supply :=
  let s := foldl (supply_accounts url multiple) (Supply [] []) declared in
  if has "accounts" (resolved s) then s else supply_value "accounts" (raw_accounts (accounts_of url)) s.
End resolve.

Definition find_trigger (trigger_id : string) (triggers : list trigger) : option trigger :=
  list_find (fun t => tr_id t = trigger_id) triggers ≫= fun x => Some x.2.
Definition _resolve_inputs (definition : node) (trigger_id : string) (args : list (string * json))
    (single_account : option node) (accounts_override : option (list node)) : option (list (string * json)) :=
  declared ← validate_inputs py_str definition;
  triggers ← (if str_truthy trigger_id then validate_triggers py_str definition else Some []);
  let finish := _finish declared args single_account accounts_override definition in
  match tr_params <$> find_trigger trigger_id triggers with
  | None => finish (manual_inputs declared args single_account accounts_override)
  | Some (StaticValue _ value) => finish (value_inputs declared args value)
  | Some (AccountList url multiple) => finish (account_inputs declared args single_account accounts_override url multiple)
  end.

(** ** The runs of a launch *)

Record launch := Launch { l_single : option node; l_override : option (list node) }.
Definition _account_site_url (spec : input_spec) (url : string) : string := strip (str_or (default "" (in_site spec)) url).
Definition is_wanted (want : list string) (a : node) : bool := bool_decide (username a ∈ want).
(** The accounts a person picked, in the order of the list. *)
Definition picked (want : list string) (single_only : bool) (accounts : list node) : option (list node) :=
  match accounts with
  | [] => None
  | _ =>
      let l := match want with [] => accounts | _ => filter (fun a => is_wanted want a = true) accounts end in
      match l with [] => None | _ => Some (if single_only then take 1 l else l) end
  end.
Definition first_site (declared : list (string * input_spec)) : string :=
  match list_find (fun kv => is_account kv.2 && str_truthy (default "" (in_site kv.2)) = true) declared with
  | Some (_, kv) => default "" (in_site kv.2)
  | None => ""
  end.
Definition first_account_site (declared : list (string * input_spec)) (url : string) : string :=
  match list_find (fun kv => is_account kv.2 = true) declared with Some (_, kv) => _account_site_url kv.2 url | None => "" end.
Definition owner_allowed (owner caller : option string) : bool :=
  match owner, caller with Some o, Some c => String.eqb o c | _, _ => true end.
Definition params_url (p : option trigger_params) : string := match p with Some (AccountList url _) => url | _ => "" end.
(** The launch method that was named: None when there is none, or it is switched off. *)
Definition chosen_trigger (definition : node) (trigger_id : string) : option (option trigger) :=
  if str_truthy trigger_id
  then triggers ← validate_triggers py_str definition;
       t ← find_trigger trigger_id triggers;
       if tr_enabled t then Some (Some t) else None
  else Some None.
Definition one_each (accounts : list node) : list launch := map (fun a => Launch (Some a) None) accounts.
Definition launches (declared : list (string * input_spec)) (params : option trigger_params) (single_only : bool) (want : list string) : option (list launch) :=
  match params with
  | Some (AccountList url true) =>
      one_each <$> picked want single_only (accounts_of (str_or (first_site declared) url))
  | _ =>
      if negb (match want with [] => true | _ => false end) || single_only then
        accounts ← picked want single_only (accounts_of (str_or (first_account_site declared (params_url params)) (params_url params)));
        Some [Launch None (Some accounts)]
      else Some [Launch None None]
  end.
Definition start_and_run_multi (definition : node) (owner caller : option string) (trigger_id : string) (single_only : bool) (pick : list string) : option (list launch) :=
  match validate_def py_str (JObj definition) false with
  | None => None
  | Some _ =>
      if negb (owner_allowed owner caller) then None
      else spec ← chosen_trigger definition trigger_id;
           declared ← validate_inputs py_str definition;
           launches declared (tr_params <$> spec) single_only (filter (fun u => str_truthy u = true) (strip <$> pick))
  end.

(** ** A run and its end *)

(** A run that was recorded; None is a run that nothing marks as ended. *)
Definition run_status (start : context -> option (overall * context * gmap string node_result)) (definition : node) (trigger_id : string)
    (args : list (string * json)) (l : launch) : option overall :=
  inputs ← _resolve_inputs definition trigger_id args (l_single l) (l_override l);
  Some (match start (WorkflowContext inputs args ∅ JNull) with Some (o, _, _) => o | None => OverallFailed end).

Definition overall_name (o : overall) : string := match o with OverallOk => "ok" | OverallPartial => "partial" | OverallFailed => "failed" end.
(** The result of a run as it is reported: its nodes with status and error. *)
Record report := Report { rp_status : overall; rp_nodes : list (string * (status * string)); rp_error : string }.
Fixpoint first_failed (l : list (string * (status * string))) (error : string) : string * string :=
  match l with
  | [] => ("", error)
  | (nid, (st, err)) :: l' => if decide (st = StatusFailed) then (nid, err) else first_failed l' error
  end.
Definition _first_failure (r : report) : string * string := first_failed (rp_nodes r) (rp_error r).
Definition substitutions (name label : string) (run_id : Z) (r : report) : list (string * string) :=
  let '(failed_node, failed_error) := _first_failure r in
  [("{$workflow.name}", name); ("{$workflow.label}", label); ("{$run.id}", tostring run_id); ("{$run.status}", overall_name (rp_status r));
   ("{$run.trigger}", ""); ("{$run.error}", failed_error); ("{$failed.node}", failed_node); ("{$failed.error}", failed_error)].
Definition _render_notify (template : string) (subs : list (string * string)) : string := foldl (fun out kv => str_replace kv.1 kv.2 out) template subs.
(** What the owner is told, and the agent a failure is handed to. *)
Record terminal := Terminal { tm_channels : list string; tm_text : option string; tm_payload : node; tm_agent : option Z }.
Definition setdefault (k : string) (v : json) (d : node) : node := if has k d then d else d ++ [(k, v)].
Definition notify_payload (extra : node) (run_id : Z) (r : report) : node :=
  let '(failed_node, failed_error) := _first_failure r in
  let p := setdefault "status" (JStr (overall_name (rp_status r))) (setdefault "run_id" (JNum (tostring run_id)) extra) in
  if str_truthy failed_node then setdefault "failed_error" (JStr failed_error) (setdefault "failed_node" (JStr failed_node) p) else p.
Definition should_notify (e : end_config) (o : overall) : bool :=
  str_truthy (end_template e) && negb (match end_channels e with [] => true | _ => false end) &&
  match o with
  | OverallFailed => bool_decide (end_when e ∈ ["failed"; "always"])
  | OverallOk | OverallPartial => bool_decide (end_when e ∈ ["success"; "always"])
  end.
Definition _fire_terminal (definition : node) (owner : option string) (name label : string) (run_id : Z) (r : report) : option terminal :=
  '(e, agent) ← validate_end_failure py_str definition;
  let told := should_notify e (rp_status r) && match owner with Some o => str_truthy o | None => false end in
  let text := _render_notify (end_template e) (substitutions name label run_id r) in
  Some (Terminal (if told then end_channels e else []) (if told then Some text else None)
          (if told then notify_payload (end_params e) run_id r else [])
          (match rp_status r, agent with OverallFailed, Some a => if a =? 0 then None else Some a | _, _ => None end)).
End launch.
