(* ===== verification/LaunchProps.v ===== *)
(** Launches: a launch method over the accounts of a site makes one run per account, which
    gets that account and no other; a launch without accounts hands the declared inputs
    to the checks of Inputs; a run whose inputs are refused is never marked as ended. *)
From S2P Require Import Prelude Json Text Windows Retry Stream Messages Masking Graph Refs Workflow Inputs InputsProps Launch.

(** ** Dictionaries that are filled key by key *)

Lemma update_get d d' k : NoDup d'.*1 -> dict_get k (update d d') = match dict_get k d' with Some v => Some v | None => dict_get k d end.
Proof.
  unfold update. revert d. induction d' as [|[k' v] d' IH]; intros d H; [done|]. cbn [foldl fst snd fmap list_fmap] in *. apply NoDup_cons in H as [Hk Hd].
  rewrite IH by done. cbn [dict_get]. destruct (decide (k = k')) as [->|].
  - assert (dict_get k' d' = None) as -> by by apply dict_get_None. by rewrite dict_get_set, decide_True.
  - by rewrite dict_get_set, decide_False.
Qed.
Lemma has_get {A} k (d : list (string * A)) : has k d = true <-> is_Some (dict_get k d).
Proof. unfold has. destruct (dict_get k d); split; try done; by intros [? ?]. Qed.
Lemma filter_NoDup {A} (P : string * A -> Prop) `{forall x, Decision (P x)} (d : list (string * A)) : NoDup d.*1 -> NoDup (filter P d).*1.
Proof.
  induction d as [|[k v] d IH]; simpl; [done|]. intros [Hk Hd]%NoDup_cons. rewrite filter_cons. destruct (decide _); [|by apply IH].
  simpl. apply NoDup_cons. split; [|by apply IH]. rewrite list_elem_of_fmap. intros ([k' v'] & -> & [_ Hin]%list_elem_of_filter). apply Hk, list_elem_of_fmap. by exists (k', v').
Qed.

(** ** Filling in values *)

Section launch.
Variable py_str : json -> string.
Variable accounts_of : string -> list node.

(** A step for one declared key leaves the others alone. *)
Definition one_key (f : supply -> string * input_spec -> supply) : Prop :=
  forall s kv, (NoDup (resolved s).*1 -> NoDup (resolved (f s kv)).*1) /\
    forall k, k <> kv.1 -> dict_get k (resolved (f s kv)) = dict_get k (resolved s) /\ (k ∈ engine_supplied (f s kv) <-> k ∈ engine_supplied s).
Lemma fold_one_key f declared s : one_key f -> 
  (NoDup (resolved s).*1 -> NoDup (resolved (foldl f s declared)).*1) /\
  forall k, k ∉ declared.*1 -> dict_get k (resolved (foldl f s declared)) = dict_get k (resolved s) /\ (k ∈ engine_supplied (foldl f s declared) <-> k ∈ engine_supplied s).
Proof.
  intros Hf. revert s. induction declared as [|kv declared IH]; intros s; [done|]. simpl. destruct (IH (f s kv)) as [H1 H2]. destruct (Hf s kv) as [H3 H4].
  split; [auto|]. intros k [Hk1 Hk2]%not_elem_of_cons. destruct (H2 k Hk2) as [-> ->]. by apply H4.
Qed.
(** A key's own step decides its value. *)
Lemma fold_own_key f declared s k spec : one_key f -> NoDup declared.*1 -> (k, spec) ∈ declared ->
  exists s0, dict_get k (resolved (foldl f s declared)) = dict_get k (resolved (f s0 (k, spec))) /\
    (k ∈ engine_supplied (foldl f s declared) <-> k ∈ engine_supplied (f s0 (k, spec))).
Proof.
  intros Hf Hnd Hin. revert s. induction declared as [|kv declared IH]; intros s; [by apply not_elem_of_nil in Hin|].
  simpl in Hnd |- *. apply NoDup_cons in Hnd as [Hk Hnd]. apply elem_of_cons in Hin as [<-|Hin].
  - exists s. destruct (fold_one_key f declared (f s (k, spec)) Hf) as [_ H]. by apply H.
  - apply IH; done.
Qed.
Lemma supply_value_get k v s : dict_get k (resolved (supply_value k v s)) = Some v /\ k ∈ engine_supplied (supply_value k v s).
Proof. simpl. rewrite dict_get_set, decide_True by done. split; [done|by left]. Qed.
Lemma supply_value_other k k' v s : k' <> k -> dict_get k' (resolved (supply_value k v s)) = dict_get k' (resolved s) /\
  (k' ∈ engine_supplied (supply_value k v s) <-> k' ∈ engine_supplied s).
Proof. intros H. simpl. rewrite dict_get_set, decide_False by done. split; [done|]. rewrite elem_of_cons. naive_solver. Qed.
Lemma take_value_other k k' v s : k' <> k -> dict_get k' (resolved (take_value k v s)) = dict_get k' (resolved s) /\
  (k' ∈ engine_supplied (take_value k v s) <-> k' ∈ engine_supplied s).
Proof. intros H. simpl. by rewrite dict_get_set, decide_False. Qed.
Lemma supply_accounts_one args single over url multiple : one_key (supply_accounts py_str accounts_of args single over url multiple).
Proof.
  intros s [k spec]. unfold supply_accounts. cbn [fst snd]. set (s1 := match dict_get k args with Some v => take_value k v s | None => s end).
  assert (H1 : NoDup (resolved s).*1 -> NoDup (resolved s1).*1) by (unfold s1; destruct (dict_get k args); [simpl; apply dict_set_keys|done]).
  assert (H2 : forall k', k' <> k -> dict_get k' (resolved s1) = dict_get k' (resolved s) /\ (k' ∈ engine_supplied s1 <-> k' ∈ engine_supplied s)).
  { intros k' Hk'. unfold s1. destruct (dict_get k args); [by apply take_value_other|done]. }
  assert (H3 : forall v, (NoDup (resolved s).*1 -> NoDup (resolved (supply_value k v s1)).*1) /\
    forall k', k' <> k -> dict_get k' (resolved (supply_value k v s1)) = dict_get k' (resolved s) /\ (k' ∈ engine_supplied (supply_value k v s1) <-> k' ∈ engine_supplied s)).
  { intros v. split; [intros Hn; simpl; by apply dict_set_keys, H1|]. intros k' Hk'. destruct (supply_value_other k k' v s1 Hk') as [-> ->]. by apply H2. }
  destruct (is_account spec); [apply H3|]. destruct (String.eqb k "accounts"); [apply H3|done].
Qed.
Lemma fill_single_kept declared args single over s :
  (NoDup (resolved s).*1 -> NoDup (resolved (fill_single py_str declared args single over s)).*1) /\
  forall k, (is_Some (dict_get k (resolved s)) -> dict_get k (resolved (fill_single py_str declared args single over s)) = dict_get k (resolved s)) /\
    (k ∈ engine_supplied s -> k ∈ engine_supplied (fill_single py_str declared args single over s)).
Proof.
  unfold fill_single. destruct (_single single over) as [a|]; [|done]. revert s. induction declared as [|kv declared IH]; intros s; [done|]. simpl.
  destruct (_ && _) eqn:E; [|apply IH]. apply andb_true_iff in E as [E _]. apply andb_true_iff in E as [_ E].
  destruct (IH (supply_value kv.1 (JStr (username py_str a)) s)) as [H1 H2]. split; [intros H; apply H1; simpl; by apply dict_set_keys|].
  intros k. destruct (H2 k) as [H3 H4]. split; [|intros Hk; apply H4; simpl; by right].
  intros Hk. assert (Hne : k <> kv.1) by (intros ->; apply negb_true_iff in E; apply has_get in Hk; congruence).
  destruct (supply_value_other kv.1 k (JStr (username py_str a)) s Hne) as [Hg _]. rewrite H3; [done|]. by rewrite Hg.
Qed.
(** What was filled in here reaches the run as it is. *)
Lemma finish_supplied declared args single over definition s out k v : NoDup (resolved s).*1 ->
  dict_get k (resolved s) = Some v -> k ∈ engine_supplied s -> v <> JNull ->
  _finish py_str declared args single over definition s = Some out -> dict_get k out = Some v.
Proof.
  intros Hnd Hg He Hv. unfold _finish. set (s' := fill_single py_str declared args single over s).
  destruct (fill_single_kept declared args single over s) as [Hn Hk]. specialize (Hn Hnd). destruct (Hk k) as [Hg' He']. fold s' in Hn, Hg', He'.
  destruct (coerce_inputs py_str definition _) as [mid|]; [|done]. cbn [mbind option_bind]. set (vals := update mid _).
  assert (Hvals : dict_get k vals = Some v).
  { unfold vals. rewrite update_get by by apply filter_NoDup. rewrite dict_get_filter by done.
    rewrite Hg' by by rewrite Hg. rewrite Hg. by rewrite decide_True by by apply He'. }
  unfold apply_input_defaults. destruct (validate_inputs py_str definition) as [table|] eqn:Et; [|done]. cbn [mbind option_bind].
  destruct (fill_defaults table vals) as [filled_ missing] eqn:Ef. destruct missing; [|done]. intros [= <-].
  apply validate_inputs_ok in Et as [Ht _]. destruct (fill_defaults_get table vals filled_ [] k Ht Ef) as [-> _]. unfold filled. rewrite Hvals. simpl.
  destruct (dict_get k table); [|done]. by destruct v.
Qed.

(** *** A launch method over accounts, for one account *)

Lemma account_value_single a accounts : _account_value_for py_str accounts (Some a) = JStr (username py_str a).
Proof. done. Qed.
Lemma supply_accounts_own args a url s k spec : is_account spec = true ->
  let s' := supply_accounts py_str accounts_of args (Some a) None url true s (k, spec) in
  dict_get k (resolved s') = Some (JStr (username py_str a)) /\ k ∈ engine_supplied s'.
Proof. intros H. unfold supply_accounts. cbn [fst snd]. rewrite H. apply supply_value_get. Qed.
Lemma supply_accounts_raw args a url s spec : is_account spec = false ->
  let s' := supply_accounts py_str accounts_of args (Some a) None url true s ("accounts", spec) in
  dict_get "accounts" (resolved s') = Some (JObj a) /\ "accounts" ∈ engine_supplied s'.
Proof. intros H. unfold supply_accounts. cbn [fst snd]. rewrite H. apply (supply_value_get "accounts" (JObj a)). Qed.
Lemma account_inputs_get declared args a url : NoDup declared.*1 ->
  let s := account_inputs py_str accounts_of declared args (Some a) None url true in
  NoDup (resolved s).*1 /\
  (forall k spec, (k, spec) ∈ declared -> is_account spec = true -> dict_get k (resolved s) = Some (JStr (username py_str a)) /\ k ∈ engine_supplied s) /\
  ((forall spec, dict_get "accounts" declared = Some spec -> is_account spec = false) -> dict_get "accounts" (resolved s) = Some (JObj a) /\ "accounts" ∈ engine_supplied s).
Proof.
  intros Hnd. cbv zeta. unfold account_inputs. pose proof (supply_accounts_one args (Some a) None url true) as Hone.
  set (f := supply_accounts _ _ _ _ _ _ _) in *. set (s := foldl f (Supply [] []) declared).
  destruct (fold_one_key f declared (Supply [] []) Hone) as [Hn Hother]. specialize (Hn (NoDup_nil_2)). fold s in Hn, Hother.
  assert (Hown : forall k spec, (k, spec) ∈ declared -> is_account spec = true -> dict_get k (resolved s) = Some (JStr (username py_str a)) /\ k ∈ engine_supplied s).
  { intros k spec Hin Ha. destruct (fold_own_key f declared (Supply [] []) k spec Hone Hnd Hin) as (s0 & Hg & He). fold s in Hg, He. rewrite Hg, He. by apply supply_accounts_own. }
  assert (Hraw : forall spec, dict_get "accounts" declared = Some spec -> is_account spec = false -> dict_get "accounts" (resolved s) = Some (JObj a) /\ "accounts" ∈ engine_supplied s).
  { intros spec Hg Ha. apply dict_get_Some_elem in Hg. destruct (fold_own_key f declared (Supply [] []) "accounts" spec Hone Hnd Hg) as (s0 & Hg' & He). fold s in Hg', He.
    rewrite Hg', He. by apply supply_accounts_raw. }
  destruct (has "accounts" (resolved s)) eqn:Eh.
  - split; [done|split; [done|]]. intros Hacc. destruct (dict_get "accounts" declared) as [spec|] eqn:Ed; [by apply (Hraw spec); [|apply Hacc]|].
    apply dict_get_None in Ed. destruct (Hother "accounts" Ed) as [Hg _]. apply has_get in Eh as [x Hx]. by rewrite Hx in Hg.
  - split; [by apply dict_set_keys|]. split.
    + intros k spec Hin Ha. destruct (Hown k spec Hin Ha) as [Hg He]. assert (Hne : k <> "accounts").
      { intros ->. assert (has "accounts" (resolved s) = true) by (apply has_get; by rewrite Hg). congruence. }
      destruct (supply_value_other "accounts" k (raw_accounts (Some a) None (accounts_of url)) s Hne) as [-> ->]. done.
    + intros _. apply (supply_value_get "accounts" (JObj a)).
Qed.
End launch.

(** C25: a launch method over the accounts of a site makes one run for every account of the
    site, or for every one that was picked, in the order of the list, or for the first
    only; a run gets the user name of its own account for each account input, whatever
    its arguments say, and its account for [accounts] where that is no account input. *)
Theorem fan_out (py_str : json -> string) (accounts_of : string -> list node) (definition : node) (owner caller : option string) (trigger_id url : string)
  (single_only : bool) (pick : list string) (t : trigger) (runs : list launch)
  (Ht : chosen_trigger py_str definition trigger_id = Some (Some t)) (Hp : tr_params t = AccountList url true)
  (Hruns : start_and_run_multi py_str accounts_of definition owner caller trigger_id single_only pick = Some runs) :
  exists declared, validate_inputs py_str definition = Some declared /\
  let all := accounts_of (str_or (first_site declared) url) in
  let want := filter (fun u => str_truthy u = true) (strip <$> pick) in
  let chosen := match want with [] => all | _ => filter (fun a => username py_str a ∈ want) all end in
  chosen <> [] /\ runs = one_each (if single_only then take 1 chosen else chosen) /\
  forall run a args out, run ∈ runs -> l_single run = Some a ->
    _resolve_inputs py_str accounts_of definition trigger_id args (l_single run) (l_override run) = Some out ->
    (forall k spec, (k, spec) ∈ declared -> is_account spec = true -> dict_get k out = Some (JStr (username py_str a))) /\
    ((forall spec, dict_get "accounts" declared = Some spec -> is_account spec = false) -> dict_get "accounts" out = Some (JObj a)).
Proof.
  unfold start_and_run_multi in Hruns. destruct (validate_def _ _ _); [|done]. destruct (negb _); [done|]. rewrite Ht in Hruns. cbn [mbind option_bind] in Hruns.
  destruct (validate_inputs py_str definition) as [declared|] eqn:Ed; [|done]. exists declared. split; [done|]. cbn [mbind option_bind fmap option_fmap option_map] in Hruns.
  rewrite Hp in Hruns. cbn [launches] in Hruns. cbv zeta. set (all := accounts_of _) in *. set (want := filter _ _) in *.
  assert (Hf : filter (fun a => is_wanted py_str want a = true) all = filter (fun a => username py_str a ∈ want) all).
  { apply list_filter_iff. intros a. apply bool_decide_eq_true. }
  unfold picked in Hruns. rewrite Hf in Hruns. destruct all as [|a0 all'] eqn:Ea; [done|]. rewrite <- Ea in *. clear Hf.
  set (chosen := match want with [] => all | _ => _ end) in *. destruct chosen as [|c0 chosen'] eqn:Ec; [done|]. rewrite <- Ec in *.
  split; [by rewrite Ec|]. injection Hruns as <-. split; [done|]. intros run a args out Hin Hs Hout.
  assert (Hover : l_override run = None). { unfold one_each in Hin. apply list_elem_of_In, in_map_iff in Hin as (x & <- & _). done. }
  rewrite Hs, Hover in Hout. unfold _resolve_inputs in Hout. rewrite Ed in Hout. cbn [mbind option_bind] in Hout.
  unfold chosen_trigger in Ht. destruct (str_truthy trigger_id); [|done]. destruct (validate_triggers py_str definition) as [triggers|]; [|done]. cbn [mbind option_bind] in Ht, Hout.
  destruct (find_trigger trigger_id triggers) as [t'|]; [|done]. cbn [mbind option_bind] in Ht. destruct (tr_enabled t'); [|done]. injection Ht as ->.
  cbn [fmap option_fmap option_map] in Hout. rewrite Hp in Hout.
  destruct (validate_inputs_ok py_str definition declared Ed) as [Hnd _].
  destruct (account_inputs_get py_str accounts_of declared args a url Hnd) as (Hn & Hown & Hraw). split.
  - intros k spec Hk Ha. destruct (Hown k spec Hk Ha) as [Hg He]. by eapply finish_supplied.
  - intros Hacc. destruct (Hraw Hacc) as [Hg He]. by eapply finish_supplied.
Qed.

Lemma take_args_plain declared args s : engine_supplied (take_args declared args s) = engine_supplied s.
Proof.
  unfold take_args. revert s. induction declared as [|kv l IH]; intros s; [done|]. simpl. rewrite IH. by destruct (dict_get kv.1 args).
Qed.
(** Without accounts the values of a launch method, overridden by the arguments of the
    declared keys, go through the checks of declared inputs. *)
Lemma value_launch (py_str : json -> string) (accounts_of : string -> list node) (definition : node) (trigger_id : string) (args value : list (string * json))
  (source : string) (declared : list (string * input_spec)) (triggers : list trigger) :
  validate_inputs py_str definition = Some declared -> str_truthy trigger_id = true -> validate_triggers py_str definition = Some triggers ->
  tr_params <$> find_trigger trigger_id triggers = Some (StaticValue source value) ->
  _resolve_inputs py_str accounts_of definition trigger_id args None None = run_inputs py_str definition (resolved (value_inputs declared args value)).
Proof.
  intros Hd Ht Htr Hf. unfold _resolve_inputs. rewrite Hd, Ht, Htr. cbn [mbind option_bind]. rewrite Hf. unfold _finish, fill_single, run_inputs. cbn [_single].
  assert (He : engine_supplied (value_inputs declared args value) = []) by (unfold value_inputs; by rewrite take_args_plain).
  rewrite He, (filter_all (fun kv : string * json => kv.1 ∉ [])) by (apply Forall_true; intros x Hx; by apply not_elem_of_nil in Hx). destruct (coerce_inputs _ _ _) as [out|]; [|done]. cbn [mbind option_bind].
  by rewrite filter_none by (apply Forall_true; intros x Hx; by apply not_elem_of_nil in Hx).
Qed.

Module LaunchSample.
Definition spec : node := [("key", JStr "acct"); ("type", JStr "account")].
Definition by_account : node :=
  [("id", JStr "t1"); ("cron", JStr "0 8 * * *"); ("params", JObj [("source", JStr "account_list"); ("url", JStr "https://a.b"); ("multiple", JBool true)])].
Definition step1 : node := [("id", JStr "n1"); ("name", JStr "first"); ("kind", JStr "code_run"); ("code", JStr "print(1)")].
Definition defn : node := [("inputs", JArr [JObj spec]); ("triggers", JArr [JObj by_account]); ("nodes", JArr [JObj step1])].
Definition account (name : string) : node := [("id", JNum "1"); ("username", JStr name)].
Definition sample_site (url : string) : list node := if String.eqb url "https://a.b" then [account "ann"; account "bob"; account "cat"] else [].
Example two_runs : start_and_run_multi dump_value sample_site defn None None "t1" false ["cat"; " bob "] =
  Some [Launch (Some (account "bob")) None; Launch (Some (account "cat")) None].
Proof. by vm_compute. Qed.
Definition t1 : trigger := Trigger "t1" "cron" "" "0 8 * * *" true (AccountList "https://a.b" true).
Lemma fan_out_witness : exists out,
  _resolve_inputs dump_value sample_site defn "t1" [("acct", JStr "other")] (Some (account "bob")) None = Some out /\ dict_get "acct" out = Some (JStr "bob").
Proof.
  eexists. split; [by vm_compute|].
  edestruct (fan_out dump_value sample_site defn None None "t1" "https://a.b" false ["cat"; " bob "] t1 _ ltac:(by vm_compute) eq_refl two_runs) as (declared & Hd & _ & _ & H).
  vm_compute in Hd. injection Hd as <-.
  eapply (H (Launch (Some (account "bob")) None) (account "bob") [("acct", JStr "other")]); [by left|done|by vm_compute|by left|done].
Defined.
(** A required input that nothing supplies is refused after the run was recorded and
    before anything could mark it as ended. *)
Lemma missing_input_never_ends :
  let d : node := [("inputs", JArr [JObj [("key", JStr "n"); ("required", JBool true)]]); ("nodes", JArr [JObj step1])] in
  start_and_run_multi dump_value sample_site d None None "" false [] = Some [Launch None None] /\
  forall start, run_status dump_value sample_site start d "" [] (Launch None None) = None.
Proof. split; by vm_compute. Qed.
End LaunchSample.
